(* ===== verification/_CoqProject ===== *)
-Q . S2P
Prelude.v
Hdf.v
HdfQueue.v
Rpc.v
Arrays.v
DataFifo.v
UsbFn.v
AcmPort.v
AcmPortFacts.v
AcmIo.v
AcmSerial.v
AcmSerialFacts.v
AcmRun.v
AcmInstance.v
UsbDesc.v
UsbDescSpec.v
UsbDescFacts.v
UsbDescParse.v
UsbDescConfig.v
UsbDescLoop.v
UsbDescWhole.v
UsbDescRun.v
UsbDescRam.v
UsbDescErrors.v
UsbDescInstance.v
UsbPool.v
UsbPoolFacts.v
UsbPoolOpen.v
UsbPoolRules.v
UsbPoolUse.v
UsbPoolSteps.v
UsbPoolRun.v
UsbPoolSelect.v
UsbPoolErrors.v
UsbPoolInstance.v
UsbReq.v
UsbReqApi.v
UsbReqUse.v
UsbReqFacts.v
UsbReqFill.v
UsbReqRel.v
UsbReqSteps.v
UsbReqSend.v
UsbReqAlloc.v
UsbReqRun.v
UsbReqRaw.v
UsbReqErrors.v
UsbReqInstance.v
CodecTypes.v
CodecService.v
CodecInstance.v
CodecWire.v
CodecStub.v
CodecStubFacts.v
CodecProxy.v
CodecProxyFacts.v
CodecRpc.v
CodecCallback.v
CodecCallbackFacts.v
CodecManager.v
CodecManagerFacts.v
CodecQuery.v
CodecCaps.v
CodecCapsSpec.v
CodecCapsFacts.v
CodecCapsLoad.v
CodecCapsTable.v
CodecCapsRun.v
CodecDriver.v
CodecCapsInstance.v
Input.v
InputOps.v
InputSpec.v
InputFacts.v
InputRules.v
InputCommands.v
InputSteps.v
InputRun.v
InputErrors.v
InputInstance.v
