(* ===== verification/Prelude.v ===== *)
(** * Verification of the driver peripherals: codec, USB serial function, USB
      host interfaces and requests, input

    The repository holds the user-side driver components of a device: for each
    peripheral a driver or a service, and the client of the service.  This
    library models six parts of it in full detail, in the C code's own terms,
    and proves what makes them correct; where the code does not do what it
    means to, a theorem says so.

    ** The parts and how they interact

    - The _codec 2.0 remote interface_ ([codec/hal/src]).  A client calls a
      proxy; the proxy marshals the arguments into a message, the framework
      delivers it, a stub unmarshals it and calls the component service, which
      asks the OpenMAX adapter; the reply travels back the same way.  A manager
      creates components; a component reports events through a callback
      interface that is remote in the other direction.  When the driver of the
      service starts, it reads the capabilities of the components from the device
      configuration into a table, from which clients are answered.
    - The _CDC ACM function of the USB device kit_ ([usb/gadget/function/acm],
      [usb/gadget/function/include/data_fifo.h], requests of [usb/ddk/device]):
      a serial port towards the user, two data pipes and a notification pipe
      towards the host, with a byte ring per direction.
    - The _configuration-descriptor parser of the USB host kit_
      ([usb/ddk/host/src/usb_raw_api_library.c], [usb_raw_api.c]): it turns the
      bytes a device sends into the structures the rest of the host kit uses.
    - The _interface pool of the USB host kit_ ([usb_protocol.c],
      [usb_interface_pool.c]): when a device is opened it reads the configuration
      through the parser and makes an object for every alternate setting and a
      pipe for every endpoint; clients claim, open, select and release them.
    - The _requests of the USB host kit_ ([linux_adapter.c], [usb_io_manage.c],
      the request functions of the three files above): a client makes a request
      for an open interface, fills it and submits it; it waits in the queue of the
      pool for the sending thread, which offers its URB to the kernel; the
      receiving thread takes finished URBs from the kernel and completes the
      request, calling the client back or waking it.
    - The _input HAL_ ([input/hal/src]): a manager of open devices, each bound to the
      I/O service of its driver; a controller that exchanges messages with the
      drivers; a reporter that registers listeners, through which the framework
      brings the events of devices and of the host to the application's callbacks.

    ** Files

    Shared: [Prelude] (C integers as [Z] with their wrap-around, the C monad [M]
    with undefined behaviour as [None], its rule [wp], notations); [Hdf] (status
    codes, message buffers, memory and remote objects of the driver framework as
    classes with laws, the state of two processes and the rules of the framework
    calls); [HdfQueue] (a framework that satisfies the laws); [Rpc] (what a
    remote interface is, and the contract between its two ends as a class);
    [Arrays] ([int8_t] arrays in messages).

    Codec: [CodecTypes] ([codec_types.c] and the structures), [CodecService]
    ([codec_component_type_service.c], and the requests as an abstract
    interface), [CodecInstance] (an adapter), [CodecWire] (round trips),
    [CodecStub] and [CodecStubFacts] ([codec_component_type_stub.c]),
    [CodecProxy] and [CodecProxyFacts] ([codec_component_type_proxy.c]),
    [CodecRpc] (both ends together), [CodecCallback] and [CodecCallbackFacts]
    ([codec_callback_type_proxy.c], [codec_callback_type_stub.c]),
    [CodecManager] and [CodecManagerFacts]
    ([codec_component_manager_proxy.c]), [CodecQuery]
    ([codec_component_capability_config.c] and the queries of the manager),
    [CodecCaps] ([codec_config_parser.c], the data functions of
    [codec_component_capability_config.c], the start of the driver, over the class
    [ResourceTree] of the device configuration), [CodecCapsSpec] (capabilities as
    the author of a configuration describes them, and what a table entry means),
    [CodecCapsFacts], [CodecCapsLoad], [CodecCapsTable] (words and tables, one
    capability, the whole table and its memory), [CodecCapsRun] (the theorems),
    [CodecDriver] (the life of the stubs and of the driver), [CodecCapsInstance]
    (a configuration with two components).

    USB function: [DataFifo] ([data_fifo.h]), [UsbFn] ([usbfn_request.h],
    [usbfn_sdk_if.c], [usbfn_io_mgr.c], [usbfn_dev_mgr.c]: requests only),
    [AcmPort] and [AcmSerial] ([cdcacm.c]: the data path, and the operations and
    device events), [AcmPortFacts], [AcmIo], [AcmSerialFacts] (the invariant of
    the port and that every function keeps it), [AcmRun] (the theorems),
    [AcmInstance] (a kit and a session).

    USB host: [UsbDesc] (the code), [UsbDescSpec] (the grammar of well-formed
    configurations, their bytes and their meaning, without the parser),
    [UsbDescFacts], [UsbDescParse], [UsbDescConfig],
    [UsbDescLoop], [UsbDescWhole] (from the search for a descriptor to the whole
    configuration), [UsbDescRun] and [UsbDescErrors] (the theorems),
    [UsbDescInstance] (the configuration of a serial adapter), [UsbDescRam]
    (the parser and the names of memory blocks).

    Interfaces of a device: [UsbPool] (the code, over the class [HostAdapter] of
    the adapter's operations), [UsbPoolFacts] and [UsbPoolOpen] (making the
    objects, and which a configuration means), [UsbPoolRules] (finding, counting
    and destroying in the pool of one device), [UsbPoolUse] (the abstract use of
    a device: [use_step], and a client that makes the calls: [serve]),
    [UsbPoolSteps] (the relation between the two, kept by every call),
    [UsbPoolRun], [UsbPoolSelect] and [UsbPoolErrors] (the theorems),
    [UsbPoolInstance] (a session with a serial adapter).

    Requests: [UsbReq] (the adapter: memory, URBs, completion) and [UsbReqApi]
    (making, filling, queueing, waiting, the expert mode), over the class
    [UrbKernel] of the kernel below the device file; [UsbReqUse] (the moves of
    clients, threads and kernel, the rules for them, and the abstract service:
    [spec_next]); [UsbReqFacts] and [UsbReqFill] (rules of the single calls),
    [UsbReqRel] (the relation between code and service), [UsbReqSteps],
    [UsbReqSend], [UsbReqAlloc] (every move keeps it),
    [UsbReqRun], [UsbReqRaw] and [UsbReqErrors] (the theorems),
    [UsbReqInstance] (a session, and a kernel that refuses every third URB).

    Input: [Input] ([input_manager.c], the class [InputDrivers] of the drivers and
    the framework calls that bind services and register listeners), [InputOps]
    ([input_controller.c], [input_reporter.c], and [event]: the framework calling
    the listeners of a service), [InputSpec] (the laws of drivers, the abstract
    [registry], the rules [permitted], the answers [expected] and [command_plan]),
    [InputFacts] (the relation [represents] between manager and registry),
    [InputRules] and [InputCommands] (rules of the calls, of messages from drivers
    and of the commands), [InputSteps] (every request keeps the relation),
    [InputRun] (start and release, and the theorems), [InputErrors],
    [InputInstance] (a session with a touch screen).

    A definition has the name of the C function or structure it models.  Pieces
    of a function that needed a name of their own (a loop, a branch) are in
    lower case.

    ** What the theorems show

    - Codec: a method called on the proxy does exactly what the service does when
      it is called directly, message buffers and memory balanced
      ([CodecRpc.rpc_transparent]; a buffer to allocate must be of the shared
      memory type, for any other the stub has no defined behaviour,
      [allocate_unshared_undefined]); whatever the framework refuses, the adapter
      is asked at most once and success means it was asked
      ([rpc_at_most_once]); sessions refine the direct service
      ([session_refines_direct]); the structures survive the wire
      ([CodecWire]), and no message can make the receiver of a buffer misbehave
      ([buffer_unmarshal_safe]); callbacks arrive
      ([CodecCallbackFacts.callback_delivered]); creation, destruction and
      queries ([CodecManagerFacts], [CodecQuery]).
    - Codec configuration: a client gets the capabilities the configuration
      describes, from the attributes in the tree to the answer
      ([CodecCapsRun.capabilities_reach_client]); whatever the tree holds and
      whatever memory is refused, the table is loaded whole or empty and its memory
      accounted for ([driver_init_all_or_nothing]); the driver's life leaves nothing
      behind ([CodecDriver.driver_lifecycle]).
    - USB function: the ring refines a bounded byte queue through the wrap-around
      of its indices ([DataFifo.fifo_refines_queue]); over any interleaving of
      user operations, device events and completions the port has defined
      behaviour and loses no request ([AcmRun.acm_safe]); bytes accepted are
      submitted in order, each once ([tx_in_order]); each operation and
      completion has its functional specification.
    - USB host: reading a well-formed configuration gives the structure that says
      what the bytes mean ([UsbDescRun.config_read]), freeing it returns all
      memory ([config_freed]), refused memory is reported and nothing else goes
      wrong ([config_refused]); for arbitrary bytes the count of the interfaces
      stays in its arrays ([UsbDescErrors.interfaces_counted]).
    - USB host interfaces: opening a device makes exactly the objects its
      configuration means ([UsbPoolRun.device_objects]); every permitted sequence
      of requests is answered as the abstract use says ([client_served]) and
      leaves nothing behind when everything was given back
      ([unused_device_closed]).
    - USB host requests: whatever order clients, threads and kernel take turns in,
      a session that keeps the rules is answered as the abstract service says
      ([UsbReqRun.requests_served]), every request is completed once or taken back
      ([completed_once]), the state stays well formed ([requests_well_formed]) and
      freed requests leave nothing behind ([requests_released]); the synchronous
      transfers of the expert mode do what they say ([UsbReqRaw]).
    - Input: a session of permitted requests, with events in between, is answered as
      a registry of devices and callbacks says
      ([InputRun.session_refines_registry]), and a release closes whatever is
      still open ([release_gives_back_everything]); a command carries its argument
      to the driver and the driver's answer back ([command_answered]); the
      information of a device says what its driver tells ([device_described]).
    - Defects, each with the input that shows it:
      [CodecManagerFacts.second_component_hijacks_first],
      [CodecQuery.token_failure_leaks_buffers],
      [CodecRpc.allocate_unshared_undefined], [CodecCapsRun.nameless_memory_sent], [AcmRun.refused_loses_bytes],
      [AcmRun.write_error_deadlocks], [UsbDescErrors.truncated_descriptor_hangs],
      [zero_length_hangs], [config_length_wraps], [refused_interface_leaks],
      [UsbDescInstance.alternate_settings_overflow],
      [UsbPoolRun.absent_interface_keeps_device],
      [UsbPoolErrors.endpointless_setting_undefined],
      [UsbPoolSelect.close_after_select], [UsbReqErrors.iso_undefined],
      [neighbour_unmapped], [raw_timeout_dangling], [cancelled_control_sticks],
      [InputErrors.hotplug_event_after_removal], [close_loses_listener],
      [second_registration] and the lemmas beside them.

    ** Fuel and bounds

    Array loops are structural on the count.  The loops of the descriptor parser
    advance by lengths found in the bytes, so they take fuel; running out of it
    is the outcome [Running], distinct from undefined behaviour and from every
    result.  A well-formed configuration of [n] bytes needs at most [n + 1],
    because each step consumes a byte at least; a theorem about a loop that does
    not end states [Running] for every larger amount.  The loops that submit
    requests ([start_tx], [start_rx]) take a request out of a pool each time and
    are recursive in the pool.  Eight- and sixteen-bit fields, counters and
    [size_t] differences wrap where the C code wraps.

    ** What is not modelled, and why

    - The framework ([HdfSBuf], OSAL, remote objects), the kernel's USB gadget and
      host interfaces and the OpenMAX library are not in the repository or are
      tables of function pointers with several implementations: they are classes
      with laws, or parameters, and every theorem that assumes something of them
      has an instance.
    - The OpenMAX adapter of the codec service ([codec/hal/v2.0], C++) is such a
      class, too ([CodecService.OmxAdapter], [OmxAdapterLaws]): its laws say what
      it writes into the storage it is given, as [component_node.cpp] does.  Its
      functions are total: calls that go wrong inside the adapter (a buffer of a
      handle type that the vendor's component refuses, lengths of a client that
      contradict each other) are outside the theorems; they are findings.
    - Reference counters of the host kit ([OsalAtomic], 32 bits) are integers
      without a bound: the difference shows after 2^31 claims.
    - Threads are interleaved at the operations that take the port's mutex; what
      runs inside the mutex is one step.  Log output has no effect.
    - [codec_types.c] is modelled for the structures of the component interface;
      the entry point that dispatches to the stub remembers the device and is
      not modelled.  What fresh memory holds is a parameter ([FreshMemory]).
    - Of [cdcacm.c] the control requests, the command dispatch, initialisation
      and release, the property methods and the speed tests are not modelled yet.
    - The memory test mode of [RawUsbMemCalloc] is off.
    - Of the host kit the life of the I/O threads is not modelled ([UsbIoStart]
      and [UsbIoStop] belong to the adapter class), nor opening and configuring a
      device over sysfs, sessions other than the one at hand, and the LiteOS
      adapter.  The theorems about clients speak of a session with one device.
    - A call of a client on the host kit is one step.  A call that waits is cut
      where it waits, a wait ends with success or a time-out; the loops of the two
      threads are cut where another thread can come between (taking a request,
      looking whether it was cancelled, each attempt to submit it, each URB that is
      reaped).  Finer interleavings, within one of these steps, are not covered.
    - The theorems about requests ask for buffers whose structure fits into the
      pages mapped for them, no isochronous pipes, and no cancelling of control
      requests: outside these rules [UsbReqErrors] shows what goes wrong.
    - Of input the adapters and the user-space drivers are not modelled; the checks
      that a pointer for a result is not null are left out.  A call of the
      application and the delivery of an event are one step each, so that an event
      in the middle of a call, which takes no mutex, is not covered.  The theorems
      ask that callbacks are registered once and removed before a device is closed,
      and that no event of the host comes after its callback was removed: outside
      these rules [InputErrors] shows what goes wrong.
    - Everything else (audio, display, camera, sensors, WLAN, the USB
      service and host drivers, C++ code) is not modelled; the list is in the
      manifest of the components.

    ** Plan

    Next: the rest of [cdcacm.c] (control requests, dispatch, events of the
    device), the life of the host kit's I/O threads and several devices in a
    session, the host's serial driver over
    [UsbReqUse], the sensor, light and vibrator controllers over the services of
    [Input], and the service ends of codec 1.0 and WLAN over [Rpc]. *)
From stdpp Require Export base option list gmap strings.
From Stdlib Require Export ZArith Lia.
Open Scope Z_scope.

(** ** C integers

    A value of a C integer type is a [Z]; the conversions below are the
    wrap-around the language performs when a value is converted to the type. *)
Definition u8 (z : Z) : Z := z `mod` 2 ^ 8.
Definition u16 (z : Z) : Z := z `mod` 2 ^ 16.
Definition u32 (z : Z) : Z := z `mod` 2 ^ 32.
Definition i32 (z : Z) : Z := (z + 2 ^ 31) `mod` 2 ^ 32 - 2 ^ 31.

Lemma u32_id z : 0 <= z < 2 ^ 32 -> u32 z = z.
Proof. intros H. unfold u32. by apply Z.mod_small. Qed.

Lemma u32_range z : 0 <= u32 z < 2 ^ 32.
Proof. unfold u32. apply Z.mod_pos_bound. lia. Qed.

Lemma i32_id z : - 2 ^ 31 <= z < 2 ^ 31 -> i32 z = z.
Proof. intros H. unfold i32. rewrite Z.mod_small; lia. Qed.

Lemma u32_i32 z : u32 (i32 z) = u32 z.
Proof.
  unfold u32, i32.
  rewrite Zminus_mod_idemp_l. f_equal. lia.
Qed.

(** An enumeration or a 32-bit unsigned field that travels as [int32_t] and is
    stored back into its 32 bits is unchanged. *)
Lemma u32_i32_id z : 0 <= z < 2 ^ 32 -> u32 (i32 z) = z.
Proof. intros H. rewrite u32_i32. by apply u32_id. Qed.

(** ** The C monad

    A C function over a program state [W] either finishes with its result and
    the state it leaves behind, or has no defined behaviour ([None]): a null or
    out-of-range access, a use of a released object, a double free. *)
Definition M (W A : Type) : Type := W -> option (A * W).

#[global] Instance M_ret {W} : MRet (M W) := fun A a w => Some (a, w).
#[global] Instance M_bind {W} : MBind (M W) :=
  fun A B k m w => match m w with Some (a, w') => k a w' | None => None end.

Definition undefined {W A} : M W A := fun _ => None.
Definition get_state {W} : M W W := fun w => Some (w, w).
Definition put_state {W} (w : W) : M W unit := fun _ => Some (tt, w).
Definition gets {W A} (f : W -> A) : M W A := fun w => Some (f w, w).
Definition modify {W} (f : W -> W) : M W unit := fun w => Some (tt, f w).

(** An access through a pointer or to an array cell that may not be there. *)
Definition deref {W A} (p : option A) : M W A :=
  match p with Some a => mret a | None => undefined end.

(** [wp m Q w]: started in [w], [m] has defined behaviour, returns, and its
    result and final state satisfy [Q]. *)
Definition wp {W A} (m : M W A) (Q : A -> W -> Prop) (w : W) : Prop :=
  match m w with Some (a, w') => Q a w' | None => False end.

Arguments wp {W A} m Q w : simpl never.
Arguments M_ret {W} A a w : simpl never.
Arguments M_bind {W} A B k m w : simpl never.

Section wp_rules.
Context {W : Type}.

Lemma wp_ret {A} (a : A) (Q : A -> W -> Prop) w :
  Q a w -> wp (mret a) Q w.
Proof. done. Qed.

Lemma wp_bind {A B} (m : M W A) (k : A -> M W B) Q w :
  wp m (fun a w' => wp (k a) Q w') w -> wp (m ≫= k) Q w.
Proof. unfold wp, mbind, M_bind. by destruct (m w) as [[a w']|]. Qed.

Lemma wp_mono {A} (m : M W A) (P Q : A -> W -> Prop) w :
  wp m P w -> (forall a w', P a w' -> Q a w') -> wp m Q w.
Proof. unfold wp. destruct (m w) as [[a w']|]; eauto. Qed.

Lemma wp_deref {A} (p : option A) a (Q : A -> W -> Prop) w :
  p = Some a -> Q a w -> wp (deref p) Q w.
Proof. by intros ->. Qed.

Lemma wp_gets {A} (f : W -> A) (Q : A -> W -> Prop) w :
  Q (f w) w -> wp (gets f) Q w.
Proof. done. Qed.

Lemma wp_modify f (Q : unit -> W -> Prop) w :
  Q tt (f w) -> wp (modify f) Q w.
Proof. done. Qed.

Lemma wp_inv {A} (m : M W A) (Q : A -> W -> Prop) w :
  wp m Q w -> exists a w', m w = Some (a, w') /\ Q a w'.
Proof. unfold wp. destruct (m w) as [[a w']|]; [eauto | done]. Qed.

(** A sequence has no defined behaviour when its first part has none, or when
    its second has none wherever the first ends. *)
Lemma undefined_now {A B} (m : M W A) (k : A -> M W B) w : m w = None -> (m ≫= k) w = None.
Proof. unfold mbind, M_bind. by intros ->. Qed.

Lemma undefined_later {A B} (m : M W A) (k : A -> M W B) w :
  wp m (fun a w' => k a w' = None) w -> (m ≫= k) w = None.
Proof. unfold wp, mbind, M_bind. by destruct (m w) as [[a w']|]. Qed.
End wp_rules.

(** Running a function on a part of the state. *)
Definition zoom {V W A} (get : W -> V) (put : V -> W -> W) (m : M V A) : M W A := fun w =>
  match m (get w) with Some (a, v) => Some (a, put v w) | None => None end.

Lemma wp_zoom {V W A} (get : W -> V) (put : V -> W -> W) (m : M V A) (Q : A -> W -> Prop) w :
  wp m (fun a v => Q a (put v w)) (get w) -> wp (zoom get put m) Q w.
Proof. unfold wp, zoom. by destruct (m (get w)) as [[a v]|]. Qed.

(** ** List facts shared by the components *)
Lemma list_cell_dec {A} (l : list A) (i n : nat) :
  (i + S n <= length l)%nat ->
  exists x, l !! i = Some x /\ drop i l = x :: drop (S i) l.
Proof.
  intros H. destruct (lookup_lt_is_Some_2 l i) as [x Hx]; [lia|].
  exists x. split; [done|]. by apply drop_S.
Qed.

Lemma insert_prefix {A} (l : list A) (i : nat) (x : A) (done_ : list A) :
  take i l = done_ -> (i < length l)%nat ->
  take (S i) (<[i := x]> l) = done_ ++ [x].
Proof.
  intros <- H.
  erewrite take_S_r; [|by apply list_lookup_insert_eq].
  by rewrite take_insert_ge by lia.
Qed.

(** ** C control flow

    [unless m do e; k] is [if (!m) { e } k] for a call [m] that reports success
    as a boolean, and [x ←? m else e; k] the same for a call that delivers a
    value on success.  In both [e] ends with a [return]. *)
Declare Scope c_scope.
Notation "'unless' m 'do' e ; k" :=
  (mbind (fun ok : bool => if negb ok then e else k) m)
  (at level 20, m at level 100, e at level 100, k at level 200, right associativity,
   format "'[v' 'unless'  m  'do'  e ; '/' k ']'") : c_scope.
Notation "x ←? m 'else' e ; k" :=
  (mbind (fun o => match o with None => e | Some x => k end) m)
  (at level 20, m at level 100, e at level 100, k at level 200, right associativity,
   format "'[v' x  ←?  m  'else'  e ; '/' k ']'") : c_scope.
Open Scope c_scope.
