(* ===== verification/Hdf.v ===== *)
(** * Hdf: the driver framework the HDI code runs on

    The framework itself (status codes, [HdfSBuf] message buffers, the OSAL
    allocator, remote services) is not part of the repository, so it enters
    the model as two type classes: the operations the code calls, and the laws
    the code relies on.  This file also fixes the program state shared by the
    two ends of a remote call and gives the proof rules for the framework
    calls on that state. *)
From S2P Require Import Prelude.
Open Scope Z_scope.

(** ** Status codes *)
Class HdfStatus := {
  HDF_SUCCESS : Z;
  HDF_FAILURE : Z;
  HDF_ERR_INVALID_PARAM : Z;
  HDF_ERR_INVALID_OBJECT : Z;
  HDF_ERR_MALLOC_FAIL : Z;
  HDF_ERR_IO : Z;
  HDF_ERR_DEVICE_BUSY : Z;
}.

(** The documented convention: success is zero, every error is not. *)
Class HdfStatusLaws `{!HdfStatus} := {
  hdf_success_zero : HDF_SUCCESS = 0;
  hdf_failure_nz : HDF_FAILURE <> 0;
  hdf_invalid_param_nz : HDF_ERR_INVALID_PARAM <> 0;
  hdf_invalid_object_nz : HDF_ERR_INVALID_OBJECT <> 0;
  hdf_malloc_fail_nz : HDF_ERR_MALLOC_FAIL <> 0;
  hdf_io_nz : HDF_ERR_IO <> 0;
  hdf_device_busy_nz : HDF_ERR_DEVICE_BUSY <> 0;
}.

(** ** Message buffers

    One item per typed [HdfSbufWrite...] call. *)
Inductive item :=
  | IInt8 (v : Z) | IUint8 (v : Z)
  | IInt32 (v : Z) | IUint32 (v : Z)
  | IInt64 (v : Z) | IUint64 (v : Z)
  | IString (s : string)
  | IFd (fd : Z)
  | IUnpad (bytes : list Z)
  | IBuffer (bytes : list Z)
  | IRemote (r : Z)
  | IToken (desc : string).

(** The typed read that matches an item. *)
Inductive kind :=
  | KInt8 | KUint8 | KInt32 | KUint32 | KInt64 | KUint64
  | KString | KFd | KUnpad (n : Z) | KBuffer | KRemote | KToken.

Definition kind_of (i : item) : kind :=
  match i with
  | IInt8 _ => KInt8 | IUint8 _ => KUint8
  | IInt32 _ => KInt32 | IUint32 _ => KUint32
  | IInt64 _ => KInt64 | IUint64 _ => KUint64
  | IString _ => KString | IFd _ => KFd
  | IUnpad bs => KUnpad (Z.of_nat (length bs)) | IBuffer _ => KBuffer
  | IRemote _ => KRemote | IToken _ => KToken
  end.

(** The framework operations.  [SB] is the representation of a message buffer.
    [sbuf_obtain_ok n] and [alloc_ok n size] say whether the [n]-th request for
    a buffer, or for [size] bytes of memory, is granted. *)
Class Platform (SB : Type) := {
  sbuf_new : SB;
  sbuf_write : item -> SB -> bool * SB;
  sbuf_read : kind -> SB -> option item * SB;
  sbuf_check_token : string -> SB -> bool * SB;
  sbuf_obtain_ok : nat -> bool;
  alloc_ok : nat -> Z -> bool;
  set_desc_ok : Z -> string -> bool;
  fd_image : Z -> Z;
  remote_image : Z -> Z;
}.

(** What the receiving process obtains for an item: values arrive as they were
    written; a file descriptor or a remote object arrives as the receiver's own
    handle of the same object. *)
Definition recv `{!Platform SB} (i : item) : item :=
  match i with
  | IFd fd => IFd (fd_image fd)
  | IRemote r => IRemote (remote_image r)
  | _ => i
  end.

(** A message buffer is a queue of typed items: a successful write appends, a
    read of the matching type takes the oldest item.  [sbuf_view] is the list
    of the items not read yet. *)
Class PlatformLaws (SB : Type) `{!Platform SB} := {
  sbuf_view : SB -> list item;
  sbuf_view_new : sbuf_view sbuf_new = [];
  sbuf_write_view i s s' :
    sbuf_write i s = (true, s') -> sbuf_view s' = sbuf_view s ++ [i];
  sbuf_read_view i l s :
    sbuf_view s = i :: l ->
    exists s', sbuf_read (kind_of i) s = (Some (recv i), s') /\ sbuf_view s' = l;
  (** A 32-bit item carries its bits: read as unsigned it is the value
      modulo 2^32. *)
  sbuf_read_i32_u32 v l s :
    sbuf_view s = IInt32 v :: l ->
    exists s', sbuf_read KUint32 s = (Some (IUint32 (u32 v)), s') /\ sbuf_view s' = l;
  sbuf_check_view d l s :
    sbuf_view s = IToken d :: l ->
    exists s', sbuf_check_token d s = (true, s') /\ sbuf_view s' = l;
  fd_image_valid fd : 0 <= fd < 2 ^ 31 -> 0 <= fd_image fd < 2 ^ 31;
}.

(** No request for memory is refused and no message buffer is full. *)
Definition reliable (SB : Type) `{!Platform SB} : Prop :=
  (forall n, sbuf_obtain_ok n = true) /\
  (forall n size, 0 < size -> alloc_ok n size = true) /\
  (forall i s, (sbuf_write i s).1 = true) /\
  (forall r d, set_desc_ok r d = true).

(** ** The program state

    [w_sbufs] are the live message buffers, [w_live] the live heap blocks,
    [w_next] counts requests for memory (a granted one is named by its number),
    [w_svc] is the state of the component under the call. *)
Record World (SB X : Type) := mkWorld {
  w_sbufs : gmap nat SB;
  w_live : gset nat;
  w_next : nat;
  w_svc : X;
}.
Arguments mkWorld {SB X} _ _ _ _.
Arguments w_sbufs {SB X} _.
Arguments w_live {SB X} _.
Arguments w_next {SB X} _.
Arguments w_svc {SB X} _.

(** A heap array: the name of its block and its cells, each cell holding a
    value of the array's element type.  A C pointer to one is an [option]. *)
Record mem := Mem { mem_id : nat; mem_cells : list Z }.
Definition cells (p : option mem) : list Z :=
  match p with Some m => mem_cells m | None => [] end.

Section operations.
Context {SB : Type} `{!Platform SB} {X : Type}.
Implicit Types w : World SB X.
Abbreviation M := (M (World SB X)).

Definition HdfSbufTypedObtain : M (option nat) := fun w =>
  let n := w_next w in
  if sbuf_obtain_ok n
  then Some (Some n, mkWorld (<[n := sbuf_new]> (w_sbufs w)) (w_live w) (S n) (w_svc w))
  else Some (None, mkWorld (w_sbufs w) (w_live w) (S n) (w_svc w)).

Definition HdfSbufRecycle (d : nat) : M unit := fun w =>
  match w_sbufs w !! d with
  | Some _ => Some (tt, mkWorld (delete d (w_sbufs w)) (w_live w) (w_next w) (w_svc w))
  | None => None
  end.

Definition on_sbuf {A} (d : nat) (f : SB -> A * SB) : M A := fun w =>
  match w_sbufs w !! d with
  | Some s =>
      let '(a, s') := f s in
      Some (a, mkWorld (<[d := s']> (w_sbufs w)) (w_live w) (w_next w) (w_svc w))
  | None => None
  end.

Definition HdfSbufWrite (d : nat) (i : item) : M bool := on_sbuf d (sbuf_write i).
Definition HdfSbufRead (k : kind) (d : nat) : M (option item) := on_sbuf d (sbuf_read k).

Definition HdfSbufWriteInt8 d v := HdfSbufWrite d (IInt8 v).
Definition HdfSbufWriteUint8 d v := HdfSbufWrite d (IUint8 v).
Definition HdfSbufWriteInt32 d v := HdfSbufWrite d (IInt32 v).
Definition HdfSbufWriteUint32 d v := HdfSbufWrite d (IUint32 v).
Definition HdfSbufWriteInt64 d v := HdfSbufWrite d (IInt64 v).
Definition HdfSbufWriteString d v := HdfSbufWrite d (IString v).
Definition HdfSbufWriteFileDescriptor d v := HdfSbufWrite d (IFd v).
Definition HdfSbufWriteUnpadBuffer d v := HdfSbufWrite d (IUnpad v).
Definition HdfSbufWriteRemoteService d v := HdfSbufWrite d (IRemote v).
Definition CheckInterfaceToken (desc : string) d : M bool := on_sbuf d (sbuf_check_token desc).

(** A read reports failure as [None]. *)
Definition read_as {A} (k : kind) (f : item -> option A) (d : nat) : M (option A) :=
  o ← HdfSbufRead k d; mret (o ≫= f).

Definition HdfSbufReadInt8 := read_as KInt8 (fun i => match i with IInt8 v => Some v | _ => None end).
Definition HdfSbufReadUint8 := read_as KUint8 (fun i => match i with IUint8 v => Some v | _ => None end).
Definition HdfSbufReadInt32 := read_as KInt32 (fun i => match i with IInt32 v => Some v | _ => None end).
Definition HdfSbufReadUint32 := read_as KUint32 (fun i => match i with IUint32 v => Some v | _ => None end).
Definition HdfSbufReadInt64 := read_as KInt64 (fun i => match i with IInt64 v => Some v | _ => None end).
Definition HdfSbufReadString := read_as KString (fun i => match i with IString v => Some v | _ => None end).
Definition HdfSbufReadUnpadBuffer (n : Z) :=
  read_as (KUnpad n) (fun i => match i with IUnpad v => Some v | _ => None end).
Definition HdfSbufReadRemoteService := read_as KRemote (fun i => match i with IRemote v => Some v | _ => None end).
(** The descriptor, or a negative number. *)
Definition HdfSbufReadFileDescriptor (d : nat) : M Z :=
  o ← read_as KFd (fun i => match i with IFd v => Some v | _ => None end) d;
  mret (default (-1) o).

(** A zeroed array of [n] one-byte elements, or [NULL]. *)
Definition OsalMemCalloc (n : Z) : M (option mem) := fun w =>
  let k := w_next w in
  if alloc_ok k n
  then Some (Some (Mem k (replicate (Z.to_nat n) 0)),
             mkWorld (w_sbufs w) ({[k]} ∪ w_live w) (S k) (w_svc w))
  else Some (None, mkWorld (w_sbufs w) (w_live w) (S k) (w_svc w)).

(** The name of a fresh block of [n] bytes, or [NULL]. *)
Definition OsalMemAlloc (n : Z) : M (option nat) := fun w =>
  let k := w_next w in
  if alloc_ok k n
  then Some (Some k, mkWorld (w_sbufs w) ({[k]} ∪ w_live w) (S k) (w_svc w))
  else Some (None, mkWorld (w_sbufs w) (w_live w) (S k) (w_svc w)).

(** Releasing a block that is not live is undefined. *)
Definition OsalMemFree (k : nat) : M unit := fun w =>
  if decide (k ∈ w_live w)
  then Some (tt, mkWorld (w_sbufs w) (w_live w ∖ {[k]}) (w_next w) (w_svc w))
  else None.

(** [for (i = 0; i < n; i++) if (!HdfSbufWrite...(data, a[i])) fail]; the
    first argument is the part of the array from the current index on. *)
Fixpoint write_loop (d : nat) (mk : Z -> item) (a : list Z) (n : nat) {struct n} : M bool :=
  match n with
  | O => mret true
  | S n' =>
      match a with
      | [] => undefined
      | v :: a' =>
          ok ← HdfSbufWrite d (mk v);
          if (ok : bool) then write_loop d mk a' n' else mret false
      end
  end.

(** [for (i = 0; i < n; i++) if (!HdfSbufRead...(data, &a[i])) fail]: whether
    every read succeeded, and the array afterwards. *)
Fixpoint read_loop (rd : nat -> M (option Z)) (d : nat) (a : list Z) (n : nat) {struct n} : M (bool * list Z) :=
  match n with
  | O => mret (true, a)
  | S n' =>
      match a with
      | [] => undefined
      | v :: a' =>
          o ← rd d;
          match o with
          | Some x =>
              r ← read_loop rd d a' n';
              mret (r.1, x :: r.2)
          | None => mret (false, a)
          end
      end
  end.

(** [strdup]: a fresh copy of a string, or [NULL]. *)
Definition strdup (s : string) : M (option (nat * string)) :=
  p ← OsalMemAlloc (Z.of_nat (String.length s) + 1);
  mret ((fun k => (k, s)) <$> p).

Definition svc_state : M X := gets w_svc.
Definition set_svc (x : X) : M unit :=
  modify (fun w => mkWorld (w_sbufs w) (w_live w) (w_next w) x).
End operations.

(** A remote object: the interface descriptor set for it and its dispatcher,
    the function that delivers a command with its two message buffers. *)
Record HdfRemoteService (W : Type) := mkRemote {
  rs_desc : string;
  rs_dispatcher : option (option (Z -> nat -> nat -> M W Z));
}.
Arguments mkRemote {W} _ _.
Arguments rs_desc {W} _.
Arguments rs_dispatcher {W} _.

Definition HdfRemoteServiceWriteInterfaceToken `{!Platform SB} {X}
    (remote : option (HdfRemoteService (World SB X))) (d : nat) : M (World SB X) bool :=
  r ← deref remote; HdfSbufWrite d (IToken (rs_desc r)).

(** ** The state of one remote call

    During a call the state consists of what was there before, [base], and the
    two buffers of the call, [d] (data) and [r] (reply). *)
Definition call_state {SB X} (base : gmap nat SB) (d r : nat) (sd sr : SB)
    (L : gset nat) (n : nat) (x : X) : World SB X :=
  mkWorld (<[r := sr]> (<[d := sd]> base)) L n x.

Lemma call_state_swap {SB X} (base : gmap nat SB) d r sd sr L n (x : X) :
  d <> r -> call_state base d r sd sr L n x = call_state base r d sr sd L n x.
Proof. intros H. unfold call_state. by rewrite insert_insert_ne by done. Qed.

Section data_rules.
Context {SB : Type} `{!Platform SB, !PlatformLaws SB} {X : Type}.
Context (base : gmap nat SB) (d r : nat) (Hdr : d <> r).
Implicit Types (sd sr : SB) (L : gset nat) (n : nat) (x : X).
Abbreviation St := (call_state base d r).

Lemma on_data {A} (f : SB -> A * SB) sd sr L n x :
  on_sbuf d f (St sd sr L n x) = Some ((f sd).1, St (f sd).2 sr L n x).
Proof.
  unfold on_sbuf, call_state; cbn.
  rewrite lookup_insert_ne by done. rewrite lookup_insert_eq.
  destruct (f sd) as [a s']; cbn. do 3 f_equal.
  rewrite (insert_insert_ne _ d r) by done. by rewrite insert_insert_eq.
Qed.

Lemma unreliable_write i s s' : sbuf_write i s = (false, s') -> ~ reliable SB.
Proof. intros E (_ & _ & H & _). specialize (H i s). by rewrite E in H. Qed.

(** Writing appends the item, or fails for lack of room. *)
Lemma wp_write_data i v sd sr L n x (Q : bool -> World SB X -> Prop) :
  sbuf_view sd = v ->
  (forall sd', sbuf_view sd' = v ++ [i] -> Q true (St sd' sr L n x)) ->
  (forall sd', ~ reliable SB -> Q false (St sd' sr L n x)) ->
  wp (HdfSbufWrite d i) Q (St sd sr L n x).
Proof.
  intros Hv Ht Hf. unfold wp, HdfSbufWrite. rewrite on_data.
  destruct (sbuf_write i sd) as [[] s'] eqn:E; cbn.
  - apply Ht. rewrite <- Hv. by apply sbuf_write_view.
  - eauto using unreliable_write.
Qed.

(** Reading the item that is next in the buffer. *)
Lemma wp_read_data {A} k f i v (a : A) sd sr L n x (Q : option A -> World SB X -> Prop) :
  sbuf_view sd = i :: v -> kind_of i = k -> f (recv i) = Some a ->
  (forall sd', sbuf_view sd' = v -> Q (Some a) (St sd' sr L n x)) ->
  wp (read_as k f d) Q (St sd sr L n x).
Proof.
  intros Hv <- Hf HQ. destruct (sbuf_read_view i v sd Hv) as (s' & E & Hs').
  unfold read_as. apply wp_bind. unfold wp at 1, HdfSbufRead. rewrite on_data, E; cbn.
  rewrite Hf. by apply HQ.
Qed.

(** Reading an [int32_t] item as [uint32_t]. *)
Lemma wp_read_i32_u32 z v sd sr L n x (Q : option Z -> World SB X -> Prop) :
  sbuf_view sd = IInt32 z :: v ->
  (forall sd', sbuf_view sd' = v -> Q (Some (u32 z)) (St sd' sr L n x)) ->
  wp (HdfSbufReadUint32 d) Q (St sd sr L n x).
Proof.
  intros Hv HQ. destruct (sbuf_read_i32_u32 z v sd Hv) as (s' & E & Hs').
  unfold HdfSbufReadUint32, read_as. apply wp_bind. unfold wp at 1, HdfSbufRead.
  rewrite on_data, E; cbn. by apply HQ.
Qed.

(** Reading or writing a buffer of unknown contents. *)
Lemma wp_read_any {A} k f sd sr L n x (Q : option A -> World SB X -> Prop) :
  (forall o sd', Q o (St sd' sr L n x)) ->
  wp (read_as k f d) Q (St sd sr L n x).
Proof.
  intros HQ. unfold read_as. apply wp_bind. unfold wp at 1, HdfSbufRead.
  rewrite on_data. apply HQ.
Qed.

Lemma wp_write_any i sd sr L n x (Q : bool -> World SB X -> Prop) :
  (forall b sd', Q b (St sd' sr L n x)) ->
  wp (HdfSbufWrite d i) Q (St sd sr L n x).
Proof. intros HQ. unfold wp, HdfSbufWrite. rewrite on_data. apply HQ. Qed.

Lemma wp_check_token desc v sd sr L n x (Q : bool -> World SB X -> Prop) :
  sbuf_view sd = IToken desc :: v ->
  (forall sd', sbuf_view sd' = v -> Q true (St sd' sr L n x)) ->
  wp (CheckInterfaceToken desc d) Q (St sd sr L n x).
Proof.
  intros Hv HQ. destruct (sbuf_check_view desc v sd Hv) as (s' & E & Hs').
  unfold wp, CheckInterfaceToken. rewrite on_data, E. by apply HQ.
Qed.

Lemma wp_check_any desc sd sr L n x (Q : bool -> World SB X -> Prop) :
  (forall b sd', Q b (St sd' sr L n x)) ->
  wp (CheckInterfaceToken desc d) Q (St sd sr L n x).
Proof. intros HQ. unfold wp, CheckInterfaceToken. rewrite on_data. apply HQ. Qed.

(** The loops over arrays. *)
Lemma wp_write_loop_data mk (a : list Z) (k : nat) v sd sr L n x (Q : bool -> World SB X -> Prop) :
  sbuf_view sd = v -> (k <= length a)%nat ->
  (forall sd', sbuf_view sd' = v ++ map mk (take k a) -> Q true (St sd' sr L n x)) ->
  (forall sd', ~ reliable SB -> Q false (St sd' sr L n x)) ->
  wp (write_loop d mk a k) Q (St sd sr L n x).
Proof.
  intros Hv Hk Ht Hf. revert a v sd Hv Hk Ht.
  induction k as [|k IH]; intros a v sd Hv Hk Ht; simpl write_loop.
  - apply wp_ret, Ht. by rewrite take_0, app_nil_r.
  - destruct a as [|c a]; cbn in Hk; [lia|].
    apply wp_bind. eapply wp_write_data; [done| |].
    + intros sd' Hv'. eapply IH; [done | lia |]. intros sd'' Hv''. apply Ht.
      by rewrite Hv'', <- app_assoc.
    + intros sd' Hnr. apply wp_ret. auto.
Qed.

Lemma wp_write_loop_any mk (a : list Z) (k : nat) sd sr L n x (Q : bool -> World SB X -> Prop) :
  (k <= length a)%nat ->
  (forall b sd', Q b (St sd' sr L n x)) ->
  wp (write_loop d mk a k) Q (St sd sr L n x).
Proof.
  intros Hk HQ. revert a sd Hk.
  induction k as [|k IH]; intros a sd Hk; simpl write_loop; [by apply wp_ret|].
  destruct a as [|c a]; cbn in Hk; [lia|].
  apply wp_bind, wp_write_any. intros [] sd'; [apply IH; lia | by apply wp_ret].
Qed.

(** A read loop fills the array with the items it finds. *)
Lemma wp_read_loop_data k f (mk : Z -> item) (a vs : list Z) v sd sr L n x
    (Q : bool * list Z -> World SB X -> Prop) :
  (forall z, kind_of (mk z) = k /\ f (recv (mk z)) = Some z) ->
  sbuf_view sd = map mk vs ++ v -> (length vs <= length a)%nat ->
  (forall sd', sbuf_view sd' = v -> Q (true, vs ++ drop (length vs) a) (St sd' sr L n x)) ->
  wp (read_loop (read_as k f) d a (length vs)) Q (St sd sr L n x).
Proof.
  intros Hmk. revert a sd Q.
  induction vs as [|c vs IH]; intros a sd Q Hv Ha HQ; simpl read_loop.
  - apply wp_ret. rewrite <- (drop_0 a). by apply HQ.
  - destruct a as [|c0 a]; cbn in Ha; [lia|]. cbn in Hv.
    apply wp_bind. eapply wp_read_data; [done | apply Hmk | apply Hmk |].
    intros sd' Hv'. apply wp_bind. apply IH; [done | lia |].
    intros sd'' Hv''. apply wp_ret. by apply HQ.
Qed.

Lemma wp_read_loop_any k f (a : list Z) (m : nat) sd sr L n x
    (Q : bool * list Z -> World SB X -> Prop) :
  (m <= length a)%nat ->
  (forall b vs sd', length vs = length a -> Q (b, vs) (St sd' sr L n x)) ->
  wp (read_loop (read_as k f) d a m) Q (St sd sr L n x).
Proof.
  intros Hm HQ. revert a sd Q Hm HQ.
  induction m as [|m IH]; intros a sd Q Hm HQ; simpl read_loop; [by apply wp_ret, HQ|].
  destruct a as [|c0 a]; cbn in Hm; [lia|].
  apply wp_bind, wp_read_any. intros [c|] sd'; [|by apply wp_ret, HQ].
  apply wp_bind, IH; [lia|]. intros b vs sd'' Hl. apply wp_ret, HQ. cbn. by rewrite Hl.
Qed.
End data_rules.

(** The rules for the reply buffer follow by exchanging the two buffers. *)
Section reply_rules.
Context {SB : Type} `{!Platform SB, !PlatformLaws SB} {X : Type}.
Context (base : gmap nat SB) (d r : nat) (Hdr : d <> r).
Implicit Types (sd sr : SB) (L : gset nat) (n : nat) (x : X).
Abbreviation St := (call_state base d r).

Lemma wp_swap {A} (m : M (World SB X) A) Q sd sr L n x :
  wp m Q (call_state base r d sr sd L n x) -> wp m Q (St sd sr L n x).
Proof. by rewrite call_state_swap by done. Qed.
End reply_rules.

(** ** Composite messages

    [writes d m l]: [m] appends the items [l] to buffer [d] and returns true,
    or returns false, which only happens when the buffer has no room.
    [reads d m l a]: with the items [l] next in buffer [d], [m] takes them and
    returns [a]. *)
Section composite.
Context {SB : Type} `{!Platform SB, !PlatformLaws SB} {X : Type}.
Implicit Types (sd sr : SB) (L : gset nat) (n : nat) (x : X).
Abbreviation M := (M (World SB X)).

Definition writes (d : nat) (m : M bool) (l : list item) : Prop :=
  forall base r sd sr L n x (Q : bool -> World SB X -> Prop), d <> r ->
  (forall sd', sbuf_view sd' = sbuf_view sd ++ l -> Q true (call_state base d r sd' sr L n x)) ->
  (forall sd', ~ reliable SB -> Q false (call_state base d r sd' sr L n x)) ->
  wp m Q (call_state base d r sd sr L n x).

Definition reads {A} (d : nat) (m : M A) (l : list item) (a : A) : Prop :=
  forall base r sd sr L n x v (Q : A -> World SB X -> Prop), d <> r ->
  sbuf_view sd = l ++ v ->
  (forall sd', sbuf_view sd' = v -> Q a (call_state base d r sd' sr L n x)) ->
  wp m Q (call_state base d r sd sr L n x).

(** [local d m]: whatever buffer [d] holds, [m] has defined behaviour and
    touches nothing but that buffer; its result satisfies [P]. *)
Definition local {A} (d : nat) (m : M A) (P : A -> Prop) : Prop :=
  forall base r sd sr L n x (Q : A -> World SB X -> Prop), d <> r ->
  (forall a sd', P a -> Q a (call_state base d r sd' sr L n x)) ->
  wp m Q (call_state base d r sd sr L n x).

Lemma writes_ret d : writes d (mret true) [].
Proof. intros base r sd sr L n x Q Hdr Ht _. apply wp_ret, Ht. by rewrite app_nil_r. Qed.

Lemma writes_item d i : writes d (HdfSbufWrite d i) [i].
Proof. intros base r sd sr L n x Q Hdr Ht Hf. by eapply wp_write_data. Qed.

Lemma writes_loop d mk a k :
  (k <= length a)%nat -> writes d (write_loop d mk a k) (map mk (take k a)).
Proof. intros Hk base r sd sr L n x Q Hdr Ht Hf. by eapply wp_write_loop_data. Qed.

Lemma writes_seq d m k l1 l2 :
  writes d m l1 -> writes d k l2 ->
  writes d (unless m do mret false; k) (l1 ++ l2).
Proof.
  intros Hm Hk base r sd sr L n x Q Hdr Ht Hf. apply wp_bind, Hm; [done| |]; cbn.
  - intros sd' Hv. apply Hk; [done | | done]. intros sd'' Hv'. apply Ht.
    by rewrite Hv', Hv, app_assoc.
  - intros sd' Hnr. apply wp_ret. auto.
Qed.

Lemma writes_eq d m l l' : writes d m l -> l = l' -> writes d m l'.
Proof. by intros ? <-. Qed.

Lemma reads_ret {A} d (a : A) : reads d (mret a) [] a.
Proof. intros base r sd sr L n x v Q Hdr Hv HQ. by apply wp_ret, HQ. Qed.

Lemma reads_item {A} d k f i (a : A) :
  kind_of i = k -> f (recv i) = Some a -> reads d (read_as k f d) [i] (Some a).
Proof. intros Hk Hf base r sd sr L n x v Q Hdr Hv HQ. by eapply wp_read_data. Qed.

Lemma reads_bind {A B} d (m : M A) (k : A -> M B) l1 l2 a b :
  reads d m l1 a -> reads d (k a) l2 b -> reads d (m ≫= k) (l1 ++ l2) b.
Proof.
  intros Hm Hk base r sd sr L n x v Q Hdr Hv HQ. rewrite <- app_assoc in Hv.
  apply wp_bind. eapply Hm; [done..|]. intros sd' Hv'. eapply Hk; eauto.
Qed.

Lemma reads_loop d k f mk (a vs : list Z) m :
  (forall z, kind_of (mk z) = k /\ f (recv (mk z)) = Some z) ->
  length vs = m -> (m <= length a)%nat ->
  reads d (read_loop (read_as k f) d a m) (map mk vs) (true, vs ++ drop m a).
Proof.
  intros Hmk <- Hl base r sd sr L n x v Q Hdr Hv HQ. by eapply wp_read_loop_data.
Qed.

Lemma reads_eq {A} d (m : M A) l l' a a' :
  reads d m l a -> l = l' -> a = a' -> reads d m l' a'.
Proof. by intros ? <- <-. Qed.

(** The same on the reply buffer of a call. *)
Lemma wp_writes_reply base d r m l sd sr L n x (Q : bool -> World SB X -> Prop) :
  d <> r -> writes r m l ->
  (forall sr', sbuf_view sr' = sbuf_view sr ++ l -> Q true (call_state base d r sd sr' L n x)) ->
  (forall sr', ~ reliable SB -> Q false (call_state base d r sd sr' L n x)) ->
  wp m Q (call_state base d r sd sr L n x).
Proof.
  intros Hdr Hm Ht Hf. rewrite call_state_swap by done. apply Hm; [done| |]; intros sr' H;
    rewrite call_state_swap by done; auto.
Qed.

Lemma wp_reads_reply {A} base d r (m : M A) l a v sd sr L n x (Q : A -> World SB X -> Prop) :
  d <> r -> reads r m l a -> sbuf_view sr = l ++ v ->
  (forall sr', sbuf_view sr' = v -> Q a (call_state base d r sd sr' L n x)) ->
  wp m Q (call_state base d r sd sr L n x).
Proof.
  intros Hdr Hm Hv HQ. rewrite call_state_swap by done. eapply Hm; [done | done |].
  intros sr' H. rewrite call_state_swap by done. auto.
Qed.

Lemma local_mono {A} d (m : M A) (P P' : A -> Prop) :
  local d m P -> (forall a, P a -> P' a) -> local d m P'.
Proof. intros Hm HP base r sd sr L n x Q Hdr HQ. apply Hm; auto. Qed.

Lemma local_ret {A} d (a : A) (P : A -> Prop) : P a -> local d (mret a) P.
Proof. intros HP base r sd sr L n x Q Hdr HQ. by apply wp_ret, HQ. Qed.

Lemma local_bind {A B} d (m : M A) (k : A -> M B) P P' :
  local d m P -> (forall a, P a -> local d (k a) P') -> local d (m ≫= k) P'.
Proof.
  intros Hm Hk base r sd sr L n x Q Hdr HQ. apply wp_bind, Hm; [done|].
  intros a sd' Ha. by apply Hk.
Qed.

Lemma local_write d i : local d (HdfSbufWrite d i) (fun _ => True).
Proof. intros base r sd sr L n x Q Hdr HQ. apply wp_write_any; auto. Qed.

Lemma local_write_loop d mk a k :
  (k <= length a)%nat -> local d (write_loop d mk a k) (fun _ => True).
Proof. intros Hk base r sd sr L n x Q Hdr HQ. apply wp_write_loop_any; auto. Qed.

Lemma local_read {A} d k (f : item -> option A) : local d (read_as k f d) (fun _ => True).
Proof. intros base r sd sr L n x Q Hdr HQ. apply wp_read_any; auto. Qed.

Lemma local_read_loop d k f (a : list Z) m :
  (m <= length a)%nat ->
  local d (read_loop (read_as k f) d a m) (fun r => length r.2 = length a).
Proof. intros Hm base r sd sr L n x Q Hdr HQ. apply wp_read_loop_any; auto. Qed.
End composite.

(** ** Memory *)

(** Every live name was handed out before. *)
Definition bounded (L : gset nat) (n : nat) : Prop := forall k, k ∈ L -> (k < n)%nat.

Definition world_ok {SB X} (w : World SB X) : Prop :=
  bounded (dom (w_sbufs w)) (w_next w) /\ bounded (w_live w) (w_next w).

Lemma bounded_alloc L n : bounded L n -> bounded ({[n]} ∪ L) (S n).
Proof.
  intros H k Hk. apply elem_of_union in Hk as [Hk|Hk].
  - apply elem_of_singleton in Hk. lia.
  - apply H in Hk. lia.
Qed.

Lemma bounded_S L n : bounded L n -> bounded L (S n).
Proof. intros H k Hk%H. lia. Qed.

Lemma bounded_le L n n' : bounded L n -> (n <= n')%nat -> bounded L n'.
Proof. intros H Hn k Hk%H. lia. Qed.

Lemma bounded_mono L L' n : bounded L n -> L' ⊆ L -> bounded L' n.
Proof. intros H Hs k Hk. apply H. set_solver. Qed.

(** Releasing the block allocated last restores the live set. *)
Lemma free_fresh L n : bounded L n -> ({[n]} ∪ L) ∖ {[n]} = L.
Proof.
  intros H. assert (n ∉ L) by (intros Hn%H; lia). set_solver.
Qed.

Section memory_rules.
Context {SB : Type} `{!Platform SB, !PlatformLaws SB} {X : Type}.
Context (base : gmap nat SB) (d r : nat).
Implicit Types (sd sr : SB) (L : gset nat) (n : nat) (x : X).
Abbreviation St := (call_state base d r).

Lemma wp_calloc size sd sr L n x (Q : option mem -> World SB X -> Prop) :
  Q (Some (Mem n (replicate (Z.to_nat size) 0))) (St sd sr ({[n]} ∪ L) (S n) x) ->
  ((0 < size -> ~ reliable SB) -> Q None (St sd sr L (S n) x)) ->
  wp (OsalMemCalloc size) Q (St sd sr L n x).
Proof.
  intros HS HN. unfold wp, OsalMemCalloc, call_state; cbn.
  destruct (alloc_ok n size) eqn:E; [done|].
  apply HN. intros Hs (_ & H & _). by rewrite H in E.
Qed.

Lemma wp_alloc size sd sr L n x (Q : option nat -> World SB X -> Prop) :
  Q (Some n) (St sd sr ({[n]} ∪ L) (S n) x) ->
  ((0 < size -> ~ reliable SB) -> Q None (St sd sr L (S n) x)) ->
  wp (OsalMemAlloc size) Q (St sd sr L n x).
Proof.
  intros HS HN. unfold wp, OsalMemAlloc, call_state; cbn.
  destruct (alloc_ok n size) eqn:E; [done|].
  apply HN. intros Hs (_ & H & _). by rewrite H in E.
Qed.

Lemma wp_free k sd sr L n x (Q : unit -> World SB X -> Prop) :
  k ∈ L -> Q tt (St sd sr (L ∖ {[k]}) n x) ->
  wp (OsalMemFree k) Q (St sd sr L n x).
Proof.
  intros Hk HQ. unfold wp, OsalMemFree, call_state; cbn. by rewrite decide_True by done.
Qed.

Lemma wp_free_fresh sd sr L n n' x (Q : unit -> World SB X -> Prop) :
  bounded L n -> Q tt (St sd sr L n' x) ->
  wp (OsalMemFree n) Q (St sd sr ({[n]} ∪ L) n' x).
Proof. intros Hb HQ. apply wp_free; [set_solver|]. by rewrite free_fresh. Qed.

Lemma wp_svc_state sd sr L n x (Q : X -> World SB X -> Prop) :
  Q x (St sd sr L n x) -> wp svc_state Q (St sd sr L n x).
Proof. done. Qed.

Lemma wp_set_svc x' sd sr L n x (Q : unit -> World SB X -> Prop) :
  Q tt (St sd sr L n x') -> wp (set_svc x') Q (St sd sr L n x).
Proof. done. Qed.

End memory_rules.

(** [restored w w']: a call that ended in [w'] gave back every message buffer
    and every heap block it took after [w]. *)
Definition restored {SB X} (w w' : World SB X) : Prop :=
  w_sbufs w' = w_sbufs w /\ w_live w' = w_live w /\ (w_next w <= w_next w')%nat.

Lemma restored_ok {SB X} (w w' : World SB X) : restored w w' -> world_ok w -> world_ok w'.
Proof.
  intros (Hs & HL & Hn) [H1 H2]. unfold world_ok, bounded in *. rewrite Hs, HL.
  split; intros k Hk; [apply H1 in Hk | apply H2 in Hk]; lia.
Qed.

Lemma restored_end {SB X} (w : World SB X) n x :
  (w_next w <= n)%nat -> restored w (mkWorld (w_sbufs w) (w_live w) n x).
Proof. done. Qed.

(** Obtaining the two buffers of a call, and giving them back: each proxy file
    has its own static [ReleaseSbuf], all alike. *)
Definition ReleaseSbuf `{!Platform SB} {X} (data reply : option nat) : M (World SB X) unit :=
  match data with Some d => HdfSbufRecycle d | None => mret tt end;;
  match reply with Some r => HdfSbufRecycle r | None => mret tt end.

Section obtain_rules.
Context {SB : Type} `{!Platform SB, !PlatformLaws SB} {X : Type}.

Lemma wp_release {A} (a : A) base d r sd sr L n (x : X) (Q : A -> World SB X -> Prop) :
  d <> r -> base !! d = None -> base !! r = None ->
  Q a (mkWorld base L n x) ->
  wp (ReleaseSbuf (Some d) (Some r);; mret a) Q (call_state base d r sd sr L n x).
Proof.
  intros Hdr Hd Hr HQ. apply wp_bind, wp_bind. unfold wp at 1, HdfSbufRecycle, call_state; cbn.
  rewrite lookup_insert_ne, lookup_insert_eq by done.
  rewrite delete_insert_ne by done. rewrite delete_insert_id by done.
  unfold wp at 1; cbn. rewrite lookup_insert_eq. by rewrite delete_insert_id.
Qed.

Lemma wp_obtain_pair {A} (body : nat -> nat -> M (World SB X) A) (e : A) Q (w : World SB X) :
  world_ok w ->
  (forall d r, d <> r -> w_sbufs w !! d = None -> w_sbufs w !! r = None ->
     bounded (w_live w) (S (S (w_next w))) ->
     wp (body d r) Q
        (call_state (w_sbufs w) d r sbuf_new sbuf_new (w_live w) (S (S (w_next w))) (w_svc w))) ->
  (forall n, ~ reliable SB -> (w_next w <= n)%nat ->
     Q e (mkWorld (w_sbufs w) (w_live w) n (w_svc w))) ->
  wp (data ← HdfSbufTypedObtain; reply ← HdfSbufTypedObtain;
      match data, reply with
      | Some d, Some r => body d r
      | _, _ => ReleaseSbuf data reply;; mret e
      end) Q w.
Proof.
  intros [Hs HL] Hok Hfail.
  assert (forall k, (w_next w <= k)%nat -> w_sbufs w !! k = None) as Hfresh.
  { intros k Hk. apply not_elem_of_dom. intros ?%Hs. lia. }
  assert (forall n, sbuf_obtain_ok n = false -> ~ reliable SB) as Hnr.
  { intros n E (H & _). by rewrite H in E. }
  apply wp_bind. unfold wp at 1, HdfSbufTypedObtain.
  destruct (sbuf_obtain_ok (w_next w)) eqn:E1; apply wp_bind; unfold wp at 1; cbn;
    destruct (sbuf_obtain_ok (S (w_next w))) eqn:E2;
    [apply Hok; [lia | by apply Hfresh; lia | by apply Hfresh; lia | by do 2 apply bounded_S]
    | | | apply Hfail; [by eauto | lia]];
    unfold ReleaseSbuf, wp, mbind, M_bind, mret, M_ret, HdfSbufRecycle; cbn;
    rewrite lookup_insert_eq; cbn; rewrite delete_insert_id by (apply Hfresh; lia);
    apply Hfail; eauto.
Qed.
End obtain_rules.

(** ** Automation

    [hdf_step] takes one framework call whose effect is known from the
    contents of the buffers. *)
Create HintDb hdf discriminated.
#[export] Hint Resolve writes_ret writes_item writes_loop writes_seq : hdf.
#[export] Hint Resolve reads_ret reads_item reads_loop : hdf.
#[export] Hint Resolve bounded_alloc bounded_S : hdf.
