(* ===== verification/HdfQueue.v ===== *)
(** * HdfQueue: a platform that satisfies the assumptions on the framework

    Message buffers are lists of items and every request for memory is
    granted.  The instance shows that the laws of [Hdf] are satisfiable and
    lets the models run on concrete inputs. *)
From S2P Require Import Prelude Hdf.
Open Scope Z_scope.

#[global] Instance kind_eq_dec : EqDecision kind.
Proof. solve_decision. Defined.

(** The status codes of the framework. *)
#[global] Instance queue_status : HdfStatus := {
  HDF_SUCCESS := 0; HDF_FAILURE := -1; HDF_ERR_INVALID_PARAM := -3;
  HDF_ERR_INVALID_OBJECT := -4; HDF_ERR_MALLOC_FAIL := -6;
  HDF_ERR_IO := -17; HDF_ERR_DEVICE_BUSY := -16;
}.
#[global] Instance queue_status_laws : HdfStatusLaws.
Proof. by split. Qed.

(** A read takes the first item if it has the type asked for; a signed 32-bit
    item may be read as an unsigned one. *)
Definition queue_read (k : kind) (s : list item) : option item * list item :=
  match s with
  | [] => (None, s)
  | i :: s' =>
      if decide (kind_of i = k) then (Some i, s')
      else match i, k with
           | IInt32 v, KUint32 => (Some (IUint32 (u32 v)), s')
           | _, _ => (None, s)
           end
  end.

Definition queue_check (desc : string) (s : list item) : bool * list item :=
  match s with
  | IToken d :: s' => (bool_decide (d = desc), s')
  | _ => (false, s)
  end.

#[global] Instance queue_platform : Platform (list item) := {
  sbuf_new := [];
  sbuf_write i s := (true, s ++ [i]);
  sbuf_read := queue_read;
  sbuf_check_token := queue_check;
  sbuf_obtain_ok _ := true;
  alloc_ok _ _ := true;
  set_desc_ok _ _ := true;
  fd_image fd := fd;
  remote_image r := r;
}.

#[global] Instance queue_laws : PlatformLaws (list item).
Proof.
  refine {| sbuf_view (s : list item) := s |}; cbn.
  - done.
  - by intros i s s' [= <-].
  - intros i l s ->. eexists; cbn. rewrite decide_True by done. split; [|done]. by destruct i.
  - intros v l s ->. by eexists.
  - intros d l s ->. eexists. cbn. by rewrite bool_decide_true.
  - done.
Defined.

Lemma queue_reliable : reliable (list item).
Proof. by split_and!. Qed.
