(* ===== verification/Rpc.v ===== *)
(** * Rpc: remote interfaces and their contract

    A remote interface of the framework is a set of requests; the client end
    (a proxy) turns a method call into a message, the server end (a stub) turns
    the message back into a call.  This file states what the two ends promise
    each other, and what a proxy makes of that promise for its caller.  It also
    holds the code every proxy opens and closes a method with. *)
From S2P Require Import Prelude Hdf.
Open Scope Z_scope.

(** ** Interfaces *)

(** A protocol: the requests [Q] and answers [Ans] of an interface and their
    messages.  [p_recv n a] is answer [a] in the client's address space, [n]
    naming the memory it takes; [p_keeps q L L'] says that [L'] may be the live
    memory after request [q] was served with [L] live. *)
Class Protocol (Q Ans : Type) := {
  p_cmd : Q -> Z;
  p_encode : Q -> list item;
  p_answer : Ans -> list item;
  p_recv : nat -> Ans -> Ans;
  p_wf : Q -> Prop;
  p_answer_wf : Q -> Ans -> Prop;
  p_keeps : Q -> gset nat -> gset nat -> Prop;
  p_keeps_refl q L : p_keeps q L L;
}.

(** [behaviour]: how a server may react to a request: [S q x ret ans x'] when
    serving [q] in state [x] may end with status [ret], answer [ans] (which
    means nothing when [ret] is an error) and state [x']. *)
Definition behaviour (Q Ans X : Type) : Type := Q -> X -> Z -> Ans -> X -> Prop.

Section contract.
Context {SB : Type} `{!Platform SB, !PlatformLaws SB} `{!HdfStatus} {X Q Ans : Type} `{!Protocol Q Ans}.

(** The state a server may leave behind after request [q]. *)
Definition handled (S : behaviour Q Ans X) (base : gmap nat SB) (d r : nat) (q : Q) (L : gset nat) (n : nat)
    (x : X) (ret : Z) (w : World SB X) : Prop :=
  exists sd' sr' L' n' ans x',
    w = call_state base d r sd' sr' L' n' x' /\ S q x ret ans x' /\
    (ret = HDF_SUCCESS -> sbuf_view sr' = p_answer ans) /\
    (n <= n')%nat /\ bounded L' n' /\ p_keeps q L L'.

(** [Dispatch desc S call]: the transport [call], given the message of a
    request and an empty reply, reacts as [S] says, keeps the two buffers, and
    leaves memory as agreed. *)
Class Dispatch (desc : string) (S : behaviour Q Ans X) (call : Z -> nat -> nat -> M (World SB X) Z) := {
  dispatch_ok base d r q sd sr L n x :
    d <> r -> p_wf q -> bounded L n ->
    sbuf_view sd = IToken desc :: p_encode q -> sbuf_view sr = [] ->
    wp (call (p_cmd q) d r) (handled S base d r q L n x) (call_state base d r sd sr L n x);
  dispatch_answer q x ans x' :
    p_wf q -> S q x HDF_SUCCESS ans x' -> p_answer_wf q ans;
}.

(** How a call of the client may end when the server behaves as [S]: refused
    before it reached the server, failed by the server, performed but with its
    results lost, or performed.  The second and fourth are the only ones when
    no resource is short. *)
Inductive outcome (S : behaviour Q Ans X) (q : Q) (x : X) : Z -> Ans -> X -> Prop :=
  | outcome_refused e out :
      ~ reliable SB -> e <> HDF_SUCCESS -> outcome S q x e out x
  | outcome_failed e ans out x' :
      S q x e ans x' -> e <> HDF_SUCCESS -> outcome S q x e out x'
  | outcome_lost e ans out x' :
      ~ reliable SB -> S q x HDF_SUCCESS ans x' -> e <> HDF_SUCCESS ->
      outcome S q x e out x'
  | outcome_done n ans x' :
      S q x HDF_SUCCESS ans x' -> p_answer_wf q ans ->
      outcome S q x HDF_SUCCESS (p_recv n ans) x'.

(** The state after a call: the message buffers are as before, and so is the
    memory, up to what the request may keep. *)
Definition returned (S : behaviour Q Ans X) (q : Q) (w : World SB X) (res : Z * Ans) (w' : World SB X) : Prop :=
  w_sbufs w' = w_sbufs w /\ world_ok w' /\ p_keeps q (w_live w) (w_live w') /\
  outcome S q (w_svc w) res.1 res.2 (w_svc w').
End contract.

(** ** The frame of a proxy method *)
Section frame.
Context {SB : Type} `{!Platform SB} `{!HdfStatus} {X : Type}.
Abbreviation M := (M (World SB X)).

(** Obtain the two buffers, or fail with the output parameters [out] as they
    were. *)
Definition with_sbufs {R} (out : R) (body : nat -> nat -> M (Z * R)) : M (Z * R) :=
  data ← HdfSbufTypedObtain;
  reply ← HdfSbufTypedObtain;
  match data, reply with
  | Some d, Some r => body d r
  | _, _ => ReleaseSbuf data reply;; mret (HDF_ERR_MALLOC_FAIL, out)
  end.

(** [ReleaseSbuf(data, reply); return e;] *)
Definition leave {R} (d r : nat) (e : Z) (out : R) : M (Z * R) :=
  ReleaseSbuf (Some d) (Some r);; mret (e, out).
End frame.

Section errors.
Context `{!HdfStatus, !HdfStatusLaws}.
Lemma failure_error : HDF_FAILURE <> HDF_SUCCESS.
Proof. rewrite hdf_success_zero. apply hdf_failure_nz. Qed.
Lemma invalid_param_error : HDF_ERR_INVALID_PARAM <> HDF_SUCCESS.
Proof. rewrite hdf_success_zero. apply hdf_invalid_param_nz. Qed.
Lemma malloc_fail_error : HDF_ERR_MALLOC_FAIL <> HDF_SUCCESS.
Proof. rewrite hdf_success_zero. apply hdf_malloc_fail_nz. Qed.
Lemma invalid_object_error : HDF_ERR_INVALID_OBJECT <> HDF_SUCCESS.
Proof. rewrite hdf_success_zero. apply hdf_invalid_object_nz. Qed.
End errors.

(** ** Functions that report a status

    Like [writes]: the items are written and the status is success, or the
    status is an error, which only happens when the buffer has no room. *)
Section status.
Context {SB : Type} `{!Platform SB, !PlatformLaws SB} `{!HdfStatus} {X : Type}.

Definition status_writes (d : nat) (m : M (World SB X) Z) (l : list item) : Prop :=
  forall base r sd sr L n x (Q : Z -> World SB X -> Prop), d <> r ->
  (forall sd', sbuf_view sd' = sbuf_view sd ++ l -> Q HDF_SUCCESS (call_state base d r sd' sr L n x)) ->
  (forall e sd', ~ reliable SB -> e <> HDF_SUCCESS -> Q e (call_state base d r sd' sr L n x)) ->
  wp m Q (call_state base d r sd sr L n x).

Lemma status_done d : status_writes d (mret HDF_SUCCESS) [].
Proof. intros base r sd sr L n x Q Hdr Ht Hf. apply wp_ret, Ht. by rewrite app_nil_r. Qed.

Lemma status_seq d m k e l1 l2 :
  writes d m l1 -> e <> HDF_SUCCESS -> status_writes d k l2 ->
  status_writes d (unless m do mret e; k) (l1 ++ l2).
Proof.
  intros Hm He Hk base r sd sr L n x Q Hdr Ht Hf. apply wp_bind, Hm; [done | |]; cbn [negb].
  - intros sd' Hv. apply Hk; [done | | done]. intros sd2 Hv2. apply Ht. by rewrite Hv2, Hv, app_assoc.
  - intros sd' Hnr. by apply wp_ret, Hf.
Qed.

Lemma wp_status_reply base d r m l sd sr L n x (Q : Z -> World SB X -> Prop) :
  d <> r -> status_writes r m l ->
  (forall sr', sbuf_view sr' = sbuf_view sr ++ l -> Q HDF_SUCCESS (call_state base d r sd sr' L n x)) ->
  (forall e sr', ~ reliable SB -> e <> HDF_SUCCESS -> Q e (call_state base d r sd sr' L n x)) ->
  wp m Q (call_state base d r sd sr L n x).
Proof.
  intros Hdr Hm Ht Hf. rewrite call_state_swap by done. apply Hm; [done| |]; intros;
    rewrite call_state_swap by done; auto.
Qed.
End status.

(** ** The stages of a method: open, write the arguments, call, leave. *)
Section method.
Context {SB : Type} `{!Platform SB, !PlatformLaws SB} `{!HdfStatus, !HdfStatusLaws}.
Context {X Q Ans : Type} `{!Protocol Q Ans}.
Context (desc : string) (S : behaviour Q Ans X) (call : Z -> nat -> nat -> M (World SB X) Z).
Context {HD : Dispatch desc S call}.
Context (w : World SB X) (Hw : world_ok w).

Definition post {R} (q : Q) (wrap : R -> Ans) (p : Z * R) (w' : World SB X) : Prop :=
  returned S q w (p.1, wrap p.2) w'.

(** The opening of a method whose body establishes [P], a condition that
    every regular failure meets. *)
Lemma open_ok {R} q (wrap : R -> Ans) out (body : nat -> nat -> M (World SB X) (Z * R)) P :
  (forall p w', p.1 <> HDF_SUCCESS -> post q wrap p w' -> P p w') ->
  (forall d r, d <> r -> w_sbufs w !! d = None -> w_sbufs w !! r = None ->
     wp (body d r) P
        (call_state (w_sbufs w) d r sbuf_new sbuf_new (w_live w) (2 + w_next w) (w_svc w))) ->
  wp (with_sbufs out body) P w.
Proof.
  intros HP Hb. apply wp_obtain_pair; [done | by auto |].
  intros n Hnr Hn. apply HP; [apply malloc_fail_error|]. split; [done|]. split.
  - destruct Hw. split; by eapply bounded_le.
  - split; [apply p_keeps_refl | apply outcome_refused; [done | apply malloc_fail_error]].
Qed.

Lemma method_ok {R} q (wrap : R -> Ans) out (body : nat -> nat -> M (World SB X) (Z * R)) :
  (forall d r, d <> r -> w_sbufs w !! d = None -> w_sbufs w !! r = None ->
     wp (body d r) (post q wrap)
        (call_state (w_sbufs w) d r sbuf_new sbuf_new (w_live w) (2 + w_next w) (w_svc w))) ->
  wp (with_sbufs out body) (post q wrap) w.
Proof. intros Hb. by apply (open_ok q wrap). Qed.

Section body.
Context (d r : nat) (Hdr : d <> r) (Hd : w_sbufs w !! d = None) (Hr : w_sbufs w !! r = None).
Abbreviation St := (call_state (w_sbufs w) d r).
Abbreviation Start := (fun sd => St sd sbuf_new (w_live w) (2 + w_next w) (w_svc w)).

(** Leaving with a status, whatever the output parameters hold. *)
Lemma left_post {R} q (wrap : R -> Ans) e out L n x :
  bounded L n -> (w_next w <= n)%nat -> p_keeps q (w_live w) L ->
  outcome S q (w_svc w) e (wrap out) x ->
  post q wrap (e, out) (mkWorld (w_sbufs w) L n x).
Proof.
  intros HL Hn Hk Ho. split; [done|]. split; [|done].
  destruct Hw. split; [by eapply bounded_le | done].
Qed.

Lemma leave_ok {R} q (wrap : R -> Ans) e out sd sr L n x :
  bounded L n -> (w_next w <= n)%nat -> p_keeps q (w_live w) L ->
  outcome S q (w_svc w) e (wrap out) x ->
  wp (leave d r e out) (post q wrap) (St sd sr L n x).
Proof. intros HL Hn Hk Ho. unfold leave. apply wp_release; [done..|]. by apply left_post. Qed.

Lemma done_ok {R} blk q (wrap : R -> Ans) out sd sr L n x' ans :
  S q (w_svc w) HDF_SUCCESS ans x' -> p_answer_wf q ans ->
  bounded L n -> (w_next w <= n)%nat -> p_keeps q (w_live w) L ->
  wrap out = p_recv blk ans ->
  wp (leave d r HDF_SUCCESS out) (post q wrap) (St sd sr L n x').
Proof. intros HS Ha HL Hn Hk Ho. apply leave_ok; [done..|]. rewrite Ho. by apply outcome_done. Qed.

(** Writing an argument; [P] is a condition that every regular failure meets. *)
Lemma put_to {R} q (wrap : R -> Ans) m l v e out k P sd :
  (forall p w', p.1 <> HDF_SUCCESS -> post q wrap p w' -> P p w') ->
  writes d m l -> sbuf_view sd = v -> e <> HDF_SUCCESS ->
  (forall sd', sbuf_view sd' = v ++ l -> wp k P (Start sd')) ->
  wp (unless m do leave d r e out; k) P (Start sd).
Proof.
  intros HP Hm <- He Hk. apply wp_bind, Hm; [done | done |]. cbn [negb].
  intros sd' Hnr. unfold leave. apply wp_release; [done..|]. apply HP; [done|].
  destruct Hw as [_ Hl].
  apply left_post; [eapply bounded_le; [exact Hl | lia] | lia | apply p_keeps_refl | by apply outcome_refused].
Qed.

Lemma put_ok {R} q (wrap : R -> Ans) m l v e out k sd :
  writes d m l -> sbuf_view sd = v -> e <> HDF_SUCCESS ->
  (forall sd', sbuf_view sd' = v ++ l -> wp k (post q wrap) (Start sd')) ->
  wp (unless m do leave d r e out; k) (post q wrap) (Start sd).
Proof. intros. by eapply (put_to q wrap). Qed.

(** The call; [P] is a condition that every regular failure meets. *)
Lemma call_to {R} q cmd (wrap : R -> Ans) out (k : Z -> M (World SB X) (Z * R)) P sd :
  (forall p w', p.1 <> HDF_SUCCESS -> post q wrap p w' -> P p w') ->
  p_wf q -> p_cmd q = cmd -> sbuf_view sd = IToken desc :: p_encode q ->
  (forall sd' sr' L n x' ans,
     S q (w_svc w) HDF_SUCCESS ans x' -> p_answer_wf q ans ->
     sbuf_view sr' = p_answer ans -> bounded L n -> (w_next w <= n)%nat -> p_keeps q (w_live w) L ->
     wp (k HDF_SUCCESS) P (St sd' sr' L n x')) ->
  wp (ret ← call cmd d r;
      if negb (ret =? HDF_SUCCESS) then leave d r ret out else k ret) P (Start sd).
Proof.
  intros HP Hq <- Hv Hk. destruct Hw as [Hs Hl]. apply wp_bind. eapply wp_mono.
  - apply dispatch_ok; [done | done | | done | apply sbuf_view_new].
    eapply bounded_le; [exact Hl | lia].
  - intros ret w1 (sd' & sr' & L & n & ans & x' & -> & HS & Hrep & Hn & HL & Hkp).
    destruct (Z.eqb_spec ret HDF_SUCCESS) as [->|Hne]; cbn [negb].
    + pose proof (dispatch_answer q (w_svc w) ans x' Hq HS) as Hwf.
      eapply Hk; try done; [by apply Hrep | lia].
    + unfold leave. apply wp_release; [done..|]. apply HP; [done|].
      apply left_post; [done | lia | done | by eapply outcome_failed].
Qed.

Lemma call_ok {R} q cmd (wrap : R -> Ans) out (k : Z -> M (World SB X) (Z * R)) sd :
  p_wf q -> p_cmd q = cmd -> sbuf_view sd = IToken desc :: p_encode q ->
  (forall sd' sr' L n x' ans,
     S q (w_svc w) HDF_SUCCESS ans x' -> p_answer_wf q ans ->
     sbuf_view sr' = p_answer ans -> bounded L n -> (w_next w <= n)%nat -> p_keeps q (w_live w) L ->
     wp (k HDF_SUCCESS) (post q wrap) (St sd' sr' L n x')) ->
  wp (ret ← call cmd d r;
      if negb (ret =? HDF_SUCCESS) then leave d r ret out else k ret) (post q wrap) (Start sd).
Proof. intros. by eapply (call_to _ _ wrap). Qed.
End body.
End method.

(** A remote object without a dispatcher refuses every call. *)
Definition offline `{!HdfStatus} {Q Ans X} : behaviour Q Ans X :=
  fun _ x ret _ x' => ret = HDF_ERR_INVALID_OBJECT /\ x' = x.

Lemma offline_dispatch `{!Platform SB, !PlatformLaws SB} `{!HdfStatus, !HdfStatusLaws} {X Q Ans : Type}
    `{!Protocol Q Ans} (a : Ans) desc (call : Z -> nat -> nat -> M (World SB X) Z) :
  (forall id d r, call id d r = mret HDF_ERR_INVALID_OBJECT) ->
  Dispatch (Q := Q) (Ans := Ans) desc offline call.
Proof.
  intros Hn. split.
  - intros base d r q sd sr L n x Hdr Hq HL Hv Hr. rewrite Hn. apply wp_ret.
    exists sd, sr, L, n, a, x. split_and!; try done; [by intros ?%invalid_object_error | apply p_keeps_refl].
  - intros q x ans x' _ (He & _). by destruct invalid_object_error.
Qed.

(** ** Automation for proxy methods

    [open_method T] obtains the buffers and writes the interface token, which
    lemma [T] describes; [put W] writes the argument described by lemma [W];
    [call_remote c q] has transport [c] perform request [q]; [take_reply W]
    reads from the reply what lemma [W] describes; [finish k] leaves with the
    answer, block [k] holding its payload. *)
Ltac open_method T :=
  apply method_ok; [assumption|]; intros d r Hdr Hd Hr;
  eapply put_ok; [done..| apply T | apply sbuf_view_new | apply failure_error |];
  let s := fresh "sd" in let H := fresh "Hv" in intros s H; cbn [app] in H.
Tactic Notation "put" uconstr(W) :=
  eapply put_ok; [done..| first [by apply W | apply W] | eassumption | apply invalid_param_error |];
  let s := fresh "sd" in let H := fresh "Hv" in intros s H; cbn [app] in H.
Ltac call_remote c q :=
  eapply call_ok with (call := c) (q := q);
  [ try done.. | match goal with H : sbuf_view ?s = _ |- sbuf_view ?s = _ => rewrite H end;
             cbn; rewrite <- ?app_assoc; done
  | intros sd' sr' L n x' ans HS Hans Hsr HL Hn Hk; cbn in Hans, Hsr, Hk; cbn beta ].
Tactic Notation "take_reply" uconstr(W) :=
  apply wp_bind; eapply wp_reads_reply with (v := []);
  [ done | | rewrite app_nil_r; eassumption | ];
  [ eapply W; first [reflexivity | eassumption | done]
  | let s := fresh "sr" in intros s _; cbn beta iota; cbn [negb default id fst snd] ].
Ltac finish k := eapply done_ok with (blk := k); [done.. |]; by subst.
