(* ===== verification/Arrays.v ===== *)
(** * Arrays: arrays of [int8_t] in messages

    An array travels as its length and its elements.  The receiver allocates
    memory for it when it is not empty, and releases it with [FreeMem]. *)
From S2P Require Import Prelude Hdf.
Open Scope Z_scope.

Definition len (l : list Z) : Z := Z.of_nat (length l).
Definition enc_int8s (l : list Z) : list item := IUint32 (len l) :: map IInt8 l.

Section operations.
Context {SB : Type} `{!Platform SB} `{!HdfStatus} {X : Type}.
Abbreviation M := (M (World SB X)).

Definition FreeMem (m : option mem) (memLen : Z) : M unit :=
  match m with
  | Some m => if 0 <? memLen then OsalMemFree (mem_id m) else mret tt
  | None => mret tt
  end.

(** [if (n > 0) { allocate; read every element }], as the handlers of methods
    with an input array do: the array (null when [n] is 0), or the status to
    return. *)
Definition read_int8s (data : nat) (n : Z) : M (Z + option mem) :=
  if 0 <? n then
    p ← OsalMemCalloc n;
    match p with
    | None => mret (inl HDF_ERR_MALLOC_FAIL)
    | Some m =>
        r ← read_loop HdfSbufReadInt8 data (mem_cells m) (Z.to_nat n);
        if negb r.1 then FreeMem (Some m) n;; mret (inl HDF_ERR_INVALID_PARAM)
        else mret (inr (Some (Mem (mem_id m) r.2)))
    end
  else mret (inr None).
End operations.

Lemma len_nil l : len l <= 0 -> l = [].
Proof. destruct l; [done | unfold len; cbn; lia]. Qed.

(** ** Arrays in memory: the block a receiver uses for the array [l] *)
Definition array_ptr (n : nat) (l : list Z) : option mem :=
  if 0 <? len l then Some (Mem n l) else None.
Definition array_live (n : nat) (l : list Z) (L : gset nat) : gset nat :=
  if 0 <? len l then {[n]} ∪ L else L.
Definition array_next (n : nat) (l : list Z) : nat := if 0 <? len l then S n else n.

Lemma array_cells n l : cells (array_ptr n l) = l.
Proof. unfold array_ptr, len. destruct l; [done|]. by case_match. Qed.

Lemma array_bounded n l L : bounded L n -> bounded (array_live n l L) (array_next n l).
Proof. intros Hb. unfold array_live, array_next. case_match; auto with hdf. Qed.

Lemma array_next_le n l : (n <= array_next n l)%nat.
Proof. unfold array_next. case_match; lia. Qed.

Lemma array_live_sub n l L : L ⊆ array_live n l L.
Proof. unfold array_live. case_match; set_solver. Qed.

Section rules.
Context {SB : Type} `{!Platform SB, !PlatformLaws SB} `{!HdfStatus} {X : Type}.
Context (base : gmap nat SB) (d r : nat) (Hdr : d <> r).
Implicit Types (sd sr : SB) (L : gset nat) (n : nat) (x : X).
Abbreviation St := (call_state base d r).

Lemma wp_free_array l L n n' sd sr x (Q : unit -> World SB X -> Prop) :
  bounded L n -> Q tt (St sd sr L n' x) ->
  wp (FreeMem (array_ptr n l) (len l)) Q (St sd sr (array_live n l L) n' x).
Proof.
  intros Hb HQ. unfold array_ptr, array_live, FreeMem. destruct (0 <? len l) eqn:E; cbn.
  - by apply wp_free_fresh.
  - by apply wp_ret.
Qed.

(** Two arrays released in the order in which they were read. *)
Lemma wp_free_two a v L n n' sd sr x (Q : unit -> World SB X -> Prop) :
  bounded L n -> Q tt (St sd sr L n' x) ->
  wp (FreeMem (array_ptr n a) (len a);; FreeMem (array_ptr (array_next n a) v) (len v)) Q
     (St sd sr (array_live (array_next n a) v (array_live n a L)) n' x).
Proof.
  intros Hb HQ. apply wp_bind. unfold array_ptr at 1, array_next, array_live at 2.
  destruct (0 <? len a) eqn:E; [|by apply wp_ret, wp_free_array].
  unfold FreeMem at 1. rewrite E. cbn. apply wp_free.
  - apply array_live_sub. set_solver.
  - replace (array_live (S n) v ({[n]} ∪ L) ∖ {[n]}) with (array_live (S n) v L).
    { apply wp_free_array; [auto with hdf | done]. }
    pose proof (free_fresh L n Hb) as Hf. unfold array_live. destruct (0 <? len v); [|done].
    rewrite difference_union_distr_l_L, Hf. f_equal. assert (S n <> n) by lia. set_solver.
Qed.

(** Reading an array into zeroed memory of its size. *)
Lemma wp_read_zeroed l v sd sr L n x (Q : bool * list Z -> World SB X -> Prop) :
  sbuf_view sd = map IInt8 l ++ v ->
  (forall sd', sbuf_view sd' = v -> Q (true, l) (St sd' sr L n x)) ->
  wp (read_loop HdfSbufReadInt8 d (replicate (Z.to_nat (len l)) 0) (Z.to_nat (len l))) Q (St sd sr L n x).
Proof.
  intros Hv HQ. unfold len. rewrite Nat2Z.id.
  eapply (wp_read_loop_data _ _ _ Hdr _ _ IInt8); [done | exact Hv | by rewrite length_replicate |].
  intros sd' Hv'. rewrite drop_ge, app_nil_r by (by rewrite length_replicate). by apply HQ.
Qed.

Lemma wp_read_int8s l v sd sr L n x (Q : Z + option mem -> World SB X -> Prop) :
  bounded L n -> sbuf_view sd = map IInt8 l ++ v ->
  (forall sd', sbuf_view sd' = v ->
     Q (inr (array_ptr n l)) (St sd' sr (array_live n l L) (array_next n l) x)) ->
  (forall sd' n', ~ reliable SB -> (n <= n')%nat ->
     Q (inl HDF_ERR_MALLOC_FAIL) (St sd' sr L n' x)) ->
  wp (read_int8s d (len l)) Q (St sd sr L n x).
Proof.
  intros Hb Hv HQ Hf. unfold read_int8s, array_ptr, array_live, array_next in *.
  destruct (Z.ltb_spec 0 (len l)) as [Hl|Hl].
  - apply wp_bind, wp_calloc; [|intros Hnr; apply wp_ret, Hf; [auto|lia]].
    apply wp_bind. eapply wp_read_zeroed; [exact Hv|]. intros sd' Hv'. apply wp_ret. by apply HQ.
  - apply wp_ret. apply len_nil in Hl as ->. by apply HQ.
Qed.

Lemma writes_all e mk l : writes (X := X) e (write_loop e mk l (Z.to_nat (len l))) (map mk l).
Proof.
  unfold len. rewrite Nat2Z.id. eapply writes_eq; [by apply writes_loop|]. by rewrite firstn_all.
Qed.

Lemma reads_full e mk rd k f (a vs : list Z) :
  rd = read_as k f -> (forall z, kind_of (mk z) = k /\ f (recv (mk z)) = Some z) ->
  length vs = length a ->
  reads (X := X) e (read_loop rd e a (Z.to_nat (len a))) (map mk vs) (true, vs).
Proof.
  intros -> Hmk Hl. unfold len. rewrite Nat2Z.id. eapply reads_eq;
    [eapply (reads_loop e k f mk a vs); eauto; lia | done |].
  by rewrite drop_all, app_nil_r.
Qed.
End rules.
