(* ===== verification/DataFifo.v ===== *)
(** * DataFifo: the byte ring of the USB functions

    [usb/gadget/function/include/data_fifo.h].  The indices run freely over
    [uint32_t] and are reduced by a mask when a cell is accessed, so the ring
    works for sizes that are powers of two.  The specification is a bounded
    queue of bytes. *)
From S2P Require Import Prelude Hdf.
Open Scope Z_scope.

Record DataFifo := mkFifo {
  rdIdx : Z;
  wrIdx : Z;
  fifo_size : Z;
  fifo_data : option mem;
}.

Definition DataFifoInit (size : Z) (data : option mem) : DataFifo := mkFifo 0 0 size data.
Definition DataFifoIsInitialized (fifo : DataFifo) : bool := negb (fifo_size fifo =? 0).
Definition DataFifoReset (fifo : DataFifo) : DataFifo :=
  mkFifo 0 0 (fifo_size fifo) (fifo_data fifo).
Definition DataFifoLen (fifo : DataFifo) : Z := u32 (wrIdx fifo - rdIdx fifo).
Definition DataFifoIsEmpty (fifo : DataFifo) : bool := wrIdx fifo =? rdIdx fifo.
Definition DataFifoIsFull (fifo : DataFifo) : bool := u32 (fifo_size fifo - 1) <? DataFifoLen fifo.
Definition DataFifoAvailSize (fifo : DataFifo) : Z := u32 (fifo_size fifo - DataFifoLen fifo).
Definition DataFifoSkip (fifo : DataFifo) (size : Z) : DataFifo :=
  mkFifo (u32 (rdIdx fifo + size)) (wrIdx fifo) (fifo_size fifo) (fifo_data fifo).

Definition fifo_mask (fifo : DataFifo) : Z := u32 (fifo_size fifo - 1).

(** [buf[fifo->wrIdx++ & mask] = b] *)
Definition push_byte (fifo : DataFifo) (b : Z) : option DataFifo :=
  m ← fifo_data fifo;
  let i := Z.to_nat (Z.land (wrIdx fifo) (fifo_mask fifo)) in
  if decide (i < length (mem_cells m))%nat
  then Some (mkFifo (rdIdx fifo) (u32 (wrIdx fifo + 1)) (fifo_size fifo)
               (Some (Mem (mem_id m) (<[i := b]> (mem_cells m)))))
  else None.

(** [buf[fifo->rdIdx++ & mask]] *)
Definition pop_byte (fifo : DataFifo) : option (DataFifo * Z) :=
  m ← fifo_data fifo;
  b ← mem_cells m !! Z.to_nat (Z.land (rdIdx fifo) (fifo_mask fifo));
  Some (mkFifo (u32 (rdIdx fifo + 1)) (wrIdx fifo) (fifo_size fifo) (fifo_data fifo), b).

(** [while (data < end) buf[fifo->wrIdx++ & mask] = *data++], [n] bytes from
    [end]; [data] is the source memory from the pointer on. *)
Fixpoint write_bytes (fifo : DataFifo) (data : list Z) (n : nat) {struct n} : option DataFifo :=
  match n with
  | O => Some fifo
  | S n' =>
      match data with
      | [] => None
      | b :: data' => fifo' ← push_byte fifo b; write_bytes fifo' data' n'
      end
  end.

(** The same for reading: the fifo and the destination memory afterwards. *)
Fixpoint read_bytes (fifo : DataFifo) (data : list Z) (n : nat) {struct n} : option (DataFifo * list Z) :=
  match n with
  | O => Some (fifo, data)
  | S n' =>
      match data with
      | [] => None
      | _ :: data' =>
          '(fifo', b) ← pop_byte fifo;
          '(fifo'', data'') ← read_bytes fifo' data' n';
          Some (fifo'', b :: data'')
      end
  end.

(** The number of bytes written comes second. *)
Definition DataFifoWrite (fifo : DataFifo) (data : list Z) (size : Z) : option (DataFifo * Z) :=
  let size := Z.min size (DataFifoAvailSize fifo) in
  fifo' ← write_bytes fifo data (Z.to_nat size);
  Some (fifo', size).

(** The destination memory and the number of bytes read come second. *)
Definition DataFifoRead (fifo : DataFifo) (data : list Z) (size : Z) : option (DataFifo * (list Z * Z)) :=
  let size := Z.min size (DataFifoLen fifo) in
  '(fifo', data') ← read_bytes fifo data (Z.to_nat size);
  Some (fifo', (data', size)).

(** ** The queue a fifo holds *)

(** A fifo has either no memory and no size, or memory of a size that is a
    power of two not above 2^31. *)
Definition fifo_mem_ok (f : DataFifo) : Prop :=
  (fifo_size f = 0 /\ fifo_data f = None) \/
  (exists k m, 0 <= k <= 31 /\ fifo_size f = 2 ^ k /\ fifo_data f = Some m /\
     Z.of_nat (length (mem_cells m)) = 2 ^ k).

Record fifo_ok (f : DataFifo) : Prop := FifoOk {
  fo_rd : 0 <= rdIdx f < 2 ^ 32;
  fo_wr : 0 <= wrIdx f < 2 ^ 32;
  fo_len : DataFifoLen f <= fifo_size f;
  fo_mem : fifo_mem_ok f;
}.

(** The [i]-th byte of the queue, and the queue, oldest byte first. *)
Definition fifo_nth (f : DataFifo) (i : Z) : Z :=
  default 0 (cells (fifo_data f) !! Z.to_nat ((rdIdx f + i) `mod` fifo_size f)).
Definition contents (f : DataFifo) : list Z := fifo_nth f <$> seqZ 0 (DataFifoLen f).

Lemma fifo_len_range f : 0 <= DataFifoLen f < 2 ^ 32.
Proof. apply u32_range. Qed.

Lemma contents_length f : Z.of_nat (length (contents f)) = DataFifoLen f.
Proof. unfold contents. rewrite length_fmap, length_seqZ. pose proof (fifo_len_range f). lia. Qed.

(** Reducing a free-running index by the mask. *)
Lemma mask_index x k : 0 <= k <= 31 -> Z.land (u32 x) (u32 (2 ^ k - 1)) = x `mod` 2 ^ k.
Proof.
  intros Hk. assert (2 ^ k <= 2 ^ 31) by (apply Z.pow_le_mono_r; lia).
  assert (0 < 2 ^ k) by (apply Z.pow_pos_nonneg; lia).
  rewrite (u32_id (2 ^ k - 1)) by lia.
  replace (2 ^ k - 1) with (Z.ones k) by (rewrite Z.ones_equiv; lia).
  rewrite Z.land_ones by lia. unfold u32. apply Z.mod_mod_divide.
  exists (2 ^ (32 - k)). rewrite <- Z.pow_add_r by lia. f_equal. lia.
Qed.

(** Two positions less than [n] apart are different cells. *)
Lemma mod_distinct a i j n : 0 <= i < j -> j < n + i -> 0 < n -> (a + i) `mod` n <> (a + j) `mod` n.
Proof.
  intros Hij Hn H0 E.
  assert ((j - i) `mod` n = 0) as Hd.
  { replace (j - i) with ((a + j) - (a + i)) by lia.
    rewrite Zminus_mod, E, Z.sub_diag. by apply Z.mod_0_l; lia. }
  rewrite Z.mod_small in Hd; lia.
Qed.

Lemma contents_cons f : 0 < DataFifoLen f -> contents f = fifo_nth f 0 :: (fifo_nth f <$> seqZ 1 (DataFifoLen f - 1)).
Proof. intros H. unfold contents. rewrite seqZ_cons by done. cbn. do 3 f_equal; lia. Qed.

(** Taking bytes off the front moves the numbering. *)
Lemma nth_shift f f' n i :
  fifo_data f' = fifo_data f -> fifo_size f' = fifo_size f -> rdIdx f' = u32 (rdIdx f + n) ->
  fifo_mem_ok f -> fifo_nth f' i = fifo_nth f (n + i).
Proof.
  intros Hd Hs Hr [[E1 E2]|(k & m & Hk & E1 & E2 & _)]; unfold fifo_nth; rewrite Hd, Hs, Hr, E2; [done|].
  do 3 f_equal. rewrite E1. rewrite <- (Zplus_mod_idemp_l (u32 _)). unfold u32.
  rewrite Z.mod_mod_divide.
  - rewrite Zplus_mod_idemp_l. f_equal. lia.
  - exists (2 ^ (32 - k)). rewrite <- Z.pow_add_r by lia. f_equal. lia.
Qed.

(** Two states of a fifo on the same memory. *)
Definition same_ring (f f' : DataFifo) : Prop :=
  fifo_size f' = fifo_size f /\ mem_id <$> fifo_data f' = mem_id <$> fifo_data f.

Lemma same_ring_trans f1 f2 f3 : same_ring f1 f2 -> same_ring f2 f3 -> same_ring f1 f3.
Proof. intros [H1 H2] [H3 H4]. split; congruence. Qed.

(** Writing one byte appends it. *)
Lemma push_byte_spec f b :
  fifo_ok f -> DataFifoLen f < fifo_size f ->
  exists f', push_byte f b = Some f' /\ fifo_ok f' /\ contents f' = contents f ++ [b] /\
    DataFifoLen f' = DataFifoLen f + 1 /\ same_ring f f'.
Proof.
  intros [Hrd Hwr Hle Hm] Hlt. pose proof (fifo_len_range f) as Hrange.
  destruct Hm as [[E _]|(k & m & Hk & Es & Ed & Hl)]; [lia|].
  assert (2 ^ k <= 2 ^ 31) as Hk31 by (apply Z.pow_le_mono_r; lia).
  assert (0 < 2 ^ k) as Hk0 by (apply Z.pow_pos_nonneg; lia).
  set (c := (rdIdx f + DataFifoLen f) `mod` 2 ^ k).
  assert (Z.land (wrIdx f) (fifo_mask f) = c) as Hc.
  { unfold fifo_mask. rewrite Es, <- (u32_id (wrIdx f)) by lia. rewrite mask_index by lia.
    unfold c, DataFifoLen, u32. rewrite <- (Z.mod_mod_divide (rdIdx f + _) (2 ^ 32) (2 ^ k)).
    - rewrite Zplus_mod_idemp_r. do 2 f_equal.
      replace (rdIdx f + _) with (wrIdx f) by lia. symmetry. by apply Z.mod_small.
    - exists (2 ^ (32 - k)). rewrite <- Z.pow_add_r by lia. f_equal. lia. }
  assert (0 <= c < 2 ^ k) as Hcr by (apply Z.mod_pos_bound; lia).
  assert (u32 (u32 (wrIdx f + 1) - rdIdx f) = DataFifoLen f + 1) as Hlen.
  { unfold DataFifoLen, u32 in *. rewrite Zminus_mod_idemp_l.
    replace (wrIdx f + 1 - rdIdx f) with ((wrIdx f - rdIdx f) + 1) by lia.
    rewrite <- Zplus_mod_idemp_l. rewrite Z.mod_small; lia. }
  unfold push_byte. rewrite Ed; cbn. rewrite Hc, decide_True by lia.
  eexists. split; [done|]. split; [|split; [|split; [exact Hlen | split; [done | by rewrite Ed]]]].
  - split; cbn; [lia | apply u32_range | unfold DataFifoLen; cbn; lia |].
    right. exists k. eexists. split_and!; [lia | lia | done | done |]. cbn. by rewrite length_insert.
  - unfold contents at 1. unfold DataFifoLen at 1; cbn. rewrite Hlen.
    rewrite seqZ_app by lia. rewrite fmap_app. f_equal.
    + apply list_fmap_ext. intros j i [-> Hj]%lookup_seqZ. rename j into i0. set (i := 0 + Z.of_nat i0) in *.
      unfold fifo_nth; cbn. rewrite Ed, Es; cbn. rewrite list_lookup_insert_ne; [done|].
      intros E. apply Z2Nat.inj in E; [| lia | apply Z.mod_pos_bound; lia].
      symmetry in E. revert E. apply mod_distinct; lia.
    + rewrite seqZ_cons, seqZ_nil by lia. cbn [fmap list_fmap]. f_equal.
      unfold fifo_nth; cbn. rewrite Es. fold c.
      rewrite list_lookup_insert_eq by lia. done.
Qed.

(** Reading one byte takes the oldest. *)
Lemma pop_byte_spec f :
  fifo_ok f -> 0 < DataFifoLen f ->
  exists f' b, pop_byte f = Some (f', b) /\ fifo_ok f' /\ contents f = b :: contents f' /\
    DataFifoLen f' = DataFifoLen f - 1 /\ same_ring f f'.
Proof.
  intros [Hrd Hwr Hle Hm] Hlt. pose proof (fifo_len_range f) as Hrange.
  pose proof Hm as [[E _]|(k & m & Hk & Es & Ed & Hl)]; [lia|].
  assert (0 < 2 ^ k) as Hk0 by (apply Z.pow_pos_nonneg; lia).
  assert (0 <= rdIdx f `mod` 2 ^ k < 2 ^ k) as Hcr by (apply Z.mod_pos_bound; lia).
  destruct (lookup_lt_is_Some_2 (mem_cells m) (Z.to_nat (rdIdx f `mod` 2 ^ k))) as [b Hb]; [lia|].
  assert (u32 (wrIdx f - u32 (rdIdx f + 1)) = DataFifoLen f - 1) as Hlen.
  { unfold DataFifoLen, u32 in *. rewrite Zminus_mod_idemp_r.
    replace (wrIdx f - (rdIdx f + 1)) with ((wrIdx f - rdIdx f) + -1) by lia.
    rewrite <- Zplus_mod_idemp_l. rewrite Z.mod_small; lia. }
  assert (Z.land (rdIdx f) (fifo_mask f) = rdIdx f `mod` 2 ^ k) as Hc.
  { unfold fifo_mask. rewrite Es, <- mask_index by lia. by rewrite (u32_id (rdIdx f)). }
  unfold pop_byte. rewrite Ed; cbn. rewrite Hc, Hb. cbn.
  do 2 eexists. split; [done|]. split; [|split; [|split; [exact Hlen | split; [done | by rewrite Ed]]]].
  - split; cbn; [apply u32_range | lia | unfold DataFifoLen; cbn; lia |].
    right. exists k, m. auto.
  - rewrite contents_cons by done. f_equal.
    + unfold fifo_nth. rewrite Ed, Es, Z.add_0_r; cbn. by rewrite Hb.
    + unfold contents. unfold DataFifoLen at 2; cbn. rewrite Hlen.
      rewrite <- (fmap_add_seqZ 1 0). rewrite <- list_fmap_compose.
      apply list_fmap_ext. intros _ i _. symmetry. unfold compose.
      apply nth_shift; [by rewrite Ed | done..].
Qed.

(** Whole transfers. *)
Lemma write_bytes_spec n f data :
  fifo_ok f -> DataFifoLen f + Z.of_nat n <= fifo_size f -> (n <= length data)%nat ->
  exists f', write_bytes f data n = Some f' /\ fifo_ok f' /\
    contents f' = contents f ++ take n data /\ same_ring f f'.
Proof.
  revert f data. induction n as [|n IH]; intros f data Hf Hn Hd.
  - exists f. cbn. by rewrite app_nil_r.
  - destruct data as [|b data]; cbn in Hd; [lia|].
    destruct (push_byte_spec f b Hf) as (f1 & E1 & Hf1 & C1 & L1 & S1); [lia|].
    pose proof (proj1 S1).
    destruct (IH f1 data Hf1) as (f2 & E2 & Hf2 & C2 & S2); [lia..|].
    exists f2. cbn. rewrite E1; cbn. split; [done|]. split; [done|].
    split; [|by eapply same_ring_trans]. by rewrite C2, C1, <- app_assoc.
Qed.

Lemma read_bytes_spec n f data :
  fifo_ok f -> Z.of_nat n <= DataFifoLen f -> (n <= length data)%nat ->
  exists f', read_bytes f data n = Some (f', take n (contents f) ++ drop n data) /\ fifo_ok f' /\
    contents f' = drop n (contents f) /\ same_ring f f'.
Proof.
  revert f data. induction n as [|n IH]; intros f data Hf Hn Hd.
  - by exists f.
  - destruct data as [|b0 data]; cbn in Hd; [lia|].
    destruct (pop_byte_spec f Hf) as (f1 & b & E1 & Hf1 & C1 & L1 & S1); [lia|].
    pose proof (proj1 S1).
    destruct (IH f1 data Hf1) as (f2 & E2 & Hf2 & C2 & S2); [lia..|].
    exists f2. cbn. rewrite E1; cbn. rewrite E2, C1; cbn.
    do 3 (split; [done|]). by eapply same_ring_trans.
Qed.

Lemma avail_eq f : fifo_ok f -> DataFifoAvailSize f = fifo_size f - DataFifoLen f.
Proof.
  intros [_ _ Hle Hm]. pose proof (fifo_len_range f). apply u32_id.
  destruct Hm as [[E _]|(k & m & Hk & E & _)]; [lia|].
  assert (2 ^ k <= 2 ^ 31) by (apply Z.pow_le_mono_r; lia). lia.
Qed.

(** What a write of [n] bytes accepts. *)
Definition room (f : DataFifo) (n : Z) : nat := Z.to_nat (Z.min n (fifo_size f - DataFifoLen f)).

Lemma DataFifoWrite_spec f data n :
  fifo_ok f -> 0 <= n <= Z.of_nat (length data) ->
  exists f', DataFifoWrite f data n = Some (f', Z.of_nat (room f n)) /\ fifo_ok f' /\
    contents f' = contents f ++ take (room f n) data /\ same_ring f f'.
Proof.
  intros Hf Hn. pose proof Hf as [_ _ Hle _]. pose proof (fifo_len_range f).
  unfold DataFifoWrite. rewrite avail_eq by done. fold (room f n).
  destruct (write_bytes_spec (room f n) f data Hf) as (f' & E & Hf' & C & S); [unfold room; lia..|].
  exists f'. rewrite E; cbn. split_and!; [|done..]. do 2 f_equal. unfold room. lia.
Qed.

(** What a read of [n] bytes delivers. *)
Definition ready (f : DataFifo) (n : Z) : nat := Z.to_nat (Z.min n (DataFifoLen f)).

Lemma DataFifoRead_spec f data n :
  fifo_ok f -> 0 <= n <= Z.of_nat (length data) ->
  exists f', DataFifoRead f data n =
      Some (f', (take (ready f n) (contents f) ++ drop (ready f n) data, Z.of_nat (ready f n))) /\
    fifo_ok f' /\ contents f' = drop (ready f n) (contents f) /\ same_ring f f'.
Proof.
  intros Hf Hn. pose proof (fifo_len_range f).
  unfold DataFifoRead. fold (ready f n).
  destruct (read_bytes_spec (ready f n) f data Hf) as (f' & E & Hf' & C & S); [unfold ready; lia..|].
  exists f'. rewrite E; cbn. split_and!; [|done..]. do 3 f_equal. unfold ready. lia.
Qed.

Lemma DataFifoReset_spec f :
  fifo_ok f -> fifo_ok (DataFifoReset f) /\ contents (DataFifoReset f) = [].
Proof.
  intros [_ _ Hle Hm]. pose proof (fifo_len_range f). split; [|done].
  split; [cbn; lia | cbn; lia | | exact Hm].
  change (0 <= fifo_size f). lia.
Qed.

Lemma DataFifoInit_spec k m :
  0 <= k <= 31 -> Z.of_nat (length (mem_cells m)) = 2 ^ k ->
  fifo_ok (DataFifoInit (2 ^ k) (Some m)) /\ contents (DataFifoInit (2 ^ k) (Some m)) = [].
Proof.
  intros Hk Hm. assert (0 < 2 ^ k) by (apply Z.pow_pos_nonneg; lia).
  split; [|done]. split; [cbn; lia | cbn; lia | change (0 <= 2 ^ k); lia |].
  right. by exists k, m.
Qed.

Lemma DataFifoInit_none :
  fifo_ok (DataFifoInit 0 None) /\ contents (DataFifoInit 0 None) = [].
Proof. split; [|done]. split; cbn; [lia | lia | by unfold DataFifoLen |]. by left. Qed.

Lemma DataFifoIsEmpty_spec f : fifo_ok f -> DataFifoIsEmpty f = bool_decide (contents f = []).
Proof.
  intros [Hrd Hwr _ _]. pose proof (contents_length f) as HL. pose proof (fifo_len_range f).
  unfold DataFifoIsEmpty. destruct (Z.eqb_spec (wrIdx f) (rdIdx f)) as [E|E]; symmetry.
  - apply bool_decide_eq_true. apply length_zero_iff_nil.
    unfold DataFifoLen, u32 in HL. rewrite E, Z.sub_diag, Z.mod_0_l in HL by done. lia.
  - apply bool_decide_eq_false. intros Hc. rewrite Hc in HL.
    unfold DataFifoLen, u32 in HL. symmetry in HL.
    apply Z.mod_divide in HL as [c Hc2]; [|done]. assert (c = 0) by lia. lia.
Qed.

Lemma DataFifoIsFull_spec f :
  fifo_ok f -> DataFifoIsFull f = ((0 <? fifo_size f) && (DataFifoLen f =? fifo_size f)).
Proof.
  intros [_ _ Hle Hm]. pose proof (fifo_len_range f). unfold DataFifoIsFull.
  destruct Hm as [[E _]|(k & m & Hk & E & _)].
  - rewrite E. apply Z.ltb_ge. change (u32 (0 - 1)) with 4294967295. lia.
  - assert (2 ^ k <= 2 ^ 31) by (apply Z.pow_le_mono_r; lia).
    assert (0 < 2 ^ k) by (apply Z.pow_pos_nonneg; lia).
    rewrite u32_id by lia. destruct (Z.ltb_spec 0 (fifo_size f)), (Z.eqb_spec (DataFifoLen f) (fifo_size f)),
      (Z.ltb_spec (fifo_size f - 1) (DataFifoLen f)); cbn; first [done | exfalso; lia].
Qed.

(** Skipping no more than there is drops the oldest bytes. *)
Lemma DataFifoSkip_spec f n :
  fifo_ok f -> 0 <= n <= DataFifoLen f ->
  fifo_ok (DataFifoSkip f n) /\ contents (DataFifoSkip f n) = drop (Z.to_nat n) (contents f) /\
  DataFifoLen (DataFifoSkip f n) = DataFifoLen f - n.
Proof.
  intros [Hrd Hwr Hle Hm] Hn. pose proof (fifo_len_range f).
  assert (DataFifoLen (DataFifoSkip f n) = DataFifoLen f - n) as Hlen.
  { unfold DataFifoLen, DataFifoSkip, u32 in *; cbn. rewrite Zminus_mod_idemp_r.
    replace (wrIdx f - (rdIdx f + n)) with ((wrIdx f - rdIdx f) + - n) by lia.
    rewrite <- Zplus_mod_idemp_l. rewrite Z.mod_small; lia. }
  split_and!; [split; cbn; [apply u32_range | lia | rewrite Hlen; lia | exact Hm]
              | | done].
  unfold contents. rewrite Hlen.
  replace (DataFifoLen f) with (n + (DataFifoLen f - n)) at 2 by lia.
  rewrite (seqZ_app 0 n) by lia. rewrite fmap_app.
  rewrite drop_app_length' by (by rewrite length_fmap, length_seqZ).
  replace (0 + n) with (n + 0) by lia. rewrite <- (fmap_add_seqZ n 0).
  rewrite <- list_fmap_compose. apply list_fmap_ext. intros _ i _. by apply nth_shift.
Qed.

(** ** Refinement: a session with a fifo is a session with a bounded queue *)
Inductive fifo_op :=
  | OpWrite (data : list Z)
  | OpRead (size : nat)
  | OpIsEmpty
  | OpIsFull
  | OpReset.

Inductive fifo_result :=
  | Wrote (n : Z)
  | Got (bytes : list Z)
  | Flag (b : bool)
  | Done.

Definition fifo_exec (f : DataFifo) (op : fifo_op) : option (DataFifo * fifo_result) :=
  match op with
  | OpWrite data =>
      '(f', n) ← DataFifoWrite f data (Z.of_nat (length data)); Some (f', Wrote n)
  | OpRead n =>
      '(f', (buf, k)) ← DataFifoRead f (replicate n 0) (Z.of_nat n);
      Some (f', Got (take (Z.to_nat k) buf))
  | OpIsEmpty => Some (f, Flag (DataFifoIsEmpty f))
  | OpIsFull => Some (f, Flag (DataFifoIsFull f))
  | OpReset => Some (DataFifoReset f, Done)
  end.

(** The specification: a queue of at most [c] bytes. *)
Definition queue_exec (c : Z) (q : list Z) (op : fifo_op) : list Z * fifo_result :=
  let free := Z.to_nat (c - Z.of_nat (length q)) in
  match op with
  | OpWrite data => (q ++ take free data, Wrote (Z.of_nat (Nat.min (length data) free)))
  | OpRead n => (drop n q, Got (take n q))
  | OpIsEmpty => (q, Flag (bool_decide (q = [])))
  | OpIsFull => (q, Flag ((0 <? c) && (Z.of_nat (length q) =? c)))
  | OpReset => ([], Done)
  end.

Fixpoint fifo_run (f : DataFifo) (ops : list fifo_op) : option (DataFifo * list fifo_result) :=
  match ops with
  | [] => Some (f, [])
  | op :: ops =>
      '(f', r) ← fifo_exec f op; '(f'', rs) ← fifo_run f' ops; Some (f'', r :: rs)
  end.

Fixpoint queue_run (c : Z) (q : list Z) (ops : list fifo_op) : list Z * list fifo_result :=
  match ops with
  | [] => (q, [])
  | op :: ops =>
      let '(q', r) := queue_exec c q op in
      let '(q'', rs) := queue_run c q' ops in (q'', r :: rs)
  end.

Lemma fifo_exec_queue f op :
  fifo_ok f ->
  exists f' r, fifo_exec f op = Some (f', r) /\ fifo_ok f' /\ fifo_size f' = fifo_size f /\
    queue_exec (fifo_size f) (contents f) op = (contents f', r).
Proof.
  intros Hf. pose proof (fo_len f Hf). pose proof (contents_length f) as HL.
  destruct op as [data|n| | |]; cbn.
  - destruct (DataFifoWrite_spec f data (Z.of_nat (length data)) Hf) as (f' & E & Hf' & C & S & _); [lia|].
    rewrite E; cbn. do 2 eexists. split_and!; [done..|]. rewrite C, HL. f_equal.
    + f_equal. unfold room. destruct (Z.le_gt_cases (Z.of_nat (length data)) (fifo_size f - DataFifoLen f)).
      * rewrite !take_ge by lia. done.
      * f_equal. lia.
    + f_equal. unfold room. lia.
  - destruct (DataFifoRead_spec f (replicate n 0) (Z.of_nat n) Hf) as (f' & E & Hf' & C & S & _).
    { rewrite length_replicate. lia. }
    rewrite E; cbn. do 2 eexists. split_and!; [done..|]. rewrite C, Nat2Z.id.
    assert (ready f (Z.of_nat n) = Nat.min n (length (contents f))) as -> by (unfold ready; lia).
    f_equal; [|f_equal].
    + destruct (Nat.min_spec n (length (contents f))) as [[? ->]|[? ->]]; [done|].
      by rewrite !drop_ge by lia.
    + rewrite take_app_length' by (rewrite length_take; lia).
      destruct (Nat.min_spec n (length (contents f))) as [[? ->]|[? ->]]; [done|].
      by rewrite !take_ge by lia.
  - do 2 eexists. split_and!; [done..|]. by rewrite DataFifoIsEmpty_spec.
  - do 2 eexists. split_and!; [done..|]. by rewrite DataFifoIsFull_spec, HL.
  - do 2 eexists. split_and!; [done | by apply DataFifoReset_spec | done..].
Qed.

(** C24: Any session of writes, reads, tests and resets on a byte fifo with
    well-formed memory has defined behaviour, gives the results of a bounded
    byte queue of the fifo's size, and ends with the bytes of that queue,
    also when the 32-bit indices wrap around. *)
Theorem fifo_refines_queue (ops : list fifo_op) (f : DataFifo) :
  fifo_ok f ->
  exists f' rs, fifo_run f ops = Some (f', rs) /\ fifo_ok f' /\ fifo_size f' = fifo_size f /\
    queue_run (fifo_size f) (contents f) ops = (contents f', rs).
Proof.
  revert f. induction ops as [|op ops IH]; intros f Hf; cbn; [by exists f, []|].
  destruct (fifo_exec_queue f op Hf) as (f1 & r & E1 & Hf1 & S1 & Q1).
  destruct (IH f1 Hf1) as (f2 & rs & E2 & Hf2 & S2 & Q2).
  exists f2, (r :: rs). rewrite E1; cbn. rewrite E2, Q1; cbn. rewrite <- S1, Q2. auto.
Qed.

(** A fifo of eight bytes holding two, its indices about to wrap. *)
Definition wrapping_fifo : DataFifo :=
  mkFifo (2 ^ 32 - 3) (2 ^ 32 - 1) 8 (Some (Mem 0 [10; 11; 12; 13; 14; 15; 16; 17])).

Lemma fifo_refines_queue_witness :
  fifo_ok wrapping_fifo /\ contents wrapping_fifo = [15; 16] /\
  exists f' rs,
    fifo_run wrapping_fifo [OpWrite [1; 2; 3; 4; 5; 6; 7]; OpRead 3; OpIsEmpty] = Some (f', rs) /\
    fifo_ok f' /\ fifo_size f' = fifo_size wrapping_fifo /\
    queue_run 8 [15; 16] [OpWrite [1; 2; 3; 4; 5; 6; 7]; OpRead 3; OpIsEmpty] = (contents f', rs).
Proof.
  assert (fifo_ok wrapping_fifo) as H.
  { split; [cbn; lia | cbn; lia | by vm_compute |]. right. exists 3. eexists. repeat split; by cbn. }
  split_and!; [exact H | by vm_compute |].
  exact (fifo_refines_queue [OpWrite [1; 2; 3; 4; 5; 6; 7]; OpRead 3; OpIsEmpty] wrapping_fifo H).
Defined.

Example wrapping_session :
  snd <$> fifo_run wrapping_fifo [OpWrite [1; 2; 3; 4; 5; 6; 7]; OpIsFull; OpRead 3; OpRead 9; OpIsEmpty] =
  Some [Wrote 6; Flag true; Got [15; 16; 1]; Got [2; 3; 4; 5; 6]; Flag true].
Proof. by vm_compute. Qed.
