(* ===== verification/UsbFn.v ===== *)
(** * UsbFn: requests of the USB device kit, as a function driver uses them

    [usb/interfaces/ddk/device/usbfn_request.h], [usb/ddk/device/src/usbfn_sdk_if.c],
    [usbfn_io_mgr.c] and [usbfn_dev_mgr.c]: allocating, releasing and submitting
    a request and calling back a finished one.  The kernel adapter below is an
    interface: what it answers may depend on everything that happened before,
    which the model records as a history.  The history and the list of requests
    in flight are observations; no function driver reads them.  The handle and
    the pipe a driver names are those of its open interface. *)
From S2P Require Import Prelude Hdf.
Open Scope Z_scope.

Definition USB_REQUEST_COMPLETED : Z := 0.
Definition USB_REQUEST_NO_DEVICE : Z := 6.
Definition MAX_BUFLEN : Z := 2048.

(** The [complete] callbacks of the serial function. *)
Inductive complete_fn := ReadComplete | WriteComplete | NotifyComplete.
#[global] Instance complete_fn_eq_dec : EqDecision complete_fn.
Proof. solve_decision. Defined.

(** [req_buf] is the memory the request is mapped to. *)
Record UsbFnRequest := mkReq {
  req_buf : list Z;
  req_length : Z;
  req_status : Z;
  req_actual : Z;
  req_complete : complete_fn;
}.
Definition set_req_buf b q := mkReq b (req_length q) (req_status q) (req_actual q) (req_complete q).
Definition set_req_length n q := mkReq (req_buf q) n (req_status q) (req_actual q) (req_complete q).

Inductive fn_event :=
  | Allocated (r : nat) (k : complete_fn)
  | NotAllocated (k : complete_fn)
  | Freed (r : nat)
  | NotFreed (r : nat)
  | Submitted (r : nat) (k : complete_fn) (bytes : list Z) (ret : Z)
  | Completed (r : nat) (k : complete_fn) (status : Z) (bytes : list Z).

(** The answers of the kernel adapter and of the kit's allocator. *)
Class UsbFnAdapterOps := {
  mapAddr : list fn_event -> Z -> option (list Z);
  UsbFnMemCalloc : list fn_event -> bool;
  unmapAddr : list fn_event -> nat -> Z;
  releaseBuf : list fn_event -> nat -> Z;
  pipeIo : list fn_event -> nat -> UsbFnRequest -> Z;
}.

(** A mapping has the size asked for. *)
Class UsbFnAdapterLaws `{!UsbFnAdapterOps} :=
  mapAddr_length h n buf : mapAddr h n = Some buf -> Z.of_nat (length buf) = n.

Record UsbFn := mkFn {
  fn_reqs : gmap nat UsbFnRequest;
  fn_inflight : list (nat * complete_fn);
  fn_next : nat;
  fn_history : list fn_event;
}.

(** Something happened. *)
Definition happened (e : fn_event) (s : UsbFn) : UsbFn :=
  mkFn (fn_reqs s) (fn_inflight s) (fn_next s) (fn_history s ++ [e]).

Section operations.
Context `{!UsbFnAdapterOps, !HdfStatus}.
Abbreviation M := (M UsbFn).

Definition request (r : nat) : M UsbFnRequest := fun s =>
  q ← fn_reqs s !! r; Some (q, s).
Definition set_request (r : nat) (q : UsbFnRequest) : M unit :=
  modify (fun s => mkFn (<[r := q]> (fn_reqs s)) (fn_inflight s) (fn_next s) (fn_history s)).

Definition UsbFnIoMgrRequestAlloc (k : complete_fn) (len : Z) : M (option nat) := fun s =>
  match mapAddr (fn_history s) len with
  | None => Some (None, happened (NotAllocated k) s)
  | Some buf =>
      if negb (UsbFnMemCalloc (fn_history s)) then Some (None, happened (NotAllocated k) s)
      else
        let r := fn_next s in
        Some (Some r, mkFn (<[r := mkReq buf len 0 0 k]> (fn_reqs s)) (fn_inflight s) (S r)
                        (fn_history s ++ [Allocated r k]))
  end.

(** A request with memory of [len] bytes; the driver stores the callback [k] in
    the request it gets. *)
Definition UsbFnAllocRequest (k : complete_fn) (len : Z) : M (option nat) :=
  if (MAX_BUFLEN <? len) || (len =? 0) then mret None else UsbFnIoMgrRequestAlloc k len.

(** Releasing a request the controller still works on is undefined. *)
Definition UsbFnFreeRequest (r : nat) : M Z := fun s =>
  q ← fn_reqs s !! r;
  if decide (r ∈ (fn_inflight s).*1) then None
  else if negb (unmapAddr (fn_history s) r =? 0) then
    Some (HDF_ERR_DEVICE_BUSY, happened (NotFreed r) s)
  else if negb (releaseBuf (fn_history s) r =? 0) then
    Some (HDF_ERR_INVALID_PARAM,
          mkFn (<[r := set_req_buf [] q]> (fn_reqs s)) (fn_inflight s) (fn_next s) (fn_history s ++ [NotFreed r]))
  else
    Some (0, mkFn (delete r (fn_reqs s)) (fn_inflight s) (fn_next s) (fn_history s ++ [Freed r])).

(** Submitting a request that is in flight, or with a length beyond its memory,
    is undefined. *)
Definition UsbFnSubmitRequestAsync (r : nat) : M Z := fun s =>
  q ← fn_reqs s !! r;
  if decide (r ∈ (fn_inflight s).*1) then None
  else if Z.of_nat (length (req_buf q)) <? req_length q then None
  else
    let k := req_complete q in
    let ret := pipeIo (fn_history s) r q in
    Some (ret, mkFn (fn_reqs s)
                 (if ret =? HDF_SUCCESS then fn_inflight s ++ [(r, k)] else fn_inflight s) (fn_next s)
                 (fn_history s ++ [Submitted r k (take (Z.to_nat (req_length q)) (req_buf q)) ret])).

(** An event of the kernel about a finished request: status and byte count are
    stored, the memory holds what was transferred, and the callback runs. *)
Definition HandleEpsIoEvent (r : nat) (status : Z) (buf : list Z) (actual : Z) : M complete_fn := fun s =>
  q ← fn_reqs s !! r;
  if decide (r ∈ (fn_inflight s).*1) then
    Some (req_complete q,
          mkFn (<[r := mkReq buf (req_length q) status actual (req_complete q)]> (fn_reqs s))
            (filter (fun e => e.1 <> r) (fn_inflight s)) (fn_next s)
            (fn_history s ++ [Completed r (req_complete q) status (take (Z.to_nat actual) buf)]))
  else None.
End operations.

(** ** Where a request is: [occ r l] counts [r] in a list of requests *)
Fixpoint occ (r : nat) (l : list nat) : nat :=
  match l with
  | [] => 0
  | a :: l => (if decide (a = r) then 1 else 0) + occ r l
  end.

Lemma occ_app r l1 l2 : occ r (l1 ++ l2) = (occ r l1 + occ r l2)%nat.
Proof. induction l1 as [|a l1 IH]; cbn; [done|]. rewrite IH. lia. Qed.

Lemma occ_elem r l : r ∈ l <-> (0 < occ r l)%nat.
Proof.
  induction l as [|a l IH]; cbn; [split; [by intros ?%not_elem_of_nil | lia]|].
  rewrite elem_of_cons, IH. case_decide; naive_solver lia.
Qed.

Lemma occ_single r a : occ r [a] = if decide (a = r) then 1%nat else 0%nat.
Proof. cbn. lia. Qed.

(** The requests in flight with a given callback. *)
Definition inflight_of (k : complete_fn) (l : list (nat * complete_fn)) : list nat :=
  (filter (fun e => e.2 = k) l).*1.
Arguments inflight_of k l : simpl never.

Lemma inflight_of_app k l1 l2 : inflight_of k (l1 ++ l2) = inflight_of k l1 ++ inflight_of k l2.
Proof. unfold inflight_of. by rewrite filter_app, fmap_app. Qed.

Lemma inflight_of_single k r k' : inflight_of k [(r, k')] = if decide (k' = k) then [r] else [].
Proof. unfold inflight_of. rewrite filter_cons. cbn. by case_decide. Qed.

(** Removing the only entry of a request. *)
Lemma inflight_remove r (k : complete_fn) (l : list (nat * complete_fn)) :
  (r, k) ∈ l -> occ r l.*1 = 1%nat ->
  exists l1 l2, l = l1 ++ (r, k) :: l2 /\ filter (fun e => e.1 <> r) l = l1 ++ l2.
Proof.
  induction l as [|[a k'] l IH]; [by intros ?%not_elem_of_nil|].
  intros Hin Hocc. cbn in Hocc. rewrite filter_cons; cbn. apply elem_of_cons in Hin as [[= <- <-]|Hin].
  - rewrite decide_True in Hocc by done. rewrite decide_False by naive_solver.
    exists [], l. split; [done|]. cbn.
    assert (occ r l.*1 = 0%nat) as H0 by lia. clear IH Hocc.
    induction l as [|[b kb] l IH]; [done|]. cbn in H0. rewrite filter_cons; cbn.
    case_decide; [lia|]. rewrite decide_True by done. f_equal. apply IH. lia.
  - assert (0 < occ r l.*1)%nat by (apply occ_elem, list_elem_of_fmap; by exists (r, k)).
    case_decide; [lia|]. rewrite decide_True by done.
    destruct IH as (l1 & l2 & -> & E); [done | lia |].
    exists ((a, k') :: l1), l2. by rewrite E.
Qed.

(** ** Proof rules *)
Section rules.
Context `{!UsbFnAdapterOps, !HdfStatus}.

Lemma wp_request r q s (Q : UsbFnRequest -> UsbFn -> Prop) :
  fn_reqs s !! r = Some q -> Q q s -> wp (request r) Q s.
Proof. intros E HQ. unfold wp, request. by rewrite E. Qed.

Lemma wp_submit r q s (Q : Z -> UsbFn -> Prop) :
  fn_reqs s !! r = Some q -> occ r (fn_inflight s).*1 = 0%nat ->
  req_length q <= Z.of_nat (length (req_buf q)) ->
  (forall ret, ret = pipeIo (fn_history s) r q -> Q ret (mkFn (fn_reqs s)
       (if ret =? HDF_SUCCESS then fn_inflight s ++ [(r, req_complete q)] else fn_inflight s) (fn_next s)
       (fn_history s ++ [Submitted r (req_complete q) (take (Z.to_nat (req_length q)) (req_buf q)) ret]))) ->
  wp (UsbFnSubmitRequestAsync r) Q s.
Proof.
  intros E Ho Hl HQ. unfold wp, UsbFnSubmitRequestAsync. rewrite E; cbn.
  rewrite decide_False by (rewrite occ_elem; lia).
  destruct (Z.ltb_spec (Z.of_nat (length (req_buf q))) (req_length q)); [lia|]. by apply HQ.
Qed.

(** A request that cannot be released stays, possibly without its memory. *)
Lemma wp_free_request r q s (Q : Z -> UsbFn -> Prop) :
  fn_reqs s !! r = Some q -> occ r (fn_inflight s).*1 = 0%nat ->
  Q 0 (mkFn (delete r (fn_reqs s)) (fn_inflight s) (fn_next s) (fn_history s ++ [Freed r])) ->
  (forall ret q', Q ret (mkFn (<[r := q']> (fn_reqs s)) (fn_inflight s) (fn_next s) (fn_history s ++ [NotFreed r]))) ->
  wp (UsbFnFreeRequest r) Q s.
Proof.
  intros E Ho HS HF. unfold wp, UsbFnFreeRequest. rewrite E; cbn.
  rewrite decide_False by (rewrite occ_elem; lia).
  destruct (negb _); [|by destruct (negb _)].
  unfold happened. rewrite <- (insert_id (fn_reqs s) r q) by done. apply HF.
Qed.

Lemma wp_alloc_request `{!UsbFnAdapterLaws} k len s (Q : option nat -> UsbFn -> Prop) :
  Q None s -> Q None (happened (NotAllocated k) s) ->
  (forall buf, Z.of_nat (length buf) = len ->
     Q (Some (fn_next s)) (mkFn (<[fn_next s := mkReq buf len 0 0 k]> (fn_reqs s)) (fn_inflight s)
                             (S (fn_next s)) (fn_history s ++ [Allocated (fn_next s) k]))) ->
  wp (UsbFnAllocRequest k len) Q s.
Proof.
  intros HN HM HS. unfold UsbFnAllocRequest. destruct (_ || _); [by apply wp_ret|].
  unfold wp, UsbFnIoMgrRequestAlloc. destruct (mapAddr (fn_history s) len) as [buf|] eqn:E; [|done].
  destruct (negb _); [done|]. apply HS. by apply mapAddr_length in E.
Qed.
End rules.
