(* ===== verification/AcmPort.v ===== *)
(** * AcmPort: the data path of the USB CDC ACM serial function

    [usb/gadget/function/acm/cdcacm.c] and [include/cdcacm.h], the part that
    runs on the port, the device and the requests: transmit and receive
    queues, completion callbacks, state notifications.  A function that takes
    the port or the device as its argument works on the one of the state; the
    C null checks of the device's port remain. *)
From S2P Require Import Prelude Hdf DataFifo UsbFn.
Open Scope Z_scope.

Definition QUEUE_SIZE : Z := 8.
Definition WRITE_BUF_SIZE : Z := 8192.
Definition READ_BUF_SIZE : Z := 8192.
Definition USB_DDK_CDC_NOTIFY_SERIAL_STATE : Z := 0x20.
Definition SERIAL_STATE_DCD : Z := Z.shiftl 1 0.
Definition SERIAL_STATE_DSR : Z := Z.shiftl 1 1.
Definition SERIAL_STATE_BREAK : Z := Z.shiftl 1 2.

Record UsbCdcLineCoding := mkLine {
  dwDTERate : Z;
  bCharFormat : Z;
  bParityType : Z;
  bDataBits : Z;
}.

(** The port.  [port_acm] says whether the [acm] pointer is set: it is null
    until the function is enabled and then points to the device. *)
Record UsbSerial := mkSerial {
  port_acm : bool;
  port_lineCoding : UsbCdcLineCoding;
  port_lock : bool;
  readPool : list nat;
  readQueue : list nat;
  readStarted : Z;
  readAllocated : Z;
  readFifo : DataFifo;
  writePool : list nat;
  writeStarted : Z;
  writeAllocated : Z;
  writeFifo : DataFifo;
  writeBusy : bool;
  suspended : bool;
  startDelayed : bool;
}.

(** The device.  [acm_notify] says whether the table of notification methods is
    set; [dataInMax] and [dataOutMax] are the packet sizes of the data pipes,
    [ctrlIndex] is the number of the control interface. *)
Record UsbAcmDevice := mkDevice {
  acm_port : option UsbSerial;
  acm_lock : bool;
  notifyReq : option nat;
  pending : bool;
  acm_lineCoding : UsbCdcLineCoding;
  serialState : Z;
  acm_notify : bool;
  dataInMax : Z;
  dataOutMax : Z;
  ctrlIndex : Z;
}.

(** The statistics of the read speed test, which are global variables. *)
Record ReadSpeed := mkSpeed {
  g_isStartRead : bool;
  g_isReadDone : bool;
  g_readCnt : Z;
  isGetReadTimeStart : bool;
  g_readTimeStart : Z;
}.

Record Acm := mkAcm {
  dev : UsbAcmDevice;
  g_inFifo : Z;
  g_speed : ReadSpeed;
  fn : UsbFn;
}.

Definition set_port_acm (v : bool) (p : UsbSerial) : UsbSerial :=
    mkSerial v (port_lineCoding p) (port_lock p) (readPool p) (readQueue p) (readStarted p)
    (readAllocated p) (readFifo p) (writePool p) (writeStarted p) (writeAllocated p) (writeFifo
    p) (writeBusy p) (suspended p) (startDelayed p).
Definition set_port_lineCoding (v : UsbCdcLineCoding) (p : UsbSerial) : UsbSerial :=
    mkSerial (port_acm p) v (port_lock p) (readPool p) (readQueue p) (readStarted p)
    (readAllocated p) (readFifo p) (writePool p) (writeStarted p) (writeAllocated p) (writeFifo
    p) (writeBusy p) (suspended p) (startDelayed p).
Definition set_port_lock (v : bool) (p : UsbSerial) : UsbSerial :=
    mkSerial (port_acm p) (port_lineCoding p) v (readPool p) (readQueue p) (readStarted p)
    (readAllocated p) (readFifo p) (writePool p) (writeStarted p) (writeAllocated p) (writeFifo
    p) (writeBusy p) (suspended p) (startDelayed p).
Definition set_readPool (v : list nat) (p : UsbSerial) : UsbSerial :=
    mkSerial (port_acm p) (port_lineCoding p) (port_lock p) v (readQueue p) (readStarted p)
    (readAllocated p) (readFifo p) (writePool p) (writeStarted p) (writeAllocated p) (writeFifo
    p) (writeBusy p) (suspended p) (startDelayed p).
Definition set_readQueue (v : list nat) (p : UsbSerial) : UsbSerial :=
    mkSerial (port_acm p) (port_lineCoding p) (port_lock p) (readPool p) v (readStarted p)
    (readAllocated p) (readFifo p) (writePool p) (writeStarted p) (writeAllocated p) (writeFifo
    p) (writeBusy p) (suspended p) (startDelayed p).
Definition set_readStarted (v : Z) (p : UsbSerial) : UsbSerial :=
    mkSerial (port_acm p) (port_lineCoding p) (port_lock p) (readPool p) (readQueue p) v
    (readAllocated p) (readFifo p) (writePool p) (writeStarted p) (writeAllocated p) (writeFifo
    p) (writeBusy p) (suspended p) (startDelayed p).
Definition set_readAllocated (v : Z) (p : UsbSerial) : UsbSerial :=
    mkSerial (port_acm p) (port_lineCoding p) (port_lock p) (readPool p) (readQueue p)
    (readStarted p) v (readFifo p) (writePool p) (writeStarted p) (writeAllocated p) (writeFifo
    p) (writeBusy p) (suspended p) (startDelayed p).
Definition set_readFifo (v : DataFifo) (p : UsbSerial) : UsbSerial :=
    mkSerial (port_acm p) (port_lineCoding p) (port_lock p) (readPool p) (readQueue p)
    (readStarted p) (readAllocated p) v (writePool p) (writeStarted p) (writeAllocated p)
    (writeFifo p) (writeBusy p) (suspended p) (startDelayed p).
Definition set_writePool (v : list nat) (p : UsbSerial) : UsbSerial :=
    mkSerial (port_acm p) (port_lineCoding p) (port_lock p) (readPool p) (readQueue p)
    (readStarted p) (readAllocated p) (readFifo p) v (writeStarted p) (writeAllocated p)
    (writeFifo p) (writeBusy p) (suspended p) (startDelayed p).
Definition set_writeStarted (v : Z) (p : UsbSerial) : UsbSerial :=
    mkSerial (port_acm p) (port_lineCoding p) (port_lock p) (readPool p) (readQueue p)
    (readStarted p) (readAllocated p) (readFifo p) (writePool p) v (writeAllocated p) (writeFifo
    p) (writeBusy p) (suspended p) (startDelayed p).
Definition set_writeAllocated (v : Z) (p : UsbSerial) : UsbSerial :=
    mkSerial (port_acm p) (port_lineCoding p) (port_lock p) (readPool p) (readQueue p)
    (readStarted p) (readAllocated p) (readFifo p) (writePool p) (writeStarted p) v (writeFifo
    p) (writeBusy p) (suspended p) (startDelayed p).
Definition set_writeFifo (v : DataFifo) (p : UsbSerial) : UsbSerial :=
    mkSerial (port_acm p) (port_lineCoding p) (port_lock p) (readPool p) (readQueue p)
    (readStarted p) (readAllocated p) (readFifo p) (writePool p) (writeStarted p)
    (writeAllocated p) v (writeBusy p) (suspended p) (startDelayed p).
Definition set_writeBusy (v : bool) (p : UsbSerial) : UsbSerial :=
    mkSerial (port_acm p) (port_lineCoding p) (port_lock p) (readPool p) (readQueue p)
    (readStarted p) (readAllocated p) (readFifo p) (writePool p) (writeStarted p)
    (writeAllocated p) (writeFifo p) v (suspended p) (startDelayed p).
Definition set_suspended (v : bool) (p : UsbSerial) : UsbSerial :=
    mkSerial (port_acm p) (port_lineCoding p) (port_lock p) (readPool p) (readQueue p)
    (readStarted p) (readAllocated p) (readFifo p) (writePool p) (writeStarted p)
    (writeAllocated p) (writeFifo p) (writeBusy p) v (startDelayed p).
Definition set_startDelayed (v : bool) (p : UsbSerial) : UsbSerial :=
    mkSerial (port_acm p) (port_lineCoding p) (port_lock p) (readPool p) (readQueue p)
    (readStarted p) (readAllocated p) (readFifo p) (writePool p) (writeStarted p)
    (writeAllocated p) (writeFifo p) (writeBusy p) (suspended p) v.

Definition set_acm_port (v : option UsbSerial) (p : UsbAcmDevice) : UsbAcmDevice :=
    mkDevice v (acm_lock p) (notifyReq p) (pending p) (acm_lineCoding p) (serialState p)
    (acm_notify p) (dataInMax p) (dataOutMax p) (ctrlIndex p).
Definition set_acm_lock (v : bool) (p : UsbAcmDevice) : UsbAcmDevice :=
    mkDevice (acm_port p) v (notifyReq p) (pending p) (acm_lineCoding p) (serialState p)
    (acm_notify p) (dataInMax p) (dataOutMax p) (ctrlIndex p).
Definition set_notifyReq (v : option nat) (p : UsbAcmDevice) : UsbAcmDevice :=
    mkDevice (acm_port p) (acm_lock p) v (pending p) (acm_lineCoding p) (serialState p)
    (acm_notify p) (dataInMax p) (dataOutMax p) (ctrlIndex p).
Definition set_pending (v : bool) (p : UsbAcmDevice) : UsbAcmDevice :=
    mkDevice (acm_port p) (acm_lock p) (notifyReq p) v (acm_lineCoding p) (serialState p)
    (acm_notify p) (dataInMax p) (dataOutMax p) (ctrlIndex p).
Definition set_acm_lineCoding (v : UsbCdcLineCoding) (p : UsbAcmDevice) : UsbAcmDevice :=
    mkDevice (acm_port p) (acm_lock p) (notifyReq p) (pending p) v (serialState p) (acm_notify
    p) (dataInMax p) (dataOutMax p) (ctrlIndex p).
Definition set_serialState (v : Z) (p : UsbAcmDevice) : UsbAcmDevice :=
    mkDevice (acm_port p) (acm_lock p) (notifyReq p) (pending p) (acm_lineCoding p) v
    (acm_notify p) (dataInMax p) (dataOutMax p) (ctrlIndex p).

Definition set_dev (v : UsbAcmDevice) (x : Acm) : Acm :=
  mkAcm v (g_inFifo x) (g_speed x) (fn x).
Definition set_g_inFifo (v : Z) (x : Acm) : Acm :=
  mkAcm (dev x) v (g_speed x) (fn x).
Definition set_g_speed (v : ReadSpeed) (x : Acm) : Acm :=
  mkAcm (dev x) (g_inFifo x) v (fn x).
Definition set_fn (v : UsbFn) (x : Acm) : Acm :=
  mkAcm (dev x) (g_inFifo x) (g_speed x) v.

(** The clock of the speed test. *)
Class Clock := gettimeofday : list fn_event -> Z.

Section operations.
Context `{!UsbFnAdapterOps, !HdfStatus, !Clock}.
Abbreviation M := (M Acm).

(** ** Access to the state *)
Definition port : M UsbSerial := x ← get_state; deref (acm_port (dev x)).
Definition put_port (p : UsbSerial) : M unit :=
  modify (fun x => set_dev (set_acm_port (Some p) (dev x)) x).
Definition upd_port (f : UsbSerial -> UsbSerial) : M unit := p ← port; put_port (f p).
Definition device : M UsbAcmDevice := gets dev.
Definition upd_device (f : UsbAcmDevice -> UsbAcmDevice) : M unit :=
  modify (fun x => set_dev (f (dev x)) x).
Definition on_fn {A} (m : Prelude.M UsbFn A) : M A := zoom fn set_fn m.

(** Locking a mutex that is held blocks forever; both mutexes are plain. *)
Definition lock_port : M unit :=
  p ← port; if port_lock p then undefined else upd_port (set_port_lock true).
Definition unlock_port : M unit :=
  p ← port; if port_lock p then upd_port (set_port_lock false) else undefined.
Definition lock_acm : M unit :=
  a ← device; if acm_lock a then undefined else upd_device (set_acm_lock true).
Definition unlock_acm : M unit :=
  a ← device; if acm_lock a then upd_device (set_acm_lock false) else undefined.

(** [port->acm->...]: the pointer must be set. *)
Definition port_device : M UsbAcmDevice :=
  p ← port; if port_acm p then device else undefined.

(** ** Transmit

    The loop [while (!port->writeBusy && !DListIsEmpty(pool))]; [pool] is what
    the list [port->writePool] holds when an iteration starts. *)
Fixpoint start_tx (pool : list nat) (ret : Z) : M Z :=
  match pool with
  | [] => mret ret
  | req :: pool' =>
      p ← port;
      if writeBusy p then mret ret
      else if QUEUE_SIZE <=? writeStarted p then mret ret
      else
        q ← on_fn (request req);
        a ← port_device;
        '(fifo, (buf, len)) ← deref (DataFifoRead (writeFifo p) (req_buf q) (dataInMax a));
        upd_port (set_writeFifo fifo);;
        on_fn (set_request req (set_req_buf buf q));;
        if len =? 0 then mret ret
        else
          on_fn (set_request req (set_req_length len (set_req_buf buf q)));;
          upd_port (set_writePool pool');;
          upd_port (set_writeBusy true);;
          ret ← on_fn (UsbFnSubmitRequestAsync req);
          upd_port (set_writeBusy false);;
          if negb (ret =? HDF_SUCCESS) then
            upd_port (fun p => set_writePool (writePool p ++ [req]) p);; mret ret
          else
            upd_port (fun p => set_writeStarted (i32 (writeStarted p + 1)) p);;
            p ← port;
            if negb (port_acm p) then mret ret else start_tx pool' ret
  end.

Definition UsbSerialStartTx : M Z :=
  a ← device;
  match acm_port a with
  | None => mret HDF_FAILURE
  | Some p =>
      if negb (port_acm p) then mret HDF_SUCCESS else start_tx (writePool p) HDF_FAILURE
  end.

(** ** Receive *)
Fixpoint start_rx (pool : list nat) : M unit :=
  match pool with
  | [] => mret tt
  | req :: pool' =>
      p ← port;
      if QUEUE_SIZE <=? readStarted p then mret tt
      else
        upd_port (set_readPool pool');;
        q ← on_fn (request req);
        a ← port_device;
        on_fn (set_request req (set_req_length (dataOutMax a) q));;
        ret ← on_fn (UsbFnSubmitRequestAsync req);
        if negb (ret =? HDF_SUCCESS) then
          upd_port (fun p => set_readPool (readPool p ++ [req]) p)
        else
          upd_port (fun p => set_readStarted (i32 (readStarted p + 1)) p);;
          p ← port;
          if negb (port_acm p) then mret tt else start_rx pool'
  end.

Definition UsbSerialStartRx : M Z :=
  p ← port;
  _ ← port_device;
  start_rx (readPool p);;
  p ← port; mret (u32 (readStarted p)).

(** One request of the queue; whether it reported a disconnected device. *)
Definition rx_store (req : nat) : M bool :=
  q ← on_fn (request req);
  x ← get_state;
  (if negb (g_inFifo x =? 0) && negb (req_actual q =? 0) then
     upd_port (fun p => if DataFifoIsFull (readFifo p)
                        then set_readFifo (DataFifoSkip (readFifo p) (req_actual q)) p else p);;
     p ← port;
     '(fifo, count) ← deref (DataFifoWrite (readFifo p) (req_buf q) (req_actual q));
     upd_port (set_readFifo fifo)
   else mret tt);;
  mret (req_status q =? USB_REQUEST_NO_DEVICE).

Fixpoint rx_push (queue : list nat) (disconnect : bool) : M bool :=
  match queue with
  | [] => mret disconnect
  | req :: queue' =>
      gone ← rx_store req;
      upd_port (set_readQueue queue');;
      upd_port (fun p => set_readPool (readPool p ++ [req]) p);;
      upd_port (fun p => set_readStarted (i32 (readStarted p - 1)) p);;
      rx_push queue' (disconnect || gone)
  end.

Definition UsbSerialRxPush : M unit :=
  p ← port;
  disconnect ← rx_push (readQueue p) false;
  p ← port;
  if negb disconnect && port_acm p then UsbSerialStartRx;; mret tt else mret tt.

(** ** Completion callbacks *)
Definition count_read (req : nat) : M unit :=
  q ← on_fn (request req);
  x ← get_state;
  let s := g_speed x in
  if negb (g_isReadDone s) && g_isStartRead s && (req_status q =? USB_REQUEST_COMPLETED) then
    let cnt := (g_readCnt s + req_actual q) `mod` 2 ^ 64 in
    modify (set_g_speed
      (if negb (isGetReadTimeStart s)
       then mkSpeed (g_isStartRead s) (g_isReadDone s) cnt true (gettimeofday (fn_history (fn x)))
       else mkSpeed (g_isStartRead s) (g_isReadDone s) cnt (isGetReadTimeStart s) (g_readTimeStart s)))
  else mret tt.

Definition UsbSerialReadComplete (req : nat) : M unit :=
  count_read req;;
  lock_port;;
  upd_port (fun p => set_readQueue (readQueue p ++ [req]) p);;
  UsbSerialRxPush;;
  unlock_port.

Definition UsbSerialWriteComplete (req : nat) : M unit :=
  lock_port;;
  upd_port (fun p => set_writePool (writePool p ++ [req]) p);;
  upd_port (fun p => set_writeStarted (i32 (writeStarted p - 1)) p);;
  q ← on_fn (request req);
  (if req_status q =? USB_REQUEST_COMPLETED then UsbSerialStartTx;; mret tt else mret tt);;
  unlock_port.

(** ** Requests of the port *)
Fixpoint UsbSerialAllocReadRequests (num : nat) : M Z :=
  match num with
  | O => mret HDF_SUCCESS
  | S num' =>
      a ← port_device;
      req ← on_fn (UsbFnAllocRequest ReadComplete (dataOutMax a));
      match req with
      | None => p ← port; mret (if decide (readPool p = []) then HDF_FAILURE else HDF_SUCCESS)
      | Some req =>
          upd_port (fun p => set_readPool (readPool p ++ [req]) p);;
          upd_port (fun p => set_readAllocated (i32 (readAllocated p + 1)) p);;
          UsbSerialAllocReadRequests num'
      end
  end.

Fixpoint UsbSerialAllocWriteRequests (num : nat) : M Z :=
  match num with
  | O => mret HDF_SUCCESS
  | S num' =>
      a ← port_device;
      req ← on_fn (UsbFnAllocRequest WriteComplete (dataInMax a));
      match req with
      | None => p ← port; mret (if decide (writePool p = []) then HDF_FAILURE else HDF_SUCCESS)
      | Some req =>
          upd_port (fun p => set_writePool (writePool p ++ [req]) p);;
          upd_port (fun p => set_writeAllocated (i32 (writeAllocated p + 1)) p);;
          UsbSerialAllocWriteRequests num'
      end
  end.

(** [UsbSerialFreeRequests(head, allocated)] for a list and a counter of the
    port, given by their setters; [head] is what the list holds. *)
Fixpoint UsbSerialFreeRequests (set_head : list nat -> UsbSerial -> UsbSerial)
    (decr : UsbSerial -> UsbSerial) (head : list nat) : M unit :=
  match head with
  | [] => mret tt
  | req :: head' =>
      upd_port (set_head head');;
      _ ← on_fn (UsbFnFreeRequest req);
      upd_port decr;;
      UsbSerialFreeRequests set_head decr head'
  end.

Definition free_read_requests : M unit :=
  p ← port;
  UsbSerialFreeRequests set_readPool (fun p => set_readAllocated (i32 (readAllocated p - 1)) p) (readPool p).
Definition free_write_requests : M unit :=
  p ← port;
  UsbSerialFreeRequests set_writePool (fun p => set_writeAllocated (i32 (writeAllocated p - 1)) p) (writePool p).

Definition UsbSerialStartIo : M Z :=
  p ← port;
  ret ← (if readAllocated p =? 0 then UsbSerialAllocReadRequests (Z.to_nat QUEUE_SIZE) else mret HDF_SUCCESS);
  if negb (ret =? HDF_SUCCESS) then mret ret
  else
    p ← port;
    ret ← (if writeAllocated p =? 0 then UsbSerialAllocWriteRequests (Z.to_nat QUEUE_SIZE) else mret HDF_SUCCESS);
    if negb (ret =? HDF_SUCCESS) then free_read_requests;; mret ret
    else
      started ← UsbSerialStartRx;
      if negb (started =? 0) then UsbSerialStartTx;; mret ret
      else free_read_requests;; free_write_requests;; mret HDF_ERR_IO.

(** ** State notifications *)

(** Two bytes of a little-endian 16-bit field. *)
Definition le16 (v : Z) : list Z := [v `mod` 256; (v / 256) `mod` 256].

Definition notification (type value index : Z) (data : list Z) : list Z :=
  [Z.lor 0x80 (Z.lor (Z.shiftl 1 5) 0x01); type] ++ le16 value ++ le16 index ++
  le16 (Z.of_nat (length data)) ++ data.

#[global] Arguments notification type value index data : simpl never.

(** Writing at the start of the memory of a request. *)
Definition write_start (buf bytes : list Z) : option (list Z) :=
  if decide (length bytes <= length buf)%nat then Some (bytes ++ drop (length bytes) buf) else None.

Definition AcmSendNotifyRequest (type value : Z) (data : list Z) : M Z :=
  a ← device;
  match notifyReq a with
  | None => mret HDF_FAILURE
  | Some req =>
      upd_device (set_notifyReq None);;
      upd_device (set_pending false);;
      q ← on_fn (request req);
      buf ← deref (write_start (req_buf q) (notification type value (ctrlIndex a) data));
      on_fn (set_request req (set_req_buf buf (set_req_length (8 + Z.of_nat (length data)) q)));;
      ret ← on_fn (UsbFnSubmitRequestAsync req);
      (if negb (ret =? HDF_SUCCESS) then upd_device (set_notifyReq (Some req)) else mret tt);;
      mret ret
  end.

Definition AcmNotifySerialState : M Z :=
  lock_acm;;
  a ← device;
  ret ← match notifyReq a with
        | Some _ => AcmSendNotifyRequest USB_DDK_CDC_NOTIFY_SERIAL_STATE 0 (le16 (serialState a))
        | None => upd_device (set_pending true);; mret 0
        end;
  unlock_acm;; mret ret.

Definition AcmConnect : M unit :=
  upd_device (fun a => set_serialState
    (u16 (Z.lor (serialState a) (Z.lor SERIAL_STATE_DSR SERIAL_STATE_DCD))) a);;
  AcmNotifySerialState;; mret tt.

Definition AcmDisconnect : M unit :=
  upd_device (fun a => set_serialState
    (u16 (Z.land (serialState a) (Z.lnot (Z.lor SERIAL_STATE_DSR SERIAL_STATE_DCD)))) a);;
  AcmNotifySerialState;; mret tt.

Definition AcmSendBreak (duration : Z) : M Z :=
  a ← device;
  let state := u16 (Z.land (serialState a) (Z.lnot SERIAL_STATE_BREAK)) in
  let state := if negb (duration =? 0) then u16 (Z.lor state SERIAL_STATE_BREAK) else state in
  upd_device (set_serialState state);;
  AcmNotifySerialState.

Definition AcmNotifyComplete (req : nat) : M unit :=
  lock_acm;;
  q ← on_fn (request req);
  a ← device;
  let pend := if req_status q =? 0 then pending a else false in
  upd_device (set_notifyReq (Some req));;
  unlock_acm;;
  if (pend : bool) then AcmNotifySerialState;; mret tt else mret tt.

(** [if (acm->notify && acm->notify->Connect) acm->notify->Connect(acm)] *)
Definition notify_connect : M unit :=
  a ← device; if acm_notify a then AcmConnect else mret tt.
Definition notify_disconnect : M unit :=
  a ← device; if acm_notify a then AcmDisconnect else mret tt.

(** ** Suspend and resume *)
Definition AcmSuspend : M unit :=
  a ← device;
  match acm_port a with
  | None => mret tt
  | Some _ => lock_port;; upd_port (set_suspended true);; unlock_port
  end.

Definition AcmResume : M unit :=
  a ← device;
  match acm_port a with
  | None => mret tt
  | Some _ =>
      lock_port;;
      upd_port (set_suspended false);;
      p ← port;
      if negb (startDelayed p) then unlock_port
      else
        UsbSerialStartIo;;
        notify_connect;;
        upd_port (set_startDelayed false);;
        unlock_port
  end.

(** The callback of a request of each kind. *)
Definition complete_callback (k : complete_fn) (req : nat) : M unit :=
  match k with
  | ReadComplete => UsbSerialReadComplete req
  | WriteComplete => UsbSerialWriteComplete req
  | NotifyComplete => AcmNotifyComplete req
  end.

(** The kit finishes a request and calls it back. *)
Definition complete_io (req : nat) (status : Z) (buf : list Z) (actual : Z) : M unit :=
  k ← on_fn (HandleEpsIoEvent req status buf actual);
  complete_callback k req.
End operations.
