(* ===== verification/AcmPortFacts.v ===== *)
(** * AcmPortFacts: the invariant of the serial port and its data path

    Where every request is, what the counters count, and that each function of
    [AcmPort] keeps it so. *)
From S2P Require Import Prelude Hdf DataFifo UsbFn AcmPort.
Open Scope Z_scope.

(** The size of the memory of a request. *)
Definition cap (a : UsbAcmDevice) (k : complete_fn) : Z :=
  match k with ReadComplete => dataOutMax a | WriteComplete => dataInMax a | NotifyComplete => 16 end.

(** [typed a f k r]: [r] is an allocated request for [k] with its memory. *)
Definition typed (a : UsbAcmDevice) (f : UsbFn) (k : complete_fn) (r : nat) : Prop :=
  exists q, fn_reqs f !! r = Some q /\ req_complete q = k /\ Z.of_nat (length (req_buf q)) = cap a k.

(** How often a request is found in the pools, with the notifier and in flight. *)
Definition uses (a : UsbAcmDevice) (p : UsbSerial) (f : UsbFn) (r : nat) : nat :=
  (occ r (readPool p) + occ r (readQueue p) + occ r (writePool p) +
   occ r (option_list (notifyReq a)) + occ r (fn_inflight f).*1)%nat.

Definition count (l : list nat) : Z := Z.of_nat (length l).
Definition flying (k : complete_fn) (f : UsbFn) : Z := count (inflight_of k (fn_inflight f)).

(** The packet sizes the pipes may have. *)
Definition pipes_ok (a : UsbAcmDevice) : Prop :=
  0 < dataInMax a < 2 ^ 16 /\ 0 < dataOutMax a <= READ_BUF_SIZE.

Record requests_ok (a : UsbAcmDevice) (p : UsbSerial) (f : UsbFn) : Prop := RequestsOk {
  ro_once : forall r, (uses a p f r <= 1)%nat;
  ro_reads : Forall (typed a f ReadComplete) (readPool p);
  ro_queue : Forall (typed a f ReadComplete) (readQueue p);
  ro_writes : Forall (typed a f WriteComplete) (writePool p);
  ro_notify : Forall (typed a f NotifyComplete) (option_list (notifyReq a));
  ro_flight : Forall (fun e => typed a f e.2 e.1) (fn_inflight f);
  ro_fresh : forall r, is_Some (fn_reqs f !! r) -> (r < fn_next f)%nat;
}.

Record counts_ok (p : UsbSerial) (f : UsbFn) : Prop := CountsOk {
  co_read_started : readStarted p = count (readQueue p) + flying ReadComplete f;
  co_read_all : readAllocated p = count (readPool p) + readStarted p;
  co_read_max : readAllocated p <= QUEUE_SIZE;
  co_write_started : writeStarted p = flying WriteComplete f;
  co_write_all : writeAllocated p = count (writePool p) + writeStarted p;
  co_write_max : writeAllocated p <= QUEUE_SIZE;
}.

Record port_ok (a : UsbAcmDevice) (p : UsbSerial) (f : UsbFn) : Prop := PortOk {
  po_requests : requests_ok a p f;
  po_counts : counts_ok p f;
  po_read_fifo : fifo_ok (readFifo p);
  po_write_fifo : fifo_ok (writeFifo p);
  po_busy : writeBusy p = false;
  po_read_size : fifo_size (readFifo p) = 0 \/ fifo_size (readFifo p) = READ_BUF_SIZE;
  po_write_size : fifo_size (writeFifo p) = 0 \/ fifo_size (writeFifo p) = WRITE_BUF_SIZE;
}.

(** The bytes of the submissions for [k], oldest first, and the stream of bytes
    on their way from the port's user to the host. *)
Definition submitted (k : complete_fn) (h : list fn_event) : list Z :=
  concat (map (fun e => match e with
                        | Submitted _ k' bytes _ => if decide (k' = k) then bytes else []
                        | _ => []
                        end) h).
Arguments submitted k h : simpl never.
Definition tx_stream (p : UsbSerial) (f : UsbFn) : list Z :=
  submitted WriteComplete (fn_history f) ++ contents (writeFifo p).

Lemma submitted_app k h1 h2 : submitted k (h1 ++ h2) = submitted k h1 ++ submitted k h2.
Proof. unfold submitted. by rewrite map_app, concat_app. Qed.

Lemma submitted_one k r k' bytes ret :
  submitted k [Submitted r k' bytes ret] = if decide (k' = k) then bytes else [].
Proof. unfold submitted; cbn. by rewrite app_nil_r. Qed.

Lemma count_app l1 l2 : count (l1 ++ l2) = count l1 + count l2.
Proof. unfold count. rewrite length_app. lia. Qed.
Lemma count_cons r l : count (r :: l) = 1 + count l.
Proof. unfold count. cbn [length]. lia. Qed.
Lemma count_nil : count [] = 0.
Proof. done. Qed.
Lemma count_nonneg l : 0 <= count l.
Proof. unfold count. lia. Qed.
Lemma flying_nonneg k f : 0 <= flying k f.
Proof. apply count_nonneg. Qed.

(** [only k f f']: what happened from [f] to [f'] submitted requests for [k] only. *)
Definition submits (k : complete_fn) (e : fn_event) : Prop :=
  match e with Submitted _ k' _ _ => k' = k | _ => True end.
Definition only (k : complete_fn) (f f' : UsbFn) : Prop :=
  exists l, fn_history f' = fn_history f ++ l /\ Forall (submits k) l.

Lemma only_refl k f : only k f f.
Proof. exists []. by rewrite app_nil_r. Qed.
Lemma only_same k f f' : fn_history f' = fn_history f -> only k f f'.
Proof. intros E. exists []. by rewrite E, app_nil_r. Qed.
Lemma only_trans k f1 f2 f3 : only k f1 f2 -> only k f2 f3 -> only k f1 f3.
Proof.
  intros (l1 & E1 & H1) (l2 & E2 & H2). exists (l1 ++ l2). rewrite E2, E1, app_assoc.
  split; [done | by apply Forall_app_2].
Qed.
Lemma only_step k f reqs fl n e : submits k e -> only k f (mkFn reqs fl n (fn_history f ++ [e])).
Proof. intros He. exists [e]. split; [done | by constructor]. Qed.

Lemma only_submitted k k' f f' :
  only k f f' -> k <> k' -> submitted k' (fn_history f') = submitted k' (fn_history f).
Proof.
  intros (l & -> & H) Hne. rewrite submitted_app.
  assert (submitted k' l = []) as ->; [|by rewrite app_nil_r].
  induction H as [|e l He Hl IH]; [done|]. change (e :: l) with ([e] ++ l).
  rewrite submitted_app, IH, app_nil_r. destruct e as [| | | |r k0 bytes ret|]; try done.
  cbn in He. subst k0. rewrite submitted_one. by rewrite decide_False.
Qed.

(** The last notification given to the kit, with the kit's answer. *)
Definition last_notify (h : list fn_event) : option (list Z * Z) :=
  last (omap (fun e => match e with
                       | Submitted _ NotifyComplete bytes ret => Some (bytes, ret)
                       | _ => None
                       end) h).

Lemma only_notify k f f' :
  only k f f' -> k <> NotifyComplete -> last_notify (fn_history f') = last_notify (fn_history f).
Proof.
  intros (l & -> & H) Hne. unfold last_notify. rewrite omap_app.
  set (h := omap _ (fn_history f)). clearbody h.
  induction H as [|e l He Hl IH]; [by rewrite app_nil_r|]. cbn.
  destruct e as [| | | |r k0 bytes ret|]; cbn; try exact IH. cbn in He. subst k0. by destruct k.
Qed.

Lemma names_app (l1 l2 : list (nat * complete_fn)) : (l1 ++ l2).*1 = l1.*1 ++ l2.*1.
Proof. apply fmap_app. Qed.

Create Rewrite HintDb acm.
#[export] Hint Rewrite occ_app occ_single names_app inflight_of_app inflight_of_single
  count_app count_cons count_nil submitted_app : acm.

(** The last thing that happened is a refused submission. *)
Definition refused {HS : HdfStatus} (h : list fn_event) : Prop :=
  exists r k bytes ret, last h = Some (Submitted r k bytes ret) /\ ret <> HDF_SUCCESS.

(** ** The port during an operation *)
Definition at_ (a : UsbAcmDevice) (g : Z) (s : ReadSpeed) (p : UsbSerial) (f : UsbFn) : Acm :=
  mkAcm (set_acm_port (Some p) a) g s f.

Section rules.
Context {DD : UsbFnAdapterOps} {HS : HdfStatus}.
Context (a : UsbAcmDevice) (g : Z) (s : ReadSpeed).
Implicit Types (p : UsbSerial) (f : UsbFn).

Lemma wp_port p f (Q : UsbSerial -> Acm -> Prop) : Q p (at_ a g s p f) -> wp port Q (at_ a g s p f).
Proof. done. Qed.

Lemma wp_upd_port h p f (Q : unit -> Acm -> Prop) :
  Q tt (at_ a g s (h p) f) -> wp (upd_port h) Q (at_ a g s p f).
Proof. done. Qed.

Lemma wp_device p f (Q : UsbAcmDevice -> Acm -> Prop) :
  Q (set_acm_port (Some p) a) (at_ a g s p f) -> wp device Q (at_ a g s p f).
Proof. done. Qed.

Lemma wp_port_device p f (Q : UsbAcmDevice -> Acm -> Prop) :
  port_acm p = true -> Q (set_acm_port (Some p) a) (at_ a g s p f) ->
  wp port_device Q (at_ a g s p f).
Proof. intros E HQ. apply wp_bind, wp_port. by rewrite E. Qed.

Lemma wp_on_fn {A} (m : M UsbFn A) p f (Q : A -> Acm -> Prop) :
  wp m (fun r f' => Q r (at_ a g s p f')) f -> wp (on_fn m) Q (at_ a g s p f).
Proof. intros H. by apply wp_zoom. Qed.

Lemma wp_get_state p f (Q : Acm -> Acm -> Prop) :
  Q (at_ a g s p f) (at_ a g s p f) -> wp get_state Q (at_ a g s p f).
Proof. done. Qed.

Lemma wp_set_request r q f (Q : unit -> UsbFn -> Prop) :
  Q tt (mkFn (<[r := q]> (fn_reqs f)) (fn_inflight f) (fn_next f) (fn_history f)) ->
  wp (set_request r q) Q f.
Proof. done. Qed.
End rules.

Lemma wp_deref_some {W A} (b : A) (Q : A -> W -> Prop) w : Q b w -> wp (deref (Some b)) Q w.
Proof. done. Qed.

(** ** Stability of [typed] *)
Lemma typed_set a f r q q' fl n h k r' :
  fn_reqs f !! r = Some q -> req_complete q' = req_complete q ->
  length (req_buf q') = length (req_buf q) ->
  typed a f k r' -> typed a (mkFn (<[r := q']> (fn_reqs f)) fl n h) k r'.
Proof.
  intros Hr Hc Hl (q0 & E & Hk & Hb). unfold typed; cbn. destruct (decide (r = r')) as [->|Hne].
  - exists q'. rewrite lookup_insert_eq. replace q0 with q in * by congruence.
    by rewrite Hc, Hl.
  - exists q0. by rewrite lookup_insert_ne.
Qed.

Lemma typed_alloc a f q fl n h k r' :
  (forall r, is_Some (fn_reqs f !! r) -> (r < fn_next f)%nat) ->
  typed a f k r' -> typed a (mkFn (<[fn_next f := q]> (fn_reqs f)) fl n h) k r'.
Proof.
  intros Hf (q0 & E & Hk & Hb). exists q0. cbn. rewrite lookup_insert_ne; [done|].
  intros <-. specialize (Hf (fn_next f)). rewrite E in Hf. specialize (Hf (mk_is_Some _ _ eq_refl)). lia.
Qed.

Lemma typed_delete a f r fl n h k r' :
  r <> r' -> typed a f k r' -> typed a (mkFn (delete r (fn_reqs f)) fl n h) k r'.
Proof. intros Hne (q0 & E & Hk & Hb). exists q0. cbn. by rewrite lookup_delete_ne. Qed.

Lemma typed_delete_all a f r fl n h k l :
  occ r l = 0%nat -> Forall (typed a f k) l ->
  Forall (typed a (mkFn (delete r (fn_reqs f)) fl n h) k) l.
Proof.
  intros H0 Hl. apply Forall_forall. intros r' Hr'. apply typed_delete.
  - intros ->. apply occ_elem in Hr'. lia.
  - by eapply Forall_forall in Hl.
Qed.

(** Requests stay well placed when they only change places and one of them is
    rewritten in place. *)
Lemma requests_ok_step a a' p p' f r q q' fl h :
  requests_ok a p f -> (forall k, cap a' k = cap a k) ->
  fn_reqs f !! r = Some q -> req_complete q' = req_complete q ->
  length (req_buf q') = length (req_buf q) ->
  let f' := mkFn (<[r := q']> (fn_reqs f)) fl (fn_next f) h in
  (forall r0, (uses a' p' f' r0 <= uses a p f r0)%nat) ->
  Forall (typed a f ReadComplete) (readPool p') ->
  Forall (typed a f ReadComplete) (readQueue p') ->
  Forall (typed a f WriteComplete) (writePool p') ->
  Forall (typed a f NotifyComplete) (option_list (notifyReq a')) ->
  Forall (fun e => typed a f e.2 e.1) fl ->
  requests_ok a' p' f'.
Proof.
  intros H Hcap Hr Hc Hl f' Hu H1 H2 H3 H4 H5.
  assert (forall k r', typed a f k r' -> typed a' f' k r') as Ht.
  { intros k r' (q0 & E & Hk & Hb)%(typed_set a f r q q' fl (fn_next f) h k r' Hr Hc Hl).
    exists q0. by rewrite Hcap. }
  split; [|by eapply Forall_impl; eauto..|].
  - intros r0. etrans; [apply Hu | by apply (ro_once a p f H)].
  - cbn. intros r0. rewrite lookup_insert_is_Some'.
    intros [<-|E]; apply (ro_fresh a p f H); [by eexists | done].
Qed.

(** The same without a change of any request, and for another device record. *)
Lemma requests_ok_place a a' p p' f :
  requests_ok a p f -> (forall k, cap a' k = cap a k) ->
  (forall r0, (uses a' p' f r0 <= uses a p f r0)%nat) ->
  Forall (typed a f ReadComplete) (readPool p') ->
  Forall (typed a f ReadComplete) (readQueue p') ->
  Forall (typed a f WriteComplete) (writePool p') ->
  Forall (typed a f NotifyComplete) (option_list (notifyReq a')) ->
  requests_ok a' p' f.
Proof.
  intros H Hcap Hu H1 H2 H3 H4.
  assert (forall k r', typed a f k r' -> typed a' f k r') as Ht.
  { intros k r' (q0 & E & Hk & Hb). exists q0. by rewrite Hcap. }
  split; [|by eapply Forall_impl; eauto..| |apply (ro_fresh a p f H)].
  - intros r0. etrans; [apply Hu | by apply (ro_once a p f H)].
  - eapply Forall_impl; [apply (ro_flight a p f H) | eauto].
Qed.

(** The part of the port the invariant is about. *)
Definition core (p : UsbSerial) :=
  (readPool p, readQueue p, readStarted p, readAllocated p, readFifo p,
   (writePool p, writeStarted p, writeAllocated p, writeFifo p, writeBusy p)).

Lemma port_ok_core a p p' f : port_ok a p f -> core p' = core p -> port_ok a p' f.
Proof.
  intros [HR HC Hrf Hwf Hb Hrs Hws] [= E1 E2 E3 E4 E5 E6 E7 E8 E9 E10].
  split; [| |congruence..].
  - destruct HR. split; unfold uses in *; rewrite ?E1, ?E2, ?E6; done.
  - destruct HC. split; rewrite ?E1, ?E2, ?E3, ?E4, ?E6, ?E7, ?E8; done.
Qed.

(** Counting occurrences and lengths after a move. *)
Ltac count_uses :=
  intros; unfold uses; cbn; autorewrite with acm; cbn; repeat case_decide; simplify_eq; cbn; lia.
Ltac count_flying :=
  unfold flying in *; cbn in *; autorewrite with acm in *; repeat case_decide; simplify_eq;
  autorewrite with acm in *; try lia.

(** What a transmission changes in the port. *)
Definition tx_moved (p p' : UsbSerial) : Prop :=
  exists pool st fifo, same_ring (writeFifo p) fifo /\
    p' = set_writePool pool (set_writeStarted st (set_writeFifo fifo p)).

Lemma tx_moved_refl p : tx_moved p p.
Proof. exists (writePool p), (writeStarted p), (writeFifo p). split; [done|]. by destruct p. Qed.

Lemma tx_moved_trans p1 p2 p3 : tx_moved p1 p2 -> tx_moved p2 p3 -> tx_moved p1 p3.
Proof.
  intros (l1 & s1 & f1 & H1 & ->) (l2 & s2 & f2 & H2 & ->).
  exists l2, s2, f2. split; [by eapply same_ring_trans | done].
Qed.

Section transmit.
Context {DD : UsbFnAdapterOps} {HS : HdfStatus} (a : UsbAcmDevice) (g : Z) (s : ReadSpeed).
Context (Hpipes : pipes_ok a).
Implicit Types (p : UsbSerial) (f : UsbFn) (r : nat).

(** A request of a pool is allocated and not in flight. *)
Lemma pool_request p f r k l :
  requests_ok a p f -> Forall (typed a f k) l -> r ∈ l -> (occ r l + occ r (fn_inflight f).*1 <= uses a p f r)%nat ->
  exists q, fn_reqs f !! r = Some q /\ req_complete q = k /\
    Z.of_nat (length (req_buf q)) = cap a k /\ occ r (fn_inflight f).*1 = 0%nat.
Proof.
  intros H Hl Hr Ho. eapply Forall_forall in Hl as (q & E & Hk & Hb); [|done].
  exists q. split_and!; [done..|]. apply occ_elem in Hr. pose proof (ro_once a p f H r). lia.
Qed.

(** One transmission: [fifo] has given the bytes now in the memory of [req]. *)
Lemma tx_submitted p f req pool' q buf n fifo h :
  port_ok a p f -> writePool p = req :: pool' ->
  fn_reqs f !! req = Some q -> req_complete q = WriteComplete -> length buf = length (req_buf q) ->
  fifo_ok fifo -> same_ring (writeFifo p) fifo ->
  let q' := set_req_length n (set_req_buf buf q) in
  port_ok a (set_writeStarted (i32 (writeStarted p + 1)) (set_writePool pool' (set_writeFifo fifo p)))
    (mkFn (<[req := q']> (fn_reqs f)) (fn_inflight f ++ [(req, WriteComplete)]) (fn_next f) h).
Proof.
  intros [HR HC Hrf Hwf Hb Hrs Hws] Hpool Hq Hk Hl Hf [Hsz _] q'.
  pose proof (ro_writes a p f HR) as Hw. rewrite Hpool in Hw. apply Forall_cons in Hw as [Hreq Hw].
  destruct HC. split; cbn; rewrite ?Hsz; [| |done..].
  - eapply requests_ok_step; try done; try apply HR; try by destruct HR.
    + intros r0. unfold uses. cbn. rewrite Hpool. autorewrite with acm. cbn. case_decide; lia.
    + apply Forall_app_2; [apply HR | by constructor].
  - pose proof (count_nonneg pool'). pose proof (flying_nonneg WriteComplete f).
    rewrite Hpool in *. autorewrite with acm in *.
    assert (i32 (writeStarted p + 1) = writeStarted p + 1) as Hi.
    { apply i32_id. unfold QUEUE_SIZE in *. lia. }
    split; cbn; rewrite ?Hi; count_flying.
Qed.

(** A request whose memory changed, its place in the transmit pool perhaps too. *)
Lemma tx_rewritten p f req pool q q' fifo h :
  port_ok a p f -> (forall r, occ r pool = occ r (writePool p)) -> length pool = length (writePool p) ->
  fn_reqs f !! req = Some q -> req_complete q' = req_complete q ->
  length (req_buf q') = length (req_buf q) ->
  fifo_ok fifo -> same_ring (writeFifo p) fifo ->
  port_ok a (set_writePool pool (set_writeFifo fifo p))
    (mkFn (<[req := q']> (fn_reqs f)) (fn_inflight f) (fn_next f) h).
Proof.
  intros [HR HC Hrf Hwf Hb Hrs Hws] Hocc Hlen Hq Hk Hl Hf [Hsz _]. split; cbn; rewrite ?Hsz; [| |done..].
  - eapply requests_ok_step; try done; try apply HR.
    + intros r0. unfold uses. cbn. rewrite Hocc. lia.
    + cbn. apply Forall_forall. intros r Hr. pose proof (ro_writes a p f HR) as Hw.
      eapply Forall_forall in Hw; [done|]. apply occ_elem. apply occ_elem in Hr. by rewrite <- Hocc.
  - destruct HC. split; cbn; try done. unfold count in *. by rewrite Hlen.
Qed.

Lemma tx_stream_sent p f req fl bytes ret p' reqs :
  contents (writeFifo p) = bytes ++ contents (writeFifo p') ->
  tx_stream p' (mkFn reqs fl (fn_next f) (fn_history f ++ [Submitted req WriteComplete bytes ret])) =
  tx_stream p f.
Proof.
  intros H. unfold tx_stream; cbn. rewrite submitted_app, H, submitted_one.
  by rewrite decide_True, <- app_assoc.
Qed.

(** Filling a request from the fifo. *)
Lemma tx_take p q :
  fifo_ok (writeFifo p) -> Z.of_nat (length (req_buf q)) = dataInMax a ->
  exists fifo n buf, DataFifoRead (writeFifo p) (req_buf q) (dataInMax a) = Some (fifo, (buf, Z.of_nat n)) /\
    fifo_ok fifo /\ same_ring (writeFifo p) fifo /\ length buf = length (req_buf q) /\
    (n <= length buf)%nat /\ contents (writeFifo p) = take n buf ++ contents fifo /\
    (n = 0%nat -> contents fifo = []) /\
    contents fifo = drop (Z.to_nat (dataInMax a)) (contents (writeFifo p)).
Proof.
  intros Hwf Hl. unfold pipes_ok in Hpipes.
  destruct (DataFifoRead_spec (writeFifo p) (req_buf q) (dataInMax a) Hwf)
    as (fifo & E & Hfifo & Hcont & Hring); [lia|].
  set (n := ready (writeFifo p) (dataInMax a)) in *.
  pose proof (contents_length (writeFifo p)).
  assert (n <= length (contents (writeFifo p)))%nat as Hn by (unfold n, ready; lia).
  assert (n <= length (req_buf q))%nat as Hnb by (unfold n, ready; lia).
  eexists fifo, n, _. split; [exact E|]. do 2 (split; [done|]).
  assert (length (take n (contents (writeFifo p)) ++ drop n (req_buf q)) = length (req_buf q)) as Hbuf.
  { rewrite length_app, length_take, length_drop. lia. }
  split; [done|]. split; [lia|]. split; [|split].
  - rewrite take_app_le by (rewrite length_take; lia). rewrite take_take, Nat.min_id, Hcont.
    by rewrite take_drop.
  - intros Hz. rewrite Hcont. apply length_zero_iff_nil. rewrite length_drop. unfold n, ready in *. lia.
  - rewrite Hcont. destruct (Z.le_gt_cases (dataInMax a) (DataFifoLen (writeFifo p))).
    + f_equal. unfold n, ready. lia.
    + rewrite !drop_ge by (unfold n, ready; lia). done.
Qed.

(** The transmit loop: nothing is lost or reordered between the port's fifo
    and the submissions, and it stops only when there is no request, nothing
    to send, or a submission was refused. *)
Lemma start_tx_ok pool ret p f (Q : Z -> Acm -> Prop) :
  port_ok a p f -> port_acm p = true -> writePool p = pool ->
  (forall ret' p' f', port_ok a p' f' -> tx_moved p p' -> tx_stream p' f' = tx_stream p f ->
     only WriteComplete f f' ->
     writePool p' = [] \/ contents (writeFifo p') = [] \/ refused (fn_history f') ->
     Q ret' (at_ a g s p' f')) ->
  wp (start_tx pool ret) Q (at_ a g s p f).
Proof.
  revert ret p f. induction pool as [|req pool' IH]; intros ret p f Hok Hacm Hpool HQ; simpl start_tx.
  { apply wp_ret, HQ; auto using tx_moved_refl, only_refl. }
  pose proof Hok as [HR HC Hrf Hwf Hb Hrs Hwz]. pose proof HC as [_ _ _ Hws Hwa Hwm].
  destruct (pool_request p f req WriteComplete (writePool p) HR (ro_writes a p f HR)) as (q & Hq & Hk & Hl & Hfl).
  { rewrite Hpool. by left. }
  { unfold uses. lia. }
  apply wp_bind, wp_port. rewrite Hb.
  destruct (Z.leb_spec QUEUE_SIZE (writeStarted p)) as [Hful|_].
  { exfalso. rewrite Hpool, count_cons in Hwa. pose proof (count_nonneg pool'). lia. }
  apply wp_bind, wp_on_fn, (wp_request _ q); [done|].
  apply wp_bind, wp_port_device; [done|]. cbn.
  destruct (tx_take p q Hwf Hl) as (fifo & n & buf & Efifo & Hfifo & Hring & Hbuf & Hn & Hsplit & Hz0 & _).
  rewrite Efifo. apply wp_bind, wp_deref_some. apply wp_bind, wp_upd_port.
  apply wp_bind, wp_on_fn, wp_set_request. cbn.
  destruct (Z.eqb_spec (Z.of_nat n) 0) as [Hz|Hnz].
  { (* nothing to send *)
    apply wp_ret, HQ.
    - apply (tx_rewritten p f req (writePool p) q); try done.
    - exists (writePool p), (writeStarted p), fifo. split; [done|]. by destruct p.
    - unfold tx_stream; cbn. rewrite Hsplit. by replace n with 0%nat by lia.
    - by apply only_same.
    - right; left. apply Hz0. lia. }
  apply wp_bind, wp_on_fn, wp_set_request. cbn.
  apply wp_bind, wp_upd_port. apply wp_bind, wp_upd_port.
  rewrite insert_insert_eq. set (q' := set_req_length (Z.of_nat n) (set_req_buf buf q)).
  apply wp_bind, wp_on_fn. apply (wp_submit _ q'); cbn; [by rewrite lookup_insert_eq | done | lia |].
  intros ret' _. rewrite Nat2Z.id, Hk.
  apply wp_bind, wp_upd_port. destruct (Z.eqb_spec ret' HDF_SUCCESS) as [->|Hne]; cbn [negb].
  - apply wp_bind, wp_upd_port. apply wp_bind, wp_port. cbn. rewrite Hacm. cbn [negb].
    replace (set_writeStarted _ _) with
      (set_writeStarted (i32 (writeStarted p + 1)) (set_writePool pool' (set_writeFifo fifo p)))
      by (destruct p; cbn in *; by subst).
    eapply IH; [by eapply tx_submitted | done | done |].
    intros ret1 p1 f1 Hok1 Hmv Hst Honly Hstop. apply HQ; [done | | | | done].
    + eapply tx_moved_trans; [|exact Hmv]. by eexists _, _, fifo.
    + rewrite Hst. eapply tx_stream_sent. cbn. exact Hsplit.
    + eapply only_trans; [|exact Honly]. by apply (only_step _ f).
  - apply wp_bind, wp_upd_port. apply wp_ret, HQ.
    + replace (set_writePool _ _) with (set_writePool (pool' ++ [req]) (set_writeFifo fifo p))
        by (destruct p; cbn in *; by subst).
      apply (tx_rewritten p f req _ q); try done.
      * intros r. rewrite Hpool, occ_app. cbn. lia.
      * rewrite Hpool, length_app. cbn. lia.
    + exists (pool' ++ [req]), (writeStarted p), fifo. split; [done|]. destruct p; cbn in *; by subst.
    + eapply tx_stream_sent. cbn. exact Hsplit.
    + by apply (only_step _ f).
    + right; right. eexists _, _, _, _. split; [by apply last_snoc | done].
Qed.

Lemma UsbSerialStartTx_ok p f (Q : Z -> Acm -> Prop) :
  port_ok a p f ->
  (forall ret' p' f', port_ok a p' f' -> tx_moved p p' -> tx_stream p' f' = tx_stream p f ->
     only WriteComplete f f' ->
     (port_acm p = true -> writePool p' = [] \/ contents (writeFifo p') = [] \/ refused (fn_history f')) ->
     Q ret' (at_ a g s p' f')) ->
  wp UsbSerialStartTx Q (at_ a g s p f).
Proof.
  intros Hok HQ. unfold UsbSerialStartTx. apply wp_bind, wp_device. cbn.
  destruct (port_acm p) eqn:E; cbn.
  - apply start_tx_ok; [done..|]. intros ret' p' f' H1 H2 H3 H4 H5. by apply HQ.
  - apply wp_ret, HQ; [done | apply tx_moved_refl | done | apply only_refl | done].
Qed.

(** Taking a finished request out of the requests in flight. *)
Lemma flight_removed p f r k :
  requests_ok a p f -> (r, k) ∈ fn_inflight f ->
  exists l1 l2, fn_inflight f = l1 ++ (r, k) :: l2 /\
    filter (fun e => e.1 <> r) (fn_inflight f) = l1 ++ l2.
Proof.
  intros H Hr. apply inflight_remove; [done|].
  assert (0 < occ r (fn_inflight f).*1)%nat by (apply occ_elem, list_elem_of_fmap; by exists (r, k)).
  pose proof (ro_once a p f H r). unfold uses in *. lia.
Qed.

(** A finished write request goes back to the pool. *)
Lemma write_returned p f r q q' h :
  port_ok a p f -> (r, WriteComplete) ∈ fn_inflight f ->
  fn_reqs f !! r = Some q -> req_complete q' = req_complete q -> length (req_buf q') = length (req_buf q) ->
  port_ok a (set_writeStarted (i32 (writeStarted p - 1)) (set_writePool (writePool p ++ [r]) p))
    (mkFn (<[r := q']> (fn_reqs f)) (filter (fun e => e.1 <> r) (fn_inflight f)) (fn_next f) h).
Proof.
  intros [HR HC Hrf Hwf Hb Hrs Hws] Hr Hq Hk Hl.
  pose proof (ro_flight a p f HR) as HF.
  destruct (flight_removed p f r WriteComplete HR Hr) as (l1 & l2 & E & ->).
  rewrite E in HF. apply Forall_app in HF as [HF1 [Hreq HF2]%Forall_cons].
  destruct HC. unfold flying in *. rewrite E in *. autorewrite with acm in *.
  split; cbn; [| |done..].
  - eapply requests_ok_step; try done; try apply HR.
    + intros r0. unfold uses. cbn. rewrite E. autorewrite with acm. cbn. case_decide; lia.
    + apply Forall_app_2; [apply HR | by constructor].
    + by apply Forall_app_2.
  - change ((r, WriteComplete) :: l2) with ([(r, WriteComplete)] ++ l2) in *.
    autorewrite with acm in *. cbn in *. repeat case_decide; simplify_eq. autorewrite with acm in *.
    pose proof (count_nonneg (writePool p)). pose proof (count_nonneg (inflight_of WriteComplete l1)).
    pose proof (count_nonneg (inflight_of WriteComplete l2)).
    assert (i32 (writeStarted p - 1) = writeStarted p - 1) as Hi.
    { apply i32_id. unfold QUEUE_SIZE in *. lia. }
    split; cbn; rewrite ?Hi; unfold flying; cbn; autorewrite with acm; lia.
Qed.
End transmit.

(** What starting the receiver changes in the port. *)
Definition rx_moved (p p' : UsbSerial) : Prop :=
  exists pool st, p' = set_readPool pool (set_readStarted st p).

Lemma rx_moved_refl p : rx_moved p p.
Proof. exists (readPool p), (readStarted p). by destruct p. Qed.

Lemma rx_moved_trans p1 p2 p3 : rx_moved p1 p2 -> rx_moved p2 p3 -> rx_moved p1 p3.
Proof. intros (l1 & s1 & ->) (l2 & s2 & ->). by exists l2, s2. Qed.

Section receive.
Context {DD : UsbFnAdapterOps} {HS : HdfStatus} (a : UsbAcmDevice) (g : Z) (s : ReadSpeed).
Context (Hpipes : pipes_ok a).
Implicit Types (p : UsbSerial) (f : UsbFn) (r : nat).

Lemma rx_submitted p f req pool' q n h :
  port_ok a p f -> readPool p = req :: pool' ->
  fn_reqs f !! req = Some q -> req_complete q = ReadComplete ->
  port_ok a (set_readStarted (i32 (readStarted p + 1)) (set_readPool pool' p))
    (mkFn (<[req := set_req_length n q]> (fn_reqs f)) (fn_inflight f ++ [(req, ReadComplete)]) (fn_next f) h).
Proof.
  intros [HR HC Hrf Hwf Hb Hrs Hws] Hpool Hq Hk.
  pose proof (ro_reads a p f HR) as Hw. rewrite Hpool in Hw. apply Forall_cons in Hw as [Hreq Hw].
  destruct HC. split; cbn; [| |done..].
  - eapply requests_ok_step; try done; try apply HR; try by destruct HR.
    + intros r0. unfold uses. cbn. rewrite Hpool. autorewrite with acm. cbn. case_decide; lia.
    + apply Forall_app_2; [apply HR | by constructor].
  - pose proof (count_nonneg pool'). pose proof (count_nonneg (readQueue p)).
    pose proof (flying_nonneg ReadComplete f). rewrite Hpool in *. autorewrite with acm in *.
    assert (i32 (readStarted p + 1) = readStarted p + 1) as Hi.
    { apply i32_id. unfold QUEUE_SIZE in *. lia. }
    split; cbn; rewrite ?Hi; count_flying.
Qed.

Lemma rx_rewritten p f req pool q q' h :
  port_ok a p f -> (forall r, occ r pool = occ r (readPool p)) -> length pool = length (readPool p) ->
  fn_reqs f !! req = Some q -> req_complete q' = req_complete q ->
  length (req_buf q') = length (req_buf q) ->
  port_ok a (set_readPool pool p)
    (mkFn (<[req := q']> (fn_reqs f)) (fn_inflight f) (fn_next f) h).
Proof.
  intros [HR HC Hrf Hwf Hb Hrs Hws] Hocc Hlen Hq Hk Hl. split; cbn; [| |done..].
  - eapply requests_ok_step; try done; try apply HR.
    + intros r0. unfold uses. cbn. rewrite Hocc. lia.
    + cbn. apply Forall_forall. intros r Hr. pose proof (ro_reads a p f HR) as Hw.
      eapply Forall_forall in Hw; [done|]. apply occ_elem. apply occ_elem in Hr. by rewrite <- Hocc.
  - destruct HC. split; cbn; try done. unfold count in *. by rewrite Hlen.
Qed.

Lemma submitted_other h r k bytes ret k' :
  k <> k' -> submitted k' (h ++ [Submitted r k bytes ret]) = submitted k' h.
Proof. intros Hk. rewrite submitted_app, submitted_one, decide_False by done. apply app_nil_r. Qed.

(** The receive loop submits every idle request, unless a submission is
    refused. *)
Lemma start_rx_ok pool p f (Q : unit -> Acm -> Prop) :
  port_ok a p f -> port_acm p = true -> readPool p = pool ->
  (forall p' f', port_ok a p' f' -> rx_moved p p' ->
     only ReadComplete f f' ->
     readPool p' = [] \/ refused (fn_history f') -> Q tt (at_ a g s p' f')) ->
  wp (start_rx pool) Q (at_ a g s p f).
Proof.
  revert p f. induction pool as [|req pool' IH]; intros p f Hok Hacm Hpool HQ; simpl start_rx.
  { apply wp_ret, HQ; auto using rx_moved_refl, only_refl. }
  pose proof Hok as [HR HC _ _ _ _ _]. pose proof HC as [Hrs Hra Hrm _ _ _].
  destruct (pool_request a p f req ReadComplete (readPool p) HR (ro_reads a p f HR)) as (q & Hq & Hk & Hl & Hfl).
  { rewrite Hpool. by left. }
  { unfold uses. lia. }
  apply wp_bind, wp_port.
  destruct (Z.leb_spec QUEUE_SIZE (readStarted p)) as [Hful|_].
  { exfalso. rewrite Hpool, count_cons in Hra. pose proof (count_nonneg pool'). lia. }
  apply wp_bind, wp_upd_port. apply wp_bind, wp_on_fn, (wp_request _ q); [done|].
  apply wp_bind, wp_port_device; [done|]. cbn.
  apply wp_bind, wp_on_fn, wp_set_request. cbn.
  apply wp_bind, wp_on_fn. apply (wp_submit _ (set_req_length (dataOutMax a) q)); cbn;
    [by rewrite lookup_insert_eq | done | cbn in Hl; lia |].
  intros ret _. rewrite Hk. destruct (Z.eqb_spec ret HDF_SUCCESS) as [->|Hne]; cbn [negb].
  - apply wp_bind, wp_upd_port. apply wp_bind, wp_port. cbn. rewrite Hacm. cbn [negb].
    replace (set_readStarted _ _) with
      (set_readStarted (i32 (readStarted p + 1)) (set_readPool pool' p)) by (destruct p; by cbn in *).
    eapply IH; [by eapply rx_submitted | done | done |].
    intros p1 f1 Hok1 Hmv Hst Hstop. apply HQ; [done | | | done].
    + eapply rx_moved_trans; [|exact Hmv]. by eexists _, _.
    + eapply only_trans; [|exact Hst]. by apply (only_step _ f).
  - apply wp_upd_port, HQ.
    + replace (set_readPool _ _) with (set_readPool (pool' ++ [req]) p) by (destruct p; by cbn in *).
      apply (rx_rewritten p f req _ q); try done.
      * intros r. rewrite Hpool, occ_app. cbn. lia.
      * rewrite Hpool, length_app. cbn. lia.
    + exists (pool' ++ [req]), (readStarted p). by destruct p.
    + by apply (only_step _ f).
    + right. eexists _, _, _, _. split; [by apply last_snoc | done].
Qed.

Lemma UsbSerialStartRx_ok p f (Q : Z -> Acm -> Prop) :
  port_ok a p f -> port_acm p = true ->
  (forall p' f', port_ok a p' f' -> rx_moved p p' ->
     only ReadComplete f f' ->
     readPool p' = [] \/ refused (fn_history f') -> Q (readStarted p') (at_ a g s p' f')) ->
  wp UsbSerialStartRx Q (at_ a g s p f).
Proof.
  intros Hok Hacm HQ. apply wp_bind, wp_port. apply wp_bind, wp_port_device; [done|].
  apply wp_bind, start_rx_ok; [done..|]. intros p' f' Hok' Hmv Hst Hstop.
  apply wp_bind, wp_port, wp_ret. rewrite u32_id; [by apply HQ|].
  destruct (po_counts _ _ _ Hok') as [H1 H2 H3 _ _ _]. pose proof (flying_nonneg ReadComplete f').
  pose proof (count_nonneg (readQueue p')). pose proof (count_nonneg (readPool p')).
  unfold QUEUE_SIZE in *. lia.
Qed.

(** What a queue of at most [c] bytes holds after receiving [bs]: a full queue
    first drops as many of its oldest bytes; what has no room is lost. *)
Definition rx_stored (c : Z) (q bs : list Z) : list Z :=
  let q := if (0 <? c) && (Z.of_nat (length q) =? c) then drop (length bs) q else q in
  q ++ take (Z.to_nat (c - Z.of_nat (length q))) bs.

(** The bytes a finished request brought. *)
Definition received (q : UsbFnRequest) : list Z := take (Z.to_nat (req_actual q)) (req_buf q).

(** What is stored of them: nothing while the port is not used as a fifo. *)
Definition rx_in (c : Z) (l : list Z) (q : UsbFnRequest) : list Z :=
  if g =? 0 then l else rx_stored c l (received q).

(** A finished request brings no more bytes than its memory holds. *)
Definition filled (q : UsbFnRequest) : Prop := 0 <= req_actual q <= Z.of_nat (length (req_buf q)).

Lemma rx_stored_nil c l : Z.of_nat (length l) <= c -> rx_stored c l [] = l.
Proof. intros Hl. unfold rx_stored. rewrite take_nil, app_nil_r. by case_match. Qed.

Lemma port_ok_read_fifo p f fifo :
  port_ok a p f -> fifo_ok fifo -> same_ring (readFifo p) fifo -> port_ok a (set_readFifo fifo p) f.
Proof.
  intros [HR HC Hrf Hwf Hb Hrs Hws] Hf [Hsz _]. split; cbn; rewrite ?Hsz; [| |done..].
  - destruct HR. by split.
  - destruct HC. by split.
Qed.

Lemma set_readFifo_id p : set_readFifo (readFifo p) p = p.
Proof. by destruct p. Qed.

(** Storing one finished request in the receive fifo. *)
Lemma rx_store_ok p f r q (Q : bool -> Acm -> Prop) :
  port_ok a p f -> fn_reqs f !! r = Some q -> filled q ->
  Z.of_nat (length (req_buf q)) <= READ_BUF_SIZE ->
  (forall fifo, fifo_ok fifo -> same_ring (readFifo p) fifo ->
     contents fifo = rx_in (fifo_size (readFifo p)) (contents (readFifo p)) q ->
     Q (req_status q =? USB_REQUEST_NO_DEVICE) (at_ a g s (set_readFifo fifo p) f)) ->
  wp (rx_store r) Q (at_ a g s p f).
Proof.
  intros [_ _ Hrf _ _ Hrs _] Hq Hfill Hmax HQ. unfold filled in Hfill.
  pose proof (fo_len _ Hrf) as Hle. pose proof (contents_length (readFifo p)) as HL.
  apply wp_bind, wp_on_fn, (wp_request _ q); [done|]. apply wp_bind, wp_get_state.
  apply wp_bind. cbn. unfold rx_in in HQ. destruct (Z.eqb_spec g 0) as [Hg|Hg]; cbn.
  { apply wp_ret, wp_ret. rewrite <- (set_readFifo_id p).
    by apply HQ. }
  assert (Z.of_nat (length (received q)) = req_actual q) as Hlr.
  { unfold received. rewrite length_take. lia. }
  destruct (Z.eqb_spec (req_actual q) 0) as [Hz|Hz]; cbn.
  { apply wp_ret, wp_ret. rewrite <- (set_readFifo_id p).
    apply HQ; [done | done |]. replace (received q) with (@nil Z) by (unfold received; by rewrite Hz).
    rewrite rx_stored_nil; [done | lia]. }
  set (fifo0 := if DataFifoIsFull (readFifo p) then DataFifoSkip (readFifo p) (req_actual q) else readFifo p).
  assert (fifo_ok fifo0 /\ same_ring (readFifo p) fifo0 /\ contents fifo0 =
      (if (0 <? fifo_size (readFifo p)) && (Z.of_nat (length (contents (readFifo p))) =? fifo_size (readFifo p))
       then drop (length (received q)) (contents (readFifo p)) else contents (readFifo p))) as (Hf0 & Hr0 & Hc0).
  { unfold fifo0. rewrite DataFifoIsFull_spec, HL by done. destruct (Z.ltb_spec 0 (fifo_size (readFifo p))) as [E1|_],
      (Z.eqb_spec (DataFifoLen (readFifo p)) (fifo_size (readFifo p))) as [E2|_]; cbn; try done.
    destruct (DataFifoSkip_spec (readFifo p) (req_actual q) Hrf) as (H1 & H2 & _); [lia|].
    split; [done|]. split; [done|]. rewrite H2. f_equal. lia. }
  destruct (DataFifoWrite_spec fifo0 (req_buf q) (req_actual q) Hf0) as (fifo & E & Hf & Hc & Hr); [lia|].
  apply wp_bind, wp_upd_port. apply wp_bind, wp_port.
  assert ((if DataFifoIsFull (readFifo p) then set_readFifo (DataFifoSkip (readFifo p) (req_actual q)) p else p) =
    set_readFifo fifo0 p) as ->.
  { unfold fifo0. destruct (DataFifoIsFull (readFifo p)); [done | by rewrite set_readFifo_id]. }
  cbn. rewrite E. apply wp_bind, wp_deref_some, wp_upd_port, wp_ret. cbn.
  apply HQ; [done | by eapply same_ring_trans |].
  rewrite Hc. unfold rx_stored. rewrite <- Hc0. f_equal.
  pose proof (contents_length fifo0). destruct Hr0 as [Hs0 _].
  unfold received, room. rewrite take_take. f_equal. lia.
Qed.

(** A processed request goes back to the pool. *)
Lemma rx_returned p f req queue' :
  port_ok a p f -> readQueue p = req :: queue' ->
  port_ok a (set_readStarted (i32 (readStarted p - 1))
              (set_readPool (readPool p ++ [req]) (set_readQueue queue' p))) f.
Proof.
  intros [HR HC Hrf Hwf Hb Hrs Hws] Hqueue.
  pose proof (ro_queue a p f HR) as Hw. rewrite Hqueue in Hw. apply Forall_cons in Hw as [Hreq Hw].
  destruct HC. split; cbn; [| |done..].
  - eapply requests_ok_place; try done; try apply HR.
    + intros r0. unfold uses. cbn. rewrite Hqueue. autorewrite with acm. cbn. case_decide; lia.
    + apply Forall_app_2; [apply HR | by constructor].
  - pose proof (count_nonneg queue'). pose proof (count_nonneg (readPool p)).
    pose proof (flying_nonneg ReadComplete f). rewrite Hqueue in *. autorewrite with acm in *.
    assert (i32 (readStarted p - 1) = readStarted p - 1) as Hi.
    { apply i32_id. unfold QUEUE_SIZE in *. lia. }
    split; cbn; rewrite ?Hi; autorewrite with acm; lia.
Qed.

(** What processing the queue changes in the port. *)
Definition rx_changed p p' : Prop :=
  exists pool queue st fifo, same_ring (readFifo p) fifo /\
    p' = set_readPool pool (set_readQueue queue (set_readStarted st (set_readFifo fifo p))).

Lemma rx_changed_trans p1 p2 p3 : rx_changed p1 p2 -> rx_changed p2 p3 -> rx_changed p1 p3.
Proof.
  intros (l1 & q1 & s1 & f1 & H1 & ->) (l2 & q2 & s2 & f2 & H2 & ->).
  exists l2, q2, s2, f2. split; [by eapply same_ring_trans | done].
Qed.

Lemma rx_moved_changed p p' : rx_moved p p' -> rx_changed p p'.
Proof.
  intros (l & st & ->). exists l, (readQueue p), st, (readFifo p). split; [done|]. by destruct p.
Qed.

Definition gone (q : UsbFnRequest) : bool := req_status q =? USB_REQUEST_NO_DEVICE.

Lemma rx_push_ok queue qs disconnect p f (Q : bool -> Acm -> Prop) :
  port_ok a p f -> readQueue p = queue ->
  Forall2 (fun r q => fn_reqs f !! r = Some q /\ filled q) queue qs ->
  (forall p', port_ok a p' f -> readQueue p' = [] -> rx_changed p p' ->
     contents (readFifo p') = foldl (rx_in (fifo_size (readFifo p))) (contents (readFifo p)) qs ->
     Q (disconnect || existsb gone qs) (at_ a g s p' f)) ->
  wp (rx_push queue disconnect) Q (at_ a g s p f).
Proof.
  revert qs disconnect p. induction queue as [|req queue' IH]; intros qs disconnect p Hok Hqueue Hqs HQ;
    inversion Hqs as [|? q ? qs' [Hq Hfill] Hqs']; subst; simpl rx_push.
  { apply wp_ret. rewrite orb_false_r in HQ. apply HQ; [done..| |done].
    apply rx_moved_changed, rx_moved_refl. }
  pose proof (po_requests _ _ _ Hok) as HR. pose proof (ro_queue _ _ _ HR) as Hw.
  rewrite Hqueue in Hw. apply Forall_cons in Hw as [(q0 & Hq0 & Hk & Hl) _].
  replace q0 with q in * by congruence.
  apply wp_bind, (rx_store_ok p f req q); [done | done | done | |].
  { cbn in Hl. destruct Hpipes. lia. }
  intros fifo Hfifo Hring Hcont.
  do 3 (apply wp_bind, wp_upd_port). cbn.
  pose proof (port_ok_read_fifo p f fifo Hok Hfifo Hring) as Hok1.
  eapply (IH qs' _ _ (rx_returned _ f req queue' Hok1 Hqueue)); [done | done |].
  intros p' Hok' Hempty Hch Hc. cbn in Hc. rewrite <- orb_assoc. apply HQ; [done | done | |].
  - eapply rx_changed_trans; [|exact Hch]. by eexists _, _, _, fifo.
  - rewrite Hc, Hcont. cbn. by destruct Hring as [-> _].
Qed.

Lemma UsbSerialRxPush_ok qs p f (Q : unit -> Acm -> Prop) :
  port_ok a p f ->
  Forall2 (fun r q => fn_reqs f !! r = Some q /\ filled q) (readQueue p) qs ->
  (forall p' f', port_ok a p' f' -> readQueue p' = [] -> rx_changed p p' ->
     contents (readFifo p') = foldl (rx_in (fifo_size (readFifo p))) (contents (readFifo p)) qs ->
     only ReadComplete f f' ->
     (port_acm p = true -> existsb gone qs = false -> readPool p' = [] \/ refused (fn_history f')) ->
     Q tt (at_ a g s p' f')) ->
  wp UsbSerialRxPush Q (at_ a g s p f).
Proof.
  intros Hok Hqs HQ. unfold UsbSerialRxPush. apply wp_bind, wp_port.
  apply wp_bind. eapply rx_push_ok; [done..|]. intros p1 Hok1 Hempty Hch Hc.
  apply wp_bind, wp_port. cbn [orb].
  assert (port_acm p1 = port_acm p) as Hacm by (by destruct Hch as (? & ? & ? & ? & _ & ->)).
  destruct (existsb gone qs) eqn:Eg; cbn [negb andb]; [by apply wp_ret, HQ; auto using only_refl|].
  rewrite Hacm. destruct (port_acm p) eqn:Ea; [|by apply wp_ret, HQ; auto using only_refl].
  apply wp_bind, UsbSerialStartRx_ok; [done..|]. intros p2 f2 Hok2 Hmv Hst Hstop. apply wp_ret.
  pose proof Hmv as (l & st & E). apply HQ; [done | by rewrite E | | by rewrite E | done | done].
  eapply rx_changed_trans; [exact Hch | by apply rx_moved_changed].
Qed.

(** A finished read request enters the queue. *)
Lemma read_queued p f r q q' h :
  port_ok a p f -> (r, ReadComplete) ∈ fn_inflight f ->
  fn_reqs f !! r = Some q -> req_complete q' = req_complete q -> length (req_buf q') = length (req_buf q) ->
  port_ok a (set_readQueue (readQueue p ++ [r]) p)
    (mkFn (<[r := q']> (fn_reqs f)) (filter (fun e => e.1 <> r) (fn_inflight f)) (fn_next f) h).
Proof.
  intros [HR HC Hrf Hwf Hb Hrs Hws] Hr Hq Hk Hl.
  pose proof (ro_flight a p f HR) as HF.
  destruct (flight_removed a p f r ReadComplete HR Hr) as (l1 & l2 & E & ->).
  rewrite E in HF. apply Forall_app in HF as [HF1 [Hreq HF2]%Forall_cons].
  destruct HC. unfold flying in *. rewrite E in *. autorewrite with acm in *.
  split; cbn; [| |done..].
  - eapply requests_ok_step; try done; try apply HR.
    + intros r0. unfold uses. cbn. rewrite E. autorewrite with acm. cbn. case_decide; lia.
    + apply Forall_app_2; [apply HR | by constructor].
    + by apply Forall_app_2.
  - change ((r, ReadComplete) :: l2) with ([(r, ReadComplete)] ++ l2) in *.
    autorewrite with acm in *. cbn in *. repeat case_decide; simplify_eq. autorewrite with acm in *.
    split; cbn; unfold flying; cbn; autorewrite with acm; lia.
Qed.

Lemma submitted_completed k h r k' st bytes :
  submitted k (h ++ [Completed r k' st bytes]) = submitted k h.
Proof. rewrite submitted_app. apply app_nil_r. Qed.

Lemma wp_complete_request p f r q status buf n (Q : complete_fn -> UsbFn -> Prop) :
  requests_ok a p f -> (r, req_complete q) ∈ fn_inflight f -> fn_reqs f !! r = Some q ->
  Q (req_complete q)
    (mkFn (<[r := mkReq buf (req_length q) status n (req_complete q)]> (fn_reqs f))
       (filter (fun e => e.1 <> r) (fn_inflight f)) (fn_next f)
       (fn_history f ++ [Completed r (req_complete q) status (take (Z.to_nat n) buf)])) ->
  wp (HandleEpsIoEvent r status buf n) Q f.
Proof.
  intros HR Hr Hq HQ. unfold wp, HandleEpsIoEvent. rewrite Hq; cbn.
  rewrite decide_True; [done|]. apply list_elem_of_fmap. by exists (r, req_complete q).
Qed.

Lemma wp_lock_port p f (Q : unit -> Acm -> Prop) :
  port_lock p = false -> Q tt (at_ a g s (set_port_lock true p) f) -> wp lock_port Q (at_ a g s p f).
Proof. intros E HQ. apply wp_bind, wp_port. rewrite E. by apply wp_upd_port. Qed.
Lemma wp_unlock_port p f (Q : unit -> Acm -> Prop) :
  port_lock p = true -> Q tt (at_ a g s (set_port_lock false p) f) -> wp unlock_port Q (at_ a g s p f).
Proof. intros E HQ. apply wp_bind, wp_port. rewrite E. by apply wp_upd_port. Qed.

Lemma rx_changed_lock p p' :
  port_lock p = false -> rx_changed (set_port_lock true p) p' -> rx_changed p (set_port_lock false p').
Proof.
  intros E (l & qu & st & fifo & Hr & ->). exists l, qu, st, fifo. split; [done|].
  destruct p; cbn in *; by subst.
Qed.
Lemma tx_moved_lock p p' :
  port_lock p = false -> tx_moved (set_port_lock true p) p' -> tx_moved p (set_port_lock false p').
Proof.
  intros E (l & st & fifo & Hr & ->). exists l, st, fifo. split; [done|].
  destruct p; cbn in *; by subst.
Qed.
End receive.
