(* ===== verification/AcmIo.v ===== *)
(** * AcmIo: completions, requests and notifications of the serial port

    The theorems about finished requests, and that starting the port's I/O and
    the notifications keep the invariant of [AcmPortFacts]. *)
From S2P Require Import Prelude Hdf DataFifo UsbFn AcmPort AcmPortFacts.
Open Scope Z_scope.

(** What every function of the data path leaves alone. *)
Definition control (p : UsbSerial) :=
  (port_acm p, port_lineCoding p, port_lock p, suspended p, startDelayed p).
Definition rings_kept (p p' : UsbSerial) : Prop :=
  same_ring (readFifo p) (readFifo p') /\ same_ring (writeFifo p) (writeFifo p').

Lemma tx_moved_control p p' : tx_moved p p' -> control p' = control p /\ rings_kept p p'.
Proof. intros (l & st & fifo & Hr & ->). repeat split; apply Hr || done. Qed.
Lemma rx_changed_control p p' : rx_changed p p' -> control p' = control p /\ rings_kept p p'.
Proof. intros (l & qu & st & fifo & Hr & ->). repeat split; apply Hr || done. Qed.

Lemma rings_kept_refl p : rings_kept p p.
Proof. done. Qed.
Lemma rings_kept_trans p1 p2 p3 : rings_kept p1 p2 -> rings_kept p2 p3 -> rings_kept p1 p3.
Proof. intros [H1 H2] [H3 H4]. split; by eapply same_ring_trans. Qed.

Lemma last_notify_snoc h e :
  last_notify (h ++ [e]) =
  match e with Submitted _ NotifyComplete bytes ret => Some (bytes, ret) | _ => last_notify h end.
Proof.
  unfold last_notify. rewrite omap_app. destruct e as [| | | |? [] ? ?|]; cbn; rewrite ?app_nil_r; try done.
  by rewrite last_snoc.
Qed.

(** What every operation but closing and disabling leaves alone. *)
Record kept (p : UsbSerial) (f : UsbFn) (p' : UsbSerial) (f' : UsbFn) : Prop := Kept {
  kp_control : control p' = control p;
  kp_queue : readQueue p' = readQueue p;
  kp_received : contents (readFifo p') = contents (readFifo p);
  kp_stream : tx_stream p' f' = tx_stream p f;
}.

(** What starting the I/O leaves alone. *)
Record io_kept (p : UsbSerial) (f : UsbFn) (p' : UsbSerial) (f' : UsbFn) : Prop := IoKept {
  io_basic : kept p f p' f';
  io_rings : rings_kept p p';
  io_notify : last_notify (fn_history f') = last_notify (fn_history f);
}.

Lemma kept_refl p f : kept p f p f.
Proof. by split. Qed.
Lemma kept_trans p1 f1 p2 f2 p3 f3 : kept p1 f1 p2 f2 -> kept p2 f2 p3 f3 -> kept p1 f1 p3 f3.
Proof. intros [] []. split; congruence. Qed.
Lemma io_kept_refl p f : io_kept p f p f.
Proof. split; [apply kept_refl | done | done]. Qed.
Lemma io_kept_trans p1 f1 p2 f2 p3 f3 : io_kept p1 f1 p2 f2 -> io_kept p2 f2 p3 f3 -> io_kept p1 f1 p3 f3.
Proof. intros [] []. split; [by eapply kept_trans | by eapply rings_kept_trans | congruence]. Qed.

Lemma io_kept_acm p f p' f' : io_kept p f p' f' -> port_acm p' = port_acm p.
Proof. intros [[H _ _ _] _ _]. by injection H. Qed.

Lemma tx_moved_kept p f p' f' :
  tx_moved p p' -> tx_stream p' f' = tx_stream p f -> only WriteComplete f f' -> io_kept p f p' f'.
Proof.
  intros Hmv Hst Ho. pose proof (tx_moved_control _ _ Hmv) as [H1 H2].
  split; [|done | by eapply only_notify]. destruct Hmv as (l & st & fifo & _ & ->). by split.
Qed.
Lemma rx_moved_kept p f p' f' : rx_moved p p' -> only ReadComplete f f' -> io_kept p f p' f'.
Proof.
  intros (l & st & ->) Ho. split; [split; try done | done | by eapply only_notify].
  unfold tx_stream. by rewrite (only_submitted _ _ _ _ Ho).
Qed.

(** An allocation or a release changes none of it. *)
Lemma fn_kept p p' f f' e :
  control p' = control p -> readQueue p' = readQueue p -> readFifo p' = readFifo p -> writeFifo p' = writeFifo p ->
  fn_history f' = fn_history f \/ fn_history f' = fn_history f ++ [e] ->
  match e with Submitted _ _ _ _ => False | _ => True end -> io_kept p f p' f'.
Proof.
  intros H1 H2 H3 H4 Hh He.
  assert (forall k, only k f f') as Ho.
  { intros k. destruct Hh as [Hh|Hh]; [by apply only_same|]. exists [e]. split; [done|].
    constructor; [by destruct e | constructor]. }
  split; [split | unfold rings_kept; by rewrite H3, H4 | by eapply (only_notify ReadComplete)]; try congruence.
  unfold tx_stream. by rewrite H4, (only_submitted ReadComplete _ _ _ (Ho _)).
Qed.

(** The state between two operations. *)
Record idle (a : UsbAcmDevice) (p : UsbSerial) (f : UsbFn) : Prop := Idle {
  id_pipes : pipes_ok a;
  id_port : port_ok a p f;
  id_queue : readQueue p = [];
  id_lock : port_lock p = false;
}.

Section completion.
Context {DD : UsbFnAdapterOps} {HS : HdfStatus} {CL : Clock}.
Implicit Types (a : UsbAcmDevice) (p : UsbSerial) (f : UsbFn) (r : nat).

Lemma wp_count_read a g s p f r q (Q : unit -> Acm -> Prop) :
  fn_reqs f !! r = Some q ->
  (forall s', Q tt (at_ a g s' p f)) -> wp (count_read r) Q (at_ a g s p f).
Proof.
  intros Hq HQ. apply wp_bind, wp_on_fn, (wp_request _ q); [done|].
  apply wp_bind, wp_get_state. cbn.
  destruct (negb _ && _ && _); [apply wp_modify, HQ | apply wp_ret, HQ].
Qed.

(** A finished read request. *)
Lemma read_complete_ok a g s p f r q status buf n :
  idle a p f -> (r, ReadComplete) ∈ fn_inflight f -> fn_reqs f !! r = Some q ->
  req_complete q = ReadComplete -> length buf = length (req_buf q) -> 0 <= n <= Z.of_nat (length buf) ->
  wp (complete_io r status buf n) (fun _ x' => exists s' p' f',
      x' = at_ a g s' p' f' /\ idle a p' f' /\ rx_changed p p' /\
      contents (readFifo p') =
        (if g =? 0 then contents (readFifo p)
         else rx_stored (fifo_size (readFifo p)) (contents (readFifo p)) (take (Z.to_nat n) buf)) /\
      tx_stream p' f' = tx_stream p f /\
      last_notify (fn_history f') = last_notify (fn_history f) /\
      (port_acm p = true -> status <> USB_REQUEST_NO_DEVICE ->
         readPool p' = [] \/ refused (fn_history f')))
    (at_ a g s p f).
Proof.
  intros [Hpipes Hok Hqueue Hlock] Hr Hq Hk Hl Hn. pose proof (po_requests _ _ _ Hok) as HR.
  set (q' := mkReq buf (req_length q) status n (req_complete q)).
  apply wp_bind, wp_on_fn, (wp_complete_request a p f r q); [done | by rewrite Hk | done |].
  rewrite Hk at 1. cbn [complete_callback].
  eapply wp_bind, (wp_count_read _ _ _ _ _ _ q'); [by apply lookup_insert_eq|]. intros s'.
  apply wp_bind, wp_lock_port; [done|]. apply wp_bind, wp_upd_port.
  apply wp_bind. eapply (UsbSerialRxPush_ok a g s' Hpipes [q']); cbn.
  - eapply port_ok_core; [by eapply (read_queued a p f r q q') | done].
  - rewrite Hqueue. constructor; [|constructor]. split; [by apply lookup_insert_eq|].
    unfold filled; cbn. lia.
  - intros p1 f1 Hok1 Hq1 Hch1 Hc1 Hst1 Hstop.
    pose proof Hch1 as (l & qu & st & fifo & Hring & E1).
    apply wp_unlock_port; [by rewrite E1|]. exists s', (set_port_lock false p1), f1.
    assert (rx_changed p (set_port_lock false p1)) as Hch.
    { exists l, qu, st, fifo. split; [exact Hring|]. rewrite E1. destruct p; cbn in *; by subst. }
    split_and!; [done | | done | exact Hc1 | | | intros Ha Hs; apply Hstop; [done|]].
    + split; [done | by eapply port_ok_core | done | done].
    + unfold tx_stream. rewrite (only_submitted _ _ _ _ Hst1), E1 by done. cbn. by rewrite submitted_completed.
    + rewrite (only_notify _ _ _ Hst1) by done. cbn. by rewrite last_notify_snoc.
    + unfold gone; cbn. by apply orb_false_iff; split; [apply Z.eqb_neq|].
Qed.

(** A finished write request. *)
Lemma write_complete_ok a g s p f r q status buf n :
  idle a p f -> (r, WriteComplete) ∈ fn_inflight f -> fn_reqs f !! r = Some q ->
  req_complete q = WriteComplete -> length buf = length (req_buf q) ->
  wp (complete_io r status buf n) (fun _ x' => exists p' f',
      x' = at_ a g s p' f' /\ idle a p' f' /\ tx_moved p p' /\ tx_stream p' f' = tx_stream p f /\
      last_notify (fn_history f') = last_notify (fn_history f) /\
      (port_acm p = true -> status = USB_REQUEST_COMPLETED ->
         writePool p' = [] \/ contents (writeFifo p') = [] \/ refused (fn_history f')))
    (at_ a g s p f).
Proof.
  intros [Hpipes Hok Hqueue Hlock] Hr Hq Hk Hl. pose proof (po_requests _ _ _ Hok) as HR.
  set (q' := mkReq buf (req_length q) status n (req_complete q)).
  apply wp_bind, wp_on_fn, (wp_complete_request a p f r q); [done | by rewrite Hk | done |].
  rewrite Hk at 1. cbn [complete_callback].
  apply wp_bind, wp_lock_port; [done|]. do 2 (apply wp_bind, wp_upd_port).
  apply wp_bind, wp_on_fn, (wp_request _ q'); [by apply lookup_insert_eq|]. cbn.
  set (p0 := set_writeStarted _ _). set (f0 := mkFn _ _ _ _).
  assert (port_ok a p0 f0) as Hok0.
  { eapply port_ok_core; [by eapply (write_returned a p f r q q') | done]. }
  assert (tx_moved (set_port_lock true p) p0) as Hmv0 by (by eexists _, _, (writeFifo p)).
  assert (tx_stream p0 f0 = tx_stream p f) as Hst0 by (unfold tx_stream; cbn; by rewrite submitted_completed).
  assert (forall p1 f1, port_ok a p1 f1 -> tx_moved p0 p1 -> tx_stream p1 f1 = tx_stream p0 f0 ->
    only WriteComplete f0 f1 ->
    (port_acm p = true -> status = USB_REQUEST_COMPLETED ->
       writePool p1 = [] \/ contents (writeFifo p1) = [] \/ refused (fn_history f1)) ->
    wp unlock_port (fun _ x' => exists p' f',
      x' = at_ a g s p' f' /\ idle a p' f' /\ tx_moved p p' /\ tx_stream p' f' = tx_stream p f /\
      last_notify (fn_history f') = last_notify (fn_history f) /\
      (port_acm p = true -> status = USB_REQUEST_COMPLETED ->
         writePool p' = [] \/ contents (writeFifo p') = [] \/ refused (fn_history f'))) (at_ a g s p1 f1)) as Hend.
  { intros p1 f1 Hok1 Hmv Hst Ho Hstop. pose proof (tx_moved_trans _ _ _ Hmv0 Hmv) as Hmv1.
    pose proof Hmv1 as (l & st & fifo & _ & E1).
    apply wp_unlock_port; [by rewrite E1|]. exists (set_port_lock false p1), f1.
    split_and!; [done | | by apply tx_moved_lock | by rewrite <- Hst0, <- Hst | | done].
    2:{ rewrite (only_notify _ _ _ Ho) by done. unfold f0; cbn. by rewrite last_notify_snoc. }
    split; [done | by eapply port_ok_core | by rewrite E1 | done]. }
  apply wp_bind. destruct (Z.eqb_spec status USB_REQUEST_COMPLETED) as [Hs|Hs].
  - apply wp_bind, UsbSerialStartTx_ok; [done..|]. intros ret p1 f1 Hok1 Hmv Hst Ho Hstop.
    apply wp_ret, (Hend p1 f1); auto.
  - apply wp_ret, (Hend p0 f0); [done | apply tx_moved_refl | done | apply only_refl | done].
Qed.

(** ** Requests of the port *)
Lemma requests_ok_alloc a p f k buf n l p' :
  requests_ok a p f -> Z.of_nat (length buf) = cap a k ->
  let r := fn_next f in
  let f' := mkFn (<[r := mkReq buf n 0 0 k]> (fn_reqs f)) (fn_inflight f) (S r) (fn_history f ++ [l]) in
  (forall r0, uses a p' f' r0 = (uses a p f r0 + if decide (r = r0) then 1 else 0)%nat) ->
  Forall (fun r0 => typed a f ReadComplete r0 \/ (r0 = r /\ k = ReadComplete)) (readPool p') ->
  readQueue p' = readQueue p ->
  Forall (fun r0 => typed a f WriteComplete r0 \/ (r0 = r /\ k = WriteComplete)) (writePool p') ->
  requests_ok a p' f'.
Proof.
  intros H Hl r f' Hu H1 H2 H3. pose proof (ro_fresh a p f H) as Hf.
  assert (forall k' r0, typed a f k' r0 -> typed a f' k' r0) as Ht.
  { intros k' r0. by apply typed_alloc. }
  assert (typed a f' k r) as Hr.
  { eexists. cbn. rewrite lookup_insert_eq. done. }
  assert (forall l k', Forall (typed a f k') l -> occ r l = 0%nat) as Hno.
  { intros l0 k' Hl0. destruct (decide (r ∈ l0)) as [Hin|Hin]; [|rewrite occ_elem in Hin; lia].
    eapply Forall_forall in Hl0 as (q & E & _); [|done].
    specialize (Hf r (mk_is_Some _ _ E)). unfold r in Hf. lia. }
  assert (uses a p f r = 0%nat) as H0.
  { unfold uses. rewrite (Hno _ _ (ro_reads a p f H)), (Hno _ _ (ro_queue a p f H)),
      (Hno _ _ (ro_writes a p f H)), (Hno _ _ (ro_notify a p f H)). cbn.
    destruct (decide (r ∈ (fn_inflight f).*1)) as [Hin|Hin]; [|rewrite occ_elem in Hin; lia].
    apply list_elem_of_fmap in Hin as ([r0 k0] & Er & Hin).
    pose proof (ro_flight a p f H) as HF. eapply Forall_forall in HF as (q & E & _); [|done]. cbn in E, Er.
    specialize (Hf _ (mk_is_Some _ _ E)). unfold r in Er. lia. }
  split.
  - intros r0. rewrite Hu. case_decide as E; [rewrite <- E, H0; lia|].
    pose proof (ro_once a p f H r0). lia.
  - eapply Forall_impl; [exact H1|]. intros r0 [?|[-> ->]]; auto.
  - rewrite H2. eapply Forall_impl; [apply (ro_queue a p f H) | auto].
  - eapply Forall_impl; [exact H3|]. intros r0 [?|[-> ->]]; auto.
  - eapply Forall_impl; [apply (ro_notify a p f H) | auto].
  - eapply Forall_impl; [apply (ro_flight a p f H) | auto].
  - cbn. intros r0. rewrite lookup_insert_is_Some'. unfold r. intros [<-|E]; [lia|].
    apply Hf in E. lia.
Qed.

Lemma read_allocated a p f buf n l :
  port_ok a p f -> Z.of_nat (length buf) = dataOutMax a -> readAllocated p < QUEUE_SIZE ->
  port_ok a (set_readAllocated (i32 (readAllocated p + 1)) (set_readPool (readPool p ++ [fn_next f]) p))
    (mkFn (<[fn_next f := mkReq buf n 0 0 ReadComplete]> (fn_reqs f)) (fn_inflight f) (S (fn_next f))
       (fn_history f ++ [l])).
Proof.
  intros [HR HC Hrf Hwf Hb Hrs Hws] Hl Hn. destruct HC. split; cbn; [| |done..].
  - apply (requests_ok_alloc a p); try done.
    + intros r0. unfold uses. cbn. autorewrite with acm. lia.
    + apply Forall_app_2; [|by constructor; auto].
      eapply Forall_impl; [apply (ro_reads a p f HR) | auto].
    + eapply Forall_impl; [apply (ro_writes a p f HR) | auto].
  - pose proof (count_nonneg (readPool p)). pose proof (count_nonneg (readQueue p)).
    pose proof (flying_nonneg ReadComplete f).
    assert (i32 (readAllocated p + 1) = readAllocated p + 1) as Hi.
    { apply i32_id. unfold QUEUE_SIZE in *. lia. }
    split; cbn; rewrite ?Hi; autorewrite with acm; unfold flying in *; cbn; lia.
Qed.

Lemma write_allocated a p f buf n l :
  port_ok a p f -> Z.of_nat (length buf) = dataInMax a -> writeAllocated p < QUEUE_SIZE ->
  port_ok a (set_writeAllocated (i32 (writeAllocated p + 1)) (set_writePool (writePool p ++ [fn_next f]) p))
    (mkFn (<[fn_next f := mkReq buf n 0 0 WriteComplete]> (fn_reqs f)) (fn_inflight f) (S (fn_next f))
       (fn_history f ++ [l])).
Proof.
  intros [HR HC Hrf Hwf Hb Hrs Hws] Hl Hn. destruct HC. split; cbn; [| |done..].
  - apply (requests_ok_alloc a p); try done.
    + intros r0. unfold uses. cbn. autorewrite with acm. lia.
    + eapply Forall_impl; [apply (ro_reads a p f HR) | auto].
    + apply Forall_app_2; [|by constructor; auto].
      eapply Forall_impl; [apply (ro_writes a p f HR) | auto].
  - pose proof (count_nonneg (writePool p)). pose proof (flying_nonneg WriteComplete f).
    assert (i32 (writeAllocated p + 1) = writeAllocated p + 1) as Hi.
    { apply i32_id. unfold QUEUE_SIZE in *. lia. }
    split; cbn; rewrite ?Hi; autorewrite with acm; unfold flying in *; cbn; lia.
Qed.

Context {DL : UsbFnAdapterLaws}.

Lemma port_ok_happened a p f e : port_ok a p f -> port_ok a p (happened e f).
Proof. intros [HR HC Hrf Hwf Hb Hrs Hws]. split; [by destruct HR | by destruct HC | done..]. Qed.

Lemma alloc_reads_ok num a g s p f (Q : Z -> Acm -> Prop) :
  port_ok a p f -> port_acm p = true -> readAllocated p + Z.of_nat num <= QUEUE_SIZE ->
  (forall ret p' f', port_ok a p' f' -> io_kept p f p' f' -> Q ret (at_ a g s p' f')) ->
  wp (UsbSerialAllocReadRequests num) Q (at_ a g s p f).
Proof.
  revert p f. induction num as [|num IH]; intros p f Hok Ha Hn HQ; simpl UsbSerialAllocReadRequests.
  { apply wp_ret, HQ; [done | apply io_kept_refl]. }
  apply wp_bind, wp_port_device; [done|]. cbn. apply wp_bind, wp_on_fn, wp_alloc_request.
  { apply wp_bind, wp_port, wp_ret, HQ; [done | apply io_kept_refl]. }
  { apply wp_bind, wp_port, wp_ret, HQ; [by apply port_ok_happened|].
    eapply fn_kept; [done..| by right | done]. }
  intros buf Hl. do 2 (apply wp_bind, wp_upd_port). cbn.
  assert (i32 (readAllocated p + 1) = readAllocated p + 1) as Hi.
  { apply i32_id. destruct (po_counts _ _ _ Hok) as [H1 H2 _ _ _ _].
    pose proof (count_nonneg (readPool p)). pose proof (count_nonneg (readQueue p)).
    pose proof (flying_nonneg ReadComplete f). unfold QUEUE_SIZE in *. lia. }
  eapply IH; [apply read_allocated; [done | done | lia] | done | cbn; lia |].
  intros ret p1 f1 Hok1 Hk1. apply HQ; [done|]. eapply io_kept_trans; [|exact Hk1].
  eapply fn_kept; [done..| by right | done].
Qed.

Lemma alloc_writes_ok num a g s p f (Q : Z -> Acm -> Prop) :
  port_ok a p f -> port_acm p = true -> writeAllocated p + Z.of_nat num <= QUEUE_SIZE ->
  (forall ret p' f', port_ok a p' f' -> io_kept p f p' f' -> Q ret (at_ a g s p' f')) ->
  wp (UsbSerialAllocWriteRequests num) Q (at_ a g s p f).
Proof.
  revert p f. induction num as [|num IH]; intros p f Hok Ha Hn HQ; simpl UsbSerialAllocWriteRequests.
  { apply wp_ret, HQ; [done | apply io_kept_refl]. }
  apply wp_bind, wp_port_device; [done|]. cbn. apply wp_bind, wp_on_fn, wp_alloc_request.
  { apply wp_bind, wp_port, wp_ret, HQ; [done | apply io_kept_refl]. }
  { apply wp_bind, wp_port, wp_ret, HQ; [by apply port_ok_happened|].
    eapply fn_kept; [done..| by right | done]. }
  intros buf Hl. do 2 (apply wp_bind, wp_upd_port). cbn.
  assert (i32 (writeAllocated p + 1) = writeAllocated p + 1) as Hi.
  { apply i32_id. destruct (po_counts _ _ _ Hok) as [_ _ _ H1 H2 _].
    pose proof (count_nonneg (writePool p)). pose proof (flying_nonneg WriteComplete f).
    unfold QUEUE_SIZE in *. lia. }
  eapply IH; [apply write_allocated; [done | done | lia] | done | cbn; lia |].
  intros ret p1 f1 Hok1 Hk1. apply HQ; [done|]. eapply io_kept_trans; [|exact Hk1].
  eapply fn_kept; [done..| by right | done].
Qed.

(** A request that is nowhere any more may be released. *)
Lemma requests_ok_delete a p f r h :
  requests_ok a p f -> uses a p f r = 0%nat ->
  requests_ok a p (mkFn (delete r (fn_reqs f)) (fn_inflight f) (fn_next f) h).
Proof.
  intros H H0. unfold uses in H0. destruct H as [H1 H2 H3 H4 H5 H6 H7].
  split; [exact H1 | apply typed_delete_all; [lia | done].. | |].
  - apply Forall_forall. intros [r' k] Hin. apply typed_delete; [|by eapply Forall_forall in H6].
    cbn. intros <-. assert (0 < occ r (fn_inflight f).*1)%nat; [|lia].
    apply occ_elem, list_elem_of_fmap. by exists (r, k).
  - cbn. intros r' Hr'. apply H7. revert Hr'. rewrite lookup_delete_is_Some. tauto.
Qed.

(** Nor does it matter what becomes of it when it cannot be released. *)
Lemma requests_ok_lost a p f r q h :
  requests_ok a p f -> uses a p f r = 0%nat -> is_Some (fn_reqs f !! r) ->
  requests_ok a p (mkFn (<[r := q]> (fn_reqs f)) (fn_inflight f) (fn_next f) h).
Proof.
  intros H H0 Hr. pose proof (requests_ok_delete a p f r h H H0) as [H1 H2 H3 H4 H5 H6 _].
  assert (forall k r', typed a (mkFn (delete r (fn_reqs f)) (fn_inflight f) (fn_next f) h) k r' ->
    typed a (mkFn (<[r := q]> (fn_reqs f)) (fn_inflight f) (fn_next f) h) k r') as Ht.
  { intros k r' (q0 & E & Hq). cbn in E. apply lookup_delete_Some in E as [Hne E]. exists q0. cbn.
    by rewrite lookup_insert_ne. }
  split; [exact H1 | by eapply Forall_impl; eauto..|].
  intros r'. cbn. rewrite lookup_insert_is_Some'. intros [<-|E]; by apply (ro_fresh a p f H).
Qed.

(** [drops get p1 r p]: [p1] is the port after the first request [r] of the
    list [get p] was taken out and its counter decremented. *)
Definition drops (a : UsbAcmDevice) (p1 : UsbSerial) (p : UsbSerial) (r : nat) : Prop :=
  forall f, port_ok a p f ->
    (exists q, fn_reqs f !! r = Some q) /\ occ r (fn_inflight f).*1 = 0%nat /\
    uses a p1 f r = 0%nat /\ requests_ok a p1 f /\
    (forall f', fn_inflight f' = fn_inflight f -> requests_ok a p1 f' ->
       (exists e, fn_history f' = fn_history f ++ [e] /\ match e with Submitted _ _ _ _ => False | _ => True end) ->
       port_ok a p1 f' /\ io_kept p f p1 f').

Lemma free_requests_ok (get : UsbSerial -> list nat) set_head decr head a g s p f (Q : unit -> Acm -> Prop) :
  (forall p r head, get p = r :: head ->
     drops a (decr (set_head head p)) p r /\ get (decr (set_head head p)) = head) ->
  port_ok a p f -> get p = head ->
  (forall p' f', port_ok a p' f' -> get p' = [] -> io_kept p f p' f' -> Q tt (at_ a g s p' f')) ->
  wp (UsbSerialFreeRequests set_head decr head) Q (at_ a g s p f).
Proof.
  intros Hdrop. revert p f. induction head as [|r head IH]; intros p f Hok Hhead HQ;
    simpl UsbSerialFreeRequests; [apply wp_ret, HQ; auto using io_kept_refl|].
  destruct (Hdrop p r head Hhead) as [Hd Hh].
  destruct (Hd f Hok) as ((q & Hq) & Hfl & Hu & HR1 & Hok1).
  assert (forall f', port_ok a (decr (set_head head p)) f' /\ io_kept p f (decr (set_head head p)) f' ->
    wp (UsbSerialFreeRequests set_head decr head) Q (at_ a g s (decr (set_head head p)) f')) as Hrest.
  { intros f' [Hok' Hk']. apply IH; [done | done |]. intros p2 f2 Hok2 He Hk.
    apply HQ; [done | done |]. by eapply io_kept_trans. }
  apply wp_bind, wp_upd_port. apply wp_bind, wp_on_fn. apply (wp_free_request r q); [done | done | |].
  - apply wp_bind, wp_upd_port, Hrest, Hok1; [done | by apply requests_ok_delete | by eexists].
  - intros ret q'. apply wp_bind, wp_upd_port, Hrest, Hok1; [done | by apply requests_ok_lost | by eexists].
Qed.

Lemma drop_read a p r head :
  readPool p = r :: head ->
  drops a (set_readAllocated (i32 (readAllocated p - 1)) (set_readPool head p)) p r.
Proof.
  intros Hhead f [HR HC Hrf Hwf Hb Hrs Hws]. destruct HC as [H1 H2 H3 H4 H5 H6].
  destruct (pool_request a p f r ReadComplete (readPool p) HR (ro_reads a p f HR)) as (q & Hq & _ & _ & Hfl).
  { rewrite Hhead. by left. }
  { unfold uses. lia. }
  pose proof (ro_reads a p f HR) as Hw. rewrite Hhead in Hw. apply Forall_cons in Hw as [_ Hw].
  split; [by eexists|]. split; [done|]. split; [|split].
  - pose proof (ro_once a p f HR r) as Ho. unfold uses in *. rewrite Hhead in Ho. cbn in *.
    rewrite decide_True in Ho by done. lia.
  - eapply requests_ok_place; try done; try apply HR.
    intros r0. unfold uses. cbn. rewrite Hhead. cbn. lia.
  - intros f' Efl HR' (e & Hh & He). split; [|by eapply fn_kept; [done..| right; exact Hh | done]].
    pose proof (count_nonneg head). pose proof (count_nonneg (readQueue p)).
    pose proof (flying_nonneg ReadComplete f). rewrite Hhead, count_cons in H2.
    assert (i32 (readAllocated p - 1) = readAllocated p - 1) as Hi.
    { apply i32_id. unfold QUEUE_SIZE in *. lia. }
    split; [done | | done..].
    split; cbn; rewrite ?Hi; unfold flying in *; rewrite ?Efl; lia || done.
Qed.

Lemma drop_write a p r head :
  writePool p = r :: head ->
  drops a (set_writeAllocated (i32 (writeAllocated p - 1)) (set_writePool head p)) p r.
Proof.
  intros Hhead f [HR HC Hrf Hwf Hb Hrs Hws]. destruct HC as [H1 H2 H3 H4 H5 H6].
  destruct (pool_request a p f r WriteComplete (writePool p) HR (ro_writes a p f HR)) as (q & Hq & _ & _ & Hfl).
  { rewrite Hhead. by left. }
  { unfold uses. lia. }
  pose proof (ro_writes a p f HR) as Hw. rewrite Hhead in Hw. apply Forall_cons in Hw as [_ Hw].
  split; [by eexists|]. split; [done|]. split; [|split].
  - pose proof (ro_once a p f HR r) as Ho. unfold uses in *. rewrite Hhead in Ho. cbn in *.
    rewrite decide_True in Ho by done. lia.
  - eapply requests_ok_place; try done; try apply HR.
    intros r0. unfold uses. cbn. rewrite Hhead. cbn. lia.
  - intros f' Efl HR' (e & Hh & He). split; [|by eapply fn_kept; [done..| right; exact Hh | done]].
    pose proof (count_nonneg head). pose proof (flying_nonneg WriteComplete f).
    rewrite Hhead, count_cons in H5.
    assert (i32 (writeAllocated p - 1) = writeAllocated p - 1) as Hi.
    { apply i32_id. unfold QUEUE_SIZE in *. lia. }
    split; [done | | done..].
    split; cbn; rewrite ?Hi; unfold flying in *; rewrite ?Efl; lia || done.
Qed.

Lemma free_read_requests_ok a g s p f (Q : unit -> Acm -> Prop) :
  port_ok a p f ->
  (forall p' f', port_ok a p' f' -> readPool p' = [] -> io_kept p f p' f' -> Q tt (at_ a g s p' f')) ->
  wp free_read_requests Q (at_ a g s p f).
Proof.
  intros Hok HQ. apply wp_bind, wp_port. apply (free_requests_ok readPool); [|done..].
  intros p0 r head Hh. split; [exact (drop_read a p0 r head Hh) | done].
Qed.

Lemma free_write_requests_ok a g s p f (Q : unit -> Acm -> Prop) :
  port_ok a p f ->
  (forall p' f', port_ok a p' f' -> writePool p' = [] -> io_kept p f p' f' -> Q tt (at_ a g s p' f')) ->
  wp free_write_requests Q (at_ a g s p f).
Proof.
  intros Hok HQ. apply wp_bind, wp_port. apply (free_requests_ok writePool); [|done..].
  intros p0 r head Hh. split; [exact (drop_write a p0 r head Hh) | done].
Qed.

(** Starting the I/O of an enabled port, with all its outcomes. *)
Lemma UsbSerialStartIo_ok a g s p f (Q : Z -> Acm -> Prop) :
  pipes_ok a -> port_ok a p f -> port_acm p = true ->
  (forall ret p' f', port_ok a p' f' -> io_kept p f p' f' -> Q ret (at_ a g s p' f')) ->
  wp UsbSerialStartIo Q (at_ a g s p f).
Proof.
  intros Hpipes Hok Ha HQ. unfold UsbSerialStartIo. apply wp_bind, wp_port.
  apply wp_bind. apply wp_mono with (P := fun _ x' => exists p' f',
    x' = at_ a g s p' f' /\ port_ok a p' f' /\ io_kept p f p' f').
  { destruct (Z.eqb_spec (readAllocated p) 0).
    - apply alloc_reads_ok; [done | done | rewrite Z2Nat.id; unfold QUEUE_SIZE in *; lia | eauto 6].
    - apply wp_ret. exists p, f. split_and!; [done | done | apply io_kept_refl]. }
  intros ret _ (p1 & f1 & -> & Hok1 & Hk1).
  assert (port_acm p1 = true) as Ha1 by (by rewrite (io_kept_acm _ _ _ _ Hk1)).
  destruct (negb _); [by apply wp_ret, HQ|]. apply wp_bind, wp_port.
  apply wp_bind. apply wp_mono with (P := fun _ x' => exists p' f',
    x' = at_ a g s p' f' /\ port_ok a p' f' /\ io_kept p f p' f').
  { destruct (Z.eqb_spec (writeAllocated p1) 0).
    - apply alloc_writes_ok; [done | done | rewrite Z2Nat.id; unfold QUEUE_SIZE in *; lia |].
      intros. eauto 6 using io_kept_trans.
    - apply wp_ret. eauto. }
  clear ret. intros ret _ (p2 & f2 & -> & Hok2 & Hk2).
  assert (port_acm p2 = true) as Ha2 by (by rewrite (io_kept_acm _ _ _ _ Hk2)).
  destruct (negb _).
  { apply wp_bind, free_read_requests_ok; [done|]. intros. apply wp_ret, HQ; eauto using io_kept_trans. }
  apply wp_bind, UsbSerialStartRx_ok; [done..|]. intros p3 f3 Hok3 Hmv Ho _.
  pose proof (io_kept_trans _ _ _ _ _ _ Hk2 (rx_moved_kept _ _ _ _ Hmv Ho)) as Hk3.
  destruct (negb _).
  - apply wp_bind, UsbSerialStartTx_ok; [done..|]. intros ret4 p4 f4 Hok4 Hmv4 Hst4 Ho4 _.
    apply wp_ret, HQ; eauto using io_kept_trans, tx_moved_kept.
  - apply wp_bind, free_read_requests_ok; [done|]. intros p4 f4 Hok4 _ Hk4.
    apply wp_bind, free_write_requests_ok; [done|]. intros p5 f5 Hok5 _ Hk5.
    apply wp_ret, HQ; eauto using io_kept_trans.
Qed.
(** A refused submission. *)
Lemma refused_ok a g s p f r pool :
  pipes_ok a -> port_ok a p f -> port_acm p = true -> writePool p = r :: pool ->
  contents (writeFifo p) <> [] -> (forall q, pipeIo (fn_history f) r q <> HDF_SUCCESS) ->
  wp UsbSerialStartTx (fun ret x' => exists p' f', x' = at_ a g s p' f' /\ ret <> HDF_SUCCESS /\
      contents (writeFifo p') = drop (Z.to_nat (dataInMax a)) (contents (writeFifo p)) /\
      fn_inflight f' = fn_inflight f /\ writePool p' = pool ++ [r])
    (at_ a g s p f).
Proof.
  intros Hpipes Hok Ha Hpool Hne Href. unfold UsbSerialStartTx. apply wp_bind, wp_device. cbn.
  rewrite Ha, Hpool. cbn [negb start_tx]. pose proof Hok as [HR HC _ Hwf Hb _ _].
  pose proof HC as [_ _ _ Hws Hwa Hwm].
  destruct (pool_request a p f r WriteComplete (writePool p) HR (ro_writes a p f HR)) as (q & Hq & Hk & Hl & Hfl).
  { rewrite Hpool. by left. }
  { unfold uses. lia. }
  destruct (tx_take a Hpipes p q Hwf Hl) as (fifo & n & buf & E & Hf & Hr & Hbuf & Hn & Hsplit & Hz & Hdrop).
  assert (n <> 0%nat) as Hn0.
  { intros ->. apply Hne. by rewrite Hsplit, Hz, app_nil_r. }
  apply wp_bind, wp_port. rewrite Hb.
  destruct (Z.leb_spec QUEUE_SIZE (writeStarted p)) as [Hful|_].
  { exfalso. rewrite Hpool, count_cons in Hwa. pose proof (count_nonneg pool). lia. }
  apply wp_bind, wp_on_fn, (wp_request _ q); [done|]. apply wp_bind, wp_port_device; [done|]. cbn.
  rewrite E. apply wp_bind, wp_deref_some, wp_bind, wp_upd_port, wp_bind, wp_on_fn, wp_set_request. cbn.
  destruct (Z.eqb_spec (Z.of_nat n) 0) as [?|_]; [lia|].
  apply wp_bind, wp_on_fn, wp_set_request. do 2 (apply wp_bind, wp_upd_port).
  cbn. rewrite insert_insert_eq. set (q' := set_req_length (Z.of_nat n) (set_req_buf buf q)).
  apply wp_bind, wp_on_fn. apply (wp_submit _ q'); cbn; [by rewrite lookup_insert_eq | done | lia |].
  intros ret ->. apply wp_bind, wp_upd_port. set (ret := pipeIo _ _ _).
  assert (ret <> HDF_SUCCESS) as Hret by apply Href.
  destruct (Z.eqb_spec ret HDF_SUCCESS) as [?|_]; [done|]. cbn [negb].
  apply wp_bind, wp_upd_port, wp_ret. do 2 eexists. split; [done|]. by split.
Qed.
End completion.

(** ** Notifications *)

(** What the notifications change in the device. *)
Definition dev_kept (a a' : UsbAcmDevice) : Prop :=
  exists n b st, a' = set_notifyReq n (set_pending b (set_serialState st a)).

Lemma dev_kept_refl a : dev_kept a a.
Proof. exists (notifyReq a), (pending a), (serialState a). by destruct a. Qed.
Lemma dev_kept_trans a1 a2 a3 : dev_kept a1 a2 -> dev_kept a2 a3 -> dev_kept a1 a3.
Proof. intros (n1 & b1 & s1 & ->) (n2 & b2 & s2 & ->). by exists n2, b2, s2. Qed.

(** The message that tells the host the state of the device. *)
Definition state_message (a : UsbAcmDevice) : list Z :=
  notification USB_DDK_CDC_NOTIFY_SERIAL_STATE 0 (ctrlIndex a) (le16 (serialState a)).

(** The host was told the current state, unless telling it is still pending or
    the last attempt was refused. *)
Definition told {HS : HdfStatus} (a : UsbAcmDevice) (f : UsbFn) : Prop :=
  pending a = true \/
  match last_notify (fn_history f) with
  | None => serialState a = 0
  | Some (bytes, ret) => ret <> HDF_SUCCESS \/ bytes = state_message a
  end.

Section notifications.
Context {DD : UsbFnAdapterOps} {HS : HdfStatus}.
Implicit Types (a : UsbAcmDevice) (p : UsbSerial) (f : UsbFn) (r : nat).

Lemma wp_upd_device h a g s p f (Q : unit -> Acm -> Prop) :
  h (set_acm_port (Some p) a) = set_acm_port (Some p) (h a) ->
  Q tt (at_ (h a) g s p f) -> wp (upd_device h) Q (at_ a g s p f).
Proof. intros E HQ. unfold wp, upd_device, modify, at_, set_dev in *. cbn. by rewrite E. Qed.

Lemma port_ok_device a a' p f :
  port_ok a p f -> (forall k, cap a' k = cap a k) -> notifyReq a' = notifyReq a -> port_ok a' p f.
Proof.
  intros [HR HC Hrf Hwf Hb Hrs Hws] Hcap En. split; [|done..].
  eapply requests_ok_place; try done; try apply HR.
  - intros r0. unfold uses. by rewrite En.
  - rewrite En. apply HR.
Qed.

(** The notification request is in flight, or back with the device. *)
Lemma notify_submitted a p f r q q' h b :
  port_ok a p f -> notifyReq a = Some r -> fn_reqs f !! r = Some q ->
  req_complete q' = req_complete q -> req_complete q = NotifyComplete -> length (req_buf q') = length (req_buf q) ->
  port_ok (set_notifyReq None (set_pending b a)) p
    (mkFn (<[r := q']> (fn_reqs f)) (fn_inflight f ++ [(r, NotifyComplete)]) (fn_next f) h).
Proof.
  intros [HR HC Hrf Hwf Hb Hrs Hws] Hn Hq Hk Hk2 Hl.
  pose proof (ro_notify a p f HR) as Hw. rewrite Hn in Hw. apply Forall_cons in Hw as [Hreq _].
  split; [| |done..].
  - eapply requests_ok_step; try done; try apply HR.
    + intros r0. unfold uses. rewrite Hn. cbn. autorewrite with acm. cbn. case_decide; lia.
    + apply Forall_app_2; [apply HR | by constructor].
  - destruct HC. split; cbn; try done; count_flying.
Qed.

Lemma notify_refused a p f r q q' h b :
  port_ok a p f -> notifyReq a = Some r -> fn_reqs f !! r = Some q ->
  req_complete q' = req_complete q -> length (req_buf q') = length (req_buf q) ->
  port_ok (set_notifyReq (Some r) (set_pending b a)) p
    (mkFn (<[r := q']> (fn_reqs f)) (fn_inflight f) (fn_next f) h).
Proof.
  intros [HR HC Hrf Hwf Hb Hrs Hws] Hn Hq Hk Hl. split; [| |done..].
  - eapply requests_ok_step; try done; try apply HR.
    + intros r0. unfold uses. rewrite Hn. cbn. lia.
    + cbn. pose proof (ro_notify a p f HR) as Hw. by rewrite Hn in Hw.
  - by destruct HC.
Qed.

Lemma state_message_length a : length (state_message a) = 10%nat.
Proof. done. Qed.

Lemma AcmSendNotifyRequest_ok a g s p f r (Q : Z -> Acm -> Prop) :
  port_ok a p f -> notifyReq a = Some r ->
  (forall ret a' f', port_ok a' p f' -> (exists n, a' = set_notifyReq n (set_pending false a)) ->
     told a' f' -> kept p f p f' -> Q ret (at_ a' g s p f')) ->
  wp (AcmSendNotifyRequest USB_DDK_CDC_NOTIFY_SERIAL_STATE 0 (le16 (serialState a))) Q (at_ a g s p f).
Proof.
  intros Hok Hn HQ. unfold AcmSendNotifyRequest. apply wp_bind, wp_device. cbn. rewrite Hn.
  pose proof Hok as [HR _ _ _ _ _ _]. pose proof (ro_notify a p f HR) as Hw. rewrite Hn in Hw.
  apply Forall_cons in Hw as [(q & Hq & Hk & Hl) _]. cbn in Hl.
  assert (occ r (fn_inflight f).*1 = 0%nat) as Hfl.
  { pose proof (ro_once a p f HR r) as Ho. unfold uses in Ho. rewrite Hn in Ho. cbn in Ho.
    rewrite decide_True in Ho by done. lia. }
  do 2 (apply wp_bind, wp_upd_device; [done|]).
  apply wp_bind, wp_on_fn, (wp_request _ q); [done|].
  change (notification _ _ _ _) with (state_message a).
  unfold write_start. rewrite decide_True by (rewrite state_message_length; lia).
  apply wp_bind, wp_deref_some. apply wp_bind, wp_on_fn, wp_set_request.
  set (buf := state_message a ++ drop (length (state_message a)) (req_buf q)).
  set (q' := set_req_buf buf (set_req_length (8 + Z.of_nat 2) q)).
  assert (length buf = length (req_buf q)) as Hbuf.
  { unfold buf. rewrite length_app, length_drop, state_message_length. lia. }
  apply wp_bind, wp_on_fn. apply (wp_submit _ q'); cbn; [by rewrite lookup_insert_eq | done | lia |].
  intros ret _. rewrite Hk.
  change (take _ buf) with (state_message a). apply wp_bind. destruct (Z.eqb_spec ret HDF_SUCCESS) as [->|Hne]; cbn [negb].
  - apply wp_ret, wp_ret, HQ.
    + apply (notify_submitted a p f r q); done.
    + by exists None.
    + right. cbn. rewrite last_notify_snoc. by right.
    + split; try done. unfold tx_stream; cbn. by rewrite submitted_other.
  - apply wp_upd_device; [done|]. apply wp_ret, HQ.
    + apply (notify_refused a p f r q); done.
    + by exists (Some r).
    + right. cbn. rewrite last_notify_snoc. by left.
    + split; try done. unfold tx_stream; cbn. by rewrite submitted_other.
Qed.

(** The outcome of a notification: the invariant holds, the host was told the
    state, and the device satisfies [R]. *)
Definition notified a p f (R : UsbAcmDevice -> Prop) (Q : Acm -> Prop) g s : Prop :=
  forall a' f', port_ok a' p f' -> dev_kept a a' -> acm_lock a' = false -> told a' f' ->
    kept p f p f' -> R a' -> Q (at_ a' g s p f').

Lemma AcmNotifySerialState_ok a g s p f (Q : Z -> Acm -> Prop) :
  port_ok a p f -> acm_lock a = false -> (forall ret, notified a p f (fun a' => serialState a' = serialState a /\
     (notifyReq a = None \/ pending a' = false)) (Q ret) g s) ->
  wp AcmNotifySerialState Q (at_ a g s p f).
Proof.
  intros Hok Hl HQ. unfold AcmNotifySerialState.
  apply wp_bind. apply wp_bind, wp_device. cbn. rewrite Hl. apply wp_upd_device; [done|].
  apply wp_bind, wp_device. cbn.
  assert (port_ok (set_acm_lock true a) p f) as Hok1 by (by eapply port_ok_device).
  assert (forall a1 f1 ret, port_ok a1 p f1 -> told a1 f1 -> kept p f p f1 ->
    (exists n b, a1 = set_notifyReq n (set_pending b (set_acm_lock true a)) /\ (notifyReq a = None \/ b = false)) ->
    wp (unlock_acm;; mret ret) Q (at_ a1 g s p f1)) as Hend.
  { intros a1 f1 ret Hok2 Ht Hk (n & b & -> & Hb). apply wp_bind.
    apply wp_bind, wp_device. cbn. apply wp_upd_device; [done|]. apply wp_ret, (HQ ret).
    - by eapply port_ok_device.
    - exists n, b, (serialState a). destruct a; cbn in *; by subst.
    - done.
    - exact Ht.
    - done.
    - done. }
  apply wp_bind. destruct (notifyReq a) as [r|] eqn:En.
  - apply (AcmSendNotifyRequest_ok (set_acm_lock true a) g s p f r); [done | done |].
    intros ret a' f' Hok2 (n & ->) Ht Hk. apply Hend; [done | exact Ht | done |]. exists n, false. auto.
  - apply wp_bind, wp_upd_device; [done|]. apply wp_ret, Hend.
    + by eapply port_ok_device.
    + by left.
    + by split.
    + exists (notifyReq a), true. split; [by destruct a | by left].
Qed.

(** The host is told of a connection, a disconnection and a break. *)
Lemma set_state_ok {A} v (m : M Acm A) a g s p f (Q : A -> Acm -> Prop) :
  wp m Q (at_ (set_serialState (v (serialState a)) a) g s p f) ->
  wp (upd_device (fun a => set_serialState (v (serialState a)) a);; m) Q (at_ a g s p f).
Proof. intros H1. by apply wp_bind, wp_upd_device. Qed.

Lemma told_state v a p f R Q g s :
  notified a p f R Q g s -> notified (set_serialState v a) p f R Q g s.
Proof.
  intros HQ a' f' H1 (n & b & st & ->) H2 H3 H4. apply HQ; [done | by exists n, b, st | done..].
Qed.

Lemma AcmConnect_ok a g s p f (Q : unit -> Acm -> Prop) :
  port_ok a p f -> acm_lock a = false ->
  notified a p f (fun a' => serialState a' =
    u16 (Z.lor (serialState a) (Z.lor SERIAL_STATE_DSR SERIAL_STATE_DCD))) (Q tt) g s ->
  wp AcmConnect Q (at_ a g s p f).
Proof.
  intros Hok Hl HQ.
  apply (set_state_ok (fun st => u16 (Z.lor st (Z.lor SERIAL_STATE_DSR SERIAL_STATE_DCD)))).
  apply wp_bind, AcmNotifySerialState_ok; [by eapply port_ok_device | done |].
  intros ret. apply told_state. intros a' f' H1 H2 H3 H4 H5 [H6 _]. by apply wp_ret, HQ.
Qed.

Lemma AcmDisconnect_ok a g s p f (Q : unit -> Acm -> Prop) :
  port_ok a p f -> acm_lock a = false ->
  notified a p f (fun a' => serialState a' =
    u16 (Z.land (serialState a) (Z.lnot (Z.lor SERIAL_STATE_DSR SERIAL_STATE_DCD)))) (Q tt) g s ->
  wp AcmDisconnect Q (at_ a g s p f).
Proof.
  intros Hok Hl HQ.
  apply (set_state_ok (fun st => u16 (Z.land st (Z.lnot (Z.lor SERIAL_STATE_DSR SERIAL_STATE_DCD))))).
  apply wp_bind, AcmNotifySerialState_ok; [by eapply port_ok_device | done |].
  intros ret. apply told_state. intros a' f' H1 H2 H3 H4 H5 [H6 _]. by apply wp_ret, HQ.
Qed.

(** The state after a break signal of the given duration. *)
Definition break_state (duration st : Z) : Z :=
  if duration =? 0 then u16 (Z.land st (Z.lnot SERIAL_STATE_BREAK))
  else u16 (Z.lor (u16 (Z.land st (Z.lnot SERIAL_STATE_BREAK))) SERIAL_STATE_BREAK).

Lemma AcmSendBreak_ok duration a g s p f (Q : Z -> Acm -> Prop) :
  port_ok a p f -> acm_lock a = false ->
  (forall ret, notified a p f (fun a' => serialState a' = break_state duration (serialState a)) (Q ret) g s) ->
  wp (AcmSendBreak duration) Q (at_ a g s p f).
Proof.
  intros Hok Hl HQ. unfold AcmSendBreak. apply wp_bind, wp_device.
  apply wp_bind, wp_upd_device; [done|]. apply AcmNotifySerialState_ok; [by eapply port_ok_device | done |].
  intros ret. apply told_state. intros a' f' H1 H2 H3 H4 H5 [H6 _]. apply HQ; [done..|].
  rewrite H6. unfold break_state. by destruct (duration =? 0).
Qed.

Lemma notify_connect_ok a g s p f (Q : unit -> Acm -> Prop) :
  port_ok a p f -> acm_lock a = false -> told a f -> notified a p f (fun _ => True) (Q tt) g s ->
  wp notify_connect Q (at_ a g s p f).
Proof.
  intros Hok Hl Ht HQ. apply wp_bind, wp_device. cbn. case_match.
  { apply AcmConnect_ok; [done..|]. intros a' f' H1 H2 H3 H4 H5 _. by apply HQ. }
  apply wp_ret, HQ; first [done | apply dev_kept_refl | by split].
Qed.
Lemma notify_disconnect_ok a g s p f (Q : unit -> Acm -> Prop) :
  port_ok a p f -> acm_lock a = false -> told a f -> notified a p f (fun _ => True) (Q tt) g s ->
  wp notify_disconnect Q (at_ a g s p f).
Proof.
  intros Hok Hl Ht HQ. apply wp_bind, wp_device. cbn. case_match.
  { apply AcmDisconnect_ok; [done..|]. intros a' f' H1 H2 H3 H4 H5 _. by apply HQ. }
  apply wp_ret, HQ; first [done | apply dev_kept_refl | by split].
Qed.

(** The finished notification request comes back to the device. *)
Lemma notify_returned a p f r q q' h :
  port_ok a p f -> (r, NotifyComplete) ∈ fn_inflight f ->
  fn_reqs f !! r = Some q -> req_complete q' = req_complete q -> length (req_buf q') = length (req_buf q) ->
  port_ok (set_notifyReq (Some r) a) p
    (mkFn (<[r := q']> (fn_reqs f)) (filter (fun e => e.1 <> r) (fn_inflight f)) (fn_next f) h).
Proof.
  intros [HR HC Hrf Hwf Hb Hrs Hws] Hr Hq Hk Hl.
  pose proof (ro_flight a p f HR) as HF.
  destruct (flight_removed a p f r NotifyComplete HR Hr) as (l1 & l2 & E & ->).
  rewrite E in HF. apply Forall_app in HF as [HF1 [Hreq HF2]%Forall_cons].
  destruct HC. unfold flying in *. rewrite E in *.
  split; [| |done..].
  - eapply requests_ok_step; try done; try apply HR.
    + intros r0. unfold uses. rewrite E. cbn. autorewrite with acm. cbn. case_decide; lia.
    + by constructor.
    + by apply Forall_app_2.
  - change ((r, NotifyComplete) :: l2) with ([(r, NotifyComplete)] ++ l2) in *.
    autorewrite with acm in *. cbn in *. repeat case_decide; simplify_eq. autorewrite with acm in *.
    split; cbn; unfold flying; cbn; autorewrite with acm; lia.
Qed.

(** A finished notification request. *)
Lemma notify_complete_ok {CL : Clock} a g s p f r q status buf n :
  port_ok a p f -> acm_lock a = false -> told a f ->
  (r, NotifyComplete) ∈ fn_inflight f -> fn_reqs f !! r = Some q -> req_complete q = NotifyComplete ->
  length buf = length (req_buf q) ->
  wp (complete_io r status buf n) (fun _ x' => exists a' f',
      x' = at_ a' g s p f' /\ port_ok a' p f' /\ dev_kept a a' /\ serialState a' = serialState a /\
      acm_lock a' = false /\ told a' f' /\ kept p f p f' /\
      (pending a = true -> status = 0 -> pending a' = false))
    (at_ a g s p f).
Proof.
  intros Hok Hlock Ht Hr Hq Hk Hl. pose proof (po_requests _ _ _ Hok) as HR.
  set (q' := mkReq buf (req_length q) status n (req_complete q)).
  apply wp_bind, wp_on_fn, (wp_complete_request a p f r q); [done | by rewrite Hk | done |].
  rewrite Hk at 1. cbn [complete_callback]. set (f1 := mkFn _ _ _ _).
  apply wp_bind. apply wp_bind, wp_device. cbn. rewrite Hlock. apply wp_upd_device; [done|].
  apply wp_bind, wp_on_fn, (wp_request _ q'); [by apply lookup_insert_eq|].
  apply wp_bind, wp_device. cbn. apply wp_bind, wp_upd_device; [done|].
  apply wp_bind. apply wp_bind, wp_device. cbn. apply wp_upd_device; [done|].
  set (a1 := set_acm_lock false _).
  assert (a1 = set_notifyReq (Some r) a) as E by (unfold a1; destruct a; cbn in *; by subst).
  assert (port_ok a1 p f1) as Hok1 by (rewrite E; by eapply notify_returned).
  assert (dev_kept a a1) as Hd by (exists (Some r), (pending a), (serialState a); rewrite E; by destruct a).
  assert (kept p f p f1) as Hk1.
  { split; try done. unfold tx_stream; cbn. by rewrite submitted_completed. }
  assert (told a1 f1) as Ht1.
  { rewrite E. unfold told, f1 in *; cbn. rewrite last_notify_snoc. exact Ht. }
  destruct (if status =? 0 then pending a else false) eqn:Ep.
  - apply wp_bind, AcmNotifySerialState_ok; [done | done |]. intros ret a2 f2 H1 H2 H3 H4 H5 [H6 H7].
    apply wp_ret. exists a2, f2. rewrite E in H6, H7. cbn in H6, H7.
    split_and!; try done; solve [by eapply dev_kept_trans | by eapply kept_trans | by destruct H7].
  - apply wp_ret. exists a1, f1. split_and!; try done.
    intros Hp ->. by rewrite Hp in Ep.
Qed.
End notifications.
