(* ===== verification/AcmSerial.v ===== *)
(** * AcmSerial: the operations of the USB CDC ACM serial function

    [usb/gadget/function/acm/cdcacm.c]: opening, closing, reading and writing
    the port, and the enable, disable, suspend and resume events, over the data
    path of [AcmPort] and the message buffers and memory of [Hdf]. *)
From S2P Require Import Prelude Hdf Arrays DataFifo UsbFn AcmPort.
From Stdlib Require Import Ascii.
Open Scope Z_scope.

(** ** C strings *)
Fixpoint string_bytes (s : string) : list Z :=
  match s with
  | EmptyString => []
  | String c s => Z.of_nat (nat_of_ascii c) :: string_bytes s
  end.
Fixpoint bytes_string (l : list Z) : string :=
  match l with
  | [] => EmptyString
  | b :: l => String (ascii_of_nat (Z.to_nat b)) (bytes_string l)
  end.

(** The bytes before the terminator. *)
Fixpoint before_nul (l : list Z) : list Z :=
  match l with
  | [] => []
  | b :: l => if b =? 0 then [] else b :: before_nul l
  end.

(** [strcpy_s(dest, destMax, src)]: the destination afterwards, or failure when
    the string and its terminator do not fit. *)
Definition strcpy_s (dest : list Z) (destMax : Z) (src : list Z) : option (list Z) :=
  let s := before_nul src in
  if len s + 1 <=? destMax then Some (s ++ 0 :: drop (S (length s)) dest) else None.

(** The bytes a fresh block happens to hold. *)
Class Heap := uninit : nat -> Z -> Z.

(** What the byte loop of [UsbSerialRead] ends with. *)
Inductive read_end := NoData | NoString | HasString.

Section operations.
Context `{!UsbFnAdapterOps, !HdfStatus, !Clock, !Heap} {SB : Type} `{!Platform SB}.
Abbreviation M := (M (World SB Acm)).

Definition on_acm {A} (m : Prelude.M Acm A) : M A :=
  zoom w_svc (fun x w => mkWorld (w_sbufs w) (w_live w) (w_next w) x) m.

(** ** The memory of the fifos *)
Definition UsbSerialAllocFifo (fifo : DataFifo) (size : Z) : M (Z * DataFifo) :=
  if negb (DataFifoIsInitialized fifo) then
    data ←? OsalMemAlloc size else mret (HDF_ERR_MALLOC_FAIL, fifo);
    mret (HDF_SUCCESS, DataFifoInit size (Some (Mem data (uninit data <$> seqZ 0 size))))
  else mret (HDF_SUCCESS, fifo).

Definition UsbSerialFreeFifo (fifo : DataFifo) : M DataFifo :=
  match fifo_data fifo with
  | Some buf => OsalMemFree (mem_id buf)
  | None => mret tt
  end;;
  mret (DataFifoInit 0 None).

Definition alloc_write_fifo : M Z :=
  p ← on_acm port;
  '(ret, fifo) ← UsbSerialAllocFifo (writeFifo p) WRITE_BUF_SIZE;
  on_acm (upd_port (set_writeFifo fifo));; mret ret.
Definition alloc_read_fifo : M Z :=
  p ← on_acm port;
  '(ret, fifo) ← UsbSerialAllocFifo (readFifo p) READ_BUF_SIZE;
  on_acm (upd_port (set_readFifo fifo));; mret ret.

(** ** Open and close *)

(** The part of [UsbSerialOpen] before the label [OUT]. *)
Definition open_port : M unit :=
  ret ← alloc_write_fifo;
  if negb (ret =? HDF_SUCCESS) then mret tt
  else
    ret ← alloc_read_fifo;
    if negb (ret =? HDF_SUCCESS) then mret tt
    else
      p ← on_acm port;
      if port_acm p then
        if negb (suspended p) then
          ret ← on_acm UsbSerialStartIo;
          if negb (ret =? HDF_SUCCESS) then mret tt else on_acm notify_connect
        else on_acm (upd_port (set_startDelayed true))
      else mret tt.

Definition UsbSerialOpen : M Z :=
  a ← on_acm device;
  match acm_port a with
  | None => mret HDF_ERR_INVALID_PARAM
  | Some _ =>
      on_acm (modify (set_g_inFifo 1));;
      on_acm lock_port;;
      open_port;;
      on_acm unlock_port;;
      mret HDF_SUCCESS
  end.

Definition UsbSerialClose : M Z :=
  a ← on_acm device;
  match acm_port a with
  | None => mret HDF_ERR_INVALID_PARAM
  | Some _ =>
      on_acm lock_port;;
      p ← on_acm port;
      (if port_acm p && negb (suspended p) then on_acm notify_disconnect else mret tt);;
      on_acm (upd_port (fun p => set_writeFifo (DataFifoReset (writeFifo p)) p));;
      on_acm (upd_port (fun p => set_readFifo (DataFifoReset (readFifo p)) p));;
      on_acm (upd_port (set_startDelayed false));;
      on_acm unlock_port;;
      mret HDF_SUCCESS
  end.

(** ** Read and write *)

(** [for (i = 0; i < fifoLen; i++)], [n] iterations from the end. *)
Fixpoint read_chars (i n : nat) (buf : list Z) : Prelude.M Acm (read_end * list Z) :=
  match n with
  | O => mret (HasString, buf)
  | S n' =>
      p ← port;
      '(fifo, (rest, cnt)) ← deref (DataFifoRead (readFifo p) (drop i buf) 1);
      upd_port (set_readFifo fifo);;
      let buf := take i buf ++ rest in
      if cnt =? 0 then mret (NoData, buf)
      else
        c ← deref (buf !! i);
        if c =? 0 then mret (if (i =? 0)%nat then NoString else HasString, buf)
        else read_chars (S i) n' buf
  end.

Definition UsbSerialRead (reply : nat) : M Z :=
  on_acm lock_port;;
  p ← on_acm port;
  if DataFifoIsEmpty (readFifo p) then on_acm unlock_port;; mret 0
  else
    let fifoLen := DataFifoLen (readFifo p) in
    buf ←? OsalMemCalloc (u32 (fifoLen + 1)) else (on_acm unlock_port;; mret HDF_ERR_MALLOC_FAIL);
    '(e, bytes) ← on_acm (read_chars 0 (Z.to_nat fifoLen) (mem_cells buf));
    ret ← match e with
          | NoData => mret HDF_ERR_IO
          | NoString => mret HDF_SUCCESS
          | HasString =>
              unless HdfSbufWriteString reply (bytes_string (before_nul bytes)) do mret HDF_ERR_IO;
              mret HDF_SUCCESS
          end;
    p ← on_acm port;
    (if port_acm p then on_acm UsbSerialStartRx;; mret tt else mret tt);;
    OsalMemFree (mem_id buf);;
    on_acm unlock_port;;
    mret ret.

Definition UsbSerialWrite (data : nat) : M Z :=
  on_acm lock_port;;
  tmp ←? HdfSbufReadString data else mret HDF_ERR_IO;
  let strlen := len (before_nul (string_bytes tmp)) in
  buf ←? OsalMemCalloc (strlen + 1) else mret HDF_ERR_IO;
  match strcpy_s (mem_cells buf) (strlen + 1) (string_bytes tmp) with
  | None => OsalMemFree (mem_id buf);; mret HDF_ERR_IO
  | Some bytes =>
      p ← on_acm port;
      '(fifo, size) ← deref (DataFifoWrite (writeFifo p) bytes (u32 (len (before_nul bytes))));
      on_acm (upd_port (set_writeFifo fifo));;
      p ← on_acm port;
      (if port_acm p then on_acm UsbSerialStartTx;; mret tt else mret tt);;
      on_acm unlock_port;;
      OsalMemFree (mem_id buf);;
      mret (i32 size)
  end.

(** ** Events of the function *)
Definition AcmEnable : M Z :=
  a ← on_acm device;
  match acm_port a with
  | None => mret (u32 HDF_FAILURE)
  | Some _ =>
      on_acm lock_port;;
      on_acm (upd_port (set_port_acm true));;
      p ← on_acm port;
      on_acm (upd_device (set_acm_lineCoding (port_lineCoding p)));;
      ret ← alloc_write_fifo;
      if negb (ret =? HDF_SUCCESS) then mret (u32 HDF_FAILURE)
      else
        ret ← alloc_read_fifo;
        if negb (ret =? HDF_SUCCESS) then mret (u32 HDF_FAILURE)
        else
          ret ← on_acm UsbSerialStartIo;
          on_acm notify_connect;;
          on_acm unlock_port;;
          mret HDF_SUCCESS
  end.

Definition AcmDisable : M Z :=
  a ← on_acm device;
  match acm_port a with
  | None => mret (u32 HDF_FAILURE)
  | Some _ =>
      on_acm lock_port;;
      on_acm (upd_port (set_port_lineCoding (acm_lineCoding a)));;
      p ← on_acm port;
      fifo ← UsbSerialFreeFifo (writeFifo p);
      on_acm (upd_port (set_writeFifo fifo));;
      p ← on_acm port;
      fifo ← UsbSerialFreeFifo (readFifo p);
      on_acm (upd_port (set_readFifo fifo));;
      on_acm unlock_port;;
      mret HDF_SUCCESS
  end.
End operations.

(** ** A run of the function *)
Inductive acm_op :=
  | DoOpen | DoClose
  | DoRead (reply : nat) | DoWrite (data : nat)
  | DoEnable | DoDisable | DoSuspend | DoResume
  | DoSendBreak (duration : Z)
  | DoComplete (req : nat) (status : Z) (buf : list Z) (actual : Z).

Section execution.
Context `{!UsbFnAdapterOps, !HdfStatus, !Clock, !Heap} {SB : Type} `{!Platform SB}.

Definition acm_exec (op : acm_op) : M (World SB Acm) Z :=
  match op with
  | DoOpen => UsbSerialOpen
  | DoClose => UsbSerialClose
  | DoRead reply => UsbSerialRead reply
  | DoWrite data => UsbSerialWrite data
  | DoEnable => AcmEnable
  | DoDisable => AcmDisable
  | DoSuspend => on_acm AcmSuspend;; mret 0
  | DoResume => on_acm AcmResume;; mret 0
  | DoSendBreak d => on_acm (AcmSendBreak d)
  | DoComplete r st buf n => on_acm (complete_io r st buf n);; mret 0
  end.
End execution.
