(* ===== verification/AcmSerialFacts.v ===== *)
(** * AcmSerialFacts: correctness of the operations of the serial function

    Every operation of [AcmSerial], from any state of the function between two
    operations: defined behaviour, the invariant, what happens to the bytes on
    their way, and which operations return with the port's mutex held. *)
From S2P Require Import Prelude Hdf HdfQueue Arrays DataFifo UsbFn AcmPort AcmPortFacts AcmIo AcmSerial.
Open Scope Z_scope.

(** ** The invariant between operations *)

(** The heap blocks of the two fifos. *)
Definition blocks (p : UsbSerial) : list nat :=
  option_list (mem_id <$> fifo_data (readFifo p)) ++ option_list (mem_id <$> fifo_data (writeFifo p)).

Record heap_ok (L : gset nat) (n : nat) (p : UsbSerial) : Prop := HeapOk {
  ho_bound : bounded L n;
  ho_live : forall k, k ∈ blocks p -> k ∈ L;
  ho_distinct : NoDup (blocks p);
}.

(** [b] says whether the port's mutex is held. *)
Record acm_ok {HS : HdfStatus} (b : bool) (a : UsbAcmDevice) (p : UsbSerial) (f : UsbFn) : Prop := AcmOk {
  ao_pipes : pipes_ok a;
  ao_port : port_ok a p f;
  ao_queue : readQueue p = [];
  ao_lock : port_lock p = b;
  ao_acm_lock : acm_lock a = false;
  ao_told : told a f;
  ao_delay : startDelayed p = true -> port_acm p = true;
}.

Definition acm_inv {HS : HdfStatus} {SB} (b : bool) (w : World SB Acm) : Prop :=
  exists a g s p f, w_svc w = at_ a g s p f /\ acm_ok b a p f /\ heap_ok (w_live w) (w_next w) p.

Lemma heap_ok_rings L n p p' : heap_ok L n p -> rings_kept p p' -> heap_ok L n p'.
Proof.
  intros [H1 H2 H3] [[_ E1] [_ E2]].
  assert (blocks p' = blocks p) as E by (unfold blocks; by rewrite E1, E2).
  by split; rewrite ?E.
Qed.

Lemma heap_ok_blocks L n p p' : heap_ok L n p -> blocks p' = blocks p -> heap_ok L n p'.
Proof. intros [H1 H2 H3] E. by split; rewrite ?E. Qed.

Lemma control_delay p p' :
  control p' = control p -> (startDelayed p = true -> port_acm p = true) ->
  startDelayed p' = true -> port_acm p' = true.
Proof. intros H. injection H. by intros -> _ _ _ ->. Qed.
Lemma control_acm p p' : control p' = control p -> port_acm p' = port_acm p.
Proof. intros H. by injection H. Qed.
Lemma control_lock p p' : control p' = control p -> port_lock p' = port_lock p.
Proof. intros H. by injection H. Qed.

Lemma set_port_fifo a p f rf wf :
  port_ok a p f -> fifo_ok rf -> fifo_ok wf ->
  fifo_size rf = 0 \/ fifo_size rf = READ_BUF_SIZE -> fifo_size wf = 0 \/ fifo_size wf = WRITE_BUF_SIZE ->
  port_ok a (set_writeFifo wf (set_readFifo rf p)) f.
Proof.
  intros [HR HC Hrf Hwf Hb Hrs Hws] H1 H2 H3 H4. split; try done; [by destruct HR | by destruct HC].
Qed.

(** ** Proof rules *)
Section rules.
Context {DD : UsbFnAdapterOps} {HS : HdfStatus} {CL : Clock} {HP : Heap}.
Context {SB : Type} `{!Platform SB, !PlatformLaws SB}.
Implicit Types (S : gmap nat SB) (L : gset nat) (n : nat) (p : UsbSerial) (f : UsbFn).

Lemma wp_on_acm {A} (m : M Acm A) S L n x (Q : A -> World SB Acm -> Prop) :
  wp m (fun r x' => Q r (mkWorld S L n x')) x -> wp (on_acm m) Q (mkWorld S L n x).
Proof. intros H. by apply wp_zoom. Qed.

Lemma wp_on_buffer {A} d (h : SB -> A * SB) sd S L n (x : Acm) (Q : A -> World SB Acm -> Prop) :
  S !! d = Some sd -> Q (h sd).1 (mkWorld (<[d := (h sd).2]> S) L n x) ->
  wp (on_sbuf d h) Q (mkWorld S L n x).
Proof. intros E HQ. unfold wp, on_sbuf. cbn. rewrite E. by destruct (h sd). Qed.

Lemma wp_mem_alloc size S L n (x : Acm) (Q : option nat -> World SB Acm -> Prop) :
  Q (Some n) (mkWorld S ({[n]} ∪ L) (n + 1)%nat x) ->
  (~ reliable SB \/ size <= 0 -> Q None (mkWorld S L (n + 1)%nat x)) ->
  wp (OsalMemAlloc size) Q (mkWorld S L n x).
Proof.
  intros H1 H2. unfold wp, OsalMemAlloc; cbn. rewrite <- Nat.add_1_r.
  destruct (alloc_ok n size) eqn:E; [done|]. apply H2.
  destruct (Z.le_gt_cases size 0); [auto|]. left. intros (_ & Ha & _). rewrite Ha in E; [done | lia].
Qed.

Lemma wp_mem_calloc size S L n (x : Acm) (Q : option mem -> World SB Acm -> Prop) :
  0 < size ->
  Q (Some (Mem n (replicate (Z.to_nat size) 0))) (mkWorld S ({[n]} ∪ L) (n + 1)%nat x) ->
  (~ reliable SB -> Q None (mkWorld S L (n + 1)%nat x)) ->
  wp (OsalMemCalloc size) Q (mkWorld S L n x).
Proof.
  intros Hs H1 H2. unfold wp, OsalMemCalloc; cbn. rewrite <- Nat.add_1_r.
  destruct (alloc_ok n size) eqn:E; [done|]. apply H2. intros (_ & Ha & _). by rewrite Ha in E.
Qed.

Lemma wp_mem_free k S L n (x : Acm) (Q : unit -> World SB Acm -> Prop) :
  k ∈ L -> Q tt (mkWorld S (L ∖ {[k]}) n x) -> wp (OsalMemFree k) Q (mkWorld S L n x).
Proof. intros Hk HQ. unfold wp, OsalMemFree; cbn. by rewrite decide_True. Qed.
End rules.

(** ** The memory of the fifos *)
Section fifos.
Context {DD : UsbFnAdapterOps} {HS : HdfStatus} {CL : Clock} {HP : Heap}.
Context {SB : Type} `{!Platform SB, !PlatformLaws SB}.
Implicit Types (S : gmap nat SB) (L : gset nat) (n : nat) (p : UsbSerial) (f : UsbFn) (fifo : DataFifo).

(** A fifo has no memory, or the memory it always had, or fresh memory. *)
Lemma UsbSerialAllocFifo_ok fifo S L n x (Q : Z * DataFifo -> World SB Acm -> Prop) :
  fifo_ok fifo ->
  Q (HDF_SUCCESS, fifo) (mkWorld S L n x) ->
  Q (HDF_ERR_MALLOC_FAIL, fifo) (mkWorld S L (n + 1)%nat x) ->
  (forall fifo', fifo_data fifo = None -> fifo_ok fifo' -> fifo_size fifo' = READ_BUF_SIZE ->
     contents fifo' = contents fifo -> mem_id <$> fifo_data fifo' = Some n ->
     Q (HDF_SUCCESS, fifo') (mkWorld S ({[n]} ∪ L) (n + 1)%nat x)) ->
  wp (UsbSerialAllocFifo fifo READ_BUF_SIZE) Q (mkWorld S L n x).
Proof.
  intros Hf H1 H2 H3. unfold UsbSerialAllocFifo, DataFifoIsInitialized.
  destruct (Z.eqb_spec (fifo_size fifo) 0) as [Hz|Hz]; cbn [negb]; [|by apply wp_ret].
  assert (contents fifo = []) as Hc.
  { apply length_zero_iff_nil. pose proof (contents_length fifo). pose proof (fo_len _ Hf).
    pose proof (fifo_len_range fifo). lia. }
  assert (fifo_data fifo = None) as Hd.
  { destruct (fo_mem _ Hf) as [[_ ?]|(k & m & Hk & Es & _)]; [done|].
    rewrite Hz in Es. pose proof (Z.pow_pos_nonneg 2 k). lia. }
  apply wp_bind, wp_mem_alloc; [|intros _; by apply wp_ret].
  set (m := Mem n (uninit n <$> seqZ 0 READ_BUF_SIZE)).
  destruct (DataFifoInit_spec 13 m) as [Hok He]; [lia | by cbn; rewrite length_fmap, length_seqZ |].
  apply wp_ret, H3; [done | exact Hok | done | by rewrite Hc | done].
Qed.

(** Giving the port a fifo with fresh memory. *)
Lemma heap_ok_fresh L n p p' :
  heap_ok L n p -> (forall k, k ∈ blocks p' <-> k = n \/ k ∈ blocks p) -> NoDup (blocks p') ->
  heap_ok ({[n]} ∪ L) (n + 1)%nat p'.
Proof.
  intros [H1 H2 H3] Hb Hd. split; [rewrite Nat.add_1_r; by apply bounded_alloc | | done].
  intros k [->|Hk]%Hb; [set_solver|]. apply H2 in Hk. set_solver.
Qed.

Lemma fresh_not_block L n p k : heap_ok L n p -> k ∈ blocks p -> k <> n.
Proof. intros [H1 H2 _] Hk ->. apply H2, H1 in Hk. lia. Qed.

Lemma alloc_write_fifo_ok a g s S L n p f (Q : Z -> World SB Acm -> Prop) :
  port_ok a p f -> heap_ok L n p ->
  (forall ret p' L' n', port_ok a p' f -> heap_ok L' n' p' -> kept p f p' f ->
     Q ret (mkWorld S L' n' (at_ a g s p' f))) ->
  wp alloc_write_fifo Q (mkWorld S L n (at_ a g s p f)).
Proof.
  intros Hok Hh HQ. apply wp_bind, wp_on_acm, wp_port.
  pose proof Hok as [_ _ Hrf Hwf _ Hrs Hws].
  assert (forall ret n', (n <= n')%nat -> Q ret (mkWorld S L n' (at_ a g s (set_writeFifo (writeFifo p) p) f))) as Hsame.
  { intros ret n' Hn. replace (set_writeFifo (writeFifo p) p) with p by (by destruct p).
    apply HQ; [done | | by split]. destruct Hh. split; [by eapply bounded_le | done..]. }
  apply wp_bind, UsbSerialAllocFifo_ok; [done | | |].
  - apply wp_bind, wp_on_acm, wp_upd_port. apply wp_ret, Hsame. lia.
  - apply wp_bind, wp_on_acm, wp_upd_port. apply wp_ret, Hsame. lia.
  - intros fifo' Hd Hf' Hs' Hc' Hm'. apply wp_bind, wp_on_acm, wp_upd_port. apply wp_ret, HQ.
    + replace p with (set_readFifo (readFifo p) p) at 1 by (by destruct p).
      apply set_port_fifo; auto.
    + assert (blocks (set_writeFifo fifo' p) = blocks p ++ [n]) as Eb.
      { unfold blocks. cbn. rewrite Hm', Hd. cbn. by rewrite app_nil_r. }
      eapply heap_ok_fresh; [done | | ]; rewrite Eb.
      { intros k. rewrite elem_of_app, list_elem_of_singleton. tauto. }
      apply NoDup_app. split; [apply Hh|]. split; [|apply NoDup_singleton].
      intros k Hk Hn%list_elem_of_singleton. by eapply fresh_not_block.
    + split; try done. unfold tx_stream; cbn. by rewrite Hc'.
Qed.

Lemma alloc_read_fifo_ok a g s S L n p f (Q : Z -> World SB Acm -> Prop) :
  port_ok a p f -> heap_ok L n p ->
  (forall ret p' L' n', port_ok a p' f -> heap_ok L' n' p' -> kept p f p' f ->
     Q ret (mkWorld S L' n' (at_ a g s p' f))) ->
  wp alloc_read_fifo Q (mkWorld S L n (at_ a g s p f)).
Proof.
  intros Hok Hh HQ. apply wp_bind, wp_on_acm, wp_port.
  pose proof Hok as [_ _ Hrf Hwf _ Hrs Hws].
  assert (forall ret n', (n <= n')%nat -> Q ret (mkWorld S L n' (at_ a g s (set_readFifo (readFifo p) p) f))) as Hsame.
  { intros ret n' Hn. rewrite set_readFifo_id.
    apply HQ; [done | | by split]. destruct Hh. split; [by eapply bounded_le | done..]. }
  apply wp_bind, UsbSerialAllocFifo_ok; [done | | |].
  - apply wp_bind, wp_on_acm, wp_upd_port. apply wp_ret, Hsame. lia.
  - apply wp_bind, wp_on_acm, wp_upd_port. apply wp_ret, Hsame. lia.
  - intros fifo' Hd Hf' Hs' Hc' Hm'. apply wp_bind, wp_on_acm, wp_upd_port. apply wp_ret, HQ.
    + replace (set_readFifo fifo' p) with (set_writeFifo (writeFifo p) (set_readFifo fifo' p))
        by (by destruct p). apply set_port_fifo; auto.
    + assert (blocks (set_readFifo fifo' p) = n :: blocks p) as Eb.
      { unfold blocks. cbn. by rewrite Hm', Hd. }
      eapply heap_ok_fresh; [done | | ]; rewrite Eb.
      { intros k. by rewrite elem_of_cons. }
      apply NoDup_cons. split; [|apply Hh]. intros Hn. by eapply fresh_not_block.
    + by split.
Qed.

(** Releasing both. *)
Lemma free_fifos_ok {A} a g s S L n p f (Q : A -> World SB Acm -> Prop) (k : M (World SB Acm) A) :
  port_ok a p f -> heap_ok L n p ->
  (forall L', let p' := set_readFifo (DataFifoInit 0 None) (set_writeFifo (DataFifoInit 0 None) p) in
     port_ok a p' f -> heap_ok L' n p' -> wp k Q (mkWorld S L' n (at_ a g s p' f))) ->
  wp (p ← on_acm port; fifo ← UsbSerialFreeFifo (writeFifo p); on_acm (upd_port (set_writeFifo fifo));;
      p ← on_acm port; fifo ← UsbSerialFreeFifo (readFifo p); on_acm (upd_port (set_readFifo fifo));; k)
    Q (mkWorld S L n (at_ a g s p f)).
Proof.
  intros Hok [H1 H2 H3] HQ. apply wp_bind, wp_on_acm, wp_port. unfold UsbSerialFreeFifo.
  assert (forall L' : gset nat, L' ⊆ L -> heap_ok L' n
     (set_readFifo (DataFifoInit 0 None) (set_writeFifo (DataFifoInit 0 None) p))) as Hheap.
  { intros L' HL. split; [by eapply bounded_mono | by intros k0 ?%not_elem_of_nil | constructor]. }
  assert (port_ok a (set_readFifo (DataFifoInit 0 None) (set_writeFifo (DataFifoInit 0 None) p)) f) as Hok'.
  { eapply port_ok_core; [|shelve]. apply (set_port_fifo a p f (DataFifoInit 0 None) (DataFifoInit 0 None));
      [done | apply DataFifoInit_none.. | by left | by left]. Unshelve. done. }
  unfold blocks in *. destruct (fifo_data (writeFifo p)) as [mw|] eqn:Ew.
  - do 2 apply wp_bind. apply wp_mem_free; [apply H2; cbn; set_solver|]. apply wp_ret.
    apply wp_bind, wp_on_acm, wp_upd_port. apply wp_bind, wp_on_acm, wp_port. cbn.
    destruct (fifo_data (readFifo p)) as [mr|] eqn:Er; cbn in *.
    + do 2 apply wp_bind. apply wp_mem_free.
      { apply NoDup_cons in H3 as [Hne _]. specialize (H2 (mem_id mr)). set_solver. }
      apply wp_ret, wp_bind, wp_on_acm, wp_upd_port. apply HQ; [done | apply Hheap; set_solver].
    + do 2 apply wp_bind. apply wp_ret, wp_ret, wp_bind, wp_on_acm, wp_upd_port.
      apply HQ; [done | apply Hheap; set_solver].
  - do 2 apply wp_bind. apply wp_ret, wp_ret.
    apply wp_bind, wp_on_acm, wp_upd_port. apply wp_bind, wp_on_acm, wp_port. cbn.
    destruct (fifo_data (readFifo p)) as [mr|] eqn:Er; cbn in *.
    + do 2 apply wp_bind. apply wp_mem_free; [apply H2; set_solver|].
      apply wp_ret, wp_bind, wp_on_acm, wp_upd_port. apply HQ; [done | apply Hheap; set_solver].
    + do 2 apply wp_bind. apply wp_ret, wp_ret, wp_bind, wp_on_acm, wp_upd_port.
      apply HQ; [done | apply Hheap; set_solver].
Qed.
End fifos.

(** ** Operations *)

(** [ends b R w']: the operation left the function in order, its mutex held if
    [b], and the port and the kit in the relation [R] to what they were. *)
Definition ends {HS : HdfStatus} {SB} (b : bool) (R : UsbSerial -> UsbFn -> Prop) (w' : World SB Acm) : Prop :=
  exists a g s p f, w_svc w' = at_ a g s p f /\ acm_ok b a p f /\ heap_ok (w_live w') (w_next w') p /\ R p f.

(** In the middle of an operation, started from [p0] and [f0]. *)
Record mid {HS : HdfStatus} (p0 : UsbSerial) (f0 : UsbFn) (L : gset nat) (n : nat)
    (a : UsbAcmDevice) (p : UsbSerial) (f : UsbFn) : Prop := Mid {
  mi_pipes : pipes_ok a;
  mi_port : port_ok a p f;
  mi_heap : heap_ok L n p;
  mi_acm_lock : acm_lock a = false;
  mi_told : told a f;
  mi_kept : kept p0 f0 p f;
}.

Section operations.
Context {DD : UsbFnAdapterOps} {DL : UsbFnAdapterLaws} {HS : HdfStatus} {CL : Clock} {HP : Heap}.
Context {SB : Type} `{!Platform SB, !PlatformLaws SB}.
Implicit Types (S : gmap nat SB) (L : gset nat) (n : nat) (p : UsbSerial) (f : UsbFn).

Lemma mid_start a p f L n :
  acm_ok false a p f -> heap_ok L n p -> mid (set_port_lock true p) f L n a (set_port_lock true p) f.
Proof.
  intros [] Hh. split; try done; [by eapply port_ok_core | by eapply heap_ok_blocks].
Qed.

Lemma told_notify a f f' :
  told a f -> last_notify (fn_history f') = last_notify (fn_history f) -> told a f'.
Proof. unfold told. by intros H ->. Qed.

Lemma mid_io p0 f0 L n a p f p' f' :
  mid p0 f0 L n a p f -> port_ok a p' f' -> io_kept p f p' f' -> mid p0 f0 L n a p' f'.
Proof.
  intros [H1 H2 H3 H4 H5 H6] Hok [Hk Hr Hn].
  split; [done | done | by eapply heap_ok_rings | done | by eapply told_notify | by eapply kept_trans].
Qed.

Lemma pipes_kept a a' : pipes_ok a -> dev_kept a a' -> pipes_ok a'.
Proof. by intros H (n & b & st & ->). Qed.

(** Ending an operation: its mutex is released, and nothing is delayed unless
    the port is enabled. *)
Lemma wp_end p0 f0 L n a g s p f S (Q : unit -> World SB Acm -> Prop) :
  mid p0 f0 L n a p f -> port_lock p0 = true -> readQueue p0 = [] ->
  (startDelayed p = true -> port_acm p = true) ->
  (acm_ok false a (set_port_lock false p) f -> heap_ok L n (set_port_lock false p) ->
     Q tt (mkWorld S L n (at_ a g s (set_port_lock false p) f))) ->
  wp (on_acm unlock_port) Q (mkWorld S L n (at_ a g s p f)).
Proof.
  intros [H1 H2 H3 H4 H5 [K1 K2 K3 K4]] Hl Hq Hd HQ. apply wp_on_acm, wp_unlock_port.
  - injection K1; congruence.
  - apply HQ; [|by eapply heap_ok_blocks].
    split; [done | by eapply port_ok_core | cbn; congruence | done | done | done | exact Hd].
Qed.

Lemma wp_on_io p0 f0 L n a g s p f S (m : M Acm Z) (Q : Z -> World SB Acm -> Prop) :
  mid p0 f0 L n a p f ->
  (forall (Q' : Z -> Acm -> Prop),
     (forall ret p' f', port_ok a p' f' -> io_kept p f p' f' -> Q' ret (at_ a g s p' f')) ->
     wp m Q' (at_ a g s p f)) ->
  (forall ret p' f', mid p0 f0 L n a p' f' -> port_acm p' = port_acm p -> Q ret (mkWorld S L n (at_ a g s p' f'))) ->
  wp (on_acm m) Q (mkWorld S L n (at_ a g s p f)).
Proof.
  intros Hm Hwp HQ. apply wp_on_acm, Hwp. intros ret p' f' Hok Hk.
  apply HQ; [by eapply mid_io | by eapply io_kept_acm].
Qed.

Lemma wp_on_notify {A} p0 f0 L n a g s p f S (m : M Acm A) (Q : A -> World SB Acm -> Prop) :
  mid p0 f0 L n a p f ->
  (forall (Q' : A -> Acm -> Prop), (forall ret, notified a p f (fun _ => True) (Q' ret) g s) -> wp m Q' (at_ a g s p f)) ->
  (forall ret a' f', mid p0 f0 L n a' p f' -> Q ret (mkWorld S L n (at_ a' g s p f'))) ->
  wp (on_acm m) Q (mkWorld S L n (at_ a g s p f)).
Proof.
  intros [H1 H2 H3 H4 H5 H6] Hwp HQ. apply wp_on_acm, Hwp.
  intros ret a' f' Hok Hd Hl Ht Hk _. apply HQ.
  split; [by eapply pipes_kept | done | done | done | done | by eapply kept_trans].
Qed.

(** The received bytes and the stream to the host are where they were. *)
Definition carried (p : UsbSerial) (f : UsbFn) (p' : UsbSerial) (f' : UsbFn) : Prop :=
  contents (readFifo p') = contents (readFifo p) /\ tx_stream p' f' = tx_stream p f.

Lemma wp_finish {A} (v : A) p0 f0 L n a g s p f S (Q : A -> World SB Acm -> Prop) :
  mid p0 f0 L n a p f -> port_lock p0 = true -> readQueue p0 = [] ->
  (startDelayed p = true -> port_acm p = true) ->
  (forall w', ends false (carried p0 f0) w' -> Q v w') ->
  wp (on_acm unlock_port;; mret v) Q (mkWorld S L n (at_ a g s p f)).
Proof.
  intros Hm Hl Hq Hd HQ. eapply wp_bind, wp_end; [done..|]. intros Hok Hh. apply wp_ret, HQ.
  destruct Hm as [_ _ _ _ _ [_ _ K3 K4]]. by exists a, g, s, (set_port_lock false p), f.
Qed.

Lemma mid_delay d p0 f0 L n a p f :
  mid p0 f0 L n a p f -> mid (set_startDelayed d p0) f0 L n a (set_startDelayed d p) f.
Proof.
  intros [H1 H2 H3 H4 H5 [K1 K2 K3 K4]].
  split; [done | by eapply port_ok_core | by eapply heap_ok_blocks | done | done |].
  split; try done. injection K1. unfold control; cbn. congruence.
Qed.

Lemma kept_delay p0 f0 p f : kept p0 f0 p f -> startDelayed p = startDelayed p0 /\ port_acm p = port_acm p0 /\ suspended p = suspended p0.
Proof. intros [K _ _ _]. by injection K. Qed.

Lemma mid_fifo p0 f0 L n a p f L' n' p' :
  mid p0 f0 L n a p f -> port_ok a p' f -> heap_ok L' n' p' -> kept p f p' f -> mid p0 f0 L' n' a p' f.
Proof. intros [H1 H2 H3 H4 H5 H6] Hok Hh Hk. split; try done. by eapply kept_trans. Qed.

Lemma open_port_ok a g s S L n p0 f0 p f (Q : unit -> World SB Acm -> Prop) :
  mid p0 f0 L n a p f -> (startDelayed p0 = true -> port_acm p0 = true) ->
  (forall d a' p' f' L' n', mid (set_startDelayed d p0) f0 L' n' a' p' f' ->
     (startDelayed p' = true -> port_acm p' = true) -> Q tt (mkWorld S L' n' (at_ a' g s p' f'))) ->
  wp open_port Q (mkWorld S L n (at_ a g s p f)).
Proof.
  intros Hm Hd HQ.
  assert (forall a' p' f' L' n', mid p0 f0 L' n' a' p' f' -> Q tt (mkWorld S L' n' (at_ a' g s p' f'))) as HQ0.
  { intros a' p' f' L' n' Hm'. apply (HQ (startDelayed p0)).
    - destruct p0; exact Hm'.
    - destruct (kept_delay _ _ _ _ (mi_kept _ _ _ _ _ _ _ Hm')) as (-> & -> & _). done. }
  apply wp_bind, alloc_write_fifo_ok; [apply Hm..|]. intros ret1 p1 L1 n1 Hok1 Hh1 Hk1.
  pose proof (mid_fifo _ _ _ _ _ _ _ _ _ _ Hm Hok1 Hh1 Hk1) as Hm1.
  destruct (negb _); [by apply wp_ret, HQ0|].
  apply wp_bind, alloc_read_fifo_ok; [done..|]. intros ret2 p2 L2 n2 Hok2 Hh2 Hk2.
  pose proof (mid_fifo _ _ _ _ _ _ _ _ _ _ Hm1 Hok2 Hh2 Hk2) as Hm2.
  destruct (negb _); [by apply wp_ret, HQ0|].
  apply wp_bind, wp_on_acm, wp_port.
  destruct (port_acm p2) eqn:Ha; [|by apply wp_ret, HQ0].
  destruct (suspended p2); cbn [negb].
  { apply wp_on_acm, wp_upd_port. apply (HQ true); [by apply mid_delay | by cbn]. }
  apply wp_bind. eapply wp_on_io; [done | intros; apply UsbSerialStartIo_ok; [apply Hm2 | done..] |].
  intros ret3 p3 f3 Hm3 _. destruct (negb _); [by apply wp_ret, HQ0|].
  eapply wp_on_notify; [done | intros; apply notify_connect_ok; [apply Hm3.. | auto] |].
  intros [] a4 f4 Hm4. by apply HQ0.
Qed.

Lemma UsbSerialOpen_ok a g s S L n p f :
  acm_ok false a p f -> heap_ok L n p ->
  wp UsbSerialOpen (fun ret w' => ret = HDF_SUCCESS /\ ends false (carried p f) w')
    (mkWorld S L n (at_ a g s p f)).
Proof.
  intros Hok Hh. unfold UsbSerialOpen. apply wp_bind, wp_on_acm, wp_device. cbn.
  apply wp_bind, wp_on_acm, wp_modify. apply wp_bind, wp_on_acm, (wp_lock_port a 1); [apply Hok|].
  apply wp_bind. eapply open_port_ok; [by apply mid_start | apply Hok |].
  intros d a' p' f' L' n' Hm Hd. eapply wp_finish; [done | done | apply Hok | done |].
  intros w' He. split; [done | exact He].
Qed.

(** Dropping the contents of both fifos in the middle of an operation. *)
Definition dropped (p : UsbSerial) (f : UsbFn) (p' : UsbSerial) (f' : UsbFn) : Prop :=
  contents (readFifo p') = [] /\
  tx_stream p' f' = submitted WriteComplete (fn_history f) /\ contents (writeFifo p') = [].

Lemma wp_finish_dropped {A} (v : A) p0 f0 L n a g s p f S (Q : A -> World SB Acm -> Prop) :
  acm_ok true a p f -> heap_ok L n p -> dropped p0 f0 p f ->
  (forall w', ends false (dropped p0 f0) w' -> Q v w') ->
  wp (on_acm unlock_port;; mret v) Q (mkWorld S L n (at_ a g s p f)).
Proof.
  intros [] Hh Hd HQ. apply wp_bind, wp_on_acm, wp_unlock_port; [done|]. apply wp_ret, HQ.
  exists a, g, s, (set_port_lock false p), f. split_and!; [done | | by eapply heap_ok_blocks | done].
  split; try done. by eapply port_ok_core.
Qed.

Lemma stream_split p f p' f' :
  tx_stream p' f' = tx_stream p f -> contents (writeFifo p') = contents (writeFifo p) ->
  submitted WriteComplete (fn_history f') = submitted WriteComplete (fn_history f).
Proof. unfold tx_stream. intros E1 E2. rewrite E2 in E1. by apply app_inv_tail in E1. Qed.

Lemma UsbSerialClose_ok a g s S L n p f :
  acm_ok false a p f -> heap_ok L n p ->
  wp UsbSerialClose (fun ret w' => ret = HDF_SUCCESS /\ ends false (dropped p f) w')
    (mkWorld S L n (at_ a g s p f)).
Proof.
  intros Hok Hh. unfold UsbSerialClose. apply wp_bind, wp_on_acm, wp_device. cbn.
  apply wp_bind, wp_on_acm, wp_lock_port; [apply Hok|]. apply wp_bind, wp_on_acm, wp_port.
  pose proof (mid_start a p f L n Hok Hh) as Hm. set (p0 := set_port_lock true p) in *.
  apply wp_bind.
  apply wp_mono with (P := fun _ w' => exists a' f', w' = mkWorld S L n (at_ a' g s p0 f') /\
    mid p0 f L n a' p0 f').
  { destruct (port_acm p0 && negb (suspended p0)); [|apply wp_ret; eauto].
    eapply wp_on_notify; [done | intros; apply notify_disconnect_ok; [apply Hm.. | auto] |]. eauto. }
  intros _ _ (a1 & f1 & -> & [H1 [HR HC Hrf Hwf Hb Hrs Hws] H3 H4 H5 [K1 K2 K3 K4]]).
  do 3 (apply wp_bind, wp_on_acm, wp_upd_port). cbn.
  destruct (DataFifoReset_spec _ Hrf) as [Hrf' Hrc], (DataFifoReset_spec _ Hwf) as [Hwf' Hwc].
  apply wp_finish_dropped with (p0 := p) (f0 := f); [| by eapply heap_ok_blocks | | by intros w' He].
  - split; try done; [|apply Hok]. split; try done; [by destruct HR | by destruct HC].
  - split; [exact Hrc|]. split; [|exact Hwc]. transitivity (submitted WriteComplete (fn_history f1) ++ []).
    { exact (f_equal (app _) Hwc). }
    rewrite app_nil_r. by eapply (stream_split p0 f p0 f1).
Qed.

Lemma AcmDisable_ok a g s S L n p f :
  acm_ok false a p f -> heap_ok L n p ->
  wp AcmDisable (fun ret w' => ret = HDF_SUCCESS /\ ends false (dropped p f) w')
    (mkWorld S L n (at_ a g s p f)).
Proof.
  intros Hok Hh. unfold AcmDisable. apply wp_bind, wp_on_acm, wp_device. cbn.
  apply wp_bind, wp_on_acm, wp_lock_port; [apply Hok|]. apply wp_bind, wp_on_acm, wp_upd_port.
  apply (free_fifos_ok a g s S L n); [by eapply port_ok_core; [apply Hok|] | by eapply heap_ok_blocks |].
  intros L' p' Hok' Hh'. destruct DataFifoInit_none as [_ Hc].
  apply wp_finish_dropped with (p0 := p) (f0 := f); [| done | | by intros w' He].
  - destruct Hok. by split.
  - split; [exact Hc|]. split; [|exact Hc]. unfold tx_stream. etrans; [exact (f_equal (app _) Hc)|].
    by rewrite app_nil_r.
Qed.

(** An enable event that cannot get memory returns with the mutex held. *)
Lemma AcmEnable_ok a g s S L n p f :
  acm_ok false a p f -> heap_ok L n p ->
  wp AcmEnable (fun ret w' => exists b, ends b (carried p f) w' /\
      (if b then ret = u32 HDF_FAILURE else ret = HDF_SUCCESS)) (mkWorld S L n (at_ a g s p f)).
Proof.
  intros Hok Hh. unfold AcmEnable. apply wp_bind, wp_on_acm, wp_device. cbn.
  apply wp_bind, wp_on_acm, wp_lock_port; [apply Hok|]. apply wp_bind, wp_on_acm, wp_upd_port.
  apply wp_bind, wp_on_acm, wp_port. apply wp_bind, wp_on_acm, wp_upd_device; [done|].
  set (p0 := set_port_acm true (set_port_lock true p)).
  set (a0 := set_acm_lineCoding (port_lineCoding p0) a).
  assert (mid p0 f L n a0 p0 f) as Hm.
  { destruct Hok as [H1 H2 H3 H4 H5 H6 H7].
    split; [exact H1 | | by eapply heap_ok_blocks | exact H5 | exact H6 | apply kept_refl].
    eapply port_ok_core; [by eapply port_ok_device | done]. }
  assert (forall a' p' f' L' n' ret, mid p0 f L' n' a' p' f' -> ret = u32 HDF_FAILURE ->
    exists b, ends b (carried p f) (mkWorld S L' n' (at_ a' g s p' f')) /\
      (if b then ret = u32 HDF_FAILURE else ret = HDF_SUCCESS)) as Hfail.
  { intros a' p' f' L' n' ret [H1 H2 H3 H4 H5 [K1 K2 K3 K4]] ->. exists true. split; [|done].
    exists a', g, s, p', f'. split_and!; [done | | done..].
    injection K1; intros. split; try congruence. rewrite K2. apply Hok. }
  apply wp_bind, alloc_write_fifo_ok; [apply Hm..|]. intros ret1 p1 L1 n1 Hok1 Hh1 Hk1.
  pose proof (mid_fifo _ _ _ _ _ _ _ _ _ _ Hm Hok1 Hh1 Hk1) as Hm1.
  destruct (negb _); [by apply wp_ret, Hfail|].
  apply wp_bind, alloc_read_fifo_ok; [done..|]. intros ret2 p2 L2 n2 Hok2 Hh2 Hk2.
  pose proof (mid_fifo _ _ _ _ _ _ _ _ _ _ Hm1 Hok2 Hh2 Hk2) as Hm2.
  destruct (negb _); [by apply wp_ret, Hfail|].
  assert (port_acm p2 = true) as Ha by (by destruct (kept_delay _ _ _ _ (mi_kept _ _ _ _ _ _ _ Hm2)) as (_ & -> & _)).
  apply wp_bind. eapply wp_on_io; [done | intros; apply UsbSerialStartIo_ok; [apply Hm2 | done..] |].
  intros ret3 p3 f3 Hm3 Ha3.
  apply wp_bind. eapply wp_on_notify; [done | intros; apply notify_connect_ok; [apply Hm3.. | auto] |].
  intros [] a4 f4 Hm4. eapply wp_finish; [done | done | apply Hok | intros; congruence |].
  intros w' He. exists false. split; [exact He | done].
Qed.

Lemma AcmSuspend_ok a g s S L n p f :
  acm_ok false a p f -> heap_ok L n p ->
  wp (on_acm AcmSuspend;; mret 0) (fun _ w' => ends false (carried p f) w') (mkWorld S L n (at_ a g s p f)).
Proof.
  intros Hok Hh. apply wp_bind, wp_on_acm. apply wp_bind, wp_device. cbn.
  apply wp_bind, wp_lock_port; [apply Hok|]. apply wp_bind, wp_upd_port. apply wp_unlock_port; [done|].
  apply wp_ret. exists a, g, s, (set_port_lock false (set_suspended true (set_port_lock true p))), f.
  split; [done|]. split; [|split; [by eapply heap_ok_blocks | done]]. destruct Hok.
  split; try done. by eapply port_ok_core.
Qed.

Lemma AcmSendBreak_op d a g s S L n p f :
  acm_ok false a p f -> heap_ok L n p ->
  wp (on_acm (AcmSendBreak d)) (fun _ w' => ends false (carried p f) w') (mkWorld S L n (at_ a g s p f)).
Proof.
  intros [H1 H2 H3 H4 H5 H6 H7] Hh. apply wp_on_acm, AcmSendBreak_ok; [done..|].
  intros ret a' f' Hok Hd Hl Ht [_ _ K3 K4] _. exists a', g, s, p, f'. split_and!; try done.
  split; try done. by eapply pipes_kept.
Qed.

Lemma AcmResume_ok a g s S L n p f :
  acm_ok false a p f -> heap_ok L n p ->
  wp (on_acm AcmResume;; mret 0) (fun _ w' => ends false (carried p f) w') (mkWorld S L n (at_ a g s p f)).
Proof.
  intros Hok Hh. apply wp_bind, wp_on_acm. apply wp_bind, wp_device. cbn.
  apply wp_bind, wp_lock_port; [apply Hok|]. apply wp_bind, wp_upd_port. apply wp_bind, wp_port. cbn.
  set (p0 := set_suspended false (set_port_lock true p)).
  destruct Hok as [H1 H2 H3 H4 H5 H6 H7].
  assert (port_ok a p0 f) as Hp0 by (by eapply port_ok_core).
  destruct (startDelayed p) eqn:Ed; cbn [negb].
  - apply wp_bind, UsbSerialStartIo_ok; [done | done | auto |].
    intros ret p1 f1 Hok1 [[K1 K2 K3 K4] Hr Hn].
    apply wp_bind, notify_connect_ok; [done | done | by eapply told_notify |].
    intros a2 f2 Hok2 Hd2 Hl2 Ht2 [K1' K2' K3' K4'] _.
    apply wp_bind, wp_upd_port. apply wp_unlock_port; [injection K1; intros; cbn; congruence|].
    apply wp_ret. exists a2, g, s, (set_port_lock false (set_startDelayed false p1)), f2.
    split; [done|]. split; [|split; [|split; [exact K3 | exact (eq_trans K4' K4)]]].
    + split; [by eapply pipes_kept | by eapply port_ok_core | exact (eq_trans K2 H3) | done..].
    + eapply heap_ok_blocks; [by eapply (heap_ok_rings L n p0 p1); [eapply heap_ok_blocks|] | done].
  - apply wp_unlock_port; [done|]. apply wp_ret.
    exists a, g, s, (set_port_lock false p0), f. split; [done|].
    split; [|split; [by eapply heap_ok_blocks | done]].
    split; try done; [by eapply port_ok_core | cbn; by rewrite Ed].
Qed.

(** Finished requests. *)
Lemma flight_request a p f r k :
  requests_ok a p f -> (r, k) ∈ fn_inflight f ->
  exists q, fn_reqs f !! r = Some q /\ req_complete q = k /\ Z.of_nat (length (req_buf q)) = cap a k.
Proof. intros H Hr. pose proof (ro_flight a p f H) as HF. by eapply Forall_forall in HF; [|exact Hr]. Qed.

Lemma complete_io_ok a g s S L n p f r k status buf m :
  acm_ok false a p f -> heap_ok L n p -> (r, k) ∈ fn_inflight f ->
  Z.of_nat (length buf) = cap a k -> 0 <= m <= Z.of_nat (length buf) ->
  wp (on_acm (complete_io r status buf m);; mret 0)
    (fun _ w' => ends false (fun p' f' => tx_stream p' f' = tx_stream p f) w')
    (mkWorld S L n (at_ a g s p f)).
Proof.
  intros [H1 H2 H3 H4 H5 H6 H7] Hh Hr Hl Hm.
  destruct (flight_request a p f r k (po_requests _ _ _ H2) Hr) as (q & Hq & Hk & Hb).
  assert (length buf = length (req_buf q)) as Hlen by lia.
  assert (idle a p f) as Hidle by done.
  apply wp_bind, wp_on_acm. destruct k.
  - eapply wp_mono; [by apply (read_complete_ok a g s p f r q) |].
    intros _ x' (s' & p' & f' & -> & [_ Hp Hq' Hl'] & Hch & _ & Hst & Hn & _). apply wp_ret.
    pose proof (rx_changed_control _ _ Hch) as [K Hr'].
    exists a, g, s', p', f'. split; [done|]. split; [|split; [by eapply heap_ok_rings | done]].
    split; try done; [by eapply told_notify | by eapply control_delay].
  - eapply wp_mono; [by apply (write_complete_ok a g s p f r q) |].
    intros _ x' (p' & f' & -> & [_ Hp Hq' Hl'] & Hch & Hst & Hn & _). apply wp_ret.
    pose proof (tx_moved_control _ _ Hch) as [K Hr'].
    exists a, g, s, p', f'. split; [done|]. split; [|split; [by eapply heap_ok_rings | done]].
    split; try done; [by eapply told_notify | by eapply control_delay].
  - eapply wp_mono; [by apply (notify_complete_ok a g s p f r q) |].
    intros _ x' (a' & f' & -> & Hp & Hd & _ & Hl' & Ht & [K1 K2 K3 K4] & _). apply wp_ret.
    exists a', g, s, p, f'. split; [done|]. split; [|by split].
    split; try done. by eapply pipes_kept.
Qed.
End operations.

(** ** Strings *)
Lemma before_nul_nonzero l : Forall (fun b => b <> 0) (before_nul l).
Proof. induction l as [|b l IH]; cbn; [done|]. destruct (Z.eqb_spec b 0); by constructor. Qed.

Lemma before_nul_app l r : Forall (fun b => b <> 0) l -> before_nul (l ++ 0 :: r) = l.
Proof.
  induction 1 as [|b l Hb Hl IH]; [done|]. cbn. destruct (Z.eqb_spec b 0); [done|]. by rewrite IH.
Qed.

Lemma strcpy_s_fits l src :
  strcpy_s l (len (before_nul src) + 1) src =
  Some (before_nul src ++ 0 :: drop (S (length (before_nul src))) l).
Proof. unfold strcpy_s. by rewrite Z.leb_refl. Qed.

Section transfers.
Context {DD : UsbFnAdapterOps} {DL : UsbFnAdapterLaws} {HS : HdfStatus} {CL : Clock} {HP : Heap}.
Context {SB : Type} `{!Platform SB, !PlatformLaws SB}.
Implicit Types (S : gmap nat SB) (L : gset nat) (n : nat) (p : UsbSerial) (f : UsbFn).

(** A block taken and given back. *)
Lemma heap_ok_alloc L n p : heap_ok L n p -> heap_ok ({[n]} ∪ L) (n + 1)%nat p.
Proof.
  intros [H1 H2 H3]. split; [rewrite Nat.add_1_r; by apply bounded_alloc | | done].
  intros k Hk%H2. apply elem_of_union. by right.
Qed.
Lemma heap_ok_free L n n' p :
  heap_ok ({[n]} ∪ L) n' p -> bounded L n -> (forall k, k ∈ blocks p -> k ∈ L) -> heap_ok (({[n]} ∪ L) ∖ {[n]}) n' p.
Proof.
  intros [H1 H2 H3] Hb Hl. rewrite free_fresh by done. split; [|done..].
  eapply bounded_mono; [exact H1|]. intros k Hk. apply elem_of_union. by right.
Qed.

Lemma wp_mid_start a g s p f S L n {A} (k : M (World SB Acm) A) Q :
  acm_ok false a p f -> wp k Q (mkWorld S L n (at_ a g s (set_port_lock true p) f)) ->
  wp (on_acm lock_port;; k) Q (mkWorld S L n (at_ a g s p f)).
Proof. intros Hok H. apply wp_bind, wp_on_acm, wp_lock_port; [apply Hok | done]. Qed.

(** Writing after the string [tmp] was read: the bytes of the string that fit
    are appended to the stream, and their number is returned. *)
Definition wrote (tmp : string) (p : UsbSerial) (f : UsbFn) (ret : Z) (p' : UsbSerial) (f' : UsbFn) : Prop :=
  let bytes := before_nul (string_bytes tmp) in
  ret = Z.of_nat (room (writeFifo p) (u32 (len bytes))) /\
  tx_stream p' f' = tx_stream p f ++ take (Z.to_nat ret) bytes /\
  contents (readFifo p') = contents (readFifo p).

Lemma port_ok_write_fifo a p f fifo :
  port_ok a p f -> fifo_ok fifo -> same_ring (writeFifo p) fifo -> port_ok a (set_writeFifo fifo p) f.
Proof.
  intros [HR HC Hrf Hwf Hb Hrs Hws] Hf [Hsz _]. split; cbn; rewrite ?Hsz; [| |done..].
  - destruct HR. by split.
  - destruct HC. by split.
Qed.

Lemma write_fifo_ok fifo tmp dest :
  fifo_ok fifo -> fifo_size fifo = 0 \/ fifo_size fifo = WRITE_BUF_SIZE ->
  let bytes := before_nul (string_bytes tmp) in
  exists fifo', DataFifoWrite fifo (bytes ++ 0 :: dest) (u32 (len (before_nul (bytes ++ 0 :: dest)))) =
      Some (fifo', Z.of_nat (room fifo (u32 (len bytes)))) /\
    fifo_ok fifo' /\ same_ring fifo fifo' /\
    contents fifo' = contents fifo ++ take (room fifo (u32 (len bytes))) bytes /\
    Z.of_nat (room fifo (u32 (len bytes))) <= WRITE_BUF_SIZE.
Proof.
  intros Hf Hs bytes. rewrite before_nul_app by apply before_nul_nonzero.
  assert (0 <= u32 (len bytes) <= Z.of_nat (length bytes)) as Hu.
  { unfold u32, len. split; [apply Z.mod_pos_bound; lia | apply Z.mod_le; lia]. }
  destruct (DataFifoWrite_spec fifo (bytes ++ 0 :: dest) (u32 (len bytes)) Hf) as (fifo' & E & Hf' & Hc & Hr).
  { rewrite length_app. lia. }
  exists fifo'. rewrite E. split; [done|]. split; [done|]. split; [done|].
  pose proof (fifo_len_range fifo). split; [|unfold room, WRITE_BUF_SIZE in *; lia].
  rewrite Hc. f_equal. apply take_app_le. unfold room. lia.
Qed.

Lemma write_body_ok tmp a g s S L n p f (Q : Z -> World SB Acm -> Prop) :
  acm_ok false a p f -> heap_ok L n p ->
  (forall n', ~ reliable SB -> (n <= n')%nat -> Q HDF_ERR_IO (mkWorld S L n' (at_ a g s (set_port_lock true p) f))) ->
  (forall ret w', ends false (wrote tmp p f ret) w' -> Q ret w') ->
  wp (let strlen := len (before_nul (string_bytes tmp)) in
      buf ←? OsalMemCalloc (strlen + 1) else mret HDF_ERR_IO;
      match strcpy_s (mem_cells buf) (strlen + 1) (string_bytes tmp) with
      | None => OsalMemFree (mem_id buf);; mret HDF_ERR_IO
      | Some bytes =>
          p ← on_acm port;
          '(fifo, size) ← deref (DataFifoWrite (writeFifo p) bytes (u32 (len (before_nul bytes))));
          on_acm (upd_port (set_writeFifo fifo));;
          p ← on_acm port;
          (if port_acm p then on_acm UsbSerialStartTx;; mret tt else mret tt);;
          on_acm unlock_port;;
          OsalMemFree (mem_id buf);;
          mret (i32 size)
      end) Q (mkWorld S L n (at_ a g s (set_port_lock true p) f)).
Proof.
  intros Hok Hh Hfail HQ. cbn zeta. apply wp_bind, wp_mem_calloc;
    [unfold len; lia | | intros Hnr; apply wp_ret, Hfail; [done | lia]].
  cbn [mem_cells mem_id]. rewrite strcpy_s_fits. apply wp_bind, wp_on_acm, wp_port.
  set (bytes := before_nul (string_bytes tmp)). set (p0 := set_port_lock true p).
  destruct Hok as [H1 H2 H3 H4 H5 H6 H7].
  destruct (write_fifo_ok (writeFifo p) tmp (drop (Datatypes.S (length bytes)) (replicate (Z.to_nat (len bytes + 1)) 0)))
    as (fifo & E & Hf & Hr & Hc & Hmax); [apply H2..|]. fold bytes in E, Hc, Hmax.
  change (writeFifo p0) with (writeFifo p). rewrite E. apply wp_bind, wp_deref_some.
  apply wp_bind, wp_on_acm, wp_upd_port. apply wp_bind, wp_on_acm, wp_port.
  set (p1 := set_writeFifo fifo p0). set (m := room (writeFifo p) (u32 (len bytes))) in *.
  assert (tx_stream p1 f = tx_stream p f ++ take m bytes) as Hst.
  { unfold tx_stream; cbn. by rewrite Hc, app_assoc. }
  assert (mid p1 f ({[n]} ∪ L) (n + 1)%nat a p1 f) as Hm1.
  { split; [done | | | done | done | apply kept_refl].
    - apply port_ok_write_fifo; [by eapply port_ok_core | done | done].
    - apply heap_ok_alloc. eapply heap_ok_rings; [exact Hh | done]. }
  apply wp_bind.
  apply wp_mono with (P := fun _ w' => exists p' f', w' = mkWorld S ({[n]} ∪ L) (n + 1)%nat (at_ a g s p' f') /\
    mid p1 f ({[n]} ∪ L) (n + 1)%nat a p' f' /\ rings_kept p1 p').
  { destruct (port_acm p1); [|apply wp_ret; exists p1, f; auto using rings_kept_refl].
    apply wp_bind, wp_on_acm, UsbSerialStartTx_ok; [done | apply Hm1 |].
    intros ret p' f' Hok' Hmv Hst' Ho _. apply wp_ret. exists p', f'. split; [done|].
    split; [|by apply tx_moved_control]. eapply mid_io; [exact Hm1 | done | by apply tx_moved_kept]. }
  intros _ _ (p' & f' & -> & Hm' & Hrk). apply wp_bind. eapply wp_end; [exact Hm' | done | done | |].
  { eapply control_delay; [apply Hm' | done]. }
  intros Hok' Hh'. apply wp_bind, wp_mem_free; [set_solver|]. apply wp_ret.
  assert (i32 (Z.of_nat m) = Z.of_nat m) as Hi by (apply i32_id; unfold WRITE_BUF_SIZE in *; lia).
  rewrite Hi. apply HQ. exists a, g, s, (set_port_lock false p'), f'. split; [done|]. split; [done|].
  split.
  - apply heap_ok_free; [done | apply Hh |]. intros k Hk. apply (ho_live _ _ _ Hh).
    destruct Hrk as [[_ E1] [_ E2]], Hr as [_ E3]. unfold blocks in *. cbn in *. by rewrite E1, E2, E3 in Hk.
  - destruct Hm' as [_ _ _ _ _ [_ _ K3 K4]]. split; [done|]. rewrite Nat2Z.id. split; [exact (eq_trans K4 Hst)|].
    exact K3.
Qed.

(** The string at the front of a message buffer. *)
Definition front_string (sd : SB) : option string :=
  match (sbuf_read KString sd).1 with Some (IString str) => Some str | _ => None end.

Lemma front_string_view sd str v : sbuf_view sd = IString str :: v -> front_string sd = Some str.
Proof. intros Hv. destruct (sbuf_read_view _ _ _ Hv) as (s' & E & _). unfold front_string. cbn in E. by rewrite E. Qed.

Lemma wp_read_string d sd S L n (x : Acm) (Q : option string -> World SB Acm -> Prop) :
  S !! d = Some sd ->
  (forall sd', Q (front_string sd) (mkWorld (<[d := sd']> S) L n x)) ->
  wp (HdfSbufReadString d) Q (mkWorld S L n x).
Proof.
  intros Hd HQ. apply wp_bind. eapply wp_on_buffer; [done|]. apply wp_ret.
  replace ((sbuf_read KString sd).1 ≫= _) with (front_string sd); [apply HQ|].
  unfold front_string. by destruct (sbuf_read KString sd).1 as [[]|].
Qed.

(** Writing, whatever the message and the memory: it fails with the mutex held,
    or the bytes of a string are taken. *)
Lemma UsbSerialWrite_ok a g s S L n p f d sd (Q : Z -> World SB Acm -> Prop) :
  acm_ok false a p f -> heap_ok L n p -> S !! d = Some sd ->
  (forall S' n', (n <= n')%nat -> (front_string sd = None \/ ~ reliable SB) ->
     Q HDF_ERR_IO (mkWorld S' L n' (at_ a g s (set_port_lock true p) f))) ->
  (forall tmp ret w', front_string sd = Some tmp -> ends false (wrote tmp p f ret) w' -> Q ret w') ->
  wp (UsbSerialWrite d) Q (mkWorld S L n (at_ a g s p f)).
Proof.
  intros Hok Hh Hd Hfail HQ. apply wp_mid_start; [done|].
  eapply wp_bind, wp_read_string; [exact Hd|]. intros sd'.
  destruct (front_string sd) as [tmp|] eqn:E.
  - apply write_body_ok; [done | done | |].
    + intros n' Hnr Hn. apply Hfail; auto.
    + intros ret w' He. by apply (HQ tmp).
  - apply wp_ret, Hfail; auto.
Qed.

(** The loop of [UsbSerialRead]: [pre] are the bytes taken so far. *)
Lemma read_chars_ok k i pre buf a g s p f (Q : read_end * list Z -> Acm -> Prop) :
  fifo_ok (readFifo p) -> length (contents (readFifo p)) = k -> (i + k < length buf)%nat ->
  length pre = i -> take i buf = pre -> Forall (fun b => b <> 0) pre -> Forall (fun b => b = 0) (drop i buf) ->
  (forall e buf' fifo, fifo_ok fifo -> same_ring (readFifo p) fifo ->
     contents fifo = drop (Datatypes.S (length (before_nul (contents (readFifo p))))) (contents (readFifo p)) ->
     before_nul buf' = pre ++ before_nul (contents (readFifo p)) ->
     e = (if (0 <? k)%nat && bool_decide (before_nul buf' = []) then NoString else HasString) ->
     Q (e, buf') (at_ a g s (set_readFifo fifo p) f)) ->
  wp (read_chars i k buf) Q (at_ a g s p f).
Proof.
  revert i pre buf p. induction k as [|k IH]; intros i pre buf p Hf Hlen Hbuf Hpre Htake Hnz Hz HQ;
    simpl read_chars.
  { apply wp_ret. apply length_zero_iff_nil in Hlen. rewrite <- (set_readFifo_id p).
    apply HQ; [done | done | by rewrite Hlen | | done].
    rewrite Hlen. cbn. rewrite app_nil_r, <- (take_drop i buf), Htake.
    destruct (drop i buf) as [|z r] eqn:Ed; [apply (f_equal length) in Ed; rewrite length_drop in Ed; cbn in Ed; lia|].
    apply Forall_cons in Hz as [-> _]. by apply before_nul_app. }
  apply wp_bind, wp_port.
  destruct (DataFifoRead_spec (readFifo p) (drop i buf) 1 Hf) as (fifo & E & Hf' & Hc & Hr).
  { rewrite length_drop. lia. }
  pose proof (contents_length (readFifo p)) as HL.
  replace (ready (readFifo p) 1) with 1%nat in * by (unfold ready; lia).
  destruct (contents (readFifo p)) as [|c q] eqn:Eq; [done|]. cbn in Hlen, Hc. rewrite drop_0 in Hc.
  rewrite E. apply wp_bind, wp_deref_some. apply wp_bind, wp_upd_port. cbn.
  change (Z.of_nat 1 =? 0) with false. cbn match. rewrite take_0. cbn [app].
  set (buf2 := take i buf ++ c :: drop 1 (drop i buf)).
  assert (length buf2 = length buf) as Hl2.
  { unfold buf2. rewrite length_app, length_take. cbn. rewrite !length_drop. lia. }
  assert (length (take i buf) = i) as Hli by (rewrite length_take; lia).
  assert (buf2 !! i = Some c) as Hi.
  { unfold buf2. rewrite lookup_app_r by lia. by rewrite Hli, Nat.sub_diag. }
  rewrite Hi. apply wp_bind, wp_deref_some. destruct (Z.eqb_spec c 0) as [->|Hc0].
  - apply wp_ret. assert (before_nul buf2 = pre) as Hb.
    { unfold buf2. rewrite Htake. by apply before_nul_app. }
    apply HQ; [done | done | cbn; by rewrite drop_0 | cbn; by rewrite Hb, app_nil_r |].
    rewrite Hb. cbn. destruct i, pre; done.
  - assert (before_nul (c :: q) = c :: before_nul q) as Hbq by (cbn; by destruct (Z.eqb_spec c 0)).
    eapply (IH (Datatypes.S i) (pre ++ [c])); cbn.
    + done.
    + rewrite Hc. lia.
    + rewrite Hl2. lia.
    + rewrite length_app. cbn. lia.
    + unfold buf2. rewrite Htake, take_app_ge, Hpre by lia.
      replace (Datatypes.S i - i)%nat with 1%nat by lia. done.
    + apply Forall_app_2; [done | by constructor].
    + unfold buf2. rewrite drop_app_ge, Hli by lia. replace (Datatypes.S i - i)%nat with 1%nat by lia.
      cbn. rewrite drop_0. by apply Forall_drop.
    + rewrite Hc. intros e buf' fifo' H1 H2 H3 H4 H5. rewrite <- app_assoc in H4. cbn in H4.
      apply HQ; [done | by eapply same_ring_trans | | by rewrite Hbq |].
      * rewrite Hbq. exact H3.
      * rewrite H5, H4. cbn. rewrite !bool_decide_false by (by destruct pre).
        by rewrite andb_false_r.
Qed.

(** The end of [UsbSerialRead], from the label [OUT]. *)
Lemma read_out ret a g s S L n p1 f (Q : Z -> World SB Acm -> Prop) :
  mid p1 f ({[n]} ∪ L) (n + 1)%nat a p1 f -> port_lock p1 = true -> readQueue p1 = [] ->
  (startDelayed p1 = true -> port_acm p1 = true) -> bounded L n -> (forall k, k ∈ blocks p1 -> k ∈ L) ->
  (forall w', w_sbufs w' = S -> ends false (carried p1 f) w' -> Q ret w') ->
  wp (p ← on_acm port;
      (if port_acm p then on_acm UsbSerialStartRx;; mret tt else mret tt);;
      OsalMemFree n;; on_acm unlock_port;; mret ret) Q (mkWorld S ({[n]} ∪ L) (n + 1)%nat (at_ a g s p1 f)).
Proof.
  intros Hm Hl Hq Hd Hb Hbl HQ. apply wp_bind, wp_on_acm, wp_port. apply wp_bind.
  apply wp_mono with (P := fun _ w' => exists p' f', w' = mkWorld S ({[n]} ∪ L) (n + 1)%nat (at_ a g s p' f') /\
    mid p1 f ({[n]} ∪ L) (n + 1)%nat a p' f' /\ rings_kept p1 p').
  { destruct (port_acm p1) eqn:Ha; [|apply wp_ret; exists p1, f; auto using rings_kept_refl].
    apply wp_bind, wp_on_acm, UsbSerialStartRx_ok; [apply Hm | done.. |].
    intros p' f' Hok' Hmv Ho _. apply wp_ret. exists p', f'. split; [done|].
    split; [|by apply rx_changed_control, rx_moved_changed].
    eapply mid_io; [exact Hm | done | by apply rx_moved_kept]. }
  intros _ _ (p' & f' & -> & Hm' & Hrk). apply wp_bind, wp_mem_free; [set_solver|].
  assert (heap_ok (({[n]} ∪ L) ∖ {[n]}) (n + 1)%nat p') as Hh'.
  { apply heap_ok_free; [apply Hm' | done |]. intros k Hk. apply Hbl.
    destruct Hrk as [[_ E1] [_ E2]]. unfold blocks in *. by rewrite E1, E2 in Hk. }
  eapply wp_bind, (wp_end p1 f); [destruct Hm'; by split | done | done | |].
  { eapply control_delay; [apply Hm' | done]. }
  intros Hok2 Hh2. apply wp_ret, HQ; [done|].
  destruct Hm' as [_ _ _ _ _ [_ _ K3 K4]]. by exists a, g, s, (set_port_lock false p'), f'.
Qed.

(** What [UsbSerialRead] answers when the receive queue holds [q]. *)
Definition read_result (q : list Z) (sr : SB) (ret : Z) (sr' : SB) (q' : list Z) : Prop :=
  let str := before_nul q in
  (q = [] /\ ret = 0 /\ sr' = sr /\ q' = []) \/
  (q <> [] /\ ~ reliable SB /\ ret = HDF_ERR_MALLOC_FAIL /\ sr' = sr /\ q' = q) \/
  (q <> [] /\ q' = drop (Datatypes.S (length str)) q /\
     ((str = [] /\ ret = HDF_SUCCESS /\ sr' = sr) \/
      (str <> [] /\ exists ok, sbuf_write (IString (bytes_string str)) sr = (ok, sr') /\
         ret = (if ok : bool then HDF_SUCCESS else HDF_ERR_IO)))).

Lemma UsbSerialRead_ok a g s S L n p f r sr (Q : Z -> World SB Acm -> Prop) :
  acm_ok false a p f -> heap_ok L n p -> S !! r = Some sr ->
  (forall ret sr' q' w', read_result (contents (readFifo p)) sr ret sr' q' ->
     w_sbufs w' = <[r := sr']> S ->
     ends false (fun p' f' => contents (readFifo p') = q' /\ tx_stream p' f' = tx_stream p f) w' -> Q ret w') ->
  wp (UsbSerialRead r) Q (mkWorld S L n (at_ a g s p f)).
Proof.
  intros Hok Hh Hr HQ. apply wp_mid_start; [done|].
  pose proof (mid_start a p f L n Hok Hh) as Hm. destruct Hok as [H1 H2 H3 H4 H5 H6 H7].
  pose proof (po_read_fifo _ _ _ H2) as Hrf. set (p0 := set_port_lock true p) in *.
  apply wp_bind, wp_on_acm, wp_port. change (readFifo p0) with (readFifo p).
  assert (<[r := sr]> S = S) as Hid by (by apply insert_id).
  assert (forall n', (n <= n')%nat -> mid p0 f L n' a p0 f) as Hmn.
  { intros n' Hn. destruct Hm. split; try done. destruct Hh as [B1 B2 B3].
    split; [by eapply bounded_le | done..]. }
  rewrite DataFifoIsEmpty_spec by done. destruct (bool_decide (contents (readFifo p) = [])) eqn:Eb.
  { apply bool_decide_eq_true in Eb. eapply wp_bind, wp_end; [apply (Hmn n); lia | done..|].
    intros Hok' Hh'. apply wp_ret, (HQ 0 sr []); [left; done | done |].
    exists a, g, s. eexists _, f. split; [done|]. split; [exact Hok'|]. by split. }
  apply bool_decide_eq_false in Eb.
  pose proof (contents_length (readFifo p)) as HL. pose proof (fifo_len_range (readFifo p)).
  pose proof (fo_len _ Hrf). pose proof (po_read_size _ _ _ H2) as Hsz.
  cbv zeta. rewrite u32_id by (unfold READ_BUF_SIZE in *; lia).
  apply wp_bind, wp_mem_calloc; [lia | | intros Hnr].
  2:{ eapply wp_bind, wp_end; [apply (Hmn (n + 1)%nat); lia | done..|].
      intros Hok' Hh'. apply wp_ret, (HQ _ sr (contents (readFifo p))); [right; left; done | done |].
      exists a, g, s. eexists _, f. split; [done|]. split; [exact Hok'|]. by split. }
  cbn [mem_cells mem_id]. apply wp_bind, wp_on_acm.
  eapply (read_chars_ok _ 0 []); [exact Hrf | | | done | done | done | |].
  { change (readFifo p0) with (readFifo p). rewrite <- HL. by rewrite Nat2Z.id. }
  { rewrite length_replicate. lia. }
  { rewrite drop_0. apply Forall_replicate. done. }
  change (readFifo p0) with (readFifo p). intros e buf fifo Hf' Hring Hc Hbuf He. cbn [app] in Hbuf.
  rewrite Hbuf in He. set (p1 := set_readFifo fifo p0).
  assert (mid p1 f ({[n]} ∪ L) (n + 1)%nat a p1 f) as Hm1.
  { split; [done | | | done | done | apply kept_refl].
    - apply port_ok_read_fifo; [by eapply port_ok_core | done | done].
    - apply heap_ok_alloc. eapply heap_ok_rings; [exact Hh | done]. }
  assert (forall k, k ∈ blocks p1 -> k ∈ L) as Hbl.
  { intros k Hk. apply (ho_live _ _ _ Hh). destruct Hring as [_ E]. unfold blocks in *. cbn in *.
    by rewrite E in Hk. }
  assert (forall S' ret sr', S' = <[r := sr']> S -> read_result (contents (readFifo p)) sr ret sr' (contents fifo) ->
    forall w', w_sbufs w' = S' -> ends false (carried p1 f) w' -> Q ret w') as Hend.
  { intros S' ret sr' -> Hres w' Hw He'. by apply (HQ ret sr' (contents fifo)). }
  assert (0 < Z.to_nat (DataFifoLen (readFifo p)))%nat as Hpos.
  { destruct (contents (readFifo p)) eqn:Ec; [done|]. cbn in HL. lia. }
  rewrite (proj2 (Nat.ltb_lt _ _) Hpos) in He. cbn [andb] in He. rewrite Hbuf.
  destruct (bool_decide (before_nul (contents (readFifo p)) = [])) eqn:E0; subst e.
  - apply bool_decide_eq_true in E0. apply wp_bind, wp_ret.
    apply (read_out HDF_SUCCESS); [done | done | done | done | apply Hh | done |].
    apply (Hend _ _ sr); [done|]. right; right. rewrite Hc. auto 6.
  - apply bool_decide_eq_false in E0. apply wp_bind, wp_bind. eapply wp_on_buffer; [exact Hr|].
    destruct (sbuf_write _ sr) as [ok sr'] eqn:Ew. cbn [fst snd].
    destruct ok; cbn [negb]; apply wp_ret.
    + apply (read_out HDF_SUCCESS); [done | done | done | done | apply Hh | done |].
      apply (Hend _ _ sr'); [done|]. right; right. rewrite Hc. split; [done|]. split; [done|]. right. eauto.
    + apply (read_out HDF_ERR_IO); [done | done | done | done | apply Hh | done |].
      apply (Hend _ _ sr'); [done|]. right; right. rewrite Hc. split; [done|]. split; [done|]. right. eauto.
Qed.
End transfers.
