(* ===== verification/AcmRun.v ===== *)
(** * AcmRun: properties of the serial function

    What a user of the port, the host and the framework can rely on over any
    sequence of operations, completions and events. *)
From S2P Require Import Prelude Hdf HdfQueue Arrays DataFifo UsbFn AcmPort AcmPortFacts AcmIo AcmSerial AcmSerialFacts.
Open Scope Z_scope.

(** ** Finished requests *)
Section completion.
Context {DD : UsbFnAdapterOps} {HS : HdfStatus} {CL : Clock}.
Implicit Types (a : UsbAcmDevice) (p : UsbSerial) (f : UsbFn) (r : nat).

(** When a read request of the idle port finishes, the callback returns and
    the bytes it brought go to the end of the receive fifo: all of them when
    there is room, after dropping as many of the oldest when the fifo is full,
    and otherwise those that fit; the request returns to the pool and, unless
    the device is gone, every pooled request is submitted again or a submission
    was refused; the transmit stream and the notifications are untouched. *)
Lemma read_completion a g s p f r q status buf n :
  idle a p f -> (r, ReadComplete) ∈ fn_inflight f -> fn_reqs f !! r = Some q ->
  req_complete q = ReadComplete -> length buf = length (req_buf q) -> 0 <= n <= Z.of_nat (length buf) ->
  exists s' p' f', complete_io r status buf n (at_ a g s p f) = Some (tt, at_ a g s' p' f') /\
    idle a p' f' /\ rx_changed p p' /\
    contents (readFifo p') =
      (if g =? 0 then contents (readFifo p)
       else rx_stored (fifo_size (readFifo p)) (contents (readFifo p)) (take (Z.to_nat n) buf)) /\
    tx_stream p' f' = tx_stream p f /\
    last_notify (fn_history f') = last_notify (fn_history f) /\
    (port_acm p = true -> status <> USB_REQUEST_NO_DEVICE -> readPool p' = [] \/ refused (fn_history f')).
Proof.
  intros H1 H2 H3 H4 H5 H6.
  destruct (wp_inv _ _ _ (read_complete_ok a g s p f r q status buf n H1 H2 H3 H4 H5 H6))
    as ([] & x' & E & s' & p' & f' & -> & H). by exists s', p', f'.
Qed.

(** When a write request of the idle port finishes, the callback returns and
    the request is back in the pool; after a successful transfer transmission
    resumes, so that afterwards no request is idle, nothing waits, or the kit
    refused the last submission.  The stream of submitted and waiting bytes is
    unchanged in any case. *)
Lemma write_completion a g s p f r q status buf n :
  idle a p f -> (r, WriteComplete) ∈ fn_inflight f -> fn_reqs f !! r = Some q ->
  req_complete q = WriteComplete -> length buf = length (req_buf q) ->
  exists p' f', complete_io r status buf n (at_ a g s p f) = Some (tt, at_ a g s p' f') /\
    idle a p' f' /\ tx_moved p p' /\ tx_stream p' f' = tx_stream p f /\
    last_notify (fn_history f') = last_notify (fn_history f) /\
    (port_acm p = true -> status = USB_REQUEST_COMPLETED ->
       writePool p' = [] \/ contents (writeFifo p') = [] \/ refused (fn_history f')).
Proof.
  intros H1 H2 H3 H4 H5.
  destruct (wp_inv _ _ _ (write_complete_ok a g s p f r q status buf n H1 H2 H3 H4 H5))
    as ([] & x' & E & p' & f' & -> & H). by exists p', f'.
Qed.

(** When the notification request finishes it is free again; if the state
    changed meanwhile and the transfer was completed, the current state is sent
    at once and nothing is pending any more.  Afterwards the host was told the
    current state of the device, telling it is still pending, or the last
    attempt was refused; the data path is untouched. *)
Lemma notify_completion a g s p f r q status buf n :
  port_ok a p f -> acm_lock a = false -> told a f ->
  (r, NotifyComplete) ∈ fn_inflight f -> fn_reqs f !! r = Some q -> req_complete q = NotifyComplete ->
  length buf = length (req_buf q) ->
  exists a' f', complete_io r status buf n (at_ a g s p f) = Some (tt, at_ a' g s p f') /\
    port_ok a' p f' /\ dev_kept a a' /\ serialState a' = serialState a /\ acm_lock a' = false /\
    told a' f' /\ kept p f p f' /\ (pending a = true -> status = 0 -> pending a' = false).
Proof.
  intros H1 H2 H3 H4 H5 H6 H7.
  destruct (wp_inv _ _ _ (notify_complete_ok a g s p f r q status buf n H1 H2 H3 H4 H5 H6 H7))
    as ([] & x' & E & a' & f' & -> & H). by exists a', f'.
Qed.

(** A break signal of a duration sets the break bit of the state, one of no
    duration clears it; afterwards the host was told the new state, telling it
    is pending, or the last attempt was refused; the data path is untouched. *)
Lemma break_signal duration a g s p f :
  port_ok a p f -> acm_lock a = false ->
  exists ret a' f', AcmSendBreak duration (at_ a g s p f) = Some (ret, at_ a' g s p f') /\
    port_ok a' p f' /\ serialState a' = break_state duration (serialState a) /\ acm_lock a' = false /\
    told a' f' /\ kept p f p f'.
Proof.
  intros H1 H2. destruct (wp_inv (AcmSendBreak duration) (fun ret x' => exists a' f', x' = at_ a' g s p f' /\
    port_ok a' p f' /\ serialState a' = break_state duration (serialState a) /\ acm_lock a' = false /\
    told a' f' /\ kept p f p f') (at_ a g s p f)) as (ret & x' & E & a' & f' & -> & H).
  - apply AcmSendBreak_ok; [done..|]. intros ret a' f' H3 H4 H5 H6 H7 H8. by exists a', f'.
  - by exists ret, a', f'.
Qed.

(** When the kit refuses a submission, the bytes that were taken from the
    transmit fifo for it are dropped: up to a packet of them is neither in the
    fifo nor on its way, although the request returns to the pool. *)
Lemma refused_loses_bytes a g s p f r pool :
  pipes_ok a -> port_ok a p f -> port_acm p = true -> writePool p = r :: pool ->
  contents (writeFifo p) <> [] -> (forall q, pipeIo (fn_history f) r q <> HDF_SUCCESS) ->
  exists ret p' f', UsbSerialStartTx (at_ a g s p f) = Some (ret, at_ a g s p' f') /\ ret <> HDF_SUCCESS /\
    contents (writeFifo p') = drop (Z.to_nat (dataInMax a)) (contents (writeFifo p)) /\
    fn_inflight f' = fn_inflight f /\ writePool p' = pool ++ [r].
Proof.
  intros H1 H2 H3 H4 H5 H6.
  destruct (wp_inv _ _ _ (refused_ok a g s p f r pool H1 H2 H3 H4 H5 H6))
    as (ret & x' & E & p' & f' & -> & H). by exists ret, p', f'.
Qed.
End completion.

Section run.
Context {DD : UsbFnAdapterOps} {DL : UsbFnAdapterLaws} {HS : HdfStatus} {CL : Clock} {HP : Heap}.
Context {SB : Type} `{!Platform SB, !PlatformLaws SB}.
Implicit Types (w : World SB Acm).

(** ** Observations of the state *)
Definition the_port w : option UsbSerial := acm_port (dev (w_svc w)).
Definition released w : Prop := exists p, the_port w = Some p /\ port_lock p = false.

(** The stream to the host: the bytes submitted so far and those that wait. *)
Definition tx_of w : list Z :=
  match the_port w with Some p => tx_stream p (fn (w_svc w)) | None => [] end.
(** The bytes received and not read yet. *)
Definition rx_of w : list Z :=
  match the_port w with Some p => contents (readFifo p) | None => [] end.
(** How many of [n] bytes a write takes. *)
Definition room_of w (n : Z) : Z :=
  match the_port w with Some p => Z.of_nat (room (writeFifo p) n) | None => 0 end.

(** What the framework guarantees when it calls: the message buffer exists; a
    finished request was in flight and its memory and byte count are sound. *)
Definition op_ok w (op : acm_op) : Prop :=
  match op with
  | DoRead r | DoWrite r => is_Some (w_sbufs w !! r)
  | DoComplete r status buf n =>
      exists k, (r, k) ∈ fn_inflight (fn (w_svc w)) /\
        Z.of_nat (length buf) = cap (dev (w_svc w)) k /\ 0 <= n <= Z.of_nat (length buf)
  | _ => True
  end.

(** The bytes an operation takes for the host. *)
Definition message w (d : nat) : list Z :=
  match w_sbufs w !! d ≫= front_string with
  | Some tmp => before_nul (string_bytes tmp)
  | None => []
  end.
Definition accepted w (op : acm_op) (ret : Z) : list Z :=
  match op with DoWrite d => take (Z.to_nat ret) (message w d) | _ => [] end.

(** Closing the port and disabling the function drop what waits. *)
Definition drops_data (op : acm_op) : bool :=
  match op with DoClose | DoDisable => true | _ => false end.

Lemma ends_inv b R w : ends b R w -> acm_inv b w.
Proof. intros (a & g & s & p & f & E & H1 & H2 & _). by exists a, g, s, p, f. Qed.

Lemma inv_released b w : acm_inv b w -> released w -> b = false.
Proof.
  intros (a & g & s & p & f & E & [] & _) (p' & Hp & Hl). unfold the_port in Hp. rewrite E in Hp.
  injection Hp as <-. congruence.
Qed.

(** One operation from an orderly state: it returns, the function is in order,
    the mutex is released but in the two cases named, and the stream to the host
    grows by the accepted bytes at most at its end. *)
Lemma acm_exec_ok op w :
  acm_inv false w -> op_ok w op ->
  wp (acm_exec op) (fun ret w' => exists b, acm_inv b w' /\
      (b = true -> (exists d, op = DoWrite d /\ ret = HDF_ERR_IO) \/ (op = DoEnable /\ ret = u32 HDF_FAILURE)) /\
      (b = false -> drops_data op = false -> tx_of w' = tx_of w ++ accepted w op ret)) w.
Proof.
  intros (a & g & s & p & f & E & Hok & Hh) Hop. destruct w as [S L n x]; cbn in *. subst x.
  assert (forall (R : UsbSerial -> UsbFn -> Prop) (l : list Z) w' (P : Prop), ends false R w' ->
    (forall p' f', R p' f' -> tx_stream p' f' = tx_stream p f ++ l) ->
    exists b, acm_inv b w' /\ (b = true -> P) /\
     (b = false -> drops_data op = false -> tx_of w' = tx_stream p f ++ l)) as Hend.
  { intros R l w' P He HR. exists false. split; [by eapply ends_inv|]. split; [done|]. intros _ _.
    destruct He as (a' & g' & s' & p' & f' & E' & _ & _ & Hr). unfold tx_of, the_port. rewrite E'. cbn. auto. }
  destruct op as [| |r|d| | | | |d|r st buf m]; cbn [acm_exec drops_data accepted].
  - eapply wp_mono; [by apply UsbSerialOpen_ok|]. intros ret w' [_ He]. eapply Hend; [exact He|].
    intros p' f' [_ H]. by rewrite app_nil_r.
  - eapply wp_mono; [by apply UsbSerialClose_ok|]. intros ret w' [_ He]. exists false.
    split; [by eapply ends_inv | done].
  - destruct Hop as [sr Hr]. eapply UsbSerialRead_ok; [done..|]. intros ret sr' q' w' _ _ He.
    eapply Hend; [exact He|]. intros p' f' [_ H]. by rewrite app_nil_r.
  - destruct Hop as [sd Hd]. cbn in Hd. eapply UsbSerialWrite_ok; [done..| |].
    + intros S' n' Hn _. exists true. split; [|split; [eauto | done]].
      exists a, g, s, (set_port_lock true p), f. split; [done|]. split.
      * destruct Hok. split; try done. by eapply port_ok_core.
      * destruct Hh. split; [by eapply bounded_le | done..].
    + intros tmp ret w' Htmp He. eapply Hend; [exact He|]. intros p' f' (_ & H & _).
      unfold message. cbn. rewrite Hd; cbn. by rewrite Htmp.
  - eapply wp_mono; [by apply AcmEnable_ok|]. intros ret w' ([] & He & Hret).
    + exists true. split; [by eapply ends_inv|]. split; [auto | done].
    + eapply Hend; [exact He|]. intros p' f' [_ H]. by rewrite app_nil_r.
  - eapply wp_mono; [by apply AcmDisable_ok|]. intros ret w' [_ He]. exists false.
    split; [by eapply ends_inv | done].
  - eapply wp_mono; [by apply AcmSuspend_ok|]. intros ret w' He. eapply Hend; [exact He|].
    intros p' f' [_ H]. by rewrite app_nil_r.
  - eapply wp_mono; [by apply AcmResume_ok|]. intros ret w' He. eapply Hend; [exact He|].
    intros p' f' [_ H]. by rewrite app_nil_r.
  - eapply wp_mono; [by apply AcmSendBreak_op|]. intros ret w' He. eapply Hend; [exact He|].
    intros p' f' [_ H]. by rewrite app_nil_r.
  - destruct Hop as (k & Hr & Hl & Hm). cbn in Hr, Hl.
    eapply wp_mono; [by eapply (complete_io_ok a g s S L n p f r k)|]. intros ret w' He.
    eapply Hend; [exact He|]. intros p' f' H. by rewrite app_nil_r.
Qed.

(** ** Runs *)

(** A run of operations, each of which released the mutex, with the bytes it
    accepted for the host. *)
Inductive acm_run w : list acm_op -> list Z -> World SB Acm -> Prop :=
  | run_nil : acm_run w [] [] w
  | run_step op ops ret acc w1 w2 :
      op_ok w op -> acm_exec op w = Some (ret, w1) -> released w1 -> acm_run w1 ops acc w2 ->
      acm_run w (op :: ops) (accepted w op ret ++ acc) w2.

Lemma exec_step op w ret w1 :
  acm_inv false w -> op_ok w op -> acm_exec op w = Some (ret, w1) -> released w1 ->
  acm_inv false w1 /\ (drops_data op = false -> tx_of w1 = tx_of w ++ accepted w op ret).
Proof.
  intros Hinv Hop E Hrel. pose proof (acm_exec_ok op w Hinv Hop) as H. unfold wp in H. rewrite E in H.
  destruct H as (b & Hb & _ & Ht). replace b with false in * by (symmetry; by eapply inv_released).
  split; auto.
Qed.

(** C19: Over any sequence of port operations, device events and finished
    requests that leave the mutex released, no operation has undefined
    behaviour: no request is submitted twice, released while in flight or sent
    beyond its memory, no fifo is accessed out of bounds, no mutex is taken
    twice, no memory is freed twice; every operation returns; and only a failed
    write or a failed enable event can return with the mutex held. *)
Theorem acm_safe w ops acc w' op :
  acm_inv false w -> acm_run w ops acc w' -> op_ok w' op ->
  acm_inv false w' /\
  exists ret w2, acm_exec op w' = Some (ret, w2) /\
    (released w2 \/ (exists d, op = DoWrite d /\ ret = HDF_ERR_IO) \/
     (op = DoEnable /\ ret = u32 HDF_FAILURE)).
Proof.
  intros Hinv Hrun Hop. assert (acm_inv false w') as Hinv'.
  { clear Hop. revert Hinv. induction Hrun as [w|w o ops ret acc w1 w2 Ho E Hrel Hrun IH]; intros Hinv; [done|].
    apply IH. by eapply exec_step. }
  split; [done|]. destruct (wp_inv _ _ _ (acm_exec_ok op w' Hinv' Hop)) as (ret & w2 & E & b & Hb & Hheld & _).
  exists ret, w2. split; [done|]. destruct b; [right; auto|]. left.
  destruct Hb as (a & g & s & p & f & Ex & [] & _). exists p. unfold the_port. by rewrite Ex.
Qed.

(** C20: Over any such run in which the port is not closed and the function not
    disabled, the bytes submitted to the host followed by the bytes that wait
    are those of the start followed by all bytes accepted since, in order:
    nothing is lost, duplicated or reordered before submission. *)
Theorem tx_in_order w ops acc w' :
  acm_inv false w -> acm_run w ops acc w' -> forallb (fun op => negb (drops_data op)) ops = true ->
  tx_of w' = tx_of w ++ acc.
Proof.
  intros Hinv Hrun. revert Hinv. induction Hrun as [w|w op ops ret acc w1 w2 Ho E Hrel Hrun IH]; intros Hinv Hd.
  - by rewrite app_nil_r.
  - cbn in Hd. apply andb_true_iff in Hd as [Hd1%negb_true_iff Hd2].
    destruct (exec_step op w ret w1 Hinv Ho E Hrel) as [Hinv1 Ht].
    by rewrite IH, Ht, app_assoc by done.
Qed.

(** Writing a string that is next in its message, when no memory is refused,
    appends the bytes of the string that fit to the stream to the host, in
    order, returns their number, leaves the received bytes alone and releases
    the mutex. *)
Lemma serial_write w d sd str v :
  acm_inv false w -> w_sbufs w !! d = Some sd -> sbuf_view sd = IString str :: v -> reliable SB ->
  exists w', acm_exec (DoWrite d) w = Some (room_of w (u32 (len (before_nul (string_bytes str)))), w') /\
    acm_inv false w' /\ rx_of w' = rx_of w /\
    tx_of w' = tx_of w ++
      take (Z.to_nat (room_of w (u32 (len (before_nul (string_bytes str)))))) (before_nul (string_bytes str)).
Proof.
  intros (a & g & s & p & f & E & Hok & Hh) Hd Hv Hrel.
  unfold room_of, tx_of, rx_of, the_port. rewrite E. destruct w as [S L n x]; cbn in *. subst x.
  pose proof (front_string_view _ _ _ Hv) as Hf.
  assert (wp (UsbSerialWrite d) (fun ret w' => ends false (wrote str p f ret) w') (mkWorld S L n (at_ a g s p f))) as H.
  { eapply UsbSerialWrite_ok; [done..| |].
    - intros S' n' _ [Hn|Hn]; [congruence | done].
    - intros tmp ret w' Ht He. replace str with tmp by congruence. done. }
  apply wp_inv in H as (ret & w' & Ew & He). pose proof He as (a' & g' & s' & p' & f' & E' & _ & _ & Hret & Ht & Hr).
  exists w'. rewrite E'. cbn. rewrite <- Hret. split; [done|]. split; [by eapply ends_inv | done].
Qed.

(** C27: Reading the port when no memory is refused and the message takes the
    answer: an empty queue answers 0 and no string; otherwise the bytes up to
    the first null byte leave the queue together with that byte, and are the
    string of the answer unless there are none; the stream to the host is left
    alone and the mutex released. *)
Theorem serial_read w r sr :
  acm_inv false w -> w_sbufs w !! r = Some sr -> reliable SB -> HDF_SUCCESS = 0 ->
  let str := before_nul (rx_of w) in
  exists w' sr', acm_exec (DoRead r) w = Some (0, w') /\ acm_inv false w' /\
    w_sbufs w' = <[r := sr']> (w_sbufs w) /\
    sbuf_view sr' = sbuf_view sr ++ (if decide (str = []) then [] else [IString (bytes_string str)]) /\
    rx_of w' = drop (Datatypes.S (length str)) (rx_of w) /\ tx_of w' = tx_of w.
Proof.
  intros (a & g & s & p & f & E & Hok & Hh) Hr Hrel Hz.
  unfold tx_of, rx_of, the_port. rewrite E. destruct w as [S L n x]; cbn in *. subst x.
  assert (wp (UsbSerialRead r) (fun ret w' => exists sr' q', read_result (contents (readFifo p)) sr ret sr' q' /\
    w_sbufs w' = <[r := sr']> S /\
    ends false (fun p' f' => contents (readFifo p') = q' /\ tx_stream p' f' = tx_stream p f) w')
    (mkWorld S L n (at_ a g s p f))) as H.
  { eapply UsbSerialRead_ok; [done..|]. eauto. }
  apply wp_inv in H as (ret & w' & Ew & sr' & q' & Hres & Hs & He).
  pose proof He as (a' & g' & s' & p' & f' & E' & _ & _ & Hq & Ht).
  exists w', sr'. rewrite E'. cbn. rewrite Hq, Ht. unfold read_result in Hres. rewrite Hz in Hres.
  destruct Hres as [(E0 & -> & -> & ->)|[(_ & Hn & _)|(Hne & -> & [(E0 & -> & ->)|(E0 & ok & Ews & ->)])]]; [| done | |].
  - rewrite E0. cbn [before_nul]. rewrite decide_True, app_nil_r by done. split; [done|]. split; [by eapply ends_inv|]. done.
  - rewrite E0, decide_True, app_nil_r by done. split; [done|]. split; [by eapply ends_inv|]. done.
  - rewrite decide_False by done.
    assert (ok = true) as -> by (destruct Hrel as (_ & _ & Hw & _); specialize (Hw (IString (bytes_string (before_nul (contents (readFifo p))))) sr); by rewrite Ews in Hw).
    split; [done|]. split; [by eapply ends_inv|]. split; [done|]. split; [by eapply sbuf_write_view | done].
Qed.

(** ** Behaviour on errors *)

(** The operations that take the mutex of the port. *)
Definition takes_mutex (op : acm_op) : bool :=
  match op with DoSendBreak _ | DoComplete _ _ _ _ => false | _ => true end.

Lemma lock_held x p : acm_port (dev x) = Some p -> port_lock p = true -> lock_port x = None.
Proof.
  intros Hp Hl. unfold lock_port, port, mbind, M_bind, get_state, deref. rewrite Hp.
  unfold mret, M_ret. by rewrite Hl.
Qed.

Lemma held_blocks w p op :
  the_port w = Some p -> port_lock p = true -> takes_mutex op = true -> acm_exec op w = None.
Proof.
  intros Hp Hl Ht. destruct w as [S L n x]. unfold the_port in Hp. cbn in Hp.
  destruct op; try done;
    cbv [acm_exec UsbSerialOpen UsbSerialClose UsbSerialRead UsbSerialWrite AcmEnable AcmDisable AcmSuspend
      AcmResume on_acm zoom device gets mbind M_bind modify mret M_ret];
    cbn [w_svc dev set_g_inFifo]; rewrite ?Hp; cbn [w_svc];
    by rewrite (lock_held _ p).
Qed.

(** C40: A write whose message holds no string returns an I/O error without
    releasing the mutex of the port: after it, opening, closing, reading,
    writing and every event that takes the mutex block forever. *)
Theorem write_error_deadlocks w d sd :
  acm_inv false w -> w_sbufs w !! d = Some sd -> front_string sd = None ->
  exists w', acm_exec (DoWrite d) w = Some (HDF_ERR_IO, w') /\
    forall op, takes_mutex op = true -> acm_exec op w' = None.
Proof.
  intros (a & g & s & p & f & E & Hok & Hh) Hd Hn. destruct w as [S L n x]; cbn in *. subst x.
  assert (wp (UsbSerialWrite d) (fun ret w' => ret = HDF_ERR_IO /\
    exists p', the_port w' = Some p' /\ port_lock p' = true) (mkWorld S L n (at_ a g s p f))) as H.
  { eapply UsbSerialWrite_ok; [done..| |].
    - intros S' n' _ _. split; [done|]. by exists (set_port_lock true p).
    - intros tmp ret w' Ht. congruence. }
  apply wp_inv in H as (ret & w' & Ew & -> & p' & Hp & Hl). exists w'. split; [done|].
  intros op Ht. by eapply held_blocks.
Qed.
End run.
