(* ===== verification/AcmInstance.v ===== *)
(** * AcmInstance: the serial function at work

    An adapter that grants every request and accepts every submission, a device with
    64-byte pipes, and a session of it: the port is opened, enabled and written,
    and a packet arrives.  The theorems of [AcmRun] are applied to its states. *)
From S2P Require Import Prelude Hdf HdfQueue Arrays DataFifo UsbFn AcmPort AcmPortFacts AcmIo AcmSerial AcmSerialFacts AcmRun.
Open Scope Z_scope.

#[global] Instance accepting_kit : UsbFnAdapterOps := {
  mapAddr _ n := if 0 <=? n then Some (replicate (Z.to_nat n) 0) else None;
  UsbFnMemCalloc _ := true;
  unmapAddr _ _ := 0;
  releaseBuf _ _ := 0;
  pipeIo _ _ _ := 0;
}.
#[global] Instance accepting_kit_laws : UsbFnAdapterLaws.
Proof.
  intros h n buf. cbn. destruct (Z.leb_spec 0 n); [|done]. intros [= <-].
  rewrite length_replicate. lia.
Qed.

(** An adapter that refuses everything. *)
Definition refusing_kit : UsbFnAdapterOps := {|
  mapAddr _ _ := None; UsbFnMemCalloc _ := false; unmapAddr _ _ := -1; releaseBuf _ _ := -1; pipeIo _ _ _ := -1;
|}.

#[global] Instance still_clock : Clock := fun _ => 0.
#[global] Instance zero_heap : Heap := fun _ _ => 0.

(** ** The session *)
Definition fresh_port : UsbSerial := {|
  port_acm := false; port_lineCoding := mkLine 9600 0 0 8; port_lock := false;
  readPool := []; readQueue := []; readStarted := 0; readAllocated := 0; readFifo := DataFifoInit 0 None;
  writePool := []; writeStarted := 0; writeAllocated := 0; writeFifo := DataFifoInit 0 None;
  writeBusy := false; suspended := false; startDelayed := false;
|}.
Definition fresh_device : UsbAcmDevice := {|
  acm_port := Some fresh_port; acm_lock := false; notifyReq := Some 0%nat; pending := false;
  acm_lineCoding := mkLine 0 0 0 0; serialState := 0; acm_notify := true;
  dataInMax := 64; dataOutMax := 64; ctrlIndex := 1;
|}.
Definition fresh_kit : UsbFn :=
  mkFn {[0%nat := mkReq (replicate 16 0) 16 0 0 NotifyComplete]} [] 1 [Allocated 0 NotifyComplete].

(** Message 0 holds a string, message 1 is a reply, message 2 is empty. *)
Definition messages : gmap nat (list item) :=
  {[0%nat := [IString "hello"]; 1%nat := []; 2%nat := []]}.
Definition acm_world0 : World (list item) Acm :=
  mkWorld messages ∅ 0 (mkAcm fresh_device 0 (mkSpeed false false 0 false 0) fresh_kit).

Definition after (op : acm_op) (w : World (list item) Acm) : World (list item) Acm :=
  match acm_exec op w with Some (_, w') => w' | None => w end.

(** The port is opened, enabled and written. *)
Definition acm_opened := after DoOpen acm_world0.
Definition acm_enabled := after DoEnable acm_opened.
Definition acm_written := after (DoWrite 0) acm_enabled.
(** The host sends the bytes of a string and one more. *)
Definition packet : list Z := [111; 107; 0; 33] ++ replicate 60 0.
Definition acm_received := after (DoComplete 1 0 packet 4) acm_written.

Lemma acm_world0_inv : acm_inv false acm_world0.
Proof.
  exists fresh_device, 0, (mkSpeed false false 0 false 0), fresh_port, fresh_kit.
  split; [done|]. split.
  - split; [by cbn; unfold pipes_ok, READ_BUF_SIZE; cbn; lia | | done | done | done | by right | done].
    split; [| | apply DataFifoInit_none.. | done | by left | by left].
    + split; try by constructor.
      * intros r. unfold uses. cbn. case_decide; lia.
      * constructor; [|constructor]. eexists. split; [by vm_compute | done].
      * intros r [q Hq]. unfold fresh_kit in Hq; cbn in Hq. apply lookup_singleton_Some in Hq as [<- _]. cbn. lia.
    + by split.
  - split; [by intros k ?%elem_of_empty | by intros k ?%not_elem_of_nil | constructor].
Qed.

(** A step of the session, given what it computes. *)
Lemma session_step op w :
  acm_inv false w -> op_ok w op ->
  match acm_exec op w with Some (_, w') => port_lock <$> the_port w' | None => None end = Some false ->
  (exists ret, acm_exec op w = Some (ret, after op w)) /\ released (after op w) /\ acm_inv false (after op w).
Proof.
  intros Hinv Hop E. unfold after. destruct (acm_exec op w) as [[ret w']|] eqn:Ex; [|done].
  assert (released w') as Hrel.
  { unfold released. destruct (the_port w') as [p|]; [|done]. exists p. split; [done|]. by injection E. }
  split; [by exists ret|]. split; [done|]. by eapply exec_step.
Qed.

Lemma opened_step :
  (exists ret, acm_exec DoOpen acm_world0 = Some (ret, acm_opened)) /\ released acm_opened /\ acm_inv false acm_opened.
Proof. apply (session_step DoOpen); [exact acm_world0_inv | done | by vm_compute]. Qed.

Lemma enabled_step :
  (exists ret, acm_exec DoEnable acm_opened = Some (ret, acm_enabled)) /\ released acm_enabled /\ acm_inv false acm_enabled.
Proof. apply (session_step DoEnable); [apply opened_step | done | by vm_compute]. Qed.

Lemma written_step :
  (exists ret, acm_exec (DoWrite 0) acm_enabled = Some (ret, acm_written)) /\ released acm_written /\
  acm_inv false acm_written.
Proof. apply (session_step (DoWrite 0)); [apply enabled_step | by eexists; vm_compute | by vm_compute]. Qed.

(** The port of a state of the session, and the parts of the state. *)
Definition port_of (w : World (list item) Acm) : UsbSerial := default fresh_port (the_port w).
Definition device_of (w : World (list item) Acm) : UsbAcmDevice := dev (w_svc w).
Definition kit_of (w : World (list item) Acm) : UsbFn := fn (w_svc w).

Lemma session_parts w :
  acm_inv false w ->
  idle (device_of w) (port_of w) (kit_of w) /\ acm_lock (device_of w) = false /\ told (device_of w) (kit_of w) /\
  w_svc w = at_ (device_of w) (g_inFifo (w_svc w)) (g_speed (w_svc w)) (port_of w) (kit_of w).
Proof.
  intros (a & g & s & p & f & E & [H1 H2 H3 H4 H5 H6 H7] & _).
  unfold device_of, port_of, kit_of, the_port. rewrite E. cbn.
  split_and!; [|done..]. split; [done | by eapply port_ok_device | done | done].
Qed.

Definition speed_of (w : World (list item) Acm) : ReadSpeed := g_speed (w_svc w).

(** Membership in the requests in flight, computed. *)
Lemma inflight_at (i r : nat) k (l : list (nat * complete_fn)) : l !! i = Some (r, k) -> (r, k) ∈ l.
Proof. apply list_elem_of_lookup_2. Qed.

Lemma received_op_ok : op_ok acm_written (DoComplete 1 0 packet 4).
Proof.
  exists ReadComplete. split; [apply (inflight_at 0); by vm_compute | split; [by vm_compute | cbn; lia]].
Qed.
Lemma received_step :
  (exists ret, acm_exec (DoComplete 1 0 packet 4) acm_written = Some (ret, acm_received)) /\ released acm_received /\
  acm_inv false acm_received.
Proof.
  apply (session_step (DoComplete 1 0 packet 4)); [apply written_step | apply received_op_ok | by vm_compute].
Qed.

(** The session as a run; "hello" was accepted for the host. *)
Lemma session_run :
  acm_run acm_world0 [DoOpen; DoEnable; DoWrite 0; DoComplete 1 0 packet 4] [104; 101; 108; 108; 111] acm_received.
Proof.
  change [104; 101; 108; 108; 111] with ([] ++ [] ++ [104; 101; 108; 108; 111] ++ [] ++ @nil Z).
  destruct opened_step as ([r1 E1] & R1 & _), enabled_step as ([r2 E2] & R2 & _),
    written_step as ([r3 E3] & R3 & _), received_step as ([r4 E4] & R4 & _).
  refine (run_step _ DoOpen _ r1 _ _ _ I E1 R1 _).
  refine (run_step _ DoEnable _ r2 _ _ _ I E2 R2 _).
  replace [104; 101; 108; 108; 111] with (accepted acm_enabled (DoWrite 0) r3).
  - refine (run_step _ (DoWrite 0) _ r3 _ _ _ (mk_is_Some _ [IString "hello"] _) E3 R3 _); [by vm_compute|].
    refine (run_step _ (DoComplete 1 0 packet 4) _ r4 _ _ _ received_op_ok E4 R4 _). constructor.
  - assert (option_map (fun '(ret, _) => accepted acm_enabled (DoWrite 0) ret) (acm_exec (DoWrite 0) acm_enabled) =
      Some [104; 101; 108; 108; 111]) as H by by vm_compute.
    rewrite E3 in H. cbn [option_map] in H. by injection H.
Qed.

(** ** The theorems at work *)
Definition request_of (w : World (list item) Acm) (r : nat) : UsbFnRequest :=
  default (mkReq [] 0 0 0 ReadComplete) (fn_reqs (kit_of w) !! r).

Lemma written_idle : idle (device_of acm_written) (port_of acm_written) (kit_of acm_written).
Proof. apply (session_parts acm_written), written_step. Qed.

Lemma read_completion_witness :
  exists s' p' f',
    complete_io 1 0 packet 4 (at_ (device_of acm_written) 1 (speed_of acm_written) (port_of acm_written)
      (kit_of acm_written)) = Some (tt, at_ (device_of acm_written) 1 s' p' f') /\
    contents (readFifo p') = [111; 107; 0; 33].
Proof.
  destruct (read_completion (device_of acm_written) 1 (speed_of acm_written) (port_of acm_written)
    (kit_of acm_written) 1 (request_of acm_written 1) 0 packet 4) as (s' & p' & f' & E & _ & _ & Hc & _).
  - exact written_idle.
  - apply (inflight_at 0). by vm_compute.
  - by vm_compute.
  - by vm_compute.
  - by vm_compute.
  - cbn; lia.
  - exists s', p', f'. split; [exact E|]. rewrite Hc. by vm_compute.
Defined.

Lemma write_completion_witness :
  exists p' f',
    complete_io 9 0 (replicate 64 0) 5 (at_ (device_of acm_written) 1 (speed_of acm_written) (port_of acm_written)
      (kit_of acm_written)) = Some (tt, at_ (device_of acm_written) 1 (speed_of acm_written) p' f') /\
    tx_stream p' f' = [104; 101; 108; 108; 111].
Proof.
  destruct (write_completion (device_of acm_written) 1 (speed_of acm_written) (port_of acm_written)
    (kit_of acm_written) 9 (request_of acm_written 9) 0 (replicate 64 0) 5) as (p' & f' & E & _ & _ & Ht & _).
  - exact written_idle.
  - apply (inflight_at 9). by vm_compute.
  - by vm_compute.
  - by vm_compute.
  - by vm_compute.
  - exists p', f'. split; [exact E|]. rewrite Ht. by vm_compute.
Defined.

Lemma notify_completion_witness :
  exists a' f',
    complete_io 0 0 (replicate 16 0) 10 (at_ (device_of acm_written) 1 (speed_of acm_written) (port_of acm_written)
      (kit_of acm_written)) = Some (tt, at_ a' 1 (speed_of acm_written) (port_of acm_written) f') /\
    serialState a' = 3 /\ told a' f'.
Proof.
  destruct (session_parts acm_written) as (Hi & Hl & Ht & _); [apply written_step|].
  destruct (notify_completion (device_of acm_written) 1 (speed_of acm_written) (port_of acm_written)
    (kit_of acm_written) 0 (request_of acm_written 0) 0 (replicate 16 0) 10)
    as (a' & f' & E & _ & _ & Hs & _ & Ht' & _).
  - apply Hi.
  - exact Hl.
  - exact Ht.
  - apply (inflight_at 8). by vm_compute.
  - by vm_compute.
  - by vm_compute.
  - by vm_compute.
  - exists a', f'. split; [exact E|]. rewrite Hs. split; [by vm_compute | exact Ht'].
Defined.

Lemma break_signal_witness :
  exists ret a' f',
    AcmSendBreak 500 (at_ (device_of acm_written) 1 (speed_of acm_written) (port_of acm_written)
      (kit_of acm_written)) = Some (ret, at_ a' 1 (speed_of acm_written) (port_of acm_written) f') /\
    serialState a' = 7 /\ told a' f'.
Proof.
  destruct (session_parts acm_written) as (Hi & Hl & Ht & _); [apply written_step|].
  destruct (break_signal 500 (device_of acm_written) 1 (speed_of acm_written) (port_of acm_written)
    (kit_of acm_written)) as (ret & a' & f' & E & _ & Hs & _ & Ht' & _).
  - apply Hi.
  - exact Hl.
  - exists ret, a', f'. split; [exact E|]. rewrite Hs. split; [by vm_compute | exact Ht'].
Defined.

(** The enabled port with 70 bytes that wait. *)
Definition waiting_fifo : DataFifo :=
  match DataFifoWrite (writeFifo (port_of acm_enabled)) (replicate 70 7) 70 with
  | Some (fifo, _) => fifo
  | None => writeFifo (port_of acm_enabled)
  end.
Definition waiting_port : UsbSerial := set_writeFifo waiting_fifo (port_of acm_enabled).

Lemma waiting_ok :
  pipes_ok (device_of acm_enabled) /\ port_ok (device_of acm_enabled) waiting_port (kit_of acm_enabled).
Proof.
  destruct (session_parts acm_enabled) as ([H1 H2 _ _] & _ & _ & _); [apply enabled_step|]. split; [done|].
  assert (fifo_ok waiting_fifo /\ fifo_size waiting_fifo = WRITE_BUF_SIZE) as [Hf Hs].
  { unfold waiting_fifo.
    destruct (DataFifoWrite_spec (writeFifo (port_of acm_enabled)) (replicate 70 7) 70) as (f & E & Hf & _ & Hs & _);
      [apply H2 | split; [lia | by vm_compute] |].
    rewrite E. split; [done|]. rewrite Hs. by vm_compute. }
  replace waiting_port with (set_writeFifo waiting_fifo (set_readFifo (readFifo (port_of acm_enabled)) (port_of acm_enabled)))
    by (unfold waiting_port; by destruct (port_of acm_enabled)).
  apply set_port_fifo; [done | apply H2 | done | apply H2 | by right].
Qed.

Lemma refused_loses_bytes_witness :
  exists ret p' f',
    @UsbSerialStartTx refusing_kit queue_status (at_ (device_of acm_enabled) 1 (speed_of acm_enabled) waiting_port
      (kit_of acm_enabled)) = Some (ret, at_ (device_of acm_enabled) 1 (speed_of acm_enabled) p' f') /\
    ret <> HDF_SUCCESS /\ contents (writeFifo p') = replicate 6 7.
Proof.
  destruct (refused_loses_bytes (DD := refusing_kit) (device_of acm_enabled) 1 (speed_of acm_enabled) waiting_port
    (kit_of acm_enabled) 9 (seq 10 7)) as (ret & p' & f' & E & Hr & Hc & _).
  - apply waiting_ok.
  - apply waiting_ok.
  - by vm_compute.
  - by vm_compute.
  - by vm_compute.
  - by intros q.
  - exists ret, p', f'. split; [exact E|]. split; [exact Hr|]. rewrite Hc. by vm_compute.
Defined.

Lemma acm_safe_witness :
  exists ret w, acm_exec DoClose acm_received = Some (ret, w).
Proof.
  destruct (acm_safe acm_world0 [DoOpen; DoEnable; DoWrite 0; DoComplete 1 0 packet 4] [104; 101; 108; 108; 111]
    acm_received DoClose) as [_ (ret & w & E & _)].
  - exact acm_world0_inv.
  - exact session_run.
  - exact I.
  - exists ret, w. exact E.
Defined.

Lemma tx_in_order_witness :
  tx_of acm_received = tx_of acm_world0 ++ [104; 101; 108; 108; 111].
Proof.
  apply (tx_in_order acm_world0 [DoOpen; DoEnable; DoWrite 0; DoComplete 1 0 packet 4] [104; 101; 108; 108; 111]).
  - exact acm_world0_inv.
  - exact session_run.
  - reflexivity.
Defined.

Lemma serial_write_witness :
  exists w, acm_exec (DoWrite 0) acm_enabled = Some (5, w) /\
    tx_of w = tx_of acm_enabled ++ [104; 101; 108; 108; 111].
Proof.
  destruct (serial_write acm_enabled 0 [IString "hello"] "hello" []) as (w & E & _ & _ & Ht).
  - apply enabled_step.
  - by vm_compute.
  - reflexivity.
  - exact queue_reliable.
  - exists w. split; [|rewrite Ht; by vm_compute].
    etransitivity; [exact E|]. by vm_compute.
Defined.

Lemma serial_read_witness :
  exists w, acm_exec (DoRead 1) acm_received = Some (0, w) /\
    w_sbufs w !! 1%nat = Some [IString "ok"] /\ rx_of w = [33].
Proof.
  destruct (serial_read acm_received 1 []) as (w & sr & E & _ & Hs & Hv & Hr & _).
  - apply received_step.
  - by vm_compute.
  - exact queue_reliable.
  - reflexivity.
  - exists w. split; [exact E|]. split.
    + rewrite Hs, lookup_insert_eq. f_equal. etransitivity; [exact Hv|]. by vm_compute.
    + rewrite Hr. by vm_compute.
Defined.

Lemma write_error_deadlocks_witness :
  exists w, acm_exec (DoWrite 2) acm_enabled = Some (HDF_ERR_IO, w) /\ acm_exec DoClose w = None.
Proof.
  destruct (write_error_deadlocks acm_enabled 2 []) as (w & E & H).
  - apply enabled_step.
  - by vm_compute.
  - reflexivity.
  - exists w. split; [exact E|]. apply H. reflexivity.
Defined.
