(* ===== verification/UsbDesc.v ===== *)
(** * UsbDesc: the configuration descriptor parser of the USB host kit

    [usb/ddk/host/src/usb_raw_api_library.c], lines 132-664 and 1113-1172, and
    the data of [usb/interfaces/ddk/host/usb_raw_api.h] and [usb_ddk.h].  The
    bytes come from the device.  A pointer into the buffer is the list of the
    bytes behind it; [size] is the variable of the code, which need not agree
    with what is left of the buffer.  The loops take fuel: running out of it is
    an outcome of its own, so that a loop that never ends can be told from an
    access that is undefined. *)
From S2P Require Import Prelude Hdf.
Open Scope Z_scope.

(** ** Outcomes *)
Inductive outcome (A : Type) := Done (a : A) | Undefined | Running.
Arguments Done {A} a.
Arguments Undefined {A}.
Arguments Running {A}.

(** The memory of [RawUsbMemCalloc]; a block is named by the number of its
    request. *)
Record Ram := mkRam { ram_live : gset nat; ram_next : nat }.

(** Whether a request for memory is granted. *)
Class RamAlloc := ram_ok : nat -> Z -> bool.

(** A program over a state [S]; [P] is one that only uses memory. *)
Definition Prog (S A : Type) : Type := S -> outcome (A * S).
#[global] Instance P_ret {S} : MRet (Prog S) := fun A a r => Done (a, r).
#[global] Instance P_bind {S} : MBind (Prog S) := fun A B k m r =>
  match m r with Done (a, r') => k a r' | Undefined => Undefined | Running => Running end.
Definition crash {S A} : Prog S A := fun _ => Undefined.
Definition no_fuel {S A} : Prog S A := fun _ => Running.
Abbreviation P := (Prog Ram).

(** Reading a byte, or the first [n] bytes, behind a pointer. *)
Definition byte_at (bs : list Z) (k : nat) : P Z :=
  match bs !! k with Some b => mret b | None => crash end.
Definition bytes_at (bs : list Z) (n : nat) : P (list Z) :=
  if decide (n <= length bs)%nat then mret (take n bs) else crash.

(** ** Constants *)
Definition DESC_HEADER_LENGTH : Z := 2.
Definition USB_MAXENDPOINTS : Z := 32.
Definition USB_MAXINTERFACES : Z := 32.
Definition USB_MAXALTSETTING : Z := 128.
Definition USB_DDK_DT_CONFIG : Z := 0x02.
Definition USB_DDK_DT_INTERFACE : Z := 0x04.
Definition USB_DDK_DT_ENDPOINT : Z := 0x05.
Definition USB_DDK_DT_ENDPOINT_SIZE : Z := 0x07.
Definition USB_DDK_DT_CONFIG_SIZE : Z := 0x09.
Definition USB_DDK_DT_INTERFACE_SIZE : Z := 0x09.
Definition USB_DDK_DT_ENDPOINT_AUDIO_SIZE : Z := 0x09.

(** The further status codes of this code; every error is negative. *)
Class UsbStatus := {
  HDF_DEV_ERR_NORANGE : Z;
  HDF_ERR_BAD_FD : Z;
  HDF_ERR_NOT_SUPPORT : Z;
}.
Class UsbStatusLaws {HS : HdfStatus} {US : UsbStatus} := {
  us_success : HDF_SUCCESS = 0;
  us_io : HDF_ERR_IO < 0;
  us_malloc : HDF_ERR_MALLOC_FAIL < 0;
  us_norange : HDF_DEV_ERR_NORANGE < 0;
  us_failure : HDF_FAILURE < 0;
  us_failure_io : HDF_FAILURE <> HDF_ERR_IO;
  us_bad_fd : HDF_ERR_BAD_FD < 0;
}.

(** ** Data *)
Record UsbConfigDescriptor := mkConfigDesc {
  c_bLength : Z;
  c_bDescriptorType : Z;
  wTotalLength : Z;
  bNumInterfaces : Z;
  bConfigurationValue : Z;
  iConfiguration : Z;
  c_bmAttributes : Z;
  bMaxPower : Z;
}.
Record UsbInterfaceDescriptor := mkInterfaceDesc {
  i_bLength : Z;
  i_bDescriptorType : Z;
  bInterfaceNumber : Z;
  bAlternateSetting : Z;
  bNumEndpoints : Z;
  bInterfaceClass : Z;
  bInterfaceSubClass : Z;
  bInterfaceProtocol : Z;
  iInterface : Z;
}.
Record UsbEndpointDescriptor := mkEndpointDesc {
  e_bLength : Z;
  e_bDescriptorType : Z;
  bEndpointAddress : Z;
  e_bmAttributes : Z;
  wMaxPacketSize : Z;
  bInterval : Z;
  bRefresh : Z;
  bSynchAddress : Z;
}.

(** A pointer to a heap block: the block and what it holds. *)
Abbreviation ptr A := (option (nat * A)%type).

Record UsbRawEndpointDescriptor := mkRawEndpoint {
  endpointDescriptor : UsbEndpointDescriptor;
  e_extra : ptr (list Z);
  e_extraLength : Z;
}.
Record UsbRawInterfaceDescriptor := mkRawAlt {
  interfaceDescriptor : UsbInterfaceDescriptor;
  endPoint : ptr (list UsbRawEndpointDescriptor);
  i_extra : ptr (list Z);
  i_extraLength : Z;
}.
(** [altsetting] has the entries there is memory for. *)
Record UsbRawInterface := mkRawInterface {
  numAltsetting : Z;
  altsetting : list UsbRawInterfaceDescriptor;
}.
Record UsbRawConfigDescriptor := mkRawConfig {
  configDescriptor : UsbConfigDescriptor;
  interface : list (ptr UsbRawInterface);
  c_extra : ptr (list Z);
  c_extraLength : Z;
}.

(** What [calloc] leaves. *)
Definition zero_endpoint : UsbRawEndpointDescriptor :=
  mkRawEndpoint (mkEndpointDesc 0 0 0 0 0 0 0 0) None 0.
Definition zero_alt : UsbRawInterfaceDescriptor :=
  mkRawAlt (mkInterfaceDesc 0 0 0 0 0 0 0 0 0) None None 0.
Definition zero_config : UsbRawConfigDescriptor :=
  mkRawConfig (mkConfigDesc 0 0 0 0 0 0 0 0) (replicate (Z.to_nat USB_MAXINTERFACES) None) None 0.

Definition set_bNumEndpoints (n : Z) (d : UsbInterfaceDescriptor) : UsbInterfaceDescriptor :=
  mkInterfaceDesc (i_bLength d) (i_bDescriptorType d) (bInterfaceNumber d) (bAlternateSetting d) n
    (bInterfaceClass d) (bInterfaceSubClass d) (bInterfaceProtocol d) (iInterface d).
Definition set_interfaceDescriptor v (a : UsbRawInterfaceDescriptor) := mkRawAlt v (endPoint a) (i_extra a) (i_extraLength a).
Definition set_endPoint v (a : UsbRawInterfaceDescriptor) := mkRawAlt (interfaceDescriptor a) v (i_extra a) (i_extraLength a).
Definition set_i_extra v n (a : UsbRawInterfaceDescriptor) := mkRawAlt (interfaceDescriptor a) (endPoint a) v n.
Definition set_e_extra v n (e : UsbRawEndpointDescriptor) := mkRawEndpoint (endpointDescriptor e) v n.
Definition set_configDescriptor v (c : UsbRawConfigDescriptor) := mkRawConfig v (interface c) (c_extra c) (c_extraLength c).
Definition set_interface v (c : UsbRawConfigDescriptor) := mkRawConfig (configDescriptor c) v (c_extra c) (c_extraLength c).
Definition set_c_extra v n (c : UsbRawConfigDescriptor) := mkRawConfig (configDescriptor c) (interface c) v n.
Definition set_bNumInterfaces (n : Z) (d : UsbConfigDescriptor) : UsbConfigDescriptor :=
  mkConfigDesc (c_bLength d) (c_bDescriptorType d) (wTotalLength d) n
    (bConfigurationValue d) (iConfiguration d) (c_bmAttributes d) (bMaxPower d).

(** The sizes of the structures that are allocated, for the memory requests. *)
Class UsbSizes := {
  sizeof_UsbRawConfigDescriptor : Z;
  sizeof_UsbRawInterface : Z;
  sizeof_UsbRawInterfaceDescriptor : Z;
  sizeof_UsbRawEndpointDescriptor : Z;
}.
Class UsbSizesLaws {SZ : UsbSizes} := {
  sz_config : 0 < sizeof_UsbRawConfigDescriptor;
  sz_interface : 0 < sizeof_UsbRawInterface;
  sz_alt : 0 < sizeof_UsbRawInterfaceDescriptor;
  sz_endpoint : 0 < sizeof_UsbRawEndpointDescriptor;
}.

(** A little-endian 16-bit field. *)
Definition word16 (lo hi : Z) : Z := lo + 256 * hi.
Definition u64 (z : Z) : Z := z `mod` 2 ^ 64.

Section parser.
Context {HS : HdfStatus} {US : UsbStatus} {RA : RamAlloc} {SZ : UsbSizes}.

(** ** Memory *)
Definition RawUsbMemCalloc (size : Z) : P (option nat) := fun r =>
  if size =? 0 then Done (None, r)
  else if ram_ok (ram_next r) size
       then Done (Some (ram_next r), mkRam ({[ram_next r]} ∪ ram_live r) (S (ram_next r)))
       else Done (None, mkRam (ram_live r) (S (ram_next r))).
Definition RawUsbMemAlloc (size : Z) : P (option nat) := RawUsbMemCalloc size.
Definition RawUsbMemFree (b : nat) : P unit := fun r =>
  if decide (b ∈ ram_live r) then Done (tt, mkRam (ram_live r ∖ {[b]}) (ram_next r)) else Undefined.
Definition free_ptr {A} (p : ptr A) : P unit :=
  match p with Some (b, _) => RawUsbMemFree b | None => mret tt end.

(** ** Walking the descriptors *)

(** The search of [nIntf] for a number: the first [i < num] that holds it. *)
Fixpoint find_number (nIntf : list Z) (inum : Z) (num i : nat) : P nat :=
  match num with
  | O => mret i
  | S num' =>
      match nIntf !! i with
      | None => crash
      | Some n => if n =? inum then mret i else find_number nIntf inum num' (S i)
      end
  end.

(** The counters [num], [nIntf] and [nAlts]. *)
Definition GetInterfaceNumberDes (bs : list Z) (num : nat) (nIntf nAlts : list Z) : P (nat * (list Z * list Z)) :=
  bLength ← byte_at bs 0;
  if bLength <? USB_DDK_DT_INTERFACE_SIZE then mret (num, (nIntf, nAlts))
  else
    inum ← byte_at bs 2;
    i ← find_number nIntf inum num 0;
    if (i <? num)%nat then
      match nAlts !! i with
      | None => crash
      | Some n => if n <? USB_MAXALTSETTING then mret (num, (nIntf, <[i := u8 (n + 1)]> nAlts))
                  else mret (num, (nIntf, nAlts))
      end
    else if Z.of_nat num <? USB_MAXINTERFACES then
      if decide (num < length nIntf)%nat then
        if decide (num < length nAlts)%nat then mret (S num, (<[num := inum]> nIntf, <[num := 1]> nAlts))
        else crash
      else crash
    else mret (num, (nIntf, nAlts)).

Fixpoint GetInterfaceNumber (fuel : nat) (bs : list Z) (size : Z) (num : nat) (nIntf nAlts : list Z) :
    P (nat * (list Z * list Z)) :=
  match fuel with
  | O => no_fuel
  | S fuel =>
      if 0 <? size then
        if size <? DESC_HEADER_LENGTH then mret (num, (nIntf, nAlts))
        else
          bLength ← byte_at bs 0;
          if (size <? bLength) || (bLength <? 2) then mret (num, (nIntf, nAlts))
          else
            bDescriptorType ← byte_at bs 1;
            '(num, (nIntf, nAlts)) ← (if bDescriptorType =? USB_DDK_DT_INTERFACE
                                      then GetInterfaceNumberDes bs num nIntf nAlts
                                      else mret (num, (nIntf, nAlts)));
            GetInterfaceNumber fuel (drop (Z.to_nat bLength) bs) (u64 (size - bLength)) num nIntf nAlts
      else mret (num, (nIntf, nAlts))
  end.

(** The offset of the next interface or endpoint descriptor, [off] bytes into
    the search; [size] is a [size_t]. *)
Fixpoint FindNextDescriptor (fuel : nat) (bs : list Z) (size : Z) (off : Z) : P Z :=
  match fuel with
  | O => no_fuel
  | S fuel =>
      if 0 <? size then
        bDescriptorType ← byte_at bs 1;
        if (bDescriptorType =? USB_DDK_DT_INTERFACE) || (bDescriptorType =? USB_DDK_DT_ENDPOINT) then mret (i32 off)
        else
          bLength ← byte_at bs 0;
          FindNextDescriptor fuel (drop (Z.to_nat bLength) bs) (u64 (size - bLength)) (off + bLength)
      else mret (i32 off)
  end.

(** ** Copying a descriptor out of the buffer *)
Definition ParseConfigDescriptor (bs : list Z) : P UsbConfigDescriptor :=
  l ← bytes_at bs 9;
  match l with
  | [b0; b1; b2; b3; b4; b5; b6; b7; b8] => mret (mkConfigDesc b0 b1 (word16 b2 b3) b4 b5 b6 b7 b8)
  | _ => crash
  end.
Definition ParseInterfaceDescriptor (bs : list Z) : P UsbInterfaceDescriptor :=
  l ← bytes_at bs 9;
  match l with
  | [b0; b1; b2; b3; b4; b5; b6; b7; b8] => mret (mkInterfaceDesc b0 b1 b2 b3 b4 b5 b6 b7 b8)
  | _ => crash
  end.
(** Seven bytes leave the last two fields alone. *)
Definition ParseEndpointDescriptor (bs : list Z) (d : UsbEndpointDescriptor) : P UsbEndpointDescriptor :=
  l ← bytes_at bs 7;
  match l with
  | [b0; b1; b2; b3; b4; b5; b6] => mret (mkEndpointDesc b0 b1 b2 b3 (word16 b4 b5) b6 (bRefresh d) (bSynchAddress d))
  | _ => crash
  end.
Definition ParseAudioEndpointDescriptor (bs : list Z) : P UsbEndpointDescriptor :=
  l ← bytes_at bs 9;
  match l with
  | [b0; b1; b2; b3; b4; b5; b6; b7; b8] => mret (mkEndpointDesc b0 b1 b2 b3 (word16 b4 b5) b6 b7 b8)
  | _ => crash
  end.

(** ** Endpoints *)
Definition ParseEndpoint (fuel : nat) (e : UsbRawEndpointDescriptor) (bs : list Z) (size : Z) :
    P (Z * UsbRawEndpointDescriptor) :=
  if size <? DESC_HEADER_LENGTH then mret (HDF_ERR_IO, e)
  else
    bDescriptorType ← byte_at bs 1;
    bLength ← byte_at bs 0;
    if negb (bDescriptorType =? USB_DDK_DT_ENDPOINT) || (size <? bLength) then mret (0, e)
    else if bLength <? USB_DDK_DT_ENDPOINT_SIZE then mret (HDF_ERR_IO, e)
    else
      d ← (if USB_DDK_DT_ENDPOINT_AUDIO_SIZE <=? bLength then ParseAudioEndpointDescriptor bs
           else ParseEndpointDescriptor bs (endpointDescriptor e));
      let e := mkRawEndpoint d (e_extra e) (e_extraLength e) in
      let bs := drop (Z.to_nat bLength) bs in
      let size := size - bLength in
      len ← FindNextDescriptor fuel bs (u64 size) 0;
      if len =? 0 then mret (bLength, e)
      else
        extra ← RawUsbMemAlloc (u64 len);
        match extra with
        | None => mret (HDF_ERR_MALLOC_FAIL, e)
        | Some b =>
            l ← bytes_at bs (Z.to_nat len);
            mret (bLength + len, set_e_extra (Some (b, l)) len e)
        end.

(** The loop over the endpoints of an alternate setting: what [ParseEndpoint]
    returned last, the number of endpoints, the array and the buffer. *)
Fixpoint endpoint_loop (fuel n i : nat) (bNum : Z) (eps : list UsbRawEndpointDescriptor) (ret : Z)
    (bs : list Z) (size : Z) : P (Z * Z * list UsbRawEndpointDescriptor * (list Z * Z)) :=
  match n with
  | O => mret (ret, bNum, eps, (bs, size))
  | S n =>
      match eps !! i with
      | None => crash
      | Some e =>
          '(ret, e) ← ParseEndpoint fuel e bs size;
          let eps := <[i := e]> eps in
          if ret =? 0 then mret (ret, Z.of_nat i, eps, (bs, size))
          else if ret <? 0 then mret (ret, bNum, eps, (bs, size))
          else endpoint_loop fuel n (S i) bNum eps ret (drop (Z.to_nat ret) bs) (size - ret)
      end
  end.

Definition ParseInterfaceEndpoint (fuel : nat) (ifp : UsbRawInterfaceDescriptor) (bs : list Z) (size : Z) :
    P (Z * UsbRawInterfaceDescriptor * (list Z * Z)) :=
  let n := bNumEndpoints (interfaceDescriptor ifp) in
  if 0 <? n then
    a ← RawUsbMemCalloc (n * sizeof_UsbRawEndpointDescriptor);
    match a with
    | None => mret (HDF_ERR_MALLOC_FAIL, ifp, (bs, size))
    | Some b =>
        '(ret, n', eps, (bs, size)) ← endpoint_loop fuel (Z.to_nat n) 0 n (replicate (Z.to_nat n) zero_endpoint)
                                        HDF_SUCCESS bs size;
        mret (ret, set_endPoint (Some (b, eps))
                     (set_interfaceDescriptor (set_bNumEndpoints n' (interfaceDescriptor ifp)) ifp), (bs, size))
    end
  else mret (HDF_SUCCESS, ifp, (bs, size)).

(** ** Interfaces *)
Definition RawParseDescriptor (size : Z) (bs : list Z) (ifp : UsbRawInterfaceDescriptor) :
    P (Z * UsbRawInterfaceDescriptor) :=
  d ← ParseInterfaceDescriptor bs;
  let ifp := set_interfaceDescriptor d ifp in
  let ret :=
    if negb (i_bDescriptorType d =? USB_DDK_DT_INTERFACE) || (size <? i_bLength d) then HDF_FAILURE
    else if (i_bLength d <? USB_DDK_DT_INTERFACE_SIZE) || (USB_MAXENDPOINTS <? bNumEndpoints d) then HDF_ERR_IO
    else HDF_SUCCESS in
  mret (ret, ifp).

Definition ParseInterfaceCopy (ifp : UsbRawInterfaceDescriptor) (len : Z) (bs : list Z) :
    P (Z * UsbRawInterfaceDescriptor) :=
  a ← RawUsbMemAlloc (u64 len);
  match a with
  | None => mret (HDF_ERR_MALLOC_FAIL, set_i_extra None (i_extraLength ifp) ifp)
  | Some b =>
      l ← bytes_at bs (Z.to_nat len);
      mret (0, set_i_extra (Some (b, l)) len ifp)
  end.

(** What follows the descriptor of an alternate setting: the descriptors that
    belong to it and its endpoints.  The result is the buffer behind them, or
    the status to return. *)
Definition parse_alt (fuel : nat) (ifp : UsbRawInterfaceDescriptor) (bs : list Z) (size : Z) :
    P (UsbRawInterfaceDescriptor * (Z + list Z * Z)) :=
  len ← FindNextDescriptor fuel bs (u64 size) 0;
  '(ret, ifp) ← (if len =? 0 then mret (0, ifp) else ParseInterfaceCopy ifp len bs);
  if negb (ret =? 0) then mret (ifp, inl ret)
  else
    '(ret, ifp, next) ← ParseInterfaceEndpoint fuel ifp (drop (Z.to_nat len) bs) (size - len);
    if ret <? HDF_SUCCESS then mret (ifp, inl ret) else mret (ifp, inr next).

(** Whether the loop of [ParseInterface] ends before the next descriptor. *)
Definition other_interface (bs : list Z) (size inum : Z) : P bool :=
  if size <? USB_DDK_DT_INTERFACE_SIZE then mret true
  else
    t ← byte_at bs 1;
    if negb (t =? USB_DDK_DT_INTERFACE) then mret true
    else n ← byte_at bs 2; mret (negb (n =? inum)).

(** The loop of [ParseInterface]; [off] is how far it went, [inum] the number of
    the interface or -1. *)
Fixpoint interface_loop (fuel : nat) (u : UsbRawInterface) (bs : list Z) (size off inum : Z) :
    P (Z * UsbRawInterface) :=
  match fuel with
  | O => no_fuel
  | S fuel' =>
      if size <? USB_DDK_DT_INTERFACE_SIZE then mret (off, u)
      else
        let k := Z.to_nat (numAltsetting u) in
        match altsetting u !! k with
        | None => crash
        | Some ifp =>
            '(ret, ifp) ← RawParseDescriptor size bs ifp;
            let u := mkRawInterface (numAltsetting u) (<[k := ifp]> (altsetting u)) in
            if ret =? HDF_FAILURE then mret (off, u)
            else if ret =? HDF_ERR_IO then mret (ret, u)
            else
              let num := u8 (numAltsetting u + 1) in
              let ifp := set_endPoint None (set_i_extra None 0 ifp) in
              let d := interfaceDescriptor ifp in
              let inum := if inum =? -1 then bInterfaceNumber d else inum in
              '(ifp, next) ← parse_alt fuel ifp (drop (Z.to_nat (i_bLength d)) bs) (size - i_bLength d);
              let u := mkRawInterface num (<[k := ifp]> (altsetting u)) in
              match next with
              | inl ret => mret (ret, u)
              | inr (bs', size') =>
                  let off := off + (size - size') in
                  stop ← other_interface bs' size' inum;
                  if (stop : bool) then mret (off, u) else interface_loop fuel' u bs' size' off inum
              end
        end
  end.

Definition ParseInterface (fuel : nat) (u : UsbRawInterface) (bs : list Z) (size : Z) : P (Z * UsbRawInterface) :=
  if USB_MAXALTSETTING <? numAltsetting u then mret (HDF_DEV_ERR_NORANGE, u)
  else interface_loop fuel u bs size 0 (-1).

(** ** Releasing a configuration *)
Definition ClearEndpoint (e : UsbRawEndpointDescriptor) : P unit := free_ptr (e_extra e).

(** The first [n] elements of an array, which must exist. *)
Fixpoint each {A} (n i : nat) (l : list A) (f : A -> P unit) : P unit :=
  match n with
  | O => mret tt
  | S n => match l !! i with None => crash | Some a => f a;; each n (S i) l f end
  end.

Definition clear_alt (a : UsbRawInterfaceDescriptor) : P unit :=
  free_ptr (i_extra a);;
  match endPoint a with
  | None => mret tt
  | Some (b, eps) =>
      each (Z.to_nat (bNumEndpoints (interfaceDescriptor a))) 0 eps ClearEndpoint;;
      RawUsbMemFree b
  end.

Definition ClearInterface (p : ptr UsbRawInterface) : P unit :=
  match p with
  | None => mret tt
  | Some (b, u) =>
      if USB_MAXALTSETTING <? numAltsetting u then mret tt
      else each (Z.to_nat (numAltsetting u)) 0 (altsetting u) clear_alt;; RawUsbMemFree b
  end.

Definition RawClearConfiguration (c : UsbRawConfigDescriptor) : P UsbRawConfigDescriptor :=
  let n := Z.to_nat (bNumInterfaces (configDescriptor c)) in
  each n 0 (interface c) ClearInterface;;
  let c := set_interface (replicate n None ++ drop n (interface c)) c in
  free_ptr (c_extra c);;
  mret (set_c_extra None (c_extraLength c) c).

(** ** The configuration *)

(** The interface the code works on is the one with index [cur], or none. *)
Fixpoint config_loop (fuel : nat) (c : UsbRawConfigDescriptor) (bs : list Z) (size : Z) (cur : option nat)
    (nIntf : list Z) : P (Z * UsbRawConfigDescriptor) :=
  match fuel with
  | O => no_fuel
  | S fuel' =>
      if 0 <? size then
        let num := Z.to_nat (bNumInterfaces (configDescriptor c)) in
        cur ← (match num with
               | O => mret cur
               | S _ =>
                   inum ← byte_at bs 2;
                   i ← find_number nIntf inum num 0;
                   mret (if (i <? num)%nat then Some i else cur)
               end);
        match (i ← cur; interface c !! i) with
        | Some (Some (b, u)) =>
            '(ret, u) ← ParseInterface fuel u bs size;
            let c := set_interface (<[default 0%nat cur := Some (b, u)]> (interface c)) c in
            if ret <? 0 then c ← RawClearConfiguration c; mret (ret, c)
            else config_loop fuel' c (drop (Z.to_nat ret) bs) (size - ret) cur nIntf
        | _ => c ← RawClearConfiguration c; mret (HDF_DEV_ERR_NORANGE, c)
        end
      else mret (size, c)
  end.

Definition ParseConfigurationDes (fuel : nat) (c : UsbRawConfigDescriptor) (bs : list Z) (size : Z)
    (cur : option nat) (nIntf : list Z) : P (Z * UsbRawConfigDescriptor) :=
  len ← FindNextDescriptor fuel bs (u64 size) 0;
  if len =? 0 then config_loop fuel c bs size cur nIntf
  else
    a ← RawUsbMemAlloc len;
    match a with
    | None =>
        c ← RawClearConfiguration (set_c_extra None (c_extraLength c) c); mret (HDF_ERR_MALLOC_FAIL, c)
    | Some b =>
        l ← bytes_at bs (Z.to_nat len);
        config_loop fuel (set_c_extra (Some (b, l)) len c) (drop (Z.to_nat len) bs) (size - len) cur nIntf
    end.

(** Memory for the interfaces from the [i]-th on; whether there was enough. *)
Fixpoint alloc_interfaces (n i : nat) (nAlts : list Z) (c : UsbRawConfigDescriptor) :
    P (bool * UsbRawConfigDescriptor) :=
  match n with
  | O => mret (true, c)
  | S n =>
      match nAlts !! i with
      | None => crash
      | Some j =>
          let j := if USB_MAXALTSETTING <? j then USB_MAXALTSETTING else j in
          a ← RawUsbMemCalloc (sizeof_UsbRawInterface + sizeof_UsbRawInterfaceDescriptor * j);
          match a with
          | None => mret (false, set_interface (<[i := None]> (interface c)) c)
          | Some b =>
              alloc_interfaces n (S i) nAlts
                (set_interface (<[i := Some (b, mkRawInterface 0 (replicate (Z.to_nat j) zero_alt))]> (interface c)) c)
          end
      end
  end.

Definition ParseConfiguration (fuel : nat) (c : UsbRawConfigDescriptor) (bs : list Z) (size : Z) :
    P (Z * UsbRawConfigDescriptor) :=
  if size <? USB_DDK_DT_CONFIG_SIZE then mret (HDF_ERR_IO, c)
  else
    d ← ParseConfigDescriptor bs;
    let c := set_configDescriptor d c in
    if negb (c_bDescriptorType d =? USB_DDK_DT_CONFIG) || (c_bLength d <? USB_DDK_DT_CONFIG_SIZE)
       || (u8 size <? c_bLength d) || (USB_MAXINTERFACES <? bNumInterfaces d) then mret (HDF_ERR_IO, c)
    else
      let zeros := replicate (Z.to_nat USB_MAXINTERFACES) 0 in
      '(num, (nIntf, nAlts)) ← GetInterfaceNumber fuel bs size 0 zeros zeros;
      let c := set_configDescriptor (set_bNumInterfaces (u8 (Z.of_nat num)) d) c in
      '(ok, c) ← alloc_interfaces num 0 nAlts c;
      if negb ok then mret (HDF_ERR_MALLOC_FAIL, c)
      else
        ParseConfigurationDes fuel c (drop (Z.to_nat (c_bLength d)) bs) (size - c_bLength d)
          (match num with O => None | S n => Some n end) nIntf.

(** The status and what [*config] is set to. *)
Definition DescToConfig (fuel : nat) (bs : list Z) (size : Z) : P (Z * ptr UsbRawConfigDescriptor) :=
  a ← RawUsbMemCalloc sizeof_UsbRawConfigDescriptor;
  match a with
  | None => mret (HDF_ERR_MALLOC_FAIL, None)
  | Some b =>
      '(ret, c) ← ParseConfiguration fuel zero_config bs size;
      if ret <? 0 then RawUsbMemFree b;; mret (ret, None) else mret (ret, Some (b, c))
  end.

(** ** Reading the descriptors of a device

    [getConfigDescriptor] of the adapter: for a buffer of the given size, a
    status or byte count and what the buffer holds afterwards.  It may not be
    there. *)
Context (getConfigDescriptor : option (Z -> Z -> Z * list Z)).

Definition GetConfigDescriptor (configIdx size : Z) : P (Z * list Z) :=
  match getConfigDescriptor with
  | None => mret (HDF_ERR_NOT_SUPPORT, replicate (Z.to_nat size) 0)
  | Some get =>
      let '(ret, buf) := get configIdx size in
      if ret <? 0 then mret (ret, buf)
      else if ret <? USB_DDK_DT_CONFIG_SIZE then mret (HDF_ERR_IO, buf)
      else mret (ret, buf)
  end.

Definition RawGetConfigDescriptor (fuel : nat) (bNumConfigurations configIndex : Z) :
    P (Z * ptr UsbRawConfigDescriptor) :=
  if bNumConfigurations <? configIndex then mret (HDF_ERR_BAD_FD, None)
  else
    '(ret, tmp) ← GetConfigDescriptor configIndex USB_DDK_DT_CONFIG_SIZE;
    if ret <? HDF_SUCCESS then mret (ret, None)
    else
      lo ← byte_at tmp 2;
      hi ← byte_at tmp 3;
      let configLen := word16 lo hi in
      a ← RawUsbMemAlloc configLen;
      match a with
      | None => mret (HDF_ERR_MALLOC_FAIL, None)
      | Some b =>
          '(ret, buf) ← GetConfigDescriptor configIndex configLen;
          '(ret, config) ← (if HDF_SUCCESS <=? ret then DescToConfig fuel buf ret else mret (ret, None));
          RawUsbMemFree b;; mret (ret, config)
      end.

(** ** The interface of the raw API: [usb_raw_api.c], 82-104

    A device is its [bNumConfigurations]; [None] stands for a null pointer. *)
Definition UsbRawGetConfigDescriptor (fuel : nat) (rawDev : option Z) (configIndex : Z) :
    P (Z * ptr UsbRawConfigDescriptor) :=
  match rawDev with
  | None => mret (HDF_ERR_INVALID_PARAM, None)
  | Some bNumConfigurations => RawGetConfigDescriptor fuel bNumConfigurations configIndex
  end.

Definition UsbRawFreeConfigDescriptor (config : ptr UsbRawConfigDescriptor) : P unit :=
  match config with
  | None => mret tt
  | Some (b, c) => c ← RawClearConfiguration c; RawUsbMemFree b
  end.
End parser.
