(* ===== verification/UsbDescSpec.v ===== *)
(** * UsbDescSpec: what a configuration descriptor means

    The grammar of the descriptors a device sends, as trees with their bytes,
    and what the parsed structures of [UsbDesc] should say about them.  Nothing
    here refers to the parser. *)
From S2P Require Import Prelude Hdf UsbDesc.
Open Scope Z_scope.

(** ** Trees *)

(** A descriptor is the list of its bytes. *)
Definition desc : Type := list Z.
Record endpoint_tree := ETree { et_desc : desc; et_extra : list desc }.
Record alt_tree := ATree { at_desc : desc; at_extra : list desc; at_eps : list endpoint_tree }.
Record config_tree := CTree { ct_desc : desc; ct_extra : list desc; ct_alts : list alt_tree }.

(** The descriptors of a tree in the order they are sent. *)
Definition endpoint_descs (e : endpoint_tree) : list desc := et_desc e :: et_extra e.
Definition alt_descs (a : alt_tree) : list desc :=
  at_desc a :: at_extra a ++ concat (map endpoint_descs (at_eps a)).
Definition config_descs (c : config_tree) : list desc :=
  ct_desc c :: ct_extra c ++ concat (map alt_descs (ct_alts c)).

Definition endpoint_bytes (e : endpoint_tree) : list Z := concat (endpoint_descs e).
Definition alt_bytes (a : alt_tree) : list Z := concat (alt_descs a).
Definition config_bytes (c : config_tree) : list Z := concat (config_descs c).

(** ** Well-formedness *)

(** The first byte is the length, the second the type. *)
Record desc_ok (min : nat) (t : Z) (d : desc) : Prop := DescOk {
  do_length : d !! 0%nat = Some (Z.of_nat (length d));
  do_type : d !! 1%nat = Some t;
  do_min : (min <= length d)%nat;
  do_bytes : Forall (fun b => 0 <= b < 256) d;
}.

(** A descriptor that belongs to the one before it. *)
Definition extra_ok (d : desc) : Prop :=
  exists t, t <> USB_DDK_DT_INTERFACE /\ t <> USB_DDK_DT_ENDPOINT /\ desc_ok 2 t d.

Record endpoint_ok (e : endpoint_tree) : Prop := EndpointOk {
  eo_desc : desc_ok 7 USB_DDK_DT_ENDPOINT (et_desc e);
  eo_extra : Forall extra_ok (et_extra e);
}.
Record alt_ok (a : alt_tree) : Prop := AltOk {
  ao_desc : desc_ok 9 USB_DDK_DT_INTERFACE (at_desc a);
  ao_eps_count : at_desc a !! 4%nat = Some (Z.of_nat (length (at_eps a)));
  ao_eps_max : Z.of_nat (length (at_eps a)) <= USB_MAXENDPOINTS;
  ao_extra : Forall extra_ok (at_extra a);
  ao_eps : Forall endpoint_ok (at_eps a);
}.

(** The number of the interface an alternate setting belongs to. *)
Definition alt_number (a : alt_tree) : Z := nth 2 (at_desc a) 0.

(** The interface numbers in the order of their first appearance. *)
Definition add_number (l : list Z) (n : Z) : list Z := if decide (n ∈ l) then l else l ++ [n].
Definition numbers (alts : list alt_tree) : list Z := foldl add_number [] (map alt_number alts).
Definition alts_of (n : Z) (alts : list alt_tree) : list alt_tree := filter (fun a => alt_number a = n) alts.

Record config_ok (c : config_tree) : Prop := ConfigOk {
  go_desc : desc_ok 9 USB_DDK_DT_CONFIG (ct_desc c);
  go_num : nth 4 (ct_desc c) 0 <= USB_MAXINTERFACES;
  go_extra : Forall extra_ok (ct_extra c);
  go_alts : Forall alt_ok (ct_alts c);
  go_numbers : Z.of_nat (length (numbers (ct_alts c))) <= USB_MAXINTERFACES;
  go_alts_max : forall n, Z.of_nat (length (alts_of n (ct_alts c))) <= USB_MAXALTSETTING;
  go_total : Z.of_nat (length (config_bytes c)) < 2 ^ 16;
}.

(** ** Meaning *)
Definition byte (d : desc) (k : nat) : Z := nth k d 0.

(** The structures without the names of their memory blocks. *)
Record endpoint_view := EView { ev_desc : UsbEndpointDescriptor; ev_extra : list Z; ev_extraLength : Z }.
Record alt_view := AView {
  av_desc : UsbInterfaceDescriptor; av_endpoints : list endpoint_view; av_extra : list Z; av_extraLength : Z;
}.
Record config_view := CView {
  cv_desc : UsbConfigDescriptor; cv_interfaces : list (list alt_view); cv_extra : list Z; cv_extraLength : Z;
}.

(** Of an endpoint descriptor of less than nine bytes the last two fields are
    not there. *)
Definition mean_endpoint (e : endpoint_tree) : endpoint_view :=
  let d := et_desc e in
  EView (mkEndpointDesc (byte d 0) (byte d 1) (byte d 2) (byte d 3) (word16 (byte d 4) (byte d 5)) (byte d 6)
           (if decide (9 <= length d)%nat then byte d 7 else 0) (if decide (9 <= length d)%nat then byte d 8 else 0))
    (concat (et_extra e)) (Z.of_nat (length (concat (et_extra e)))).
Definition mean_alt (a : alt_tree) : alt_view :=
  let d := at_desc a in
  AView (mkInterfaceDesc (byte d 0) (byte d 1) (byte d 2) (byte d 3) (byte d 4) (byte d 5) (byte d 6) (byte d 7) (byte d 8))
    (map mean_endpoint (at_eps a)) (concat (at_extra a)) (Z.of_nat (length (concat (at_extra a)))).
Definition mean_config (c : config_tree) : config_view :=
  let d := ct_desc c in
  CView (mkConfigDesc (byte d 0) (byte d 1) (word16 (byte d 2) (byte d 3)) (Z.of_nat (length (numbers (ct_alts c))))
           (byte d 5) (byte d 6) (byte d 7) (byte d 8))
    (map (fun n => map mean_alt (alts_of n (ct_alts c))) (numbers (ct_alts c)))
    (concat (ct_extra c)) (Z.of_nat (length (concat (ct_extra c)))).

(** What a parsed structure says. *)
Definition held {A} (p : ptr (list A)) : list A := match p with Some (_, l) => l | None => [] end.
Definition view_endpoint (e : UsbRawEndpointDescriptor) : endpoint_view :=
  EView (endpointDescriptor e) (held (e_extra e)) (e_extraLength e).
Definition view_alt (a : UsbRawInterfaceDescriptor) : alt_view :=
  AView (interfaceDescriptor a) (map view_endpoint (held (endPoint a))) (held (i_extra a)) (i_extraLength a).
Definition view_interface (p : ptr UsbRawInterface) : list alt_view :=
  match p with
  | Some (_, u) => map view_alt (take (Z.to_nat (numAltsetting u)) (altsetting u))
  | None => []
  end.
Definition view_config (c : UsbRawConfigDescriptor) : config_view :=
  CView (configDescriptor c)
    (map view_interface (take (Z.to_nat (bNumInterfaces (configDescriptor c))) (interface c)))
    (held (c_extra c)) (c_extraLength c).

(** ** The memory of a structure *)
Definition ptr_block {A} (p : ptr A) : list nat := match p with Some (b, _) => [b] | None => [] end.
Definition endpoint_blocks (e : UsbRawEndpointDescriptor) : list nat := ptr_block (e_extra e).
Definition alt_blocks (a : UsbRawInterfaceDescriptor) : list nat :=
  ptr_block (i_extra a) ++ ptr_block (endPoint a) ++ concat (map endpoint_blocks (held (endPoint a))).
Definition interface_blocks (p : ptr UsbRawInterface) : list nat :=
  match p with Some (b, u) => b :: concat (map alt_blocks (altsetting u)) | None => [] end.
Definition config_blocks (c : UsbRawConfigDescriptor) : list nat :=
  concat (map interface_blocks (interface c)) ++ ptr_block (c_extra c).
