(* ===== verification/UsbDescFacts.v ===== *)
(** * UsbDescFacts: walking a well-formed configuration

    Proof rules of the parser monad, the memory a step takes, and what the two
    walks over the descriptors find. *)
From S2P Require Import Prelude Hdf Arrays UsbDesc UsbDescSpec.
Open Scope Z_scope.

(** ** Proof rules *)

(** [runs m r Q]: [m] ends, without undefined behaviour, as [Q] says. *)
Definition runs {S A} (m : Prog S A) (r : S) (Q : A -> S -> Prop) : Prop :=
  match m r with Done (a, r') => Q a r' | _ => False end.
Arguments runs {S A} m r Q : simpl never.

Section rules.
Context {S A B : Type}.
Implicit Types (m : Prog S A) (r : S).

Lemma runs_ret (a : A) r (Q : A -> S -> Prop) : Q a r -> runs (mret a) r Q.
Proof. done. Qed.

Lemma runs_bind m (k : A -> Prog S B) r (Q : B -> S -> Prop) :
  runs m r (fun a r' => runs (k a) r' Q) -> runs (m ≫= k) r Q.
Proof. unfold runs, mbind, P_bind. by destruct (m r) as [[a r']| |]. Qed.

Lemma runs_mono m r (Q1 Q2 : A -> S -> Prop) :
  runs m r Q1 -> (forall a r', Q1 a r' -> Q2 a r') -> runs m r Q2.
Proof. unfold runs. destruct (m r) as [[a r']| |]; eauto. Qed.

Lemma after_done m (k : A -> Prog S B) a r r' : m r = Done (a, r') -> (m ≫= k) r = k a r'.
Proof. intros E. unfold mbind, P_bind. by rewrite E. Qed.

Lemma runs_inv m r (Q : A -> S -> Prop) : runs m r Q -> exists a r', m r = Done (a, r') /\ Q a r'.
Proof. unfold runs. destruct (m r) as [[a r']| |]; [eauto | done..]. Qed.
End rules.

Lemma runs_byte_at bs k b r (Q : Z -> Ram -> Prop) :
  bs !! k = Some b -> Q b r -> runs (byte_at bs k) r Q.
Proof. intros E H. unfold byte_at. by rewrite E. Qed.

Lemma runs_bytes_at bs n r (Q : list Z -> Ram -> Prop) :
  (n <= length bs)%nat -> Q (take n bs) r -> runs (bytes_at bs n) r Q.
Proof. intros E H. unfold bytes_at. by rewrite decide_True. Qed.

(** ** Memory *)

(** The blocks [l] were taken from [r] to [r']. *)
Record grown (l : list nat) (r r' : Ram) : Prop := Grown {
  gr_live : ram_live r' = ram_live r ∪ list_to_set l;
  gr_next : (ram_next r <= ram_next r')%nat;
  gr_distinct : NoDup l;
  gr_fresh : Forall (fun b => (ram_next r <= b < ram_next r')%nat) l;
}.

Lemma grown_refl r : grown [] r r.
Proof. split; [set_solver | lia | constructor | constructor]. Qed.

Lemma grown_trans l1 l2 r1 r2 r3 : grown l1 r1 r2 -> grown l2 r2 r3 -> grown (l1 ++ l2) r1 r3.
Proof.
  intros [H1 H2 H3 H4] [K1 K2 K3 K4]. split; [rewrite K1, H1, list_to_set_app_L; set_solver | lia | |].
  - apply NoDup_app. split; [done|]. split; [|done]. intros b Hb Hb'.
    eapply Forall_forall in H4; [|done]. eapply Forall_forall in K4; [|done]. cbn in *. lia.
  - apply Forall_app_2; eapply Forall_impl; [exact H4 | cbn; lia | exact K4 | cbn; lia].
Qed.

Lemma grown_perm l l' r r' : l ≡ₚ l' -> grown l r r' -> grown l' r r'.
Proof.
  intros E [H1 H2 H3 H4]. split; [by rewrite H1, (list_to_set_perm_L _ _ E) | done | by rewrite <- E |].
  by rewrite <- E.
Qed.

(** No live block is named like a coming one. *)
Definition ram_wf (r : Ram) : Prop := forall b, b ∈ ram_live r -> (b < ram_next r)%nat.

Section memory.
Context {RA : RamAlloc}.

(** Every request for memory is granted. *)
Definition ram_granted : Prop := forall n size, 0 < size -> ram_ok n size = true.
(** Some request is refused. *)
Definition ram_refused : Prop := exists n size, 0 < size /\ ram_ok n size = false.

Lemma granted_refused : ram_granted -> ram_refused -> False.
Proof. intros H (n & size & Hs & E). by rewrite H in E. Qed.

Lemma runs_calloc size r (Q : option nat -> Ram -> Prop) :
  0 < size ->
  (forall b r', grown [b] r r' -> Q (Some b) r') ->
  (ram_refused -> forall r', grown [] r r' -> Q None r') ->
  runs (RawUsbMemCalloc size) r Q.
Proof.
  intros Hs H1 H2. unfold runs, RawUsbMemCalloc. destruct (Z.eqb_spec size 0); [lia|].
  destruct (ram_ok (ram_next r) size) eqn:E.
  - apply H1. split; cbn; [set_solver | lia | apply NoDup_singleton | constructor; [lia | constructor]].
  - apply H2; [by exists (ram_next r), size|].
    split; cbn; [set_solver | lia | constructor | constructor].
Qed.
End memory.

Lemma runs_free b r (Q : unit -> Ram -> Prop) :
  b ∈ ram_live r -> Q tt (mkRam (ram_live r ∖ {[b]}) (ram_next r)) -> runs (RawUsbMemFree b) r Q.
Proof. intros H HQ. unfold runs, RawUsbMemFree. by rewrite decide_True. Qed.

(** ** Bytes of descriptors *)


Lemma len_app l1 l2 : len (l1 ++ l2) = len l1 + len l2.
Proof. unfold len. rewrite length_app. lia. Qed.
Lemma len_nonneg l : 0 <= len l.
Proof. unfold len. lia. Qed.
Lemma drop_len l1 l2 : drop (Z.to_nat (len l1)) (l1 ++ l2) = l2.
Proof. unfold len. rewrite Nat2Z.id. by rewrite drop_app_length. Qed.
Lemma take_len l1 l2 : take (Z.to_nat (len l1)) (l1 ++ l2) = l1.
Proof. unfold len. rewrite Nat2Z.id. by rewrite take_app_length. Qed.
Lemma u64_id z : 0 <= z < 2 ^ 64 -> u64 z = z.
Proof. intros H. by apply Z.mod_small. Qed.

Lemma desc_head min t d rest : desc_ok min t d -> (d ++ rest) !! 0%nat = Some (len d).
Proof. intros [H _ _ _]. by apply lookup_app_l_Some. Qed.
Lemma desc_type min t d rest : desc_ok min t d -> (d ++ rest) !! 1%nat = Some t.
Proof. intros [_ H _ _]. by apply lookup_app_l_Some. Qed.
Lemma desc_two min t d : desc_ok min t d -> 2 <= len d < 256.
Proof.
  intros [H1 H2 _ H4]. apply lookup_lt_Some in H2. unfold len.
  eapply Forall_lookup_1 in H4; [|exact H1]. cbn in H4. lia.
Qed.
Lemma desc_byte min t d k rest : desc_ok min t d -> (k < min)%nat -> (d ++ rest) !! k = Some (byte d k).
Proof.
  intros [_ _ H _] Hk. rewrite lookup_app_l by lia. unfold byte.
  destruct (lookup_lt_is_Some_2 d k ltac:(lia)) as [x E]. by rewrite E, (nth_lookup_Some _ _ _ _ E).
Qed.
Lemma desc_weaken min min' t d : desc_ok min t d -> (min' <= min)%nat -> desc_ok min' t d.
Proof. intros [H1 H2 H3 H4] Hm. split; [done | done | lia | done]. Qed.

(** Every length and byte of the walk fits its type. *)
Ltac zl := unfold len in *; rewrite ?length_app in *; try lia.

(** What the search stops at: the end, an interface or an endpoint. *)
Definition stops (rest : list Z) : Prop :=
  rest = [] \/ rest !! 1%nat = Some USB_DDK_DT_INTERFACE \/ rest !! 1%nat = Some USB_DDK_DT_ENDPOINT.

Lemma extra_two d : extra_ok d -> 2 <= len d.
Proof. intros (t & _ & _ & H). apply desc_two in H. lia. Qed.

Lemma extras_length ds : Forall extra_ok ds -> 2 * Z.of_nat (length ds) <= len (concat ds).
Proof.
  induction 1 as [|d ds Hd Hds IH]; [done|]. cbn [concat]. rewrite len_app. cbn [length].
  apply extra_two in Hd. lia.
Qed.

Lemma find_next fuel ds rest off r :
  Forall extra_ok ds -> stops rest -> 0 <= off ->
  off + len (concat ds ++ rest) < 2 ^ 31 -> (length (concat ds ++ rest) < fuel)%nat ->
  FindNextDescriptor fuel (concat ds ++ rest) (len (concat ds ++ rest)) off r =
    Done (off + len (concat ds), r).
Proof.
  intros Hds Hrest. revert fuel off. induction Hds as [|d ds Hd Hds IH]; intros fuel off Ho Hmax Hf.
  - destruct fuel as [|fuel]; [lia|]. cbn [concat app] in *. replace (off + len []) with off by (unfold len; cbn; lia).
    pose proof (len_nonneg rest). simpl. destruct Hrest as [->|Hrest].
    + cbn. unfold mret, P_ret. rewrite i32_id by lia. done.
    + assert (0 < len rest).
      { unfold len. destruct rest; [by destruct Hrest | cbn; lia]. }
      rewrite (proj2 (Z.ltb_lt _ _)) by lia. unfold byte_at, mret, P_ret, mbind, P_bind.
      destruct Hrest as [E|E]; rewrite E; cbn; by rewrite i32_id by lia.
  - destruct fuel as [|fuel]; [lia|]. destruct Hd as (t & Hn4 & Hn5 & Hd).
    pose proof (desc_two _ _ _ Hd) as Hl. cbn [concat] in *. rewrite <- app_assoc in *.
    set (tail := concat ds ++ rest) in *. pose proof (len_nonneg tail).
    rewrite length_app in Hf. rewrite len_app in Hmax. simpl. rewrite !len_app.
    rewrite (proj2 (Z.ltb_lt _ _)) by lia. unfold byte_at, mret, P_ret, mbind, P_bind.
    rewrite (desc_type _ _ _ _ Hd), (desc_head _ _ _ _ Hd).
    rewrite (proj2 (Z.eqb_neq _ _) Hn4), (proj2 (Z.eqb_neq _ _) Hn5). cbn [orb].
    rewrite drop_len, u64_id by lia. replace (len d + len tail - len d) with (len tail) by lia.
    rewrite IH by (unfold len in *; lia). do 2 f_equal. lia.
Qed.

(** ** The interfaces of a buffer

    The arrays [nIntf] and [nAlts] hold a tally: how often each interface
    number was seen, in the order of first appearance. *)
Definition tally : Type := list (Z * Z).
Definition nIntf_of (t : tally) : list Z := t.*1 ++ replicate (32 - length t) 0.
Definition nAlts_of (t : tally) : list Z := t.*2 ++ replicate (32 - length t) 0.

Definition more (k : Z) : Z := if k <? USB_MAXALTSETTING then k + 1 else k.
Fixpoint bump (t : tally) (n : Z) : tally :=
  match t with
  | [] => [(n, 1)]
  | (m, k) :: t => if m =? n then (m, more k) :: t else (m, k) :: bump t n
  end.
Definition tally_add (t : tally) (n : Z) : tally :=
  if decide (n ∈ t.*1 \/ (length t < 32)%nat) then bump t n else t.

Record tally_ok (t : tally) : Prop := TallyOk {
  to_distinct : NoDup t.*1;
  to_length : (length t <= 32)%nat;
  to_counts : Forall (fun k => 1 <= k <= USB_MAXALTSETTING) t.*2;
}.

Fixpoint index_of (l : list Z) (n : Z) : nat :=
  match l with [] => O | m :: l => if m =? n then O else S (index_of l n) end.

Lemma index_of_le l n : (index_of l n <= length l)%nat.
Proof. induction l as [|m l IH]; cbn; [lia|]. case_match; lia. Qed.

Lemma index_of_elem l n : n ∈ l <-> (index_of l n < length l)%nat.
Proof.
  induction l as [|m l IH]; cbn; [split; [by intros ?%not_elem_of_nil | lia]|].
  rewrite elem_of_cons, IH. destruct (Z.eqb_spec m n) as [->|]; [split; [lia | auto]|].
  split; [intros [->|]; [done | lia] | right; lia].
Qed.

Lemma index_of_lookup l n i : l !! i = Some n -> NoDup l -> index_of l n = i.
Proof.
  revert i. induction l as [|m l IH]; intros [|i] E Hd; try done; cbn in *.
  - injection E as ->. by rewrite Z.eqb_refl.
  - apply NoDup_cons in Hd as [Hm Hd]. destruct (Z.eqb_spec m n) as [->|]; [|by rewrite (IH i)].
    by apply list_elem_of_lookup_2 in E.
Qed.

Lemma find_number_spec pre l zs n r :
  find_number (pre ++ l ++ zs) n (length l) (length pre) r = Done ((length pre + index_of l n)%nat, r).
Proof.
  revert pre. induction l as [|m l IH]; intros pre; simpl find_number; [cbn; by rewrite Nat.add_0_r|].
  rewrite list_lookup_middle by done. simpl index_of. destruct (Z.eqb_spec m n); [by rewrite Nat.add_0_r|].
  cbn [app]. replace (pre ++ m :: l ++ zs) with ((pre ++ [m]) ++ l ++ zs) by (by rewrite <- app_assoc).
  replace (S (length pre)) with (length (pre ++ [m])) by (rewrite length_app; cbn; lia).
  rewrite IH, length_app. cbn [length]. do 2 f_equal. lia.
Qed.

Lemma bump_names t n : (bump t n).*1 = if decide (n ∈ t.*1) then t.*1 else t.*1 ++ [n].
Proof.
  induction t as [|[m k] t IH]; cbn [bump]; [done|]. destruct (Z.eqb_spec m n) as [->|Hne].
  - rewrite decide_True by (cbn; by left). done.
  - rewrite !fmap_cons. cbn. rewrite IH. destruct (decide (n ∈ t.*1)).
    + rewrite decide_True by (by right). done.
    + rewrite decide_False; [done|]. intros [->|]%elem_of_cons; done.
Qed.

Lemma bump_counts t n :
  (bump t n).*2 = if decide (n ∈ t.*1) then alter more (index_of t.*1 n) t.*2 else t.*2 ++ [1].
Proof.
  induction t as [|[m k] t IH]; cbn [bump]; [done|]. destruct (Z.eqb_spec m n) as [->|Hne].
  - rewrite decide_True by (cbn; by left). cbn. by rewrite Z.eqb_refl.
  - rewrite !fmap_cons. cbn. rewrite IH, (proj2 (Z.eqb_neq _ _) Hne). destruct (decide (n ∈ t.*1)).
    + rewrite decide_True by (by right). done.
    + rewrite decide_False; [done|]. intros [->|]%elem_of_cons; done.
Qed.

Lemma bump_length t n : length (bump t n) = if decide (n ∈ t.*1) then length t else S (length t).
Proof.
  rewrite <- (length_fmap fst), bump_names. destruct (decide _); rewrite ?length_app, length_fmap; cbn; lia.
Qed.

Lemma tally_add_ok t n : tally_ok t -> tally_ok (tally_add t n).
Proof.
  intros [H1 H2 H3]. unfold tally_add. destruct (decide _) as [Hn|Hn]; [|by split]. split.
  - rewrite bump_names. destruct (decide _) as [|Hin]; [done|]. apply NoDup_app.
    split; [done|]. split; [|apply NoDup_singleton]. by intros x Hx ->%list_elem_of_singleton.
  - rewrite bump_length. destruct (decide _); [done | tauto || lia].
  - rewrite bump_counts. destruct (decide _).
    + apply Forall_alter; [done|]. intros k _ Hk. unfold more. destruct (Z.ltb_spec k USB_MAXALTSETTING); lia.
    + apply Forall_app_2; [done|]. constructor; [unfold USB_MAXALTSETTING; lia | constructor].
Qed.

Lemma alter_insert (f : Z -> Z) (l : list Z) i k : l !! i = Some k -> alter f i l = <[i := f k]> l.
Proof.
  revert i. induction l as [|a l IH]; intros [|i]; cbn; try done; [by intros [= ->]|].
  intros E. f_equal. by apply IH.
Qed.

Lemma fill_insert (l : list Z) n x :
  (length l < n)%nat -> <[length l := x]> (l ++ replicate (n - length l) 0) = (l ++ [x]) ++ replicate (n - S (length l)) 0.
Proof.
  intros H. rewrite insert_app_r_alt, Nat.sub_diag by lia.
  replace (n - length l)%nat with (S (n - S (length l))) by lia. cbn. by rewrite <- app_assoc.
Qed.

(** What is found when an interface descriptor is met. *)
Definition met (t : tally) (bLength n : Z) : tally :=
  if bLength <? USB_DDK_DT_INTERFACE_SIZE then t else tally_add t n.

Lemma interface_met bs bLength n t r :
  tally_ok t -> bs !! 0%nat = Some bLength -> (USB_DDK_DT_INTERFACE_SIZE <= bLength -> bs !! 2%nat = Some n) ->
  GetInterfaceNumberDes bs (length t) (nIntf_of t) (nAlts_of t) r =
    Done ((length (met t bLength n), (nIntf_of (met t bLength n), nAlts_of (met t bLength n))), r).
Proof.
  intros [H1 H2 H3] E0 E2. unfold GetInterfaceNumberDes, met, byte_at, mret, P_ret, mbind, P_bind.
  rewrite E0. destruct (Z.ltb_spec bLength USB_DDK_DT_INTERFACE_SIZE) as [|Hl]; [done|]. rewrite (E2 Hl).
  assert (length t.*1 = length t /\ length t.*2 = length t) as [HL1 HL2] by by rewrite !length_fmap.
  pose proof (find_number_spec [] t.*1 (replicate (32 - length t) 0) n r) as E. cbn in E. rewrite HL1 in E.
  unfold nIntf_of at 1. rewrite E. pose proof (index_of_elem t.*1 n) as Hin. rewrite HL1 in Hin.
  pose proof (index_of_le t.*1 n) as Hle. rewrite HL1 in Hle.
  destruct (Nat.ltb_spec (index_of t.*1 n) (length t)) as [Hi|Hi].
  - assert (n ∈ t.*1) as Hn by by apply Hin.
    destruct (lookup_lt_is_Some_2 t.*2 (index_of t.*1 n)) as [k Ek]; [lia|].
    unfold nAlts_of at 1. rewrite lookup_app_l by lia. rewrite Ek.
    pose proof (Forall_lookup_1 _ _ _ _ H3 Ek) as Hk. cbn in Hk. unfold USB_MAXALTSETTING in *.
    assert (tally_add t n = bump t n) as -> by (unfold tally_add; rewrite decide_True; auto).
    unfold nIntf_of, nAlts_of. rewrite bump_length, bump_names, bump_counts, !(decide_True (P := n ∈ t.*1)) by done.
    rewrite (alter_insert _ _ _ _ Ek). unfold more, USB_MAXALTSETTING. destruct (Z.ltb_spec k 128).
    + rewrite insert_app_l by lia. unfold u8. rewrite Z.mod_small by lia. done.
    + rewrite list_insert_id by done. done.
  - assert (n ∉ t.*1) as Hn by (intros Hn%Hin; lia). unfold USB_MAXINTERFACES.
    destruct (Z.ltb_spec (Z.of_nat (length t)) 32) as [Hlt|Hge].
    + unfold tally_add. rewrite (decide_True (P := n ∈ t.*1 \/ (length t < 32)%nat)) by (right; lia).
      unfold nIntf_of, nAlts_of. rewrite !length_app, length_replicate, HL1, HL2.
      rewrite !decide_True by lia. rewrite bump_length, bump_names, bump_counts, !(decide_False (P := n ∈ t.*1)) by done.
      pose proof (fill_insert t.*1 32 n) as F1. pose proof (fill_insert t.*2 32 1) as F2.
      rewrite HL1 in F1. rewrite HL2 in F2. rewrite F1, F2 by lia. done.
    + unfold tally_add. rewrite decide_False by (intros [?|?]; [done | lia]). done.
Qed.

(** The walk over any buffer ends within the arrays. *)
Lemma GetInterfaceNumber_bounded fuel bs size t r :
  tally_ok t -> 0 <= size <= len bs -> Forall (fun b => 0 <= b < 256) bs -> len bs < 2 ^ 32 -> size < Z.of_nat fuel ->
  exists t', tally_ok t' /\
    GetInterfaceNumber fuel bs size (length t) (nIntf_of t) (nAlts_of t) r =
      Done ((length t', (nIntf_of t', nAlts_of t')), r).
Proof.
  revert bs size t. induction fuel as [|fuel IH]; intros bs size t Ht Hs Hb Hmax Hf; [lia|]. simpl.
  destruct (Z.ltb_spec 0 size); [|by exists t]. unfold DESC_HEADER_LENGTH.
  destruct (Z.ltb_spec size 2); [by exists t|].
  unfold len in *. destruct (lookup_lt_is_Some_2 bs 0) as [l E0]; [lia|].
  destruct (lookup_lt_is_Some_2 bs 1) as [ty E1]; [lia|].
  unfold byte_at, mret, P_ret, mbind, P_bind. rewrite E0.
  destruct (Z.ltb_spec size l) as [|Hl1]; [by exists t|]. destruct (Z.ltb_spec l 2) as [|Hl2]; [by exists t|].
  cbn [orb]. rewrite E1. rewrite u64_id by lia.
  assert (forall t', tally_ok t' -> exists t'', tally_ok t'' /\
    GetInterfaceNumber fuel (drop (Z.to_nat l) bs) (size - l) (length t') (nIntf_of t') (nAlts_of t') r =
      Done (length t'', (nIntf_of t'', nAlts_of t''), r)) as Hrest.
  { intros t' Ht'. apply IH; [done | unfold len; rewrite length_drop; lia | by apply Forall_drop | rewrite length_drop; lia | lia]. }
  destruct (ty =? USB_DDK_DT_INTERFACE); [|by apply Hrest].
  assert (USB_DDK_DT_INTERFACE_SIZE <= l -> bs !! 2%nat = Some (nth 2 bs 0)) as E2.
  { unfold USB_DDK_DT_INTERFACE_SIZE. intros Hl9. destruct (lookup_lt_is_Some_2 bs 2) as [n E2]; [lia|].
    by rewrite E2, (nth_lookup_Some _ _ _ _ E2). }
  rewrite (interface_met bs l (nth 2 bs 0) t r Ht E0 E2). apply Hrest. unfold met.
  destruct (l <? USB_DDK_DT_INTERFACE_SIZE); [done | by apply tally_add_ok].
Qed.

(** Over well-formed descriptors the walk tallies the interface descriptors. *)
Definition note (t : tally) (d : desc) : tally :=
  if byte d 1 =? USB_DDK_DT_INTERFACE then met t (len d) (byte d 2) else t.

Definition plain_ok (d : desc) : Prop := exists t, desc_ok 2 t d.

Lemma plain_byte t d : desc_ok 2 t d -> byte d 1 = t.
Proof.
  intros H. pose proof (desc_byte _ _ _ 1 [] H) as E. rewrite (desc_type _ _ _ _ H) in E. injection E; [done | lia].
Qed.

Lemma note_ok t d : tally_ok t -> tally_ok (note t d).
Proof. intros H. unfold note, met. repeat case_match; auto using tally_add_ok. Qed.

(** What ends the walk: fewer bytes than an interface descriptor, of which none
    is complete. *)
Definition tail_ok (rest : list Z) : Prop :=
  len rest < USB_DDK_DT_INTERFACE_SIZE /\ Forall (fun b => 0 <= b < 256) rest.

Lemma GetInterfaceNumber_tail fuel rest t r :
  tail_ok rest -> tally_ok t -> len rest < Z.of_nat fuel ->
  GetInterfaceNumber fuel rest (len rest) (length t) (nIntf_of t) (nAlts_of t) r =
    Done ((length t, (nIntf_of t, nAlts_of t)), r).
Proof.
  revert rest. induction fuel as [|fuel IH]; intros rest [Hr Hb] Ht Hf; [unfold len in *; lia|]. simpl.
  unfold USB_DDK_DT_INTERFACE_SIZE in *.
  destruct (Z.ltb_spec 0 (len rest)); [|done]. unfold DESC_HEADER_LENGTH.
  destruct (Z.ltb_spec (len rest) 2); [done|]. unfold len in *.
  destruct (lookup_lt_is_Some_2 rest 0) as [l E0]; [lia|]. destruct (lookup_lt_is_Some_2 rest 1) as [ty E1]; [lia|].
  unfold byte_at, mret, P_ret, mbind, P_bind. rewrite E0.
  destruct (Z.ltb_spec (Z.of_nat (length rest)) l) as [|Hl1]; [done|]. destruct (Z.ltb_spec l 2) as [|Hl2]; [done|].
  cbn [orb]. rewrite E1, u64_id by lia.
  assert (GetInterfaceNumber fuel (drop (Z.to_nat l) rest) (Z.of_nat (length rest) - l) (length t) (nIntf_of t)
    (nAlts_of t) r = Done (length t, (nIntf_of t, nAlts_of t), r)) as Hrest.
  { replace (Z.of_nat (length rest) - l) with (Z.of_nat (length (drop (Z.to_nat l) rest))) by (rewrite length_drop; lia).
    apply IH; [split; [unfold len, USB_DDK_DT_INTERFACE_SIZE; rewrite length_drop; lia | by apply Forall_drop] | done | rewrite length_drop; lia]. }
  destruct (ty =? USB_DDK_DT_INTERFACE); [|done].
  rewrite (interface_met rest l 0 t r Ht E0) by (unfold USB_DDK_DT_INTERFACE_SIZE; lia).
  unfold met, USB_DDK_DT_INTERFACE_SIZE. by rewrite (proj2 (Z.ltb_lt l 9)) by lia.
Qed.

Lemma GetInterfaceNumber_descs fuel ds rest t r :
  Forall plain_ok ds -> tail_ok rest -> tally_ok t -> len (concat ds ++ rest) < 2 ^ 32 ->
  len (concat ds ++ rest) < Z.of_nat fuel ->
  let t' := foldl note t ds in
  GetInterfaceNumber fuel (concat ds ++ rest) (len (concat ds ++ rest)) (length t) (nIntf_of t) (nAlts_of t) r =
    Done ((length t', (nIntf_of t', nAlts_of t')), r).
Proof.
  intros Hds. revert fuel t. induction Hds as [|d ds [ty Hd] Hds IH]; intros fuel t Hrest Ht Hmax Hf.
  { by apply GetInterfaceNumber_tail. }
  destruct fuel as [|fuel]; [unfold len in *; lia|]. pose proof (desc_two _ _ _ Hd) as Hl.
  cbn [concat foldl] in *. rewrite <- app_assoc in *. set (tail := concat ds ++ rest) in *.
  rewrite len_app in Hmax, Hf. pose proof (len_nonneg tail). simpl. rewrite !len_app.
  rewrite (proj2 (Z.ltb_lt _ _)) by lia. unfold DESC_HEADER_LENGTH. rewrite (proj2 (Z.ltb_ge _ _)) by lia.
  unfold byte_at, mret, P_ret, mbind, P_bind.
  rewrite (desc_head _ _ _ _ Hd), (desc_type _ _ _ _ Hd). rewrite !(proj2 (Z.ltb_ge _ _)) by lia. cbn [orb].
  rewrite u64_id by lia. replace (len d + len tail - len d) with (len tail) by lia. rewrite drop_len.
  assert (forall t', tally_ok t' -> GetInterfaceNumber fuel tail (len tail) (length t') (nIntf_of t') (nAlts_of t') r =
    Done (length (foldl note t' ds), (nIntf_of (foldl note t' ds), nAlts_of (foldl note t' ds)), r)) as Hnext.
  { intros t' Ht'. apply IH; [done | done | lia | lia]. }
  assert (note t d = if ty =? USB_DDK_DT_INTERFACE then met t (len d) (byte d 2) else t) as ->
    by (unfold note; by rewrite (plain_byte _ _ Hd)).
  destruct (ty =? USB_DDK_DT_INTERFACE); [|by apply Hnext].
  rewrite (interface_met _ (len d) (byte d 2) t r Ht).
  - apply Hnext. unfold met. case_match; [done | by apply tally_add_ok].
  - by eapply desc_head.
  - unfold USB_DDK_DT_INTERFACE_SIZE. intros Hl9.
    apply (desc_byte 9 ty); [|lia]. destruct Hd as [D1 D2 _ D4]. split; [done | done | unfold len in *; lia | done].
Qed.
