(* ===== verification/UsbDescParse.v ===== *)
(** * UsbDescParse: parsing the parts of a well-formed configuration

    Endpoints, alternate settings and interfaces: whatever requests for memory
    are refused, the parser ends, the memory it took is that of the structures
    it filled, and unless it reports an error they say what the bytes mean. *)
From S2P Require Import Prelude Hdf Arrays UsbDesc UsbDescSpec UsbDescFacts.
Open Scope Z_scope.

Section parse.
Context {HS : HdfStatus} {US : UsbStatus} {UL : UsbStatusLaws} {RA : RamAlloc} {SZ : UsbSizes} {SL : UsbSizesLaws}.

(** An error, because memory was refused. *)
Definition failed (ret : Z) : Prop := ram_refused /\ ret < 0.

Lemma malloc_failed : ram_refused -> failed HDF_ERR_MALLOC_FAIL.
Proof. intros H. split; [done | apply us_malloc]. Qed.

(** The buffer of a walk fits an [int32_t], and there is fuel for it. *)
Definition fits (fuel : nat) (bs : list Z) : Prop := len bs < 2 ^ 31 /\ (length bs < fuel)%nat.

Lemma fits_tail fuel l bs : fits fuel (l ++ bs) -> fits fuel bs.
Proof. unfold fits. rewrite len_app, length_app. unfold len. lia. Qed.

Lemma runs_find fuel ds rest r (Q : Z -> Ram -> Prop) :
  Forall extra_ok ds -> stops rest -> fits fuel (concat ds ++ rest) ->
  Q (len (concat ds)) r ->
  runs (FindNextDescriptor fuel (concat ds ++ rest) (u64 (len (concat ds ++ rest))) 0) r Q.
Proof.
  intros Hds Hr [Hm Hf] HQ. unfold runs. pose proof (len_nonneg (concat ds ++ rest)).
  rewrite u64_id by lia. by rewrite find_next.
Qed.

(** ** Endpoints *)
Lemma endpoint_stops e rest : endpoint_ok e -> stops (endpoint_bytes e ++ rest).
Proof.
  intros [H _]. right; right. unfold endpoint_bytes, endpoint_descs. cbn [concat]. rewrite <- app_assoc.
  by eapply desc_type.
Qed.

Lemma endpoints_stop es rest :
  Forall endpoint_ok es -> stops rest -> stops (concat (map endpoint_bytes es) ++ rest).
Proof.
  intros [|e es' He _] Hr; [done|]. cbn [map concat]. rewrite <- app_assoc. by apply endpoint_stops.
Qed.

Lemma runs_parse_endpoint_desc t rest r (Q : UsbEndpointDescriptor -> Ram -> Prop) :
  endpoint_ok t ->
  Q (ev_desc (mean_endpoint t)) r ->
  runs (if USB_DDK_DT_ENDPOINT_AUDIO_SIZE <=? len (et_desc t) then ParseAudioEndpointDescriptor (et_desc t ++ rest)
        else ParseEndpointDescriptor (et_desc t ++ rest) (endpointDescriptor zero_endpoint)) r Q.
Proof.
  intros [[_ _ Hm _] _] HQ. unfold mean_endpoint, byte in HQ. destruct t as [d ex]. cbn in *.
  do 7 (destruct d as [|? d]; [cbn in Hm; lia|]). unfold USB_DDK_DT_ENDPOINT_AUDIO_SIZE.
  destruct (Z.leb_spec 9 (len (z :: z0 :: z1 :: z2 :: z3 :: z4 :: z5 :: d))) as [Hl|Hl]; unfold len in Hl; cbn in Hl.
  - do 2 (destruct d as [|? d]; [cbn in Hl; lia|]). apply runs_bind, runs_bytes_at; [cbn; lia|]. cbn.
    apply runs_ret. rewrite !decide_True in HQ by (cbn; lia). exact HQ.
  - apply runs_bind, runs_bytes_at; [cbn; lia|]. cbn.
    apply runs_ret. rewrite !decide_False in HQ by (cbn; lia). exact HQ.
Qed.

Lemma ParseEndpoint_ok fuel t rest r :
  endpoint_ok t -> stops rest -> fits fuel (endpoint_bytes t ++ rest) ->
  runs (ParseEndpoint fuel zero_endpoint (endpoint_bytes t ++ rest) (len (endpoint_bytes t ++ rest))) r
    (fun p r' => grown (endpoint_blocks p.2) r r' /\
       (p.1 = len (endpoint_bytes t) /\ view_endpoint p.2 = mean_endpoint t \/ failed p.1)).
Proof.
  intros Ht Hr Hf. pose proof Ht as [Hd He]. pose proof (desc_two _ _ _ Hd) as Hl.
  unfold endpoint_bytes, endpoint_descs in *. cbn [concat] in *. rewrite <- app_assoc in *.
  set (tail := concat (et_extra t) ++ rest) in *. pose proof (len_nonneg tail).
  assert (7 <= len (et_desc t)) as H7 by (destruct Hd as [_ _ Hm _]; unfold len; lia).
  unfold ParseEndpoint. rewrite (len_app (et_desc t)), len_app.
  destruct (Z.ltb_spec (len (et_desc t) + len tail) DESC_HEADER_LENGTH) as [?|_]; [unfold DESC_HEADER_LENGTH in *; lia|].
  eapply runs_bind, runs_byte_at; [by eapply desc_type|]. eapply runs_bind, runs_byte_at; [by eapply desc_head|].
  rewrite Z.eqb_refl. cbn [negb orb]. rewrite (proj2 (Z.ltb_ge _ _)) by lia.
  rewrite (proj2 (Z.ltb_ge (len (et_desc t)) USB_DDK_DT_ENDPOINT_SIZE)) by (unfold USB_DDK_DT_ENDPOINT_SIZE; lia).
  apply runs_bind, runs_parse_endpoint_desc; [done|]. rewrite drop_len.
  replace (len (et_desc t) + len tail - len (et_desc t)) with (len tail) by lia.
  apply runs_bind, runs_find; [done | done | by eapply fits_tail|].
  set (ex := concat (et_extra t)) in *. pose proof (len_nonneg ex).
  destruct (Z.eqb_spec (len ex) 0) as [E0|E0].
  - apply runs_ret. split; [apply grown_refl|]. left. cbn. assert (ex = []) as E1 by (apply len_nil; lia).
    split; [lia|]. unfold view_endpoint, mean_endpoint; cbn. fold ex. by rewrite E1.
  - assert (len tail < 2 ^ 31) as Hm by (destruct Hf as [Hf _]; rewrite len_app in Hf; lia).
    unfold tail in Hm. rewrite len_app in Hm. pose proof (len_nonneg rest).
    apply runs_bind, runs_calloc; [rewrite u64_id; lia | | intros Hn r' Hg].
    2:{ apply runs_ret. split; [exact Hg|]. right. by apply malloc_failed. }
    intros b r' Hg. apply runs_bind, runs_bytes_at.
    { unfold tail. rewrite length_app. unfold len. lia. }
    unfold tail. rewrite take_len. apply runs_ret. split; [exact Hg|]. left. split; [cbn; lia|].
    done.
Qed.

Lemma endpoint_bytes_pos e : endpoint_ok e -> 0 < len (endpoint_bytes e).
Proof.
  intros [[_ _ Hm _] _]. unfold endpoint_bytes, endpoint_descs. cbn [concat]. rewrite len_app.
  pose proof (len_nonneg (concat (et_extra e))). unfold len in *. lia.
Qed.

(** The array of endpoints after the loop: what was parsed, then zeros. *)
Lemma endpoint_loop_ok fuel es done_ bNum ret0 rest r :
  Forall endpoint_ok es -> stops rest -> fits fuel (concat (map endpoint_bytes es) ++ rest) -> 0 <= ret0 ->
  runs (endpoint_loop fuel (length es) (length done_) bNum (done_ ++ replicate (length es) zero_endpoint) ret0
          (concat (map endpoint_bytes es) ++ rest) (len (concat (map endpoint_bytes es) ++ rest))) r
    (fun '(ret, n, eps, next) r' => exists new,
       eps = done_ ++ new /\ length new = length es /\ n = bNum /\
       grown (concat (map endpoint_blocks new)) r r' /\
       (0 <= ret /\ next = (rest, len rest) /\ map view_endpoint new = map mean_endpoint es \/ failed ret)).
Proof.
  intros Hes Hr. revert done_ ret0 r. induction Hes as [|e es He Hes IH]; intros done_ ret0 r Hf H0.
  { apply runs_ret. exists []. cbn. split_and!; [by rewrite app_nil_r | done | done | apply grown_refl | by left]. }
  cbn [map concat length replicate] in *. rewrite <- app_assoc in *. set (tail := concat (map endpoint_bytes es) ++ rest) in *.
  simpl. rewrite list_lookup_middle by done. apply runs_bind.
  eapply runs_mono; [apply (ParseEndpoint_ok fuel e tail); [done | by apply endpoints_stop | done]|].
  intros [ret e'] r1 [Hg Hres]. cbn [fst snd] in *. pose proof (endpoint_bytes_pos e He).
  rewrite insert_app_r_alt, Nat.sub_diag by lia. cbn [list_insert insert].
  destruct Hres as [[-> Hv]|[Hn Hneg]].
  - rewrite (proj2 (Z.eqb_neq _ _)), (proj2 (Z.ltb_ge _ _)) by lia. rewrite drop_len, len_app.
    replace (len (endpoint_bytes e) + len tail - len (endpoint_bytes e)) with (len tail) by lia.
    replace (done_ ++ e' :: replicate (length es) zero_endpoint) with ((done_ ++ [e']) ++ replicate (length es) zero_endpoint)
      by (by rewrite <- app_assoc).
    replace (S (length done_)) with (length (done_ ++ [e'])) by (rewrite length_app; cbn; lia).
    eapply runs_mono; [apply IH; [by eapply fits_tail | lia]|].
    intros [[[ret n] eps] next] r2 (new & -> & Hl & Hn & Hg2 & Hres). exists (e' :: new).
    split; [by rewrite <- app_assoc|]. split; [cbn; lia|]. split; [done|].
    split; [by eapply grown_trans|]. destruct Hres as [(? & ? & Hm)|?]; [left | by right].
    split_and!; [done..|]. cbn. by rewrite Hv, Hm.
  - rewrite (proj2 (Z.eqb_neq _ _)), (proj2 (Z.ltb_lt _ _)) by lia. apply runs_ret.
    exists (e' :: replicate (length es) zero_endpoint). split; [done|]. split; [cbn; by rewrite length_replicate|].
    split; [done|]. split; [|by right]. cbn [map concat].
    assert (concat (map endpoint_blocks (replicate (length es) zero_endpoint)) = []) as ->; [|by rewrite app_nil_r].
    clear. induction (length es); cbn; [done | by rewrite IHn].
Qed.

(** The endpoints an alternate setting has are those it counts. *)
Definition alt_shape (a : UsbRawInterfaceDescriptor) : Prop :=
  match endPoint a with
  | Some (_, eps) => bNumEndpoints (interfaceDescriptor a) = Z.of_nat (length eps)
  | None => True
  end.

Lemma ParseInterfaceEndpoint_ok fuel ifp es rest r :
  Forall endpoint_ok es -> bNumEndpoints (interfaceDescriptor ifp) = Z.of_nat (length es) -> endPoint ifp = None ->
  stops rest -> fits fuel (concat (map endpoint_bytes es) ++ rest) ->
  runs (ParseInterfaceEndpoint fuel ifp (concat (map endpoint_bytes es) ++ rest)
          (len (concat (map endpoint_bytes es) ++ rest))) r
    (fun '(ret, ifp', next) r' => exists l,
       grown l r r' /\ alt_blocks ifp' = ptr_block (i_extra ifp) ++ l /\ alt_shape ifp' /\
       (0 <= ret /\ next = (rest, len rest) /\
          view_alt ifp' = AView (interfaceDescriptor ifp) (map mean_endpoint es) (held (i_extra ifp)) (i_extraLength ifp)
        \/ failed ret)).
Proof.
  intros Hes Hn He Hr Hf. unfold ParseInterfaceEndpoint. rewrite Hn. pose proof us_success as Hok.
  assert (alt_blocks ifp = ptr_block (i_extra ifp)) as Hb.
  { unfold alt_blocks. rewrite He. cbn. by rewrite !app_nil_r. }
  destruct (Z.ltb_spec 0 (Z.of_nat (length es))) as [Hpos|Hz].
  - apply runs_bind, runs_calloc.
    { pose proof sz_endpoint. nia. }
    2:{ intros Hng r' Hg. apply runs_ret. exists []. split; [done|]. rewrite app_nil_r. split; [done|].
        split; [unfold alt_shape; by rewrite He|]. right. by apply malloc_failed. }
    intros b r1 Hg. rewrite Nat2Z.id. apply runs_bind.
    eapply runs_mono; [apply (endpoint_loop_ok fuel es [] _ _ rest); [done..| by rewrite Hok]|].
    intros [[[ret n] eps] next] r2 (new & -> & Hl & -> & Hg2 & Hres). destruct next as [bs' size'].
    apply runs_ret. exists ([b] ++ concat (map endpoint_blocks new)).
    split; [by eapply grown_trans|]. split; [done|]. split; [unfold alt_shape; cbn; lia|].
    destruct Hres as [(? & ? & Hm)|?]; [left | by right]. split_and!; [done..|]. unfold view_alt. cbn.
    rewrite Hm. f_equal. destruct (interfaceDescriptor ifp); cbn in *. by rewrite Hn.
  - apply runs_ret. exists []. split; [apply grown_refl|]. rewrite app_nil_r. split; [done|].
    split; [unfold alt_shape; by rewrite He|]. left. rewrite Hok. split; [done|].
    destruct es; [|cbn in Hz; lia]. split; [done|]. unfold view_alt. by rewrite He.
Qed.

(** What belongs to an alternate setting, behind its descriptor. *)
Lemma parse_alt_ok fuel ifp (a : alt_tree) rest r :
  alt_ok a -> bNumEndpoints (interfaceDescriptor ifp) = Z.of_nat (length (at_eps a)) ->
  endPoint ifp = None -> i_extra ifp = None -> i_extraLength ifp = 0 -> stops rest ->
  let bs := concat (at_extra a) ++ concat (map endpoint_bytes (at_eps a)) ++ rest in
  fits fuel bs ->
  runs (parse_alt fuel ifp bs (len bs)) r
    (fun '(ifp', next) r' => grown (alt_blocks ifp') r r' /\ alt_shape ifp' /\
       match next with
       | inl ret => failed ret
       | inr next => next = (rest, len rest) /\
           view_alt ifp' = AView (interfaceDescriptor ifp) (map mean_endpoint (at_eps a)) (concat (at_extra a))
                             (len (concat (at_extra a)))
       end).
Proof.
  intros [_ _ _ Hex Hes] Hn He Hi Hi2 Hr bs Hf. unfold bs in *. clear bs.
  set (tail := concat (map endpoint_bytes (at_eps a)) ++ rest) in *. pose proof us_success as Hok.
  apply runs_bind, runs_find; [done | by apply endpoints_stop | done|].
  set (ex := concat (at_extra a)) in *. pose proof (len_nonneg ex). pose proof (len_nonneg tail).
  assert (fits fuel tail) as Hft by (by eapply fits_tail). rewrite len_app, drop_len.
  replace (len ex + len tail - len ex) with (len tail) by lia.
  assert (forall ifp1 r1, interfaceDescriptor ifp1 = interfaceDescriptor ifp -> endPoint ifp1 = None ->
    grown (ptr_block (i_extra ifp1)) r r1 -> held (i_extra ifp1) = ex -> i_extraLength ifp1 = len ex ->
    runs ('(ret, ifp', next) ← ParseInterfaceEndpoint fuel ifp1 tail (len tail);
          if ret <? HDF_SUCCESS then mret (ifp', inl ret) else mret (ifp', inr next)) r1
    (fun '(ifp', next) r' => grown (alt_blocks ifp') r r' /\ alt_shape ifp' /\
       match next with
       | inl ret => failed ret
       | inr next => next = (rest, len rest) /\
           view_alt ifp' = AView (interfaceDescriptor ifp) (map mean_endpoint (at_eps a)) ex (len ex)
       end)) as Hend.
  { intros ifp1 r1 E1 E2 Hg Hh Hl. apply runs_bind.
    eapply runs_mono; [apply (ParseInterfaceEndpoint_ok fuel ifp1 (at_eps a) rest); [done | by rewrite E1 | done..]|].
    intros [[ret ifp'] next] r2 (l & Hg2 & Hb & Hsh & Hres). rewrite Hok.
    assert (grown (alt_blocks ifp') r r2) as Hg3 by (rewrite Hb; by eapply grown_trans).
    destruct Hres as [(Hret & -> & Hv)|[Hng Hneg]].
    - rewrite (proj2 (Z.ltb_ge _ _)) by lia. apply runs_ret. split_and!; [done..|]. by rewrite Hv, E1, Hh, Hl.
    - rewrite (proj2 (Z.ltb_lt _ _)) by lia. apply runs_ret. by split_and!. }
  destruct (Z.eqb_spec (len ex) 0) as [E0|E0].
  - apply runs_bind, runs_ret. cbn [negb Z.eqb]. apply Hend; [done..| | | by rewrite E0].
    + rewrite Hi. apply grown_refl.
    + rewrite Hi. cbn. symmetry. apply len_nil. lia.
  - assert (len ex < 2 ^ 31) as Hm by (destruct Hf as [Hf _]; rewrite len_app in Hf; lia).
    apply runs_bind. apply runs_bind, runs_calloc; [rewrite u64_id; lia | | intros Hng r' Hg].
    2:{ apply runs_ret. pose proof us_malloc. rewrite (proj2 (Z.eqb_neq _ _)) by lia. apply runs_ret.
        split; [by unfold alt_blocks; cbn; rewrite He|]. split; [unfold alt_shape; cbn; by rewrite He|].
        by apply malloc_failed. }
    intros b r1 Hg. apply runs_bind, runs_bytes_at; [rewrite length_app; unfold len; lia|].
    rewrite take_len. apply runs_ret. cbn [negb Z.eqb]. by apply Hend.
Qed.

(** ** Interfaces *)
Lemma concat_endpoints es : concat (concat (map endpoint_descs es)) = concat (map endpoint_bytes es).
Proof. induction es as [|e es IH]; [done|]. cbn [map concat]. by rewrite concat_app, IH. Qed.

Lemma alt_bytes_split a :
  alt_bytes a = at_desc a ++ concat (at_extra a) ++ concat (map endpoint_bytes (at_eps a)).
Proof. unfold alt_bytes, alt_descs. cbn [concat]. by rewrite concat_app, concat_endpoints. Qed.

Lemma alt_number_byte a : alt_number a = byte (at_desc a) 2.
Proof. done. Qed.

Lemma alt_desc_bytes a : alt_ok a -> 9 <= len (at_desc a) < 256.
Proof. intros [H _ _ _ _]. pose proof (desc_two _ _ _ H). destruct H as [_ _ Hm _]. unfold len in *. lia. Qed.

Lemma alt_number_range a : alt_ok a -> 0 <= alt_number a < 256.
Proof.
  intros Ha. pose proof (alt_desc_bytes a Ha) as Hl. destruct Ha as [[_ _ _ Hb] _ _ _ _].
  destruct (lookup_lt_is_Some_2 (at_desc a) 2) as [x E]; [unfold len in *; lia|].
  unfold alt_number. rewrite (nth_lookup_Some _ _ _ _ E). by eapply Forall_lookup_1 in Hb.
Qed.

Lemma alt_stops a rest : alt_ok a -> stops (alt_bytes a ++ rest).
Proof.
  intros [H _ _ _ _]. right; left. rewrite alt_bytes_split, <- app_assoc. by eapply desc_type.
Qed.
Lemma alts_stop l rest : Forall alt_ok l -> stops rest -> stops (concat (map alt_bytes l) ++ rest).
Proof.
  intros [|a l' Ha _] Hr; [done|]. cbn [map concat]. rewrite <- app_assoc. by apply alt_stops.
Qed.

Lemma RawParseDescriptor_ok a rest ifp r (Q : Z * UsbRawInterfaceDescriptor -> Ram -> Prop) :
  alt_ok a ->
  Q (HDF_SUCCESS, set_interfaceDescriptor (av_desc (mean_alt a)) ifp) r ->
  runs (RawParseDescriptor (len (alt_bytes a ++ rest)) (alt_bytes a ++ rest) ifp) r Q.
Proof.
  intros Ha HQ. pose proof (alt_desc_bytes a Ha) as Hl. pose proof Ha as [Hd Hn Hmax _ _].
  unfold RawParseDescriptor. apply runs_bind.
  assert (runs (ParseInterfaceDescriptor (alt_bytes a ++ rest)) r
    (fun d r' => d = av_desc (mean_alt a) /\ r' = r)) as Hp.
  { rewrite alt_bytes_split. unfold mean_alt. cbn [av_desc]. unfold byte.
    destruct a as [d ex es]; cbn [at_desc at_extra at_eps] in *. unfold len in Hl.
    do 9 (destruct d as [|? d]; [cbn in Hl; lia|]).
    apply runs_bind, runs_bytes_at; [cbn; lia|]. by cbn. }
  eapply runs_mono; [exact Hp|]. intros d r' [-> ->]. apply runs_ret.
  assert (i_bLength (av_desc (mean_alt a)) = len (at_desc a)) as E1.
  { cbn. destruct Hd as [H0 _ _ _]. unfold byte. by rewrite (nth_lookup_Some _ _ _ _ H0). }
  assert (i_bDescriptorType (av_desc (mean_alt a)) = USB_DDK_DT_INTERFACE) as E2.
  { cbn. destruct Hd as [_ H1 _ _]. unfold byte. by rewrite (nth_lookup_Some _ _ _ _ H1). }
  assert (bNumEndpoints (av_desc (mean_alt a)) = Z.of_nat (length (at_eps a))) as E3.
  { cbn. unfold byte. by rewrite (nth_lookup_Some _ _ _ _ Hn). }
  rewrite E1, E2, E3, Z.eqb_refl. cbn [negb orb].
  rewrite (proj2 (Z.ltb_ge _ _)) by (rewrite alt_bytes_split, !len_app;
    pose proof (len_nonneg (concat (at_extra a))); pose proof (len_nonneg (concat (map endpoint_bytes (at_eps a))));
    pose proof (len_nonneg rest); lia).
  rewrite (proj2 (Z.ltb_ge (len (at_desc a)) _)) by (unfold USB_DDK_DT_INTERFACE_SIZE; lia).
  by rewrite (proj2 (Z.ltb_ge USB_MAXENDPOINTS _)) by lia.
Qed.

(** The next descriptor is not an alternate setting of interface [n]. *)
Definition other_next (n : Z) (rest : list Z) : Prop :=
  len rest < USB_DDK_DT_INTERFACE_SIZE \/ rest !! 1%nat <> Some USB_DDK_DT_INTERFACE \/ rest !! 2%nat <> Some n.

Lemma other_interface_yes n rest r (Q : bool -> Ram -> Prop) :
  other_next n rest -> Q true r -> runs (other_interface rest (len rest) n) r Q.
Proof.
  intros Ho HQ. unfold other_interface. unfold other_next in Ho. unfold USB_DDK_DT_INTERFACE_SIZE, len in *.
  destruct (Z.ltb_spec (Z.of_nat (length rest)) 9) as [|Hl]; [by apply runs_ret|].
  destruct (lookup_lt_is_Some_2 rest 1) as [t E1]; [lia|]. destruct (lookup_lt_is_Some_2 rest 2) as [m E2]; [lia|].
  eapply runs_bind, runs_byte_at; [exact E1|]. destruct (Z.eqb_spec t USB_DDK_DT_INTERFACE) as [->|]; [|by apply runs_ret].
  cbn [negb]. eapply runs_bind, runs_byte_at; [exact E2|]. destruct (Z.eqb_spec m n) as [->|]; [|by apply runs_ret].
  exfalso. rewrite E1, E2 in Ho. destruct Ho as [?|[?|?]]; [lia | done..].
Qed.

Lemma other_interface_no a rest r (Q : bool -> Ram -> Prop) :
  alt_ok a -> Q false r -> runs (other_interface (alt_bytes a ++ rest) (len (alt_bytes a ++ rest)) (alt_number a)) r Q.
Proof.
  intros Ha HQ. pose proof (alt_desc_bytes a Ha) as Hl. pose proof Ha as [Hd _ _ _ _]. unfold other_interface.
  rewrite alt_bytes_split, <- !app_assoc. set (tail := concat (at_extra a) ++ _).
  rewrite (proj2 (Z.ltb_ge _ _)) by (rewrite len_app; pose proof (len_nonneg tail); unfold USB_DDK_DT_INTERFACE_SIZE; lia).
  eapply runs_bind, runs_byte_at; [by eapply desc_type|]. cbn [negb Z.eqb Pos.eqb USB_DDK_DT_INTERFACE].
  eapply runs_bind, runs_byte_at; [eapply (desc_byte 9); [exact Hd | lia]|]. rewrite Z.eqb_refl. by apply runs_ret.
Qed.

(** The interface after some of the alternate settings [run] were stored behind
    [prev]; [m] entries were free. *)
Definition stored (run : list alt_tree) (prev : list UsbRawInterfaceDescriptor) (m : nat) (off : Z)
    (p : Z * UsbRawInterface) (r r' : Ram) : Prop :=
  exists new, numAltsetting p.2 = Z.of_nat (length prev + length new) /\
    altsetting p.2 = prev ++ new ++ replicate (m - length new) zero_alt /\ (length new <= length run)%nat /\
    Forall alt_shape new /\ grown (concat (map alt_blocks new)) r r' /\
    (p.1 = off + len (concat (map alt_bytes run)) /\ map view_alt new = map mean_alt run \/ failed p.1).

(** One more in front. *)
Lemma stored_cons a run prev x m off p r r1 r' :
  alt_shape x -> grown (alt_blocks x) r r1 -> view_alt x = mean_alt a ->
  stored run (prev ++ [x]) m (off + len (alt_bytes a)) p r1 r' -> stored (a :: run) prev (S m) off p r r'.
Proof.
  intros Hx Hg Hv (new & H1 & H2 & H3 & H4 & H5 & H6). exists (x :: new). rewrite length_app in H1. cbn [length] in *.
  split; [rewrite H1; f_equal; lia|]. split; [by rewrite H2, <- !app_assoc|]. split; [lia|]. split; [by constructor|].
  split; [cbn [map concat]; by eapply grown_trans|]. destruct H6 as [[E H6]|?]; [left | by right].
  cbn [map concat]. rewrite len_app. split; [lia | by rewrite Hv, H6].
Qed.

Lemma alt_bytes_long a : alt_ok a -> 9 <= len (alt_bytes a).
Proof.
  intros Ha. pose proof (alt_desc_bytes a Ha). rewrite alt_bytes_split, !len_app.
  pose proof (len_nonneg (concat (at_extra a))). pose proof (len_nonneg (concat (map endpoint_bytes (at_eps a)))). lia.
Qed.

Lemma fits_step fuel l bs : fits (S fuel) (l ++ bs) -> 1 <= len l -> fits fuel bs.
Proof. unfold fits. rewrite len_app, length_app. unfold len. lia. Qed.

Lemma mean_alt_fields a :
  alt_ok a -> i_bLength (av_desc (mean_alt a)) = len (at_desc a) /\
  bNumEndpoints (av_desc (mean_alt a)) = Z.of_nat (length (at_eps a)).
Proof.
  intros [[H0 _ _ _] Hn _ _ _]. cbn. unfold byte.
  by rewrite (nth_lookup_Some _ _ _ _ H0), (nth_lookup_Some _ _ _ _ Hn).
Qed.

Lemma interface_loop_ok run n prev m rest off inum fuel r :
  run <> [] -> Forall (fun a => alt_ok a /\ alt_number a = n) run -> inum = -1 \/ inum = n ->
  (length run <= m)%nat -> (length prev + length run <= 128)%nat ->
  stops rest -> other_next n rest -> fits fuel (concat (map alt_bytes run) ++ rest) ->
  runs (interface_loop fuel (mkRawInterface (Z.of_nat (length prev)) (prev ++ replicate m zero_alt))
          (concat (map alt_bytes run) ++ rest) (len (concat (map alt_bytes run) ++ rest)) off inum) r
    (fun p r' => stored run prev m off p r r').
Proof.
  intros Hne Hrun. revert prev m off inum fuel r. induction Hrun as [|a run [Ha Hnum] Hrun IH];
    intros prev m off inum fuel r Hi Hm Hmax Hr Ho Hf; [done|]. clear Hne.
  destruct fuel as [|fuel]; [unfold fits in Hf; lia|]. destruct m as [|m]; [cbn in Hm; lia|].
  cbn [map concat replicate length] in *. rewrite <- app_assoc in *.
  set (tail := concat (map alt_bytes run) ++ rest) in *.
  assert (Forall alt_ok run) as Hrun' by (eapply Forall_impl; [exact Hrun|]; by intros ? []).
  pose proof (alt_bytes_long a Ha) as Hlong. pose proof (len_nonneg tail). simpl.
  rewrite (proj2 (Z.ltb_ge _ _)) by (rewrite len_app; unfold USB_DDK_DT_INTERFACE_SIZE; lia).
  rewrite Nat2Z.id, list_lookup_middle by done. apply runs_bind, RawParseDescriptor_ok; [done|].
  pose proof us_success as Hok. pose proof us_failure. pose proof us_io.
  rewrite (proj2 (Z.eqb_neq HDF_SUCCESS HDF_FAILURE)), (proj2 (Z.eqb_neq HDF_SUCCESS HDF_ERR_IO)) by lia.
  destruct (mean_alt_fields a Ha) as [E1 E2]. cbn [interfaceDescriptor set_endPoint set_i_extra set_interfaceDescriptor].
  rewrite E1. pose proof (alt_number_range a Ha) as Hrange.
  assert ((if inum =? -1 then bInterfaceNumber (av_desc (mean_alt a)) else inum) = n) as ->.
  { destruct Hi as [->| ->]; [done|]. by rewrite (proj2 (Z.eqb_neq _ _)) by lia. }
  assert (fits fuel tail) as Hft by (eapply fits_step; [exact Hf | lia]).
  rewrite alt_bytes_split, <- !app_assoc in *.
  set (bs := concat (at_extra a) ++ concat (map endpoint_bytes (at_eps a)) ++ tail).
  rewrite drop_len, len_app. replace (len (at_desc a) + len bs - len (at_desc a)) with (len bs) by lia.
  set (ifp := set_endPoint _ _).
  apply runs_bind. eapply runs_mono.
  { apply (parse_alt_ok (S fuel) ifp a tail); [done | done | done | done | done | by apply alts_stop | by eapply fits_tail]. }
  intros [ifp' next] r1 (Hg & Hsh & Hnext). cbn [fst snd].
  rewrite list_insert_insert_eq, insert_app_r_alt, Nat.sub_diag by lia. cbn [list_insert insert].
  assert (u8 (Z.of_nat (length prev) + 1) = Z.of_nat (length prev + 1)) as ->.
  { unfold u8. rewrite Z.mod_small; lia. }
  destruct next as [ret|[bs' size']].
  { apply runs_ret. exists [ifp']. cbn. split; [done|]. split; [by rewrite Nat.sub_0_r|]. split; [lia|].
    split; [by constructor|]. split; [by rewrite app_nil_r | by right]. }
  destruct Hnext as [[= -> ->] Hv].
  assert (view_alt ifp' = mean_alt a) as Hv' by exact Hv.
  replace (off + (len (at_desc a) + len bs - len tail)) with (off + len (alt_bytes a))
    by (rewrite alt_bytes_split; unfold bs; rewrite !len_app; lia).
  replace (prev ++ ifp' :: replicate m zero_alt) with ((prev ++ [ifp']) ++ replicate m zero_alt) by (by rewrite <- app_assoc).
  replace (length prev + 1)%nat with (length (prev ++ [ifp'])) by (rewrite length_app; cbn; lia).
  apply runs_bind. destruct run as [|a2 run].
  - apply other_interface_yes; [done|]. apply runs_ret.
    apply (stored_cons a [] prev ifp' m off _ r r1 r1); [done..|]. exists []. cbn -[alt_bytes]. rewrite !length_app; cbn -[alt_bytes].
    split; [f_equal; lia|]. split; [by rewrite Nat.sub_0_r|]. split; [done|]. split; [constructor|].
    split; [apply grown_refl|]. left. split; [unfold len; cbn -[alt_bytes]; lia | done].
  - pose proof (Forall_inv Hrun) as [Ha2 Hnum2]. unfold tail. cbn [map concat]. rewrite <- app_assoc, <- Hnum2.
    apply other_interface_no; [done|]. rewrite app_assoc.
    eapply runs_mono; [apply (IH ltac:(done) (prev ++ [ifp']) m _ (alt_number a2) fuel r1)|].
    + rewrite Hnum2. by right.
    + cbn in *. lia.
    + rewrite length_app. cbn in *. lia.
    + done.
    + done.
    + done.
    + intros p r2. by apply stored_cons.
Qed.
End parse.
