(* ===== verification/UsbDescConfig.v ===== *)
(** * UsbDescConfig: releasing and parsing a configuration

    [RawClearConfiguration] frees the blocks of a configuration, each once, and
    touches nothing else: of one that was parsed to its end, and of one whose
    parsing was given up on the way. *)
From S2P Require Import Prelude Hdf Arrays UsbDesc UsbDescSpec UsbDescFacts UsbDescParse.
Open Scope Z_scope.

(** ** Ownership *)

(** Besides [base] the blocks [l] are live. *)
Record owns (base : gset nat) (l : list nat) (r : Ram) : Prop := Owns {
  ow_live : ram_live r = base ∪ list_to_set l;
  ow_distinct : NoDup l;
  ow_apart : Forall (fun b => b ∉ base) l;
}.

Lemma owns_perm base l l' r : l ≡ₚ l' -> owns base l r -> owns base l' r.
Proof.
  intros E [H1 H2 H3]. split; [by rewrite H1, (list_to_set_perm_L _ _ E) | by rewrite <- E | by rewrite <- E].
Qed.

#[global] Instance owns_proper base : Proper ((≡ₚ) ==> eq ==> iff) (owns base).
Proof. intros l l' E r _ <-. by split; apply owns_perm. Qed.

Lemma grown_owns l r r' : ram_wf r -> grown l r r' -> owns (ram_live r) l r'.
Proof.
  intros Hok [H1 _ H3 H4]. split; [done | done |]. eapply Forall_impl; [exact H4|].
  intros b Hb Hin. apply Hok in Hin. cbn in Hb. lia.
Qed.

Lemma owns_none r : owns (ram_live r) [] r.
Proof. split; [cbn; set_solver | constructor..]. Qed.

Lemma owns_nothing base r : owns base [] r -> ram_live r = base.
Proof. intros [H _ _]. rewrite H. cbn. set_solver. Qed.

Lemma owns_free base b l r (Q : unit -> Ram -> Prop) :
  owns base (b :: l) r -> (forall r', owns base l r' -> Q tt r') -> runs (RawUsbMemFree b) r Q.
Proof.
  intros [H1 H2 H3] HQ. apply NoDup_cons in H2 as [Hb H2]. apply Forall_cons in H3 as [Hb' H3].
  apply runs_free; [rewrite H1; set_solver|]. apply HQ. split; [|done..]. cbn. rewrite H1. cbn.
  apply set_eq. intros x. rewrite elem_of_difference, !elem_of_union, !elem_of_list_to_set, elem_of_singleton.
  split; [tauto|]. intros Hx. split; [tauto|]. intros ->. tauto.
Qed.

Lemma owns_free_ptr {A} base (p : ptr A) l r (Q : unit -> Ram -> Prop) :
  owns base (ptr_block p ++ l) r -> (forall r', owns base l r' -> Q tt r') -> runs (free_ptr p) r Q.
Proof. destruct p as [[b a]|]; cbn; [by apply owns_free|]. intros H HQ. by apply runs_ret, HQ. Qed.

(** ** Arrays *)

(** Freeing what each element owns. *)
Lemma each_owns {A} (f : A -> P unit) (blocks : A -> list nat) base (pre xs post : list A) l r (Q : unit -> Ram -> Prop) :
  Forall (fun x => forall l r (Q : unit -> Ram -> Prop), owns base (blocks x ++ l) r ->
            (forall r', owns base l r' -> Q tt r') -> runs (f x) r Q) xs ->
  owns base (concat (map blocks xs) ++ l) r -> (forall r', owns base l r' -> Q tt r') ->
  runs (each (length xs) (length pre) (pre ++ xs ++ post) f) r Q.
Proof.
  intros Hf. revert pre r. induction Hf as [|x xs Hx Hxs IH]; intros pre r Ho HQ.
  { by apply runs_ret, HQ. }
  simpl. rewrite list_lookup_middle by done. cbn [map concat] in Ho. rewrite <- app_assoc in Ho.
  apply runs_bind. eapply Hx; [exact Ho|]. intros r' Ho'. cbn [app].
  replace (pre ++ x :: xs ++ post) with ((pre ++ [x]) ++ xs ++ post) by (by rewrite <- app_assoc).
  replace (S (length pre)) with (length (pre ++ [x])) by (rewrite length_app; cbn; lia).
  by apply IH.
Qed.

Lemma each_owns_whole {A} (f : A -> P unit) (blocks : A -> list nat) base (xs post : list A) l r (Q : unit -> Ram -> Prop) :
  Forall (fun x => forall l r (Q : unit -> Ram -> Prop), owns base (blocks x ++ l) r ->
            (forall r', owns base l r' -> Q tt r') -> runs (f x) r Q) xs ->
  owns base (concat (map blocks xs) ++ l) r -> (forall r', owns base l r' -> Q tt r') ->
  runs (each (length xs) 0 (xs ++ post) f) r Q.
Proof. apply (each_owns f blocks base [] xs post). Qed.

(** ** The parts of a configuration *)
Lemma clear_alt_owns base a l r (Q : unit -> Ram -> Prop) :
  alt_shape a -> owns base (alt_blocks a ++ l) r -> (forall r', owns base l r' -> Q tt r') -> runs (clear_alt a) r Q.
Proof.
  intros Hs Ho HQ. unfold alt_blocks in Ho. rewrite <- !app_assoc in Ho. apply runs_bind.
  eapply owns_free_ptr; [exact Ho|]. intros r1 Ho1. unfold alt_shape in Hs.
  destruct (endPoint a) as [[b eps]|]; cbn in *; [|by apply runs_ret, HQ].
  rewrite Hs, Nat2Z.id. apply runs_bind. rewrite <- (app_nil_r eps) at 2.
  eapply (each_owns_whole _ endpoint_blocks base eps [] (b :: l)).
  - apply Forall_true. intros e l' r' Q'. apply owns_free_ptr.
  - eapply owns_perm; [|exact Ho1]. apply Permutation_middle.
  - intros r2 Ho2. by eapply owns_free.
Qed.

(** An interface some of whose entries are filled. *)
Definition slot_shape (p : ptr UsbRawInterface) : Prop :=
  exists b used m, p = Some (b, mkRawInterface (Z.of_nat (length used)) (used ++ replicate m zero_alt)) /\
    (length used <= 128)%nat /\ Forall alt_shape used.

Lemma no_blocks m : concat (map alt_blocks (replicate m zero_alt)) = [].
Proof. induction m as [|m IH]; cbn; [done | by rewrite IH]. Qed.

Lemma ClearInterface_owns base p l r (Q : unit -> Ram -> Prop) :
  slot_shape p -> owns base (interface_blocks p ++ l) r -> (forall r', owns base l r' -> Q tt r') ->
  runs (ClearInterface p) r Q.
Proof.
  intros (b & used & m & -> & Hu & Hs) Ho HQ. unfold ClearInterface, USB_MAXALTSETTING. cbn in *.
  rewrite map_app, concat_app, no_blocks, app_nil_r in Ho.
  rewrite (proj2 (Z.ltb_ge _ _)) by lia. apply runs_bind. rewrite Nat2Z.id.
  eapply (each_owns_whole _ alt_blocks base used _ (b :: l)).
  - eapply Forall_impl; [exact Hs|]. intros a Ha l' r' Q'. by apply clear_alt_owns.
  - eapply owns_perm; [|exact Ho]. apply Permutation_middle.
  - intros r' Ho'. by eapply owns_free.
Qed.

(** A configuration with the interfaces [slots]. *)
Record config_shape (slots : list (ptr UsbRawInterface)) (c : UsbRawConfigDescriptor) : Prop := ConfigShape {
  cs_slots : interface c = slots ++ replicate (32 - length slots) None;
  cs_count : bNumInterfaces (configDescriptor c) = Z.of_nat (length slots);
  cs_shape : Forall slot_shape slots;
}.

Lemma no_interface_blocks m : concat (map interface_blocks (replicate m None)) = [].
Proof. induction m as [|m IH]; cbn; [done | by rewrite IH]. Qed.

Lemma config_blocks_slots slots c :
  config_shape slots c -> config_blocks c = concat (map interface_blocks slots) ++ ptr_block (c_extra c).
Proof.
  intros [H _ _]. unfold config_blocks. by rewrite H, map_app, concat_app, no_interface_blocks, app_nil_r.
Qed.

Lemma RawClearConfiguration_owns base slots c l r (Q : UsbRawConfigDescriptor -> Ram -> Prop) :
  config_shape slots c -> owns base (config_blocks c ++ l) r ->
  (forall c' r', owns base l r' -> Q c' r') -> runs (RawClearConfiguration c) r Q.
Proof.
  intros Hc Ho HQ. rewrite (config_blocks_slots _ _ Hc), <- app_assoc in Ho. destruct Hc as [Hs Hn Hsh].
  unfold RawClearConfiguration. rewrite Hn, Nat2Z.id, Hs. apply runs_bind.
  eapply (each_owns_whole _ interface_blocks base slots); [|exact Ho|].
  - eapply Forall_impl; [exact Hsh|]. intros p Hp l' r' Q'. by apply ClearInterface_owns.
  - intros r1 Ho1. apply runs_bind. eapply owns_free_ptr; [exact Ho1|]. intros r2 Ho2. by apply runs_ret, HQ.
Qed.

(** ** Parsing a whole configuration

    The loop of [ParseConfigurationDes] takes the alternate settings run by
    run, a run being those in a row with the same interface number, and files
    each run with its interface.  The memory of an interface is for as many
    alternate settings as [GetInterfaceNumber] counted. *)
(** ** Numbers and runs *)
Lemma numbers_app l1 l2 : numbers (l1 ++ l2) = foldl add_number (numbers l1) (map alt_number l2).
Proof. unfold numbers. by rewrite map_app, foldl_app. Qed.

Lemma numbers_snoc l a : numbers (l ++ [a]) = add_number (numbers l) (alt_number a).
Proof. by rewrite numbers_app. Qed.

Lemma add_number_elem ns m n : n ∈ add_number ns m <-> n ∈ ns \/ n = m.
Proof.
  unfold add_number. destruct (decide (m ∈ ns)); [naive_solver|]. by rewrite elem_of_app, list_elem_of_singleton.
Qed.

Lemma numbers_elem l n : n ∈ numbers l <-> exists a, a ∈ l /\ alt_number a = n.
Proof.
  induction l as [|a l IH] using rev_ind; [split; [by intros ?%not_elem_of_nil | by intros (? & ?%not_elem_of_nil & _)]|].
  rewrite numbers_snoc, add_number_elem, IH. setoid_rewrite elem_of_app. setoid_rewrite list_elem_of_singleton.
  naive_solver.
Qed.

Lemma numbers_distinct l : NoDup (numbers l).
Proof.
  induction l as [|a l IH] using rev_ind; [constructor|]. rewrite numbers_snoc. unfold add_number.
  destruct (decide _) as [|Hn]; [done|]. apply NoDup_app. split; [done|]. split; [|apply NoDup_singleton].
  by intros x Hx ->%list_elem_of_singleton.
Qed.

Lemma add_number_length ns n : (length ns <= length (add_number ns n) <= S (length ns))%nat.
Proof. unfold add_number. destruct (decide _); rewrite ?length_app; cbn; lia. Qed.

Lemma numbers_length_app l1 l2 : (length (numbers l1) <= length (numbers (l1 ++ l2)))%nat.
Proof.
  induction l2 as [|a l2 IH] using rev_ind; [by rewrite app_nil_r|]. rewrite app_assoc, numbers_snoc.
  pose proof (add_number_length (numbers (l1 ++ l2)) (alt_number a)). lia.
Qed.

Lemma alts_of_app n l1 l2 : alts_of n (l1 ++ l2) = alts_of n l1 ++ alts_of n l2.
Proof. apply filter_app. Qed.

Lemma alts_of_all n l : Forall (fun a => alt_number a = n) l -> alts_of n l = l.
Proof.
  unfold alts_of. induction 1 as [|a l Ha Hl IH]; [done|]. rewrite filter_cons_True by done. by rewrite IH.
Qed.

Lemma alts_of_none n m l : Forall (fun a => alt_number a = n) l -> m <> n -> alts_of m l = [].
Proof.
  unfold alts_of. induction 1 as [|a l Ha Hl IH]; [done|]. intros Hm.
  rewrite filter_cons_False by congruence. auto.
Qed.

(** The first run. *)
Lemma split_run a l : exists run later, a :: l = run ++ later /\ run <> [] /\
  Forall (fun b => alt_number b = alt_number a) run /\
  match later with [] => True | b :: _ => alt_number b <> alt_number a end.
Proof.
  revert a. induction l as [|b l IH]; intros a; [exists [a], []; auto|].
  destruct (decide (alt_number b = alt_number a)) as [E|E].
  - destruct (IH b) as (run & later & -> & Hr & Hn & Hl). rewrite E in *. exists (a :: run), later.
    split; [done|]. split; [done|]. split; [by constructor | done].
  - exists [a], (b :: l). split; [done|]. split; [done|]. split; [by repeat constructor | done].
Qed.

(** ** The tally of a configuration *)
Definition count_of (l : list alt_tree) (n : Z) : Z := Z.of_nat (length (alts_of n l)).
Definition tally_of (l : list alt_tree) : tally := map (fun n => (n, count_of l n)) (numbers l).

Lemma tally_of_names l : (tally_of l).*1 = numbers l.
Proof. unfold tally_of. rewrite <- list_fmap_compose. apply map_id. Qed.

Lemma note_extra t ds : Forall extra_ok ds -> foldl note t ds = t.
Proof.
  induction 1 as [|d ds (ty & Hn & _ & Hd) Hds IH]; [done|]. cbn. unfold note at 2.
  rewrite (plain_byte _ _ Hd), (proj2 (Z.eqb_neq _ _)) by done. exact IH.
Qed.

Lemma note_endpoint t e : endpoint_ok e -> foldl note t (endpoint_descs e) = t.
Proof.
  intros [Hd He]. unfold endpoint_descs. cbn [foldl]. rewrite note_extra by done. unfold note.
  by rewrite (plain_byte USB_DDK_DT_ENDPOINT) by (eapply desc_weaken; [exact Hd | lia]).
Qed.

Lemma note_endpoints t es : Forall endpoint_ok es -> foldl note t (concat (map endpoint_descs es)) = t.
Proof.
  induction 1 as [|e es He Hes IH]; [done|]. cbn [map concat]. by rewrite foldl_app, note_endpoint.
Qed.

Lemma note_alt t a : alt_ok a -> foldl note t (alt_descs a) = tally_add t (alt_number a).
Proof.
  intros Ha. pose proof (alt_desc_bytes a Ha). destruct Ha as [Hd _ _ Hex Hes]. unfold alt_descs. cbn [foldl].
  rewrite foldl_app, note_endpoints, note_extra by done. unfold note, met.
  rewrite (plain_byte USB_DDK_DT_INTERFACE) by (eapply desc_weaken; [exact Hd | lia]). rewrite Z.eqb_refl.
  by rewrite (proj2 (Z.ltb_ge _ _)) by (unfold USB_DDK_DT_INTERFACE_SIZE; lia).
Qed.

Lemma bump_map (f : Z -> Z) ns n :
  NoDup ns -> bump (map (fun m => (m, f m)) ns) n =
    map (fun m => (m, if decide (m = n) then more (f m) else f m)) ns ++ (if decide (n ∈ ns) then [] else [(n, 1)]).
Proof.
  induction 1 as [|m ns Hm Hns IH]; cbn [map bump]; [done|]. destruct (Z.eqb_spec m n) as [->|Hne].
  - rewrite (decide_True (P := n = n)), (decide_True (P := n ∈ n :: ns)), app_nil_r by (done || left). f_equal.
    apply map_ext_in. intros x Hx%list_elem_of_In. by rewrite decide_False by (by intros ->).
  - rewrite IH, (decide_False (P := m = n)) by done. cbn [app]. f_equal. f_equal.
    destruct (decide (n ∈ ns)); [by rewrite decide_True by (by right)|].
    rewrite decide_False; [done|]. by intros [->|]%elem_of_cons.
Qed.

Lemma tally_of_snoc l a :
  (length (numbers (l ++ [a])) <= 32)%nat -> count_of (l ++ [a]) (alt_number a) <= USB_MAXALTSETTING ->
  tally_add (tally_of l) (alt_number a) = tally_of (l ++ [a]).
Proof.
  intros Hl Hc. set (n := alt_number a) in *. pose proof (numbers_distinct l) as Hnd.
  assert (forall m, count_of (l ++ [a]) m = if decide (m = n) then count_of l m + 1 else count_of l m) as Hcount.
  { intros m. unfold count_of. rewrite alts_of_app, length_app. unfold alts_of at 2. rewrite filter_cons, filter_nil.
    fold n. destruct (decide (n = m)), (decide (m = n)); try congruence; cbn; lia. }
  rewrite Hcount, decide_True in Hc by done.
  unfold tally_add. rewrite tally_of_names, decide_True.
  2:{ destruct (decide (n ∈ numbers l)) as [|Hn]; [by left|]. right. rewrite numbers_snoc in Hl. unfold add_number in Hl.
      fold n in Hl. rewrite decide_False, length_app in Hl by done. cbn in Hl. unfold tally_of. rewrite length_map. lia. }
  unfold tally_of at 1. rewrite bump_map by done. unfold tally_of. rewrite numbers_snoc. unfold add_number. fold n.
  assert (map (fun m => (m, if decide (m = n) then more (count_of l m) else count_of l m)) (numbers l) =
          map (fun m => (m, count_of (l ++ [a]) m)) (numbers l)) as ->.
  { apply map_ext. intros m. rewrite Hcount. destruct (decide (m = n)) as [->|]; [|done].
    unfold more. by rewrite (proj2 (Z.ltb_lt _ _)) by lia. }
  destruct (decide (n ∈ numbers l)) as [Hn|Hn]; [by rewrite app_nil_r|]. rewrite map_app. cbn [map]. do 3 f_equal.
  rewrite Hcount, decide_True by done. unfold count_of, alts_of.
  destruct (filter (fun b => alt_number b = n) l) as [|b f] eqn:E; [done|]. exfalso. apply Hn, numbers_elem.
  exists b. assert (b ∈ filter (fun b => alt_number b = n) l) as Hb by (rewrite E; left). by apply list_elem_of_filter in Hb as [].
Qed.

Lemma config_tally l :
  Forall alt_ok l -> (length (numbers l) <= 32)%nat -> (forall n, count_of l n <= USB_MAXALTSETTING) ->
  foldl note [] (concat (map alt_descs l)) = tally_of l.
Proof.
  intros Hl Hn Hc. induction l as [|a l IH] using rev_ind; [done|]. apply Forall_app in Hl as [Hl Ha].
  apply Forall_inv in Ha. rewrite map_app, concat_app, foldl_app. cbn [map concat]. rewrite app_nil_r, IH; [|done|..].
  - rewrite note_alt by done. by apply tally_of_snoc.
  - pose proof (numbers_length_app l [a]). lia.
  - intros n. specialize (Hc n). unfold count_of in *. rewrite alts_of_app, length_app in Hc. lia.
Qed.
