(* ===== verification/UsbDescLoop.v ===== *)
(** * UsbDescLoop: the loop over the interfaces of a configuration

    The state between two runs of alternate settings, and that the loop of
    [ParseConfigurationDes] gets from one to the next: it never has to look at
    what follows the alternate settings to file them. *)
From S2P Require Import Prelude Hdf Arrays UsbDesc UsbDescSpec UsbDescFacts UsbDescParse UsbDescConfig.
Open Scope Z_scope.

(** ** The state between two runs *)

(** The interface with number [n] has the alternate settings seen so far, and
    room for the others. *)
Definition slot_for (seen all : list alt_tree) (n : Z) (p : ptr UsbRawInterface) : Prop :=
  exists b used m, p = Some (b, mkRawInterface (Z.of_nat (length used)) (used ++ replicate m zero_alt)) /\
    Forall alt_shape used /\ map view_alt used = map mean_alt (alts_of n seen) /\
    (length used + m)%nat = length (alts_of n all).

Record filed (seen all : list alt_tree) (slots : list (ptr UsbRawInterface)) (c : UsbRawConfigDescriptor) : Prop := Filed {
  fi_slots : interface c = slots ++ replicate (32 - length slots) None;
  fi_count : bNumInterfaces (configDescriptor c) = Z.of_nat (length slots);
  fi_for : Forall2 (slot_for seen all) (numbers all) slots;
}.

Lemma filed_shape seen all slots c :
  (forall n, count_of all n <= USB_MAXALTSETTING) -> filed seen all slots c -> config_shape slots c.
Proof.
  intros Hc [H1 H2 H3]. split; [done..|]. apply Forall_lookup_2. intros k p Ek.
  destruct (Forall2_lookup_r _ _ _ _ _ H3 Ek) as (n & En & b & used & m & -> & Hs & _ & Hm).
  exists b, used, m. split; [done|]. split; [|done]. specialize (Hc n). unfold count_of, USB_MAXALTSETTING in Hc. lia.
Qed.

(** Filling up one of several slots. *)
Lemma concat_insert {A} (f : A -> list nat) l k x y add :
  l !! k = Some x -> f y ≡ₚ f x ++ add -> concat (map f (<[k := y]> l)) ≡ₚ concat (map f l) ++ add.
Proof.
  intros E Hf. rewrite <- (take_drop_middle l k x E) at 2.
  rewrite insert_take_drop by (by eapply lookup_lt_Some). rewrite !map_app, !concat_app. cbn [map concat].
  rewrite Hf, <- !app_assoc. do 2 f_equiv. apply Permutation_app_comm.
Qed.

Lemma view_length used l : map view_alt used = map mean_alt l -> length used = length l.
Proof. intros H. apply (f_equal length) in H. by rewrite !length_map in H. Qed.

(** The slots when the run [run] of the interface with index [k] was filed. *)
Lemma slot_filled seen run later slots k n b used m new :
  let all := seen ++ run ++ later in
  Forall2 (slot_for seen all) (numbers all) slots -> numbers all !! k = Some n ->
  Forall (fun a => alt_number a = n) run ->
  Forall alt_shape used -> map view_alt used = map mean_alt (alts_of n seen) ->
  (length used + m)%nat = length (alts_of n all) ->
  Forall alt_shape new -> map view_alt new = map mean_alt run ->
  Forall2 (slot_for (seen ++ run) all) (numbers all)
    (<[k := Some (b, mkRawInterface (Z.of_nat (length used + length new)) (used ++ new ++ replicate (m - length new) zero_alt))]> slots).
Proof.
  intros all Hs Ek Hrun Hsh Hv Hm Hsh' Hv'. pose proof (Forall2_length _ _ _ Hs) as Hl.
  apply Forall2_same_length_lookup_2; [by rewrite length_insert|].
  intros i n' p Ei Ep. pose proof (numbers_distinct all) as Hnd. destruct (decide (i = k)) as [->|Hik].
  - rewrite Ek in Ei. injection Ei as <-. rewrite list_lookup_insert_eq in Ep; [|rewrite <- Hl; by eapply lookup_lt_Some].
    injection Ep as <-. exists b, (used ++ new), (m - length new)%nat.
    assert (length new <= m)%nat.
    { apply view_length in Hv, Hv'. unfold all in Hm. rewrite !alts_of_app, !length_app, (alts_of_all n run Hrun) in Hm. lia. }
    split; [by rewrite length_app, <- app_assoc|]. split; [by apply Forall_app|].
    rewrite alts_of_app, !map_app, Hv, Hv', (alts_of_all n run Hrun). split; [done|].
    rewrite length_app. lia.
  - rewrite list_lookup_insert_ne in Ep by done.
    destruct (Forall2_lookup_lr _ _ _ _ _ _ Hs Ei Ep) as (b' & used' & m' & -> & H1 & H2 & H3).
    exists b', used', m'. split; [done|]. split; [done|].
    rewrite alts_of_app, (alts_of_none n n' run Hrun), app_nil_r; [done|].
    intros ->. apply Hik. eapply NoDup_lookup; eauto.
Qed.

(** ** Memory along the way *)
Lemma grown_more base l new r r' :
  ram_wf r -> owns base l r -> grown new r r' -> owns base (l ++ new) r' /\ ram_wf r'.
Proof.
  intros Hok [H1 H2 H3] [G1 G2 G3 G4].
  assert (Forall (fun b => b ∉ ram_live r) new) as Hfresh.
  { eapply Forall_impl; [exact G4|]. intros b Hb Hin. apply Hok in Hin. cbn in Hb. lia. }
  split.
  - split; [rewrite G1, H1, list_to_set_app_L; set_solver| |].
    + apply NoDup_app. split; [done|]. split; [|done]. intros b Hb Hb'.
      eapply Forall_forall in Hfresh; [|exact Hb']. apply Hfresh. rewrite H1. set_solver.
    + apply Forall_app. split; [done|]. eapply Forall_impl; [exact Hfresh|]. rewrite H1. set_solver.
  - intros b. rewrite G1, elem_of_union, elem_of_list_to_set. intros [Hb|Hb]; [apply Hok in Hb; lia|].
    eapply Forall_forall in G4; [|exact Hb]. cbn in G4. lia.
Qed.

Section loop.
Context {HS : HdfStatus} {US : UsbStatus} {UL : UsbStatusLaws} {RA : RamAlloc} {SZ : UsbSizes} {SL : UsbSizesLaws}.

(** An error because memory was refused; all memory but [l] was given back. *)
Definition gave_up (base : gset nat) (l : list nat) (o : outcome ((Z * UsbRawConfigDescriptor) * Ram)) : Prop :=
  exists ret c r', o = Done ((ret, c), r') /\ failed ret /\ owns base l r'.

(** What a run of alternate settings of the interface with index [k] does. *)
Lemma ParseInterface_run run n used m b rest fuel r :
  run <> [] -> Forall (fun a => alt_ok a /\ alt_number a = n) run ->
  (length run <= m)%nat -> (length used + length run <= 128)%nat ->
  stops rest -> other_next n rest -> fits fuel (concat (map alt_bytes run) ++ rest) ->
  exists ret new r',
    ParseInterface fuel (mkRawInterface (Z.of_nat (length used)) (used ++ replicate m zero_alt))
      (concat (map alt_bytes run) ++ rest) (len (concat (map alt_bytes run) ++ rest)) r =
      Done ((ret, mkRawInterface (Z.of_nat (length used + length new)) (used ++ new ++ replicate (m - length new) zero_alt)), r') /\
    (length new <= length run)%nat /\ Forall alt_shape new /\
    grown (concat (map alt_blocks new)) r r' /\
    interface_blocks (Some (b, mkRawInterface (Z.of_nat (length used + length new)) (used ++ new ++ replicate (m - length new) zero_alt))) ≡ₚ
      interface_blocks (Some (b, mkRawInterface (Z.of_nat (length used)) (used ++ replicate m zero_alt))) ++ concat (map alt_blocks new) /\
    (ret = len (concat (map alt_bytes run)) /\ map view_alt new = map mean_alt run \/ failed ret).
Proof.
  intros Hne Hrun Hm Hmax Hr Ho Hf.
  pose proof (interface_loop_ok run n used m rest 0 (-1) fuel r Hne Hrun (or_introl eq_refl) Hm Hmax Hr Ho Hf) as H.
  apply runs_inv in H as ([ret u] & r' & E & new & H1 & H2 & H3 & H4 & H5 & H6). cbn [fst snd] in *.
  exists ret, new, r'. unfold ParseInterface, USB_MAXALTSETTING. rewrite (proj2 (Z.ltb_ge _ _)) by (cbn; lia).
  rewrite E. destruct u as [na alts]; cbn in *. subst. split; [done|]. split; [done|]. split; [done|]. split; [done|].
  split; [|by rewrite Z.add_0_l in H6].
  rewrite !map_app, !concat_app, !no_blocks, !app_nil_r. done.
Qed.

Lemma run_ends n later rest :
  Forall alt_ok later -> tail_ok rest -> match later with [] => True | a :: _ => alt_number a <> n end ->
  other_next n (concat (map alt_bytes later) ++ rest).
Proof.
  intros [|a later' Ha _] [Hr _] Hn; [by left|]. right; right. cbn [map concat]. rewrite alt_bytes_split, <- !app_assoc.
  destruct Ha as [Hd _ _ _ _]. rewrite (desc_byte 9 _ _ 2 _ Hd) by lia. intros [= E]. by apply Hn.
Qed.

(** The interface the loop picks. *)
Lemma pick c ns zs slots n k b u bs fuel size cur r :
  interface c = slots ++ replicate (32 - length slots) None -> bNumInterfaces (configDescriptor c) = Z.of_nat (length slots) ->
  length ns = length slots -> NoDup ns -> ns !! k = Some n -> slots !! k = Some (Some (b, u)) ->
  bs !! 2%nat = Some n -> 0 < size ->
  config_loop (S fuel) c bs size cur (ns ++ zs) r =
    ('(ret, u) ← ParseInterface (S fuel) u bs size;
     let c := set_interface (<[k := Some (b, u)]> (interface c)) c in
     if ret <? 0 then c ← RawClearConfiguration c; mret (ret, c)
     else config_loop fuel c (drop (Z.to_nat ret) bs) (size - ret) (Some k) (ns ++ zs)) r.
Proof.
  intros Hi Hn Hl Hnd Ek Ep E2 Hs. simpl. rewrite (proj2 (Z.ltb_lt _ _)) by lia. rewrite Hn, Nat2Z.id.
  pose proof (lookup_lt_Some _ _ _ Ek) as Hk. destruct (length slots) as [|m] eqn:Em; [lia|]. rewrite <- Em in *.
  pose proof (find_number_spec [] ns zs n r) as E. cbn [app length Nat.add] in E. rewrite Hl in E.
  rewrite (index_of_lookup ns n k Ek Hnd) in E. unfold byte_at. rewrite E2.
  erewrite after_done; [|erewrite after_done; [|done]; erewrite after_done; [|exact E]; done].
  rewrite (proj2 (Nat.ltb_lt _ _)) by lia. cbn [mbind option_bind].
  assert (interface c !! k = Some (Some (b, u))) as -> by (rewrite Hi; by apply lookup_app_l_Some). done.
Qed.

Lemma config_loop_step fuel c run later rest slots seen cur zs base l r n :
  let all := seen ++ run ++ later in
  let bs := concat (map alt_bytes later) ++ rest in
  run <> [] -> Forall (fun a => alt_ok a /\ alt_number a = n) run -> Forall alt_ok later ->
  match later with [] => True | a :: _ => alt_number a <> n end -> tail_ok rest -> stops rest ->
  (forall n, count_of all n <= USB_MAXALTSETTING) -> filed seen all slots c ->
  owns base (config_blocks c ++ l) r -> ram_wf r -> fits (S fuel) (concat (map alt_bytes run) ++ bs) ->
  (exists c' slots' k r',
     config_loop (S fuel) c (concat (map alt_bytes run) ++ bs) (len (concat (map alt_bytes run) ++ bs)) cur (numbers all ++ zs) r =
       config_loop fuel c' bs (len bs) (Some k) (numbers all ++ zs) r' /\
     (k < length slots')%nat /\ filed (seen ++ run) all slots' c' /\ owns base (config_blocks c' ++ l) r' /\ ram_wf r' /\
     configDescriptor c' = configDescriptor c /\ c_extra c' = c_extra c /\ c_extraLength c' = c_extraLength c) \/
  gave_up base l (config_loop (S fuel) c (concat (map alt_bytes run) ++ bs) (len (concat (map alt_bytes run) ++ bs)) cur (numbers all ++ zs) r).
Proof.
  intros all bs Hne Hrun Hlater Hends Htail Hstop Hc Hfi Ho Hok Hf. pose proof Hfi as [F1 F2 F3].
  assert (Forall (fun a => alt_number a = n) run) as Hnum by (eapply Forall_impl; [exact Hrun|]; by intros ? []).
  assert (Forall alt_ok run) as Halt by (eapply Forall_impl; [exact Hrun|]; by intros ? []).
  pose proof (Forall2_length _ _ _ F3) as Hl. pose proof (numbers_distinct all) as Hnd.
  assert (n ∈ numbers all) as [k Ek]%list_elem_of_lookup.
  { destruct run as [|a run]; [done|]. apply numbers_elem. exists a. split; [set_solver|]. by apply Forall_inv in Hnum. }
  destruct (Forall2_lookup_l _ _ _ _ _ F3 Ek) as (p & Ep & b & used & m & -> & Hsh & Hv & Hm).
  assert (length run <= m /\ length used + length run <= 128)%nat as [Hrm Hmax].
  { specialize (Hc n). unfold count_of, USB_MAXALTSETTING in Hc. apply view_length in Hv.
    unfold all in Hm, Hc. rewrite !alts_of_app, !length_app, (alts_of_all n run Hnum) in Hm, Hc. lia. }
  destruct (ParseInterface_run run n used m b bs (S fuel) r Hne Hrun Hrm Hmax) as
    (ret & new & r1 & E & Hnew & Hsh' & Hg & Hblocks & Hres); [by apply alts_stop | by apply run_ends | done|].
  pose proof (len_nonneg bs).
  assert (9 <= len (concat (map alt_bytes run)) /\ (concat (map alt_bytes run) ++ bs) !! 2%nat = Some n) as [Hpos E2].
  { destruct run as [|a run]; [done|]. apply Forall_inv in Hrun as [Ha <-]. cbn [map concat]. rewrite len_app.
    pose proof (alt_bytes_long a Ha). pose proof (len_nonneg (concat (map alt_bytes run))). split; [lia|].
    rewrite alt_bytes_split, <- !app_assoc. destruct Ha as [Hd _ _ _ _]. by rewrite (desc_byte 9 _ _ 2 _ Hd) by lia. }
  rewrite (pick c (numbers all) zs slots n k b _ _ fuel _ cur r F1 F2 Hl Hnd Ek Ep E2) by (rewrite len_app; lia).
  erewrite !after_done by exact E. cbn beta iota zeta. rewrite F1, insert_app_l by (by eapply lookup_lt_Some).
  set (u' := Some (b, mkRawInterface (Z.of_nat (length used + length new)) _)) in *. set (c' := set_interface _ c).
  destruct (grown_more base (config_blocks c ++ l) _ r r1 Hok Ho Hg) as [Ho1 Hok1].
  assert (config_shape (<[k := u']> slots) c') as Hshape.
  { split; [by rewrite length_insert | by rewrite length_insert |]. apply Forall_insert; [by eapply cs_shape, filed_shape|].
    exists b, (used ++ new), (m - length new)%nat. unfold u'. rewrite length_app, <- app_assoc. split; [done|].
    split; [lia | by apply Forall_app]. }
  assert (owns base (config_blocks c' ++ l) r1) as Ho2.
  { eapply owns_perm; [|exact Ho1]. rewrite (config_blocks_slots _ _ Hshape), (config_blocks_slots _ c (filed_shape _ _ _ _ Hc Hfi)).
    rewrite (concat_insert interface_blocks slots k _ u' _ Ep Hblocks). cbn [c_extra c' set_interface].
    rewrite <- !app_assoc. apply Permutation_app_head. rewrite !app_assoc. rewrite Permutation_app_comm. by rewrite <- !app_assoc. }
  destruct Hres as [[-> Hv']|Hfail].
  - left. rewrite (proj2 (Z.ltb_ge _ _)) by lia. rewrite drop_len, len_app.
    replace (len (concat (map alt_bytes run)) + len bs - len (concat (map alt_bytes run))) with (len bs) by lia.
    exists c', (<[k := u']> slots), k, r1. split; [done|].
    split; [rewrite length_insert; by eapply lookup_lt_Some|]. split; [|done].
    split; [by rewrite (cs_slots _ _ Hshape) | by rewrite (cs_count _ _ Hshape) | by apply (slot_filled seen run later slots k n)].
  - right. pose proof Hfail as [_ Hneg]. rewrite (proj2 (Z.ltb_lt _ _)) by lia.
    assert (runs (c2 ← RawClearConfiguration c'; mret (ret, c2)) r1 (fun p r' => p.1 = ret /\ owns base l r')) as H2.
    { apply runs_bind. eapply RawClearConfiguration_owns; [exact Hshape | exact Ho2|]. intros c2 r2 H2. by apply runs_ret. }
    apply runs_inv in H2 as ([ret' c2] & r2 & -> & [= ->] & H2). exists ret, c2, r2. auto.
Qed.

(** All runs. *)
Lemma config_loop_all fuel c todo rest slots seen cur zs base l r :
  let all := seen ++ todo in
  let bs := concat (map alt_bytes todo) ++ rest in
  Forall alt_ok todo -> tail_ok rest -> stops rest -> (forall n, count_of all n <= USB_MAXALTSETTING) ->
  filed seen all slots c -> owns base (config_blocks c ++ l) r -> ram_wf r -> fits fuel bs ->
  (exists fuel' c' slots' cur' r',
     config_loop fuel c bs (len bs) cur (numbers all ++ zs) r =
       config_loop fuel' c' rest (len rest) cur' (numbers all ++ zs) r' /\
     (0 < fuel')%nat /\ (cur' = cur /\ todo = [] \/ exists k, cur' = Some k /\ (k < length slots')%nat) /\
     filed all all slots' c' /\ owns base (config_blocks c' ++ l) r' /\ ram_wf r' /\
     configDescriptor c' = configDescriptor c /\ c_extra c' = c_extra c /\ c_extraLength c' = c_extraLength c) \/
  gave_up base l (config_loop fuel c bs (len bs) cur (numbers all ++ zs) r).
Proof.
  remember (length todo) as m eqn:Em. revert fuel c todo slots seen cur r Em.
  induction (lt_wf m) as [m _ IH]; intros fuel c todo slots seen cur r Em all bs Hok Htail Hstop Hc Hfi Ho Hr Hf.
  destruct fuel as [|fuel]; [unfold fits in Hf; lia|]. destruct todo as [|a todo].
  { left. exists (S fuel), c, slots, cur, r. unfold all in *. rewrite app_nil_r in *. split_and!; auto with lia. }
  destruct (split_run a todo) as (run & later & E & Hne & Hnum & Hends). unfold all, bs in *. clear all bs. rewrite E in *.
  apply Forall_app in Hok as [Hrun Hlater]. rewrite map_app, concat_app, <- app_assoc in *.
  assert (1 <= length run)%nat by (destruct run; [done | cbn; lia]).
  assert (1 <= len (concat (map alt_bytes run))) as Hpos.
  { destruct run as [|a' run]; [done|]. apply Forall_inv in Hrun. cbn [map concat]. rewrite len_app.
    pose proof (alt_bytes_long a' Hrun). pose proof (len_nonneg (concat (map alt_bytes run))). lia. }
  assert (Forall (fun b => alt_ok b /\ alt_number b = alt_number a) run) as Hrun'.
  { apply Forall_and. done. }
  destruct (config_loop_step fuel c run later rest slots seen cur zs base l r (alt_number a) Hne Hrun' Hlater Hends
              Htail Hstop Hc Hfi Ho Hr Hf) as [(c1 & slots1 & k & r1 & E1 & Hk1 & Hfi1 & Ho1 & Hr1 & Ed & Ex & El)|Hgave]; [|by right].
  rewrite (app_assoc seen run later) in *.
  assert ((length later < m)%nat) as Hlt by (rewrite Em, length_app; lia).
  destruct (IH (length later) Hlt fuel c1 later slots1 (seen ++ run) (Some k) r1 eq_refl Hlater Htail Hstop Hc Hfi1 Ho1 Hr1)
    as [(fuel' & c2 & slots2 & cur2 & r2 & E2 & Hpf & Hcur & Hfi2 & Ho2 & Hr2 & Ed2 & Ex2 & El2)|Hgave].
  - by eapply fits_step.
  - left. exists fuel', c2, slots2, cur2, r2. rewrite E1. split; [exact E2|]. split; [done|]. split.
    { right. destruct Hcur as [[-> ->]|?]; [|done]. exists k. split; [done|]. apply fi_for, Forall2_length in Hfi1, Hfi2. congruence || lia. }
    split_and!; congruence || done.
  - right. by rewrite E1.
Qed.
End loop.
