(* ===== verification/UsbDescWhole.v ===== *)
(** * UsbDescWhole: from the bytes of a configuration to its structure

    The allocation of the interfaces, [ParseConfigurationDes],
    [ParseConfiguration] and [DescToConfig] over the bytes of a well-formed
    configuration, followed by anything too short to be an interface. *)
From S2P Require Import Prelude Hdf Arrays UsbDesc UsbDescSpec UsbDescFacts UsbDescParse UsbDescConfig UsbDescLoop.
Open Scope Z_scope.

Section whole.
Context {HS : HdfStatus} {US : UsbStatus} {UL : UsbStatusLaws} {RA : RamAlloc} {SZ : UsbSizes} {SL : UsbSizesLaws}.

(** ** Memory for the interfaces *)
Lemma new_slot all n b :
  slot_for [] all n (Some (b, mkRawInterface 0 (replicate (length (alts_of n all)) zero_alt))).
Proof. exists b, [], (length (alts_of n all)). split_and!; [done | constructor | done | done]. Qed.

Lemma fresh_slot_blocks b m : interface_blocks (Some (b, mkRawInterface 0 (replicate m zero_alt))) = [b].
Proof. cbn. by rewrite no_blocks. Qed.

Lemma alloc_interfaces_ok all pre ns zs slots c base l r :
  (forall n, count_of all n <= USB_MAXALTSETTING) -> (length (pre ++ ns) <= 32)%nat ->
  Forall2 (slot_for [] all) pre slots -> interface c = slots ++ replicate (32 - length slots) None ->
  owns base (config_blocks c ++ l) r -> ram_wf r ->
  runs (alloc_interfaces (length ns) (length pre) (map (count_of all) (pre ++ ns) ++ zs) c) r
    (fun '(ok, c') r' => configDescriptor c' = configDescriptor c /\ c_extra c' = c_extra c /\
       c_extraLength c' = c_extraLength c /\ owns base (config_blocks c' ++ l) r' /\ ram_wf r' /\
       (ok = true /\ (exists slots', interface c' = slots' ++ replicate (32 - length slots') None /\
                        Forall2 (slot_for [] all) (pre ++ ns) slots') \/
        ok = false /\ ram_refused)).
Proof.
  intros Hc. revert pre slots c r. induction ns as [|n ns IH]; intros pre slots c r Hl Hs Hi Ho Hr.
  { apply runs_ret. rewrite app_nil_r in *. split_and!; auto. left. split; [done|]. by exists slots. }
  pose proof (Forall2_length _ _ _ Hs) as Hls. rewrite length_app in Hl. cbn [length] in Hl.
  simpl. rewrite map_app, <- app_assoc. cbn [map app].
  rewrite list_lookup_middle by by rewrite length_map.
  assert (0 <= count_of all n <= 128) as Hn by (specialize (Hc n); unfold count_of, USB_MAXALTSETTING in *; lia).
  rewrite (proj2 (Z.ltb_ge USB_MAXALTSETTING _)) by (unfold USB_MAXALTSETTING; lia).
  apply runs_bind, runs_calloc; [pose proof sz_interface; pose proof sz_alt; nia | | intros Hng r1 Hg].
  - intros b r1 Hg. set (p := Some (b, _)).
    assert (p = Some (b, mkRawInterface 0 (replicate (length (alts_of n all)) zero_alt))) as Ep
      by (unfold p, count_of; by rewrite Nat2Z.id).
    assert (<[length pre := p]> (interface c) = (slots ++ [p]) ++ replicate (32 - length (slots ++ [p])) None) as Ei.
    { rewrite Hi, Hls, insert_app_r_alt, Nat.sub_diag, length_app by lia.
      replace (32 - length slots)%nat with (S (32 - (length slots + length [p]))) by (cbn; lia).
      cbn. by rewrite <- app_assoc. }
    set (c1 := set_interface _ c).
    destruct (grown_more base (config_blocks c ++ l) [b] r r1 Hr Ho Hg) as [Ho1 Hr1].
    replace (map (count_of all) pre ++ count_of all n :: map (count_of all) ns ++ zs)
      with (map (count_of all) ((pre ++ [n]) ++ ns) ++ zs) by (by rewrite !map_app, <- !app_assoc).
    replace (S (length pre)) with (length (pre ++ [n])) by (rewrite length_app; cbn; lia).
    eapply runs_mono; [apply (IH (pre ++ [n]) (slots ++ [p]) c1 r1)|].
    + rewrite !length_app. cbn. lia.
    + apply Forall2_app; [done|]. constructor; [|constructor]. rewrite Ep. apply new_slot.
    + exact Ei.
    + eapply owns_perm; [|exact Ho1]. unfold config_blocks, c1. cbn [interface c_extra set_interface]. rewrite Ei, Hi.
      rewrite !map_app, !concat_app, !no_interface_blocks, Ep. cbn [map concat]. rewrite fresh_slot_blocks, !app_nil_r.
      rewrite <- !app_assoc. apply Permutation_app_head. cbn. rewrite app_assoc, Permutation_app_comm. done.
    + done.
    + intros [ok c'] r2 (E1 & E2 & E3 & Ho2 & Hr2 & Hres). rewrite <- app_assoc in Hres. auto 10.
  - destruct (grown_more base (config_blocks c ++ l) [] r r1 Hr Ho Hg) as [Ho1 Hr1]. rewrite app_nil_r in Ho1.
    apply runs_ret. assert (<[length pre := None]> (interface c) = interface c) as ->.
    { rewrite Hi, Hls, insert_app_r_alt, Nat.sub_diag by lia. f_equal.
      destruct (32 - length slots)%nat eqn:E; [lia|]. done. }
    destruct c. split_and!; auto.
Qed.

(** ** After the configuration descriptor *)
Lemma ParseConfigurationDes_ok fuel c ex alts rest slots zs cur base l r :
  let bs := concat ex ++ concat (map alt_bytes alts) ++ rest in
  Forall extra_ok ex -> Forall alt_ok alts -> tail_ok rest -> stops rest ->
  (forall n, count_of alts n <= USB_MAXALTSETTING) -> filed [] alts slots c ->
  c_extra c = None -> c_extraLength c = 0 ->
  owns base (config_blocks c ++ l) r -> ram_wf r -> fits fuel bs ->
  (exists fuel' c' slots' cur' r',
     ParseConfigurationDes fuel c bs (len bs) cur (numbers alts ++ zs) r =
       config_loop fuel' c' rest (len rest) cur' (numbers alts ++ zs) r' /\
     (0 < fuel')%nat /\ (cur' = cur /\ alts = [] \/ exists k, cur' = Some k /\ (k < length slots')%nat) /\
     filed alts alts slots' c' /\ owns base (config_blocks c' ++ l) r' /\ ram_wf r' /\
     configDescriptor c' = configDescriptor c /\ held (c_extra c') = concat ex /\ c_extraLength c' = len (concat ex)) \/
  gave_up base l (ParseConfigurationDes fuel c bs (len bs) cur (numbers alts ++ zs) r).
Proof.
  intros bs Hex Halts Htail Hstop Hc Hfi Hx Hxl Ho Hr Hf. unfold ParseConfigurationDes.
  set (tail := concat (map alt_bytes alts) ++ rest) in *. set (e := concat ex) in *.
  assert (FindNextDescriptor fuel bs (u64 (len bs)) 0 r = Done (len e, r)) as Efind.
  { destruct Hf as [Hm Hlt]. unfold bs, e in *. pose proof (len_nonneg (concat ex ++ tail)). rewrite u64_id by lia.
    rewrite find_next; [done | done | by apply alts_stop | lia | lia | done]. }
  erewrite !after_done by exact Efind. cbn beta.
  pose proof (len_nonneg e). destruct (Z.eqb_spec (len e) 0) as [E0|E0].
  - assert (e = []) as Ee by (apply len_nil; lia). unfold bs in *. rewrite Ee in *. cbn [app] in *.
    destruct (config_loop_all fuel c alts rest slots [] cur zs base l r Halts Htail Hstop Hc Hfi Ho Hr Hf)
      as [(fuel' & c' & slots' & cur' & r' & E & H1 & H2 & H3 & H4 & H5 & H6 & H7 & H8)|Hg]; [left | by right].
    exists fuel', c', slots', cur', r'. rewrite H7, H8, Hx, Hxl. split_and!; done.
  - assert (0 < len e) as Hpos by lia.
    assert (runs (RawUsbMemAlloc (len e)) r (fun a r' =>
      (exists b, a = Some b /\ grown [b] r r') \/ a = None /\ ram_refused /\ grown [] r r')) as Ha.
    { apply runs_calloc; eauto 10. }
    apply runs_inv in Ha as (a & r1 & Ea & Ha). erewrite !after_done by exact Ea. cbn beta.
    destruct Ha as [(b & -> & Hg)|(-> & Hng & Hg)]; cbn beta iota.
    + assert (bytes_at bs (Z.to_nat (len e)) r1 = Done (e, r1)) as Eb.
      { unfold bytes_at, bs. rewrite decide_True by (rewrite length_app; unfold len; lia). by rewrite take_len. }
      erewrite !after_done by exact Eb. cbn beta. unfold bs. rewrite drop_len, len_app.
      replace (len e + len tail - len e) with (len tail) by lia. set (c1 := set_c_extra _ _ c).
      destruct (grown_more base (config_blocks c ++ l) [b] r r1 Hr Ho Hg) as [Ho1 Hr1].
      assert (filed [] alts slots c1) as Hfi1 by (by destruct Hfi).
      assert (owns base (config_blocks c1 ++ l) r1) as Ho2.
      { eapply owns_perm; [|exact Ho1]. unfold config_blocks, c1. cbn [interface c_extra set_c_extra ptr_block]. rewrite Hx.
        cbn [ptr_block]. rewrite app_nil_r, <- !app_assoc. apply Permutation_app_head. by rewrite Permutation_app_comm. }
      destruct (config_loop_all fuel c1 alts rest slots [] cur zs base l r1 Halts Htail Hstop Hc Hfi1 Ho2 Hr1)
        as [(fuel' & c' & slots' & cur' & r' & E & H1 & H2 & H3 & H4 & H5 & H6 & H7 & H8)|Hgave];
        [by eapply fits_tail | left | by right].
      exists fuel', c', slots', cur', r'. rewrite H7, H8. split_and!; done.
    + right. destruct (grown_more base (config_blocks c ++ l) [] r r1 Hr Ho Hg) as [Ho1 Hr1]. rewrite app_nil_r in Ho1.
      assert (set_c_extra None (c_extraLength c) c = c) as -> by (unfold set_c_extra; destruct c; cbn in Hx; by rewrite Hx).
      assert (runs (c2 ← RawClearConfiguration c; mret (HDF_ERR_MALLOC_FAIL, c2)) r1
                (fun p r' => p.1 = HDF_ERR_MALLOC_FAIL /\ owns base l r')) as H2.
      { apply runs_bind. eapply RawClearConfiguration_owns; [by eapply filed_shape | exact Ho1|].
        intros c2 r2 H2. by apply runs_ret. }
      apply runs_inv in H2 as ([ret' c2] & r2 & -> & [= ->] & H2). exists HDF_ERR_MALLOC_FAIL, c2, r2.
      split; [done|]. split; [by apply malloc_failed | done].
Qed.

(** ** The configuration *)
Lemma filed_view alts slots c :
  filed alts alts slots c ->
  map view_interface (take (Z.to_nat (bNumInterfaces (configDescriptor c))) (interface c)) =
    map (fun n => map mean_alt (alts_of n alts)) (numbers alts).
Proof.
  intros [H1 H2 H3]. rewrite H2, Nat2Z.id, H1, take_app_length. clear H1 H2.
  induction H3 as [|n p ns ps (b & used & m & -> & _ & Hv & _) _ IH]; [done|]. cbn [map]. rewrite IH. f_equal.
  cbn. by rewrite Nat2Z.id, take_app_length.
Qed.

Lemma config_bytes_split t : config_bytes t = ct_desc t ++ concat (ct_extra t) ++ concat (map alt_bytes (ct_alts t)).
Proof.
  unfold config_bytes, config_descs. cbn [concat]. rewrite concat_app. do 2 f_equal.
  induction (ct_alts t) as [|a l IH]; [done|]. cbn [map concat]. by rewrite concat_app, IH.
Qed.

Lemma config_descs_plain t : config_ok t -> Forall plain_ok (config_descs t).
Proof.
  intros [Hd _ Hex Halts _ _ _].
  assert (forall ds, Forall extra_ok ds -> Forall plain_ok ds) as Hplain.
  { intros ds Hds. eapply Forall_impl; [exact Hds|]. intros d (ty & _ & _ & H). by exists ty. }
  constructor; [eexists; eapply desc_weaken; [exact Hd | lia]|]. apply Forall_app. split; [by apply Hplain|].
  apply Forall_concat, Forall_map. eapply Forall_impl; [exact Halts|]. intros a [Had _ _ Hax Hes]. cbn.
  constructor; [eexists; eapply desc_weaken; [exact Had | lia]|]. apply Forall_app. split; [by apply Hplain|].
  apply Forall_concat, Forall_map. eapply Forall_impl; [exact Hes|]. intros e [Hed Hee].
  constructor; [eexists; eapply desc_weaken; [exact Hed | lia] | by apply Hplain].
Qed.

Lemma config_counts t n : config_ok t -> count_of (ct_alts t) n <= USB_MAXALTSETTING.
Proof. intros H. apply (go_alts_max _ H). Qed.

Lemma config_interfaces t : config_ok t -> (length (numbers (ct_alts t)) <= 32)%nat.
Proof. intros H. pose proof (go_numbers _ H) as Hn. unfold USB_MAXINTERFACES in Hn. lia. Qed.

Lemma GetInterfaceNumber_config fuel t rest r :
  config_ok t -> tail_ok rest -> fits fuel (config_bytes t ++ rest) ->
  exists zs,
    GetInterfaceNumber fuel (config_bytes t ++ rest) (len (config_bytes t ++ rest)) 0
      (replicate (Z.to_nat USB_MAXINTERFACES) 0) (replicate (Z.to_nat USB_MAXINTERFACES) 0) r =
      Done ((length (numbers (ct_alts t)),
             (numbers (ct_alts t) ++ zs, map (count_of (ct_alts t)) (numbers (ct_alts t)) ++ zs)), r).
Proof.
  intros Ht Hrest [Hm Hf].
  pose proof (GetInterfaceNumber_descs fuel (config_descs t) rest [] r (config_descs_plain t Ht) Hrest) as H.
  cbn zeta in H. change (config_bytes t) with (concat (config_descs t)) in *.
  assert (foldl note [] (config_descs t) = tally_of (ct_alts t)) as E.
  { pose proof (config_interfaces t Ht) as Hi. pose proof (fun n => config_counts t n Ht) as Hc.
    destruct Ht as [Hd _ Hex Halts _ _ _]. unfold config_descs. cbn [foldl]. rewrite foldl_app.
    assert (note [] (ct_desc t) = []) as ->.
    { unfold note. by rewrite (plain_byte USB_DDK_DT_CONFIG) by (eapply desc_weaken; [exact Hd | lia]). }
    rewrite (note_extra [] (ct_extra t)) by done. by apply config_tally. }
  rewrite E in H. exists (replicate (32 - length (tally_of (ct_alts t))) 0).
  etransitivity; [apply H|].
  - split; [constructor | cbn; lia | constructor].
  - lia.
  - unfold len. lia.
  - unfold nIntf_of, nAlts_of. rewrite tally_of_names. unfold tally_of. by rewrite length_map, <- list_fmap_compose.
Qed.

(** The outcome of parsing: nothing is left to do but to look at what follows,
    or memory was refused and [leaked] is still allocated. *)
Definition parsed (t : config_tree) (rest : list Z) (base : gset nat) (l : list nat)
    (o : outcome ((Z * UsbRawConfigDescriptor) * Ram)) : Prop :=
  exists fuel c slots cur zs r,
    o = config_loop fuel c rest (len rest) cur (numbers (ct_alts t) ++ zs) r /\ (0 < fuel)%nat /\
    (cur = None /\ ct_alts t = [] \/ exists k, cur = Some k /\ (k < length slots)%nat) /\
    length slots = length (numbers (ct_alts t)) /\ config_shape slots c /\ view_config c = mean_config t /\ owns base (config_blocks c ++ l) r /\ ram_wf r.
Definition refused (base : gset nat) (l : list nat) (o : outcome ((Z * UsbRawConfigDescriptor) * Ram)) : Prop :=
  exists ret c r leaked, o = Done ((ret, c), r) /\ failed ret /\ owns base (leaked ++ l) r.

(** The configuration descriptor itself, its interfaces not yet counted. *)
Definition config_desc_of (d : desc) : UsbConfigDescriptor :=
  mkConfigDesc (byte d 0) (byte d 1) (word16 (byte d 2) (byte d 3)) (byte d 4) (byte d 5) (byte d 6) (byte d 7) (byte d 8).

Lemma ParseConfigDescriptor_ok d rest r :
  (9 <= length d)%nat -> ParseConfigDescriptor (d ++ rest) r = Done (config_desc_of d, r).
Proof.
  intros H. do 9 (destruct d as [|? d]; [cbn in H; lia|]). unfold ParseConfigDescriptor, bytes_at.
  erewrite after_done; [|rewrite decide_True by (cbn; lia); done]. done.
Qed.

(** The checks of the configuration descriptor pass. *)
Lemma ParseConfiguration_header fuel d tail r :
  desc_ok 9 USB_DDK_DT_CONFIG d -> byte d 4 <= USB_MAXINTERFACES -> len d <= u8 (len (d ++ tail)) ->
  let zeros := replicate (Z.to_nat USB_MAXINTERFACES) 0 in
  ParseConfiguration fuel zero_config (d ++ tail) (len (d ++ tail)) r =
    ('(num, (nIntf, nAlts)) ← GetInterfaceNumber fuel (d ++ tail) (len (d ++ tail)) 0 zeros zeros;
     '(ok, c) ← alloc_interfaces num 0 nAlts
                  (set_configDescriptor (set_bNumInterfaces (u8 (Z.of_nat num)) (config_desc_of d)) zero_config);
     if negb ok then mret (HDF_ERR_MALLOC_FAIL, c)
     else ParseConfigurationDes fuel c tail (len tail) (match num with O => None | S n => Some n end) nIntf) r.
Proof.
  intros Hd Hnum Hu8 zeros. pose proof (desc_two _ _ _ Hd). pose proof (len_nonneg tail).
  assert (9 <= len d) as H9 by (destruct Hd; unfold len; lia). unfold ParseConfiguration.
  rewrite (proj2 (Z.ltb_ge _ USB_DDK_DT_CONFIG_SIZE)) by (rewrite len_app; unfold USB_DDK_DT_CONFIG_SIZE; lia).
  erewrite after_done by (apply ParseConfigDescriptor_ok; unfold len in H9; lia).
  assert (c_bLength (config_desc_of d) = len d) as El.
  { cbn. destruct Hd as [E _ _ _]. unfold byte. by rewrite (nth_lookup_Some _ _ _ _ E). }
  assert (c_bDescriptorType (config_desc_of d) = USB_DDK_DT_CONFIG) as Et.
  { cbn. destruct Hd as [_ E _ _]. unfold byte. by rewrite (nth_lookup_Some _ _ _ _ E). }
  cbn [configDescriptor set_configDescriptor]. rewrite El, Et, Z.eqb_refl. cbn [negb orb].
  rewrite (proj2 (Z.ltb_ge (len d) USB_DDK_DT_CONFIG_SIZE)) by (unfold USB_DDK_DT_CONFIG_SIZE; lia).
  rewrite (proj2 (Z.ltb_ge (u8 _) _)), (proj2 (Z.ltb_ge USB_MAXINTERFACES _)) by (exact Hnum || lia). cbn [orb].
  rewrite drop_len, len_app. replace (len d + len tail - len d) with (len tail) by lia. done.
Qed.

Lemma ParseConfiguration_ok fuel t rest base l r :
  let bs := config_bytes t ++ rest in
  config_ok t -> tail_ok rest -> stops rest -> len (ct_desc t) <= u8 (len bs) ->
  owns base l r -> ram_wf r -> fits fuel bs ->
  parsed t rest base l (ParseConfiguration fuel zero_config bs (len bs) r) \/
  refused base l (ParseConfiguration fuel zero_config bs (len bs) r).
Proof.
  intros bs Ht Hrest Hstop Hu8 Ho Hr Hf. pose proof Ht as [Hd Hnum Hex Halts _ _ _].
  destruct (GetInterfaceNumber_config fuel t rest r Ht Hrest Hf) as [zs Ecount]. fold bs in Ecount.
  pose proof (config_interfaces t Ht) as Hi. set (alts := ct_alts t) in *.
  set (tail := concat (ct_extra t) ++ concat (map alt_bytes alts) ++ rest).
  assert (bs = ct_desc t ++ tail) as Ebs by (unfold bs, tail; by rewrite config_bytes_split, <- !app_assoc).
  rewrite Ebs in *. rewrite ParseConfiguration_header by done. cbn zeta.
  erewrite after_done by exact Ecount. cbn beta iota.
  set (n := length (numbers alts)) in *. set (c1 := set_configDescriptor _ _).
  assert (u8 (Z.of_nat n) = Z.of_nat n) as En by (unfold u8; rewrite Z.mod_small; lia).
  assert (runs (alloc_interfaces n 0 (map (count_of alts) (numbers alts) ++ zs) c1) r
    (fun '(ok, c') r' => configDescriptor c' = configDescriptor c1 /\ c_extra c' = None /\ c_extraLength c' = 0 /\
       owns base (config_blocks c' ++ l) r' /\ ram_wf r' /\
       (ok = true /\ (exists slots', interface c' = slots' ++ replicate (32 - length slots') None /\
                        Forall2 (slot_for [] alts) (numbers alts) slots') \/ ok = false /\ ram_refused))) as Halloc.
  { apply (alloc_interfaces_ok alts [] (numbers alts) zs [] c1 base l r); [|done|constructor|done|done|done].
    intros m. by apply config_counts. }
  apply runs_inv in Halloc as ([ok c2] & r2 & E2 & Ed & Ex & Exl & Ho2 & Hr2 & Hres).
  erewrite !after_done by exact E2. cbn beta iota.
  destruct Hres as [(-> & slots & Hs & Hfor)|[-> Hng]]; cbn [negb].
  2:{ right. exists HDF_ERR_MALLOC_FAIL, c2, r2, (config_blocks c2). split; [done|]. split; [by apply malloc_failed | done]. }
  assert (filed [] alts slots c2) as Hfi.
  { split; [done | | done]. rewrite Ed. cbn. rewrite En. unfold n. by rewrite (Forall2_length _ _ _ Hfor). }
  set (cur := match n with O => None | S m => Some m end).
  destruct (ParseConfigurationDes_ok fuel c2 (ct_extra t) alts rest slots zs cur base l r2 Hex Halts Hrest Hstop
              (fun m => config_counts t m Ht) Hfi Ex Exl Ho2 Hr2)
    as [(fuel' & c' & slots' & cur' & r' & E & Hpos & Hcur & Hfi' & Ho' & Hr' & Ed' & Ex' & Exl')|(ret & c' & r' & E & Hfail & Ho')].
  - by eapply fits_tail.
  - left. exists fuel', c', slots', cur', zs, r'. split; [exact E|]. split; [done|]. split.
    { destruct Hcur as [[-> Ha]|?]; [left | by right]. unfold cur, n. by rewrite Ha. }
    split; [symmetry; by eapply Forall2_length, fi_for|]. split; [by eapply filed_shape; [intros m; by apply config_counts|]|].
    split; [|done]. unfold view_config, mean_config. rewrite (filed_view _ _ _ Hfi'), Ed', Ed, Ex', Exl'.
    f_equal. cbn. by rewrite En.
  - right. exists ret, c', r', []. by split.
Qed.

(** ** What follows *)

(** Nothing follows: the loop is over. *)
Lemma config_loop_done fuel c cur nIntf r :
  (0 < fuel)%nat -> config_loop fuel c [] (len []) cur nIntf r = Done ((0, c), r).
Proof. by destruct fuel; [lia|]. Qed.

(** The beginning of an interface follows: the loop never gets beyond it. *)
Lemma config_loop_stuck fuel c slots ns zs rest k r :
  3 <= len rest < USB_DDK_DT_INTERFACE_SIZE -> config_shape slots c -> length slots = length ns ->
  (k < length slots)%nat ->
  config_loop fuel c rest (len rest) (Some k) (ns ++ zs) r = Running.
Proof.
  intros Hrest Hc Hn. pose proof Hc as [Hs Hcount Hsh]. revert k. unfold USB_DDK_DT_INTERFACE_SIZE in Hrest.
  induction fuel as [|fuel IH]; intros k Hk; [done|]. simpl. rewrite (proj2 (Z.ltb_lt _ _)) by lia.
  rewrite Hcount, Nat2Z.id. destruct (length slots) as [|m] eqn:Em; [lia|]. rewrite <- Em in *.
  destruct (lookup_lt_is_Some_2 rest 2) as [inum E2]; [unfold len in Hrest; lia|].
  pose proof (find_number_spec [] ns zs inum r) as E. cbn [app length Nat.add] in E. rewrite <- Hn in E.
  unfold byte_at. rewrite E2.
  erewrite after_done; [|erewrite after_done; [|done]; erewrite after_done; [|exact E]; done].
  assert (exists k', (if (index_of ns inum <? length slots)%nat then Some (index_of ns inum) else Some k) = Some k' /\
    (k' < length slots)%nat) as (k' & -> & Hk').
  { destruct (Nat.ltb_spec (index_of ns inum) (length slots)); eauto. }
  destruct (lookup_lt_is_Some_2 slots k' Hk') as [p Ep]. cbn [mbind option_bind].
  assert (interface c !! k' = Some p) as Ei by (rewrite Hs; by apply lookup_app_l_Some). rewrite Ei.
  pose proof (Forall_lookup_1 _ _ _ _ Hsh Ep) as (b & used & m' & -> & Hused & _).
  unfold ParseInterface, USB_MAXALTSETTING. cbn [numAltsetting]. rewrite (proj2 (Z.ltb_ge _ _)) by lia.
  simpl interface_loop. unfold USB_DDK_DT_INTERFACE_SIZE. rewrite (proj2 (Z.ltb_lt (len rest) 9)) by lia.
  erewrite after_done by done. cbn beta iota zeta. cbn [Z.ltb Z.compare default from_option].
  unfold id. rewrite list_insert_id by exact Ei. rewrite Z.sub_0_r. cbn [Z.to_nat drop].
  assert (set_interface (interface c) c = c) as -> by by destruct c. by apply IH.
Qed.

(** ** [DescToConfig] *)

(** A configuration in memory and the blocks it owns. *)
Definition holds (t : config_tree) (base : gset nat) (p : ptr UsbRawConfigDescriptor) (r : Ram) : Prop :=
  exists b c slots, p = Some (b, c) /\ view_config c = mean_config t /\ config_shape slots c /\
    owns base (config_blocks c ++ [b]) r.

Lemma calloc_config r (Q : option nat -> Ram -> Prop) :
  ram_wf r ->
  (forall b r', owns (ram_live r) [b] r' -> ram_wf r' -> Q (Some b) r') ->
  (ram_refused -> forall r', ram_live r' = ram_live r -> Q None r') ->
  runs (RawUsbMemCalloc sizeof_UsbRawConfigDescriptor) r Q.
Proof.
  intros Hr H1 H2. pose proof sz_config. apply runs_calloc; [done | |].
  - intros b r' Hg. destruct (grown_more _ _ _ _ _ Hr (owns_none r) Hg). by apply H1.
  - intros Hn r' [E _ _ _]. apply H2; [done|]. rewrite E. cbn. set_solver.
Qed.

Lemma tail_nil : tail_ok [].
Proof. split; [unfold len, USB_DDK_DT_INTERFACE_SIZE; cbn; lia | constructor]. Qed.

Lemma DescToConfig_any fuel t r :
  config_ok t -> len (ct_desc t) <= u8 (len (config_bytes t)) -> ram_wf r -> fits fuel (config_bytes t) ->
  runs (DescToConfig fuel (config_bytes t) (len (config_bytes t))) r (fun '(ret, config) r' =>
    ret = 0 /\ holds t (ram_live r) config r' \/ failed ret /\ config = None /\ ram_live r ⊆ ram_live r').
Proof.
  intros Ht Hu8 Hr Hf. apply runs_bind, calloc_config; [done | |].
  2:{ intros Hng r1 E. apply runs_ret. right. split; [by apply malloc_failed|]. split; [done|]. by rewrite E. }
  intros b r1 Ho Hr1. rewrite <- (app_nil_r (config_bytes t)) in *. apply runs_bind.
  destruct (ParseConfiguration_ok fuel t [] (ram_live r) [b] r1 Ht) as
    [(fuel' & c & slots & cur & zs & r2 & E & Hpos & _ & _ & Hc & Hv & Ho2 & _)|(ret & c & r2 & leaked & E & [Hng Hneg] & Ho2)];
    [apply tail_nil | by left | done | done | done | done | |].
  - unfold runs. rewrite E, config_loop_done by done. cbn. left. split; [done|]. by exists b, c, slots.
  - unfold runs at 1. rewrite E. rewrite (proj2 (Z.ltb_lt _ _)) by lia. apply runs_bind.
    apply (owns_perm _ _ (b :: leaked)) in Ho2; [|by rewrite Permutation_app_comm]. eapply owns_free; [exact Ho2|].
    intros r3 [E3 _ _]. apply runs_ret. right. split; [done|]. split; [done|]. rewrite E3. set_solver.
Qed.

Lemma UsbRawFreeConfigDescriptor_ok t base p r (Q : unit -> Ram -> Prop) :
  holds t base p r -> (forall r', ram_live r' = base -> Q tt r') -> runs (UsbRawFreeConfigDescriptor p) r Q.
Proof.
  intros (b & c & slots & -> & _ & Hc & Ho) HQ. apply runs_bind. eapply RawClearConfiguration_owns; [exact Hc | exact Ho|].
  intros c' r1 Ho1. eapply owns_free; [exact Ho1|]. intros r2 Ho2. by apply HQ, owns_nothing.
Qed.
End whole.
