(* ===== verification/UsbDescRun.v ===== *)
(** * UsbDescRun: reading the configuration of a device

    What [UsbRawGetConfigDescriptor] and [UsbRawFreeConfigDescriptor] do for a
    device that sends a well-formed configuration, and what a malformed one does
    to them. *)
From S2P Require Import Prelude Hdf Arrays UsbDesc UsbDescSpec UsbDescFacts UsbDescParse UsbDescConfig UsbDescLoop UsbDescWhole.
Open Scope Z_scope.

Section run.
Context {HS : HdfStatus} {US : UsbStatus} {UL : UsbStatusLaws} {RA : RamAlloc} {SZ : UsbSizes} {SL : UsbSizesLaws}.

(** ** Devices *)

(** The configuration [idx] of the device is [bytes]: that much is sent as is
    asked for. *)
Definition serves (get : Z -> Z -> Z * list Z) (idx : Z) (bytes : list Z) : Prop :=
  forall size, 0 <= size <= len bytes -> get idx size = (size, take (Z.to_nat size) bytes).

(** The descriptor says how long the configuration is. *)
Definition total_ok (t : config_tree) : Prop :=
  word16 (byte (ct_desc t) 2) (byte (ct_desc t) 3) = len (config_bytes t).

(** The length the parser looks at is not shorter than the descriptor. *)
Definition u8_ok (t : config_tree) : Prop := len (ct_desc t) <= u8 (len (config_bytes t)).

Lemma config_bytes_long t : config_ok t -> 9 <= len (config_bytes t).
Proof.
  intros Ht. destruct (go_desc _ Ht) as [_ _ Hm _]. rewrite config_bytes_split, len_app.
  pose proof (len_nonneg (concat (ct_extra t) ++ concat (map alt_bytes (ct_alts t)))). unfold len in *. lia.
Qed.

Lemma config_byte t k : config_ok t -> (k < 9)%nat -> config_bytes t !! k = Some (byte (ct_desc t) k).
Proof. intros Ht Hk. rewrite config_bytes_split. eapply desc_byte; [apply (go_desc _ Ht) | done]. Qed.

Lemma served get idx bytes size r :
  serves get idx bytes -> USB_DDK_DT_CONFIG_SIZE <= size <= len bytes ->
  GetConfigDescriptor (Some get) idx size r = Done ((size, take (Z.to_nat size) bytes), r).
Proof.
  unfold USB_DDK_DT_CONFIG_SIZE. intros Hget Hs. unfold GetConfigDescriptor. rewrite Hget by lia.
  rewrite (proj2 (Z.ltb_ge size 0)), (proj2 (Z.ltb_ge size USB_DDK_DT_CONFIG_SIZE)) by (unfold USB_DDK_DT_CONFIG_SIZE; lia).
  done.
Qed.

(** What [RawGetConfigDescriptor] does with the device is [DescToConfig] over
    the bytes of its configuration, with a block of memory around it. *)
Lemma RawGetConfigDescriptor_served fuel get t n idx r (Q : Z * ptr UsbRawConfigDescriptor -> Ram -> Prop) :
  config_ok t -> total_ok t -> serves get idx (config_bytes t) -> idx <= n -> ram_wf r ->
  (ram_refused -> forall r', ram_live r' = ram_live r -> Q (HDF_ERR_MALLOC_FAIL, None) r') ->
  (forall b r1, grown [b] r r1 ->
     runs (DescToConfig fuel (config_bytes t) (len (config_bytes t))) r1 (fun p r2 => runs (RawUsbMemFree b) r2 (fun _ => Q p))) ->
  runs (RawGetConfigDescriptor (Some get) fuel n idx) r Q.
Proof.
  intros Ht Htot Hget Hidx Hr Hfail Hgo. pose proof (config_bytes_long t Ht) as Hlen. pose proof us_success as Hok.
  unfold RawGetConfigDescriptor. rewrite (proj2 (Z.ltb_ge n idx)) by lia. apply runs_bind. unfold runs at 1.
  rewrite (served get idx (config_bytes t)) by (done || (unfold USB_DDK_DT_CONFIG_SIZE; lia)).
  rewrite Hok. cbn [Z.ltb Z.compare]. change (USB_DDK_DT_CONFIG_SIZE <? 0) with false. cbn iota.
  assert (forall k, (k < 9)%nat -> take (Z.to_nat USB_DDK_DT_CONFIG_SIZE) (config_bytes t) !! k = Some (byte (ct_desc t) k)) as Hb.
  { intros k Hk. rewrite lookup_take_lt by (change (Z.to_nat USB_DDK_DT_CONFIG_SIZE) with 9%nat; lia). by apply config_byte. }
  eapply runs_bind, runs_byte_at; [apply Hb; lia|]. eapply runs_bind, runs_byte_at; [apply Hb; lia|]. rewrite Htot.
  apply runs_bind, runs_calloc; [lia | | ].
  - intros b r1 Hg. apply runs_bind. unfold runs at 1.
    rewrite (served get idx (config_bytes t)) by (done || (unfold USB_DDK_DT_CONFIG_SIZE; lia)).
    rewrite (proj2 (Z.leb_le 0 _)) by lia. unfold len at 1. rewrite Nat2Z.id, take_ge by done. apply runs_bind.
    eapply runs_mono; [by apply Hgo|]. intros [ret config] r2 Hq. apply runs_bind. eapply runs_mono; [exact Hq|].
    intros [] r3 HQ. by apply runs_ret.
  - intros Hng r' [E _ _ _]. apply runs_ret. apply Hfail; [done|]. rewrite E. cbn. set_solver.
Qed.

(** The block the bytes were read into is released. *)
Lemma holds_free t b p r r1 r2 (Q : unit -> Ram -> Prop) :
  ram_wf r -> grown [b] r r1 -> holds t (ram_live r1) p r2 ->
  (forall r3, holds t (ram_live r) p r3 -> Q tt r3) -> runs (RawUsbMemFree b) r2 Q.
Proof.
  intros Hr [E1 _ _ Hb] (b' & c & slots & -> & Hv & Hc & [E2 Hd Ha]) HQ. cbn in E1.
  assert (b ∉ ram_live r) as Hbr by (intros Hin%Hr; apply Forall_inv in Hb; lia).
  assert (b ∉ config_blocks c ++ [b']) as Hbc.
  { intros Hin. eapply Forall_forall in Ha; [|exact Hin]. apply Ha. rewrite E1. set_solver. }
  apply runs_free; [rewrite E2, E1; set_solver|]. apply HQ. exists b', c, slots. split_and!; [done..|].
  split; [|done|].
  - cbn [ram_live]. rewrite E2, E1. apply set_eq. intros x.
    rewrite elem_of_difference, !elem_of_union, !elem_of_list_to_set, elem_of_singleton, elem_of_empty.
    split; [tauto|]. intros Hx. split; [tauto|]. intros ->. tauto.
  - eapply Forall_impl; [exact Ha|]. cbn. rewrite E1. set_solver.
Qed.

Lemma get_config_any fuel get t n idx r :
  config_ok t -> total_ok t -> u8_ok t -> serves get idx (config_bytes t) -> idx <= n -> ram_wf r ->
  (length (config_bytes t) < fuel)%nat ->
  runs (UsbRawGetConfigDescriptor (Some get) fuel (Some n) idx) r (fun '(ret, config) r' =>
    ret = 0 /\ holds t (ram_live r) config r' \/ failed ret /\ config = None).
Proof.
  intros Ht Htot Hu8 Hget Hidx Hr Hf. apply (RawGetConfigDescriptor_served fuel get t); [done..| |].
  { intros Hng r' _. right. by split; [apply malloc_failed|]. }
  intros b r1 Hg. pose proof (grown_more (ram_live r) [] [b] r r1 Hr (owns_none r) Hg) as [_ Hr1].
  eapply runs_mono; [apply DescToConfig_any; [done | done | done |]|].
  { split; [|done]. pose proof (go_total _ Ht). unfold len. lia. }
  intros [ret config] r2 [[-> Hh]|(Hfail & -> & Hsub)].
  - apply (holds_free t b config r r1 r2 _ Hr Hg Hh). intros r3 H3. by left.
  - apply runs_free; [|right; by split]. apply Hsub. destruct Hg as [-> _ _ _]. set_solver.
Qed.

(** ** Well-formed configurations *)

(** C3: for a device with a well-formed configuration, of whose total length the
    low byte is at least the length of the configuration descriptor, and memory
    enough, reading the configuration returns success and a structure that says
    exactly what the bytes mean: the configuration with the number of distinct
    interfaces, each interface with its alternate settings in the order sent
    (however the alternate settings of different interfaces are mixed), each
    with its endpoints, and the class-specific descriptors behind each of them. *)
Theorem config_read fuel get t n idx r :
  config_ok t -> total_ok t -> u8_ok t -> serves get idx (config_bytes t) -> idx <= n ->
  ram_granted -> ram_wf r -> (length (config_bytes t) < fuel)%nat ->
  exists b c r', UsbRawGetConfigDescriptor (Some get) fuel (Some n) idx r = Done ((0, Some (b, c)), r') /\
    view_config c = mean_config t.
Proof.
  intros Ht Htot Hu8 Hget Hidx Hgr Hr Hf.
  pose proof (get_config_any fuel get t n idx r Ht Htot Hu8 Hget Hidx Hr Hf) as H.
  apply runs_inv in H as ([ret config] & r' & -> & [[-> (b & c & slots & -> & Hv & _)]|[[Hng _] _]]); [|by destruct (granted_refused Hgr)].
  by exists b, c, r'.
Qed.

(** C21: with memory enough, reading the configuration of a device and freeing it
    again gives back every block of memory that was taken, and no other. *)
Theorem config_freed fuel get t n idx r :
  config_ok t -> total_ok t -> u8_ok t -> serves get idx (config_bytes t) -> idx <= n ->
  ram_granted -> ram_wf r -> (length (config_bytes t) < fuel)%nat ->
  exists r', ('(ret, config) ← UsbRawGetConfigDescriptor (Some get) fuel (Some n) idx;
              UsbRawFreeConfigDescriptor config;; mret ret) r = Done (0, r') /\ ram_live r' = ram_live r.
Proof.
  intros Ht Htot Hu8 Hget Hidx Hgr Hr Hf.
  pose proof (get_config_any fuel get t n idx r Ht Htot Hu8 Hget Hidx Hr Hf) as H.
  apply runs_inv in H as ([ret config] & r1 & E & [[-> Hh]|[[Hng _] _]]); [|by destruct (granted_refused Hgr)].
  assert (runs (UsbRawFreeConfigDescriptor config;; mret 0) r1 (fun ret r' => ret = 0 /\ ram_live r' = ram_live r)) as H2.
  { apply runs_bind. eapply UsbRawFreeConfigDescriptor_ok; [exact Hh|]. intros r2 E2. by apply runs_ret. }
  apply runs_inv in H2 as (ret & r2 & E2 & -> & Hl). exists r2. by erewrite after_done by exact E.
Qed.

(** C22: whichever requests for memory are refused, reading a well-formed
    configuration comes to an end without an access outside the buffer or to
    released memory; it either succeeds with the right structure or returns a
    negative status, and leaves the caller without a structure, because memory
    was refused. *)
Theorem config_refused fuel get t n idx r :
  config_ok t -> total_ok t -> u8_ok t -> serves get idx (config_bytes t) -> idx <= n ->
  ram_wf r -> (length (config_bytes t) < fuel)%nat ->
  exists ret config r', UsbRawGetConfigDescriptor (Some get) fuel (Some n) idx r = Done ((ret, config), r') /\
    (ret = 0 /\ (exists b c, config = Some (b, c) /\ view_config c = mean_config t) \/
     ret < 0 /\ config = None /\ exists k size, 0 < size /\ ram_ok k size = false).
Proof.
  intros Ht Htot Hu8 Hget Hidx Hr Hf.
  pose proof (get_config_any fuel get t n idx r Ht Htot Hu8 Hget Hidx Hr Hf) as H.
  apply runs_inv in H as ([ret config] & r1 & E & H). exists ret, config, r1. split; [done|].
  destruct H as [[-> (b & c & slots & -> & Hv & _)]|[[Hng Hneg] ->]]; [left | right].
  - split; [done|]. by exists b, c.
  - done.
Qed.
End run.
