(* ===== verification/UsbDescRam.v ===== *)
(** * UsbDescRam: the parser and the names of memory blocks

    Whatever bytes it is given and whatever it returns, the parser never reuses
    the name of a memory block and keeps the live blocks named like past
    requests. *)
From S2P Require Import Prelude Hdf Arrays UsbDesc UsbDescSpec UsbDescFacts UsbDescParse UsbDescConfig.
Open Scope Z_scope.

(** The memory after [r]: names only go up. *)
Record later (r r' : Ram) : Prop := Later {
  la_next : (ram_next r <= ram_next r')%nat;
  la_wf : ram_wf r -> ram_wf r';
}.
#[global] Instance later_refl : Reflexive later.
Proof. by split. Qed.
#[global] Instance later_trans : Transitive later.
Proof. intros r1 r2 r3 [] []. split; [lia | auto]. Qed.

Definition keeps_later {A} (m : P A) : Prop := forall r a r', m r = Done (a, r') -> later r r'.
Create HintDb later discriminated.

Lemma later_ret {A} (a : A) : keeps_later (mret a).
Proof. by intros r ? ? [= <- <-]. Qed.
Lemma later_crash {A} : keeps_later (crash (A := A)).
Proof. done. Qed.
Lemma later_no_fuel {A} : keeps_later (no_fuel (A := A)).
Proof. done. Qed.
Lemma later_bind {A B} (m : P A) (k : A -> P B) :
  keeps_later m -> (forall a, keeps_later (k a)) -> keeps_later (m ≫= k).
Proof.
  intros Hm Hk r b r' E. unfold mbind, P_bind in E. destruct (m r) as [[a r1]| |] eqn:E1; [|done..].
  etrans; [by eapply Hm | by eapply Hk].
Qed.
Lemma later_byte_at bs k : keeps_later (byte_at bs k).
Proof. unfold byte_at. by destruct (bs !! k); [apply later_ret | apply later_crash]. Qed.
Lemma later_bytes_at bs n : keeps_later (bytes_at bs n).
Proof. unfold bytes_at. by destruct (decide _); [apply later_ret | apply later_crash]. Qed.
#[export] Hint Resolve later_ret later_crash later_no_fuel later_byte_at later_bytes_at : later.

(** Programs are taken apart down to the calls the hints know. *)
Ltac later :=
  repeat first
    [ solve [eauto with later]
    | apply later_bind; [|intros]
    | match goal with |- keeps_later (match ?x with _ => _ end) => destruct x end
    | match goal with |- keeps_later (let _ := _ in _) => cbv zeta end ].

Section ram.
Context {HS : HdfStatus} {US : UsbStatus} {RA : RamAlloc} {SZ : UsbSizes}.

Lemma later_calloc size : keeps_later (RawUsbMemCalloc size).
Proof.
  intros r a r' E. unfold RawUsbMemCalloc in E. destruct (size =? 0); [by injection E as <- <-|].
  destruct (ram_ok _ _); injection E as <- <-; (split; cbn; [lia|]); intros Hwf b; cbn.
  - rewrite elem_of_union, elem_of_singleton. intros [->|Hb%Hwf]; lia.
  - intros Hb%Hwf. lia.
Qed.
Lemma later_alloc size : keeps_later (RawUsbMemAlloc size).
Proof. apply later_calloc. Qed.
Lemma later_free b : keeps_later (RawUsbMemFree b).
Proof.
  intros r a r' E. unfold RawUsbMemFree in E. destruct (decide _); [|done]. injection E as <- <-.
  split; [done|]. intros Hwf x. cbn. intros [Hx _]%elem_of_difference. by apply Hwf.
Qed.
Lemma later_free_ptr {A} (p : ptr A) : keeps_later (free_ptr p).
Proof. destruct p as [[b a]|]; [apply later_free | apply later_ret]. Qed.
#[local] Hint Resolve later_calloc later_alloc later_free later_free_ptr : later.

Lemma later_find_number l n num i : keeps_later (find_number l n num i).
Proof. revert i. induction num; intros i; cbn; later. Qed.
#[local] Hint Resolve later_find_number : later.

Lemma later_GetInterfaceNumberDes bs num l1 l2 : keeps_later (GetInterfaceNumberDes bs num l1 l2).
Proof. unfold GetInterfaceNumberDes. later. Qed.
#[local] Hint Resolve later_GetInterfaceNumberDes : later.
Lemma later_GetInterfaceNumber fuel bs size num l1 l2 : keeps_later (GetInterfaceNumber fuel bs size num l1 l2).
Proof. revert bs size num l1 l2. induction fuel; intros; cbn; later. Qed.
Lemma later_FindNextDescriptor fuel bs size off : keeps_later (FindNextDescriptor fuel bs size off).
Proof. revert bs size off. induction fuel; intros; cbn; later. Qed.
#[local] Hint Resolve later_GetInterfaceNumber later_FindNextDescriptor : later.

Lemma later_ParseConfigDescriptor bs : keeps_later (ParseConfigDescriptor bs).
Proof. unfold ParseConfigDescriptor. later. Qed.
Lemma later_ParseInterfaceDescriptor bs : keeps_later (ParseInterfaceDescriptor bs).
Proof. unfold ParseInterfaceDescriptor. later. Qed.
Lemma later_ParseEndpointDescriptor bs d : keeps_later (ParseEndpointDescriptor bs d).
Proof. unfold ParseEndpointDescriptor. later. Qed.
Lemma later_ParseAudioEndpointDescriptor bs : keeps_later (ParseAudioEndpointDescriptor bs).
Proof. unfold ParseAudioEndpointDescriptor. later. Qed.
#[local] Hint Resolve later_ParseConfigDescriptor later_ParseInterfaceDescriptor later_ParseEndpointDescriptor
  later_ParseAudioEndpointDescriptor : later.

Lemma later_ParseEndpoint fuel e bs size : keeps_later (ParseEndpoint fuel e bs size).
Proof. unfold ParseEndpoint. later. Qed.
#[local] Hint Resolve later_ParseEndpoint : later.
Lemma later_endpoint_loop fuel n i bNum eps ret bs size : keeps_later (endpoint_loop fuel n i bNum eps ret bs size).
Proof. revert i eps ret bs size. induction n; intros; cbn; later. Qed.
#[local] Hint Resolve later_endpoint_loop : later.
Lemma later_ParseInterfaceEndpoint fuel ifp bs size : keeps_later (ParseInterfaceEndpoint fuel ifp bs size).
Proof. unfold ParseInterfaceEndpoint. later. Qed.
Lemma later_RawParseDescriptor size bs ifp : keeps_later (RawParseDescriptor size bs ifp).
Proof. unfold RawParseDescriptor. later. Qed.
Lemma later_ParseInterfaceCopy ifp len bs : keeps_later (ParseInterfaceCopy ifp len bs).
Proof. unfold ParseInterfaceCopy. later. Qed.
#[local] Hint Resolve later_ParseInterfaceEndpoint later_RawParseDescriptor later_ParseInterfaceCopy : later.
Lemma later_parse_alt fuel ifp bs size : keeps_later (parse_alt fuel ifp bs size).
Proof. unfold parse_alt. later. Qed.
Lemma later_other_interface bs size n : keeps_later (other_interface bs size n).
Proof. unfold other_interface. later. Qed.
#[local] Hint Resolve later_parse_alt later_other_interface : later.
Lemma later_interface_loop fuel u bs size off n : keeps_later (interface_loop fuel u bs size off n).
Proof. revert u bs size off n. induction fuel; intros; cbn -[parse_alt]; later. Qed.
#[local] Hint Resolve later_interface_loop : later.
Lemma later_ParseInterface fuel u bs size : keeps_later (ParseInterface fuel u bs size).
Proof. unfold ParseInterface. later. Qed.
#[local] Hint Resolve later_ParseInterface : later.

Lemma later_each {A} n i (l : list A) f : (forall a, keeps_later (f a)) -> keeps_later (each n i l f).
Proof. intros H. revert i. induction n; intros; cbn; later. Qed.
Lemma later_clear_alt a : keeps_later (clear_alt a).
Proof. unfold clear_alt. later. apply later_each. intros e. apply later_free_ptr. Qed.
Lemma later_ClearInterface p : keeps_later (ClearInterface p).
Proof. unfold ClearInterface. later. apply later_each. apply later_clear_alt. Qed.
Lemma later_RawClearConfiguration c : keeps_later (RawClearConfiguration c).
Proof. unfold RawClearConfiguration. later. apply later_each. apply later_ClearInterface. Qed.
#[local] Hint Resolve later_RawClearConfiguration : later.

Lemma later_config_loop fuel c bs size cur l : keeps_later (config_loop fuel c bs size cur l).
Proof. revert c bs size cur. induction fuel; intros; cbn; later. Qed.
#[local] Hint Resolve later_config_loop : later.
Lemma later_ParseConfigurationDes fuel c bs size cur l : keeps_later (ParseConfigurationDes fuel c bs size cur l).
Proof. unfold ParseConfigurationDes. later. Qed.
Lemma later_alloc_interfaces n i l c : keeps_later (alloc_interfaces n i l c).
Proof. revert i c. induction n; intros; cbn; later. Qed.
#[local] Hint Resolve later_ParseConfigurationDes later_alloc_interfaces : later.
Lemma later_ParseConfiguration fuel c bs size : keeps_later (ParseConfiguration fuel c bs size).
Proof. unfold ParseConfiguration. later. Qed.
#[local] Hint Resolve later_ParseConfiguration : later.
Lemma later_DescToConfig fuel bs size : keeps_later (DescToConfig fuel bs size).
Proof. unfold DescToConfig. later. Qed.
Lemma later_GetConfigDescriptor get idx size : keeps_later (GetConfigDescriptor get idx size).
Proof. unfold GetConfigDescriptor. later. Qed.
#[local] Hint Resolve later_DescToConfig later_GetConfigDescriptor : later.
Lemma later_RawGetConfigDescriptor get fuel n idx : keeps_later (RawGetConfigDescriptor get fuel n idx).
Proof. unfold RawGetConfigDescriptor. later. Qed.
Lemma later_UsbRawFreeConfigDescriptor p : keeps_later (UsbRawFreeConfigDescriptor p).
Proof. unfold UsbRawFreeConfigDescriptor. later. Qed.
End ram.
#[export] Hint Resolve later_RawGetConfigDescriptor later_UsbRawFreeConfigDescriptor : later.
