(* ===== verification/UsbDescErrors.v ===== *)
(** * UsbDescErrors: configurations that are not well-formed

    What holds for any bytes at all, and what the parser does with some bytes a
    device may send although it should not: it refuses configurations it could
    parse, does not return, or forgets memory. *)
From S2P Require Import Prelude Hdf Arrays UsbDesc UsbDescSpec UsbDescFacts UsbDescParse UsbDescConfig UsbDescLoop UsbDescWhole UsbDescRun.
Open Scope Z_scope.

Section errors.
Context {HS : HdfStatus} {US : UsbStatus} {UL : UsbStatusLaws} {RA : RamAlloc} {SZ : UsbSizes} {SL : UsbSizesLaws}.

(** C23: over any bytes a device may send, the walk that counts the interfaces
    ends, stays within the buffer and within its two arrays of 32 entries, and
    finds distinct interface numbers with between 1 and 128 alternate settings
    each. *)
Theorem interfaces_counted fuel bs r :
  Forall (fun b => 0 <= b < 256) bs -> len bs < 2 ^ 31 -> (length bs < fuel)%nat ->
  exists num nIntf nAlts,
    GetInterfaceNumber fuel bs (len bs) 0 (replicate 32 0) (replicate 32 0) r = Done ((num, (nIntf, nAlts)), r) /\
    (num <= 32)%nat /\ length nIntf = 32%nat /\ length nAlts = 32%nat /\ NoDup (take num nIntf) /\
    Forall (fun k => 1 <= k <= USB_MAXALTSETTING) (take num nAlts).
Proof.
  intros Hb Hm Hf. pose proof (len_nonneg bs).
  destruct (GetInterfaceNumber_bounded fuel bs (len bs) [] r) as (t & [H1 H2 H3] & E).
  - split; [constructor | cbn; lia | constructor].
  - lia.
  - done.
  - lia.
  - unfold len. lia.
  - exists (length t), (nIntf_of t), (nAlts_of t). split; [exact E|]. split; [done|].
    unfold nIntf_of, nAlts_of. rewrite !length_app, !length_fmap, !length_replicate.
    split; [lia|]. split; [lia|].
    rewrite <- (length_fmap fst t) at 1. rewrite <- (length_fmap snd t) at 2. by rewrite !take_app_length.
Qed.

(** ** The total length *)
Lemma ParseConfiguration_short fuel c bs size r d :
  USB_DDK_DT_CONFIG_SIZE <= size -> ParseConfigDescriptor bs r = Done (d, r) -> u8 size < c_bLength d ->
  ParseConfiguration fuel c bs size r = Done ((HDF_ERR_IO, set_configDescriptor d c), r).
Proof.
  intros Hs E Hu. unfold ParseConfiguration. rewrite (proj2 (Z.ltb_ge size _)) by lia.
  erewrite after_done by exact E. cbn [configDescriptor set_configDescriptor].
  rewrite (proj2 (Z.ltb_lt (u8 size) _)) by lia. rewrite orb_true_r. done.
Qed.

(** The length of the configuration is compared with the descriptor's after
    it was cut to eight bits: a device whose configuration is well-formed, but
    whose total length modulo 256 is less than the length of the configuration
    descriptor (256 to 264 bytes, say), cannot be used; reading its
    configuration fails with an input/output error. *)
Lemma config_length_wraps fuel get t n idx r :
  config_ok t -> total_ok t -> len (config_bytes t) `mod` 256 < len (ct_desc t) ->
  serves get idx (config_bytes t) -> idx <= n -> ram_granted -> ram_wf r ->
  exists r', UsbRawGetConfigDescriptor (Some get) fuel (Some n) idx r = Done ((HDF_ERR_IO, None), r') /\
    ram_live r' = ram_live r.
Proof.
  intros Ht Htot Hu8 Hget Hidx Hgr Hr.
  assert (runs (UsbRawGetConfigDescriptor (Some get) fuel (Some n) idx) r
    (fun p r' => p = (HDF_ERR_IO, None) /\ ram_live r' = ram_live r)) as H.
  { apply (RawGetConfigDescriptor_served fuel get t); [done..| |].
    { intros Hng. by destruct (granted_refused Hgr). }
    intros b r1 Hg. pose proof (grown_more (ram_live r) [] [b] r r1 Hr (owns_none r) Hg) as [Ho1 Hr1].
    apply runs_bind, runs_calloc; [apply sz_config| |intros Hng; by destruct (granted_refused Hgr)].
    intros b' r2 Hg2. pose proof (grown_more (ram_live r) ([] ++ [b]) [b'] r1 r2 Hr1 Ho1 Hg2) as [Ho2 _].
    apply runs_bind. unfold runs at 1. pose proof (config_bytes_long t Ht) as Hlen. pose proof us_io as Hio.
    erewrite (ParseConfiguration_short _ _ _ _ _ (config_desc_of (ct_desc t))).
    - rewrite (proj2 (Z.ltb_lt HDF_ERR_IO 0)) by lia. apply runs_bind.
      apply (owns_perm _ _ [b'; b]) in Ho2; [|constructor]. eapply owns_free; [exact Ho2|].
      intros r3 Ho3. apply runs_ret. eapply owns_free; [exact Ho3|]. intros r4 Ho4.
      split; [done|]. by apply owns_nothing.
    - unfold USB_DDK_DT_CONFIG_SIZE. lia.
    - rewrite config_bytes_split. apply ParseConfigDescriptor_ok. by destruct (go_desc _ Ht).
    - destruct (go_desc _ Ht) as [E _ _ _]. cbn. unfold byte. by rewrite (nth_lookup_Some _ _ _ _ E). }
  apply runs_inv in H as (p & r' & E & -> & Hl). by exists r'.
Qed.

(** ** Loops that do not end *)

(** [DescToConfig] when parsing does not come back. *)
Lemma DescToConfig_running fuel bs size r :
  ram_granted -> ram_wf r ->
  (forall b r', owns (ram_live r) [b] r' -> ram_wf r' -> ParseConfiguration fuel zero_config bs size r' = Running) ->
  DescToConfig fuel bs size r = Running.
Proof.
  intros Hgr Hr H. unfold DescToConfig.
  assert (runs (RawUsbMemCalloc sizeof_UsbRawConfigDescriptor) r
    (fun a r' => exists b, a = Some b /\ owns (ram_live r) [b] r' /\ ram_wf r')) as Ha.
  { apply calloc_config; [done | by eauto | intros Hng; by destruct (granted_refused Hgr)]. }
  apply runs_inv in Ha as (a & r' & E & b & -> & Ho & Hr'). erewrite after_done by exact E. cbn beta iota.
  unfold mbind at 1, P_bind at 1. by rewrite (H b r' Ho Hr').
Qed.

(** C28: a configuration that is well-formed up to the first three to eight bytes
    of one more interface or endpoint descriptor is never parsed: with any
    amount of fuel above the number of bytes the loop of
    [ParseConfigurationDes] is still running. *)
Theorem truncated_descriptor_hangs fuel t rest r :
  config_ok t -> ct_alts t <> [] -> 3 <= len rest < USB_DDK_DT_INTERFACE_SIZE ->
  Forall (fun b => 0 <= b < 256) rest ->
  rest !! 1%nat = Some USB_DDK_DT_INTERFACE \/ rest !! 1%nat = Some USB_DDK_DT_ENDPOINT ->
  len (ct_desc t) <= u8 (len (config_bytes t ++ rest)) -> ram_granted -> ram_wf r ->
  (length (config_bytes t ++ rest) < fuel)%nat ->
  DescToConfig fuel (config_bytes t ++ rest) (len (config_bytes t ++ rest)) r = Running.
Proof.
  intros Ht Hne Hrest Hb Hstop Hu8 Hgr Hr Hf. apply DescToConfig_running; [done..|]. intros b r1 Ho Hr1.
  assert (fits fuel (config_bytes t ++ rest)) as Hfit.
  { split; [|done]. rewrite len_app. pose proof (go_total _ Ht). unfold USB_DDK_DT_INTERFACE_SIZE, len in *. lia. }
  destruct (ParseConfiguration_ok fuel t rest (ram_live r) [b] r1 Ht (conj (proj2 Hrest) Hb) (or_intror Hstop) Hu8 Ho Hr1 Hfit)
    as [(fuel' & c & slots & cur & zs & r2 & -> & Hpos & Hcur & Hl & Hc & _)|(ret & c & r2 & leaked & E & [Hng _] & _)].
  - destruct Hcur as [[_ ?]|(k & -> & Hk)]; [done|]. by apply (config_loop_stuck _ _ slots).
  - by destruct (granted_refused Hgr).
Qed.

Lemma FindNextDescriptor_stuck fuel bs size off ty r :
  bs !! 0%nat = Some 0 -> bs !! 1%nat = Some ty -> ty <> USB_DDK_DT_INTERFACE -> ty <> USB_DDK_DT_ENDPOINT ->
  0 < size < 2 ^ 64 -> FindNextDescriptor fuel bs size off r = Running.
Proof.
  intros E0 E1 H4 H5 Hs. revert off. induction fuel as [|fuel IH]; intros off; [done|]. simpl.
  rewrite (proj2 (Z.ltb_lt 0 size)) by lia. unfold byte_at. rewrite E1, E0. erewrite after_done by done.
  rewrite (proj2 (Z.eqb_neq ty _) H4), (proj2 (Z.eqb_neq ty _) H5). cbn [orb]. erewrite after_done by done.
  cbn [Z.to_nat drop]. rewrite Z.sub_0_r, u64_id by lia. apply IH.
Qed.

(** The walk that counts the interfaces stops at a descriptor of length zero. *)
Lemma GetInterfaceNumber_zero fuel d bs ty num nIntf nAlts r :
  desc_ok 2 ty d -> ty <> USB_DDK_DT_INTERFACE -> bs !! 0%nat = Some 0 -> len (d ++ bs) < 2 ^ 32 ->
  GetInterfaceNumber fuel (d ++ bs) (len (d ++ bs)) num nIntf nAlts r = Done ((num, (nIntf, nAlts)), r) \/
  GetInterfaceNumber fuel (d ++ bs) (len (d ++ bs)) num nIntf nAlts r = Running.
Proof.
  intros Hd Hty E0 Hm. pose proof (desc_two _ _ _ Hd). pose proof (len_nonneg bs). rewrite len_app in *.
  destruct fuel as [|[|fuel]]; [by right| |]; simpl; unfold DESC_HEADER_LENGTH;
    rewrite (proj2 (Z.ltb_lt 0 _)), (proj2 (Z.ltb_ge _ 2)) by lia; unfold byte_at;
    rewrite (desc_head _ _ _ _ Hd), (desc_type _ _ _ _ Hd); (erewrite after_done by done);
    rewrite (proj2 (Z.ltb_ge _ (len d))), (proj2 (Z.ltb_ge (len d) 2)) by lia; cbn [orb];
    (erewrite after_done by done); rewrite (proj2 (Z.eqb_neq ty _) Hty); [by right | left].
  erewrite after_done by done. rewrite u64_id by lia. replace (len d + len bs - len d) with (len bs) by lia.
  rewrite drop_len. destruct (0 <? len bs); [|done]. destruct (len bs <? 2); [done|]. rewrite E0.
  erewrite after_done by done. by rewrite orb_true_r.
Qed.

(** A descriptor of length zero behind the configuration descriptor is never
    passed: [FindNextDescriptor] adds that zero for ever, with any amount of
    fuel, whatever the rest of the bytes. *)
Lemma zero_length_hangs fuel d ty rest r :
  desc_ok 9 USB_DDK_DT_CONFIG d -> byte d 4 <= USB_MAXINTERFACES ->
  ty <> USB_DDK_DT_INTERFACE -> ty <> USB_DDK_DT_ENDPOINT ->
  len d <= u8 (len (d ++ 0 :: ty :: rest)) -> len (d ++ 0 :: ty :: rest) < 2 ^ 16 ->
  ram_granted -> ram_wf r ->
  DescToConfig fuel (d ++ 0 :: ty :: rest) (len (d ++ 0 :: ty :: rest)) r = Running.
Proof.
  intros Hd Hn H4 H5 Hu8 Hm Hgr Hr. apply DescToConfig_running; [done..|]. intros b r1 _ _.
  set (bs := 0 :: ty :: rest) in *. pose proof (desc_two _ _ _ Hd). pose proof (len_nonneg bs).
  assert (2 <= len bs) as Hbs by (unfold len, bs; cbn; lia).
  rewrite ParseConfiguration_header by done. cbn zeta.
  destruct (GetInterfaceNumber_zero fuel d bs USB_DDK_DT_CONFIG 0 (replicate (Z.to_nat USB_MAXINTERFACES) 0)
              (replicate (Z.to_nat USB_MAXINTERFACES) 0) r1) as [E|E];
    [eapply desc_weaken; [exact Hd | lia] | done | done | lia | |].
  - erewrite after_done by exact E. cbn beta iota zeta. cbn [alloc_interfaces]. erewrite after_done by done.
    cbn beta iota. cbn [negb]. unfold ParseConfigurationDes. rewrite len_app in Hm. rewrite u64_id by lia.
    unfold mbind at 1, P_bind at 1. by rewrite (FindNextDescriptor_stuck _ _ _ _ ty) by (done || lia).
  - unfold mbind at 1, P_bind at 1. by rewrite E.
Qed.

(** ** Memory that is forgotten *)

Lemma calloc_yes size r :
  0 < size -> ram_ok (ram_next r) size = true ->
  RawUsbMemCalloc size r = Done (Some (ram_next r), mkRam ({[ram_next r]} ∪ ram_live r) (S (ram_next r))).
Proof. intros Hs E. unfold RawUsbMemCalloc. rewrite (proj2 (Z.eqb_neq size 0)) by lia. by rewrite E. Qed.

Lemma calloc_no size r :
  0 < size -> ram_ok (ram_next r) size = false ->
  RawUsbMemCalloc size r = Done (None, mkRam (ram_live r) (S (ram_next r))).
Proof. intros Hs E. unfold RawUsbMemCalloc. rewrite (proj2 (Z.eqb_neq size 0)) by lia. by rewrite E. Qed.

(** Memory for one interface, but not for the next. *)
Lemma alloc_second_refused n k1 k2 ks c r :
  0 <= k1 <= USB_MAXALTSETTING -> 0 <= k2 <= USB_MAXALTSETTING ->
  (forall size, 0 < size -> ram_ok (ram_next r) size = true) ->
  (forall size, 0 < size -> ram_ok (S (ram_next r)) size = false) ->
  exists c', alloc_interfaces (S (S n)) 0 (k1 :: k2 :: ks) c r =
    Done ((false, c'), mkRam ({[ram_next r]} ∪ ram_live r) (S (S (ram_next r)))).
Proof.
  intros H1 H2 Yes No. pose proof sz_interface. pose proof sz_alt. eexists. cbn [alloc_interfaces lookup list_lookup].
  rewrite !(proj2 (Z.ltb_ge USB_MAXALTSETTING _)) by lia.
  erewrite after_done by (apply calloc_yes; [nia | apply Yes; nia]). cbn beta iota.
  erewrite after_done by (apply calloc_no; [nia | apply No; nia]). done.
Qed.

(** When there is memory for the configuration and its first interface but
    not for its second, parsing fails and the caller gets no configuration, yet
    the block of the first interface stays allocated and nothing points to it
    any more. *)
Lemma refused_interface_leaks fuel t n1 n2 ns r :
  config_ok t -> numbers (ct_alts t) = n1 :: n2 :: ns -> len (ct_desc t) <= u8 (len (config_bytes t)) -> ram_wf r ->
  (forall size, 0 < size -> ram_ok (ram_next r) size = true) ->
  (forall size, 0 < size -> ram_ok (S (ram_next r)) size = true) ->
  (forall size, 0 < size -> ram_ok (S (S (ram_next r))) size = false) ->
  (length (config_bytes t) < fuel)%nat ->
  exists r', DescToConfig fuel (config_bytes t) (len (config_bytes t)) r = Done ((HDF_ERR_MALLOC_FAIL, None), r') /\
    ram_live r' = {[S (ram_next r)]} ∪ ram_live r.
Proof.
  intros Ht Hns Hu8 Hr Ok0 Ok1 Ok2 Hf. pose proof (go_desc _ Ht) as Hd. pose proof (go_num _ Ht) as Hn.
  assert (fits fuel (config_bytes t ++ [])) as Hfit.
  { rewrite app_nil_r. split; [pose proof (go_total _ Ht); unfold len; lia | done]. }
  unfold DescToConfig. erewrite after_done by (apply calloc_yes; [apply sz_config | apply Ok0, sz_config]). cbn beta iota.
  set (r1 := mkRam _ _). destruct (GetInterfaceNumber_config fuel t [] r1 Ht tail_nil Hfit) as [zs E].
  rewrite app_nil_r, Hns in E. pose proof (config_counts t n1 Ht) as C1. pose proof (config_counts t n2 Ht) as C2.
  destruct (alloc_second_refused (length ns) (count_of (ct_alts t) n1) (count_of (ct_alts t) n2)
              (map (count_of (ct_alts t)) ns ++ zs)
              (set_configDescriptor (set_bNumInterfaces (u8 (Z.of_nat (S (S (length ns))))) (config_desc_of (ct_desc t))) zero_config)
              r1) as [c' Ealloc]; [unfold count_of in *; lia.. | exact Ok1 | exact Ok2 |].
  assert (ParseConfiguration fuel zero_config (config_bytes t) (len (config_bytes t)) r1 =
    Done ((HDF_ERR_MALLOC_FAIL, c'), mkRam ({[ram_next r1]} ∪ ram_live r1) (S (S (ram_next r1))))) as Ep.
  { rewrite config_bytes_split in *. rewrite ParseConfiguration_header by done. cbn zeta.
    erewrite after_done by exact E. cbn beta iota. erewrite after_done by exact Ealloc. done. }
  erewrite after_done by exact Ep. cbn beta iota. pose proof us_malloc. rewrite (proj2 (Z.ltb_lt _ 0)) by lia.
  assert (ram_next r ∉ ram_live r) as Hfresh by (intros Hin%Hr; lia).
  eexists. split; [erewrite after_done; [done|]; unfold RawUsbMemFree; rewrite decide_True by (cbn; set_solver); done|].
  cbn [ram_live ram_next r1]. unfold r1. cbn [ram_live ram_next]. apply set_eq. intros x.
  rewrite elem_of_difference, !elem_of_union, !elem_of_singleton. split; [tauto|].
  intros Hx. split; [tauto|]. intros ->. destruct Hx as [Hx|Hx]; [lia | done].
Qed.
End errors.
