(* ===== verification/UsbDescInstance.v ===== *)
(** * UsbDescInstance: the configuration of a serial adapter

    A device with a control interface and a data interface, the latter with two
    alternate settings that are not sent in a row; the theorems of [UsbDescRun]
    and [UsbDescErrors] applied to it. *)
From S2P Require Import Prelude Hdf HdfQueue Arrays UsbDesc UsbDescSpec UsbDescFacts UsbDescParse UsbDescConfig UsbDescLoop UsbDescWhole UsbDescRun UsbDescErrors.
Open Scope Z_scope.

#[global] Instance plain_status : UsbStatus := {
  HDF_DEV_ERR_NORANGE := -202; HDF_ERR_BAD_FD := -18; HDF_ERR_NOT_SUPPORT := -2;
}.
#[global] Instance plain_status_laws : UsbStatusLaws.
Proof. by split. Qed.
#[global] Instance plain_sizes : UsbSizes := {
  sizeof_UsbRawConfigDescriptor := 288; sizeof_UsbRawInterface := 16;
  sizeof_UsbRawInterfaceDescriptor := 40; sizeof_UsbRawEndpointDescriptor := 32;
}.
#[global] Instance plain_sizes_laws : UsbSizesLaws.
Proof. by split. Qed.

(** Memory without end, and memory without the block with number [k]. *)
Definition all_ram : RamAlloc := fun _ _ => true.
Definition ram_but (k : nat) : RamAlloc := fun n _ => negb (n =? k)%nat.
Definition ram0 : Ram := mkRam ∅ 0.

Lemma all_ram_granted : @ram_granted all_ram.
Proof. done. Qed.
Lemma ram0_wf : ram_wf ram0.
Proof. by intros b ?%not_elem_of_empty. Qed.

(** ** The device *)
Definition control_alt : alt_tree :=
  ATree [9; 4; 0; 0; 1; 2; 2; 1; 0] [[5; 36; 0; 16; 1]; [4; 36; 2; 2]] [ETree [7; 5; 130; 3; 10; 0; 9] []].
Definition data_alt0 : alt_tree := ATree [9; 4; 1; 0; 0; 10; 0; 0; 0] [] [].
Definition data_alt1 : alt_tree :=
  ATree [9; 4; 1; 1; 2; 10; 0; 0; 0] []
    [ETree [7; 5; 129; 2; 64; 0; 0] [[6; 48; 0; 0; 0; 0]]; ETree [9; 5; 1; 2; 64; 0; 0; 3; 4] []].
Definition acm_config : config_tree :=
  CTree [9; 2; 82; 0; 2; 1; 0; 192; 50] [[8; 11; 0; 2; 2; 2; 1; 0]] [data_alt0; control_alt; data_alt1].

(** A device with one configuration. *)
Definition one_config (bytes : list Z) (idx size : Z) : Z * list Z :=
  (Z.min size (len bytes), take (Z.to_nat size) bytes).

Lemma one_config_serves bytes idx : serves (one_config bytes) idx bytes.
Proof. intros size Hs. unfold one_config. by rewrite Z.min_l by lia. Qed.

(** Deciding that descriptors are well-formed. *)
Ltac bytes_tac := apply (bool_decide_unpack _); by vm_compute.
Ltac desc_ok_tac := split; [done | done | cbn; lia | bytes_tac].
Ltac extra_ok_tac := eexists; split_and!; [| |desc_ok_tac]; done.
Ltac endpoint_ok_tac := split; cbn; [desc_ok_tac | repeat (constructor; [extra_ok_tac|]); constructor].
Ltac alt_ok_tac :=
  split; cbn; [desc_ok_tac | done | done | repeat (constructor; [extra_ok_tac|]); constructor
              | repeat (constructor; [endpoint_ok_tac|]); constructor].

Lemma alts_of_le n l : (length (alts_of n l) <= length l)%nat.
Proof. apply length_filter. Qed.

Lemma acm_config_ok : config_ok acm_config.
Proof.
  split; cbn [ct_desc ct_extra ct_alts acm_config].
  - desc_ok_tac.
  - by vm_compute.
  - repeat (constructor; [extra_ok_tac|]); constructor.
  - repeat (constructor; [alt_ok_tac|]); constructor.
  - by vm_compute.
  - intros n. pose proof (alts_of_le n [data_alt0; control_alt; data_alt1]) as H. cbn [length] in H.
    unfold USB_MAXALTSETTING. lia.
  - by vm_compute.
Qed.

Lemma acm_total_ok : total_ok acm_config.
Proof. by vm_compute. Qed.
Lemma acm_u8_ok : u8_ok acm_config.
Proof. by vm_compute. Qed.

Definition read_acm (ra : RamAlloc) : outcome ((Z * ptr UsbRawConfigDescriptor) * Ram) :=
  UsbRawGetConfigDescriptor (Some (one_config (config_bytes acm_config))) 100 (Some 1) 0 ram0.

Lemma config_read_witness :
  exists b c r', UsbRawGetConfigDescriptor (RA := all_ram) (Some (one_config (config_bytes acm_config))) 100 (Some 1) 0 ram0 =
    Done ((0, Some (b, c)), r') /\ view_config c = mean_config acm_config.
Proof.
  apply config_read; [exact acm_config_ok | exact acm_total_ok | exact acm_u8_ok | apply one_config_serves | lia |
    exact all_ram_granted | exact ram0_wf | vm_compute; lia].
Defined.

Lemma config_freed_witness :
  exists r', ('(ret, config) ← UsbRawGetConfigDescriptor (RA := all_ram) (Some (one_config (config_bytes acm_config))) 100 (Some 1) 0;
              UsbRawFreeConfigDescriptor config;; mret ret) ram0 = Done (0, r') /\ ram_live r' = ram_live ram0.
Proof.
  apply (config_freed (RA := all_ram) 100 (one_config (config_bytes acm_config)) acm_config 1 0 ram0);
    [exact acm_config_ok | exact acm_total_ok | exact acm_u8_ok | apply one_config_serves | lia |
     exact all_ram_granted | exact ram0_wf | vm_compute; lia].
Defined.

(** The third request, for an interface, is refused. *)
Lemma config_refused_witness :
  exists ret config r', UsbRawGetConfigDescriptor (RA := ram_but 2) (Some (one_config (config_bytes acm_config))) 100 (Some 1) 0 ram0 =
      Done ((ret, config), r') /\
    (ret = 0 /\ (exists b c, config = Some (b, c) /\ view_config c = mean_config acm_config) \/
     ret < 0 /\ config = None /\ exists k size, 0 < size /\ ram_ok (RamAlloc := ram_but 2) k size = false).
Proof.
  apply (config_refused (RA := ram_but 2) 100 (one_config (config_bytes acm_config)) acm_config 1 0 ram0);
    [exact acm_config_ok | exact acm_total_ok | exact acm_u8_ok | apply one_config_serves | lia |
     exact ram0_wf | vm_compute; lia].
Defined.

Lemma refused_interface_leaks_witness :
  exists r', DescToConfig (RA := ram_but 2) 100 (config_bytes acm_config) (len (config_bytes acm_config)) ram0 =
      Done ((HDF_ERR_MALLOC_FAIL, None), r') /\ ram_live r' = {[1%nat]} ∪ ram_live ram0.
Proof.
  apply (refused_interface_leaks (RA := ram_but 2) 100 acm_config 1 0 [] ram0);
    [exact acm_config_ok | by vm_compute | exact acm_u8_ok | exact ram0_wf | done | done | done | vm_compute; lia].
Defined.

(** ** Bytes that are not well-formed *)
Lemma interfaces_counted_witness :
  exists num nIntf nAlts,
    GetInterfaceNumber 100 [9; 4; 7; 0; 0; 1; 0; 0; 0; 1; 200; 3] 12 0 (replicate 32 0) (replicate 32 0) ram0 =
      Done ((num, (nIntf, nAlts)), ram0) /\
    (num <= 32)%nat /\ length nIntf = 32%nat /\ length nAlts = 32%nat /\ NoDup (take num nIntf) /\
    Forall (fun k => 1 <= k <= USB_MAXALTSETTING) (take num nAlts).
Proof.
  apply (interfaces_counted 100 [9; 4; 7; 0; 0; 1; 0; 0; 0; 1; 200; 3] ram0);
    [bytes_tac | by vm_compute | cbn; lia].
Defined.

(** A configuration of 256 bytes. *)
Definition long_config : config_tree := CTree [9; 2; 0; 1; 0; 1; 0; 192; 50] [247 :: 36 :: replicate 245 0] [].

Lemma long_config_ok : config_ok long_config.
Proof.
  split; cbn [ct_desc ct_extra ct_alts long_config].
  - desc_ok_tac.
  - by vm_compute.
  - constructor; [|constructor]. exists 36. split; [done|]. split; [done|]. desc_ok_tac.
  - constructor.
  - by vm_compute.
  - intros n. by vm_compute.
  - by vm_compute.
Qed.

Lemma config_length_wraps_witness :
  exists r', UsbRawGetConfigDescriptor (RA := all_ram) (Some (one_config (config_bytes long_config))) 300 (Some 1) 0 ram0 =
    Done ((HDF_ERR_IO, None), r') /\ ram_live r' = ram_live ram0.
Proof.
  apply (config_length_wraps (RA := all_ram) 300 (one_config (config_bytes long_config)) long_config 1 0 ram0);
    [exact long_config_ok | by vm_compute | by vm_compute | apply one_config_serves | lia |
     exact all_ram_granted | exact ram0_wf].
Defined.

(** Three bytes of an interface descriptor are left over. *)
Lemma truncated_descriptor_hangs_witness :
  DescToConfig (RA := all_ram) 100 (config_bytes acm_config ++ [9; 4; 2]) (len (config_bytes acm_config ++ [9; 4; 2])) ram0 = Running.
Proof.
  apply (truncated_descriptor_hangs (RA := all_ram) 100 acm_config [9; 4; 2] ram0);
    [exact acm_config_ok | done | by vm_compute | bytes_tac | by left | by vm_compute |
     exact all_ram_granted | exact ram0_wf | vm_compute; lia].
Defined.

Lemma zero_length_hangs_witness :
  DescToConfig (RA := all_ram) 1000 ([9; 2; 11; 0; 0; 1; 0; 192; 50] ++ 0 :: 36 :: [])
    (len ([9; 2; 11; 0; 0; 1; 0; 192; 50] ++ 0 :: 36 :: [])) ram0 = Running.
Proof.
  apply (zero_length_hangs (RA := all_ram) 1000 [9; 2; 11; 0; 0; 1; 0; 192; 50] 36 [] ram0);
    [desc_ok_tac | by vm_compute | done | done | by vm_compute | by vm_compute | exact all_ram_granted | exact ram0_wf].
Defined.

(** ** Too many alternate settings *)

(** Interface 0 with [n] alternate settings, each without an endpoint. *)
Definition many_alts (n : nat) : list Z := concat (map (fun i => [9; 4; 0; Z.of_nat i; 0; 255; 0; 0; 0]) (seq 0 n)).
Definition many_config (n : nat) : list Z :=
  let total := 9 + 9 * Z.of_nat n in [9; 2; total `mod` 256; total / 256; 1; 1; 0; 192; 50] ++ many_alts n.

(** An interface with 129 alternate settings: the counter of alternate
    settings stops at 128 and memory is taken for 128, but the loop that parses
    them checks the counter only before the first, and writes the 129th behind
    the block.  With 128 the same bytes are parsed and all 128 are there. *)
Lemma alternate_settings_overflow :
  DescToConfig (RA := all_ram) 1300 (many_config 129) (len (many_config 129)) ram0 = Undefined /\
  exists b c r', DescToConfig (RA := all_ram) 1300 (many_config 128) (len (many_config 128)) ram0 = Done ((0, Some (b, c)), r') /\
    map (fun a => bAlternateSetting (av_desc a)) (concat (cv_interfaces (view_config c))) = map Z.of_nat (seq 0 128).
Proof.
  split; [by vm_compute|]. do 3 eexists. split; vm_compute; reflexivity.
Qed.
