(* ===== verification/UsbPool.v ===== *)
(** * UsbPool: the interfaces of an opened device

    [usb/ddk/host/src/usb_protocol.c] and the interface part of
    [usb_interface_pool.c].  When a device is opened its configuration is read
    (with the parser of [UsbDesc]) and an object is made for every alternate
    setting and a pipe for every endpoint; they are kept in the pool of the
    device, in the order they were made.  Clients claim, open, select and
    release interfaces.

    A pointer is the number of the memory block it points to; following it when
    the object was freed is undefined.  The locks are not modelled: an operation
    is one step. *)
From S2P Require Import Prelude Hdf UsbDesc.
Open Scope Z_scope.

(** ** Constants *)
Definition INTERFACE_POOL_ID_MAX : Z := 128.
Definition INTERFACE_REFCOUNT_UNFORCE : Z := 1.
Definition USB_CTRL_INTERFACE_ID : Z := 0xFF.
Definition USB_DEFAULT_ALTSETTING : Z := 0.
Definition USB_DDK_ENDPOINT_NUMBER_MASK : Z := 0x0F.
Definition USB_DDK_ENDPOINT_DIR_MASK : Z := 0x80.
Definition USB_DDK_ENDPOINT_XFERTYPE_MASK : Z := 0x03.
Definition USB_PIPE_DIRECTION_OUT : Z := 0x00.
Definition USB_PIPE_TYPE_CONTROL : Z := 0.

Inductive UsbInterfaceStatus :=
| USB_INTERFACE_STATUS_NORMAL
| USB_INTERFACE_STATUS_ADD
| USB_INTERFACE_STATUS_REMOVE
| USB_INTERFACE_STATUS_OTHER.
#[global] Instance UsbInterfaceStatus_eq_dec : EqDecision UsbInterfaceStatus.
Proof. solve_decision. Defined.

(** ** Data *)
Record UsbPipeInfo := mkPipeInfo {
  interfaceId : Z;
  pipeId : Z;
  pipeAddress : Z;
  pipeType : Z;
  pipeDirection : Z;
  maxPacketSize : Z;
  interval : Z;
}.
Record UsbPipe := mkPipe { pipe_block : nat; pipe_objectId : Z; pipe_info : UsbPipeInfo }.

Record UsbInterfaceInfo := mkInterfaceInfo {
  interfaceIndex : Z;
  altSettings : Z;
  curAltSetting : Z;
  pipeNum : Z;
  interfaceClass : Z;
  interfaceSubClass : Z;
  interfaceProtocol : Z;
}.
(** [session] is whether the pointer is set. *)
Record UsbSdkInterface := mkSdkInterface {
  if_block : nat;
  if_objectId : Z;
  info : UsbInterfaceInfo;
  parentObjectId : Z;
  pipeList : list UsbPipe;
  status : UsbInterfaceStatus;
  altSettingId : Z;
  if_session : bool;
  refCount : Z;
}.
(** [device] is the handle of the device. *)
Record UsbInterfacePool := mkPool {
  pool_block : nat;
  pool_objectId : Z;
  pool_session : bool;
  interfaceList : list UsbSdkInterface;
  pool_refCount : Z;
  busNum : Z;
  devAddr : Z;
  ioRefCount : Z;
  device : option nat;
}.
Record UsbInterfaceHandleEntity := mkHandle { devHandle : option nat; handle_interfaceIndex : Z }.

Definition set_pipe_info v (p : UsbPipe) := mkPipe (pipe_block p) (pipe_objectId p) v.
Definition set_info v (i : UsbSdkInterface) :=
  mkSdkInterface (if_block i) (if_objectId i) v (parentObjectId i) (pipeList i) (status i) (altSettingId i) (if_session i) (refCount i).
Definition set_pipeList v (i : UsbSdkInterface) :=
  mkSdkInterface (if_block i) (if_objectId i) (info i) (parentObjectId i) v (status i) (altSettingId i) (if_session i) (refCount i).
Definition set_status v (i : UsbSdkInterface) :=
  mkSdkInterface (if_block i) (if_objectId i) (info i) (parentObjectId i) (pipeList i) v (altSettingId i) (if_session i) (refCount i).
Definition set_altSettingId v (i : UsbSdkInterface) :=
  mkSdkInterface (if_block i) (if_objectId i) (info i) (parentObjectId i) (pipeList i) (status i) v (if_session i) (refCount i).
Definition set_if_session v (i : UsbSdkInterface) :=
  mkSdkInterface (if_block i) (if_objectId i) (info i) (parentObjectId i) (pipeList i) (status i) (altSettingId i) v (refCount i).
Definition set_refCount v (i : UsbSdkInterface) :=
  mkSdkInterface (if_block i) (if_objectId i) (info i) (parentObjectId i) (pipeList i) (status i) (altSettingId i) (if_session i) v.
Definition set_curAltSetting v (n : UsbInterfaceInfo) :=
  mkInterfaceInfo (interfaceIndex n) (altSettings n) v (pipeNum n) (interfaceClass n) (interfaceSubClass n) (interfaceProtocol n).
Definition set_interfaceList v (p : UsbInterfacePool) :=
  mkPool (pool_block p) (pool_objectId p) (pool_session p) v (pool_refCount p) (busNum p) (devAddr p) (ioRefCount p) (device p).
Definition set_pool_refCount v (p : UsbInterfacePool) :=
  mkPool (pool_block p) (pool_objectId p) (pool_session p) (interfaceList p) v (busNum p) (devAddr p) (ioRefCount p) (device p).
Definition set_ioRefCount v (p : UsbInterfacePool) :=
  mkPool (pool_block p) (pool_objectId p) (pool_session p) (interfaceList p) (pool_refCount p) (busNum p) (devAddr p) v (device p).
Definition set_device s v (p : UsbInterfacePool) :=
  mkPool (pool_block p) (pool_objectId p) s (interfaceList p) (pool_refCount p) (busNum p) (devAddr p) (ioRefCount p) v.

Definition zero_pipe_info : UsbPipeInfo := mkPipeInfo 0 0 0 0 0 0 0.
Definition zero_interface_info : UsbInterfaceInfo := mkInterfaceInfo 0 0 0 0 0 0 0.

(** ** The adapter and its threads

    The table [UsbOsAdapterOps] of the platform over a state of its own, starting
    and stopping the two I/O threads of a pool, and the message to the
    plug-and-play service (whether an interface was added, and which).  Every
    operation of the table is there.  A device handle is a number; [handle_open]
    tells whether its memory is still there. *)
Record UsbPnpAddRemoveInfo := mkPnpInfo {
  n_devNum : Z;
  n_busNum : Z;
  n_interfaceNumber : Z;
  n_interfaceClass : Z;
  n_interfaceSubClass : Z;
  n_interfaceProtocol : Z;
}.
Class HostAdapter (K : Type) := {
  openDevice : Z -> Z -> K -> option nat * K;
  closeDevice : nat -> K -> K;
  handle_open : nat -> K -> bool;
  bNumConfigurations : nat -> K -> Z;
  getConfigDescriptor : nat -> K -> Z -> Z -> Z * list Z;
  getConfiguration : nat -> K -> Z * Z;
  claimInterface : nat -> Z -> K -> Z * K;
  releaseInterface : nat -> Z -> K -> Z * K;
  setInterfaceAltsetting : nat -> Z -> Z -> K -> Z * K;
  UsbIoStart : nat -> K -> Z * K;
  UsbIoStop : nat -> K -> Z * K;
  RawInitPnpService : bool -> UsbPnpAddRemoveInfo -> K -> Z * K;
}.

Class PoolSizes := {
  sizeof_UsbPipe : Z;
  sizeof_UsbSdkInterface : Z;
  sizeof_UsbInterfacePool : Z;
  sizeof_UsbInterfaceHandleEntity : Z;
}.
Class PoolSizesLaws {PZ : PoolSizes} := {
  pz_pipe : 0 < sizeof_UsbPipe;
  pz_interface : 0 < sizeof_UsbSdkInterface;
  pz_pool : 0 < sizeof_UsbInterfacePool;
  pz_handle : 0 < sizeof_UsbInterfaceHandleEntity;
}.

(** ** The state

    Of the session the list of the pools; the fields of the devices that belong
    to this code, by handle; the counters of the object numbers. *)
Record Host (K : Type) := mkHost {
  ram : Ram;
  ifacePoolList : list UsbInterfacePool;
  ifaceHandles : gmap nat UsbInterfaceHandleEntity;
  privateObject : gmap nat nat;
  claimedInterfaces : gmap nat Z;
  pool_idNum : Z;
  interface_idNum : Z;
  pipe_idNum : Z;
  kernel : K;
}.
Arguments mkHost {K}.
Arguments ram {K}. Arguments ifacePoolList {K}. Arguments ifaceHandles {K}. Arguments privateObject {K}.
Arguments claimedInterfaces {K}. Arguments pool_idNum {K}. Arguments interface_idNum {K}. Arguments pipe_idNum {K}.
Arguments kernel {K}.

Section state.
Context {K : Type}.
Implicit Types (h : Host K).

Definition set_ram v h := mkHost v (ifacePoolList h) (ifaceHandles h) (privateObject h) (claimedInterfaces h) (pool_idNum h) (interface_idNum h) (pipe_idNum h) (kernel h).
Definition set_ifacePoolList v h := mkHost (ram h) v (ifaceHandles h) (privateObject h) (claimedInterfaces h) (pool_idNum h) (interface_idNum h) (pipe_idNum h) (kernel h).
Definition set_ifaceHandles v h := mkHost (ram h) (ifacePoolList h) v (privateObject h) (claimedInterfaces h) (pool_idNum h) (interface_idNum h) (pipe_idNum h) (kernel h).
Definition set_privateObject v h := mkHost (ram h) (ifacePoolList h) (ifaceHandles h) v (claimedInterfaces h) (pool_idNum h) (interface_idNum h) (pipe_idNum h) (kernel h).
Definition set_claimedInterfaces v h := mkHost (ram h) (ifacePoolList h) (ifaceHandles h) (privateObject h) v (pool_idNum h) (interface_idNum h) (pipe_idNum h) (kernel h).
Definition set_pool_idNum v h := mkHost (ram h) (ifacePoolList h) (ifaceHandles h) (privateObject h) (claimedInterfaces h) v (interface_idNum h) (pipe_idNum h) (kernel h).
Definition set_interface_idNum v h := mkHost (ram h) (ifacePoolList h) (ifaceHandles h) (privateObject h) (claimedInterfaces h) (pool_idNum h) v (pipe_idNum h) (kernel h).
Definition set_pipe_idNum v h := mkHost (ram h) (ifacePoolList h) (ifaceHandles h) (privateObject h) (claimedInterfaces h) (pool_idNum h) (interface_idNum h) v (kernel h).
Definition set_kernel (v : K) h := mkHost (ram h) (ifacePoolList h) (ifaceHandles h) (privateObject h) (claimedInterfaces h) (pool_idNum h) (interface_idNum h) (pipe_idNum h) v.
End state.

Section pool.
Context {HS : HdfStatus} {US : UsbStatus} {RA : RamAlloc} {SZ : UsbSizes} {PZ : PoolSizes} {K : Type} {HA : HostAdapter K}.
Abbreviation H := (Prog (Host K)).

Definition gets_host {A} (f : Host K -> A) : H A := fun h => Done (f h, h).
Definition put_host (f : Host K -> Host K) : H unit := fun h => Done (tt, f h).
Definition on_ram {A} (m : P A) : H A := fun h =>
  match m (ram h) with Done (a, r) => Done (a, set_ram r h) | Undefined => Undefined | Running => Running end.
Definition on_kernel {A} (f : K -> A * K) : H A := fun h => let '(a, k) := f (kernel h) in Done (a, set_kernel k h).

(** ** Following pointers *)
Definition pool_at (b : nat) (h : Host K) : option UsbInterfacePool :=
  List.find (fun p => (pool_block p =? b)%nat) (ifacePoolList h).
Definition all_interfaces (h : Host K) : list UsbSdkInterface := concat (map interfaceList (ifacePoolList h)).
Definition interface_at (b : nat) (h : Host K) : option UsbSdkInterface :=
  List.find (fun i => (if_block i =? b)%nat) (all_interfaces h).
Definition pool (b : nat) : H UsbInterfacePool :=
  p ← gets_host (pool_at b); match p with Some p => mret p | None => crash end.
Definition sdk_interface (b : nat) : H UsbSdkInterface :=
  i ← gets_host (interface_at b); match i with Some i => mret i | None => crash end.

Definition upd_pool (b : nat) (f : UsbInterfacePool -> UsbInterfacePool) : H unit :=
  pool b;;
  put_host (fun h => set_ifacePoolList (map (fun p => if (pool_block p =? b)%nat then f p else p) (ifacePoolList h)) h).
Definition upd_interface (b : nat) (f : UsbSdkInterface -> UsbSdkInterface) : H unit :=
  sdk_interface b;;
  put_host (fun h => set_ifacePoolList
    (map (fun p => set_interfaceList (map (fun i => if (if_block i =? b)%nat then f i else i) (interfaceList p)) p) (ifacePoolList h)) h).
(** The pipe [b] of the interface [i]. *)
Definition upd_pipe (i b : nat) (f : UsbPipeInfo -> UsbPipeInfo) : H unit :=
  upd_interface i (fun x => set_pipeList (map (fun p => if (pipe_block p =? b)%nat then set_pipe_info (f (pipe_info p)) p else p) (pipeList x)) x).

(** Following the pointer to a device handle. *)
Definition live_handle (d : nat) : H unit :=
  ok ← gets_host (fun h => handle_open d (kernel h)); if (ok : bool) then mret tt else crash.

(** ** Making objects *)

(** The next object number. *)
Definition next_id (n : Z) : Z := (n + 1) `mod` INTERFACE_POOL_ID_MAX.

Definition UsbIfCreatPipeObj (i : nat) : H (Z * option nat) :=
  a ← on_ram (RawUsbMemCalloc sizeof_UsbPipe);
  match a with
  | None => mret (HDF_ERR_MALLOC_FAIL, None)
  | Some b =>
      put_host (fun h => set_pipe_idNum (next_id (pipe_idNum h)) h);;
      id ← gets_host pipe_idNum;
      x ← sdk_interface i;
      let p := mkPipe b id (mkPipeInfo (interfaceIndex (info x)) 0 0 0 0 0 0) in
      upd_interface i (fun x => set_pipeList (pipeList x ++ [p]) x);;
      mret (HDF_SUCCESS, Some b)
  end.

Definition UsbIfCreatInterfaceObj (p : nat) : H (Z * option nat) :=
  a ← on_ram (RawUsbMemCalloc sizeof_UsbSdkInterface);
  match a with
  | None => mret (HDF_ERR_MALLOC_FAIL, None)
  | Some b =>
      put_host (fun h => set_interface_idNum (next_id (interface_idNum h)) h);;
      id ← gets_host interface_idNum;
      x ← pool p;
      let i := mkSdkInterface b id zero_interface_info (pool_objectId x) [] USB_INTERFACE_STATUS_NORMAL 0 false 0 in
      upd_pool p (fun x => set_interfaceList (interfaceList x ++ [i]) x);;
      mret (HDF_SUCCESS, Some b)
  end.

Definition UsbIfCreatInterfacePool (bus addr : Z) : H (Z * option nat) :=
  a ← on_ram (RawUsbMemAlloc sizeof_UsbInterfacePool);
  match a with
  | None => mret (HDF_ERR_MALLOC_FAIL, None)
  | Some b =>
      put_host (fun h => set_pool_idNum (next_id (pool_idNum h)) h);;
      id ← gets_host pool_idNum;
      put_host (fun h => set_ifacePoolList (ifacePoolList h ++ [mkPool b id false [] 0 bus addr 0 None]) h);;
      mret (HDF_SUCCESS, Some b)
  end.

(** ** Destroying objects *)
Fixpoint free_pipes (l : list UsbPipe) : H unit :=
  match l with [] => mret tt | p :: l => on_ram (RawUsbMemFree (pipe_block p));; free_pipes l end.

(** All pipes of an interface; [IfDestroyPipeObj] with no pipe given. *)
Definition IfDestroyPipeObj (i : UsbSdkInterface) : H Z :=
  match pipeList i with [] => mret HDF_SUCCESS | l => free_pipes l;; mret HDF_SUCCESS end.
Definition IfFreeInterfaceObj (i : UsbSdkInterface) : H Z :=
  ret ← IfDestroyPipeObj i;
  if negb (ret =? HDF_SUCCESS) then mret ret
  else on_ram (RawUsbMemFree (if_block i));; mret ret.

(** All interfaces of a pool; [UsbIfDestroyInterfaceObj] with no interface
    given.  Each is taken out of the list and freed. *)
Fixpoint free_interfaces (l : list UsbSdkInterface) (p : nat) : H Z :=
  match l with
  | [] => mret HDF_SUCCESS
  | i :: l =>
      upd_pool p (set_interfaceList l);;
      ret ← IfFreeInterfaceObj i;
      if negb (ret =? HDF_SUCCESS) then mret ret else free_interfaces l p
  end.
Definition UsbIfDestroyInterfaceObj (p : nat) : H Z :=
  x ← pool p; free_interfaces (interfaceList x) p.

(** The queue of submitted requests is empty: requests are not modelled.  The code
    takes the pool out of the list first; here it stays until it is freed, so
    that the pointer to it can be followed. *)
Definition IfFreeInterfacePool (p : nat) : H Z :=
  ret ← UsbIfDestroyInterfaceObj p;
  if negb (ret =? HDF_SUCCESS) then mret ret
  else
    put_host (fun h => set_ifacePoolList (filter (fun x => pool_block x <> p) (ifacePoolList h)) h);;
    on_ram (RawUsbMemFree p);; mret ret.

(** The first pool with the number is taken out of the list and freed. *)
Definition IfDestroyInterfacePool (p : nat) : H Z :=
  x ← pool p;
  if negb (pool_session x) then mret HDF_ERR_INVALID_PARAM
  else
    l ← gets_host ifacePoolList;
    match List.find (fun y => pool_objectId y =? pool_objectId x) l with
    | Some y => IfFreeInterfacePool (pool_block y)
    | None => mret HDF_FAILURE
    end.

(** ** From the configuration to the objects: [usb_protocol.c] *)
Definition CreateCtrPipe (p : nat) : H Z :=
  '(ret, i) ← UsbIfCreatInterfaceObj p;
  match i with
  | None => mret HDF_ERR_MALLOC_FAIL
  | Some i =>
      upd_interface i (fun x => set_altSettingId 0 (set_info
        (mkInterfaceInfo USB_CTRL_INTERFACE_ID (altSettings (info x)) 0 1
           (interfaceClass (info x)) (interfaceSubClass (info x)) (interfaceProtocol (info x))) x));;
      '(ret, q) ← UsbIfCreatPipeObj i;
      match q with
      | None => mret HDF_ERR_IO
      | Some q =>
          upd_pipe i q (fun n => mkPipeInfo (interfaceId n) 0 0 USB_PIPE_TYPE_CONTROL USB_PIPE_DIRECTION_OUT
                                   (maxPacketSize n) (interval n));;
          mret ret
      end
  end.

Definition UsbInterfaceInit (i : nat) (iface : UsbRawInterfaceDescriptor) (altsettings : UsbRawInterface) : H Z :=
  let d := interfaceDescriptor iface in
  upd_interface i (fun x => set_altSettingId (bAlternateSetting d) (set_info
    (mkInterfaceInfo (bInterfaceNumber d) (numAltsetting altsettings) USB_DEFAULT_ALTSETTING (bNumEndpoints d)
       (bInterfaceClass d) (bInterfaceSubClass d) (bInterfaceProtocol d)) x));;
  mret HDF_SUCCESS.

(** What an endpoint descriptor says of a pipe of the interface [n]. *)
Definition pipe_info_of (n id : Z) (d : UsbEndpointDescriptor) : UsbPipeInfo :=
  mkPipeInfo n id (Z.land (bEndpointAddress d) USB_DDK_ENDPOINT_NUMBER_MASK)
    (Z.land (e_bmAttributes d) USB_DDK_ENDPOINT_XFERTYPE_MASK)
    (Z.land (bEndpointAddress d) USB_DDK_ENDPOINT_DIR_MASK) (wMaxPacketSize d) (bInterval d).
Definition UsbPipeInit (i q : nat) (ep : UsbRawEndpointDescriptor) (id : Z) : H Z :=
  upd_pipe i q (fun n => pipe_info_of (interfaceId n) id (endpointDescriptor ep));; mret HDF_SUCCESS.

(** The null pointer of these two is [None]. *)
Definition UsbGetInterfaceFromConfig (config : UsbRawConfigDescriptor) (idx : nat) : H (ptr UsbRawInterface) :=
  if bNumInterfaces (configDescriptor config) <? u8 (Z.of_nat idx) + 1 then mret None
  else match interface config !! idx with Some p => mret p | None => crash end.
Definition UsbGetEpDesc (ifDes : UsbRawInterfaceDescriptor) (idx : nat) : H (option UsbRawEndpointDescriptor) :=
  if bNumEndpoints (interfaceDescriptor ifDes) <? u8 (Z.of_nat idx) + 1 then mret None
  else match endPoint ifDes with
       | Some (_, eps) => match eps !! idx with Some e => mret (Some e) | None => crash end
       | None => crash
       end.

(** The loop over the endpoints.  [ret] has no value before the first one: with
    no endpoint at all the function returns an indeterminate value. *)
Fixpoint create_pipes (n idx : nat) (ifDes : UsbRawInterfaceDescriptor) (i : nat) (ret : option Z) : H Z :=
  match n with
  | O => match ret with Some ret => mret ret | None => crash end
  | S n =>
      if USB_MAXENDPOINTS <? bNumEndpoints (interfaceDescriptor ifDes) then mret HDF_DEV_ERR_NORANGE
      else
        ep ← UsbGetEpDesc ifDes idx;
        match ep with
        | None => mret HDF_ERR_INVALID_PARAM
        | Some ep =>
            '(ret, q) ← UsbIfCreatPipeObj i;
            match q with
            | None => mret ret
            | Some q =>
                ret ← UsbPipeInit i q ep (u8 (Z.of_nat idx + 1));
                if negb (ret =? HDF_SUCCESS) then mret ret else create_pipes n (S idx) ifDes i (Some ret)
            end
        end
  end.
Definition UsbProtocalCreatePipeObj (ifDes : UsbRawInterfaceDescriptor) (i : nat) : H Z :=
  create_pipes (Z.to_nat (bNumEndpoints (interfaceDescriptor ifDes))) 0 ifDes i None.

(** The alternate settings of an interface, from the [j]-th on; the result is
    the status so far and whether to go on. *)
Fixpoint create_alts (n j : nat) (itface : UsbRawInterface) (p : nat) (ret : option Z) : H (option Z * bool) :=
  match n with
  | O => mret (ret, true)
  | S n =>
      match altsetting itface !! j with
      | None => crash
      | Some ifDes =>
          '(ret, i) ← UsbIfCreatInterfaceObj p;
          match i with
          | None => mret (Some ret, false)
          | Some i =>
              ret ← UsbInterfaceInit i ifDes itface;
              if negb (ret =? 0) then mret (Some HDF_ERR_IO, false)
              else
                ret ← UsbProtocalCreatePipeObj ifDes i;
                if negb (ret =? HDF_SUCCESS) then mret (Some ret, false) else create_alts n (S j) itface p (Some ret)
          end
      end
  end.
Fixpoint create_interfaces (n k : nat) (config : UsbRawConfigDescriptor) (p : nat) (ret : option Z) : H Z :=
  match n with
  | O => match ret with Some ret => mret ret | None => crash end
  | S n =>
      itface ← UsbGetInterfaceFromConfig config k;
      match itface with
      | None => mret HDF_ERR_INVALID_PARAM
      | Some (_, itface) =>
          '(ret, more) ← create_alts (Z.to_nat (numAltsetting itface)) 0 itface p ret;
          if negb more then match ret with Some ret => mret ret | None => crash end
          else create_interfaces n (S k) config p ret
      end
  end.
Definition UsbProtocalCreatInterfaceObj (config : UsbRawConfigDescriptor) (p : nat) : H Z :=
  create_interfaces (Z.to_nat (bNumInterfaces (configDescriptor config))) 0 config p None.

Definition RawGetConfiguration (d : nat) : H (Z * Z) :=
  live_handle d;; gets_host (fun h => getConfiguration d (kernel h)).

(** The error paths of [UsbProtocalParseDescriptor] leave the pool, without its
    interfaces, in the list of the session. *)
Definition UsbProtocalParseDescriptor (fuel : nat) (d : nat) (bus addr : Z) : H Z :=
  '(ret, p) ← UsbIfCreatInterfacePool bus addr;
  match p with
  | None => mret HDF_ERR_IO
  | Some p =>
      upd_pool p (set_device true (Some d));;
      live_handle d;;
      put_host (fun h => set_privateObject (<[d := p]> (privateObject h)) h);;
      ret ← CreateCtrPipe p;
      if negb (ret =? HDF_SUCCESS) then UsbIfDestroyInterfaceObj p;; mret ret
      else
        '(ret, activeConfig) ← RawGetConfiguration d;
        if negb (ret =? HDF_SUCCESS) then UsbIfDestroyInterfaceObj p;; mret ret
        else
          k ← gets_host kernel;
          '(ret, config) ← on_ram (RawGetConfigDescriptor (Some (getConfigDescriptor d k)) fuel
                                     (bNumConfigurations d k) (u8 activeConfig));
          ret ← (if negb (ret =? HDF_SUCCESS) then mret ret
                 else match config with
                      | Some (_, c) => UsbProtocalCreatInterfaceObj c p
                      | None => crash
                      end);
          on_ram (UsbRawFreeConfigDescriptor config);;
          if ret =? HDF_SUCCESS then mret ret else UsbIfDestroyInterfaceObj p;; mret ret
  end.

(** ** Finding objects *)
Inductive UsbPoolQueryPara :=
| USB_POOL_NORMAL_TYPE (bus addr : Z)
| USB_POOL_OBJECT_ID_TYPE (objectId : Z).
Inductive UsbInterfaceQueryPara :=
| USB_INTERFACE_INTERFACE_INDEX_TYPE (index : Z)
| USB_INTERFACE_ALT_SETTINGS_TYPE (index alt : Z).

Definition pool_matches (q : UsbPoolQueryPara) (p : UsbInterfacePool) : bool :=
  match q with
  | USB_POOL_NORMAL_TYPE bus addr => (busNum p =? bus) && (devAddr p =? addr)
  | USB_POOL_OBJECT_ID_TYPE id => pool_objectId p =? id
  end.
Definition IfFindInterfacePool (q : UsbPoolQueryPara) (refCountFlag : bool) : H (option nat) :=
  l ← gets_host ifacePoolList;
  match List.find (pool_matches q) l with
  | None => mret None
  | Some p =>
      (if refCountFlag then upd_pool (pool_block p) (fun p => set_pool_refCount (pool_refCount p + 1) p) else mret tt);;
      mret (Some (pool_block p))
  end.

Definition interface_matches (q : UsbInterfaceQueryPara) (i : UsbSdkInterface) : bool :=
  match q with
  | USB_INTERFACE_INTERFACE_INDEX_TYPE index => (interfaceIndex (info i) =? index) && (curAltSetting (info i) =? altSettingId i)
  | USB_INTERFACE_ALT_SETTINGS_TYPE index alt => (interfaceIndex (info i) =? index) && (altSettingId i =? alt)
  end.
Definition query_index (q : UsbInterfaceQueryPara) : Z :=
  match q with USB_INTERFACE_INTERFACE_INDEX_TYPE index | USB_INTERFACE_ALT_SETTINGS_TYPE index _ => index end.

(** With [refCountFlag] a reference is counted and told whether it is the first;
    the control interface is not counted. *)
Definition IfInterfaceRefCount (i : nat) (index : Z) (refCountFlag : bool) : H bool :=
  if refCountFlag && negb (index =? USB_CTRL_INTERFACE_ID) then
    x ← sdk_interface i;
    upd_interface i (fun x => set_refCount (refCount x + 1) x);;
    mret (refCount x =? 0)
  else mret false.

Definition IfFindInterfaceObj (p : nat) (q : UsbInterfaceQueryPara) (refCountFlag statusFlag : bool) : H (option nat * bool) :=
  x ← pool p;
  match List.find (interface_matches q) (interfaceList x) with
  | None => mret (None, false)
  | Some i =>
      claimFlag ← IfInterfaceRefCount (if_block i) (query_index q) refCountFlag;
      if statusFlag && bool_decide (status i = USB_INTERFACE_STATUS_REMOVE) then mret (None, claimFlag)
      else mret (Some (if_block i), claimFlag)
  end.

(** The pipe with the number [id]. *)
Definition IfFindPipeObj (i : nat) (id : Z) : H (option UsbPipe) :=
  x ← sdk_interface i;
  if bool_decide (status x = USB_INTERFACE_STATUS_REMOVE) then mret None
  else mret (List.find (fun q => pipeId (pipe_info q) =? id) (pipeList x)).

(** ** Claiming and releasing *)
Definition RawCloseDevice (d : nat) : H Z :=
  live_handle d;; put_host (fun h => set_kernel (closeDevice d (kernel h)) h);; mret HDF_SUCCESS.

(** [devHandle] may be null. *)
Definition RawClaimInterface (d : option nat) (n : Z) : H Z :=
  match d with
  | None => mret HDF_ERR_INVALID_PARAM
  | Some d =>
      if (n <? 0) || (USB_MAXINTERFACES <=? n) then mret HDF_ERR_INVALID_PARAM
      else
        live_handle d;;
        mask ← gets_host (fun h => default 0 (claimedInterfaces h !! d));
        if Z.testbit mask n then mret HDF_SUCCESS
        else
          ret ← on_kernel (claimInterface d n);
          (if ret =? HDF_SUCCESS then
             put_host (fun h => set_claimedInterfaces (<[d := Z.lor mask (Z.shiftl 1 n)]> (claimedInterfaces h)) h)
           else mret tt);;
          mret ret
  end.
Definition RawReleaseInterface (d : option nat) (n : Z) : H Z :=
  match d with
  | None => mret HDF_ERR_INVALID_PARAM
  | Some d =>
      if (n <? 0) || (USB_MAXINTERFACES <=? n) then mret HDF_ERR_INVALID_PARAM
      else
        live_handle d;;
        mask ← gets_host (fun h => default 0 (claimedInterfaces h !! d));
        if negb (Z.testbit mask n) then mret HDF_ERR_BAD_FD
        else
          ret ← on_kernel (releaseInterface d n);
          (if ret =? HDF_SUCCESS then
             put_host (fun h => set_claimedInterfaces (<[d := Z.ldiff mask (Z.shiftl 1 n)]> (claimedInterfaces h)) h)
           else mret tt);;
          mret ret
  end.

Definition IfDestoryDevice (p : nat) (d : option nat) (refCountFlag : bool) : H Z :=
  match d with
  | None => mret HDF_ERR_INVALID_PARAM
  | Some d =>
      (if refCountFlag then upd_pool p (fun x => set_pool_refCount (pool_refCount x - 1) x) else mret tt);;
      x ← pool p;
      if 0 <? pool_refCount x then mret HDF_SUCCESS
      else
        ret ← IfDestroyInterfacePool p;
        if negb (ret =? HDF_SUCCESS) then mret ret else RawCloseDevice d
  end.

Definition RawOpenDevice (bus addr : Z) : H (option nat) := on_kernel (openDevice bus addr).

(** Opening the device; the result is its pool and its handle.  When the pool is
    not found again it is destroyed. *)
Definition IfGetInterfacePool (fuel : nat) (bus addr : Z) : H (option nat * option nat) :=
  d ← RawOpenDevice bus addr;
  match d with
  | None => mret (None, None)
  | Some d =>
      ret ← UsbProtocalParseDescriptor fuel d bus addr;
      if negb (ret =? HDF_SUCCESS) then RawCloseDevice d;; mret (None, Some d)
      else
        p ← IfFindInterfacePool (USB_POOL_NORMAL_TYPE bus addr) true;
        found ← (match p with
                 | Some p => x ← pool p; mret (bool_decide (is_Some (device x)))
                 | None => mret false
                 end);
        if (found : bool) then mret (p, Some d)
        else
          o ← gets_host (fun h => privateObject h !! d);
          (match o with Some o => IfDestoryDevice o (Some d) false | None => mret HDF_ERR_INVALID_PARAM end);;
          mret (None, Some d)
  end.

(** The second half of [UsbClaimInterface], once there is a pool: [d] is the
    handle, null when the device was open before. *)
Definition claim_object (p : nat) (d : option nat) (index : Z) : H (option nat) :=
  '(i, claimFlag) ← IfFindInterfaceObj p (USB_INTERFACE_INTERFACE_INDEX_TYPE index) true true;
  match i with
  | None => IfDestoryDevice p d true;; mret None
  | Some i =>
      '(ret, d) ← (if negb (index =? USB_CTRL_INTERFACE_ID) && claimFlag then
                     x ← pool p;
                     ret ← RawClaimInterface (device x) index; mret (ret, device x)
                   else mret (HDF_SUCCESS, d));
      if negb (ret =? HDF_SUCCESS) then
        upd_interface i (fun x => set_refCount (refCount x - 1) x);;
        IfDestoryDevice p d true;; mret None
      else upd_interface i (set_if_session true);; mret (Some i)
  end.
(** The interface with the number [index]; the session exists.  [None] is the
    null pointer. *)
Definition UsbClaimInterface (fuel : nat) (bus addr index : Z) : H (option nat) :=
  p ← IfFindInterfacePool (USB_POOL_NORMAL_TYPE bus addr) true;
  found ← (match p with
           | Some p => x ← pool p; mret (bool_decide (is_Some (device x)))
           | None => mret false
           end);
  '(p, d) ← (if (found : bool) then mret (p, None) else IfGetInterfacePool fuel bus addr);
  match p with
  | None => mret None
  | Some p => claim_object p d index
  end.

(** [HDF_DEV_ERR_NO_DEVICE] is the status of a device that was unplugged. *)
Definition UsbReleaseInterface (HDF_DEV_ERR_NO_DEVICE : Z) (i : nat) : H Z :=
  x ← sdk_interface i;
  if negb (if_session x) then mret HDF_ERR_INVALID_PARAM
  else
    p ← IfFindInterfacePool (USB_POOL_OBJECT_ID_TYPE (parentObjectId x)) false;
    match p with
    | None => mret HDF_ERR_BAD_FD
    | Some p =>
        y ← pool p;
        if negb (pool_session y) then mret HDF_ERR_BAD_FD
        else
          match device y with
          | None => crash
          | Some d =>
              let index := interfaceIndex (info x) in
              ret ← (if negb (index =? USB_CTRL_INTERFACE_ID) then
                       upd_interface i (fun x => set_refCount (refCount x - 1) x);;
                       if refCount x - 1 <=? 0 then
                         ret ← RawReleaseInterface (Some d) index;
                         if negb (ret =? HDF_SUCCESS) && negb (ret =? HDF_DEV_ERR_NO_DEVICE) then
                           upd_interface i (fun x => set_refCount (refCount x + 1) x);; mret ret
                         else mret HDF_SUCCESS
                       else mret HDF_SUCCESS
                     else mret HDF_SUCCESS);
              if negb (ret =? HDF_SUCCESS) then mret ret else IfDestoryDevice p (Some d) true
          end
    end.

(** A null pointer is followed when the claim failed. *)
Definition UsbClaimInterfaceUnforce (HDF_DEV_ERR_NO_DEVICE : Z) (fuel : nat) (bus addr index : Z) : H (option nat) :=
  i ← UsbClaimInterface fuel bus addr index;
  match i with
  | None => crash
  | Some i =>
      x ← sdk_interface i;
      if INTERFACE_REFCOUNT_UNFORCE <? refCount x then UsbReleaseInterface HDF_DEV_ERR_NO_DEVICE i;; mret None
      else mret (Some i)
  end.

(** ** Using an interface *)

(** A handle is a block of memory of its own. *)
Definition iface_handle (b : nat) : H UsbInterfaceHandleEntity :=
  e ← gets_host (fun h => ifaceHandles h !! b); match e with Some e => mret e | None => crash end.

Definition UsbOpenInterface (i : nat) : H (option nat) :=
  x ← sdk_interface i;
  if negb (if_session x) || bool_decide (status x = USB_INTERFACE_STATUS_REMOVE) then mret None
  else
    p ← IfFindInterfacePool (USB_POOL_OBJECT_ID_TYPE (parentObjectId x)) false;
    match p with
    | None => mret None
    | Some p =>
        y ← pool p;
        match device y with
        | None => mret None
        | Some d =>
            live_handle d;;
            a ← on_ram (RawUsbMemCalloc sizeof_UsbInterfaceHandleEntity);
            match a with
            | None => mret None
            | Some b =>
                ret ← (if ioRefCount y =? 0 then on_kernel (UsbIoStart p) else mret HDF_SUCCESS);
                if negb (ret =? HDF_SUCCESS) then on_ram (RawUsbMemFree b);; mret None
                else
                  put_host (fun h => set_ifaceHandles (<[b := mkHandle (Some d) (interfaceIndex (info x))]> (ifaceHandles h)) h);;
                  upd_interface i (fun x => set_refCount (refCount x + 1) x);;
                  upd_pool p (fun y => set_ioRefCount (ioRefCount y + 1) y);;
                  mret (Some b)
            end
        end
    end.

(** The pool of the device an open handle belongs to. *)
Definition handle_pool (d : nat) : H (option nat) := live_handle d;; gets_host (fun h => privateObject h !! d).

Definition UsbCloseInterface (b : nat) : H Z :=
  e ← iface_handle b;
  match devHandle e with
  | None => mret HDF_ERR_INVALID_PARAM
  | Some d =>
      p ← handle_pool d;
      match p with
      | None => mret HDF_ERR_INVALID_PARAM
      | Some p =>
          '(i, _) ← IfFindInterfaceObj p (USB_INTERFACE_INTERFACE_INDEX_TYPE (handle_interfaceIndex e)) false false;
          match i with
          | None => mret HDF_ERR_BAD_FD
          | Some i =>
              upd_pool p (fun y => set_ioRefCount (ioRefCount y - 1) y);;
              y ← pool p;
              ret ← (if ioRefCount y =? 0 then on_kernel (UsbIoStop p) else mret HDF_SUCCESS);
              if negb (ret =? HDF_SUCCESS) then
                upd_pool p (fun y => set_ioRefCount (ioRefCount y + 1) y);; mret ret
              else
                upd_interface i (fun x => set_refCount (refCount x - 1) x);;
                put_host (fun h => set_ifaceHandles (delete b (ifaceHandles h)) h);;
                on_ram (RawUsbMemFree b);; mret HDF_SUCCESS
          end
      end
  end.

Definition RawSetInterfaceAltsetting (d : nat) (index setting : Z) : H Z :=
  live_handle d;; on_kernel (setInterfaceAltsetting d index setting).

(** Every interface object with the number gets the new current setting. *)
Definition select_setting (index setting : Z) (x : UsbInterfacePool) : UsbInterfacePool :=
  set_interfaceList (map (fun i => if interfaceIndex (info i) =? index
                                   then set_info (set_curAltSetting setting (info i)) i else i) (interfaceList x)) x.
Definition UsbSelectInterfaceSetting (b : nat) (settingIndex : Z) : H (Z * option nat) :=
  e ← iface_handle b;
  match devHandle e with
  | None => crash
  | Some d =>
      p ← handle_pool d;
      match p with
      | None => mret (HDF_ERR_BAD_FD, None)
      | Some p =>
          ret ← RawSetInterfaceAltsetting d (handle_interfaceIndex e) settingIndex;
          if negb (ret =? HDF_SUCCESS) then mret (ret, None)
          else
            upd_pool p (select_setting (handle_interfaceIndex e) settingIndex);;
            '(i, _) ← IfFindInterfaceObj p (USB_INTERFACE_INTERFACE_INDEX_TYPE (handle_interfaceIndex e)) false true;
            match i with
            | None => mret (HDF_FAILURE, None)
            | Some i =>
                y ← pool p;
                upd_interface i (set_if_session (pool_session y));; mret (HDF_SUCCESS, Some i)
            end
      end
  end.

Definition UsbGetPipeInfo (b : nat) (altSettingIndex pipeId_ : Z) : H (Z * option UsbPipeInfo) :=
  e ← iface_handle b;
  match devHandle e with
  | None => mret (HDF_ERR_INVALID_PARAM, None)
  | Some d =>
      p ← handle_pool d;
      match p with
      | None => mret (HDF_ERR_BAD_FD, None)
      | Some p =>
          '(i, _) ← IfFindInterfaceObj p (USB_INTERFACE_ALT_SETTINGS_TYPE (handle_interfaceIndex e) altSettingIndex) false true;
          match i with
          | None => mret (HDF_ERR_BAD_FD, None)
          | Some i =>
              q ← IfFindPipeObj i pipeId_;
              match q with
              | None => mret (HDF_ERR_BAD_FD, None)
              | Some q => mret (HDF_SUCCESS, Some (pipe_info q))
              end
          end
      end
  end.

Definition UsbAddOrRemoveInterface (bus addr index : Z) (s : UsbInterfaceStatus) : H Z :=
  p ← IfFindInterfacePool (USB_POOL_NORMAL_TYPE bus addr) false;
  match p with
  | None => mret HDF_ERR_BAD_FD
  | Some p =>
      '(i, _) ← IfFindInterfaceObj p (USB_INTERFACE_INTERFACE_INDEX_TYPE index) false false;
      match i with
      | None => mret HDF_ERR_BAD_FD
      | Some i =>
          x ← sdk_interface i;
          if bool_decide (status x = s) then mret HDF_ERR_INVALID_PARAM
          else if negb (bool_decide (s = USB_INTERFACE_STATUS_ADD)) && negb (bool_decide (s = USB_INTERFACE_STATUS_REMOVE))
          then mret HDF_ERR_INVALID_PARAM
          else
            y ← pool p;
            let n := info x in
            let infoData := mkPnpInfo (devAddr y) (busNum y) (interfaceIndex n) (interfaceClass n) (interfaceSubClass n) (interfaceProtocol n) in
            ret ← on_kernel (RawInitPnpService (bool_decide (s = USB_INTERFACE_STATUS_ADD)) infoData);
            (if ret =? HDF_SUCCESS then upd_interface i (set_status s) else mret tt);; mret ret
      end
  end.
End pool.
