(* ===== verification/UsbPoolFacts.v ===== *)
(** * UsbPoolFacts: making the objects of a device

    What the functions that make interfaces and pipes do to the pool that is
    being filled, which is the last of the session, and that nothing else
    changes. *)
From S2P Require Import Prelude Hdf Arrays UsbDesc UsbDescSpec UsbDescFacts UsbDescConfig UsbPool.
Open Scope Z_scope.

(** ** Blocks *)
Definition sdk_blocks (i : UsbSdkInterface) : list nat := if_block i :: map pipe_block (pipeList i).
Definition pool_blocks (p : UsbInterfacePool) : list nat := pool_block p :: concat (map sdk_blocks (interfaceList p)).
Definition host_blocks {K} (h : Host K) : list nat := concat (map pool_blocks (ifacePoolList h)).

(** Of the blocks of the objects no two are the same, and none is named like a
    coming one. *)
Record host_ok {K} (h : Host K) : Prop := HostOk {
  ho_ram : ram_wf (ram h);
  ho_distinct : NoDup (host_blocks h);
  ho_old : Forall (fun b => (b < ram_next (ram h))%nat) (host_blocks h);
}.

(** All but the memory, the pools and the object numbers is the same. *)
Record rest_same {K} (h h' : Host K) : Prop := RestSame {
  rs_handles : ifaceHandles h' = ifaceHandles h;
  rs_private : privateObject h' = privateObject h;
  rs_claimed : claimedInterfaces h' = claimedInterfaces h;
  rs_kernel : kernel h' = kernel h;
}.
#[global] Instance rest_same_refl {K} : Reflexive (@rest_same K).
Proof. by split. Qed.
#[global] Instance rest_same_trans {K} : Transitive (@rest_same K).
Proof. intros h1 h2 h3 [] []. split; congruence. Qed.

Lemma find_block {A} (key : A -> nat) b l1 x l2 :
  key x = b -> b ∉ map key l1 -> List.find (fun y => (key y =? b)%nat) (l1 ++ x :: l2) = Some x.
Proof.
  intros Hx. induction l1 as [|y l1 IH]; cbn; [intros _; by rewrite Hx, Nat.eqb_refl|].
  rewrite not_elem_of_cons. intros [Hy Hl]. rewrite (proj2 (Nat.eqb_neq _ _)) by congruence. auto.
Qed.

Lemma map_block {A} (key : A -> nat) b (f : A -> A) l1 x l2 :
  key x = b -> b ∉ map key l1 -> b ∉ map key l2 ->
  map (fun y => if (key y =? b)%nat then f y else y) (l1 ++ x :: l2) = l1 ++ f x :: l2.
Proof.
  intros Hx H1 H2. rewrite map_app. cbn [map]. rewrite Hx, Nat.eqb_refl. f_equal; [|f_equal].
  - clear -H1. induction l1 as [|y l1 IH]; [done|]. cbn in *. rewrite not_elem_of_cons in H1. destruct H1 as [Hy Hl].
    rewrite (proj2 (Nat.eqb_neq _ _)) by congruence. by rewrite IH.
  - clear -H2. induction l2 as [|y l2 IH]; [done|]. cbn in *. rewrite not_elem_of_cons in H2. destruct H2 as [Hy Hl].
    rewrite (proj2 (Nat.eqb_neq _ _)) by congruence. by rewrite IH.
Qed.

Lemma map_block_none {A} (key : A -> nat) b (f : A -> A) l :
  b ∉ map key l -> map (fun y => if (key y =? b)%nat then f y else y) l = l.
Proof.
  induction l as [|y l IH]; [done|]. cbn. rewrite not_elem_of_cons. intros [Hy Hl].
  rewrite (proj2 (Nat.eqb_neq _ _)) by congruence. by rewrite IH.
Qed.

(** [h] has the pools [l1], then [p] with the interfaces [ifs], then [l2]. *)
Record within {K} (l1 : list UsbInterfacePool) (p : UsbInterfacePool) (ifs : list UsbSdkInterface)
    (l2 : list UsbInterfacePool) (h : Host K) : Prop := Within {
  wi_ok : host_ok h;
  wi_pools : ifacePoolList h = l1 ++ set_interfaceList ifs p :: l2;
}.
(** While a pool is filled it is the last one. *)
Abbreviation filling l p ifs := (within l p ifs []).

Section facts.
Context {HS : HdfStatus} {US : UsbStatus} {UL : UsbStatusLaws} {RA : RamAlloc} {SZ : UsbSizes} {PZ : PoolSizes} {PL : PoolSizesLaws}
  {K : Type} {HA : HostAdapter K}.
Implicit Types (h : Host K).

(** ** A pool of the session *)

Lemma blocks_within l1 p ifs l2 h :
  within l1 p ifs l2 h ->
  host_blocks h = concat (map pool_blocks l1) ++ (pool_block p :: concat (map sdk_blocks ifs)) ++ concat (map pool_blocks l2).
Proof. intros [_ E]. unfold host_blocks. by rewrite E, map_app, concat_app. Qed.

Lemma pool_block_elem q l : q ∈ l -> pool_block q ∈ concat (map pool_blocks l).
Proof. intros H. apply list_elem_of_In, in_concat. exists (pool_blocks q). split; [by apply in_map, list_elem_of_In | by left]. Qed.

Lemma if_block_elem i l : i ∈ l -> if_block i ∈ concat (map sdk_blocks l).
Proof. intros H. apply list_elem_of_In, in_concat. exists (sdk_blocks i). split; [by apply in_map, list_elem_of_In | by left]. Qed.

Lemma pools_if_block q i l : q ∈ l -> i ∈ interfaceList q -> if_block i ∈ concat (map pool_blocks l).
Proof.
  intros H Hi. apply list_elem_of_In, in_concat. exists (pool_blocks q). split; [by apply in_map, list_elem_of_In|].
  right. by apply list_elem_of_In, if_block_elem.
Qed.

Lemma not_elem_map {A} (key : A -> nat) b l : (forall x, x ∈ l -> key x <> b) -> b ∉ map key l.
Proof. intros H (x & E & Hx)%list_elem_of_In%in_map_iff. by apply (H x); [apply list_elem_of_In|]. Qed.

Lemma pool_only l1 p ifs l2 h :
  within l1 p ifs l2 h -> pool_block p ∉ map pool_block l1 /\ pool_block p ∉ map pool_block l2.
Proof.
  intros Hf. pose proof (ho_distinct h (wi_ok _ _ _ _ _ Hf)) as Hd. rewrite (blocks_within _ _ _ _ _ Hf) in Hd.
  apply NoDup_app in Hd as (_ & Hd1 & Hd2). apply NoDup_app in Hd2 as (_ & Hd2 & _). split; apply not_elem_map; intros q Hq E.
  - apply (Hd1 (pool_block q)); [by apply pool_block_elem | rewrite E; left].
  - apply (Hd2 (pool_block p)); [left | rewrite <- E; by apply pool_block_elem].
Qed.

(** Where no other interface has the block of [x]. *)
Record interface_only (x : UsbSdkInterface) (ifs1 ifs2 : list UsbSdkInterface) (l : list UsbInterfacePool) : Prop := InterfaceOnly {
  io_before : if_block x ∉ map if_block ifs1;
  io_after : if_block x ∉ map if_block ifs2;
  io_pools : forall q, q ∈ l -> if_block x ∉ map if_block (interfaceList q);
}.

Lemma interface_alone l1 p ifs1 x ifs2 l2 h :
  within l1 p (ifs1 ++ x :: ifs2) l2 h -> interface_only x ifs1 ifs2 (l1 ++ l2).
Proof.
  intros Hf. pose proof (ho_distinct h (wi_ok _ _ _ _ _ Hf)) as Hd. rewrite (blocks_within _ _ _ _ _ Hf) in Hd.
  rewrite map_app, concat_app in Hd. cbn [map concat] in Hd.
  assert (if_block x ∈ sdk_blocks x) as Hx by left.
  apply NoDup_app in Hd as (_ & Hd1 & Hd2). apply NoDup_app in Hd2 as (Hd2 & Hd3 & _). apply NoDup_cons in Hd2 as [_ Hd2].
  apply NoDup_app in Hd2 as (_ & Hd4 & Hd5). apply NoDup_app in Hd5 as (_ & Hd5 & _). split.
  - apply not_elem_map. intros i Hi E. apply (Hd4 (if_block i)); [by apply if_block_elem | rewrite E; set_solver].
  - apply not_elem_map. intros i Hi E. apply (Hd5 (if_block x)); [done | rewrite <- E; by apply if_block_elem].
  - intros q [Hq|Hq]%elem_of_app; apply not_elem_map; intros i Hi E.
    + apply (Hd1 (if_block i)); [by eapply pools_if_block | rewrite E; set_solver].
    + apply (Hd3 (if_block x)); [set_solver | rewrite <- E; by eapply pools_if_block].
Qed.

Lemma set_interfaceList_same q : set_interfaceList (interfaceList q) q = q.
Proof. by destruct q. Qed.

Lemma runs_pool l1 p ifs l2 h (Q : UsbInterfacePool -> Host K -> Prop) :
  within l1 p ifs l2 h -> Q (set_interfaceList ifs p) h -> runs (pool (pool_block p)) h Q.
Proof.
  intros Hf HQ. unfold runs, pool, pool_at, gets_host. erewrite after_done by done. rewrite (wi_pools _ _ _ _ _ Hf).
  rewrite (find_block pool_block); [done | by destruct p | apply (pool_only _ _ _ _ _ Hf)].
Qed.

Lemma runs_upd_pool l1 p ifs l2 f h (Q : unit -> Host K -> Prop) :
  within l1 p ifs l2 h -> Q tt (set_ifacePoolList (l1 ++ f (set_interfaceList ifs p) :: l2) h) ->
  runs (upd_pool (pool_block p) f) h Q.
Proof.
  intros Hf HQ. apply runs_bind. eapply runs_pool; [exact Hf|]. unfold runs, put_host. rewrite (wi_pools _ _ _ _ _ Hf).
  destruct (pool_only _ _ _ _ _ Hf). by rewrite (map_block pool_block _ f) by (done || by destruct p).
Qed.

Lemma runs_interface l1 p ifs1 x ifs2 l2 h (Q : UsbSdkInterface -> Host K -> Prop) :
  within l1 p (ifs1 ++ x :: ifs2) l2 h -> Q x h -> runs (sdk_interface (if_block x)) h Q.
Proof.
  intros Hf HQ. unfold runs, sdk_interface, interface_at, gets_host. erewrite after_done by done.
  assert (all_interfaces h = (concat (map interfaceList l1) ++ ifs1) ++ x :: ifs2 ++ concat (map interfaceList l2)) as ->.
  { unfold all_interfaces. rewrite (wi_pools _ _ _ _ _ Hf), map_app, concat_app. cbn. by rewrite <- !app_assoc. }
  destruct (interface_alone _ _ _ _ _ _ _ Hf) as [H1 H2 H3].
  rewrite (find_block if_block _ _ x); [done | done |]. rewrite map_app, not_elem_of_app. split; [|done].
  apply not_elem_map. intros i Hi%list_elem_of_In E. apply in_concat in Hi as (is' & Hm & Hi).
  apply in_map_iff in Hm as (q & <- & Hq). apply (H3 q); [apply elem_of_app; left; by apply list_elem_of_In|]. rewrite <- E.
  by apply list_elem_of_In, in_map.
Qed.

Lemma runs_upd_interface l1 p ifs1 x ifs2 l2 f h (Q : unit -> Host K -> Prop) :
  within l1 p (ifs1 ++ x :: ifs2) l2 h ->
  Q tt (set_ifacePoolList (l1 ++ set_interfaceList (ifs1 ++ f x :: ifs2) p :: l2) h) ->
  runs (upd_interface (if_block x) f) h Q.
Proof.
  intros Hf HQ. apply runs_bind. eapply runs_interface; [exact Hf|]. unfold runs, put_host.
  rewrite (wi_pools _ _ _ _ _ Hf), map_app. cbn [map]. destruct (interface_alone _ _ _ _ _ _ _ Hf) as [H1 H2 H3].
  cbn [interfaceList set_interfaceList]. rewrite (map_block if_block _ f ifs1 x ifs2) by done.
  set (g := fun q : UsbInterfacePool => _).
  assert (forall l, (forall q, q ∈ l -> q ∈ l1 ++ l2) -> map g l = l) as Hg.
  { intros l Hl. rewrite <- (map_id l) at 2. apply map_ext_in. intros q Hq%list_elem_of_In. unfold g.
    rewrite map_block_none by auto. apply set_interfaceList_same. }
  rewrite !Hg; [by destruct p | intros q Hq; apply elem_of_app; auto..].
Qed.

(** ** Growing it *)

(** From [h] to [h'] the blocks [new] were taken and nothing else changed but the
    pools. *)
Record made (new : list nat) h h' : Prop := Made {
  mk_rest : rest_same h h';
  mk_grown : grown new (ram h) (ram h');
}.

Lemma made_refl h : made [] h h.
Proof. split; [done | apply grown_refl]. Qed.
Lemma made_trans n1 n2 h1 h2 h3 : made n1 h1 h2 -> made n2 h2 h3 -> made (n1 ++ n2) h1 h3.
Proof. intros [] []. split; [by etrans | by eapply grown_trans]. Qed.

Lemma grown_wf new r r' : ram_wf r -> grown new r r' -> ram_wf r'.
Proof.
  intros Hok [G1 G2 _ G4] b. rewrite G1, elem_of_union, elem_of_list_to_set. intros [Hb|Hb]; [apply Hok in Hb; lia|].
  eapply Forall_forall in G4; [|exact Hb]. cbn in G4. lia.
Qed.

Lemma filling_step l p ifs ifs' new h h' :
  filling l p ifs h -> made new h h' -> ifacePoolList h' = l ++ [set_interfaceList ifs' p] ->
  concat (map sdk_blocks ifs') ≡ₚ concat (map sdk_blocks ifs) ++ new -> filling l p ifs' h'.
Proof.
  intros Hf [_ Hg] E Hp. pose proof Hf as [[H1 H2 H3] _]. pose proof Hg as [_ G2 G3 G4].
  assert (host_blocks h' ≡ₚ host_blocks h ++ new) as Hb.
  { rewrite (blocks_within _ _ _ _ _ Hf). unfold host_blocks. rewrite E, map_app, concat_app. cbn.
    rewrite !app_nil_r, <- app_assoc. cbn. by rewrite Hp. }
  split; [|done]. split; [by eapply grown_wf | |].
  - rewrite Hb. apply NoDup_app. split; [done|]. split; [|done]. intros b Hb1 Hb2.
    eapply Forall_forall in H3; [|exact Hb1]. eapply Forall_forall in G4; [|exact Hb2]. cbn in *. lia.
  - rewrite Hb. apply Forall_app. split; [eapply Forall_impl; [exact H3|]; cbn; lia|].
    eapply Forall_impl; [exact G4|]. cbn. lia.
Qed.

(** ** Making a pipe and an interface *)
Lemma runs_take size h (Q : option nat -> Host K -> Prop) :
  0 < size -> ram_granted ->
  (forall b h', made [b] h h' -> ifacePoolList h' = ifacePoolList h -> Q (Some b) h') ->
  runs (on_ram (RawUsbMemCalloc size)) h Q.
Proof.
  intros Hs Hgr HQ.
  assert (runs (RawUsbMemCalloc size) (ram h) (fun a r => exists b, a = Some b /\ grown [b] (ram h) r)) as H.
  { apply runs_calloc; [done | by eauto | intros Hng; by destruct (granted_refused Hgr)]. }
  apply runs_inv in H as (a & r & E & b & -> & Hg). unfold runs, on_ram. rewrite E. by apply HQ.
Qed.

Lemma runs_put f h (Q : unit -> Host K -> Prop) : Q tt (f h) -> runs (put_host f) h Q.
Proof. done. Qed.
Lemma runs_get {A} (f : Host K -> A) h (Q : A -> Host K -> Prop) : Q (f h) h -> runs (gets_host f) h Q.
Proof. done. Qed.

(** The memory may grow. *)
Lemma filling_mono l p ifs new h h' :
  filling l p ifs h -> made new h h' -> ifacePoolList h' = ifacePoolList h -> filling l p ifs h'.
Proof.
  intros [[H1 H2 H3] E] [_ Hg] Ep. split; [|by rewrite Ep].
  split; [by eapply grown_wf | by unfold host_blocks; rewrite Ep|]. unfold host_blocks. rewrite Ep.
  eapply Forall_impl; [exact H3|]. destruct Hg as [_ Hn _ _]. cbn. lia.
Qed.

Definition add_pipe (q : UsbPipe) (x : UsbSdkInterface) : UsbSdkInterface := set_pipeList (pipeList x ++ [q]) x.

Lemma UsbIfCreatPipeObj_ok l p ifs x h :
  ram_granted -> filling l p (ifs ++ [x]) h ->
  runs (UsbIfCreatPipeObj (if_block x)) h (fun '(ret, q) h' => exists b id,
    ret = HDF_SUCCESS /\ q = Some b /\ made [b] h h' /\
    filling l p (ifs ++ [add_pipe (mkPipe b id (mkPipeInfo (interfaceIndex (info x)) 0 0 0 0 0 0)) x]) h').
Proof.
  intros Hgr Hf. apply runs_bind, runs_take; [apply pz_pipe | done|]. intros b h1 Hm E1.
  apply runs_bind, runs_put. set (h2 := set_pipe_idNum _ h1). apply runs_bind, runs_get.
  assert (made [b] h h2) as Hm2 by (destruct Hm as [[] ?]; by split).
  assert (filling l p (ifs ++ [x]) h2) as Hf2 by by eapply filling_mono.
  eapply runs_bind, runs_interface; [exact Hf2|]. eapply runs_bind, runs_upd_interface; [exact Hf2|].
  apply runs_ret. exists b, (pipe_idNum h2). split; [done|]. split; [done|].
  split; [by destruct Hm2 as [[] ?]|]. eapply (filling_step _ _ _ _ [b]); [exact Hf | by destruct Hm2 as [[] ?] | done |].
  rewrite !map_app, !concat_app. cbn. rewrite !app_nil_r, map_app, <- !app_assoc. done.
Qed.

Definition fresh_interface (b : nat) (id : Z) (p : UsbInterfacePool) : UsbSdkInterface :=
  mkSdkInterface b id zero_interface_info (pool_objectId p) [] USB_INTERFACE_STATUS_NORMAL 0 false 0.

Lemma UsbIfCreatInterfaceObj_ok l p ifs h :
  ram_granted -> filling l p ifs h ->
  runs (UsbIfCreatInterfaceObj (pool_block p)) h (fun '(ret, i) h' => exists b id,
    ret = HDF_SUCCESS /\ i = Some b /\ made [b] h h' /\ filling l p (ifs ++ [fresh_interface b id p]) h').
Proof.
  intros Hgr Hf. apply runs_bind, runs_take; [apply pz_interface | done|]. intros b h1 Hm E1.
  apply runs_bind, runs_put. set (h2 := set_interface_idNum _ h1). apply runs_bind, runs_get.
  assert (made [b] h h2) as Hm2 by (destruct Hm as [[] ?]; by split).
  assert (filling l p ifs h2) as Hf2 by by eapply filling_mono.
  eapply runs_bind, runs_pool; [exact Hf2|]. eapply runs_bind, runs_upd_pool; [exact Hf2|].
  apply runs_ret. exists b, (interface_idNum h2). split; [done|]. split; [done|].
  split; [by destruct Hm2 as [[] ?]|].
  eapply (filling_step _ _ _ _ [b]); [exact Hf | by destruct Hm2 as [[] ?] | by destruct p |].
  rewrite map_app, concat_app. done.
Qed.

(** Changing the fields of the interface made last. *)
Lemma runs_fill_interface l p ifs x f h (Q : unit -> Host K -> Prop) :
  filling l p (ifs ++ [x]) h -> sdk_blocks (f x) = sdk_blocks x ->
  (forall h', made [] h h' -> filling l p (ifs ++ [f x]) h' -> Q tt h') -> runs (upd_interface (if_block x) f) h Q.
Proof.
  intros Hf Hb HQ. eapply runs_upd_interface; [exact Hf|]. apply HQ; [split; [by split | apply grown_refl]|].
  eapply (filling_step _ _ _ _ []); [exact Hf | split; [by split | apply grown_refl] | done |].
  rewrite !map_app, !concat_app, app_nil_r. cbn [map concat]. by rewrite Hb.
Qed.

(** Changing the pipe made last. *)
Lemma runs_fill_pipe l p ifs x q f h (Q : unit -> Host K -> Prop) :
  filling l p (ifs ++ [add_pipe q x]) h ->
  (forall h', made [] h h' -> filling l p (ifs ++ [add_pipe (set_pipe_info (f (pipe_info q)) q) x]) h' -> Q tt h') ->
  runs (upd_pipe (if_block x) (pipe_block q) f) h Q.
Proof.
  intros Hf HQ. unfold upd_pipe.
  assert (pipe_block q ∉ map pipe_block (pipeList x)) as Hq.
  { pose proof (ho_distinct h (wi_ok _ _ _ _ _ Hf)) as Hd. rewrite (blocks_within _ _ _ _ _ Hf), map_app, concat_app in Hd. cbn in Hd.
    rewrite !app_nil_r, map_app in Hd. apply NoDup_app in Hd as (_ & _ & [_ Hd]%NoDup_cons).
    apply NoDup_app in Hd as (_ & _ & [_ Hd]%NoDup_cons). apply NoDup_app in Hd as (_ & Hd & _).
    intros Hin. apply (Hd _ Hin). left. }
  set (g := fun y : UsbSdkInterface => _). assert (g (add_pipe q x) = add_pipe (set_pipe_info (f (pipe_info q)) q) x) as E.
  { unfold g, add_pipe. cbn [pipeList set_pipeList]. rewrite (map_block pipe_block _ (fun p => set_pipe_info (f (pipe_info p)) p) _ _ []);
      [done | done | done | apply not_elem_of_nil]. }
  change (if_block x) with (if_block (add_pipe q x)). eapply runs_fill_interface; [exact Hf | | by rewrite E].
  rewrite E. unfold sdk_blocks, add_pipe. cbn. by rewrite !map_app.
Qed.
End facts.
