(* ===== verification/UsbPoolOpen.v ===== *)
(** * UsbPoolOpen: opening a device fills its pool

    What a configuration means for the interfaces and pipes of a device, and
    that [UsbProtocalParseDescriptor] makes exactly these: from the bytes the
    device sends to the objects a client finds. *)
From S2P Require Import Prelude Hdf Arrays UsbDesc UsbDescSpec UsbDescFacts UsbDescParse UsbDescConfig UsbDescLoop UsbDescWhole UsbDescRun UsbDescRam UsbPool UsbPoolFacts.
Open Scope Z_scope.

(** ** Meaning *)

(** An interface object without its memory, its number and its use. *)
Record object_view := OView { ov_info : UsbInterfaceInfo; ov_alt : Z; ov_pipes : list UsbPipeInfo }.
Definition view_object (x : UsbSdkInterface) : object_view := OView (info x) (altSettingId x) (map pipe_info (pipeList x)).

(** The pipe of an endpoint of the interface [n]: the low four bits of its
    address are the number, the high bit is the direction (128 towards the host),
    the low two bits of the attributes are the type. *)
Definition mean_pipe (n id : Z) (d : UsbEndpointDescriptor) : UsbPipeInfo :=
  mkPipeInfo n id (bEndpointAddress d `mod` 16) (e_bmAttributes d `mod` 4)
    (if Z.testbit (bEndpointAddress d) 7 then 128 else 0) (wMaxPacketSize d) (bInterval d).

Lemma land_bit x k : 0 <= k -> Z.land x (2 ^ k) = if Z.testbit x k then 2 ^ k else 0.
Proof.
  intros Hk. apply Z.bits_inj'. intros n Hn. rewrite Z.land_spec, Z.pow2_bits_eqb by done.
  destruct (Z.eqb_spec k n) as [->|Hne].
  - destruct (Z.testbit x n); [by rewrite Z.pow2_bits_true | by rewrite Z.bits_0].
  - rewrite andb_false_r. destruct (Z.testbit x k); [by rewrite Z.pow2_bits_false by lia | by rewrite Z.bits_0].
Qed.
Lemma pipe_info_of_mean n id d : pipe_info_of n id d = mean_pipe n id d.
Proof.
  unfold pipe_info_of, mean_pipe, USB_DDK_ENDPOINT_NUMBER_MASK, USB_DDK_ENDPOINT_XFERTYPE_MASK, USB_DDK_ENDPOINT_DIR_MASK.
  f_equal; [exact (Z.land_ones _ 4 ltac:(done)) | exact (Z.land_ones _ 2 ltac:(done)) | exact (land_bit _ 7 ltac:(done))].
Qed.

(** The pipes of the endpoints of the interface [n] are numbered from [k + 1]. *)
Fixpoint mean_pipes (k : nat) (n : Z) (es : list endpoint_view) : list UsbPipeInfo :=
  match es with [] => [] | e :: es => mean_pipe n (Z.of_nat (S k)) (ev_desc e) :: mean_pipes (S k) n es end.
Definition mean_object (numAlt : Z) (a : alt_view) : object_view :=
  let d := av_desc a in
  OView (mkInterfaceInfo (bInterfaceNumber d) numAlt USB_DEFAULT_ALTSETTING (bNumEndpoints d)
           (bInterfaceClass d) (bInterfaceSubClass d) (bInterfaceProtocol d))
    (bAlternateSetting d) (mean_pipes 0 (bInterfaceNumber d) (av_endpoints a)).
Definition control_object : object_view :=
  OView (mkInterfaceInfo USB_CTRL_INTERFACE_ID 0 0 1 0 0 0) 0
    [mkPipeInfo USB_CTRL_INTERFACE_ID 0 0 USB_PIPE_TYPE_CONTROL USB_PIPE_DIRECTION_OUT 0 0].
Definition mean_interface (alts : list alt_view) : list object_view := map (mean_object (Z.of_nat (length alts))) alts.
Definition mean_device (v : config_view) : list object_view :=
  control_object :: concat (map mean_interface (cv_interfaces v)).

(** An object nobody uses. *)
Record unused (pid : Z) (x : UsbSdkInterface) : Prop := Unused {
  un_status : status x = USB_INTERFACE_STATUS_NORMAL;
  un_session : if_session x = false;
  un_refs : refCount x = 0;
  un_parent : parentObjectId x = pid;
}.

Section open.
Context {HS : HdfStatus} {US : UsbStatus} {UL : UsbStatusLaws} {RA : RamAlloc} {SZ : UsbSizes} {SL : UsbSizesLaws}
  {PZ : PoolSizes} {PL : PoolSizesLaws} {K : Type} {HA : HostAdapter K}.
Implicit Types (h : Host K).

(** ** Pipes *)
Lemma create_pipes_ok ifDes l p ifs es done_ x ret b h :
  ram_granted -> filling l p (ifs ++ [x]) h ->
  endPoint ifDes = Some (b, done_ ++ es) -> bNumEndpoints (interfaceDescriptor ifDes) = Z.of_nat (length (done_ ++ es)) ->
  (length (done_ ++ es) <= 32)%nat -> es <> [] \/ ret = Some HDF_SUCCESS ->
  runs (create_pipes (length es) (length done_) ifDes (if_block x) ret) h (fun ret' h' => exists new,
    ret' = HDF_SUCCESS /\ made (map pipe_block new) h h' /\ filling l p (ifs ++ [set_pipeList (pipeList x ++ new) x]) h' /\
    map pipe_info new = mean_pipes (length done_) (interfaceIndex (info x)) (map view_endpoint es)).
Proof.
  intros Hgr Hf He Hn Hmax Hret. revert done_ x ret h Hf He Hn Hmax Hret.
  induction es as [|e es IH]; intros done_ x ret h Hf He Hn Hmax Hret.
  { destruct Hret as [?| ->]; [done|]. apply runs_ret. exists []. rewrite app_nil_r. split; [done|].
    split; [apply made_refl|]. split; [by destruct x | done]. }
  cbn [length create_pipes]. rewrite length_app in Hn, Hmax. cbn [length] in Hn, Hmax. unfold USB_MAXENDPOINTS.
  rewrite (proj2 (Z.ltb_ge 32 _)) by lia.
  assert (u8 (Z.of_nat (length done_)) = Z.of_nat (length done_)) as Eu by (unfold u8; rewrite Z.mod_small; lia).
  assert (u8 (Z.of_nat (length done_) + 1) = Z.of_nat (S (length done_))) as Eu2 by (unfold u8; rewrite Z.mod_small; lia).
  unfold UsbGetEpDesc. rewrite Eu, Hn, (proj2 (Z.ltb_ge _ _)) by lia. rewrite He, list_lookup_middle by done.
  apply runs_bind, runs_ret, runs_bind. eapply runs_mono; [by apply UsbIfCreatPipeObj_ok|].
  intros [ret1 q] h1 (pb & id & -> & -> & Hm1 & Hf1). unfold UsbPipeInit. set (q1 := mkPipe pb id _) in *.
  apply runs_bind, runs_bind. change pb with (pipe_block q1). eapply runs_fill_pipe; [exact Hf1|]. intros h2 Hm2 Hf2.
  apply runs_ret. rewrite Eu2 in Hf2. rewrite Z.eqb_refl. cbn [negb]. set (q2 := set_pipe_info _ q1) in *.
  change (if_block x) with (if_block (add_pipe q2 x)).
  replace (S (length done_)) with (length (done_ ++ [e])) by (rewrite length_app; cbn; lia).
  eapply runs_mono; [apply (IH (done_ ++ [e]) (add_pipe q2 x) (Some HDF_SUCCESS) h2)|].
  - exact Hf2.
  - by rewrite <- app_assoc.
  - rewrite !length_app. cbn. lia.
  - rewrite !length_app. cbn. lia.
  - by right.
  - intros ret' h3 (new & -> & Hm3 & Hf3 & Hv). exists (q2 :: new). split; [done|].
    split; [exact (made_trans _ _ _ _ _ Hm1 (made_trans _ _ _ _ _ Hm2 Hm3))|]. split.
    + unfold add_pipe in Hf3. cbn [pipeList set_pipeList] in Hf3. by rewrite <- app_assoc in Hf3.
    + cbn [map mean_pipes]. f_equal; [apply pipe_info_of_mean|]. rewrite length_app in Hv. cbn in Hv. by rewrite Nat.add_1_r in Hv.
Qed.

(** ** Interfaces *)

(** An alternate setting with an endpoint at least. *)
Definition alt_good (a : UsbRawInterfaceDescriptor) : Prop :=
  exists b es, endPoint a = Some (b, es) /\ es <> [] /\ (length es <= 32)%nat /\
    bNumEndpoints (interfaceDescriptor a) = Z.of_nat (length es).

(** The objects [new] were made for [views]. *)
Record objects_for (pid : Z) (views : list object_view) (new : list UsbSdkInterface) : Prop := ObjectsFor {
  of_views : map view_object new = views;
  of_unused : Forall (unused pid) new;
}.
Lemma objects_for_app pid v1 v2 n1 n2 : objects_for pid v1 n1 -> objects_for pid v2 n2 -> objects_for pid (v1 ++ v2) (n1 ++ n2).
Proof. intros [<- H1] [<- H2]. split; [by rewrite map_app | by apply Forall_app]. Qed.

(** One alternate setting that is good. *)
Lemma create_alt_one n u l p a (done_ : list UsbRawInterfaceDescriptor) ifs ret h :
  ram_granted -> filling l p ifs h -> altsetting u !! length done_ = Some a -> alt_good a ->
  exists x h', create_alts (S n) (length done_) u (pool_block p) ret h =
      create_alts n (S (length done_)) u (pool_block p) (Some HDF_SUCCESS) h' /\
    made (sdk_blocks x) h h' /\ filling l p (ifs ++ [x]) h' /\
    objects_for (pool_objectId p) [mean_object (numAltsetting u) (view_alt a)] [x].
Proof.
  intros Hgr Hf Hu (b & es & He & Hne & Hmax & Hn). cbn [create_alts]. rewrite Hu.
  pose proof (UsbIfCreatInterfaceObj_ok l p ifs h Hgr Hf) as H1.
  apply runs_inv in H1 as ([ret1 i] & h1 & E1 & ib & id & -> & -> & Hm1 & Hf1). rewrite (after_done _ _ _ _ _ E1).
  set (x := fresh_interface ib id p) in *. unfold UsbInterfaceInit. match goal with |- context [upd_interface ib ?g] => set (f := g) end.
  assert (runs (upd_interface (if_block x) f) h1 (fun _ h' => made [] h1 h' /\ filling l p (ifs ++ [f x]) h')) as H2.
  { by apply (runs_fill_interface l p ifs x f h1). }
  apply runs_inv in H2 as (u2 & h2 & E2 & Hm2 & Hf2).
  pose proof us_success as Hok. change (if_block x) with ib in E2.
  rewrite (after_done _ _ HDF_SUCCESS h1 h2) by by rewrite (after_done _ _ _ _ _ E2). rewrite Hok, Z.eqb_refl. cbn [negb].
  unfold UsbProtocalCreatePipeObj. rewrite Hn, Nat2Z.id. change (if_block x) with (if_block (f x)).
  pose proof (create_pipes_ok a l p ifs es [] (f x) None b h2 Hgr Hf2 He Hn Hmax (or_introl Hne)) as H3.
  apply runs_inv in H3 as (ret3 & h3 & E3 & new & -> & Hm3 & Hf3 & Hv).
  change (if_block (f x)) with ib in E3. rewrite (after_done _ _ _ _ _ E3), Hok, Z.eqb_refl. cbn [negb].
  exists (set_pipeList (pipeList (f x) ++ new) (f x)), h3. split; [done|].
  split; [exact (made_trans _ _ _ _ _ Hm1 (made_trans _ _ _ _ _ Hm2 Hm3))|]. split; [exact Hf3|].
  split; [|by repeat constructor]. cbn [map]. f_equal. unfold view_object, mean_object. cbn. rewrite Hv, He. done.
Qed.

Lemma create_alts_ok u l p as_ done_ zs ifs ret h :
  ram_granted -> filling l p ifs h -> altsetting u = done_ ++ as_ ++ zs -> Forall alt_good as_ ->
  runs (create_alts (length as_) (length done_) u (pool_block p) ret) h (fun '(ret', more) h' => exists new,
    more = true /\ made (concat (map sdk_blocks new)) h h' /\ filling l p (ifs ++ new) h' /\
    objects_for (pool_objectId p) (map (mean_object (numAltsetting u)) (map view_alt as_)) new /\
    (as_ = [] /\ ret' = ret \/ ret' = Some HDF_SUCCESS)).
Proof.
  intros Hgr Hf Hu Hgood. revert done_ ifs ret h Hf Hu.
  induction Hgood as [|a as_ Ha Hgood IH]; intros done_ ifs ret h Hf Hu.
  { apply runs_ret. exists []. rewrite app_nil_r. split; [done|]. split; [apply made_refl|]. split; [done|].
    split; [by split|]. by left. }
  destruct (create_alt_one (length as_) u l p a done_ ifs ret h Hgr Hf) as (x & h1 & E & Hm1 & Hf1 & Ho1).
  { rewrite Hu. cbn. by rewrite list_lookup_middle. }
  { done. }
  unfold runs. cbn [length]. rewrite E.
  replace (S (length done_)) with (length (done_ ++ [a])) by (rewrite length_app; cbn; lia).
  eapply runs_mono; [apply (IH (done_ ++ [a]) (ifs ++ [x]) (Some HDF_SUCCESS) h1 Hf1); by rewrite Hu, <- app_assoc|].
  intros [ret' more] h2 (new & -> & Hm2 & Hf2 & Ho2 & Hret). exists (x :: new).
  split; [done|]. split; [exact (made_trans _ _ _ _ _ Hm1 Hm2)|]. split; [by rewrite <- app_assoc in Hf2|]. split.
  - exact (objects_for_app _ _ _ _ _ Ho1 Ho2).
  - right. by destruct Hret as [[_ ->]| ->].
Qed.

(** An interface of a configuration, all of whose alternate settings are [good]. *)
Definition slot_of (good : UsbRawInterfaceDescriptor -> Prop) (q : ptr UsbRawInterface) : Prop :=
  exists b u as_ zs, q = Some (b, u) /\ altsetting u = as_ ++ zs /\ numAltsetting u = Z.of_nat (length as_) /\
    as_ <> [] /\ Forall good as_.
Abbreviation slot_good := (slot_of alt_good).

Lemma slot_views b u as_ zs :
  altsetting u = as_ ++ zs -> numAltsetting u = Z.of_nat (length as_) ->
  view_interface (Some (b, u)) = map view_alt as_.
Proof. intros H1 H2. cbn. by rewrite H1, H2, Nat2Z.id, take_app_length. Qed.

(** The next interface of the configuration. *)
Lemma create_interfaces_next n c p k b u ret h :
  interface c !! k = Some (Some (b, u)) -> Z.of_nat k < bNumInterfaces (configDescriptor c) -> (k < 32)%nat ->
  create_interfaces (S n) k c p ret h =
    ('(ret, more) ← create_alts (Z.to_nat (numAltsetting u)) 0 u p ret;
     if negb more then match ret with Some ret => mret ret | None => crash end
     else create_interfaces n (S k) c p ret) h.
Proof.
  intros Hk Hlt H32. assert (u8 (Z.of_nat k) = Z.of_nat k) as Eu by (unfold u8; rewrite Z.mod_small; lia).
  cbn [create_interfaces]. unfold UsbGetInterfaceFromConfig. rewrite Eu, (proj2 (Z.ltb_ge _ _)) by lia. by rewrite Hk.
Qed.

(** One whose alternate settings are all good. *)
Lemma create_interface_one n c l p b u as_ zs k ifs ret h :
  ram_granted -> filling l p ifs h -> interface c !! k = Some (Some (b, u)) ->
  Z.of_nat k < bNumInterfaces (configDescriptor c) -> (k < 32)%nat ->
  altsetting u = as_ ++ zs -> numAltsetting u = Z.of_nat (length as_) -> as_ <> [] -> Forall alt_good as_ ->
  exists new h', create_interfaces (S n) k c (pool_block p) ret h =
      create_interfaces n (S k) c (pool_block p) (Some HDF_SUCCESS) h' /\
    made (concat (map sdk_blocks new)) h h' /\ filling l p (ifs ++ new) h' /\
    objects_for (pool_objectId p) (mean_interface (view_interface (Some (b, u)))) new.
Proof.
  intros Hgr Hf Hk Hlt H32 Ha Hna Hne Hgood. rewrite (create_interfaces_next _ _ _ _ b u) by done.
  pose proof (create_alts_ok u l p as_ [] zs ifs ret h Hgr Hf Ha Hgood) as H.
  apply runs_inv in H as ([ret1 more] & h1 & E & new & -> & Hm & Hf1 & Ho & Hret).
  rewrite Hna, Nat2Z.id, (after_done _ _ _ _ _ E). cbn [negb]. destruct Hret as [[? _]| ->]; [done|].
  exists new, h1. split; [done|]. split; [done|]. split; [done|]. rewrite (slot_views b u as_ zs Ha Hna).
  unfold mean_interface. by rewrite length_map, <- Hna.
Qed.

Lemma create_interfaces_ok c l p slots done_ zs ifs ret h :
  ram_granted -> filling l p ifs h -> interface c = done_ ++ slots ++ zs ->
  bNumInterfaces (configDescriptor c) = Z.of_nat (length (done_ ++ slots)) -> (length (done_ ++ slots) <= 32)%nat ->
  Forall slot_good slots -> slots <> [] \/ ret = Some HDF_SUCCESS ->
  runs (create_interfaces (length slots) (length done_) c (pool_block p) ret) h (fun ret' h' => exists new,
    ret' = HDF_SUCCESS /\ made (concat (map sdk_blocks new)) h h' /\ filling l p (ifs ++ new) h' /\
    objects_for (pool_objectId p) (concat (map (fun q => mean_interface (view_interface q)) slots)) new).
Proof.
  intros Hgr Hf Hi Hn Hmax Hgood Hret. revert done_ ifs ret h Hf Hi Hn Hmax Hret.
  induction Hgood as [|q slots (b & u & as_ & zs' & -> & Ha & Hna & Hne & Hgood) _ IH];
    intros done_ ifs ret h Hf Hi Hn Hmax Hret.
  { destruct Hret as [?| ->]; [done|]. apply runs_ret. exists []. rewrite app_nil_r. split; [done|].
    split; [apply made_refl|]. split; [done | by split]. }
  pose proof Hmax as Hmax'. rewrite length_app in Hmax'. cbn [length] in Hmax'. unfold runs. cbn [length].
  destruct (create_interface_one (length slots) c l p b u as_ zs' (length done_) ifs ret h Hgr Hf) as (new & h1 & E & Hm1 & Hf1 & Ho1);
    [by rewrite Hi; cbn; rewrite list_lookup_middle | rewrite Hn, length_app; cbn; lia | lia | done..|].
  rewrite E. replace (S (length done_)) with (length (done_ ++ [Some (b, u)])) by (rewrite length_app; cbn; lia).
  eapply runs_mono; [apply (IH (done_ ++ [Some (b, u)]) (ifs ++ new) (Some HDF_SUCCESS) h1 Hf1)|].
  - by rewrite Hi, <- app_assoc.
  - by rewrite <- app_assoc.
  - by rewrite <- app_assoc.
  - by right.
  - intros ret' h2 (new2 & -> & Hm2 & Hf2 & Ho2). exists (new ++ new2). split; [done|].
    split; [rewrite map_app, concat_app; by eapply made_trans|]. split; [by rewrite app_assoc|]. cbn [map concat].
    by apply objects_for_app.
Qed.

(** ** The control interface *)
Lemma CreateCtrPipe_ok l p h :
  ram_granted -> filling l p [] h ->
  runs (CreateCtrPipe (pool_block p)) h (fun ret h' => exists x,
    ret = HDF_SUCCESS /\ made (sdk_blocks x) h h' /\ filling l p [x] h' /\ objects_for (pool_objectId p) [control_object] [x]).
Proof.
  intros Hgr Hf. apply runs_bind. eapply runs_mono; [by apply (UsbIfCreatInterfaceObj_ok l p [])|].
  intros [ret1 i] h1 (ib & id & -> & -> & Hm1 & Hf1). cbn [app] in Hf1. set (x := fresh_interface ib id p) in *.
  apply runs_bind. change ib with (if_block x). eapply (runs_fill_interface l p []); [exact Hf1 | done|].
  intros h2 Hm2 Hf2. set (x2 := set_altSettingId _ _) in Hf2. apply runs_bind. change (if_block x) with (if_block x2).
  eapply runs_mono; [by apply (UsbIfCreatPipeObj_ok l p [])|].
  intros [ret3 q] h3 (qb & qid & -> & -> & Hm3 & Hf3). set (q1 := mkPipe qb qid _) in *. apply runs_bind.
  change qb with (pipe_block q1). eapply (runs_fill_pipe l p []); [exact Hf3|]. intros h4 Hm4 Hf4. apply runs_ret.
  eexists. split; [done|]. split; cycle 1.
  - split; [exact Hf4|]. split; [done | by repeat constructor].
  - exact (made_trans _ _ _ _ _ Hm1 (made_trans _ _ _ _ _ Hm2 (made_trans _ _ _ _ _ Hm3 Hm4))).
Qed.

(** ** The configuration in between *)
Lemma filling_ram l p ifs r h : filling l p ifs h -> later (ram h) r -> filling l p ifs (set_ram r h).
Proof.
  intros [[H1 H2 H3] E] [L1 L2]. split; [|done]. split; [by apply L2 | done|].
  eapply Forall_impl; [exact H3|]. cbn. lia.
Qed.

Lemma runs_on_ram {A} (m : P A) h (Q : A -> Host K -> Prop) :
  keeps_later m -> runs m (ram h) (fun a r => later (ram h) r -> Q a (set_ram r h)) -> runs (on_ram m) h Q.
Proof.
  intros Hl H. apply runs_inv in H as (a & r & E & HQ). unfold runs, on_ram. rewrite E. by eapply HQ, Hl.
Qed.

(** What was made while the configuration was held is apart from it. *)
Lemma holds_made t base q new r r' :
  holds t base q r -> ram_wf r -> grown new r r' -> holds t (base ∪ list_to_set new) q r'.
Proof.
  intros (b & c & slots & -> & Hv & Hc & [O1 O2 O3]) Hwf [G1 G2 G3 G4]. exists b, c, slots. split_and!; [done..|].
  split; [rewrite G1, O1; set_solver | done|]. apply Forall_forall. intros x Hx.
  eapply Forall_forall in O3; [|exact Hx]. rewrite not_elem_of_union, elem_of_list_to_set. split; [done|]. intros Hn.
  eapply Forall_forall in G4; [|exact Hn]. cbn in G4. assert (x ∈ ram_live r) as Hl%Hwf by (rewrite O1; set_solver). lia.
Qed.

(** An alternate setting of a configuration with endpoints in all of them. *)
Definition alts_busy (t : config_tree) : Prop := Forall (fun a => at_eps a <> []) (ct_alts t).

Lemma alt_good_of a a' : alt_ok a -> at_eps a <> [] -> alt_shape a' -> view_alt a' = mean_alt a -> alt_good a'.
Proof.
  intros [_ _ Hmax _ _] Hne Hs Hv. apply (f_equal av_endpoints) in Hv. cbn in Hv. unfold USB_MAXENDPOINTS in Hmax.
  unfold alt_shape in Hs. destruct (endPoint a') as [[b es]|] eqn:E; cbn in Hv.
  - assert (length es = length (at_eps a)) as Hl by (apply (f_equal length) in Hv; by rewrite !length_map in Hv).
    exists b, es. split; [done|]. split; [|split; [lia | done]]. intros ->. by destruct (at_eps a).
  - by destruct (at_eps a).
Qed.

(** What holds of all alternate settings holds in the parsed structure. *)
Lemma slots_all (good : UsbRawInterfaceDescriptor -> Prop) t c slots :
  (forall a a', a ∈ ct_alts t -> alt_shape a' -> view_alt a' = mean_alt a -> good a') ->
  config_shape slots c -> view_config c = mean_config t -> Forall (slot_of good) slots.
Proof.
  intros Hgood [Hi Hn Hsh] Hv. apply (f_equal cv_interfaces) in Hv. cbn in Hv.
  rewrite Hi, Hn, Nat2Z.id, take_app_length in Hv. apply Forall_lookup_2. intros k q Eq.
  pose proof (Forall_lookup_1 _ _ _ _ Hsh Eq) as (b & used & m & -> & _ & Hused).
  assert (exists n, numbers (ct_alts t) !! k = Some n /\ map view_alt used = map mean_alt (alts_of n (ct_alts t))) as (n & En & Hu).
  { apply (f_equal (fun l => l !! k)) in Hv. rewrite !list_lookup_fmap, Eq in Hv. cbn in Hv.
    rewrite Nat2Z.id, take_app_length in Hv. destruct (numbers (ct_alts t) !! k) as [n|]; [|done].
    exists n. split; [done|]. by injection Hv. }
  assert (Forall (fun a => a ∈ ct_alts t) (alts_of n (ct_alts t))) as Hall.
  { apply Forall_forall. by intros a [_ Ha]%list_elem_of_filter. }
  exists b, (mkRawInterface (Z.of_nat (length used)) (used ++ replicate m zero_alt)), used, (replicate m zero_alt).
  split; [done|]. split; [done|]. split; [done|]. split.
  - intros ->. apply list_elem_of_lookup_2, numbers_elem in En as (a & Ha & <-). cbn in Hu.
    assert (a ∈ alts_of (alt_number a) (ct_alts t)) as Hin by by apply list_elem_of_filter.
    destruct (alts_of (alt_number a) (ct_alts t)); [by apply not_elem_of_nil in Hin | done].
  - revert Hu Hused Hall. generalize (alts_of n (ct_alts t)). clear -Hgood.
    induction used as [|a' used IH]; intros l Hu Hs Hall; [constructor|]. destruct l as [|a l]; [done|].
    pose proof (f_equal (List.hd (mean_alt a)) Hu) as Hv. apply (f_equal (@List.tl _)) in Hu.
    apply Forall_cons in Hs as [Hs1 Hs2]. apply Forall_cons in Hall as [Ha Hall].
    constructor; [exact (Hgood a a' Ha Hs1 Hv) | exact (IH l Hu Hs2 Hall)].
Qed.

Lemma slots_good t c slots :
  config_ok t -> alts_busy t -> config_shape slots c -> view_config c = mean_config t -> Forall slot_good slots.
Proof.
  intros Ht Hbusy. apply slots_all. intros a a' Ha. apply alt_good_of.
  - by apply (proj1 (Forall_forall _ _) (go_alts _ Ht)).
  - by apply (proj1 (Forall_forall _ _) Hbusy).
Qed.

(** ** Opening *)

(** The device behind the open handle [d] is in the configuration [t], which is
    well-formed and has an endpoint in every alternate setting. *)
Record usable (d : nat) (t : config_tree) (k : K) : Prop := Usable {
  us_open : handle_open d k = true;
  us_active : exists v, getConfiguration d k = (HDF_SUCCESS, v) /\ 0 <= v < 256 /\ v <= bNumConfigurations d k /\
                serves (getConfigDescriptor d k) v (config_bytes t);
  us_config : config_ok t;
  us_total : total_ok t;
  us_short : u8_ok t;
  us_alts : ct_alts t <> [];
  us_busy : alts_busy t;
}.

Lemma filling_first h b id bus addr h1 :
  host_ok h -> made [b] h h1 -> ifacePoolList h1 = ifacePoolList h ++ [mkPool b id false [] 0 bus addr 0 None] ->
  filling (ifacePoolList h) (mkPool b id false [] 0 bus addr 0 None) [] h1.
Proof.
  intros [H1 H2 H3] [_ Hg] E. split; [|exact E]. pose proof Hg as [_ G2 _ G4]. apply Forall_inv in G4. cbn in G4.
  assert (host_blocks h1 = host_blocks h ++ [b]) as Eb by (unfold host_blocks; by rewrite E, map_app, concat_app).
  split; [by eapply grown_wf | |]; rewrite Eb.
  - apply NoDup_app. split; [done|]. split; [|apply NoDup_singleton]. intros x Hx ->%list_elem_of_singleton.
    eapply Forall_forall in H3; [|exact Hx]. cbn in H3. lia.
  - apply Forall_app. split; [|constructor; [cbn; lia | constructor]]. eapply Forall_impl; [exact H3|]. cbn. lia.
Qed.

Lemma filling_device l p s v h :
  filling l p [] h -> interfaceList p = [] ->
  filling l (set_device s v p) [] (set_ifacePoolList (l ++ [set_device s v p]) h).
Proof.
  intros [[H1 H2 H3] E] Hp.
  assert (host_blocks (set_ifacePoolList (l ++ [set_device s v p]) h) = host_blocks h) as Eb.
  { unfold host_blocks. rewrite E. cbn. rewrite !map_app. destruct p; cbn in *. by rewrite Hp. }
  split; [split; [done | by rewrite Eb | by rewrite Eb]|]. destruct p; cbn in *. by rewrite Hp.
Qed.

Lemma filed_view_slots t c slots :
  view_config c = mean_config t -> config_shape slots c -> map view_interface slots = cv_interfaces (mean_config t).
Proof.
  intros Hv [Hi Hn _]. apply (f_equal cv_interfaces) in Hv. cbn [cv_interfaces view_config] in Hv.
  by rewrite Hi, Hn, Nat2Z.id, take_app_length in Hv.
Qed.

(** The objects of the configuration, with its memory taken and given back. *)
Lemma config_objects fuel l p x t d v h (kont : Z -> Prog (Host K) Z) (Q : Z -> Host K -> Prop) :
  ram_granted -> filling l p [x] h -> config_ok t -> total_ok t -> u8_ok t -> alts_busy t -> ct_alts t <> [] ->
  0 <= v < 256 -> v <= bNumConfigurations d (kernel h) -> serves (getConfigDescriptor d (kernel h)) v (config_bytes t) ->
  (length (config_bytes t) < fuel)%nat ->
  (forall new h', made (concat (map sdk_blocks new)) h h' -> filling l p (x :: new) h' ->
     objects_for (pool_objectId p) (concat (map mean_interface (cv_interfaces (mean_config t)))) new ->
     runs (kont HDF_SUCCESS) h' Q) ->
  runs ('(ret, config) ← on_ram (RawGetConfigDescriptor (Some (getConfigDescriptor d (kernel h))) fuel
                                   (bNumConfigurations d (kernel h)) (u8 v));
        ret ← (if negb (ret =? HDF_SUCCESS) then mret ret
               else match config with Some (_, c) => UsbProtocalCreatInterfaceObj c (pool_block p) | None => crash end);
        on_ram (UsbRawFreeConfigDescriptor config);; kont ret) h Q.
Proof.
  intros Hgr Hf Ht Htot Hu8 Hbusy Hne Hv Hvn Hserves Hfuel Hkont. pose proof us_success as Hok.
  assert (u8 v = v) as Eu by (unfold u8; rewrite Z.mod_small; lia). rewrite Eu.
  pose proof (ho_ram h (wi_ok _ _ _ _ _ Hf)) as Hwf.
  pose proof (get_config_any fuel _ t _ v (ram h) Ht Htot Hu8 Hserves Hvn Hwf Hfuel) as Hget.
  apply runs_bind, runs_on_ram; [auto with later|]. eapply runs_mono; [exact Hget|].
  intros [ret config] r1 [[-> Hh]|[[Hng _] _]] Hl1; [|by destruct (granted_refused Hgr)].
  pose proof (filling_ram _ _ _ _ _ Hf Hl1) as Hf1. set (h1 := set_ram r1 h) in *.
  rewrite Hok, Z.eqb_refl. cbn [negb]. pose proof Hh as (b & c & slots & -> & Hview & Hshape & _).
  pose proof (slots_good t c slots Ht Hbusy Hshape Hview) as Hgood. pose proof Hshape as [Hi Hn _].
  assert (length slots = length (numbers (ct_alts t))) as Hls.
  { pose proof (f_equal (fun v => bNumInterfaces (cv_desc v)) Hview) as En. cbn in En. rewrite Hn in En. lia. }
  assert (slots <> []) as Hsne.
  { intros ->. destruct (ct_alts t) as [|a alts] eqn:Ea; [done|].
    assert (alt_number a ∈ numbers (ct_alts t)) as Hin by (apply numbers_elem; exists a; rewrite Ea; split; [left | done]).
    rewrite Ea in Hin. destruct (numbers (a :: alts)); [by apply not_elem_of_nil in Hin | done]. }
  unfold UsbProtocalCreatInterfaceObj. rewrite Hn, Nat2Z.id. apply runs_bind.
  pose proof (config_interfaces t Ht) as Hmax.
  eapply runs_mono; [apply (create_interfaces_ok c l p slots [] _ [x] None h1 Hgr Hf1 Hi Hn)|];
    [cbn; lia | exact Hgood | by left|].
  intros ret h2 (new & -> & [Hrest Hg] & Hf2 & Ho). cbn [ram h1] in Hg.
  apply runs_bind, runs_on_ram; [auto with later|].
  eapply UsbRawFreeConfigDescriptor_ok; [eapply holds_made; [exact Hh | by apply (la_wf _ _ Hl1) | exact Hg]|].
  intros r3 Hlive Hl3. apply (Hkont new); [|by apply filling_ram|].
  - split; [by destruct Hrest|]. destruct Hg as [_ G2 G3 G4]. destruct Hl1 as [L1 _]. destruct Hl3 as [L3 _]. cbn.
    split; [done | cbn in *; lia | done|]. eapply Forall_impl; [exact G4|]. cbn in *. lia.
  - pose proof (filed_view_slots t c slots Hview Hshape) as <-. by rewrite map_map.
Qed.

(** The pool of a device in the configuration [t] that was just opened. *)
Record opened (d : nat) (bus addr : Z) (t : config_tree) (q : UsbInterfacePool) : Prop := Opened {
  op_fields : exists b id, q = mkPool b id true (interfaceList q) 0 bus addr 0 (Some d);
  op_objects : objects_for (pool_objectId q) (mean_device (mean_config t)) (interfaceList q);
}.

Lemma UsbIfCreatInterfacePool_ok bus addr h :
  ram_granted -> host_ok h ->
  runs (UsbIfCreatInterfacePool bus addr) h (fun '(ret, p) h' => exists b id,
    ret = HDF_SUCCESS /\ p = Some b /\ made [b] h h' /\
    filling (ifacePoolList h) (mkPool b id false [] 0 bus addr 0 None) [] h').
Proof.
  intros Hgr Hok. apply runs_bind, runs_take; [apply pz_pool | done|]. intros b h1 Hm E1.
  apply runs_bind, runs_put. set (h2 := set_pool_idNum _ h1). apply runs_bind, runs_get.
  apply runs_bind, runs_put. apply runs_ret. exists b, (pool_idNum h2). split; [done|]. split; [done|].
  match goal with |- made _ _ ?x /\ _ => set (h3 := x) end.
  assert (made [b] h h3) as Hm3 by (destruct Hm as [[] ?]; by split). split; [done|].
  apply filling_first; [done | done|]. unfold h3, h2. cbn. by rewrite E1.
Qed.

Lemma filling_same l p ifs h h' :
  filling l p ifs h -> ram h' = ram h -> ifacePoolList h' = ifacePoolList h -> filling l p ifs h'.
Proof.
  intros [[H1 H2 H3] E] Er Ep. split; [|by rewrite Ep].
  by split; [rewrite Er | unfold host_blocks; rewrite Ep | unfold host_blocks; rewrite Er, Ep].
Qed.

(** What follows once the active configuration [v] is known. *)
Definition parse_tail (fuel d p : nat) (v : Z) : Prog (Host K) Z :=
  k ← gets_host kernel;
  '(ret, config) ← on_ram (RawGetConfigDescriptor (Some (getConfigDescriptor d k)) fuel (bNumConfigurations d k) (u8 v));
  ret ← (if negb (ret =? HDF_SUCCESS) then mret ret
         else match config with Some (_, c) => UsbProtocalCreatInterfaceObj c p | None => crash end);
  on_ram (UsbRawFreeConfigDescriptor config);;
  if ret =? HDF_SUCCESS then mret ret else UsbIfDestroyInterfaceObj p;; mret ret.

(** The pool with its control interface. *)
Lemma parse_start fuel d bus addr v h :
  ram_granted -> host_ok h -> handle_open d (kernel h) = true -> getConfiguration d (kernel h) = (HDF_SUCCESS, v) ->
  exists b id x h', UsbProtocalParseDescriptor fuel d bus addr h = parse_tail fuel d b v h' /\
    filling (ifacePoolList h) (mkPool b id true [] 0 bus addr 0 (Some d)) [x] h' /\ objects_for id [control_object] [x] /\
    grown (b :: sdk_blocks x) (ram h) (ram h') /\ kernel h' = kernel h /\ ifaceHandles h' = ifaceHandles h /\
    claimedInterfaces h' = claimedInterfaces h /\ privateObject h' = <[d := b]> (privateObject h).
Proof.
  intros Hgr Hok Hopen Hconf. unfold UsbProtocalParseDescriptor.
  pose proof (UsbIfCreatInterfacePool_ok bus addr h Hgr Hok) as H.
  apply runs_inv in H as ([ret p0] & h1 & E1 & b & id & -> & -> & [R1 Hm1] & Hf1). rewrite (after_done _ _ _ _ _ E1).
  set (p1 := mkPool b id false [] 0 bus addr 0 None) in *.
  pose proof (filling_device _ _ true (Some d) _ Hf1 eq_refl) as Hf2. set (p := set_device true (Some d) p1) in *.
  set (h2 := set_ifacePoolList _ h1) in *.
  assert (upd_pool b (set_device true (Some d)) h1 = Done (tt, h2)) as E2.
  { assert (runs (upd_pool (pool_block p1) (set_device true (Some d))) h1 (fun _ h' => h' = h2)) as H.
    { by eapply runs_upd_pool. }
    apply runs_inv in H as ([] & h' & E2 & ->). exact E2. }
  rewrite (after_done _ _ _ _ _ E2). assert (kernel h2 = kernel h) as Ek by by destruct R1.
  assert (live_handle d h2 = Done (tt, h2)) as E3.
  { unfold live_handle. erewrite after_done by done. by rewrite Ek, Hopen. }
  rewrite (after_done _ _ _ _ _ E3). erewrite after_done by done. set (h3 := set_privateObject _ h2).
  pose proof (filling_same _ _ _ _ h3 Hf2 eq_refl eq_refl) as Hf3.
  pose proof (CreateCtrPipe_ok _ p h3 Hgr Hf3) as H.
  apply runs_inv in H as (ret & h4 & E4 & x & -> & [R4 Hm4] & Hf4 & Hx). change (pool_block p) with b in E4.
  rewrite (after_done _ _ _ _ _ E4), Z.eqb_refl. cbn [negb].
  assert (kernel h4 = kernel h) as Ek4 by (rewrite (rs_kernel _ _ R4); exact Ek).
  assert (RawGetConfiguration d h4 = Done ((HDF_SUCCESS, v), h4)) as E5.
  { unfold RawGetConfiguration. assert (live_handle d h4 = Done (tt, h4)) as E5.
    { unfold live_handle. erewrite after_done by done. by rewrite Ek4, Hopen. }
    rewrite (after_done _ _ _ _ _ E5). unfold gets_host. by rewrite Ek4, Hconf. }
  rewrite (after_done _ _ _ _ _ E5), Z.eqb_refl. cbn [negb]. exists b, id, x, h4. split; [done|]. split; [exact Hf4|].
  split; [exact Hx|]. split; [exact (grown_trans _ _ _ _ _ Hm1 Hm4)|]. split; [done|].
  destruct R1 as [A1 B0 B1 C1], R4 as [A4 D4 B4 C4]. rewrite A4, B4, D4. unfold h3, h2. cbn. by rewrite A1, B1, B0.
Qed.

Lemma UsbProtocalParseDescriptor_ok fuel d t bus addr h :
  ram_granted -> host_ok h -> usable d t (kernel h) -> (length (config_bytes t) < fuel)%nat ->
  runs (UsbProtocalParseDescriptor fuel d bus addr) h (fun ret h' => exists q,
    ret = HDF_SUCCESS /\ ifacePoolList h' = ifacePoolList h ++ [q] /\ opened d bus addr t q /\ host_ok h' /\
    grown (pool_blocks q) (ram h) (ram h') /\ kernel h' = kernel h /\ ifaceHandles h' = ifaceHandles h /\
    claimedInterfaces h' = claimedInterfaces h /\ privateObject h' = <[d := pool_block q]> (privateObject h)).
Proof.
  intros Hgr Hok [Hopen (v & Hconf & Hv & Hvn & Hserves) Ht Htot Hu8 Hne Hbusy] Hfuel.
  destruct (parse_start fuel d bus addr v h Hgr Hok Hopen Hconf) as (b & id & x & h4 & E & Hf4 & Hx & Hg4 & Ek4 & A4 & B4 & C4).
  set (p := mkPool b id true [] 0 bus addr 0 (Some d)) in *. unfold runs. rewrite E. unfold parse_tail.
  apply runs_bind, runs_get. change b with (pool_block p).
  eapply (config_objects fuel _ p x t d v); try (rewrite ?Ek4; done).
  intros new h5 [R5 Hm5] Hf5 Ho. rewrite Z.eqb_refl. apply runs_ret.
  exists (set_interfaceList (x :: new) p). split; [done|]. split; [exact (wi_pools _ _ _ _ _ Hf5)|].
  split; [split; [by exists b, id | exact (objects_for_app _ _ _ _ _ Hx Ho)]|].
  split; [exact (wi_ok _ _ _ _ _ Hf5)|]. split; [exact (grown_trans _ _ _ _ _ Hg4 Hm5)|].
  destruct R5 as [A5 D5 B5 C5]. by rewrite A5, B5, C5, D5.
Qed.
End open.
