(* ===== verification/UsbPoolRules.v ===== *)
(** * UsbPoolRules: the operations on the pool of one device

    Proof rules for a session with a single pool: following its pointers,
    changing it, finding an interface by its number and setting, and what
    destroying it gives back. *)
From S2P Require Import Prelude Hdf Arrays UsbDesc UsbDescSpec UsbDescFacts UsbDescConfig UsbDescRam UsbPool UsbPoolFacts UsbPoolOpen.
Open Scope Z_scope.

(** Only the pools were changed. *)
Record quiet {K} (h h' : Host K) : Prop := Quiet {
  qu_rest : rest_same h h';
  qu_ram : ram h' = ram h;
}.
#[global] Instance quiet_refl {K} : Reflexive (@quiet K).
Proof. by split. Qed.
#[global] Instance quiet_trans {K} : Transitive (@quiet K).
Proof. intros h1 h2 h3 [] []. split; [by etrans | congruence]. Qed.
Lemma quiet_pools {K} v (h : Host K) : quiet h (set_ifacePoolList v h).
Proof. by split. Qed.
#[export] Hint Resolve quiet_pools : core.

(** [q] is the pool of the session. *)
Record sole {K} (q : UsbInterfacePool) (h : Host K) : Prop := Sole {
  so_ok : host_ok h;
  so_pools : ifacePoolList h = [q];
}.

(** An interface object is known by its number and setting. *)
Definition object_key (x : UsbSdkInterface) : Z * Z := (interfaceIndex (info x), altSettingId x).
Definition view_key (v : object_view) : Z * Z := (interfaceIndex (ov_info v), ov_alt v).

Lemma find_key (f : UsbSdkInterface -> bool) k l1 x l2 :
  NoDup (map object_key (l1 ++ x :: l2)) -> object_key x = k ->
  (forall y, y ∈ l1 ++ x :: l2 -> f y = bool_decide (object_key y = k)) -> List.find f (l1 ++ x :: l2) = Some x.
Proof.
  intros Hn <- Hf. induction l1 as [|y l1 IH]; cbn.
  - rewrite Hf by left. by rewrite bool_decide_true.
  - cbn in Hn. apply NoDup_cons in Hn as [Hy Hn]. rewrite Hf by left. rewrite bool_decide_false.
    + apply IH; [done|]. intros z Hz. apply Hf. by right.
    + intros E. apply Hy. rewrite E, map_app. apply elem_of_app. right. left.
Qed.

Lemma find_misses {A} (f : A -> bool) l : (forall y, y ∈ l -> f y = false) -> List.find f l = None.
Proof. induction l as [|y l IH]; intros Hf; [done|]. cbn. rewrite Hf by left. apply IH. intros z Hz. apply Hf. by right. Qed.

Section rules.
Context {HS : HdfStatus} {US : UsbStatus} {UL : UsbStatusLaws} {RA : RamAlloc} {SZ : UsbSizes} {PZ : PoolSizes} {PL : PoolSizesLaws}
  {K : Type} {HA : HostAdapter K}.
Implicit Types (h : Host K) (q : UsbInterfacePool).

Lemma sole_within q h : sole q h -> within [] q (interfaceList q) [] h.
Proof. intros [H1 H2]. split; [done|]. by rewrite set_interfaceList_same. Qed.

Lemma sole_same q q' h h' :
  sole q h -> ifacePoolList h' = [q'] -> ram h' = ram h -> pool_blocks q' = pool_blocks q -> sole q' h'.
Proof.
  intros [[H1 H2 H3] E] E' Er Eb. split; [|done].
  assert (host_blocks h' = host_blocks h) as Ehb by (unfold host_blocks; rewrite E, E'; cbn -[pool_blocks]; by rewrite Eb).
  split; by rewrite ?Ehb, ?Er.
Qed.

Lemma sole_pool q h (Q : UsbInterfacePool -> Host K -> Prop) : sole q h -> Q q h -> runs (pool (pool_block q)) h Q.
Proof.
  intros Hs HQ. eapply runs_pool; [by apply sole_within|]. by rewrite set_interfaceList_same.
Qed.

Lemma sole_upd_pool q f h (Q : unit -> Host K -> Prop) :
  sole q h -> pool_blocks (f q) = pool_blocks q ->
  (forall h', quiet h h' -> sole (f q) h' -> Q tt h') -> runs (upd_pool (pool_block q) f) h Q.
Proof.
  intros Hs Hb HQ. eapply runs_upd_pool; [by apply sole_within|]. rewrite set_interfaceList_same.
  apply HQ; [done|]. by eapply (sole_same q).
Qed.

Lemma sole_interface q l1 x l2 h (Q : UsbSdkInterface -> Host K -> Prop) :
  sole q h -> interfaceList q = l1 ++ x :: l2 -> Q x h -> runs (sdk_interface (if_block x)) h Q.
Proof. intros Hs%sole_within E HQ. rewrite E in Hs. by eapply runs_interface. Qed.

Lemma sole_upd_interface q l1 x l2 f h (Q : unit -> Host K -> Prop) :
  sole q h -> interfaceList q = l1 ++ x :: l2 -> sdk_blocks (f x) = sdk_blocks x ->
  (forall h', quiet h h' -> sole (set_interfaceList (l1 ++ f x :: l2) q) h' -> Q tt h') ->
  runs (upd_interface (if_block x) f) h Q.
Proof.
  intros Hs E Hb HQ. pose proof (sole_within _ _ Hs) as Hw. rewrite E in Hw. eapply runs_upd_interface; [exact Hw|].
  apply HQ; [done|]. eapply (sole_same q); [done.. |]. unfold pool_blocks. cbn [interfaceList set_interfaceList pool_block].
  rewrite E, !map_app, !concat_app. cbn [map concat]. by rewrite Hb.
Qed.

(** ** Finding *)
Lemma sole_find q qy (flag : bool) h (Q : option nat -> Host K -> Prop) :
  sole q h -> pool_matches qy q = true ->
  (forall h', quiet h h' -> sole (if flag then set_pool_refCount (pool_refCount q + 1) q else q) h' ->
     Q (Some (pool_block q)) h') ->
  runs (IfFindInterfacePool qy flag) h Q.
Proof.
  intros Hs Hm HQ. apply runs_bind, runs_get. rewrite (so_pools _ _ Hs). cbn. rewrite Hm. apply runs_bind.
  destruct flag.
  - eapply sole_upd_pool; [exact Hs | done|]. intros h' Hq Hs'. by apply runs_ret, HQ.
  - by apply runs_ret, runs_ret, HQ.
Qed.

(** The object with the number [i] and the setting [a]. *)
Record object_at (i a : Z) q (l1 : list UsbSdkInterface) (x : UsbSdkInterface) (l2 : list UsbSdkInterface) : Prop := ObjectAt {
  oa_split : interfaceList q = l1 ++ x :: l2;
  oa_key : object_key x = (i, a);
  oa_distinct : NoDup (map object_key (interfaceList q));
  oa_status : status x = USB_INTERFACE_STATUS_NORMAL;
}.

Lemma object_at_find i a qy q l1 x l2 :
  object_at i a q l1 x l2 -> (forall y, y ∈ interfaceList q -> interface_matches qy y = bool_decide (object_key y = (i, a))) ->
  List.find (interface_matches qy) (interfaceList q) = Some x.
Proof. intros [E Hk Hd _] Hf. rewrite E in *. by eapply find_key. Qed.

Lemma object_at_set i a q l1 x l2 f :
  object_at i a q l1 x l2 -> object_key (f x) = object_key x -> status (f x) = status x ->
  object_at i a (set_interfaceList (l1 ++ f x :: l2) q) l1 (f x) l2.
Proof.
  intros [E Hk Hd Hst] Hf Hs'. split; [done | congruence | | congruence]. cbn.
  rewrite E in Hd. rewrite map_app in *. cbn in *. by rewrite Hf.
Qed.

Lemma sole_find_object i a qy (sf : bool) q l1 x l2 h (Q : option nat * bool -> Host K -> Prop) :
  sole q h -> object_at i a q l1 x l2 ->
  (forall y, y ∈ interfaceList q -> interface_matches qy y = bool_decide (object_key y = (i, a))) ->
  Q (Some (if_block x), false) h -> runs (IfFindInterfaceObj (pool_block q) qy false sf) h Q.
Proof.
  intros Hs Ho Hf HQ. eapply runs_bind, sole_pool; [exact Hs|]. rewrite (object_at_find _ _ _ _ _ _ _ Ho Hf).
  apply runs_bind, runs_ret. rewrite (oa_status _ _ _ _ _ _ Ho), andb_false_r. by apply runs_ret.
Qed.

(** With a reference counted. *)
Lemma sole_claim_object i a qy q l1 x l2 h (Q : option nat * bool -> Host K -> Prop) :
  sole q h -> object_at i a q l1 x l2 -> query_index qy = i ->
  (forall y, y ∈ interfaceList q -> interface_matches qy y = bool_decide (object_key y = (i, a))) ->
  (i = USB_CTRL_INTERFACE_ID -> Q (Some (if_block x), false) h) ->
  (i <> USB_CTRL_INTERFACE_ID ->
   forall h', quiet h h' -> sole (set_interfaceList (l1 ++ set_refCount (refCount x + 1) x :: l2) q) h' ->
     Q (Some (if_block x), refCount x =? 0) h') ->
  runs (IfFindInterfaceObj (pool_block q) qy true true) h Q.
Proof.
  intros Hs Ho Hi Hf HQ1 HQ2. eapply runs_bind, sole_pool; [exact Hs|]. rewrite (object_at_find _ _ _ _ _ _ _ Ho Hf).
  pose proof Ho as [E _ _ Hst]. unfold IfInterfaceRefCount. rewrite Hi, Hst. cbn [andb].
  destruct (Z.eqb_spec i USB_CTRL_INTERFACE_ID) as [Hc|Hc]; cbn [negb].
  - apply runs_bind, runs_ret. by apply runs_ret, HQ1.
  - apply runs_bind. eapply runs_bind, sole_interface; [exact Hs | exact E|].
    eapply runs_bind, (sole_upd_interface q l1 x l2); [exact Hs | exact E | done|].
    intros h' Hq Hs'. apply runs_ret. by apply runs_ret, HQ2.
Qed.

(** No object with the number. *)
Lemma sole_find_none qy (rf sf : bool) q h (Q : option nat * bool -> Host K -> Prop) :
  sole q h -> (forall y, y ∈ interfaceList q -> interface_matches qy y = false) ->
  Q (None, false) h -> runs (IfFindInterfaceObj (pool_block q) qy rf sf) h Q.
Proof. intros Hs Hf HQ. eapply runs_bind, sole_pool; [exact Hs|]. rewrite find_misses by done. by apply runs_ret. Qed.

(** ** Destroying *)

(** Memory was given back and the pools were changed. *)
Record gave h h' : Prop := Gave {
  ga_rest : rest_same h h';
  ga_later : later (ram h) (ram h');
}.
#[local] Instance gave_refl : Reflexive gave.
Proof. by split. Qed.
#[local] Instance gave_trans : Transitive gave.
Proof. intros h1 h2 h3 [] []. split; by etrans. Qed.
Lemma quiet_gave h h' : quiet h h' -> gave h h'.
Proof. intros [H E]. split; [done | by rewrite E]. Qed.

Lemma gives_free base b l h (Q : unit -> Host K -> Prop) :
  owns base (b :: l) (ram h) ->
  (forall h', gave h h' -> ifacePoolList h' = ifacePoolList h -> owns base l (ram h') -> Q tt h') ->
  runs (on_ram (RawUsbMemFree b)) h Q.
Proof.
  intros Ho HQ. apply runs_on_ram; [apply later_free|]. eapply owns_free; [exact Ho|]. intros r' Ho' Hl. by apply HQ.
Qed.

Lemma sole_gave q h h' : sole q h -> gave h h' -> ifacePoolList h' = ifacePoolList h -> sole q h'.
Proof.
  intros [[H1 H2 H3] E] [_ [L1 L2]] Ep. split; [|by rewrite Ep].
  split; [by apply L2 | by unfold host_blocks; rewrite Ep|]. unfold host_blocks. rewrite Ep.
  eapply Forall_impl; [exact H3|]. cbn. lia.
Qed.

Lemma free_pipes_gives base ps l h :
  owns base (map pipe_block ps ++ l) (ram h) ->
  runs (free_pipes ps) h (fun _ h' => gave h h' /\ ifacePoolList h' = ifacePoolList h /\ owns base l (ram h')).
Proof.
  revert h. induction ps as [|p ps IH]; intros h Ho; [by apply runs_ret|]. cbn in *. apply runs_bind.
  eapply gives_free; [exact Ho|]. intros h1 Hg1 E1 Ho1. eapply runs_mono; [by apply IH|].
  intros ? h2 (Hg2 & E2 & Ho2). split; [by etrans|]. split; [congruence | done].
Qed.

Lemma IfFreeInterfaceObj_gives base x l h :
  owns base (sdk_blocks x ++ l) (ram h) ->
  runs (IfFreeInterfaceObj x) h (fun ret h' =>
    ret = HDF_SUCCESS /\ gave h h' /\ ifacePoolList h' = ifacePoolList h /\ owns base l (ram h')).
Proof.
  intros Ho. unfold sdk_blocks in Ho. apply (owns_perm _ _ (map pipe_block (pipeList x) ++ if_block x :: l)) in Ho;
    [|cbn; apply Permutation_middle]. unfold IfFreeInterfaceObj. apply runs_bind.
  assert (runs (IfDestroyPipeObj x) h (fun ret h' => ret = HDF_SUCCESS /\ gave h h' /\ ifacePoolList h' = ifacePoolList h /\
            owns base (if_block x :: l) (ram h'))) as Hp.
  { unfold IfDestroyPipeObj. destruct (pipeList x) as [|p ps] eqn:E; [by apply runs_ret|]. rewrite <- E in *. apply runs_bind.
    eapply runs_mono; [by apply free_pipes_gives|]. intros ? h1 Hh1. by apply runs_ret. }
  eapply runs_mono; [exact Hp|]. intros ret h1 (-> & Hg1 & E1 & Ho1). rewrite Z.eqb_refl. cbn [negb]. apply runs_bind.
  eapply gives_free; [exact Ho1|]. intros h2 Hg2 E2 Ho2. apply runs_ret.
  split; [done|]. split; [by etrans|]. split; [congruence | done].
Qed.

Lemma pool_blocks_tail q x l h :
  sole q h -> interfaceList q = x :: l -> sole (set_interfaceList l q) (set_ifacePoolList [set_interfaceList l q] h).
Proof.
  intros [[H1 H2 H3] E] Eq. split; [|done]. unfold host_blocks in *. rewrite E in *. cbn in *. rewrite Eq in *. cbn in *.
  rewrite !app_nil_r in *. assert (pool_block q :: concat (map sdk_blocks l) ⊆+
    pool_block q :: if_block x :: map pipe_block (pipeList x) ++ concat (map sdk_blocks l)) as Hsub.
  { apply submseteq_skip, submseteq_cons, submseteq_inserts_l. done. }
  unfold sdk_blocks at 1 in H2. unfold sdk_blocks at 1 in H3. cbn in *.
  split; [done | |]; cbn; rewrite app_nil_r.
  - apply submseteq_Permutation in Hsub as (k & Hk). rewrite Hk in H2. apply NoDup_app in H2 as [H2 _]. exact H2.
  - apply submseteq_Permutation in Hsub as (k & Hk). rewrite Hk in H3. apply Forall_app in H3 as [H3 _]. exact H3.
Qed.

Lemma free_interfaces_gives base xs q l h :
  sole q h -> interfaceList q = xs -> owns base (concat (map sdk_blocks xs) ++ l) (ram h) ->
  runs (free_interfaces xs (pool_block q)) h (fun ret h' =>
    ret = HDF_SUCCESS /\ gave h h' /\ sole (set_interfaceList [] q) h' /\ owns base l (ram h')).
Proof.
  revert q h. induction xs as [|x xs IH]; intros q h Hs E Ho.
  { apply runs_ret. split; [done|]. split; [done|]. rewrite <- E, set_interfaceList_same. done. }
  cbn [free_interfaces map concat] in *. rewrite <- app_assoc in Ho. apply runs_bind.
  eapply runs_upd_pool; [by apply sole_within|]. rewrite set_interfaceList_same. cbn [app].
  pose proof (pool_blocks_tail _ _ _ _ Hs E) as Hs1. set (h1 := set_ifacePoolList _ h) in *.
  apply runs_bind. eapply runs_mono; [exact (IfFreeInterfaceObj_gives base x _ h1 Ho)|].
  intros ret h2 (-> & Hg2 & E2 & Ho2). rewrite Z.eqb_refl. cbn [negb].
  change (pool_block q) with (pool_block (set_interfaceList xs q)).
  eapply runs_mono; [apply (IH _ h2); [by eapply sole_gave | done | done]|].
  intros ret h3 (-> & Hg3 & Hs3 & Ho3). split; [done|]. split; [|done].
  etrans; [|exact Hg3]. etrans; [|exact Hg2]. by apply quiet_gave.
Qed.

(** The pool and all that is in it. *)
Lemma IfDestroyInterfacePool_gives base q l h :
  sole q h -> pool_session q = true -> owns base (pool_blocks q ++ l) (ram h) ->
  runs (IfDestroyInterfacePool (pool_block q)) h (fun ret h' =>
    ret = HDF_SUCCESS /\ gave h h' /\ ifacePoolList h' = [] /\ owns base l (ram h')).
Proof.
  intros Hs Hsess Ho. unfold pool_blocks in Ho.
  apply (owns_perm _ _ (concat (map sdk_blocks (interfaceList q)) ++ pool_block q :: l)) in Ho; [|cbn; apply Permutation_middle].
  eapply runs_bind, sole_pool; [exact Hs|]. rewrite Hsess. cbn [negb]. apply runs_bind, runs_get.
  rewrite (so_pools _ _ Hs). cbn [List.find]. rewrite Z.eqb_refl. unfold IfFreeInterfacePool, UsbIfDestroyInterfaceObj.
  apply runs_bind. eapply runs_bind, sole_pool; [exact Hs|].
  eapply runs_mono; [exact (free_interfaces_gives base _ q _ h Hs eq_refl Ho)|].
  intros ret h1 (-> & Hg1 & Hs1 & Ho1). rewrite Z.eqb_refl. cbn [negb]. apply runs_bind, runs_put.
  rewrite (so_pools _ _ Hs1), filter_cons, decide_False by (intros H; by apply H). apply runs_bind.
  eapply gives_free; [exact Ho1|]. intros h2 Hg2 E2 Ho2. apply runs_ret.
  split; [done|]. split; [|done]. etrans; [exact Hg1|]. etrans; [|exact Hg2]. by apply quiet_gave.
Qed.
End rules.
