(* ===== verification/UsbPoolUse.v ===== *)
(** * UsbPoolUse: what a client of the pool may rely on

    The use of one device as a client sees it: which interfaces are claimed and
    opened.  [use_step] says what each request answers; [serve] makes the calls
    of the code; [represents] relates the two. *)
From S2P Require Import Prelude Hdf Arrays UsbDesc UsbDescSpec UsbDescFacts UsbDescConfig UsbDescRam UsbPool UsbPoolFacts UsbPoolOpen UsbPoolRules.
Open Scope Z_scope.

(** ** The abstract use of a device *)
Inductive request :=
| Claim (index : Z)
| Release (index : Z)
| Open (index : Z)
| Close (index : Z)
| PipeInfo (index alt id : Z).
Inductive answer :=
| Granted
| Refused
| Status (ret : Z)
| Info (ret : Z) (n : option UsbPipeInfo).

(** The interfaces claimed and opened, each as often as it is, and the references
    to the device that nobody can give back. *)
Record use := Use { claims : list Z; opens : list Z; lost : nat }.
Definition unused_device : use := Use [] [] 0.
(** Whether the device is open. *)
Definition in_use (s : use) : bool := (0 <? length (claims s) + lost s)%nat.

Fixpoint drop_one (i : Z) (l : list Z) : list Z :=
  match l with [] => [] | j :: l => if j =? i then l else j :: drop_one i l end.
Definition count (i : Z) (l : list Z) : nat := length (filter (fun j => j = i) l).

Definition object_of (t : config_tree) (k : Z * Z) : option object_view :=
  List.find (fun v => bool_decide (view_key v = k)) (mean_device (mean_config t)).
Definition pipe_of (t : config_tree) (k : Z * Z) (id : Z) : option UsbPipeInfo :=
  match object_of t k with Some v => List.find (fun n => pipeId n =? id) (ov_pipes v) | None => None end.

(** The numbers the kernel can claim, and the control interface. *)
Definition claimable (i : Z) : bool := (i =? USB_CTRL_INTERFACE_ID) || ((0 <=? i) && (i <? USB_MAXINTERFACES)).

(** The answer to a request and the use after it; no answer to a request that
    breaks the rules: an interface that is used is not released for the last time
    while it is open. *)
Definition use_step {HS : HdfStatus} {US : UsbStatus} (t : config_tree) (r : request) (s : use) : option (answer * use) :=
  match r with
  | Claim i =>
      Some (match object_of t (i, USB_DEFAULT_ALTSETTING) with
            | Some _ => if claimable i then (Granted, Use (i :: claims s) (opens s) (lost s)) else (Refused, s)
            | None => (Refused, if in_use s then Use (claims s) (opens s) (S (lost s)) else s)
            end)
  | Release i =>
      if bool_decide (i ∈ claims s) && (bool_decide (i ∉ opens s) || (2 <=? count i (claims s))%nat)
      then Some (Status HDF_SUCCESS, Use (drop_one i (claims s)) (opens s) (lost s)) else None
  | Open i => if bool_decide (i ∈ claims s) then Some (Granted, Use (claims s) (i :: opens s) (lost s)) else None
  | Close i => if bool_decide (i ∈ opens s) then Some (Status HDF_SUCCESS, Use (claims s) (drop_one i (opens s)) (lost s)) else None
  | PipeInfo i a id =>
      if bool_decide (i ∈ opens s) then
        Some (match pipe_of t (i, a) id with Some n => Info HDF_SUCCESS (Some n) | None => Info HDF_ERR_BAD_FD None end, s)
      else None
  end.
Fixpoint use_steps {HS : HdfStatus} {US : UsbStatus} (t : config_tree) (rs : list request) (s : use) : option (list answer * use) :=
  match rs with
  | [] => Some ([], s)
  | r :: rs =>
      match use_step t r s with
      | None => None
      | Some (a, s) => match use_steps t rs s with None => None | Some (l, s) => Some (a :: l, s) end
      end
  end.

(** Nobody gives back a lost reference. *)
Lemma use_steps_lost {HS : HdfStatus} {US : UsbStatus} t rs s l s' : use_steps t rs s = Some (l, s') -> (lost s <= lost s')%nat.
Proof.
  revert s l. induction rs as [|r rs IH]; intros s l; cbn [use_steps]; [by intros [= _ <-]|].
  destruct (use_step t r s) as [[a s1]|] eqn:E1; [|done]. destruct (use_steps t rs s1) as [[l1 s2]|] eqn:E2; [|done].
  intros [= _ <-]. apply IH in E2. enough (lost s <= lost s1)%nat by lia. clear E2. revert E1.
  destruct r as [i|i|i|i|i a' id]; cbn [use_step]; [|by repeat case_match; intros [= _ <-]..].
  intros [= E]. revert E. destruct (object_of t _), (claimable i), (in_use s); intros [= _ <-]; cbn; lia.
Qed.

Lemma use_steps_app {HS : HdfStatus} {US : UsbStatus} t rs1 rs2 s1 s2 s3 l1 l2 :
  use_steps t rs1 s1 = Some (l1, s2) -> use_steps t rs2 s2 = Some (l2, s3) -> use_steps t (rs1 ++ rs2) s1 = Some (l1 ++ l2, s3).
Proof.
  revert s1 l1. induction rs1 as [|r rs1 IH]; intros s1 l1; cbn [use_steps app]; [by intros [= <- <-]|].
  destruct (use_step t r s1) as [[a s]|]; [|done]. destruct (use_steps t rs1 s) as [[l s']|] eqn:E; [|done].
  intros [= <- <-] H2. by rewrite (IH _ _ E H2).
Qed.

(** *** Lists of uses *)
Lemma count_head i j l : count i (j :: l) = ((if decide (j = i) then 1 else 0) + count i l)%nat.
Proof. unfold count. rewrite filter_cons. by destruct (decide (j = i)). Qed.
Lemma count_drop i j l : i ∈ l -> count j l = ((if decide (j = i) then 1 else 0) + count j (drop_one i l))%nat.
Proof.
  induction l as [|x l IH]; [by intros ?%not_elem_of_nil|]. intros [->|H]%elem_of_cons; cbn [drop_one].
  - rewrite Z.eqb_refl, count_head. by destruct (decide (x = j)), (decide (j = x)).
  - destruct (Z.eqb_spec x i) as [->|Hx]; rewrite !count_head.
    + by destruct (decide (i = j)), (decide (j = i)).
    + rewrite IH by done. lia.
Qed.
Lemma count_elem i l : i ∈ l <-> (0 < count i l)%nat.
Proof.
  induction l as [|j l IH]; [split; [by intros ?%not_elem_of_nil | cbn; lia]|].
  rewrite count_head, elem_of_cons, IH. destruct (decide (j = i)); [intuition lia|]. split; [intros [->|]; [done | lia] | right; lia].
Qed.
Lemma count_none i l : i ∉ l -> count i l = 0%nat.
Proof. rewrite count_elem. lia. Qed.
Lemma length_drop i l : i ∈ l -> length l = S (length (drop_one i l)).
Proof.
  induction l as [|x l IH]; [by intros ?%not_elem_of_nil|]. intros [->|H]%elem_of_cons; cbn [drop_one].
  - by rewrite Z.eqb_refl.
  - destruct (x =? i); [done|]. cbn. by rewrite <- IH.
Qed.
Lemma elem_of_drop i j l : j ∈ drop_one i l -> j ∈ l.
Proof.
  induction l as [|x l IH]; cbn; [done|]. destruct (x =? i); [by right|]. intros [->|H]%elem_of_cons; [left | right; auto].
Qed.
Lemma elem_of_drop_other i j l : j <> i -> j ∈ l -> j ∈ drop_one i l.
Proof. intros Hj Hl. rewrite count_elem in *. destruct (decide (i ∈ l)) as [Hi|Hi].
  - rewrite (count_drop i j l Hi), decide_False in Hl by done. done.
  - assert (drop_one i l = l) as ->; [|done]. clear -Hi. induction l as [|x l IH]; [done|]. cbn.
    rewrite not_elem_of_cons in Hi. destruct Hi as [Hx Hi]. rewrite (proj2 (Z.eqb_neq _ _)) by congruence. by rewrite IH.
Qed.

(** ** The calls a client makes *)

(** The pointers to the interfaces it claimed and the handles it opened. *)
Record client := Client { ptrs : list (Z * nat); handles : list (Z * nat) }.
Fixpoint take_one (i : Z) (l : list (Z * nat)) : option (nat * list (Z * nat)) :=
  match l with
  | [] => None
  | (j, b) :: l => if j =? i then Some (b, l) else match take_one i l with Some (c, l) => Some (c, (j, b) :: l) | None => None end
  end.

Lemma take_one_elem i l : i ∈ l.*1 -> exists b l', take_one i l = Some (b, l') /\ l ≡ₚ (i, b) :: l' /\ l'.*1 = drop_one i l.*1.
Proof.
  induction l as [|[j c] l IH]; [by intros ?%not_elem_of_nil|]. cbn. destruct (Z.eqb_spec j i) as [->|Hj].
  { intros _. by exists c, l. }
  intros [->|H]%elem_of_cons; [done|]. destruct (IH H) as (b & l' & -> & Hp & E). exists b, ((j, c) :: l').
  split; [done|]. split; [rewrite Hp; apply perm_swap | cbn; by rewrite E].
Qed.

Section serve.
Context {HS : HdfStatus} {US : UsbStatus} {RA : RamAlloc} {SZ : UsbSizes} {PZ : PoolSizes} {K : Type} {HA : HostAdapter K}.
Variables (HDF_DEV_ERR_NO_DEVICE : Z) (fuel : nat) (bus addr : Z).

Definition serve (r : request) (c : client) : Prog (Host K) (answer * client) :=
  match r with
  | Claim i =>
      p ← UsbClaimInterface fuel bus addr i;
      mret (match p with Some p => (Granted, Client ((i, p) :: ptrs c) (handles c)) | None => (Refused, c) end)
  | Release i =>
      match take_one i (ptrs c) with
      | None => mret (Refused, c)
      | Some (p, l) => ret ← UsbReleaseInterface HDF_DEV_ERR_NO_DEVICE p; mret (Status ret, Client l (handles c))
      end
  | Open i =>
      match take_one i (ptrs c) with
      | None => mret (Refused, c)
      | Some (p, _) =>
          b ← UsbOpenInterface p;
          mret (match b with Some b => (Granted, Client (ptrs c) ((i, b) :: handles c)) | None => (Refused, c) end)
      end
  | Close i =>
      match take_one i (handles c) with
      | None => mret (Refused, c)
      | Some (b, l) => ret ← UsbCloseInterface b; mret (Status ret, Client (ptrs c) l)
      end
  | PipeInfo i a id =>
      match take_one i (handles c) with
      | None => mret (Refused, c)
      | Some (b, _) => '(ret, n) ← UsbGetPipeInfo b a id; mret (Info ret n, c)
      end
  end.
Fixpoint serve_all (rs : list request) (c : client) : Prog (Host K) (list answer * client) :=
  match rs with
  | [] => mret ([], c)
  | r :: rs => '(a, c) ← serve r c; '(l, c) ← serve_all rs c; mret (a :: l, c)
  end.
End serve.

(** ** The device

    [plugged k]: the device is there and closed; [running d k]: it is open with
    the handle [d], and everything the client asks of the kernel succeeds. *)
Record device_laws {HS : HdfStatus} {K} {HA : HostAdapter K} (bus addr : Z) (t : config_tree)
    (plugged : K -> Prop) (running : nat -> K -> Prop) : Prop := DeviceLaws {
  dl_open : forall k, plugged k -> exists d k', openDevice bus addr k = (Some d, k') /\ running d k';
  dl_close : forall d k, running d k -> plugged (closeDevice d k);
  dl_usable : forall d k, running d k -> usable d t k;
  dl_claim : forall d n k, running d k -> exists k', claimInterface d n k = (HDF_SUCCESS, k') /\ running d k';
  dl_release : forall d n k, running d k -> exists k', releaseInterface d n k = (HDF_SUCCESS, k') /\ running d k';
  dl_start : forall d p k, running d k -> exists k', UsbIoStart p k = (HDF_SUCCESS, k') /\ running d k';
  dl_stop : forall d p k, running d k -> exists k', UsbIoStop p k = (HDF_SUCCESS, k') /\ running d k';
  dl_select : forall d i a k, running d k -> exists k', setInterfaceAltsetting d i a k = (HDF_SUCCESS, k') /\ running d k';
}.
(** No two objects have the same number and setting. *)
Definition objects_distinct (t : config_tree) : Prop := NoDup (map view_key (mean_device (mean_config t))).

(** ** The relation *)

(** How often the object is referenced: the control interface only when opened. *)
Definition refs (cs os : list Z) (k : Z * Z) : Z :=
  let '(i, a) := k in
  if a =? USB_DEFAULT_ALTSETTING then
    (if i =? USB_CTRL_INTERFACE_ID then 0 else Z.of_nat (count i cs)) + Z.of_nat (count i os)
  else 0.

Lemma refs_claim_other i cs os k : k <> (i, USB_DEFAULT_ALTSETTING) \/ i = USB_CTRL_INTERFACE_ID -> refs (i :: cs) os k = refs cs os k.
Proof.
  destruct k as [j a]. unfold refs. destruct (Z.eqb_spec a USB_DEFAULT_ALTSETTING) as [->|]; [|done].
  destruct (Z.eqb_spec j USB_CTRL_INTERFACE_ID) as [|Hj]; [done|]. intros H. rewrite count_head, decide_False; [done|].
  intros ->. by destruct H.
Qed.
Lemma refs_claim i cs os :
  i <> USB_CTRL_INTERFACE_ID -> refs (i :: cs) os (i, USB_DEFAULT_ALTSETTING) = refs cs os (i, USB_DEFAULT_ALTSETTING) + 1.
Proof. intros Hi. unfold refs. rewrite Z.eqb_refl, (proj2 (Z.eqb_neq _ _)), count_head, decide_True by done. lia. Qed.
Lemma refs_open_other i cs os k : k <> (i, USB_DEFAULT_ALTSETTING) -> refs cs (i :: os) k = refs cs os k.
Proof.
  destruct k as [j a]. unfold refs. destruct (Z.eqb_spec a USB_DEFAULT_ALTSETTING) as [->|]; [|done].
  intros H. rewrite count_head, decide_False; [done|]. intros ->. by destruct H.
Qed.
Lemma refs_open i cs os : refs cs (i :: os) (i, USB_DEFAULT_ALTSETTING) = refs cs os (i, USB_DEFAULT_ALTSETTING) + 1.
Proof. unfold refs. rewrite Z.eqb_refl, count_head, decide_True by done. lia. Qed.
(** Only how often an interface is used counts, not when. *)
Lemma refs_count cs cs' os os' k :
  (forall i, count i cs = count i cs') -> (forall i, count i os = count i os') -> refs cs os k = refs cs' os' k.
Proof. intros H1 H2. destruct k as [i a]. unfold refs. by rewrite H1, H2. Qed.
Lemma count_swap i j l : i ∈ l -> count j l = count j (i :: drop_one i l).
Proof. intros H. rewrite (count_drop i j l H), count_head. by destruct (decide (j = i)), (decide (i = j)). Qed.

Record settled (rf : Z * Z -> Z) (ss : list Z) (pid : Z) (x : UsbSdkInterface) : Prop := Settled {
  st_status : status x = USB_INTERFACE_STATUS_NORMAL;
  st_parent : parentObjectId x = pid;
  st_current : curAltSetting (info x) = USB_DEFAULT_ALTSETTING;
  st_refs : refCount x = rf (object_key x);
  st_session : altSettingId x = USB_DEFAULT_ALTSETTING -> interfaceIndex (info x) ∈ ss -> if_session x = true;
}.

(** The interfaces the kernel has claimed for the handle [d]; nothing for any
    other. *)
Definition masks {K} (d : nat) (m : list Z) (h : Host K) : Prop :=
  forall e n, 0 <= n ->
    Z.testbit (default 0 (claimedInterfaces h !! e)) n = bool_decide (e = d /\ n ∈ m /\ n <> USB_CTRL_INTERFACE_ID).
