(* ===== verification/UsbPoolSteps.v ===== *)
(** * UsbPoolSteps: every call answers as the abstract use does

    The relation between the use of a device and the state of the pool, and each
    call of a client from related states. *)
From S2P Require Import Prelude Hdf Arrays UsbDesc UsbDescSpec UsbDescFacts UsbDescConfig UsbDescRam UsbPool UsbPoolFacts UsbPoolOpen UsbPoolRules UsbPoolUse.
Open Scope Z_scope.

Lemma map_split_elem {A B} (f : A -> B) l y : y ∈ map f l -> exists l1 x l2, l = l1 ++ x :: l2 /\ f x = y.
Proof.
  intros (x & <- & Hx)%list_elem_of_In%in_map_iff. apply list_elem_of_In, list_elem_of_split in Hx as (l1 & l2 & ->). eauto.
Qed.

Lemma view_object_key x : view_key (view_object x) = object_key x.
Proof. done. Qed.

Section steps.
Context {HS : HdfStatus} {HL : HdfStatusLaws} {US : UsbStatus} {UL : UsbStatusLaws} {RA : RamAlloc} {SZ : UsbSizes} {SL : UsbSizesLaws}
  {PZ : PoolSizes} {PL : PoolSizesLaws} {K : Type} {HA : HostAdapter K}.
Context (NO_DEVICE : Z) (fuel : nat) (bus addr : Z) (t : config_tree) (plugged : K -> Prop) (running : nat -> K -> Prop).
Context (DL : device_laws bus addr t plugged running) (Hgr : ram_granted) (Hfuel : (length (config_bytes t) < fuel)%nat)
  (Hdist : objects_distinct t).
Implicit Types (h : Host K) (q : UsbInterfacePool) (x : UsbSdkInterface).

(** The device is open with the handle [d] and the pool [q]; the references and
    sessions of the objects are [rf] and [ss], the kernel has claimed [m]. *)
Record busy (base : gset nat) (c : client) (d : nat) (rf : Z * Z -> Z) (ss m : list Z) q h : Prop := Busy {
  bz_sole : sole q h;
  bz_owns : owns base (pool_blocks q ++ (handles c).*2) (ram h);
  bz_pool : exists b id n io, q = mkPool b id true (interfaceList q) n bus addr io (Some d);
  bz_kernel : running d (kernel h);
  bz_private : privateObject h !! d = Some (pool_block q);
  bz_views : map view_object (interfaceList q) = mean_device (mean_config t);
  bz_objects : Forall (settled rf ss (pool_objectId q)) (interfaceList q);
  bz_mask : masks d m h;
  bz_ptrs : Forall (fun '(i, p) => exists x, x ∈ interfaceList q /\ object_key x = (i, USB_DEFAULT_ALTSETTING) /\ if_block x = p) (ptrs c);
  bz_handles : Forall (fun '(i, b) => ifaceHandles h !! b = Some (mkHandle (Some d) i)) (handles c);
}.
Record idle (base : gset nat) h : Prop := Idle {
  id_pools : ifacePoolList h = [];
  id_wf : ram_wf (ram h);
  id_live : ram_live (ram h) = base;
  id_kernel : plugged (kernel h);
  id_mask : masks 0 [] h;
}.

(** What the uses of a client come to. *)
Record tidy (s : use) (c : client) : Prop := Tidy {
  ti_claims : (ptrs c).*1 = claims s;
  ti_opens : (handles c).*1 = opens s;
  ti_open : Forall (fun i => i ∈ claims s) (opens s);
  ti_claimable : Forall (fun i => claimable i = true) (claims s);
}.
Inductive represents (base : gset nat) (s : use) (c : client) h : Prop :=
| repr_idle : in_use s = false -> tidy s c -> idle base h -> represents base s c h
| repr_busy d q :
    in_use s = true -> tidy s c -> busy base c d (refs (claims s) (opens s)) (claims s) (claims s) q h ->
    pool_refCount q = Z.of_nat (length (claims s) + lost s) -> ioRefCount q = Z.of_nat (length (opens s)) ->
    represents base s c h.

(** ** Changing a busy pool *)
Lemma masks_quiet d m h h' : masks d m h -> claimedInterfaces h' = claimedInterfaces h -> masks d m h'.
Proof. intros H E e n Hn. rewrite E. by apply H. Qed.

Lemma masks_none d e h : masks d [] h -> masks e [] h.
Proof.
  intros H e' n Hn. rewrite H by done. rewrite !bool_decide_false; [done | |]; intros (_ & Hin & _); by apply not_elem_of_nil in Hin.
Qed.

Lemma busy_pool base c d rf ss m q q' h h' :
  busy base c d rf ss m q h -> quiet h h' -> sole q' h' ->
  (exists n io, q' = mkPool (pool_block q) (pool_objectId q) true (interfaceList q) n bus addr io (Some d)) ->
  busy base c d rf ss m q' h'.
Proof.
  intros [H1 H2 H3 H4 H5 H6 H7 H8 H9 H10] [[R1 R2 R3 R4] Er] Hs' (n & io & ->).
  split; cbn; rewrite ?Er, ?R1, ?R2, ?R4; [done | exact H2 | by eexists _, _, _, _ | done..| | done | done].
  by eapply masks_quiet.
Qed.

(** An object, with its references and session. *)
Lemma busy_object base c d rf rf' ss ss' m q l1 x l2 f h h' :
  busy base c d rf ss m q h -> interfaceList q = l1 ++ x :: l2 -> quiet h h' ->
  sole (set_interfaceList (l1 ++ f x :: l2) q) h' -> sdk_blocks (f x) = sdk_blocks x -> view_object (f x) = view_object x ->
  settled rf' ss' (pool_objectId q) (f x) ->
  (forall k, k <> object_key x -> rf' k = rf k) ->
  (forall i, (i, USB_DEFAULT_ALTSETTING) <> object_key x -> i ∈ ss' -> i ∈ ss) ->
  busy base c d rf' ss' m (set_interfaceList (l1 ++ f x :: l2) q) h'.
Proof.
  intros [H1 H2 H3 H4 H5 H6 H7 H8 H9 H10] E [[R1 R2 R3 R4] Er] Hs' Hb Hv Hf Hrf Hss.
  assert (NoDup (map object_key (interfaceList q))) as Hn.
  { unfold objects_distinct in Hdist. rewrite <- H6, map_map in Hdist. exact Hdist. }
  assert (forall y, y ∈ l1 ++ l2 -> object_key y <> object_key x) as Hother.
  { rewrite E, map_app in Hn. cbn in Hn. apply NoDup_app in Hn as (_ & Hn1 & [Hn2 _]%NoDup_cons).
    intros y [Hy|Hy]%elem_of_app Ey.
    - apply (Hn1 (object_key y)); [by apply list_elem_of_In, in_map, list_elem_of_In | rewrite Ey; left].
    - apply Hn2. rewrite <- Ey. by apply list_elem_of_In, in_map, list_elem_of_In. }
  assert (forall y, y ∈ l1 ++ l2 -> settled rf' ss' (pool_objectId q) y) as Hset.
  { intros y Hy. assert (settled rf ss (pool_objectId q) y) as [S1 S2 S3 S4 S5].
    { eapply Forall_forall; [exact H7|]. rewrite E. apply elem_of_app in Hy as [Hy|Hy]; apply elem_of_app; [by left | by right; right]. }
    split; [done..| by rewrite Hrf by auto |]. intros Ha Hi. apply S5; [done|]. apply Hss; [|done].
    specialize (Hother y Hy). unfold object_key in *. by rewrite <- Ha. }
  split; cbn; rewrite ?Er, ?R1, ?R2, ?R4; [done | | | done | done | | | by eapply masks_quiet | | done].
  - unfold pool_blocks in *. cbn [pool_block interfaceList set_interfaceList]. rewrite E in H2.
    rewrite map_app, concat_app in *. cbn [map concat] in *. by rewrite Hb.
  - destruct H3 as (b & id & n & io & ->). by eexists _, _, _, _.
  - rewrite <- H6, E, !map_app. cbn. by rewrite Hv.
  - apply Forall_app. split; [|constructor; [done|]]; apply Forall_forall; intros y Hy; apply Hset, elem_of_app; auto.
  - eapply Forall_impl; [exact H9|]. intros [i p] (y & Hy & Ey & Ep). rewrite E in Hy.
    apply elem_of_app in Hy as [Hy|[->|Hy]%elem_of_cons].
    + exists y. split; [apply elem_of_app; by left | done].
    + exists (f x). split; [apply elem_of_app; right; left|]. split; [by rewrite <- view_object_key, Hv|].
      unfold sdk_blocks in Hb. injection Hb as Hb _. congruence.
    + exists y. split; [apply elem_of_app; right; by right | done].
Qed.

(** The object of a number and setting. *)
Lemma busy_find base c d rf ss m q h i a :
  busy base c d rf ss m q h -> is_Some (object_of t (i, a)) ->
  exists l1 x l2, object_at i a q l1 x l2 /\ object_of t (i, a) = Some (view_object x) /\ settled rf ss (pool_objectId q) x.
Proof.
  intros Hb [v Hv]. pose proof Hv as Hv'. unfold object_of in Hv. apply find_some in Hv as [Hin Hk%bool_decide_eq_true].
  rewrite <- (bz_views _ _ _ _ _ _ _ _ Hb) in Hin. apply list_elem_of_In, map_split_elem in Hin as (l1 & x & l2 & E & <-).
  exists l1, x, l2.
  assert (settled rf ss (pool_objectId q) x) as Hx.
  { pose proof (bz_objects _ _ _ _ _ _ _ _ Hb) as Hf. rewrite E in Hf. by apply Forall_app in Hf as [_ [Hf _]%Forall_cons]. }
  split; [|done]. split; [done | done | | by destruct Hx].
  unfold objects_distinct in Hdist. rewrite <- (bz_views _ _ _ _ _ _ _ _ Hb), map_map in Hdist. exact Hdist.
Qed.

Lemma busy_absent base c d rf ss m q h i a y :
  busy base c d rf ss m q h -> object_of t (i, a) = None -> y ∈ interfaceList q -> object_key y <> (i, a).
Proof.
  intros Hb Hn Hy Ek. unfold object_of in Hn. eapply (find_none _ _) in Hn; [|].
  2:{ rewrite <- (bz_views _ _ _ _ _ _ _ _ Hb). apply in_map, list_elem_of_In, Hy. }
  rewrite view_object_key, bool_decide_eq_false in Hn. by destruct Hn.
Qed.

(** The query by number finds the setting in use, which is the default one. *)
Lemma busy_matches base c d rf ss m q h i y :
  busy base c d rf ss m q h -> y ∈ interfaceList q ->
  interface_matches (USB_INTERFACE_INTERFACE_INDEX_TYPE i) y = bool_decide (object_key y = (i, USB_DEFAULT_ALTSETTING)).
Proof.
  intros Hb Hy. pose proof (bz_objects _ _ _ _ _ _ _ _ Hb) as Hf. eapply Forall_forall in Hf; [|exact Hy].
  cbn. rewrite (st_current _ _ _ _ Hf). unfold object_key. apply Bool.eq_iff_eq_true.
  rewrite andb_true_iff, !Z.eqb_eq, bool_decide_eq_true. split; [intros [-> <-]; done | intros [= -> ->]; done].
Qed.
Lemma alt_matches i a y :
  interface_matches (USB_INTERFACE_ALT_SETTINGS_TYPE i a) y = bool_decide (object_key y = (i, a)).
Proof.
  cbn. unfold object_key. apply Bool.eq_iff_eq_true.
  rewrite andb_true_iff, !Z.eqb_eq, bool_decide_eq_true. split; [intros [-> ->]; done | intros [= -> ->]; done].
Qed.

Lemma busy_device base c d rf ss m q h : busy base c d rf ss m q h -> device q = Some d.
Proof. intros Hb. destruct (bz_pool _ _ _ _ _ _ _ _ Hb) as (b & id & n & io & E). by rewrite E. Qed.
Lemma busy_session base c d rf ss m q h : busy base c d rf ss m q h -> pool_session q = true.
Proof. intros Hb. destruct (bz_pool _ _ _ _ _ _ _ _ Hb) as (b & id & n & io & E). by rewrite E. Qed.

(** The pool an object belongs to. *)
Lemma busy_find_pool base c d rf ss m q h pid (Q : option nat -> Host K -> Prop) :
  busy base c d rf ss m q h -> pid = pool_objectId q ->
  (forall h', busy base c d rf ss m q h' -> Q (Some (pool_block q)) h') ->
  runs (IfFindInterfacePool (USB_POOL_OBJECT_ID_TYPE pid) false) h Q.
Proof.
  intros Hb -> HQ. eapply sole_find; [by apply (bz_sole _ _ _ _ _ _ _ _ Hb) | apply Z.eqb_refl|]. cbn beta iota.
  intros h1 Hq1 Hs1. apply HQ. eapply busy_pool; [exact Hb | done | done|].
  destruct (bz_pool _ _ _ _ _ _ _ _ Hb) as (pb & id & n & io & Eq). exists n, io. rewrite Eq. done.
Qed.

(** The pool of an open handle. *)
Lemma busy_handle_pool base c d rf ss m q h (Q : option nat -> Host K -> Prop) :
  busy base c d rf ss m q h -> Q (Some (pool_block q)) h -> runs (handle_pool d) h Q.
Proof.
  intros Hb HQ. unfold handle_pool, live_handle. apply runs_bind, runs_bind, runs_get.
  rewrite (us_open _ _ _ (dl_usable _ _ _ _ _ DL _ _ (bz_kernel _ _ _ _ _ _ _ _ Hb))). apply runs_ret, runs_get.
  by rewrite (bz_private _ _ _ _ _ _ _ _ Hb).
Qed.
Lemma busy_entity base c d rf ss m q h i b (Q : UsbInterfaceHandleEntity -> Host K -> Prop) :
  busy base c d rf ss m q h -> (i, b) ∈ handles c -> Q (mkHandle (Some d) i) h -> runs (iface_handle b) h Q.
Proof.
  intros Hb Hin HQ. apply runs_bind, runs_get. pose proof (bz_handles _ _ _ _ _ _ _ _ Hb) as Hf.
  eapply Forall_forall in Hf; [|exact Hin]. cbn in Hf. rewrite Hf. by apply runs_ret.
Qed.

(** ** Leaving the device *)
Lemma busy_drop base c d rf ss m q h :
  busy base c d rf ss m q h -> forall v h', quiet h h' -> sole (set_pool_refCount v q) h' -> busy base c d rf ss m (set_pool_refCount v q) h'.
Proof.
  intros Hb v h' Hq Hs. eapply busy_pool; [exact Hb | done | done|].
  destruct (bz_pool _ _ _ _ _ _ _ _ Hb) as (b & id & n & io & E). exists v, io. rewrite E. done.
Qed.
Lemma busy_io base c d rf ss m q h :
  busy base c d rf ss m q h -> forall v h', quiet h h' -> sole (set_ioRefCount v q) h' -> busy base c d rf ss m (set_ioRefCount v q) h'.
Proof.
  intros Hb v h' Hq Hs. eapply busy_pool; [exact Hb | done | done|].
  destruct (bz_pool _ _ _ _ _ _ _ _ Hb) as (b & id & n & io & E). exists n, v. rewrite E. done.
Qed.

Lemma leave_busy base c d rf ss m q h :
  busy base c d rf ss m q h -> 1 < pool_refCount q ->
  runs (IfDestoryDevice (pool_block q) (Some d) true) h (fun ret h' => exists q',
    ret = HDF_SUCCESS /\ busy base c d rf ss m q' h' /\ pool_refCount q' = pool_refCount q - 1 /\ ioRefCount q' = ioRefCount q).
Proof.
  intros Hb Hn. apply runs_bind. eapply sole_upd_pool; [by apply (bz_sole _ _ _ _ _ _ _ _ Hb) | done|].
  intros h1 Hq1 Hs1. pose proof (busy_drop _ _ _ _ _ _ _ _ Hb _ _ Hq1 Hs1) as Hb1.
  set (q1 := set_pool_refCount _ q) in *. change (pool_block q) with (pool_block q1).
  eapply runs_bind, sole_pool; [exact Hs1|]. cbn [pool_refCount q1 set_pool_refCount].
  rewrite (proj2 (Z.ltb_lt _ _)) by lia. apply runs_ret. by exists q1.
Qed.

Lemma leave_last base c d rf ss q h :
  busy base c d rf ss [] q h -> pool_refCount q = 1 -> handles c = [] ->
  runs (IfDestoryDevice (pool_block q) (Some d) true) h (fun ret h' => ret = HDF_SUCCESS /\ idle base h').
Proof.
  intros Hb Hn Hc. apply runs_bind. eapply sole_upd_pool; [by apply (bz_sole _ _ _ _ _ _ _ _ Hb) | done|].
  intros h1 Hq1 Hs1. pose proof (busy_drop _ _ _ _ _ _ _ _ Hb _ _ Hq1 Hs1) as Hb1.
  set (q1 := set_pool_refCount _ q) in *. change (pool_block q) with (pool_block q1).
  eapply runs_bind, sole_pool; [exact Hs1|]. cbn [pool_refCount q1 set_pool_refCount].
  rewrite Hn. cbn [Z.sub Z.ltb Z.compare]. destruct (bz_pool _ _ _ _ _ _ _ _ Hb1) as (b & id & n & io & E).
  apply runs_bind. eapply runs_mono; [apply (IfDestroyInterfacePool_gives base q1 (handles c).*2 h1 Hs1)|].
  { by rewrite E. }
  { apply (bz_owns _ _ _ _ _ _ _ _ Hb1). }
  intros ret h2 (-> & [[R1 R2 R3 R4] [L1 L2]] & E2 & Ho2). rewrite Z.eqb_refl. cbn [negb].
  rewrite Hc in Ho2. apply owns_nothing in Ho2.
  pose proof (bz_kernel _ _ _ _ _ _ _ _ Hb1) as Hk. rewrite <- R4 in Hk.
  unfold RawCloseDevice, live_handle. apply runs_bind, runs_bind, runs_get. rewrite (us_open _ _ _ (dl_usable _ _ _ _ _ DL _ _ Hk)).
  apply runs_ret. apply runs_bind, runs_put, runs_ret. split; [done|]. split; cbn; [done | | done | | ].
  - apply L2, (ho_ram _ (so_ok _ _ Hs1)).
  - by apply (dl_close _ _ _ _ _ DL).
  - eapply masks_none. eapply masks_quiet; [exact (bz_mask _ _ _ _ _ _ _ _ Hb1) | exact R3].
Qed.

(** ** Opening the device *)
Lemma mean_device_current v w : w ∈ mean_device v -> curAltSetting (ov_info w) = USB_DEFAULT_ALTSETTING.
Proof.
  unfold mean_device. intros [->|Hw]%elem_of_cons; [done|].
  apply list_elem_of_In, in_concat in Hw as (l & Hl & Hw). apply in_map_iff in Hl as (alts & <- & _).
  unfold mean_interface in Hw. by apply in_map_iff in Hw as (a & <- & _).
Qed.
Lemma refs_none k : refs [] [] k = 0.
Proof. destruct k as [i a]. unfold refs. by destruct (a =? USB_DEFAULT_ALTSETTING), (i =? USB_CTRL_INTERFACE_ID). Qed.

Lemma objects_settled pid l :
  objects_for pid (mean_device (mean_config t)) l -> Forall (settled (refs [] []) [] pid) l.
Proof.
  intros [Hv Hu]. apply Forall_forall. intros x Hx. eapply Forall_forall in Hu; [|exact Hx]. destruct Hu as [U1 U2 U3 U4].
  split; [done..| | by rewrite refs_none | by intros _ ?%not_elem_of_nil].
  change (info x) with (ov_info (view_object x)). apply (mean_device_current (mean_config t)). rewrite <- Hv.
  by apply list_elem_of_In, in_map, list_elem_of_In.
Qed.

Lemma idle_ok base h : idle base h -> host_ok h.
Proof. intros [H1 H2 _ _ _]. split; [done | unfold host_blocks; rewrite H1; constructor | unfold host_blocks; rewrite H1; constructor]. Qed.

Lemma IfGetInterfacePool_idle base h :
  idle base h ->
  runs (IfGetInterfacePool fuel bus addr) h (fun '(p, dd) h' => exists d q,
    p = Some (pool_block q) /\ dd = Some d /\ busy base (Client [] []) d (refs [] []) [] [] q h' /\
    pool_refCount q = 1 /\ ioRefCount q = 0).
Proof.
  intros Hi. pose proof Hi as [I1 I2 I3 I4 I5]. destruct (dl_open _ _ _ _ _ DL _ I4) as (d & k' & Eo & Hr).
  apply runs_bind. unfold runs at 1, RawOpenDevice, on_kernel. rewrite Eo. set (h1 := set_kernel k' h).
  assert (host_ok h1) as Hok1 by by destruct (idle_ok _ _ Hi).
  apply runs_bind. eapply runs_mono;
    [apply (UsbProtocalParseDescriptor_ok fuel d t bus addr h1 Hgr Hok1); [by apply (dl_usable _ _ _ _ _ DL) | done]|].
  intros ret h2 (q & -> & Ep & [(b & id & Eq) Ho] & Hok2 & Hg & Ek & Eh & Ec & Epr). rewrite Z.eqb_refl. cbn [negb].
  cbn in Ep. rewrite I1 in Ep. cbn in Ep. assert (sole q h2) as Hs2 by done. pose proof (objects_settled _ _ Ho) as Hset.
  apply runs_bind. eapply sole_find; [exact Hs2 | rewrite Eq; cbn; by rewrite !Z.eqb_refl|].
  intros h3 [[R1 R2 R3 R4] Er] Hs3. set (q3 := set_pool_refCount _ q) in *. change (pool_block q) with (pool_block q3).
  apply runs_bind. eapply runs_bind, sole_pool; [exact Hs3|]. apply runs_ret.
  rewrite bool_decide_true by (unfold q3; rewrite Eq; by eexists). apply runs_ret. exists d, q3.
  split; [done|]. split; [done|]. split; [|unfold q3; rewrite Eq; done].
  assert (owns base (pool_blocks q ++ []) (ram h2)) as How.
  { rewrite app_nil_r, <- I3. eapply grown_owns; [exact I2 | exact Hg]. }
  split; cbn; rewrite ?Er, ?R1, ?R2, ?R4.
  - done.
  - exact How.
  - exists b, id, 1, 0. unfold q3. by rewrite Eq.
  - rewrite Ek. done.
  - rewrite Epr. by rewrite lookup_insert_eq.
  - by apply of_views in Ho.
  - done.
  - eapply masks_quiet; [|rewrite R3; exact Ec]. by eapply masks_none.
  - constructor.
  - constructor.
Qed.

(** ** Claiming *)
Lemma busy_masks base c d rf ss m m' q h :
  busy base c d rf ss m q h -> (forall n, n <> USB_CTRL_INTERFACE_ID -> n ∈ m <-> n ∈ m') -> busy base c d rf ss m' q h.
Proof.
  intros [H1 H2 H3 H4 H5 H6 H7 H8 H9 H10] Hm. split; [done..| | done | done].
  intros e n Hn. rewrite H8 by done. apply bool_decide_ext. split; intros (? & ? & ?); (split; [done|]); (split; [by apply Hm | done]).
Qed.

Lemma settled_refs rf ss ss' pid x v :
  settled rf ss pid x -> (forall k, k = object_key x -> v k = rf k) ->
  (altSettingId x = USB_DEFAULT_ALTSETTING -> interfaceIndex (info x) ∈ ss' -> if_session x = true) -> settled v ss' pid x.
Proof. intros [S1 S2 S3 S4 S5] Hv Hs. split; [done..| by rewrite Hv | done]. Qed.

(** A kernel call that succeeds. *)
Lemma busy_kernel base c d rf ss m q h f k' (Q : Z -> Host K -> Prop) :
  busy base c d rf ss m q h -> f (kernel h) = (HDF_SUCCESS, k') -> running d k' ->
  (forall h', busy base c d rf ss m q h' -> claimedInterfaces h' = claimedInterfaces h -> Q HDF_SUCCESS h') -> runs (on_kernel f) h Q.
Proof.
  intros [H1 H2 H3 H4 H5 H6 H7 H8 H9 H10] Ef Hr HQ. unfold runs, on_kernel. rewrite Ef. apply HQ; [|done].
  split; [|done..]. destruct H1 as [[A1 A2 A3] E]. by split; [split|].
Qed.

Lemma RawClaimInterface_busy base c d rf ss m q h i :
  busy base c d rf ss m q h -> claimable i = true -> i <> USB_CTRL_INTERFACE_ID ->
  runs (RawClaimInterface (Some d) i) h (fun ret h' => ret = HDF_SUCCESS /\ busy base c d rf ss (i :: m) q h').
Proof.
  intros Hb Hc Hi. unfold claimable in Hc. rewrite (proj2 (Z.eqb_neq _ _) Hi) in Hc. cbn [orb] in Hc.
  apply andb_prop in Hc as [Hi0%Z.leb_le Hi1]. unfold RawClaimInterface.
  rewrite (proj2 (Z.ltb_ge _ _)), Z.leb_antisym, Hi1 by done. cbn [negb orb]. unfold live_handle. apply runs_bind, runs_bind, runs_get.
  pose proof (bz_kernel _ _ _ _ _ _ _ _ Hb) as Hk. rewrite (us_open _ _ _ (dl_usable _ _ _ _ _ DL _ _ Hk)).
  apply runs_ret. apply runs_bind, runs_get. rewrite (bz_mask _ _ _ _ _ _ _ _ Hb) by done.
  destruct (bool_decide_reflect (d = d /\ i ∈ m /\ i <> USB_CTRL_INTERFACE_ID)) as [(_ & Him & _)|Hm].
  { apply runs_ret. split; [done|]. eapply busy_masks; [exact Hb|]. intros n _. rewrite elem_of_cons.
    split; [by right | by intros [->|]]. }
  destruct (dl_claim _ _ _ _ _ DL d i _ Hk) as (k' & Ek & Hr).
  apply runs_bind. eapply busy_kernel; [exact Hb | exact Ek | done|]. intros h1 [H1 H2 H3 H4 H5 H6 H7 H8 H9 H10] Ec.
  rewrite Z.eqb_refl. apply runs_bind, runs_put, runs_ret. split; [done|].
  split; cbn; [by destruct H1 as [[] ?]; split; [split|] | done..| | done | done].
  intros e n Hn. cbn. rewrite lookup_insert. specialize (H8 e n Hn). rewrite <- Ec. destruct (decide (d = e)) as [->|He]; cbn.
  - rewrite Z.lor_spec, H8, Z.shiftl_1_l, Z.pow2_bits_eqb by done. apply Bool.eq_iff_eq_true.
    rewrite orb_true_iff, !bool_decide_eq_true, Z.eqb_eq, elem_of_cons. split.
    + intros [(_ & Hin & Hne)|E]; [by auto|]. subst n. auto.
    + intros (_ & [->|Hin] & Hne); [by right | by left].
  - rewrite H8. apply bool_decide_ext. split; intros (E & _); congruence.
Qed.

Lemma session_set base c d rf ss m q h i l1 x l2 :
  busy base c d rf ss m q h -> object_at i USB_DEFAULT_ALTSETTING q l1 x l2 ->
  runs (upd_interface (if_block x) (set_if_session true);; mret (Some (if_block x))) h (fun p h' => exists q' b,
    p = Some b /\ busy base (Client ((i, b) :: ptrs c) (handles c)) d rf (i :: ss) m q' h' /\
    pool_refCount q' = pool_refCount q /\ ioRefCount q' = ioRefCount q).
Proof.
  intros Hb Ho. pose proof Ho as [E Hkey _ _]. apply runs_bind.
  eapply (sole_upd_interface q l1 x l2); [by apply (bz_sole _ _ _ _ _ _ _ _ Hb) | exact E | done|].
  intros h1 Hq1 Hs1. apply runs_ret. exists (set_interfaceList (l1 ++ set_if_session true x :: l2) q), (if_block x). split; [done|]. split; [|done].
  assert (settled rf ss (pool_objectId q) x) as [S1 S2 S3 S4 S5].
  { pose proof (bz_objects _ _ _ _ _ _ _ _ Hb) as Hf. rewrite E in Hf. by apply Forall_app in Hf as [_ [Hf _]%Forall_cons]. }
  assert (busy base c d rf (i :: ss) m (set_interfaceList (l1 ++ set_if_session true x :: l2) q) h1) as Hb1.
  { eapply (busy_object base c d rf rf ss (i :: ss)); [exact Hb | exact E | done | exact Hs1 | done | done | by split | done|].
    intros j Hj [->|Hj']%elem_of_cons; [by rewrite Hkey in Hj | done]. }
  destruct Hb1 as [H1 H2 H3 H4 H5 H6 H7 H8 H9 H10]. split; [done..| | done]. constructor; [|done].
  exists (set_if_session true x). split; [|done]. cbn. apply elem_of_app. right. left.
Qed.

Lemma object_settled base c d rf ss m q h l1 x l2 :
  busy base c d rf ss m q h -> interfaceList q = l1 ++ x :: l2 -> settled rf ss (pool_objectId q) x.
Proof.
  intros Hb E. pose proof (bz_objects _ _ _ _ _ _ _ _ Hb) as Hf. rewrite E in Hf.
  by apply Forall_app in Hf as [_ [Hf _]%Forall_cons].
Qed.

(** Counting a reference, or taking one back. *)
Lemma busy_count base c d rf rf' ss m q h i l1 x l2 v h' :
  busy base c d rf ss m q h -> object_at i USB_DEFAULT_ALTSETTING q l1 x l2 -> quiet h h' ->
  sole (set_interfaceList (l1 ++ set_refCount v x :: l2) q) h' -> v = rf' (i, USB_DEFAULT_ALTSETTING) ->
  (forall k, k <> (i, USB_DEFAULT_ALTSETTING) -> rf' k = rf k) ->
  busy base c d rf' ss m (set_interfaceList (l1 ++ set_refCount v x :: l2) q) h' /\
  object_at i USB_DEFAULT_ALTSETTING (set_interfaceList (l1 ++ set_refCount v x :: l2) q) l1 (set_refCount v x) l2.
Proof.
  intros Hb Ho Hq Hs Hv Hrf. pose proof Ho as [E Hk _ _]. pose proof (object_settled _ _ _ _ _ _ _ _ _ _ _ Hb E) as [S1 S2 S3 S4 S5].
  split; [|by apply (object_at_set _ _ _ _ _ _ (set_refCount v) Ho)].
  eapply (busy_object base c d rf rf' ss ss); [exact Hb | exact E | done | exact Hs | done | done | | by rewrite Hk | done].
  split; [done..| | done]. cbn. rewrite Hv. f_equal. symmetry. exact Hk.
Qed.

Lemma claim_present base c d cs os q h i dd :
  busy base c d (refs cs os) cs cs q h -> Forall (fun i => i ∈ cs) os -> claimable i = true ->
  is_Some (object_of t (i, USB_DEFAULT_ALTSETTING)) ->
  runs (claim_object (pool_block q) dd i) h (fun p h' => exists q' b,
    p = Some b /\ busy base (Client ((i, b) :: ptrs c) (handles c)) d (refs (i :: cs) os) (i :: cs) (i :: cs) q' h' /\
    pool_refCount q' = pool_refCount q /\ ioRefCount q' = ioRefCount q).
Proof.
  intros Hb Hos Hc Hobj. destruct (busy_find _ _ _ _ _ _ _ _ _ _ Hb Hobj) as (l1 & x & l2 & Ho & _ & Hx).
  apply runs_bind. eapply sole_claim_object; [by apply (bz_sole _ _ _ _ _ _ _ _ Hb) | exact Ho | done | | |].
  { intros y. by eapply busy_matches. }
  - intros Hi. rewrite (proj2 (Z.eqb_eq _ _) Hi). cbn [negb andb]. apply runs_bind, runs_ret. rewrite Z.eqb_refl. cbn [negb].
    eapply runs_mono; [eapply (session_set base c d _ _ (i :: cs)); [|exact Ho]|].
    + eapply busy_masks; [exact Hb|]. intros n Hn. rewrite elem_of_cons. rewrite <- Hi in Hn. by intuition.
    + intros p h' (q' & b & -> & Hb' & Hn). exists q', b. split; [done|]. split; [|done].
      destruct Hb' as [H1 H2 H3 H4 H5 H6 H7 H8 H9 H10]. split; [done..| | | done | done].
      * eapply Forall_impl; [exact H7|]. intros y Hy. destruct Hy as [S1 S2 S3 S4 S5]. split; [done..| | done].
        rewrite refs_claim_other; [done | by right].
      * exact H8.
  - intros Hi h1 Hq1 Hs1. rewrite (proj2 (Z.eqb_neq _ _) Hi). cbn [negb andb]. set (x1 := set_refCount _ x) in *.
    set (q1 := set_interfaceList _ q) in *.
    destruct (busy_count _ _ _ _ (refs (i :: cs) os) _ _ _ _ _ _ _ _ _ _ Hb Ho Hq1 Hs1) as [Hb1 Ho1].
    { rewrite refs_claim by done. rewrite (st_refs _ _ _ _ Hx), (oa_key _ _ _ _ _ _ Ho). done. }
    { intros k Hk. apply refs_claim_other. by left. }
    apply runs_bind. change (pool_block q) with (pool_block q1).
    assert (runs (if refCount x =? 0 then x0 ← pool (pool_block q1); ret ← RawClaimInterface (device x0) i; mret (ret, device x0)
                  else mret (HDF_SUCCESS, dd)) h1
              (fun '(ret, _) h' => ret = HDF_SUCCESS /\ busy base c d (refs (i :: cs) os) cs (i :: cs) q1 h')) as Hk.
    { destruct (Z.eqb_spec (refCount x) 0) as [H0|H0].
      - pose proof (busy_device _ _ _ _ _ _ _ _ Hb1 : device q1 = Some d) as Ed.
        eapply runs_bind, sole_pool; [exact Hs1|]. rewrite Ed. apply runs_bind. eapply runs_mono; [by apply (RawClaimInterface_busy _ _ _ _ _ _ _ _ _ Hb1)|].
        intros ret h2 [-> Hb2]. by apply runs_ret.
      - apply runs_ret. split; [done|]. eapply busy_masks; [exact Hb1|]. intros n _. rewrite elem_of_cons.
        split; [by right|]. intros [->|]; [|done]. rewrite (st_refs _ _ _ _ Hx), (oa_key _ _ _ _ _ _ Ho) in H0.
        unfold refs in H0. rewrite Z.eqb_refl, (proj2 (Z.eqb_neq _ _) Hi) in H0. destruct (decide (i ∈ cs)) as [|Hcs]; [done|].
        rewrite (count_none i cs Hcs), (count_none i os) in H0; [done|]. intros Hin. by eapply Forall_forall in Hos. }
    eapply runs_mono; [exact Hk|]. intros [ret dd'] h2 [-> Hb2]. rewrite Z.eqb_refl. cbn [negb].
    change (if_block x) with (if_block x1). eapply runs_mono; [eapply session_set; [exact Hb2 | exact Ho1]|].
    intros p h' (q' & b & -> & Hb' & Hn). by exists q', b.
Qed.

Lemma claim_unclaimable base c d cs os q h i dd (Q : option nat -> Host K -> Prop) :
  busy base c d (refs cs os) cs cs q h -> Forall (fun i => i ∈ cs) os -> Forall (fun i => claimable i = true) cs ->
  claimable i = false -> is_Some (object_of t (i, USB_DEFAULT_ALTSETTING)) ->
  (forall q' h', busy base c d (refs cs os) cs cs q' h' -> pool_refCount q' = pool_refCount q -> ioRefCount q' = ioRefCount q ->
     runs (IfDestoryDevice (pool_block q') (Some d) true;; mret None) h' Q) ->
  runs (claim_object (pool_block q) dd i) h Q.
Proof.
  intros Hb Hos Hcs Hc Hobj HQ. destruct (busy_find _ _ _ _ _ _ _ _ _ _ Hb Hobj) as (l1 & x & l2 & Ho & _ & Hx).
  unfold claimable in Hc. apply orb_false_elim in Hc as [Hi%Z.eqb_neq Hrange].
  assert (i ∉ cs) as Hni.
  { intros Hin. eapply Forall_forall in Hcs; [|exact Hin]. unfold claimable in Hcs.
    by rewrite Hrange, (proj2 (Z.eqb_neq _ _) Hi) in Hcs. }
  assert (refCount x = 0) as H0.
  { rewrite (st_refs _ _ _ _ Hx), (oa_key _ _ _ _ _ _ Ho). unfold refs. rewrite Z.eqb_refl, (proj2 (Z.eqb_neq _ _) Hi).
    rewrite (count_none i cs Hni), (count_none i os); [done|]. intros Hin. by eapply Forall_forall in Hos. }
  apply runs_bind. eapply sole_claim_object; [by apply (bz_sole _ _ _ _ _ _ _ _ Hb) | exact Ho | done | | done |].
  { intros y. by eapply busy_matches. }
  intros _ h1 Hq1 Hs1. rewrite (proj2 (Z.eqb_neq _ _) Hi), H0. cbn [negb andb Z.eqb]. set (x1 := set_refCount _ x) in *.
  set (q1 := set_interfaceList _ q) in *. pose proof (busy_device _ _ _ _ _ _ _ _ Hb : device q1 = Some d) as Ed.
  apply runs_bind. change (pool_block q) with (pool_block q1). eapply runs_bind, sole_pool; [exact Hs1|]. rewrite Ed.
  assert ((i <? 0) || (USB_MAXINTERFACES <=? i) = true) as Hr.
  { apply orb_true_iff. rewrite Z.ltb_lt, Z.leb_le. apply andb_false_iff in Hrange. rewrite Z.leb_gt, Z.ltb_ge in Hrange. lia. }
  unfold RawClaimInterface. rewrite Hr. apply runs_bind, runs_ret, runs_ret.
  rewrite (proj2 (Z.eqb_neq _ _)) by (rewrite us_success; apply hdf_invalid_param_nz). cbn [negb].
  assert (object_at i USB_DEFAULT_ALTSETTING q1 l1 x1 l2) as Ho1 by by apply (object_at_set _ _ _ _ _ _ (set_refCount _) Ho).
  pose proof (oa_split _ _ _ _ _ _ Ho1) as E1. apply runs_bind. change (if_block x) with (if_block x1).
  eapply (sole_upd_interface q1 l1 x1 l2); [exact Hs1 | exact E1 | done|]. intros h2 Hq2 Hs2.
  assert (set_refCount (refCount x1 - 1) x1 = set_refCount 0 x) as Ex by (unfold x1; cbn; by rewrite H0).
  rewrite Ex in Hs2. destruct (busy_count base c d _ (refs cs os) cs cs q h i l1 x l2 0 h2 Hb Ho) as [Hb2 _].
  { by etrans. } { exact Hs2. } { by rewrite <- (oa_key _ _ _ _ _ _ Ho), <- (st_refs _ _ _ _ Hx). } { done. }
  change (pool_block q1) with (pool_block (set_interfaceList (l1 ++ set_refCount 0 x :: l2) q)). by apply HQ.
Qed.

Lemma claim_absent base c d rf ss m q h i dd (Q : option nat -> Host K -> Prop) :
  busy base c d rf ss m q h -> object_of t (i, USB_DEFAULT_ALTSETTING) = None ->
  runs (IfDestoryDevice (pool_block q) dd true;; mret None) h Q ->
  runs (claim_object (pool_block q) dd i) h Q.
Proof.
  intros Hb Hn HQ. apply runs_bind. eapply sole_find_none; [by apply (bz_sole _ _ _ _ _ _ _ _ Hb) | | exact HQ].
  intros y Hy. rewrite (busy_matches _ _ _ _ _ _ _ _ _ _ Hb Hy), bool_decide_false; [done|].
  by eapply busy_absent.
Qed.

(** Giving back the reference that was taken for nothing. *)
Lemma leave_any base s c d q h :
  tidy s c -> busy base c d (refs (claims s) (opens s)) (claims s) (claims s) q h ->
  pool_refCount q = Z.of_nat (length (claims s) + lost s) + 1 -> ioRefCount q = Z.of_nat (length (opens s)) ->
  runs (IfDestoryDevice (pool_block q) (Some d) true) h (fun ret h' => ret = HDF_SUCCESS /\ represents base s c h').
Proof.
  intros [T1 T2 T3 T4] Hb Hn Hio. destruct (in_use s) eqn:Hu; pose proof Hu as Hu'; unfold in_use in Hu'.
  - apply Nat.ltb_lt in Hu'. eapply runs_mono; [eapply leave_busy; [exact Hb | lia]|].
    intros ret h' (q' & -> & Hb' & Hn' & Hio'). split; [done|]. eapply repr_busy; [done | by split | exact Hb' | lia | lia].
  - apply Nat.ltb_ge in Hu'. assert (claims s = []) as Ec by (destruct (claims s); [done | cbn in Hu'; lia]).
    assert (opens s = []) as Eo.
    { destruct (opens s) as [|j os]; [done|]. rewrite Ec in T3. apply Forall_cons in T3 as [H _]. by apply not_elem_of_nil in H. }
    rewrite Ec in Hb, Hn. eapply runs_mono; [eapply leave_last; [exact Hb | cbn in *; lia | ]|].
    + rewrite Eo in T2. by destruct (handles c).
    + intros ret h' [-> Hi]. split; [done|]. by apply repr_idle.
Qed.

(** The answer of a claim, from the pool that was found or made. *)
Definition claimed (i : Z) (s : use) (c : client) (base : gset nat) (p : option nat) h : Prop :=
  exists a s', use_step t (Claim i) s = Some (a, s') /\
    match p with
    | Some b => a = Granted /\ represents base s' (Client ((i, b) :: ptrs c) (handles c)) h
    | None => a = Refused /\ represents base s' c h
    end.

Lemma claim_tail base s c d q h i dd :
  tidy s c -> busy base c d (refs (claims s) (opens s)) (claims s) (claims s) q h ->
  pool_refCount q = Z.of_nat (length (claims s) + lost s) + 1 -> ioRefCount q = Z.of_nat (length (opens s)) ->
  dd = (if in_use s then None else Some d) ->
  runs (claim_object (pool_block q) dd i) h (fun p h' => claimed i s c base p h').
Proof.
  intros Ht Hb Hn Hio Hdd. pose proof Ht as [T1 T2 T3 T4]. unfold claimed. cbn [use_step].
  destruct (object_of t (i, USB_DEFAULT_ALTSETTING)) as [v|] eqn:Ev; [destruct (claimable i) eqn:Hc|].
  - eapply runs_mono; [by apply (claim_present _ _ _ _ _ _ _ i dd Hb); eauto|].
    intros p h' (q' & b & -> & Hb' & Hn' & Hio'). eexists _, _. split; [done|]. split; [done|].
    eapply repr_busy; [done | | exact Hb' | cbn; lia | cbn; lia]. split; cbn; [by rewrite T1 | done | | by constructor].
    eapply Forall_impl; [exact T3|]. intros j Hj. by right.
  - eapply claim_unclaimable; [exact Hb | done | done | done | by eauto|]. intros q' h' Hb' Hn' Hio'.
    apply runs_bind. eapply runs_mono; [by apply (leave_any base s c d q' h' Ht Hb'); congruence|].
    intros ret h2 [-> Hr]. apply runs_ret. eexists _, _. by split.
  - eapply claim_absent; [exact Hb | done|]. apply runs_bind. rewrite Hdd. destruct (in_use s) eqn:Hu.
    + apply runs_ret, runs_ret. eexists _, _. split; [done|]. split; [done|].
      eapply repr_busy; [| by split | exact Hb | cbn; lia | done].
      unfold in_use. cbn [claims opens lost]. apply Nat.ltb_lt. lia.
    + eapply runs_mono; [by apply (leave_any base s c d q h Ht Hb)|].
      intros ret h2 [-> Hr]. apply runs_ret. eexists _, _. by split.
Qed.

Lemma claim_step base s c h i :
  represents base s c h -> runs (UsbClaimInterface fuel bus addr i) h (fun p h' => claimed i s c base p h').
Proof.
  intros [Hu Ht Hi|d q Hu Ht Hb Hn Hio].
  - apply runs_bind. apply runs_bind, runs_get. rewrite (id_pools _ _ Hi). apply runs_ret.
    apply runs_bind, runs_ret, runs_bind. eapply runs_mono; [by apply IfGetInterfacePool_idle|].
    intros [p dd] h1 (d & q & -> & -> & Hb & Hn & Hio).
    destruct Ht as [T1 T2 T3 T4]. unfold in_use in Hu. apply Nat.ltb_ge in Hu.
    assert (claims s = []) as Ec by (destruct (claims s); [done | cbn in Hu; lia]).
    assert (opens s = []) as Eo.
    { destruct (opens s) as [|j os]; [done|]. rewrite Ec in T3. apply Forall_cons in T3 as [H _]. by apply not_elem_of_nil in H. }
    assert (c = Client [] []) as ->.
    { destruct c as [ps hs]. cbn in *. rewrite Ec in T1. rewrite Eo in T2. by destruct ps, hs. }
    assert (length (claims s) + lost s = 0)%nat as E0 by lia.
    apply (claim_tail base s (Client [] []) d q h1); [by split | by rewrite Ec, Eo | rewrite E0; lia | rewrite Eo; done|].
    unfold in_use. by rewrite E0.
  - destruct (bz_pool _ _ _ _ _ _ _ _ Hb) as (pb & id & n & io & E).
    apply runs_bind. eapply sole_find; [by apply (bz_sole _ _ _ _ _ _ _ _ Hb) | rewrite E; cbn; by rewrite !Z.eqb_refl|].
    intros h1 Hq1 Hs1. pose proof (busy_drop _ _ _ _ _ _ _ _ Hb _ _ Hq1 Hs1) as Hb1.
    set (q1 := set_pool_refCount _ q) in *. change (pool_block q) with (pool_block q1).
    apply runs_bind. eapply runs_bind, sole_pool; [exact Hs1|]. apply runs_ret.
    rewrite (busy_device _ _ _ _ _ _ _ _ Hb1), bool_decide_true by by eexists. apply runs_bind, runs_ret.
    apply (claim_tail base s c d q1 h1); [done | done | unfold q1; cbn; lia | done | by rewrite Hu].
Qed.

(** ** Releasing *)
Lemma drop_set i n l : n <> i -> n ∈ drop_one i l <-> n ∈ l.
Proof. intros Hn. split; [apply elem_of_drop | by apply elem_of_drop_other]. Qed.

Lemma RawReleaseInterface_busy base c d rf ss m m' q h i :
  busy base c d rf ss m q h -> claimable i = true -> i <> USB_CTRL_INTERFACE_ID -> i ∈ m ->
  (forall n, n <> USB_CTRL_INTERFACE_ID -> n ∈ m' <-> n ∈ m /\ n <> i) ->
  runs (RawReleaseInterface (Some d) i) h (fun ret h' => ret = HDF_SUCCESS /\ busy base c d rf ss m' q h').
Proof.
  intros Hb Hc Hi Him Hm'. unfold claimable in Hc. rewrite (proj2 (Z.eqb_neq _ _) Hi) in Hc. cbn [orb] in Hc.
  apply andb_prop in Hc as [Hi0%Z.leb_le Hi1]. unfold RawReleaseInterface.
  rewrite (proj2 (Z.ltb_ge _ _)), Z.leb_antisym, Hi1 by done. cbn [negb orb]. unfold live_handle. apply runs_bind, runs_bind, runs_get.
  pose proof (bz_kernel _ _ _ _ _ _ _ _ Hb) as Hk. rewrite (us_open _ _ _ (dl_usable _ _ _ _ _ DL _ _ Hk)).
  apply runs_ret. apply runs_bind, runs_get. rewrite (bz_mask _ _ _ _ _ _ _ _ Hb) by done.
  rewrite bool_decide_true by done. cbn [negb]. destruct (dl_release _ _ _ _ _ DL d i _ Hk) as (k' & Ek & Hr).
  apply runs_bind. eapply busy_kernel; [exact Hb | exact Ek | done|]. intros h1 [H1 H2 H3 H4 H5 H6 H7 H8 H9 H10] Ec.
  rewrite Z.eqb_refl. apply runs_bind, runs_put, runs_ret. split; [done|].
  split; cbn; [by destruct H1 as [[] ?]; split; [split|] | done..| | done | done].
  intros e n Hn. cbn. rewrite lookup_insert. specialize (H8 e n Hn). rewrite <- Ec. destruct (decide (d = e)) as [->|He]; cbn.
  - rewrite Z.ldiff_spec, H8, Z.shiftl_1_l, Z.pow2_bits_eqb by done. apply Bool.eq_iff_eq_true.
    rewrite andb_true_iff, negb_true_iff, !bool_decide_eq_true, Z.eqb_neq. split.
    + intros [(_ & Hin & Hne) E]. split; [done|]. split; [|done]. apply Hm'; [done|]. split; [done | congruence].
    + intros (_ & Hin & Hne). apply Hm' in Hin as [Hin Hni]; [|done]. split; [done | congruence].
  - rewrite H8. apply bool_decide_ext. split; intros (E & _); congruence.
Qed.

(** Fewer sessions, pointers and handles to care about. *)
Lemma busy_fewer base c c' d rf ss ss' m q h :
  busy base c d rf ss m q h -> (forall i, i ∈ ss' -> i ∈ ss) -> (forall p, p ∈ ptrs c' -> p ∈ ptrs c) -> handles c' = handles c ->
  busy base c' d rf ss' m q h.
Proof.
  intros [H1 H2 H3 H4 H5 H6 H7 H8 H9 H10] Hss Hp Hh. split; rewrite ?Hh; [done..| | done | | done].
  - eapply Forall_impl; [exact H7|]. intros x Hx. eapply settled_refs; [exact Hx | done|].
    intros Ha Hi. apply (st_session _ _ _ _ Hx); auto.
  - apply Forall_forall. intros p Hin%Hp. by eapply Forall_forall in H9.
Qed.

Lemma busy_refs base c d rf rf' ss m q h :
  busy base c d rf ss m q h -> (forall k, rf' k = rf k) -> busy base c d rf' ss m q h.
Proof.
  intros [H1 H2 H3 H4 H5 H6 H7 H8 H9 H10] E. split; [done..| | done | done | done].
  eapply Forall_impl; [exact H7|]. intros x Hx. eapply settled_refs; [exact Hx | auto | apply (st_session _ _ _ _ Hx)].
Qed.

Lemma refs_drop_other i cs os k :
  i ∈ cs -> k <> (i, USB_DEFAULT_ALTSETTING) \/ i = USB_CTRL_INTERFACE_ID -> refs (drop_one i cs) os k = refs cs os k.
Proof.
  intros Hi Hk. rewrite (refs_count cs (i :: drop_one i cs) os os k); [by rewrite refs_claim_other | | done].
  intros j. by apply count_swap.
Qed.
Lemma refs_drop i cs os :
  i ∈ cs -> i <> USB_CTRL_INTERFACE_ID ->
  refs (drop_one i cs) os (i, USB_DEFAULT_ALTSETTING) = refs cs os (i, USB_DEFAULT_ALTSETTING) - 1.
Proof.
  intros Hi Hc. rewrite (refs_count cs (i :: drop_one i cs) os os); [rewrite refs_claim by done; lia | | done].
  intros j. by apply count_swap.
Qed.

(** What [UsbReleaseInterface] does before it leaves the device. *)
Lemma release_interface base c d cs os q h i l1 x l2 :
  busy base c d (refs cs os) cs cs q h -> object_at i USB_DEFAULT_ALTSETTING q l1 x l2 -> Forall (fun i => claimable i = true) cs ->
  i ∈ cs -> i ∉ os \/ (2 <= count i cs)%nat -> i <> USB_CTRL_INTERFACE_ID ->
  runs (upd_interface (if_block x) (fun x => set_refCount (refCount x - 1) x);;
        if refCount x - 1 <=? 0 then
          ret ← RawReleaseInterface (Some d) i;
          if negb (ret =? HDF_SUCCESS) && negb (ret =? NO_DEVICE) then
            upd_interface (if_block x) (fun x => set_refCount (refCount x + 1) x);; mret ret
          else mret HDF_SUCCESS
        else mret HDF_SUCCESS) h (fun ret h' => exists q',
    ret = HDF_SUCCESS /\ busy base c d (refs (drop_one i cs) os) cs (drop_one i cs) q' h' /\
    pool_block q' = pool_block q /\ pool_refCount q' = pool_refCount q /\ ioRefCount q' = ioRefCount q).
Proof.
  intros Hb Ho Hcl Hi Hlast Hc. pose proof Ho as [E Hk _ _]. pose proof (object_settled _ _ _ _ _ _ _ _ _ _ _ Hb E) as Hx.
  assert (refCount x = Z.of_nat (count i cs) + Z.of_nat (count i os)) as Hr.
  { rewrite (st_refs _ _ _ _ Hx), Hk. unfold refs. by rewrite Z.eqb_refl, (proj2 (Z.eqb_neq _ _) Hc). }
  pose proof (count_drop i i cs Hi) as Hd. rewrite decide_True in Hd by done.
  apply runs_bind. eapply (sole_upd_interface q l1 x l2); [by apply (bz_sole _ _ _ _ _ _ _ _ Hb) | exact E | done|].
  intros h1 Hq1 Hs1. destruct (busy_count base c d _ (refs (drop_one i cs) os) cs cs q h i l1 x l2 _ h1 Hb Ho Hq1 Hs1) as [Hb1 _].
  { rewrite (st_refs _ _ _ _ Hx), Hk. by rewrite refs_drop. }
  { intros k Hk'. apply refs_drop_other; auto. }
  destruct (Z.leb_spec (refCount x - 1) 0) as [H0|H0].
  - apply runs_bind. eapply runs_mono; [eapply (RawReleaseInterface_busy base c d _ cs cs (drop_one i cs)); [exact Hb1 | | done..|]|].
    + by eapply Forall_forall in Hcl.
    + intros n Hn. destruct (decide (n = i)) as [->|Hni]; [|by rewrite drop_set; intuition].
      rewrite count_elem. intuition lia.
    + intros ret h2 [-> Hb2]. rewrite Z.eqb_refl. cbn [negb andb]. apply runs_ret. by eexists.
  - apply runs_ret. eexists. split; [done|]. split; [eapply busy_masks; [exact Hb1|] | done].
    intros n _. destruct (decide (n = i)) as [->|Hni]; [|by rewrite drop_set]. rewrite !count_elem.
    destruct Hlast as [Hl|Hl]; [rewrite (count_none _ _ Hl) in Hr|]; lia.
Qed.

(** The object a claimed pointer points to. *)
Lemma claimed_object base c d rf ss m q h i b :
  busy base c d rf ss m q h -> (i, b) ∈ ptrs c ->
  exists l1 x l2, object_at i USB_DEFAULT_ALTSETTING q l1 x l2 /\ if_block x = b.
Proof.
  intros Hb Hin. pose proof (bz_ptrs _ _ _ _ _ _ _ _ Hb) as Hp. eapply Forall_forall in Hp; [|exact Hin].
  destruct Hp as (x & Hx & Hk & Eb). pose proof (bz_objects _ _ _ _ _ _ _ _ Hb) as Hf. eapply Forall_forall in Hf; [|exact Hx].
  apply list_elem_of_split in Hx as (l1 & l2 & E). exists l1, x, l2. split; [|done]. split; [done | done | | by destruct Hf].
  unfold objects_distinct in Hdist. rewrite <- (bz_views _ _ _ _ _ _ _ _ Hb), map_map in Hdist. exact Hdist.
Qed.

Lemma drop_opens i cs os :
  i ∈ cs -> Forall (fun j => j ∈ cs) os -> i ∉ os \/ (2 <= count i cs)%nat -> Forall (fun j => j ∈ drop_one i cs) os.
Proof.
  intros Hi Hos Hl. apply Forall_forall. intros j Hj. pose proof (proj1 (Forall_forall _ _) Hos j Hj) as Hin. cbn in *.
  destruct (decide (j = i)) as [->|Hji]; [|by apply elem_of_drop_other].
  destruct Hl as [|Hl]; [done|]. apply count_elem. rewrite (count_drop i i cs Hi), decide_True in Hl by done. lia.
Qed.

Lemma release_step base s c d q h i b l :
  tidy s c -> busy base c d (refs (claims s) (opens s)) (claims s) (claims s) q h ->
  pool_refCount q = Z.of_nat (length (claims s) + lost s) -> ioRefCount q = Z.of_nat (length (opens s)) ->
  i ∈ claims s -> i ∉ opens s \/ (2 <= count i (claims s))%nat ->
  ptrs c ≡ₚ (i, b) :: l -> l.*1 = drop_one i (claims s) ->
  runs (UsbReleaseInterface NO_DEVICE b) h (fun ret h' =>
    ret = HDF_SUCCESS /\ represents base (Use (drop_one i (claims s)) (opens s) (lost s)) (Client l (handles c)) h').
Proof.
  intros Ht Hb Hn Hio Hi Hlast Hp Hl. pose proof Ht as [T1 T2 T3 T4].
  destruct (claimed_object _ _ _ _ _ _ _ _ i b Hb) as (l1 & x & l2 & Ho & <-); [rewrite Hp; left|].
  pose proof Ho as [E Hk _ _]. pose proof (object_settled _ _ _ _ _ _ _ _ _ _ _ Hb E) as Hx. injection Hk as Hki Hka.
  pose proof (bz_sole _ _ _ _ _ _ _ _ Hb) as Hs.
  eapply runs_bind, sole_interface; [exact Hs | exact E|]. rewrite (st_session _ _ _ _ Hx) by (rewrite ?Hki; done). cbn [negb].
  apply runs_bind. eapply busy_find_pool; [exact Hb | apply (st_parent _ _ _ _ Hx)|]. intros h1 Hb1.
  eapply runs_bind, sole_pool; [apply (bz_sole _ _ _ _ _ _ _ _ Hb1)|]. rewrite (busy_session _ _ _ _ _ _ _ _ Hb1), (busy_device _ _ _ _ _ _ _ _ Hb1). cbn [negb].
  rewrite Hki. apply runs_bind.
  assert (runs (if negb (i =? USB_CTRL_INTERFACE_ID) then
        upd_interface (if_block x) (fun x => set_refCount (refCount x - 1) x);;
        if refCount x - 1 <=? 0 then
          ret ← RawReleaseInterface (Some d) i;
          if negb (ret =? HDF_SUCCESS) && negb (ret =? NO_DEVICE) then
            upd_interface (if_block x) (fun x => set_refCount (refCount x + 1) x);; mret ret
          else mret HDF_SUCCESS
        else mret HDF_SUCCESS else mret HDF_SUCCESS) h1 (fun ret h' => exists q',
    ret = HDF_SUCCESS /\ busy base c d (refs (drop_one i (claims s)) (opens s)) (claims s) (drop_one i (claims s)) q' h' /\
    pool_block q' = pool_block q /\ pool_refCount q' = pool_refCount q /\ ioRefCount q' = ioRefCount q)) as Hrel.
  { destruct (Z.eqb_spec i USB_CTRL_INTERFACE_ID) as [Hc|Hc]; cbn [negb]; [|by eapply release_interface].
    apply runs_ret. exists q. split; [done|]. split; [|done]. eapply busy_masks; [eapply busy_refs; [exact Hb1|]|].
    - intros k. apply refs_drop_other; [done | by right].
    - intros n Hne. rewrite drop_set; [done | congruence]. }
  eapply runs_mono; [exact Hrel|]. intros ret h2 (q' & -> & Hb2 & Epb & En & Eio). rewrite Z.eqb_refl. cbn [negb]. rewrite <- Epb.
  eapply leave_any.
  - split; [done | done | by apply drop_opens|]. apply Forall_forall. intros j Hj%elem_of_drop. by eapply Forall_forall in T4.
  - eapply busy_fewer; [exact Hb2 | intros j Hj; exact (elem_of_drop i j _ Hj) | | done]. intros p Hpl. cbn in *. rewrite Hp. by right.
  - cbn. rewrite En, Hn, (length_drop i (claims s) Hi). lia.
  - cbn. by rewrite Eio.
Qed.

(** ** Opening and closing *)
Lemma owns_shift base b l r : b ∉ base -> owns (base ∪ {[b]}) l r <-> owns base (b :: l) r.
Proof.
  intros Hb. split; intros [H1 H2 H3].
  - split; [rewrite H1; cbn; set_solver | |].
    + apply NoDup_cons. split; [|done]. intros Hin. eapply Forall_forall in H3; [|exact Hin]. set_solver.
    + constructor; [done|]. eapply Forall_impl; [exact H3|]. set_solver.
  - apply NoDup_cons in H2 as [H2 H2']. apply Forall_cons in H3 as [_ H3]. split; [rewrite H1; cbn; set_solver | done |].
    apply Forall_forall. intros x Hx. eapply Forall_forall in H3; [|exact Hx]. cbn in H3.
    rewrite not_elem_of_union, not_elem_of_singleton. split; [done|]. by intros ->.
Qed.

Lemma busy_take base c d rf ss m q h b h1 :
  busy base c d rf ss m q h -> made [b] h h1 -> ifacePoolList h1 = ifacePoolList h ->
  b ∉ base /\ busy (base ∪ {[b]}) c d rf ss m q h1.
Proof.
  intros [H1 H2 H3 H4 H5 H6 H7 H8 H9 H10] Hm Ep. pose proof Hm as [[R1 R2 R3 R4] [G1 G2 G3 G4]].
  apply Forall_inv in G4. cbn in G4. destruct H1 as [Hok E]. pose proof (ho_ram _ Hok) as Hwf.
  assert (b ∉ ram_live (ram h)) as Hnew by (intros Hin%Hwf; lia). destruct H2 as [O1 O2 O3].
  split; [rewrite O1 in Hnew; set_solver|]. split; rewrite ?R1, ?R2, ?R4; [ | |done..| | done | done].
  - split; [|by rewrite Ep]. assert (filling [] q (interfaceList q) h) as Hf by by apply sole_within.
    exact (wi_ok _ _ _ _ _ (filling_mono _ _ _ _ _ _ Hf Hm Ep)).
  - split; [rewrite G1, O1; cbn; set_solver | done |]. apply Forall_forall. intros y Hy.
    eapply Forall_forall in O3; [|exact Hy]. cbn in O3. rewrite not_elem_of_union, not_elem_of_singleton. split; [done|].
    intros ->. apply Hnew. rewrite O1. apply elem_of_union_r. by apply elem_of_list_to_set.
  - by eapply masks_quiet.
Qed.

(** The handle is put down. *)
Lemma busy_handle base c d rf ss m q h i b :
  b ∉ base -> busy (base ∪ {[b]}) c d rf ss m q h ->
  busy base (Client (ptrs c) ((i, b) :: handles c)) d rf ss m q (set_ifaceHandles (<[b := mkHandle (Some d) i]> (ifaceHandles h)) h).
Proof.
  intros Hn [H1 H2 H3 H4 H5 H6 H7 H8 H9 H10]. apply (owns_shift base b) in H2; [|done]. split; cbn; [ | | done..|].
  - by destruct H1 as [[] ?]; split; [split|].
  - eapply owns_perm; [|exact H2]. apply Permutation_middle.
  - constructor; [by rewrite lookup_insert_eq|]. apply Forall_forall. intros [j b'] Hin.
    eapply Forall_forall in H10; [|exact Hin]. cbn in H10. rewrite lookup_insert_ne; [done|]. intros <-.
    destruct H2 as [_ [Hd _]%NoDup_cons _]. apply Hd, elem_of_app. right.
    apply list_elem_of_In, in_map_iff. exists (j, b). split; [done | by apply list_elem_of_In].
Qed.

Lemma open_step base s c d q h i b :
  tidy s c -> busy base c d (refs (claims s) (opens s)) (claims s) (claims s) q h ->
  pool_refCount q = Z.of_nat (length (claims s) + lost s) -> ioRefCount q = Z.of_nat (length (opens s)) ->
  i ∈ claims s -> (i, b) ∈ ptrs c ->
  runs (UsbOpenInterface b) h (fun r h' => exists hb,
    r = Some hb /\ represents base (Use (claims s) (i :: opens s) (lost s)) (Client (ptrs c) ((i, hb) :: handles c)) h').
Proof.
  intros Ht Hb Hn Hio Hi Hp. pose proof Ht as [T1 T2 T3 T4].
  destruct (claimed_object _ _ _ _ _ _ _ _ i b Hb Hp) as (l1 & x & l2 & Ho & <-).
  pose proof Ho as [E Hk _ Hst]. pose proof (object_settled _ _ _ _ _ _ _ _ _ _ _ Hb E) as Hx. pose proof Hk as [= Hki Hka].
  pose proof (bz_sole _ _ _ _ _ _ _ _ Hb) as Hs.
  eapply runs_bind, sole_interface; [exact Hs | exact E|]. rewrite (st_session _ _ _ _ Hx) by (rewrite ?Hki; done).
  rewrite bool_decide_false by by rewrite Hst. cbn [negb orb].
  apply runs_bind. eapply busy_find_pool; [exact Hb | apply (st_parent _ _ _ _ Hx)|]. intros h1 Hb1.
  eapply runs_bind, sole_pool; [apply (bz_sole _ _ _ _ _ _ _ _ Hb1)|]. rewrite (busy_device _ _ _ _ _ _ _ _ Hb1).
  pose proof (bz_kernel _ _ _ _ _ _ _ _ Hb1) as Hkr. apply runs_bind. unfold live_handle. apply runs_bind, runs_get.
  rewrite (us_open _ _ _ (dl_usable _ _ _ _ _ DL _ _ Hkr)). apply runs_ret.
  apply runs_bind, runs_take; [apply pz_handle | done|]. intros hb h2 Hm2 Ep2.
  destruct (busy_take _ _ _ _ _ _ _ _ _ _ Hb1 Hm2 Ep2) as [Hnew Hb2].
  apply runs_bind. assert (runs (if ioRefCount q =? 0 then on_kernel (UsbIoStart (pool_block q)) else mret HDF_SUCCESS) h2
    (fun ret h' => ret = HDF_SUCCESS /\ busy (base ∪ {[hb]}) c d (refs (claims s) (opens s)) (claims s) (claims s) q h')) as Hst'.
  { destruct (ioRefCount q =? 0); [|by apply runs_ret].
    destruct (dl_start _ _ _ _ _ DL d (pool_block q) _ (bz_kernel _ _ _ _ _ _ _ _ Hb2)) as (k' & Ek & Hr).
    eapply busy_kernel; [exact Hb2 | exact Ek | done|]. by intros h' Hb'. }
  eapply runs_mono; [exact Hst'|]. intros ret h3 [-> Hb3]. rewrite Z.eqb_refl. cbn [negb]. apply runs_bind, runs_put.
  rewrite Hki. pose proof (busy_handle _ _ _ _ _ _ _ _ i hb Hnew Hb3) as Hb4. set (h4 := set_ifaceHandles _ h3) in *.
  apply runs_bind. eapply (sole_upd_interface q l1 x l2); [by apply (bz_sole _ _ _ _ _ _ _ _ Hb4) | exact E | done|].
  intros h5 Hq5 Hs5.
  destruct (busy_count _ _ d _ (refs (claims s) (i :: opens s)) _ _ q h4 i l1 x l2 _ h5 Hb4 Ho Hq5 Hs5) as [Hb5 _].
  { by rewrite (st_refs _ _ _ _ Hx), Hk, refs_open. }
  { intros k Hk'. by apply refs_open_other. }
  apply runs_bind. set (q5 := set_interfaceList _ q) in *. change (pool_block q) with (pool_block q5).
  eapply sole_upd_pool; [exact Hs5 | done|]. intros h6 Hq6 Hs6.
  pose proof (busy_io _ _ _ _ _ _ _ _ Hb5 _ _ Hq6 Hs6) as Hb6. apply runs_ret. exists hb. split; [done|].
  eapply repr_busy; [| | exact Hb6 | | ].
  - destruct (claims s) eqn:Ec; [by apply not_elem_of_nil in Hi|]. done.
  - split; cbn; [done | by rewrite T2 | by constructor | done].
  - done.
  - cbn. rewrite Hio. lia.
Qed.

(** The handle [b] is taken up again. *)
Lemma busy_unhandle base c d rf ss m q h i b l :
  busy base c d rf ss m q h -> handles c ≡ₚ (i, b) :: l ->
  b ∉ base /\ b ∉ l.*2 /\ busy (base ∪ {[b]}) (Client (ptrs c) l) d rf ss m q h.
Proof.
  intros [H1 H2 H3 H4 H5 H6 H7 H8 H9 H10] Hp.
  apply (owns_perm _ _ (b :: pool_blocks q ++ l.*2)) in H2.
  2:{ rewrite Hp. cbn -[pool_blocks]. symmetry. apply Permutation_middle. }
  assert (b ∉ base) as Hn by (destruct H2 as [_ _ [H _]%Forall_cons]; done).
  split; [done|]. split.
  { destruct H2 as [_ [Hd _]%NoDup_cons _]. intros Hin. apply Hd, elem_of_app. by right. }
  split; cbn; [done | by apply owns_shift | done..|]. rewrite Hp in H10. by apply Forall_cons in H10 as [_ H10].
Qed.

Lemma busy_close base c d rf ss m q h b (Q : unit -> Host K -> Prop) :
  b ∉ base -> b ∉ (handles c).*2 -> busy (base ∪ {[b]}) c d rf ss m q h ->
  (forall h', busy base c d rf ss m q h' -> Q tt h') ->
  runs (put_host (fun h => set_ifaceHandles (delete b (ifaceHandles h)) h);; on_ram (RawUsbMemFree b)) h Q.
Proof.
  intros Hn Hd Hb HQ. apply runs_bind, runs_put. destruct Hb as [H1 H2 H3 H4 H5 H6 H7 H8 H9 H10].
  apply (owns_shift base b) in H2; [|done]. set (h1 := set_ifaceHandles _ h).
  assert (sole q h1) as Hs1 by by destruct H1 as [[] ?]; split; [split|].
  eapply (gives_free base b (pool_blocks q ++ (handles c).*2) h1); [exact H2|].
  intros h2 [[R1 R2 R3 R4] Hl] Ep Ho. apply HQ.
  split; rewrite ?R1, ?R2, ?R4; [ | done..| | done | ].
  - eapply sole_gave; [exact Hs1 | by split | done].
  - by eapply masks_quiet.
  - apply Forall_forall. intros [j b'] Hin. eapply Forall_forall in H10; [|exact Hin]. cbn. rewrite lookup_delete_ne; [done|].
    intros <-. apply Hd, list_elem_of_In, in_map_iff. exists (j, b). split; [done | by apply list_elem_of_In].
Qed.

Lemma refs_close_other i cs os k : i ∈ os -> k <> (i, USB_DEFAULT_ALTSETTING) -> refs cs (drop_one i os) k = refs cs os k.
Proof.
  intros Hi Hk. rewrite (refs_count cs cs os (i :: drop_one i os) k); [by rewrite refs_open_other | done |].
  intros j. by apply count_swap.
Qed.
Lemma refs_close i cs os :
  i ∈ os -> refs cs (drop_one i os) (i, USB_DEFAULT_ALTSETTING) = refs cs os (i, USB_DEFAULT_ALTSETTING) - 1.
Proof.
  intros Hi. rewrite (refs_count cs cs os (i :: drop_one i os)); [rewrite refs_open; lia | done |].
  intros j. by apply count_swap.
Qed.

Lemma claimable_object base c d rf ss m q h i :
  busy base c d rf ss m q h -> i ∈ (ptrs c).*1 -> is_Some (object_of t (i, USB_DEFAULT_ALTSETTING)).
Proof.
  intros Hb Hi. apply list_elem_of_In, in_map_iff in Hi as ([j b] & Ej & Hin%list_elem_of_In). cbn in Ej. subst j.
  destruct (object_of t (i, USB_DEFAULT_ALTSETTING)) eqn:E; [by eexists|].
  destruct (claimed_object _ _ _ _ _ _ _ _ i b Hb Hin) as (l1 & x & l2 & Ho & _).
  exfalso. eapply busy_absent; [exact Hb | exact E | | apply (oa_key _ _ _ _ _ _ Ho)].
  rewrite (oa_split _ _ _ _ _ _ Ho). apply elem_of_app. right. left.
Qed.

Lemma close_step base s c d q h i b l :
  tidy s c -> busy base c d (refs (claims s) (opens s)) (claims s) (claims s) q h ->
  pool_refCount q = Z.of_nat (length (claims s) + lost s) -> ioRefCount q = Z.of_nat (length (opens s)) ->
  i ∈ opens s -> handles c ≡ₚ (i, b) :: l -> l.*1 = drop_one i (opens s) -> in_use s = true ->
  runs (UsbCloseInterface b) h (fun ret h' =>
    ret = HDF_SUCCESS /\ represents base (Use (claims s) (drop_one i (opens s)) (lost s)) (Client (ptrs c) l) h').
Proof.
  intros Ht Hb Hn Hio Hi Hp Hl Hu. pose proof Ht as [T1 T2 T3 T4].
  assert (i ∈ claims s) as Hic by by (eapply Forall_forall in T3).
  destruct (busy_find _ _ _ _ _ _ _ _ i USB_DEFAULT_ALTSETTING Hb) as (l1 & x & l2 & Ho & _ & Hx).
  { eapply claimable_object; [exact Hb|]. by rewrite T1. }
  pose proof Ho as [E Hk _ Hst].
  apply runs_bind. eapply busy_entity; [exact Hb | rewrite Hp; left|]. cbn [devHandle handle_interfaceIndex].
  apply runs_bind. eapply busy_handle_pool; [exact Hb|]. apply runs_bind.
  eapply (sole_find_object i USB_DEFAULT_ALTSETTING); [apply (bz_sole _ _ _ _ _ _ _ _ Hb) | exact Ho | |].
  { intros y. by eapply busy_matches. }
  destruct (busy_unhandle _ _ _ _ _ _ _ _ _ _ _ Hb Hp) as (Hnb & Hnl & Hb0).
  apply runs_bind. eapply sole_upd_pool; [apply (bz_sole _ _ _ _ _ _ _ _ Hb0) | done|]. intros h1 Hq1 Hs1.
  pose proof (busy_io _ _ _ _ _ _ _ _ Hb0 _ _ Hq1 Hs1) as Hb1. set (q1 := set_ioRefCount _ q) in *.
  change (pool_block q) with (pool_block q1). eapply runs_bind, sole_pool; [exact Hs1|]. apply runs_bind.
  assert (runs (if ioRefCount q1 =? 0 then on_kernel (UsbIoStop (pool_block q1)) else mret HDF_SUCCESS) h1
    (fun ret h' => ret = HDF_SUCCESS /\
       busy (base ∪ {[b]}) (Client (ptrs c) l) d (refs (claims s) (opens s)) (claims s) (claims s) q1 h')) as Hstop.
  { destruct (ioRefCount q1 =? 0); [|by apply runs_ret].
    destruct (dl_stop _ _ _ _ _ DL d (pool_block q1) _ (bz_kernel _ _ _ _ _ _ _ _ Hb1)) as (k' & Ek & Hr).
    eapply busy_kernel; [exact Hb1 | exact Ek | done|]. by intros h' Hb'. }
  eapply runs_mono; [exact Hstop|]. intros ret h2 [-> Hb2]. rewrite Z.eqb_refl. cbn [negb].
  assert (object_at i USB_DEFAULT_ALTSETTING q1 l1 x l2) as Ho1 by by destruct Ho.
  apply runs_bind. eapply (sole_upd_interface q1 l1 x l2); [by apply (bz_sole _ _ _ _ _ _ _ _ Hb2) | exact E | done|].
  intros h3 Hq3 Hs3.
  destruct (busy_count _ _ d _ (refs (claims s) (drop_one i (opens s))) _ _ q1 h2 i l1 x l2 _ h3 Hb2 Ho1 Hq3 Hs3) as [Hb3 _].
  { by rewrite (st_refs _ _ _ _ Hx), Hk, refs_close. }
  { intros k Hk'. by apply refs_close_other. }
  set (q3 := set_interfaceList _ q1) in *.
  assert (forall (m1 m2 : Prog (Host K) unit) (Q : Z -> Host K -> Prop), runs (m1;; m2) h3 (fun _ h' => Q HDF_SUCCESS h') ->
    runs (m1;; m2;; mret HDF_SUCCESS) h3 Q) as Hseq.
  { intros m1 m2 Q. unfold runs, mbind, P_bind. destruct (m1 h3) as [[u h4]| |]; [|done..]. by destruct (m2 h4) as [[u' h5]| |]. }
  apply Hseq. eapply busy_close; [exact Hnb | | exact Hb3 |]; [exact Hnl|]. intros h4 Hb4. split; [done|].
  eapply repr_busy; [exact Hu | | exact Hb4 | exact Hn |].
  - split; cbn; [done | done | | done]. apply Forall_forall. intros j Hj%elem_of_drop. by eapply Forall_forall in T3.
  - cbn. rewrite Hio, (length_drop i (opens s) Hi). lia.
Qed.

(** ** Pipes *)
Lemma find_map {A B} (f : B -> bool) (g : A -> B) l : List.find f (map g l) = option_map g (List.find (fun a => f (g a)) l).
Proof. induction l as [|a l IH]; [done|]. cbn. by destruct (f (g a)). Qed.

Lemma info_step base c d rf ss m q h i a id b :
  busy base c d rf ss m q h -> (i, b) ∈ handles c ->
  runs (UsbGetPipeInfo b a id) h (fun '(ret, n) h' =>
    Info ret n = match pipe_of t (i, a) id with Some n => Info HDF_SUCCESS (Some n) | None => Info HDF_ERR_BAD_FD None end /\ h' = h).
Proof.
  intros Hb Hin. apply runs_bind. eapply busy_entity; [exact Hb | exact Hin|]. cbn [devHandle handle_interfaceIndex].
  apply runs_bind. eapply busy_handle_pool; [exact Hb|]. apply runs_bind. unfold pipe_of.
  destruct (object_of t (i, a)) as [v|] eqn:Ev.
  - destruct (busy_find _ _ _ _ _ _ _ _ i a Hb) as (l1 & x & l2 & Ho & Ex & Hx); [by rewrite Ev|].
    rewrite Ev in Ex. injection Ex as ->. eapply (sole_find_object i a); [apply (bz_sole _ _ _ _ _ _ _ _ Hb) | exact Ho | |].
    { intros y _. apply alt_matches. }
    apply runs_bind. eapply runs_bind, sole_interface; [apply (bz_sole _ _ _ _ _ _ _ _ Hb) | apply (oa_split _ _ _ _ _ _ Ho)|].
    rewrite bool_decide_false by by rewrite (oa_status _ _ _ _ _ _ Ho). apply runs_ret. cbn [view_object ov_pipes].
    rewrite find_map. by destruct (List.find _ (pipeList x)).
  - eapply sole_find_none; [apply (bz_sole _ _ _ _ _ _ _ _ Hb) | | by apply runs_ret].
    intros y Hy. rewrite alt_matches, bool_decide_false; [done|]. by eapply busy_absent.
Qed.

(** ** Every request *)
Lemma serve_step base r s s' c h a :
  represents base s c h -> use_step t r s = Some (a, s') ->
  runs (serve NO_DEVICE fuel bus addr r c) h (fun '(a', c') h' => a' = a /\ represents base s' c' h').
Proof.
  intros Hr Hu. destruct r as [i|i|i|i|i alt id]; cbn [serve].
  - apply runs_bind. eapply runs_mono; [by apply (claim_step base s c h i)|].
    intros p h' (a1 & s1 & E & Hp). rewrite Hu in E. injection E as <- <-. apply runs_ret.
    destruct p as [b|]; destruct Hp as [-> Hp]; done.
  - cbn [use_step] in Hu. destruct (bool_decide (i ∈ claims s)) eqn:Hi; [apply bool_decide_eq_true in Hi|done].
    destruct (_ || _) eqn:Hl; [|done]. injection Hu as <- <-.
    destruct Hr as [Hn [T1 T2 T3 T4] _|d q Hn Ht Hb Hc Hio].
    { unfold in_use in Hn. apply Nat.ltb_ge in Hn. destruct (claims s); [by apply not_elem_of_nil in Hi | cbn in Hn; lia]. }
    destruct (take_one_elem i (ptrs c)) as (b & l & -> & Hp & El); [by rewrite (ti_claims _ _ Ht)|].
    apply runs_bind. eapply runs_mono; [eapply release_step; [exact Ht | exact Hb | done | done | done | | exact Hp |]|].
    + apply orb_true_iff in Hl as [?%bool_decide_eq_true|?%Nat.leb_le]; auto.
    + by rewrite El, (ti_claims _ _ Ht).
    + intros ret h' [-> Hr']. by apply runs_ret.
  - cbn [use_step] in Hu. destruct (bool_decide (i ∈ claims s)) eqn:Hi; [apply bool_decide_eq_true in Hi|done]. injection Hu as <- <-.
    destruct Hr as [Hn _ _|d q Hn Ht Hb Hc Hio].
    { unfold in_use in Hn. apply Nat.ltb_ge in Hn. destruct (claims s); [by apply not_elem_of_nil in Hi | cbn in Hn; lia]. }
    destruct (take_one_elem i (ptrs c)) as (b & l & -> & Hp & El); [by rewrite (ti_claims _ _ Ht)|].
    apply runs_bind. eapply runs_mono; [eapply open_step; [exact Ht | exact Hb | done | done | done | rewrite Hp; left]|].
    intros p h' (hb & -> & Hr'). by apply runs_ret.
  - cbn [use_step] in Hu. destruct (bool_decide (i ∈ opens s)) eqn:Hi; [apply bool_decide_eq_true in Hi|done]. injection Hu as <- <-.
    destruct Hr as [Hn [T1 T2 T3 T4] _|d q Hn Ht Hb Hc Hio].
    { eapply Forall_forall in T3; [|exact Hi]. unfold in_use in Hn. apply Nat.ltb_ge in Hn.
      destruct (claims s); [by apply not_elem_of_nil in T3 | cbn in Hn; lia]. }
    destruct (take_one_elem i (handles c)) as (b & l & -> & Hp & El); [by rewrite (ti_opens _ _ Ht)|].
    apply runs_bind. eapply runs_mono; [eapply close_step; [exact Ht | exact Hb | done | done | done | exact Hp | | done]|].
    + by rewrite El, (ti_opens _ _ Ht).
    + intros ret h' [-> Hr']. by apply runs_ret.
  - cbn [use_step] in Hu. destruct (bool_decide (i ∈ opens s)) eqn:Hi; [apply bool_decide_eq_true in Hi|done]. injection Hu as <- <-.
    destruct Hr as [Hn [T1 T2 T3 T4] _|d q Hn Ht Hb Hc Hio].
    { eapply Forall_forall in T3; [|exact Hi]. unfold in_use in Hn. apply Nat.ltb_ge in Hn.
      destruct (claims s); [by apply not_elem_of_nil in T3 | cbn in Hn; lia]. }
    destruct (take_one_elem i (handles c)) as (b & l & -> & Hp & El); [by rewrite (ti_opens _ _ Ht)|].
    apply runs_bind. eapply runs_mono; [eapply (info_step _ _ _ _ _ _ _ _ i alt id b); [exact Hb | rewrite Hp; left]|].
    intros [ret n] h' [E ->]. apply runs_ret. split; [done|]. by eapply repr_busy.
Qed.

Lemma serve_steps base rs s s' c h l :
  represents base s c h -> use_steps t rs s = Some (l, s') ->
  runs (serve_all NO_DEVICE fuel bus addr rs c) h (fun '(l', c') h' => l' = l /\ represents base s' c' h').
Proof.
  revert s c h l. induction rs as [|r rs IH]; intros s c h l Hr Hu; cbn [use_steps serve_all] in *.
  { injection Hu as <- <-. by apply runs_ret. }
  destruct (use_step t r s) as [[a s1]|] eqn:E1; [|done]. destruct (use_steps t rs s1) as [[l1 s2]|] eqn:E2; [|done].
  injection Hu as <- <-. apply runs_bind. eapply runs_mono; [by eapply serve_step|]. intros [a' c1] h1 [-> Hr1].
  apply runs_bind. eapply runs_mono; [by eapply IH|]. intros [l' c2] h2 [-> Hr2]. by apply runs_ret.
Qed.
End steps.
