(* ===== verification/UsbPoolRun.v ===== *)
(** * UsbPoolRun: using the interfaces of a device

    What opening a device makes, that every permitted sequence of requests is
    answered as the abstract use says, what is left when nothing is used any
    more, and what a refused claim costs. *)
From S2P Require Import Prelude Hdf Arrays UsbDesc UsbDescSpec UsbDescFacts UsbDescConfig UsbDescWhole UsbDescRun UsbDescRam UsbPool UsbPoolFacts UsbPoolOpen UsbPoolRules UsbPoolUse UsbPoolSteps.
Open Scope Z_scope.

(** The start: no pool, the device plugged in and closed. *)
Record session_start {K} (plugged : K -> Prop) (h : Host K) : Prop := SessionStart {
  ss_pools : ifacePoolList h = [];
  ss_claimed : claimedInterfaces h = ∅;
  ss_wf : ram_wf (ram h);
  ss_plugged : plugged (kernel h);
}.
Definition no_client : client := Client [] [].

Section run.
Context {HS : HdfStatus} {HL : HdfStatusLaws} {US : UsbStatus} {UL : UsbStatusLaws} {RA : RamAlloc} {SZ : UsbSizes} {SL : UsbSizesLaws}
  {PZ : PoolSizes} {PL : PoolSizesLaws} {K : Type} {HA : HostAdapter K}.
Implicit Types (h : Host K) (t : config_tree).

Lemma start_idle plugged h : session_start plugged h -> idle plugged (ram_live (ram h)) h.
Proof.
  intros [H1 H2 H3 H4]. split; [done..|]. intros e n _. rewrite H2, lookup_empty. cbn.
  rewrite Z.bits_0, bool_decide_false; [done|]. intros (_ & Hin & _). by apply not_elem_of_nil in Hin.
Qed.

Lemma start_represents t bus addr plugged running h :
  session_start plugged h -> represents bus addr t plugged running (ram_live (ram h)) unused_device no_client h.
Proof. intros Hs%start_idle. apply repr_idle; [done | by split; constructor | done]. Qed.

(** C12: reading the descriptors of an opened device adds one pool, whose objects
    are those the configuration means: the control interface, and for every
    alternate setting an object with a pipe for every endpoint, in use by
    nobody; it takes the memory of these objects and no more. *)
Theorem device_objects fuel d t bus addr h :
  ram_granted -> host_ok h -> usable d t (kernel h) -> (length (config_bytes t) < fuel)%nat ->
  exists q h', UsbProtocalParseDescriptor fuel d bus addr h = Done (HDF_SUCCESS, h') /\
    ifacePoolList h' = ifacePoolList h ++ [q] /\ busNum q = bus /\ devAddr q = addr /\ device q = Some d /\
    map view_object (interfaceList q) = mean_device (mean_config t) /\ Forall (unused (pool_objectId q)) (interfaceList q) /\
    ram_live (ram h') = ram_live (ram h) ∪ list_to_set (pool_blocks q).
Proof.
  intros Hgr Hok Hu Hf. pose proof (UsbProtocalParseDescriptor_ok fuel d t bus addr h Hgr Hok Hu Hf) as H.
  apply runs_inv in H as (ret & h' & E & q & -> & Ep & [(b & id & Eq) [Hv Hun]] & _ & [Hg _ _ _] & _). exists q, h'.
  split; [exact E|]. split; [exact Ep|]. rewrite Eq at 1 2 3. done.
Qed.

(** C11: from the start every sequence of requests that keeps the rules is
    answered as the abstract use of the device says: claims are granted for the
    interfaces the configuration has, pipes have the properties of their
    endpoints. *)
Theorem client_served NO_DEVICE fuel bus addr t plugged running rs l s' h :
  device_laws bus addr t plugged running -> objects_distinct t -> ram_granted -> (length (config_bytes t) < fuel)%nat ->
  session_start plugged h -> use_steps t rs unused_device = Some (l, s') ->
  exists c' h', serve_all NO_DEVICE fuel bus addr rs no_client h = Done ((l, c'), h') /\
    (ptrs c').*1 = claims s' /\ (handles c').*1 = opens s'.
Proof.
  intros DL Hd Hgr Hf Hs Hu.
  pose proof (serve_steps NO_DEVICE fuel bus addr t _ _ DL Hgr Hf Hd _ _ _ _ _ _ _ (start_represents t bus addr _ running _ Hs) Hu) as H.
  apply runs_inv in H as ([l' c'] & h' & E & -> & Hr). exists c', h'. split; [exact E|].
  by destruct Hr as [_ [] _|? ? _ [] _ _ _].
Qed.

(** C13: when at the end every claim was released, every handle closed and no
    reference lost, all memory is given back, the session has no pool and the
    device is closed. *)
Theorem unused_device_closed NO_DEVICE fuel bus addr t plugged running rs l h :
  device_laws bus addr t plugged running -> objects_distinct t -> ram_granted -> (length (config_bytes t) < fuel)%nat ->
  session_start plugged h -> use_steps t rs unused_device = Some (l, unused_device) ->
  exists h', serve_all NO_DEVICE fuel bus addr rs no_client h = Done ((l, no_client), h') /\
    ram_live (ram h') = ram_live (ram h) /\ ifacePoolList h' = [] /\ plugged (kernel h').
Proof.
  intros DL Hd Hgr Hf Hs Hu.
  pose proof (serve_steps NO_DEVICE fuel bus addr t _ _ DL Hgr Hf Hd _ _ _ _ _ _ _ (start_represents t bus addr _ running _ Hs) Hu) as H.
  apply runs_inv in H as ([l' [ps hs]] & h' & E & -> & Hr). destruct Hr as [_ [T1 T2 _ _] [I1 I2 I3 I4 I5]|]; [|done].
  cbn in T1, T2. destruct ps, hs; [|done..]. by exists h'.
Qed.

(** C29: a claim of an interface that an open device does not have loses a
    reference to the device: whatever the client does afterwards, the pool and
    its memory stay, also with no claim left, and the device is not closed. *)
Theorem absent_interface_keeps_device NO_DEVICE fuel bus addr t plugged running rs1 i rs2 l1 s1 l2 s2 h :
  device_laws bus addr t plugged running -> objects_distinct t -> ram_granted -> (length (config_bytes t) < fuel)%nat ->
  session_start plugged h -> use_steps t rs1 unused_device = Some (l1, s1) -> in_use s1 = true ->
  object_of t (i, USB_DEFAULT_ALTSETTING) = None -> use_steps t (Claim i :: rs2) s1 = Some (l2, s2) ->
  exists c' h' q d, serve_all NO_DEVICE fuel bus addr (rs1 ++ Claim i :: rs2) no_client h = Done ((l1 ++ l2, c'), h') /\
    ifacePoolList h' = [q] /\ Z.of_nat (length (claims s2)) < pool_refCount q /\ pool_block q ∈ ram_live (ram h') /\
    device q = Some d /\ running d (kernel h').
Proof.
  intros DL Hd Hgr Hf Hs Hu1 Hin Habs Hu2.
  assert (1 <= lost s2)%nat as Hlost.
  { cbn [use_steps use_step] in Hu2. rewrite Habs, Hin in Hu2.
    destruct (use_steps t rs2 _) as [[l s]|] eqn:E; [|done]. injection Hu2 as _ <-.
    apply use_steps_lost in E. cbn in E. lia. }
  pose proof (use_steps_app t rs1 _ _ _ _ _ _ Hu1 Hu2) as Hu.
  pose proof (serve_steps NO_DEVICE fuel bus addr t _ _ DL Hgr Hf Hd _ _ _ _ _ _ _ (start_represents t bus addr _ running _ Hs) Hu) as H.
  apply runs_inv in H as ([l' c'] & h' & E & -> & Hr). destruct Hr as [Hn _ _|d q _ _ Hb Hc _].
  { unfold in_use in Hn. apply Nat.ltb_ge in Hn. lia. }
  exists c', h', q, d. split; [exact E|]. split; [apply (so_pools _ _ (bz_sole _ _ _ _ _ _ _ _ _ _ _ _ Hb))|].
  split; [lia|]. split; [|split; [by eapply busy_device | by eapply bz_kernel]].
  rewrite (ow_live _ _ _ (bz_owns _ _ _ _ _ _ _ _ _ _ _ _ Hb)). cbn. set_solver.
Qed.
End run.
