(* ===== verification/UsbPoolSelect.v ===== *)
(** * UsbPoolSelect: selecting a setting and closing the interface

    Selecting an alternate setting makes its object the current one of the
    interface; closing an interface then takes the reference from this object,
    not from the one that was opened. *)
From S2P Require Import Prelude Hdf Arrays UsbDesc UsbDescSpec UsbDescFacts UsbDescConfig UsbDescRam UsbPool UsbPoolFacts UsbPoolOpen UsbPoolRules UsbPoolUse UsbPoolSteps UsbPoolRun.
Open Scope Z_scope.

Section select.
Context {HS : HdfStatus} {HL : HdfStatusLaws} {US : UsbStatus} {UL : UsbStatusLaws} {RA : RamAlloc} {SZ : UsbSizes} {SL : UsbSizesLaws}
  {PZ : PoolSizes} {PL : PoolSizesLaws} {K : Type} {HA : HostAdapter K}.
Context (NO_DEVICE : Z) (fuel : nat) (bus addr : Z) (t : config_tree) (plugged : K -> Prop) (running : nat -> K -> Prop).
Context (DL : device_laws bus addr t plugged running) (Hdist : objects_distinct t).
Implicit Types (h : Host K) (q : UsbInterfacePool) (x : UsbSdkInterface).
Abbreviation busy := (busy bus addr t running).

Definition select_object (i a : Z) x : UsbSdkInterface :=
  if interfaceIndex (info x) =? i then set_info (set_curAltSetting a (info x)) x else x.
Lemma select_key i a x : object_key (select_object i a x) = object_key x.
Proof. unfold select_object. by destruct (_ =? _). Qed.
Lemma select_blocks i a x : sdk_blocks (select_object i a x) = sdk_blocks x.
Proof. unfold select_object. by destruct (_ =? _). Qed.
Definition key_refs x : (Z * Z) * Z := (object_key x, refCount x).
Lemma select_key_refs i a x : key_refs (select_object i a x) = key_refs x.
Proof. unfold select_object. by destruct (_ =? _). Qed.
Lemma select_status i a x : status (select_object i a x) = status x.
Proof. unfold select_object. by destruct (_ =? _). Qed.

(** The query by number then finds the object of the selected setting. *)
Lemma select_matches i a x :
  interface_matches (USB_INTERFACE_INTERFACE_INDEX_TYPE i) (select_object i a x) = bool_decide (object_key (select_object i a x) = (i, a)).
Proof.
  rewrite select_key. unfold select_object, object_key. cbn. apply Bool.eq_iff_eq_true. rewrite andb_true_iff, bool_decide_eq_true.
  destruct (Z.eqb_spec (interfaceIndex (info x)) i) as [Hi|Hi]; cbn; rewrite !Z.eqb_eq.
  - split; [intros [_ ->]; congruence | intros [= ? ?]; split; congruence].
  - split; [intros [? _]; congruence | intros [= ? ?]; congruence].
Qed.

Lemma select_pool_blocks i a q : pool_blocks (select_setting i a q) = pool_blocks q.
Proof.
  unfold pool_blocks, select_setting. cbn. f_equal. f_equal. rewrite map_map. apply map_ext. intros x. apply (select_blocks i a).
Qed.

(** The object [(i, a)] among the selected ones. *)
Lemma selected_at i a q l1 x l2 :
  object_at i a q l1 x l2 ->
  object_at i a (select_setting i a q) (map (select_object i a) l1) (select_object i a x) (map (select_object i a) l2).
Proof.
  intros [E Hk Hd Hst]. split.
  - unfold select_setting. cbn. by rewrite E, map_app.
  - by rewrite select_key.
  - unfold select_setting. cbn. rewrite map_map. erewrite map_ext; [exact Hd|]. intros y. apply (select_key i a).
  - by rewrite select_status.
Qed.

(** A state where the setting [a] of the interface [i] is current and the handle
    [b] still open: the pool is [q]. *)
Record chosen (i a : Z) (b d : nat) q h : Prop := Chosen {
  ch_sole : sole q h;
  ch_live : b ∈ ram_live (ram h);
  ch_handle : ifaceHandles h !! b = Some (mkHandle (Some d) i);
  ch_private : privateObject h !! d = Some (pool_block q);
  ch_running : running d (kernel h);
  ch_matches : forall y, y ∈ interfaceList q ->
    interface_matches (USB_INTERFACE_INTERFACE_INDEX_TYPE i) y = bool_decide (object_key y = (i, a));
}.

Lemma on_kernel_ok f k' h (Q : Z -> Host K -> Prop) :
  f (kernel h) = (HDF_SUCCESS, k') -> Q HDF_SUCCESS (set_kernel k' h) -> runs (on_kernel f) h Q.
Proof. intros E HQ. unfold runs, on_kernel. by rewrite E. Qed.

Lemma chosen_quiet i a b d q q' h h' :
  chosen i a b d q h -> quiet h h' -> sole q' h' -> pool_block q' = pool_block q ->
  (forall y, y ∈ interfaceList q' -> exists x, x ∈ interfaceList q /\ object_key y = object_key x /\ info y = info x) ->
  chosen i a b d q' h'.
Proof.
  intros [H1 H2 H3 H4 H5 H6] [[R1 R2 R3 R4] Er] Hs Hb Hm. split; rewrite ?R1, ?R2, ?R4, ?Er, ?Hb; [done..|].
  intros y Hy. destruct (Hm y Hy) as (x & Hx & Ek & Ei). rewrite Ek, <- H6 by done.
  pose proof Ek as [= E1 E2]. cbn. by rewrite Ei, E2.
Qed.

Lemma map_selected {B} (f : UsbSdkInterface -> B) i a l1 x x' l2 :
  (forall j b y, f (select_object j b y) = f y) -> f x' = f x ->
  map f (map (select_object i a) l1 ++ x' :: map (select_object i a) l2) = map f (l1 ++ x :: l2).
Proof.
  intros Hf Hx. rewrite !map_app. cbn. rewrite !map_map, Hx. f_equal; [by apply map_ext|]. f_equal. by apply map_ext.
Qed.

Lemma select_ok base c d rf ss m q h i a b :
  busy base c d rf ss m q h -> (i, b) ∈ handles c -> is_Some (object_of t (i, a)) ->
  runs (UsbSelectInterfaceSetting b a) h (fun '(ret, p) h' => exists q' l1 x l2,
    ret = HDF_SUCCESS /\ object_at i a q' l1 x l2 /\ p = Some (if_block x) /\ chosen i a b d q' h' /\
    map key_refs (interfaceList q') = map key_refs (interfaceList q)).
Proof.
  intros Hb Hin Hobj. destruct (busy_find bus addr t running Hdist _ _ _ _ _ _ _ _ i a Hb Hobj) as (l1 & x & l2 & Ho & _ & Hx).
  apply runs_bind. eapply busy_entity; [exact Hb | exact Hin|]. cbn [devHandle handle_interfaceIndex].
  apply runs_bind. eapply busy_handle_pool; [exact DL | exact Hb|]. apply runs_bind. unfold RawSetInterfaceAltsetting, live_handle.
  pose proof (bz_kernel _ _ _ _ _ _ _ _ _ _ _ _ Hb) as Hk. apply runs_bind, runs_bind, runs_get.
  rewrite (us_open _ _ _ (dl_usable _ _ _ _ _ DL _ _ Hk)). apply runs_ret.
  destruct (dl_select _ _ _ _ _ DL d i a _ Hk) as (k' & Ek & Hr). eapply on_kernel_ok; [exact Ek|]. rewrite Z.eqb_refl. cbn [negb].
  set (h1 := set_kernel k' h). pose proof (bz_sole _ _ _ _ _ _ _ _ _ _ _ _ Hb) as Hs.
  assert (sole q h1) as Hs1 by by destruct Hs as [[] ?]; split; [split|].
  apply runs_bind. eapply sole_upd_pool; [exact Hs1 | apply select_pool_blocks|]. intros h2 Hq2 Hs2.
  pose proof (selected_at _ _ _ _ _ _ Ho) as Ho2. set (q2 := select_setting i a q) in *.
  assert (chosen i a b d q2 h2) as Hc2.
  { destruct Hq2 as [[R1 R2 R3 R4] Er]. pose proof (bz_handles _ _ _ _ _ _ _ _ _ _ _ _ Hb) as Hh. eapply Forall_forall in Hh; [|exact Hin].
    split; rewrite ?R1, ?R2, ?R4, ?Er; [done | | exact Hh | exact (bz_private _ _ _ _ _ _ _ _ _ _ _ _ Hb) | done |].
    - cbn. rewrite (ow_live _ _ _ (bz_owns _ _ _ _ _ _ _ _ _ _ _ _ Hb)). apply elem_of_union_r, elem_of_list_to_set, elem_of_app.
      right. apply list_elem_of_In, in_map_iff. exists (i, b). split; [done | by apply list_elem_of_In].
    - intros y Hy. apply list_elem_of_In, in_map_iff in Hy as (z & <- & _). apply (select_matches i a). }
  apply runs_bind. change (pool_block q) with (pool_block q2).
  eapply (sole_find_object i a); [exact Hs2 | exact Ho2 | exact (ch_matches _ _ _ _ _ _ Hc2)|].
  eapply runs_bind, sole_pool; [exact Hs2|]. apply runs_bind.
  set (x2 := select_object i a x) in *. pose proof (oa_split _ _ _ _ _ _ Ho2) as E2.
  eapply (sole_upd_interface q2 _ x2); [exact Hs2 | exact E2 | done|]. intros h3 Hq3 Hs3. apply runs_ret.
  eexists _, _, _, _. split; [done|]. split; [by apply (object_at_set _ _ _ _ _ _ (set_if_session (pool_session q2)) Ho2)|].
  split; [done|]. split.
  - eapply chosen_quiet; [exact Hc2 | done | exact Hs3 | done|]. intros y Hy. cbn in Hy. rewrite E2.
    apply elem_of_app in Hy as [Hy|[->|Hy]%elem_of_cons].
    + exists y. split; [apply elem_of_app; by left | done].
    + exists x2. split; [apply elem_of_app; right; left | done].
    + exists y. split; [apply elem_of_app; right; by right | done].
  - rewrite (oa_split _ _ _ _ _ _ Ho). apply (map_selected key_refs i a); [apply select_key_refs | apply (select_key_refs i a x)].
Qed.

(** Closing takes the reference from the object of the setting that is current. *)
Lemma close_chosen i a b d q l1 x l2 h :
  chosen i a b d q h -> object_at i a q l1 x l2 ->
  runs (UsbCloseInterface b) h (fun ret h' => exists q',
    ret = HDF_SUCCESS /\ ifacePoolList h' = [q'] /\ interfaceList q' = l1 ++ set_refCount (refCount x - 1) x :: l2 /\
    ioRefCount q' = ioRefCount q - 1).
Proof.
  intros [H1 H2 H3 H4 H5 H6] Ho. pose proof (oa_split _ _ _ _ _ _ Ho) as E.
  apply runs_bind, runs_bind, runs_get. rewrite H3. apply runs_ret. cbn [devHandle handle_interfaceIndex].
  apply runs_bind. unfold handle_pool, live_handle. apply runs_bind, runs_bind, runs_get.
  rewrite (us_open _ _ _ (dl_usable _ _ _ _ _ DL _ _ H5)). apply runs_ret, runs_get. rewrite H4.
  apply runs_bind. eapply (sole_find_object i a); [exact H1 | exact Ho | exact H6|].
  apply runs_bind. eapply sole_upd_pool; [exact H1 | done|]. intros h1 [[R1 R2 R3 R4] Er] Hs1. set (q1 := set_ioRefCount _ q) in *.
  change (pool_block q) with (pool_block q1). eapply runs_bind, sole_pool; [exact Hs1|]. apply runs_bind.
  assert (runs (if ioRefCount q1 =? 0 then on_kernel (UsbIoStop (pool_block q1)) else mret HDF_SUCCESS) h1
    (fun ret h' => ret = HDF_SUCCESS /\ sole q1 h' /\ ram h' = ram h)) as Hstop.
  { destruct (ioRefCount q1 =? 0); [|by apply runs_ret]. rewrite <- R4 in H5.
    destruct (dl_stop _ _ _ _ _ DL d (pool_block q1) _ H5) as (k' & Ek & Hr). eapply on_kernel_ok; [exact Ek|].
    split; [done|]. split; [|done]. by destruct Hs1 as [[] ?]; split; [split|]. }
  eapply runs_mono; [exact Hstop|]. intros ret h2 (-> & Hs2 & Er2). rewrite Z.eqb_refl. cbn [negb].
  apply runs_bind. eapply (sole_upd_interface q1 l1 x l2); [exact Hs2 | exact E | done|].
  intros h3 [_ Er3] Hs3. apply runs_bind, runs_put, runs_bind. apply runs_on_ram; [apply later_free|].
  apply runs_free; [cbn; rewrite Er3, Er2; exact H2|]. intros _. apply runs_ret. eexists. split; [done|].
  split; [exact (so_pools _ _ Hs3) | done].
Qed.

Lemma key_refs_elem (l l' : list UsbSdkInterface) x :
  map key_refs l = map key_refs l' -> x ∈ l -> exists y, y ∈ l' /\ object_key y = object_key x /\ refCount y = refCount x.
Proof.
  intros E Hx. assert (key_refs x ∈ map key_refs l') as Hin by (rewrite <- E; by apply list_elem_of_In, in_map, list_elem_of_In).
  apply list_elem_of_In, in_map_iff in Hin as (y & Ey & Hy). exists y. split; [by apply list_elem_of_In|].
  split; [exact (f_equal fst Ey) | exact (f_equal snd Ey)].
Qed.
Lemma object_in i a q l1 x l2 : object_at i a q l1 x l2 -> x ∈ interfaceList q.
Proof. intros [-> _ _ _]. apply elem_of_app. right. left. Qed.

(** When the client selects another setting of an interface it has opened and
    then closes the interface, the reference of the handle stays with the object
    it was opened by, and that of the selected setting falls below zero. *)
Lemma close_after_select rs l s c h h1 i a b :
  ram_granted -> (length (config_bytes t) < fuel)%nat -> session_start plugged h ->
  use_steps t rs unused_device = Some (l, s) -> serve_all NO_DEVICE fuel bus addr rs no_client h = Done ((l, c), h1) ->
  (i, b) ∈ handles c -> a <> USB_DEFAULT_ALTSETTING -> is_Some (object_of t (i, a)) ->
  exists h2 q x0 xa, ('(_, _) ← UsbSelectInterfaceSetting b a; UsbCloseInterface b) h1 = Done (HDF_SUCCESS, h2) /\
    ifacePoolList h2 = [q] /\ x0 ∈ interfaceList q /\ xa ∈ interfaceList q /\
    object_key x0 = (i, USB_DEFAULT_ALTSETTING) /\ refCount x0 = refs (claims s) (opens s) (i, USB_DEFAULT_ALTSETTING) /\
    object_key xa = (i, a) /\ refCount xa = -1.
Proof.
  intros Hgr Hf Hs Hu E Hin Ha Hobj.
  pose proof (serve_steps NO_DEVICE fuel bus addr t _ _ DL Hgr Hf Hdist _ _ _ _ _ _ _ (start_represents t bus addr _ running _ Hs) Hu) as H.
  unfold runs in H. rewrite E in H. destruct H as [_ Hr]. destruct Hr as [Hn [T1 T2 T3 _] _|d q _ [T1 T2 T3 _] Hb _ _].
  { exfalso. assert (i ∈ opens s) as Hi.
    { rewrite <- T2. apply list_elem_of_In, in_map_iff. exists (i, b). split; [done | by apply list_elem_of_In]. }
    eapply Forall_forall in T3; [|exact Hi]. unfold in_use in Hn. apply Nat.ltb_ge in Hn.
    destruct (claims s); [by apply not_elem_of_nil in T3 | cbn in Hn; lia]. }
  assert (is_Some (object_of t (i, USB_DEFAULT_ALTSETTING))) as Hobj0.
  { eapply claimable_object; [exact Hdist | exact Hb|]. rewrite T1. apply (proj1 (Forall_forall _ _) T3 i).
    rewrite <- T2. apply list_elem_of_In, in_map_iff. exists (i, b). split; [done | by apply list_elem_of_In]. }
  destruct (busy_find bus addr t running Hdist _ _ _ _ _ _ _ _ i _ Hb Hobj0) as (m1 & y0 & m2 & Ho0 & _ & Hy0).
  destruct (busy_find bus addr t running Hdist _ _ _ _ _ _ _ _ i _ Hb Hobj) as (k1 & ya & k2 & Hoa & _ & Hya).
  assert (runs ('(_, _) ← UsbSelectInterfaceSetting b a; UsbCloseInterface b) h1 (fun ret h2 => exists q x0 xa,
    ret = HDF_SUCCESS /\ ifacePoolList h2 = [q] /\ x0 ∈ interfaceList q /\ xa ∈ interfaceList q /\
    object_key x0 = (i, USB_DEFAULT_ALTSETTING) /\ refCount x0 = refs (claims s) (opens s) (i, USB_DEFAULT_ALTSETTING) /\
    object_key xa = (i, a) /\ refCount xa = -1)) as H.
  { apply runs_bind. eapply runs_mono; [eapply select_ok; [exact Hb | exact Hin | exact Hobj]|].
    intros [ret p] h2 (q2 & l1 & x & l2 & -> & Ho2 & -> & Hc & Erf).
    eapply runs_mono; [eapply close_chosen; [exact Hc | exact Ho2]|]. intros ret h3 (q3 & -> & Ep & El & _).
    pose proof (key_refs_elem _ _ _ (eq_sym Erf) (object_in _ _ _ _ _ _ Ho0)) as (z0 & Hz0 & Ez1 & Ez2).
    pose proof (key_refs_elem _ _ _ Erf (object_in _ _ _ _ _ _ Ho2)) as (za & Hza & Ea1 & Ea2).
    rewrite (oa_key _ _ _ _ _ _ Ho2) in Ea1. rewrite (oa_key _ _ _ _ _ _ Ho0) in Ez1.
    exists q3, z0, (set_refCount (refCount x - 1) x). split; [done|]. split; [done|]. rewrite El, !elem_of_app, !elem_of_cons.
    split; [|split; [by right; left|]; split; [done|]; split; [|split; [exact (oa_key _ _ _ _ _ _ Ho2)|]]].
    - rewrite (oa_split _ _ _ _ _ _ Ho2), elem_of_app, elem_of_cons in Hz0. destruct Hz0 as [|[->|]]; auto.
      rewrite (oa_key _ _ _ _ _ _ Ho2) in Ez1. congruence.
    - by rewrite Ez2, (st_refs _ _ _ _ Hy0), (oa_key _ _ _ _ _ _ Ho0).
    - pose proof (bz_objects _ _ _ _ _ _ _ _ _ _ _ _ Hb) as Hall. eapply Forall_forall in Hall; [|exact Hza].
      cbn. rewrite <- Ea2, (st_refs _ _ _ _ Hall), Ea1. unfold refs. by rewrite (proj2 (Z.eqb_neq _ _) Ha). }
  apply runs_inv in H as (ret & h2 & E2 & q2 & x0 & xa & -> & H). by exists h2, q2, x0, xa.
Qed.
End select.
