(* ===== verification/UsbPoolErrors.v ===== *)
(** * UsbPoolErrors: a setting without endpoints

    The loop that makes the pipes of an alternate setting returns a variable
    that was never written when there is no endpoint; what opening a device with
    such a setting does is undefined. *)
From S2P Require Import Prelude Hdf Arrays UsbDesc UsbDescSpec UsbDescFacts UsbDescParse UsbDescConfig UsbDescLoop UsbDescWhole UsbDescRun UsbDescRam UsbPool UsbPoolFacts UsbPoolOpen.
Open Scope Z_scope.

Definition alt_empty (a : UsbRawInterfaceDescriptor) : Prop := bNumEndpoints (interfaceDescriptor a) = 0.

Lemma alt_good_empty a : alt_good a -> alt_empty a -> False.
Proof. intros (b & es & _ & Hne & _ & Hn) He. unfold alt_empty in He. destruct es; [done | cbn in Hn; lia]. Qed.

(** The first element that is not as most. *)
Lemma first_other {A} (P R : A -> Prop) l :
  Forall (fun x => P x \/ R x) l -> Forall P l \/ exists l1 x l2, l = l1 ++ x :: l2 /\ Forall P l1 /\ R x.
Proof.
  induction 1 as [|x l [Hx|Hx] _ IH]; [by left | |].
  - destruct IH as [IH|(l1 & y & l2 & -> & H1 & H2)]; [left; by constructor|]. right. exists (x :: l1), y, l2.
    split; [done|]. split; [by constructor | done].
  - right. by exists [], x, l.
Qed.

Lemma wrong_bind {S A B} (m : Prog S A) (k : A -> Prog S B) s : m s = Undefined -> (m ≫= k) s = Undefined.
Proof. intros E. unfold mbind, P_bind. by rewrite E. Qed.

Section errors.
Context {HS : HdfStatus} {US : UsbStatus} {UL : UsbStatusLaws} {RA : RamAlloc} {SZ : UsbSizes} {SL : UsbSizesLaws}
  {PZ : PoolSizes} {PL : PoolSizesLaws} {K : Type} {HA : HostAdapter K}.
Implicit Types (h : Host K).

Lemma create_alt_empty n u l p a j ifs ret h :
  ram_granted -> filling l p ifs h -> altsetting u !! j = Some a -> alt_empty a ->
  create_alts (S n) j u (pool_block p) ret h = Undefined.
Proof.
  intros Hgr Hf Hu He. cbn [create_alts]. rewrite Hu.
  pose proof (UsbIfCreatInterfaceObj_ok l p ifs h Hgr Hf) as H1.
  apply runs_inv in H1 as ([ret1 i] & h1 & E1 & ib & id & -> & -> & Hm1 & Hf1). rewrite (after_done _ _ _ _ _ E1).
  set (x := fresh_interface ib id p) in *.
  assert (runs (UsbInterfaceInit (if_block x) a u) h1 (fun ret _ => ret = HDF_SUCCESS)) as H2.
  { apply runs_bind. by eapply (runs_fill_interface l p ifs x); [exact Hf1 | done|]. }
  apply runs_inv in H2 as (ret2 & h2 & E2 & ->). change (if_block x) with ib in E2. pose proof us_success as Hok.
  rewrite (after_done _ _ _ _ _ E2), Hok. cbn [Z.eqb negb]. apply wrong_bind. unfold UsbProtocalCreatePipeObj.
  by rewrite He.
Qed.

Lemma create_alts_empty u l p good bad zs done_ n ifs ret h :
  ram_granted -> filling l p ifs h -> altsetting u = done_ ++ good ++ bad :: zs -> Forall alt_good good -> alt_empty bad ->
  create_alts (length good + S n) (length done_) u (pool_block p) ret h = Undefined.
Proof.
  intros Hgr Hf Hu Hgood Hbad. revert done_ ifs ret h Hf Hu.
  induction Hgood as [|a good Ha _ IH]; intros done_ ifs ret h Hf Hu.
  { eapply create_alt_empty; [done | exact Hf | | exact Hbad]. rewrite Hu. cbn. by rewrite list_lookup_middle. }
  cbn [length Nat.add]. edestruct (create_alt_one (length good + S n) u l p a done_ ifs ret h Hgr Hf) as (x & h1 & -> & _ & Hf1 & _);
    [by rewrite Hu; cbn; rewrite list_lookup_middle | done|].
  replace (S (length done_)) with (length (done_ ++ [a])) by (rewrite length_app; cbn; lia).
  apply (IH _ (ifs ++ [x])); [done|]. by rewrite Hu, <- app_assoc.
Qed.

Lemma create_interfaces_empty c l p slots done_ zs ifs ret h :
  ram_granted -> filling l p ifs h -> interface c = done_ ++ slots ++ zs ->
  bNumInterfaces (configDescriptor c) = Z.of_nat (length (done_ ++ slots)) -> (length (done_ ++ slots) <= 32)%nat ->
  Forall (slot_of (fun a => alt_good a \/ alt_empty a)) slots -> ~ Forall (slot_of alt_good) slots ->
  create_interfaces (length slots) (length done_) c (pool_block p) ret h = Undefined.
Proof.
  intros Hgr Hf Hi Hn Hmax Hall Hbad. revert done_ ifs ret h Hf Hi Hn Hmax.
  induction Hall as [|q slots (b & u & as_ & zs' & -> & Ha & Hna & Hne & Hmix) _ IH]; intros done_ ifs ret h Hf Hi Hn Hmax.
  { by destruct Hbad. }
  pose proof Hmax as Hmax'. rewrite length_app in Hmax'. cbn [length] in *.
  assert (interface c !! length done_ = Some (Some (b, u))) as Hk by (rewrite Hi; cbn; by rewrite list_lookup_middle).
  assert (Z.of_nat (length done_) < bNumInterfaces (configDescriptor c)) as Hlt by (rewrite Hn, length_app; cbn; lia).
  destruct (first_other _ _ _ Hmix) as [Hgood|(g & bad & rest & -> & Hgood & Hempty)].
  - destruct (create_interface_one (length slots) c l p b u as_ zs' (length done_) ifs ret h Hgr Hf)
      as (new & h1 & -> & _ & Hf1 & _); [done | done | lia | done..|].
    replace (S (length done_)) with (length (done_ ++ [Some (b, u)])) by (rewrite length_app; cbn; lia).
    apply (IH) with (ifs := ifs ++ new); [|done|by rewrite Hi, <- app_assoc|by rewrite <- app_assoc|by rewrite <- app_assoc].
    intros Hs. apply Hbad. constructor; [|done]. by exists b, u, as_, zs'.
  - rewrite (create_interfaces_next _ _ _ _ b u) by (done || lia). apply wrong_bind.
    rewrite Hna, Nat2Z.id, length_app. cbn [length].
    eapply (create_alts_empty u l p g bad (rest ++ zs') [] (length rest)); [done | exact Hf | | done | done].
    by rewrite Ha, <- app_assoc.
Qed.

Lemma alt_mixed t a a' :
  config_ok t -> a ∈ ct_alts t -> alt_shape a' -> view_alt a' = mean_alt a -> alt_good a' \/ alt_empty a'.
Proof.
  intros Ht Ha Hs Hv. pose proof (proj1 (Forall_forall _ _) (go_alts _ Ht) a Ha) as Hok.
  destruct (decide (at_eps a = [])) as [E|E]; [right | left; by eapply alt_good_of].
  apply (f_equal (fun v => bNumEndpoints (av_desc v))) in Hv. cbn in Hv. unfold alt_empty, byte in *. rewrite Hv.
  by rewrite (nth_lookup_Some _ _ _ _ (ao_eps_count _ Hok)), E.
Qed.

(** Settings without endpoints show in the parsed structure. *)
Lemma slots_not_good t c slots a :
  config_shape slots c -> view_config c = mean_config t -> a ∈ ct_alts t -> at_eps a = [] -> ~ Forall (slot_of alt_good) slots.
Proof.
  intros Hshape Hv Ha He Hgood. pose proof (filed_view_slots t c slots Hv Hshape) as Hs. cbn in Hs.
  assert (map mean_alt (alts_of (alt_number a) (ct_alts t)) ∈ map view_interface slots) as Hin.
  { rewrite Hs. apply list_elem_of_In, in_map_iff. exists (alt_number a). split; [done|].
    apply list_elem_of_In, numbers_elem. by exists a. }
  apply list_elem_of_In, in_map_iff in Hin as (q & Eq & Hq). apply list_elem_of_In in Hq.
  eapply Forall_forall in Hgood; [|exact Hq]. destruct Hgood as (b & u & as_ & zs & -> & E1 & E2 & _ & Hall).
  rewrite (slot_views b u as_ zs E1 E2) in Eq.
  assert (mean_alt a ∈ map view_alt as_) as Hm.
  { rewrite Eq. apply list_elem_of_In, in_map, list_elem_of_In. by apply list_elem_of_filter. }
  apply list_elem_of_In, in_map_iff in Hm as (a' & Ea & Ha'%list_elem_of_In).
  eapply Forall_forall in Hall; [|exact Ha']. destruct Hall as (b' & es & E & Hne & _).
  apply (f_equal av_endpoints) in Ea. cbn in Ea. rewrite E, He in Ea. by destruct es.
Qed.

(** C30: opening a device whose configuration, however well-formed, has an
    alternate setting without endpoints is undefined: the status of the loop over
    its endpoints is read though nothing was written to it. *)
Theorem endpointless_setting_undefined fuel d t bus addr v a h :
  ram_granted -> host_ok h -> handle_open d (kernel h) = true -> getConfiguration d (kernel h) = (HDF_SUCCESS, v) ->
  0 <= v < 256 -> v <= bNumConfigurations d (kernel h) -> serves (getConfigDescriptor d (kernel h)) v (config_bytes t) ->
  config_ok t -> total_ok t -> u8_ok t -> (length (config_bytes t) < fuel)%nat -> a ∈ ct_alts t -> at_eps a = [] ->
  UsbProtocalParseDescriptor fuel d bus addr h = Undefined.
Proof.
  intros Hgr Hok Hopen Hconf Hv Hvn Hserves Ht Htot Hu8 Hfuel Ha He. pose proof us_success as Hs.
  destruct (parse_start fuel d bus addr v h Hgr Hok Hopen Hconf) as (b & id & x & h4 & -> & Hf4 & _ & _ & Ek4 & _).
  unfold parse_tail. erewrite after_done by done. assert (u8 v = v) as -> by (unfold u8; rewrite Z.mod_small; lia).
  pose proof (ho_ram _ (wi_ok _ _ _ _ _ Hf4)) as Hwf. rewrite <- Ek4 in Hserves, Hvn.
  pose proof (get_config_any fuel _ t _ v (ram h4) Ht Htot Hu8 Hserves Hvn Hwf Hfuel) as Hget.
  apply runs_inv in Hget as ([ret config] & r1 & E & [[-> Hh]|[[Hng _] _]]); [|by destruct (granted_refused Hgr)].
  change (RawGetConfigDescriptor (Some (getConfigDescriptor d (kernel h4))) fuel (bNumConfigurations d (kernel h4)) v (ram h4) =
    Done ((0, config), r1)) in E. pose proof (later_RawGetConfigDescriptor _ _ _ _ _ _ _ E) as Hl.
  rewrite (after_done _ _ (HDF_SUCCESS, config) h4 (set_ram r1 h4)) by (unfold on_ram; by rewrite E, Hs).
  rewrite Z.eqb_refl. cbn [negb]. destruct Hh as (cb & c & slots & -> & Hview & Hshape & _). apply wrong_bind.
  unfold UsbProtocalCreatInterfaceObj. pose proof Hshape as [Hi Hn _]. rewrite Hn, Nat2Z.id.
  eapply (create_interfaces_empty c _ (mkPool b id true [] 0 bus addr 0 (Some d)) slots [] _ [x]);
    [done | by apply filling_ram | exact Hi | exact Hn | | | by eapply slots_not_good].
  - pose proof (f_equal (fun v => bNumInterfaces (cv_desc v)) Hview) as En. cbn in En. rewrite Hn in En.
    pose proof (config_interfaces t Ht). cbn. lia.
  - eapply slots_all; [|exact Hshape | exact Hview]. intros. by eapply alt_mixed.
Qed.
End errors.
