(* ===== verification/UsbPoolInstance.v ===== *)
(** * UsbPoolInstance: a session with a serial adapter

    A device with a control interface and a data interface with two alternate
    settings behind a kernel that grants everything, and the theorems of
    [UsbPoolRun], [UsbPoolSelect] and [UsbPoolErrors] applied to it. *)
From S2P Require Import Prelude Hdf HdfQueue Arrays UsbDesc UsbDescSpec UsbDescFacts UsbDescConfig UsbDescWhole UsbDescRun UsbDescInstance UsbPool UsbPoolFacts UsbPoolOpen UsbPoolRules UsbPoolUse UsbPoolSteps UsbPoolRun UsbPoolSelect UsbPoolErrors.
Open Scope Z_scope.

#[global] Instance plain_pool_sizes : PoolSizes := {
  sizeof_UsbPipe := 60; sizeof_UsbSdkInterface := 120; sizeof_UsbInterfacePool := 400; sizeof_UsbInterfaceHandleEntity := 16;
}.
#[global] Instance plain_pool_sizes_laws : PoolSizesLaws.
Proof. by split. Qed.

(** The kernel remembers whether the device is open, as the handle 7. *)
Definition one_device (bytes : list Z) : HostAdapter bool := {|
  openDevice _ _ _ := (Some 7%nat, true);
  closeDevice _ _ := false;
  handle_open d k := (d =? 7)%nat && k;
  bNumConfigurations _ _ := 1;
  getConfigDescriptor _ _ := one_config bytes;
  getConfiguration _ _ := (0, 1);
  claimInterface _ _ k := (0, k);
  releaseInterface _ _ k := (0, k);
  setInterfaceAltsetting _ _ _ k := (0, k);
  UsbIoStart _ k := (0, k);
  UsbIoStop _ k := (0, k);
  RawInitPnpService _ _ k := (0, k);
|}.
Definition is_plugged (k : bool) : Prop := k = false.
Definition is_running (d : nat) (k : bool) : Prop := d = 7%nat /\ k = true.
Definition host0 (k : bool) : Host bool := mkHost ram0 [] ∅ ∅ ∅ 0 0 0 k.

Lemma host0_start : session_start is_plugged (host0 false).
Proof. split; [done | done | exact ram0_wf | done]. Qed.
Lemma host0_ok k : host_ok (host0 k).
Proof. split; [exact ram0_wf | constructor | constructor]. Qed.

(** ** The adapter *)
Definition data_default : alt_tree := ATree [9; 4; 1; 0; 1; 10; 0; 0; 0] [] [ETree [7; 5; 129; 2; 64; 0; 0] []].
Definition busy_config : config_tree :=
  CTree [9; 2; 89; 0; 2; 1; 0; 192; 50] [[8; 11; 0; 2; 2; 2; 1; 0]] [control_alt; data_default; data_alt1].

Lemma busy_config_ok : config_ok busy_config.
Proof.
  split; cbn [ct_desc ct_extra ct_alts busy_config].
  - desc_ok_tac.
  - by vm_compute.
  - repeat (constructor; [extra_ok_tac|]); constructor.
  - repeat (constructor; [alt_ok_tac|]); constructor.
  - by vm_compute.
  - intros n. pose proof (alts_of_le n [control_alt; data_default; data_alt1]) as H. cbn [length] in H.
    unfold USB_MAXALTSETTING. lia.
  - by vm_compute.
Qed.

Lemma busy_usable k : k = true -> usable (HA := one_device (config_bytes busy_config)) 7 busy_config k.
Proof.
  intros ->. split; [done | | exact busy_config_ok | by vm_compute | by vm_compute | done |].
  - exists 1. split; [done|]. split; [done|]. split; [done | apply one_config_serves].
  - by repeat constructor.
Qed.

Lemma busy_laws bus addr :
  device_laws (HA := one_device (config_bytes busy_config)) bus addr busy_config is_plugged is_running.
Proof.
  split; unfold is_plugged, is_running.
  - intros k _. by exists 7%nat, true.
  - done.
  - intros d k [-> Hk]. by apply busy_usable.
  - intros d n k Hk. by exists k.
  - intros d n k Hk. by exists k.
  - intros d p k Hk. by exists k.
  - intros d p k Hk. by exists k.
  - intros d i a k Hk. by exists k.
Qed.
Lemma busy_distinct : objects_distinct busy_config.
Proof. apply (bool_decide_unpack _). by vm_compute. Qed.

(** ** A session *)
Definition start := host0 false.
Definition requests : list request :=
  [Claim 1; Claim 0; Claim 1; Open 1; PipeInfo 1 1 2; PipeInfo 1 2 1; Release 1; Close 1; Release 0; Claim 40; Release 1].
Definition answers : list answer :=
  [Granted; Granted; Granted; Granted; Info 0 (Some (mkPipeInfo 1 2 1 2 0 64 0)); Info HDF_ERR_BAD_FD None;
   Status 0; Status 0; Status 0; Refused; Status 0].
Definition serve_busy (rs : list request) : outcome ((list answer * client) * Host bool) :=
  serve_all (RA := all_ram) (HA := one_device (config_bytes busy_config)) 5 100 1 2 rs no_client start.

Lemma device_objects_witness :
  exists q h', UsbProtocalParseDescriptor (RA := all_ram) (HA := one_device (config_bytes busy_config)) 100 7 1 2 (host0 true) =
      Done (HDF_SUCCESS, h') /\
    ifacePoolList h' = [] ++ [q] /\ busNum q = 1 /\ devAddr q = 2 /\ device q = Some 7%nat /\
    map view_object (interfaceList q) = mean_device (mean_config busy_config) /\
    Forall (unused (pool_objectId q)) (interfaceList q) /\ ram_live (ram h') = ∅ ∪ list_to_set (pool_blocks q).
Proof.
  apply (device_objects (RA := all_ram) (HA := one_device (config_bytes busy_config)) 100 7 busy_config 1 2 (host0 true));
    [exact all_ram_granted | apply host0_ok | by apply busy_usable | vm_compute; lia].
Defined.

Lemma client_served_witness :
  exists c' h', serve_busy requests = Done ((answers, c'), h') /\ (ptrs c').*1 = [] /\ (handles c').*1 = [].
Proof.
  apply (client_served (RA := all_ram) (HA := one_device (config_bytes busy_config)) 5 100 1 2 busy_config
           is_plugged is_running requests answers (Use [] [] 1));
    [apply busy_laws | exact busy_distinct | exact all_ram_granted | vm_compute; lia | exact host0_start | by vm_compute].
Defined.

Lemma unused_device_closed_witness :
  exists h', serve_busy [Claim 1; Open 1; Claim 0; Close 1; Release 1; Release 0; Claim 9] =
      Done (([Granted; Granted; Granted; Status 0; Status 0; Status 0; Refused], no_client), h') /\
    ram_live (ram h') = ∅ /\ ifacePoolList h' = [] /\ is_plugged (kernel h').
Proof.
  apply (unused_device_closed (RA := all_ram) (HA := one_device (config_bytes busy_config)) 5 100 1 2 busy_config
           is_plugged is_running [Claim 1; Open 1; Claim 0; Close 1; Release 1; Release 0; Claim 9]
           [Granted; Granted; Granted; Status 0; Status 0; Status 0; Refused] start);
    [apply busy_laws | exact busy_distinct | exact all_ram_granted | vm_compute; lia | exact host0_start | by vm_compute].
Defined.

Lemma absent_interface_keeps_device_witness :
  exists c' h' q d, serve_busy ([Claim 1] ++ Claim 9 :: [Release 1]) = Done (([Granted] ++ [Refused; Status 0], c'), h') /\
    ifacePoolList h' = [q] /\ 0 < pool_refCount q /\ pool_block q ∈ ram_live (ram h') /\
    device q = Some d /\ is_running d (kernel h').
Proof.
  apply (absent_interface_keeps_device (RA := all_ram) (HA := one_device (config_bytes busy_config)) 5 100 1 2 busy_config
           is_plugged is_running [Claim 1] 9 [Release 1] [Granted] (Use [1] [] 0) [Refused; Status 0] (Use [] [] 1) start);
    [apply busy_laws | exact busy_distinct | exact all_ram_granted | vm_compute; lia | exact host0_start | by vm_compute..].
Defined.

(** The data interface claimed and opened. *)
Definition opened_client : client :=
  match serve_busy [Claim 1; Open 1] with Done ((_, c), _) => c | _ => no_client end.
Definition opened_host : Host bool := match serve_busy [Claim 1; Open 1] with Done (_, h) => h | _ => start end.
Definition opened_handle : nat := match handles opened_client with (_, b) :: _ => b | [] => O end.

Lemma close_after_select_witness :
  exists h2 q x0 xa,
    ('(_, _) ← UsbSelectInterfaceSetting (HA := one_device (config_bytes busy_config)) opened_handle 1;
     UsbCloseInterface (HA := one_device (config_bytes busy_config)) opened_handle) opened_host = Done (HDF_SUCCESS, h2) /\
    ifacePoolList h2 = [q] /\ x0 ∈ interfaceList q /\ xa ∈ interfaceList q /\
    object_key x0 = (1, 0) /\ refCount x0 = 2 /\ object_key xa = (1, 1) /\ refCount xa = -1.
Proof.
  apply (close_after_select (RA := all_ram) (HA := one_device (config_bytes busy_config)) 5 100 1 2 busy_config
           is_plugged is_running (busy_laws 1 2) busy_distinct [Claim 1; Open 1] [Granted; Granted] (Use [1] [1] 0)
           opened_client start opened_host 1 1 opened_handle);
    [exact all_ram_granted | vm_compute; lia | exact host0_start | by vm_compute | by vm_compute | | done | by eexists].
  apply list_elem_of_In. vm_compute. by left.
Defined.

(** ** The adapter with an empty default setting *)
Lemma endpointless_setting_undefined_witness :
  UsbProtocalParseDescriptor (RA := all_ram) (HA := one_device (config_bytes acm_config)) 100 7 1 2 (host0 true) = Undefined.
Proof.
  apply (endpointless_setting_undefined (RA := all_ram) (HA := one_device (config_bytes acm_config)) 100 7 acm_config 1 2 1
           data_alt0 (host0 true));
    [exact all_ram_granted | apply host0_ok | done | done | lia | by vm_compute | apply one_config_serves | exact acm_config_ok |
     exact acm_total_ok | exact acm_u8_ok | vm_compute; lia | left | done].
Defined.
