(* ===== verification/UsbReq.v ===== *)
(** * UsbReq: I/O requests of the USB host kit and their URBs

    The request part of [usb/ddk/host/src/linux_adapter.c]: the memory of a
    request, its splitting into URBs, handing them to the kernel, cancelling and
    completing them; and the callbacks a completion makes ([usb_io_manage.c],
    [usb_raw_api_library.c]).

    A request lives in memory mapped from the device file: whole pages, named by
    the number of the first.  A pointer to it is that number; an access is
    undefined when the page is not mapped any more or the access leaves the
    mapping.  URBs are heap blocks of [RawUsbMemCalloc]; an URB is named by its
    block and its place in it.  What the kernel answers may depend on everything
    that happened, which the model records as a history. *)
From S2P Require Import Prelude Hdf UsbDesc UsbPool.
Open Scope Z_scope.

(** ** Constants *)
Definition USB_PIPE_TYPE_ISOCHRONOUS : Z := 1.
Definition USB_PIPE_TYPE_BULK : Z := 2.
Definition USB_PIPE_TYPE_INTERRUPT : Z := 3.
Definition USB_PIPE_DIRECTION_IN : Z := 0x80.
Definition USB_REQUEST_TYPE_CONTROL : Z := 0.
Definition USB_REQUEST_TYPE_ISOCHRONOUS : Z := 1.
Definition USB_REQUEST_TYPE_BULK : Z := 2.
Definition USB_REQUEST_TYPE_INTERRUPT : Z := 3.
Definition USB_DDK_ENDPOINT_XFER_CONTROL : Z := 0x00.
Definition USB_RAW_CONTROL_SETUP_SIZE : Z := 8.
Definition MAX_BULK_DATA_BUFFER_LENGTH : Z := 4096.
Definition MAX_BULK_URBS_PER_REQUEST : Z := 1.
Definition MAX_ISO_PACKETS_PER_URB : Z := 128.
Definition MAX_ISO_DATA_BUFFER_LEN : Z := 8 * 1024.
Definition MAX_ISO_URBS_PER_REQUEST : Z := (MAX_ISO_DATA_BUFFER_LEN - 1) / MAX_ISO_PACKETS_PER_URB + 1.
Definition URBS_PER_REQUEST : Z := Z.max MAX_BULK_URBS_PER_REQUEST MAX_ISO_URBS_PER_REQUEST.
Definition USB_ADAPTER_URB_TYPE_ISO : Z := 0.
Definition USB_ADAPTER_URB_TYPE_INTERRUPT : Z := 1.
Definition USB_ADAPTER_URB_TYPE_CONTROL : Z := 2.
Definition USB_ADAPTER_URB_TYPE_BULK : Z := 3.
Definition USB_ADAPTER_URB_ISO_ASAP : Z := 0x02.
Definition USB_ADAPTER_CAP_BULK_CONTINUATION : Z := 0x02.
Definition USB_ADAPTER_CAP_NO_PACKET_SIZE_LIM : Z := 0x04.
Definition USB_ADAPTER_CAP_BULK_SCATTER_GATHER : Z := 0x08.

(** The error numbers of Linux the code tells apart. *)
Definition ENOENT : Z := 2.
Definition EAGAIN : Z := 11.
Definition ENODEV : Z := 19.
Definition EPIPE : Z := 32.
Definition EOVERFLOW : Z := 75.
Definition ECONNRESET : Z := 104.
Definition ESHUTDOWN : Z := 108.
Definition EREMOTEIO : Z := 121.

(** Further codes: of the framework, and of the bounds-checked copy functions of
    the C library, which refuse to copy more than [RSIZE_MAX] bytes. *)
Class IoStatus := {
  HDF_DEV_ERR_NO_DEVICE : Z;
  HDF_ERR_TIMEOUT : Z;
  copy_refused : Z;
  RSIZE_MAX : Z;
}.
Class IoStatusLaws {HS : HdfStatus} {IS : IoStatus} := {
  is_no_device : HDF_DEV_ERR_NO_DEVICE < 0;
  is_timeout : HDF_ERR_TIMEOUT < 0;
  is_no_device_failure : HDF_DEV_ERR_NO_DEVICE <> HDF_FAILURE;
  is_copy_refused : copy_refused <> 0;
  is_rsize : 2 ^ 31 - 1 <= RSIZE_MAX;
}.

(** The sizes of the structures, and of a page. *)
Class ReqSizes := {
  sizeof_UsbHostRequest : Z;
  sizeof_UsbAdapterUrb : Z;
  sizeof_pointer : Z;
  sizeof_UsbIfRequest : Z;
  page_size : Z;
}.
Definition sizeof_UsbIsoPacketDesc : Z := 12.
Class ReqSizesLaws {RZ : ReqSizes} := {
  rz_request : 0 < sizeof_UsbHostRequest;
  rz_urb : 0 < sizeof_UsbAdapterUrb;
  rz_pointer : 0 < sizeof_pointer;
  rz_object : 0 < sizeof_UsbIfRequest;
  rz_page : 0 < page_size < 2 ^ 32;
}.

(** ** Data *)
Inductive UsbRequestStatus :=
| USB_REQUEST_COMPLETED | USB_REQUEST_COMPLETED_SHORT | USB_REQUEST_ERROR | USB_REQUEST_TIMEOUT
| USB_REQUEST_CANCELLED | USB_REQUEST_STALL | USB_REQUEST_NO_DEVICE | USB_REQUEST_OVERFLOW.
#[global] Instance UsbRequestStatus_eq_dec : EqDecision UsbRequestStatus.
Proof. solve_decision. Defined.
Inductive UsbRequestPipeType :=
| USB_REQUEST_TYPE_INVALID | USB_REQUEST_TYPE_DEVICE_CONTROL | USB_REQUEST_TYPE_PIPE_WRITE | USB_REQUEST_TYPE_PIPE_READ.
Inductive UsbPoolProcessStatusType := USB_POOL_PROCESS_RUNNING | USB_POOL_PROCESS_STOP | USB_POOL_PROCESS_STOPED.
#[global] Instance UsbPoolProcessStatusType_eq_dec : EqDecision UsbPoolProcessStatusType.
Proof. solve_decision. Defined.

(** A place in the buffer of a request: the request, and the distance from the
    start of its buffer. *)
Definition BufPtr : Type := Z * Z.

(** The user's pointer that comes back with a request, in the synchronous calls
    of the expert mode the address of a local variable of the caller. *)
Inductive UserData := NoData | ClientData (v : Z) | CompletedVar (frame : nat).

(** The function a completion calls. *)
Inductive RawCallback := UsbIoSetRequestCompletionInfo_cb | SyncRequestCallback_cb | ClientCallback (cb : nat).

Record UsbIsoPacketDesc := mkIsoDesc { iso_length : Z; iso_actualLength : Z; iso_status : Z }.

(** The fields the code uses.  [urb_isoFrameDesc] has the entries there is memory
    for. *)
Record UsbAdapterUrb := mkUrb {
  urb_type : Z;
  urb_endPoint : Z;
  urb_status : Z;
  urb_flags : Z;
  urb_buffer : BufPtr;
  urb_bufferLength : Z;
  urb_actualLength : Z;
  urb_numberOfPackets : Z;
  urb_userContext : option Z;
  urb_isoFrameDesc : list UsbIsoPacketDesc;
}.
Definition set_urb_type v (u : UsbAdapterUrb) := mkUrb v (urb_endPoint u) (urb_status u) (urb_flags u) (urb_buffer u) (urb_bufferLength u) (urb_actualLength u) (urb_numberOfPackets u) (urb_userContext u) (urb_isoFrameDesc u).
Definition set_urb_endPoint v (u : UsbAdapterUrb) := mkUrb (urb_type u) v (urb_status u) (urb_flags u) (urb_buffer u) (urb_bufferLength u) (urb_actualLength u) (urb_numberOfPackets u) (urb_userContext u) (urb_isoFrameDesc u).
Definition set_urb_status v (u : UsbAdapterUrb) := mkUrb (urb_type u) (urb_endPoint u) v (urb_flags u) (urb_buffer u) (urb_bufferLength u) (urb_actualLength u) (urb_numberOfPackets u) (urb_userContext u) (urb_isoFrameDesc u).
Definition set_urb_flags v (u : UsbAdapterUrb) := mkUrb (urb_type u) (urb_endPoint u) (urb_status u) v (urb_buffer u) (urb_bufferLength u) (urb_actualLength u) (urb_numberOfPackets u) (urb_userContext u) (urb_isoFrameDesc u).
Definition set_urb_buffer v (u : UsbAdapterUrb) := mkUrb (urb_type u) (urb_endPoint u) (urb_status u) (urb_flags u) v (urb_bufferLength u) (urb_actualLength u) (urb_numberOfPackets u) (urb_userContext u) (urb_isoFrameDesc u).
Definition set_urb_bufferLength v (u : UsbAdapterUrb) := mkUrb (urb_type u) (urb_endPoint u) (urb_status u) (urb_flags u) (urb_buffer u) v (urb_actualLength u) (urb_numberOfPackets u) (urb_userContext u) (urb_isoFrameDesc u).
Definition set_urb_actualLength v (u : UsbAdapterUrb) := mkUrb (urb_type u) (urb_endPoint u) (urb_status u) (urb_flags u) (urb_buffer u) (urb_bufferLength u) v (urb_numberOfPackets u) (urb_userContext u) (urb_isoFrameDesc u).
Definition set_urb_numberOfPackets v (u : UsbAdapterUrb) := mkUrb (urb_type u) (urb_endPoint u) (urb_status u) (urb_flags u) (urb_buffer u) (urb_bufferLength u) (urb_actualLength u) v (urb_userContext u) (urb_isoFrameDesc u).
Definition set_urb_userContext v (u : UsbAdapterUrb) := mkUrb (urb_type u) (urb_endPoint u) (urb_status u) (urb_flags u) (urb_buffer u) (urb_bufferLength u) (urb_actualLength u) (urb_numberOfPackets u) v (urb_isoFrameDesc u).
Definition set_urb_isoFrameDesc v (u : UsbAdapterUrb) := mkUrb (urb_type u) (urb_endPoint u) (urb_status u) (urb_flags u) (urb_buffer u) (urb_bufferLength u) (urb_actualLength u) (urb_numberOfPackets u) (urb_userContext u) v.

(** [urbs] and [isoUrbs] are one field: a pointer to URBs, or to an array of
    pointers to URBs (the block and what it holds). *)
Inductive UrbsPtr := NoUrbs | Urbs (b : nat) | IsoUrbs (b : nat) (l : list (option nat)).

(** [hr_buffer] is the memory from the start of the buffer to the end of the
    mapping; [hr_isoPacketDesc] has the entries there is memory for.  [hr_sem] is
    the count of the semaphore, [None] when it is not initialised. *)
Record UsbHostRequest := mkHostRequest {
  hr_buffer : list Z;
  hr_length : Z;
  hr_actualLength : Z;
  hr_status : UsbRequestStatus;
  hr_userData : UserData;
  hr_devHandle : option nat;
  hr_callback : option RawCallback;
  hr_userCallback : option nat;
  hr_bufLen : Z;
  hr_sem : option Z;
  hr_endPoint : Z;
  hr_timeout : Z;
  hr_requestType : Z;
  hr_bulkUrb : option nat;
  hr_urbs : UrbsPtr;
  hr_numUrbs : Z;
  hr_numRetired : Z;
  hr_reqStatus : UsbRequestStatus;
  hr_isoPacketOffset : Z;
  hr_privateObj : option nat;
  hr_numIsoPackets : Z;
  hr_isoPacketDesc : list UsbIsoPacketDesc;
}.
Definition set_hr_buffer v (q : UsbHostRequest) := mkHostRequest v (hr_length q) (hr_actualLength q) (hr_status q) (hr_userData q) (hr_devHandle q) (hr_callback q) (hr_userCallback q) (hr_bufLen q) (hr_sem q) (hr_endPoint q) (hr_timeout q) (hr_requestType q) (hr_bulkUrb q) (hr_urbs q) (hr_numUrbs q) (hr_numRetired q) (hr_reqStatus q) (hr_isoPacketOffset q) (hr_privateObj q) (hr_numIsoPackets q) (hr_isoPacketDesc q).
Definition set_hr_length v (q : UsbHostRequest) := mkHostRequest (hr_buffer q) v (hr_actualLength q) (hr_status q) (hr_userData q) (hr_devHandle q) (hr_callback q) (hr_userCallback q) (hr_bufLen q) (hr_sem q) (hr_endPoint q) (hr_timeout q) (hr_requestType q) (hr_bulkUrb q) (hr_urbs q) (hr_numUrbs q) (hr_numRetired q) (hr_reqStatus q) (hr_isoPacketOffset q) (hr_privateObj q) (hr_numIsoPackets q) (hr_isoPacketDesc q).
Definition set_hr_actualLength v (q : UsbHostRequest) := mkHostRequest (hr_buffer q) (hr_length q) v (hr_status q) (hr_userData q) (hr_devHandle q) (hr_callback q) (hr_userCallback q) (hr_bufLen q) (hr_sem q) (hr_endPoint q) (hr_timeout q) (hr_requestType q) (hr_bulkUrb q) (hr_urbs q) (hr_numUrbs q) (hr_numRetired q) (hr_reqStatus q) (hr_isoPacketOffset q) (hr_privateObj q) (hr_numIsoPackets q) (hr_isoPacketDesc q).
Definition set_hr_status v (q : UsbHostRequest) := mkHostRequest (hr_buffer q) (hr_length q) (hr_actualLength q) v (hr_userData q) (hr_devHandle q) (hr_callback q) (hr_userCallback q) (hr_bufLen q) (hr_sem q) (hr_endPoint q) (hr_timeout q) (hr_requestType q) (hr_bulkUrb q) (hr_urbs q) (hr_numUrbs q) (hr_numRetired q) (hr_reqStatus q) (hr_isoPacketOffset q) (hr_privateObj q) (hr_numIsoPackets q) (hr_isoPacketDesc q).
Definition set_hr_userData v (q : UsbHostRequest) := mkHostRequest (hr_buffer q) (hr_length q) (hr_actualLength q) (hr_status q) v (hr_devHandle q) (hr_callback q) (hr_userCallback q) (hr_bufLen q) (hr_sem q) (hr_endPoint q) (hr_timeout q) (hr_requestType q) (hr_bulkUrb q) (hr_urbs q) (hr_numUrbs q) (hr_numRetired q) (hr_reqStatus q) (hr_isoPacketOffset q) (hr_privateObj q) (hr_numIsoPackets q) (hr_isoPacketDesc q).
Definition set_hr_devHandle v (q : UsbHostRequest) := mkHostRequest (hr_buffer q) (hr_length q) (hr_actualLength q) (hr_status q) (hr_userData q) v (hr_callback q) (hr_userCallback q) (hr_bufLen q) (hr_sem q) (hr_endPoint q) (hr_timeout q) (hr_requestType q) (hr_bulkUrb q) (hr_urbs q) (hr_numUrbs q) (hr_numRetired q) (hr_reqStatus q) (hr_isoPacketOffset q) (hr_privateObj q) (hr_numIsoPackets q) (hr_isoPacketDesc q).
Definition set_hr_callback v (q : UsbHostRequest) := mkHostRequest (hr_buffer q) (hr_length q) (hr_actualLength q) (hr_status q) (hr_userData q) (hr_devHandle q) v (hr_userCallback q) (hr_bufLen q) (hr_sem q) (hr_endPoint q) (hr_timeout q) (hr_requestType q) (hr_bulkUrb q) (hr_urbs q) (hr_numUrbs q) (hr_numRetired q) (hr_reqStatus q) (hr_isoPacketOffset q) (hr_privateObj q) (hr_numIsoPackets q) (hr_isoPacketDesc q).
Definition set_hr_userCallback v (q : UsbHostRequest) := mkHostRequest (hr_buffer q) (hr_length q) (hr_actualLength q) (hr_status q) (hr_userData q) (hr_devHandle q) (hr_callback q) v (hr_bufLen q) (hr_sem q) (hr_endPoint q) (hr_timeout q) (hr_requestType q) (hr_bulkUrb q) (hr_urbs q) (hr_numUrbs q) (hr_numRetired q) (hr_reqStatus q) (hr_isoPacketOffset q) (hr_privateObj q) (hr_numIsoPackets q) (hr_isoPacketDesc q).
Definition set_hr_bufLen v (q : UsbHostRequest) := mkHostRequest (hr_buffer q) (hr_length q) (hr_actualLength q) (hr_status q) (hr_userData q) (hr_devHandle q) (hr_callback q) (hr_userCallback q) v (hr_sem q) (hr_endPoint q) (hr_timeout q) (hr_requestType q) (hr_bulkUrb q) (hr_urbs q) (hr_numUrbs q) (hr_numRetired q) (hr_reqStatus q) (hr_isoPacketOffset q) (hr_privateObj q) (hr_numIsoPackets q) (hr_isoPacketDesc q).
Definition set_hr_sem v (q : UsbHostRequest) := mkHostRequest (hr_buffer q) (hr_length q) (hr_actualLength q) (hr_status q) (hr_userData q) (hr_devHandle q) (hr_callback q) (hr_userCallback q) (hr_bufLen q) v (hr_endPoint q) (hr_timeout q) (hr_requestType q) (hr_bulkUrb q) (hr_urbs q) (hr_numUrbs q) (hr_numRetired q) (hr_reqStatus q) (hr_isoPacketOffset q) (hr_privateObj q) (hr_numIsoPackets q) (hr_isoPacketDesc q).
Definition set_hr_endPoint v (q : UsbHostRequest) := mkHostRequest (hr_buffer q) (hr_length q) (hr_actualLength q) (hr_status q) (hr_userData q) (hr_devHandle q) (hr_callback q) (hr_userCallback q) (hr_bufLen q) (hr_sem q) v (hr_timeout q) (hr_requestType q) (hr_bulkUrb q) (hr_urbs q) (hr_numUrbs q) (hr_numRetired q) (hr_reqStatus q) (hr_isoPacketOffset q) (hr_privateObj q) (hr_numIsoPackets q) (hr_isoPacketDesc q).
Definition set_hr_timeout v (q : UsbHostRequest) := mkHostRequest (hr_buffer q) (hr_length q) (hr_actualLength q) (hr_status q) (hr_userData q) (hr_devHandle q) (hr_callback q) (hr_userCallback q) (hr_bufLen q) (hr_sem q) (hr_endPoint q) v (hr_requestType q) (hr_bulkUrb q) (hr_urbs q) (hr_numUrbs q) (hr_numRetired q) (hr_reqStatus q) (hr_isoPacketOffset q) (hr_privateObj q) (hr_numIsoPackets q) (hr_isoPacketDesc q).
Definition set_hr_requestType v (q : UsbHostRequest) := mkHostRequest (hr_buffer q) (hr_length q) (hr_actualLength q) (hr_status q) (hr_userData q) (hr_devHandle q) (hr_callback q) (hr_userCallback q) (hr_bufLen q) (hr_sem q) (hr_endPoint q) (hr_timeout q) v (hr_bulkUrb q) (hr_urbs q) (hr_numUrbs q) (hr_numRetired q) (hr_reqStatus q) (hr_isoPacketOffset q) (hr_privateObj q) (hr_numIsoPackets q) (hr_isoPacketDesc q).
Definition set_hr_bulkUrb v (q : UsbHostRequest) := mkHostRequest (hr_buffer q) (hr_length q) (hr_actualLength q) (hr_status q) (hr_userData q) (hr_devHandle q) (hr_callback q) (hr_userCallback q) (hr_bufLen q) (hr_sem q) (hr_endPoint q) (hr_timeout q) (hr_requestType q) v (hr_urbs q) (hr_numUrbs q) (hr_numRetired q) (hr_reqStatus q) (hr_isoPacketOffset q) (hr_privateObj q) (hr_numIsoPackets q) (hr_isoPacketDesc q).
Definition set_hr_urbs v (q : UsbHostRequest) := mkHostRequest (hr_buffer q) (hr_length q) (hr_actualLength q) (hr_status q) (hr_userData q) (hr_devHandle q) (hr_callback q) (hr_userCallback q) (hr_bufLen q) (hr_sem q) (hr_endPoint q) (hr_timeout q) (hr_requestType q) (hr_bulkUrb q) v (hr_numUrbs q) (hr_numRetired q) (hr_reqStatus q) (hr_isoPacketOffset q) (hr_privateObj q) (hr_numIsoPackets q) (hr_isoPacketDesc q).
Definition set_hr_numUrbs v (q : UsbHostRequest) := mkHostRequest (hr_buffer q) (hr_length q) (hr_actualLength q) (hr_status q) (hr_userData q) (hr_devHandle q) (hr_callback q) (hr_userCallback q) (hr_bufLen q) (hr_sem q) (hr_endPoint q) (hr_timeout q) (hr_requestType q) (hr_bulkUrb q) (hr_urbs q) v (hr_numRetired q) (hr_reqStatus q) (hr_isoPacketOffset q) (hr_privateObj q) (hr_numIsoPackets q) (hr_isoPacketDesc q).
Definition set_hr_numRetired v (q : UsbHostRequest) := mkHostRequest (hr_buffer q) (hr_length q) (hr_actualLength q) (hr_status q) (hr_userData q) (hr_devHandle q) (hr_callback q) (hr_userCallback q) (hr_bufLen q) (hr_sem q) (hr_endPoint q) (hr_timeout q) (hr_requestType q) (hr_bulkUrb q) (hr_urbs q) (hr_numUrbs q) v (hr_reqStatus q) (hr_isoPacketOffset q) (hr_privateObj q) (hr_numIsoPackets q) (hr_isoPacketDesc q).
Definition set_hr_reqStatus v (q : UsbHostRequest) := mkHostRequest (hr_buffer q) (hr_length q) (hr_actualLength q) (hr_status q) (hr_userData q) (hr_devHandle q) (hr_callback q) (hr_userCallback q) (hr_bufLen q) (hr_sem q) (hr_endPoint q) (hr_timeout q) (hr_requestType q) (hr_bulkUrb q) (hr_urbs q) (hr_numUrbs q) (hr_numRetired q) v (hr_isoPacketOffset q) (hr_privateObj q) (hr_numIsoPackets q) (hr_isoPacketDesc q).
Definition set_hr_isoPacketOffset v (q : UsbHostRequest) := mkHostRequest (hr_buffer q) (hr_length q) (hr_actualLength q) (hr_status q) (hr_userData q) (hr_devHandle q) (hr_callback q) (hr_userCallback q) (hr_bufLen q) (hr_sem q) (hr_endPoint q) (hr_timeout q) (hr_requestType q) (hr_bulkUrb q) (hr_urbs q) (hr_numUrbs q) (hr_numRetired q) (hr_reqStatus q) v (hr_privateObj q) (hr_numIsoPackets q) (hr_isoPacketDesc q).
Definition set_hr_privateObj v (q : UsbHostRequest) := mkHostRequest (hr_buffer q) (hr_length q) (hr_actualLength q) (hr_status q) (hr_userData q) (hr_devHandle q) (hr_callback q) (hr_userCallback q) (hr_bufLen q) (hr_sem q) (hr_endPoint q) (hr_timeout q) (hr_requestType q) (hr_bulkUrb q) (hr_urbs q) (hr_numUrbs q) (hr_numRetired q) (hr_reqStatus q) (hr_isoPacketOffset q) v (hr_numIsoPackets q) (hr_isoPacketDesc q).
Definition set_hr_numIsoPackets v (q : UsbHostRequest) := mkHostRequest (hr_buffer q) (hr_length q) (hr_actualLength q) (hr_status q) (hr_userData q) (hr_devHandle q) (hr_callback q) (hr_userCallback q) (hr_bufLen q) (hr_sem q) (hr_endPoint q) (hr_timeout q) (hr_requestType q) (hr_bulkUrb q) (hr_urbs q) (hr_numUrbs q) (hr_numRetired q) (hr_reqStatus q) (hr_isoPacketOffset q) (hr_privateObj q) v (hr_isoPacketDesc q).
Definition set_hr_isoPacketDesc v (q : UsbHostRequest) := mkHostRequest (hr_buffer q) (hr_length q) (hr_actualLength q) (hr_status q) (hr_userData q) (hr_devHandle q) (hr_callback q) (hr_userCallback q) (hr_bufLen q) (hr_sem q) (hr_endPoint q) (hr_timeout q) (hr_requestType q) (hr_bulkUrb q) (hr_urbs q) (hr_numUrbs q) (hr_numRetired q) (hr_reqStatus q) (hr_isoPacketOffset q) (hr_privateObj q) (hr_numIsoPackets q) v.

Record UsbRequestCompInfo := mkCompInfo {
  ci_type : UsbRequestPipeType;
  ci_buffer : option BufPtr;
  ci_length : Z;
  ci_actualLength : Z;
  ci_status : UsbRequestStatus;
  ci_userData : UserData;
}.
Definition set_ci_type v (c : UsbRequestCompInfo) := mkCompInfo v (ci_buffer c) (ci_length c) (ci_actualLength c) (ci_status c) (ci_userData c).
Definition set_ci_status v (c : UsbRequestCompInfo) := mkCompInfo (ci_type c) (ci_buffer c) (ci_length c) (ci_actualLength c) v (ci_userData c).
Record UsbIfRequest := mkIfRequest {
  ir_objectId : Z;
  compInfo : UsbRequestCompInfo;
  hostRequest : option Z;
  isSyncReq : bool;
}.
Definition set_compInfo v (o : UsbIfRequest) := mkIfRequest (ir_objectId o) v (hostRequest o) (isSyncReq o).
Definition set_isSyncReq v (o : UsbIfRequest) := mkIfRequest (ir_objectId o) (compInfo o) (hostRequest o) v.

(** The fields of [struct UsbInterfacePool] for the requests. *)
Record PoolIo := mkPoolIo {
  submitRequestQueue : list Z;
  queue_sem : Z;
  ioProcessStopStatus : UsbPoolProcessStatusType;
}.

(** What has happened: calls to the kernel with their answers, and completions.
    An answer [None] of an ioctl is success, [Some e] the error [e].  The owner of
    a request is the client's object it belongs to. *)
Inductive io_event :=
| Mapped (len : Z) (answer : option Z)
| Unmapped (r size : Z) (ok : bool)
| Submitted (owner : nat) (u : UsbAdapterUrb) (bytes : list Z) (answer : option Z)
| Discarded (b : nat) (i : Z)
| Reaped (b i : nat) (st n : Z)
| ReapFailed (errno : Z)
| SemInit (ok : bool)
| Completed (o : nat) (cb : option nat) (c : UsbRequestCompInfo) (bytes : list Z)
| RawCompleted (cb : nat) (r : Z).

(** The kernel below the device file. *)
Class UrbKernel := {
  mmap : list io_event -> gset Z -> Z -> option Z;
  munmap : list io_event -> Z -> Z -> bool;
  submiturb : list io_event -> nat -> UsbAdapterUrb -> list Z -> option Z;
  handle_caps : nat -> Z;
  sem_init : list io_event -> bool;
}.

(** ** The state

    Beside the pools and interfaces ([host]): the requests by their page, the
    client's objects by their block, the URBs by their block, the I/O fields of
    the pools, the local variables whose address was taken, and what the kernel
    holds: the URBs submitted and not yet reaped, with their owners. *)
Record Io (K : Type) := mkIo {
  host : Host K;
  requests : gmap Z UsbHostRequest;
  objects : gmap nat UsbIfRequest;
  urb_blocks : gmap nat (list UsbAdapterUrb);
  pool_io : gmap nat PoolIo;
  g_usbRequestObjectId : Z;
  frames : gmap nat Z;
  next_frame : nat;
  held : list (nat * (nat * nat));
  history : list io_event;
}.
Arguments mkIo {K}.
Arguments host {K}. Arguments requests {K}. Arguments objects {K}. Arguments urb_blocks {K}. Arguments pool_io {K}.
Arguments g_usbRequestObjectId {K}. Arguments frames {K}. Arguments next_frame {K}. Arguments held {K}. Arguments history {K}.

Section state.
Context {K : Type}.
Implicit Types (s : Io K).
Definition set_host (v : Host K) s : Io K := mkIo v (requests s) (objects s) (urb_blocks s) (pool_io s) (g_usbRequestObjectId s) (frames s) (next_frame s) (held s) (history s).
Definition set_requests (v : gmap Z UsbHostRequest) s : Io K := mkIo (host s) v (objects s) (urb_blocks s) (pool_io s) (g_usbRequestObjectId s) (frames s) (next_frame s) (held s) (history s).
Definition set_objects (v : gmap nat UsbIfRequest) s : Io K := mkIo (host s) (requests s) v (urb_blocks s) (pool_io s) (g_usbRequestObjectId s) (frames s) (next_frame s) (held s) (history s).
Definition set_urb_blocks (v : gmap nat (list UsbAdapterUrb)) s : Io K := mkIo (host s) (requests s) (objects s) v (pool_io s) (g_usbRequestObjectId s) (frames s) (next_frame s) (held s) (history s).
Definition set_pool_io (v : gmap nat PoolIo) s : Io K := mkIo (host s) (requests s) (objects s) (urb_blocks s) v (g_usbRequestObjectId s) (frames s) (next_frame s) (held s) (history s).
Definition set_g_usbRequestObjectId (v : Z) s : Io K := mkIo (host s) (requests s) (objects s) (urb_blocks s) (pool_io s) v (frames s) (next_frame s) (held s) (history s).
Definition set_frames (v : gmap nat Z) s : Io K := mkIo (host s) (requests s) (objects s) (urb_blocks s) (pool_io s) (g_usbRequestObjectId s) v (next_frame s) (held s) (history s).
Definition set_next_frame (v : nat) s : Io K := mkIo (host s) (requests s) (objects s) (urb_blocks s) (pool_io s) (g_usbRequestObjectId s) (frames s) v (held s) (history s).
Definition set_held (v : list (nat * (nat * nat))) s : Io K := mkIo (host s) (requests s) (objects s) (urb_blocks s) (pool_io s) (g_usbRequestObjectId s) (frames s) (next_frame s) v (history s).
Definition set_history (v : list io_event) s : Io K := mkIo (host s) (requests s) (objects s) (urb_blocks s) (pool_io s) (g_usbRequestObjectId s) (frames s) (next_frame s) (held s) v.
End state.

Definition zero_urb : UsbAdapterUrb := mkUrb 0 0 0 0 (0, 0) 0 0 0 None [].
Definition zero_iso : UsbIsoPacketDesc := mkIsoDesc 0 0 0.
Definition zero_compInfo : UsbRequestCompInfo := mkCompInfo USB_REQUEST_TYPE_INVALID None 0 0 USB_REQUEST_COMPLETED NoData.
(** A fresh mapping holds zeros. *)
Definition zero_request (room descs : Z) : UsbHostRequest :=
  mkHostRequest (replicate (Z.to_nat room) 0) 0 0 USB_REQUEST_COMPLETED NoData None None None 0 None 0 0 0 None NoUrbs 0 0
    USB_REQUEST_COMPLETED 0 None 0 (replicate (Z.to_nat descs) zero_iso).

(** [bs] written into [l] from the place [off] on. *)
Definition splice (off : nat) (bs l : list Z) : list Z := take off l ++ bs ++ drop (off + length bs) l.

Section requests.
Context {HS : HdfStatus} {US : UsbStatus} {IS : IoStatus} {RA : RamAlloc} {SZ : UsbSizes} {RZ : ReqSizes} {K : Type} {HA : HostAdapter K} {UK : UrbKernel}.
Abbreviation I := (Prog (Io K)).

(** ** Access *)
Definition io_get {A} (f : Io K -> A) : I A := fun s => Done (f s, s).
Definition io_put (f : Io K -> Io K) : I unit := fun s => Done (tt, f s).
Definition on_host {A} (m : Prog (Host K) A) : I A := fun s =>
  match m (host s) with Done (a, h) => Done (a, set_host h s) | Undefined => Undefined | Running => Running end.
Definition happens (e : io_event) : I unit := io_put (fun s => set_history (history s ++ [e]) s).
Definition take_memory (size : Z) : I (option nat) := on_host (on_ram (RawUsbMemCalloc size)).
Definition free_memory (b : nat) : I unit := on_host (on_ram (RawUsbMemFree b)).

(** The thing a pointer points to; undefined when it is not there. *)
Definition must {A} (p : option A) : I A := match p with Some a => mret a | None => crash end.
Definition host_request (r : Z) : I UsbHostRequest := q ← io_get (fun s => requests s !! r); must q.
Definition set_request (r : Z) (q : UsbHostRequest) : I unit := io_put (fun s => set_requests (<[r := q]> (requests s)) s).
Definition upd_request (r : Z) (f : UsbHostRequest -> UsbHostRequest) : I unit := q ← host_request r; set_request r (f q).
Definition if_request (o : nat) : I UsbIfRequest := x ← io_get (fun s => objects s !! o); must x.
Definition upd_object (o : nat) (f : UsbIfRequest -> UsbIfRequest) : I unit :=
  x ← if_request o; io_put (fun s => set_objects (<[o := f x]> (objects s)) s).
Definition urb_at (b i : nat) : I UsbAdapterUrb := l ← io_get (fun s => urb_blocks s !! b); l ← must l; must (l !! i).
Definition upd_urb (b i : nat) (f : UsbAdapterUrb -> UsbAdapterUrb) : I unit :=
  u ← urb_at b i;
  io_put (fun s => set_urb_blocks (alter (fun l => <[i := f u]> l) b (urb_blocks s)) s).
(** Following the handle of the device, which may be null. *)
Definition open_handle (d : option nat) : I nat := d ← must d; on_host (live_handle d);; mret d.

(** Bytes of the buffer of a request. *)
Definition read_buffer (p : BufPtr) (n : Z) : I (list Z) :=
  q ← host_request p.1;
  if (0 <=? p.2) && (0 <=? n) && (p.2 + n <=? Z.of_nat (length (hr_buffer q)))
  then mret (take (Z.to_nat n) (drop (Z.to_nat p.2) (hr_buffer q))) else crash.
Definition write_buffer (p : BufPtr) (bs : list Z) : I unit :=
  q ← host_request p.1;
  if (0 <=? p.2) && (p.2 + Z.of_nat (length bs) <=? Z.of_nat (length (hr_buffer q)))
  then set_request p.1 (set_hr_buffer (splice (Z.to_nat p.2) bs (hr_buffer q)) q) else crash.

(** [memcpy_s] of the C library into the buffer of a request.  A copy that does
    not fit into [destMax] bytes, or from a null pointer, is refused and the
    destination cleared; so is one with an impossible [destMax], without a trace. *)
Definition memcpy_s (p : BufPtr) (destMax : Z) (src : option (list Z)) (count : Z) : I Z :=
  if (destMax <=? 0) || (RSIZE_MAX <? destMax) then mret copy_refused
  else
    match src with
    | None => write_buffer p (replicate (Z.to_nat destMax) 0);; mret copy_refused
    | Some bs =>
        if destMax <? count then write_buffer p (replicate (Z.to_nat destMax) 0);; mret copy_refused
        else if Z.of_nat (length bs) <? count then crash
        else write_buffer p (take (Z.to_nat count) bs);; mret 0
    end.

(** ** Semaphores of requests *)
Definition OsalSemInit (r : Z) : I Z :=
  h ← io_get history;
  happens (SemInit (sem_init h));;
  if sem_init h then upd_request r (set_hr_sem (Some 0));; mret HDF_SUCCESS else mret HDF_FAILURE.
Definition OsalSemPost (r : Z) : I unit :=
  q ← host_request r; n ← must (hr_sem q); set_request r (set_hr_sem (Some (n + 1)) q).
Definition OsalSemDestroy (r : Z) : I unit := upd_request r (set_hr_sem None).
(** A wait that succeeds; one that would block is not a step. *)
Definition sem_taken (r : Z) : I bool :=
  q ← host_request r; n ← must (hr_sem q);
  if 0 <? n then set_request r (set_hr_sem (Some (n - 1)) q);; mret true else mret false.

(** ** Completion of a request *)
Definition UsbIoSetRequestCompletionInfo (r : Z) : I unit :=
  q ← host_request r;
  match hr_privateObj q with
  | None => mret tt
  | Some o =>
      x ← if_request o;
      let off := if Z.land (hr_requestType q) USB_DDK_ENDPOINT_XFERTYPE_MASK =? USB_DDK_ENDPOINT_XFER_CONTROL
                 then USB_RAW_CONTROL_SETUP_SIZE else 0 in
      let c := mkCompInfo (ci_type (compInfo x)) (Some (r, off)) (hr_length q) (u32 (hr_actualLength q)) (hr_status q)
                 (hr_userData q) in
      upd_object o (set_compInfo c);;
      happens (Completed o (hr_userCallback q) c (take (Z.to_nat (ci_actualLength c)) (drop (Z.to_nat off) (hr_buffer q))));;
      x ← if_request o;
      if isSyncReq x then OsalSemPost r else mret tt
  end.

Definition SyncRequestCallback (r : Z) : I unit :=
  q ← host_request r;
  match hr_userData q with
  | NoData => mret tt
  | ClientData _ => crash
  | CompletedVar f =>
      v ← io_get (fun s => frames s !! f); must v;;
      io_put (fun s => set_frames (<[f := 1]> (frames s)) s);;
      OsalSemPost r
  end.

Definition RawHandleRequestCompletion (r : Z) (st : UsbRequestStatus) : I Z :=
  upd_request r (set_hr_status st);;
  q ← host_request r;
  (match hr_callback q with
   | None => mret tt
   | Some UsbIoSetRequestCompletionInfo_cb => UsbIoSetRequestCompletionInfo r
   | Some SyncRequestCallback_cb => SyncRequestCallback r
   | Some (ClientCallback cb) => happens (RawCompleted cb r)
   end);;
  mret HDF_SUCCESS.

(** ** Memory of requests and URBs *)

(** The pages [n] bytes take, and the pages that are mapped. *)
Definition pages (n : Z) : Z := (n + page_size - 1) / page_size.
Definition page_range (r n : Z) : list Z := map (fun i => r + Z.of_nat i) (seq 0 (Z.to_nat n)).
Definition mapped_pages (s : Io K) : gset Z :=
  ⋃ (map (fun '(r, q) => list_to_set (page_range r (pages (hr_bufLen q)))) (map_to_list (requests s))).

Definition calloc_urbs (n : Z) : I (option nat) :=
  b ← take_memory (n * sizeof_UsbAdapterUrb);
  match b with
  | None => mret None
  | Some b => io_put (fun s => set_urb_blocks (<[b := replicate (Z.to_nat n) zero_urb]> (urb_blocks s)) s);; mret (Some b)
  end.
Definition free_urb (b : nat) : I unit :=
  free_memory b;; io_put (fun s => set_urb_blocks (delete b (urb_blocks s)) s).
Definition free_urbs (p : UrbsPtr) : I unit :=
  match p with NoUrbs => mret tt | Urbs b => free_urb b | IsoUrbs b _ => free_memory b end.

Definition request_size (isoPackets len : Z) : Z :=
  u64 (sizeof_UsbHostRequest + sizeof_UsbIsoPacketDesc * u64 isoPackets + len).
(** [len] bytes are mapped; the structure and the buffer together take more. *)
Definition AdapterAllocRequest (d : option nat) (isoPackets len : Z) : I (option Z) :=
  match d with
  | None => mret None
  | Some _ =>
      let allocSize := request_size isoPackets len in
      open_handle d;;
      s ← io_get (fun s => s);
      let a := mmap (history s) (mapped_pages s) len in
      happens (Mapped len a);;
      match a with
      | None => mret None
      | Some r =>
          let room := pages len * page_size in
          set_request r (set_hr_bufLen (i32 len) (set_hr_numIsoPackets isoPackets
            (zero_request (room - (allocSize - len)) (Z.min isoPackets ((room - sizeof_UsbHostRequest) / sizeof_UsbIsoPacketDesc)))));;
          b ← calloc_urbs 1;
          upd_request r (set_hr_bulkUrb b);;
          match b with
          | None => mret None
          | Some b => upd_request r (set_hr_urbs (Urbs b));; mret (Some r)
          end
      end
  end.

(** Every request that starts in an unmapped page is gone. *)
Definition unmap (r n : Z) (m : gmap Z UsbHostRequest) : gmap Z UsbHostRequest := filter (fun e => ~ r <= e.1 < r + n) m.
Definition AdapterFreeRequest (r : option Z) : I Z :=
  match r with
  | None => mret HDF_ERR_INVALID_PARAM
  | Some r =>
      q ← host_request r;
      let allocSize := request_size (hr_numIsoPackets q) (u64 (hr_bufLen q)) in
      (match hr_bulkUrb q with Some b => free_urb b;; upd_request r (set_hr_bulkUrb None) | None => mret tt end);;
      upd_request r (set_hr_urbs NoUrbs);;
      h ← io_get history;
      let ok := munmap h r allocSize in
      happens (Unmapped r allocSize ok);;
      if negb ok then mret HDF_ERR_IO
      else io_put (fun s => set_requests (unmap r (pages allocSize) (requests s)) s);; mret HDF_SUCCESS
  end.

(** ** Handing URBs to the kernel *)

(** [ioctl(fd, USBDEVFS_SUBMITURB, urb)].  The kernel sees the URB and the bytes
    it points to, as far as they are mapped, and holds the URB when it accepts. *)
Definition ioctl_SUBMITURB (d : nat) (b i : nat) : I (option Z) :=
  u ← urb_at b i;
  r ← must (urb_userContext u);
  q ← host_request r;
  s ← io_get (fun s => s);
  let bytes := match requests s !! (urb_buffer u).1 with
               | Some q => take (Z.to_nat (urb_bufferLength u)) (drop (Z.to_nat (urb_buffer u).2) (hr_buffer q))
               | None => []
               end in
  let o := default O (hr_privateObj q) in
  let a := submiturb (history s) d u bytes in
  happens (Submitted o u bytes a);;
  (match a with None => io_put (fun s => set_held (held s ++ [(o, (b, i))]) s) | Some _ => mret tt end);;
  mret a.

Definition OsFreeIsoUrbs (r : Z) : I unit :=
  q ← host_request r;
  match hr_urbs q with
  | IsoUrbs b l =>
      (fix free (n : nat) (l : list (option nat)) : I unit :=
         match n, l with
         | O, _ => mret tt
         | S _, [] => crash
         | S _, None :: _ => mret tt
         | S n, Some u :: l => free_urb u;; free n l
         end) (Z.to_nat (hr_numUrbs q)) l;;
      free_memory b;; upd_request r (set_hr_urbs NoUrbs)
  | _ => crash
  end.

(** URBs are cancelled from the last to the first.  Of a request that is not
    isochronous the [i]-th is taken to be [i] bytes behind the first. *)
Fixpoint discard_urbs (n : nat) (first : Z) (r : Z) : I unit :=
  match n with
  | O => mret tt
  | S n =>
      let i := first + Z.of_nat n in
      q ← host_request r;
      d ← open_handle (hr_devHandle q);
      (if hr_requestType q =? USB_REQUEST_TYPE_ISOCHRONOUS then
         match hr_urbs q with
         | IsoUrbs _ l => u ← must (l !! Z.to_nat i); match u with Some u => happens (Discarded u 0) | None => mret tt end
         | _ => crash
         end
       else match hr_urbs q with
            | Urbs b => happens (Discarded b i)
            | IsoUrbs b _ => happens (Discarded b i)
            | NoUrbs => mret tt
            end);;
      discard_urbs n first r
  end.
Definition OsDiscardUrbs (r : Z) (first last : Z) : I unit :=
  q ← host_request r;
  if bool_decide (hr_devHandle q = None) || (URBS_PER_REQUEST <? first) || (last <? first) then mret tt
  else discard_urbs (Z.to_nat (last - first)) first r.

Definition OsSubmitControlRequest (r : Z) : I Z :=
  q ← host_request r;
  if bool_decide (hr_devHandle q = None) || (MAX_BULK_DATA_BUFFER_LENGTH <? hr_length q) then mret HDF_ERR_INVALID_PARAM
  else
    d ← open_handle (hr_devHandle q);
    b ← calloc_urbs 1;
    match b with
    | None => mret HDF_ERR_MALLOC_FAIL
    | Some b =>
        upd_urb b 0 (fun u =>
          set_urb_userContext (Some r) (set_urb_bufferLength (i32 (hr_length q)) (set_urb_buffer (r, 0)
            (set_urb_endPoint (hr_endPoint q) (set_urb_type USB_ADAPTER_URB_TYPE_CONTROL u)))));;
        upd_request r (fun q => set_hr_numUrbs 1 (set_hr_urbs (Urbs b) q));;
        a ← ioctl_SUBMITURB d b 0;
        match a with
        | None => mret HDF_SUCCESS
        | Some e =>
            free_urb b;; upd_request r (set_hr_urbs NoUrbs);;
            if e =? ENODEV then mret HDF_DEV_ERR_NO_DEVICE else mret HDF_ERR_IO
        end
    end.

Definition OsSubmitBulkRequestHandleUrb (r : Z) (b i : nat) (bulkBufferLen number : Z) : I Z :=
  if bulkBufferLen =? 0 then mret HDF_ERR_INVALID_PARAM
  else
    upd_urb b i (set_urb_userContext (Some r));;
    q ← host_request r;
    let ty := if hr_requestType q =? USB_REQUEST_TYPE_BULK then Some USB_ADAPTER_URB_TYPE_BULK
              else if hr_requestType q =? USB_REQUEST_TYPE_INTERRUPT then Some USB_ADAPTER_URB_TYPE_INTERRUPT else None in
    match ty with
    | None => mret HDF_ERR_INVALID_PARAM
    | Some ty =>
        let len := hr_length q `mod` bulkBufferLen in
        upd_urb b i (fun u =>
          set_urb_bufferLength (if number =? hr_numUrbs q - 1 then (if len =? 0 then bulkBufferLen else len) else bulkBufferLen)
            (set_urb_buffer (r, number * bulkBufferLen) (set_urb_endPoint (hr_endPoint q) (set_urb_type ty u))));;
        mret HDF_SUCCESS
    end.

(** The loop over the URBs from the [i]-th on. *)
Fixpoint submit_bulk (n i : nat) (d : nat) (r : Z) (b : nat) (numUrbs bulkBufferLen : Z) : I Z :=
  match n with
  | O => mret HDF_SUCCESS
  | S n =>
      urb_at b i;;
      ret ← OsSubmitBulkRequestHandleUrb r b i bulkBufferLen (Z.of_nat i);
      if negb (ret =? HDF_SUCCESS) then mret ret
      else
        a ← ioctl_SUBMITURB d b i;
        match a with
        | None => submit_bulk n (S i) d r b numUrbs bulkBufferLen
        | Some e =>
            if (i =? 0)%nat then mret HDF_ERR_IO
            else
              upd_request r (fun q => set_hr_numRetired (hr_numRetired q + (numUrbs - Z.of_nat i)) q);;
              (if e =? EREMOTEIO then mret tt else upd_request r (set_hr_reqStatus USB_REQUEST_ERROR));;
              mret HDF_SUCCESS
        end
  end.
Definition OsSubmitBulkRequestHandle (r : Z) (b : nat) (bulkBufferLen : Z) : I Z :=
  q ← host_request r;
  d ← open_handle (hr_devHandle q);
  submit_bulk (Z.to_nat (hr_numUrbs q)) 0 d r b (hr_numUrbs q) bulkBufferLen.

(** Into how many URBs of which size a request is split. *)
Definition bulk_buffer_len (caps len : Z) : Z :=
  if negb (Z.land caps USB_ADAPTER_CAP_BULK_SCATTER_GATHER =? 0) then (if len =? 0 then 1 else len)
  else if negb (Z.land caps USB_ADAPTER_CAP_BULK_CONTINUATION =? 0) then MAX_BULK_DATA_BUFFER_LENGTH
  else if negb (Z.land caps USB_ADAPTER_CAP_NO_PACKET_SIZE_LIM =? 0) then (if len =? 0 then 1 else len)
  else MAX_BULK_DATA_BUFFER_LENGTH.
Definition bulk_num_urbs (len bulkBufferLen : Z) : Z :=
  if len =? 0 then 1
  else len / bulkBufferLen + (if 0 <? len `mod` bulkBufferLen then 1 else 0).
Definition OsSubmitBulkRequest (r : Z) : I Z :=
  q ← host_request r;
  if (MAX_BULK_DATA_BUFFER_LENGTH <? hr_length q) || (hr_length q <=? 0) then mret (-1)
  else
    d ← open_handle (hr_devHandle q);
    let bulkBufferLen := bulk_buffer_len (handle_caps d) (hr_length q) in
    let numUrbs := bulk_num_urbs (hr_length q) bulkBufferLen in
    urbs ← (if negb (numUrbs =? 1) then
              b ← calloc_urbs numUrbs;
              (match hr_bulkUrb q with Some old => free_urb old | None => mret tt end);;
              upd_request r (fun q => set_hr_urbs NoUrbs (set_hr_bulkUrb b q));;
              mret b
            else mret (hr_bulkUrb q));
    match urbs with
    | None => mret HDF_ERR_MALLOC_FAIL
    | Some b =>
        upd_request r (fun q => set_hr_reqStatus USB_REQUEST_COMPLETED (set_hr_numRetired 0 (set_hr_numUrbs numUrbs (set_hr_urbs (Urbs b) q))));;
        OsSubmitBulkRequestHandle r b bulkBufferLen
    end.

(** *** Isochronous requests *)

(** The packets of one URB; the result is their length in total and the index of
    the next packet. *)
Fixpoint iso_packets (n j : nat) (r : Z) (u : nat) (packetIdx : nat) : I nat :=
  match n with
  | O => mret packetIdx
  | S n =>
      q ← host_request r;
      p ← must (hr_isoPacketDesc q !! packetIdx);
      upd_urb u 0 (fun x => set_urb_bufferLength (i32 (urb_bufferLength x + iso_length p)) x);;
      x ← urb_at u 0;
      f ← must (urb_isoFrameDesc x !! j);
      upd_urb u 0 (fun x => set_urb_isoFrameDesc
        (<[j := mkIsoDesc (iso_length p) (iso_actualLength f) (iso_status f)]> (urb_isoFrameDesc x)) x);;
      iso_packets n (S j) r u (S packetIdx)
  end.
(** The loop over the URBs; [off] is where the next one's bytes start. *)
Fixpoint alloc_iso (n i : nat) (r : Z) (numPacketsLeft : Z) (packetIdx : nat) (off : Z) : I Z :=
  match n with
  | O => mret HDF_SUCCESS
  | S n =>
      let numPackets := Z.min numPacketsLeft MAX_ISO_PACKETS_PER_URB in
      u ← calloc_urbs 1;
      match u with
      | None => OsFreeIsoUrbs r;; mret HDF_ERR_MALLOC_FAIL
      | Some u =>
          upd_request r (fun q => match hr_urbs q with
                                  | IsoUrbs b l => set_hr_urbs (IsoUrbs b (<[i := Some u]> l)) q
                                  | _ => q end);;
          packetIdx ← iso_packets (Z.to_nat numPackets) 0 r u packetIdx;
          q ← host_request r;
          upd_urb u 0 (fun x =>
            set_urb_userContext (Some r) (set_urb_buffer (r, off) (set_urb_numberOfPackets numPackets
              (set_urb_endPoint (hr_endPoint q) (set_urb_flags USB_ADAPTER_URB_ISO_ASAP (set_urb_type USB_ADAPTER_URB_TYPE_ISO x))))));;
          x ← urb_at u 0;
          alloc_iso n (S i) r (numPacketsLeft - numPackets) packetIdx (off + urb_bufferLength x)
      end
  end.
Definition OsAllocIsoUrbs (r : Z) (numUrbs : Z) : I Z :=
  q ← host_request r; alloc_iso (Z.to_nat numUrbs) 0 r (hr_numIsoPackets q) 0 0.

(** The structure itself, not its address, is passed to [ioctl], which takes it
    for an address: undefined as soon as there is an URB. *)
Definition OsSubmitIsoUrbs (r : Z) (numUrbs : Z) : I Z := if 0 <? numUrbs then crash else mret HDF_SUCCESS.

Fixpoint iso_total (n i : nat) (r : Z) (totalLen : Z) : I (Z * Z) :=
  match n with
  | O => mret (HDF_SUCCESS, totalLen)
  | S n =>
      q ← host_request r;
      p ← must (hr_isoPacketDesc q !! i);
      if MAX_ISO_DATA_BUFFER_LEN <? iso_length p then mret (HDF_ERR_INVALID_PARAM, totalLen)
      else iso_total n (S i) r (u32 (totalLen + iso_length p))
  end.
Definition OsSubmitIsoRequest (r : Z) : I Z :=
  q ← host_request r;
  if bool_decide (hr_devHandle q = None) || (hr_numIsoPackets q <? 1) then mret HDF_ERR_INVALID_PARAM
  else if MAX_ISO_DATA_BUFFER_LEN <? hr_length q then mret (-1)
  else
    '(ret, totalLen) ← iso_total (Z.to_nat (hr_numIsoPackets q)) 0 r 0;
    if negb (ret =? HDF_SUCCESS) then mret ret
    else if u32 (hr_length q) <? totalLen then mret HDF_ERR_INVALID_PARAM
    else
      let numUrbs := i32 (hr_numIsoPackets q + (MAX_ISO_PACKETS_PER_URB - 1)) / MAX_ISO_PACKETS_PER_URB in
      b ← take_memory (numUrbs * sizeof_pointer);
      match b with
      | None => mret HDF_ERR_MALLOC_FAIL
      | Some b =>
          upd_request r (fun q => set_hr_isoPacketOffset 0 (set_hr_numRetired 0 (set_hr_numUrbs numUrbs
            (set_hr_urbs (IsoUrbs b (replicate (Z.to_nat numUrbs) None)) q))));;
          ret ← OsAllocIsoUrbs r numUrbs;
          if negb (ret =? HDF_SUCCESS) then mret ret else OsSubmitIsoUrbs r numUrbs
      end.

Definition AdapterSubmitRequest (r : Z) : I Z :=
  upd_request r (set_hr_actualLength 0);;
  q ← host_request r;
  let t := hr_requestType q in
  if t =? USB_REQUEST_TYPE_CONTROL then OsSubmitControlRequest r
  else if t =? USB_REQUEST_TYPE_ISOCHRONOUS then OsSubmitIsoRequest r
  else if (t =? USB_REQUEST_TYPE_BULK) || (t =? USB_REQUEST_TYPE_INTERRUPT) then OsSubmitBulkRequest r
  else mret HDF_ERR_INVALID_PARAM.

(** The request is not null. *)
Definition AdapterCancelRequest (r : Z) : I Z :=
  q ← host_request r;
  match hr_urbs q with
  | NoUrbs => mret HDF_ERR_BAD_FD
  | _ =>
      OsDiscardUrbs r 0 (hr_numUrbs q);;
      q ← host_request r;
      (if negb ((hr_requestType q =? USB_REQUEST_TYPE_BULK) && bool_decide (hr_reqStatus q = USB_REQUEST_ERROR))
       then upd_request r (set_hr_reqStatus USB_REQUEST_CANCELLED) else mret tt);;
      mret HDF_SUCCESS
  end.

(** ** URBs the kernel gives back *)
Definition OsControlCompletion (r : Z) (b i : nat) : I Z :=
  u ← urb_at b i;
  upd_request r (fun q => set_hr_actualLength (i32 (hr_actualLength q + urb_actualLength u)) q);;
  q ← host_request r;
  if bool_decide (hr_reqStatus q = USB_REQUEST_CANCELLED) then
    free_urbs (hr_urbs q);; upd_request r (set_hr_urbs NoUrbs);; RawHandleRequestCompletion r USB_REQUEST_CANCELLED
  else
    let st := urb_status u in
    let status := if st =? 0 then USB_REQUEST_COMPLETED
                  else if st =? - ENOENT then USB_REQUEST_CANCELLED
                  else if st =? - EPIPE then USB_REQUEST_STALL
                  else if st =? - EOVERFLOW then USB_REQUEST_OVERFLOW
                  else if (st =? - ENODEV) || (st =? - ESHUTDOWN) then USB_REQUEST_NO_DEVICE
                  else USB_REQUEST_ERROR in
    free_urbs (hr_urbs q);; upd_request r (set_hr_urbs NoUrbs);; RawHandleRequestCompletion r status.

(** The number of a status. *)
Definition status_number (st : UsbRequestStatus) : Z :=
  match st with
  | USB_REQUEST_COMPLETED => 0 | USB_REQUEST_COMPLETED_SHORT => 1 | USB_REQUEST_ERROR => 2 | USB_REQUEST_TIMEOUT => 3
  | USB_REQUEST_CANCELLED => 4 | USB_REQUEST_STALL => 5 | USB_REQUEST_NO_DEVICE => 6 | USB_REQUEST_OVERFLOW => 7
  end.
Definition iso_packet_status (st : Z) : UsbRequestStatus :=
  if st =? HDF_SUCCESS then USB_REQUEST_COMPLETED
  else if (st =? u32 (- ENODEV)) || (st =? u32 (- ESHUTDOWN)) then USB_REQUEST_NO_DEVICE
  else if st =? u32 (- EPIPE) then USB_REQUEST_STALL
  else if st =? u32 (- EOVERFLOW) then USB_REQUEST_OVERFLOW
  else USB_REQUEST_ERROR.
Fixpoint iso_results (n i : nat) (r : Z) (b k : nat) : I unit :=
  match n with
  | O => mret tt
  | S n =>
      u ← urb_at b k;
      p ← must (urb_isoFrameDesc u !! i);
      q ← host_request r;
      x ← must (hr_isoPacketDesc q !! Z.to_nat (hr_isoPacketOffset q));
      upd_request r (fun q => set_hr_isoPacketOffset (hr_isoPacketOffset q + 1)
        (set_hr_isoPacketDesc (<[Z.to_nat (hr_isoPacketOffset q) :=
           mkIsoDesc (iso_length x) (iso_actualLength p) (status_number (iso_packet_status (iso_status p)))]> (hr_isoPacketDesc q)) q));;
      iso_results n (S i) r b k
  end.
Definition OsIsoRequestDesStatus (r : Z) (b k : nat) : I unit :=
  u ← urb_at b k; iso_results (Z.to_nat (urb_numberOfPackets u)) 0 r b k.

Definition OsIsoCompletion (r : Z) (b k : nat) : I Z :=
  q ← host_request r;
  let numUrbs := hr_numUrbs q in
  l ← (match hr_urbs q with IsoUrbs _ l => mret l | _ => crash end);
  if negb (bool_decide (Some b ∈ take (Z.to_nat numUrbs) l)) then mret HDF_ERR_BAD_FD
  else
    OsIsoRequestDesStatus r b k;;
    upd_request r (fun q => set_hr_numRetired (hr_numRetired q + 1) q);;
    q ← host_request r;
    u ← urb_at b k;
    if negb (bool_decide (hr_reqStatus q = USB_REQUEST_COMPLETED)) then
      if hr_numRetired q =? numUrbs then OsFreeIsoUrbs r;; RawHandleRequestCompletion r USB_REQUEST_ERROR else mret 0
    else
      let st := urb_status u in
      let status := if st =? - ESHUTDOWN then USB_REQUEST_NO_DEVICE
                    else if negb ((st =? HDF_SUCCESS) || (st =? - ENOENT) || (st =? - ECONNRESET)) then USB_REQUEST_ERROR
                    else USB_REQUEST_COMPLETED in
      if hr_numRetired q =? numUrbs then OsFreeIsoUrbs r;; RawHandleRequestCompletion r status else mret 0.

(** Bytes of an URB that are not where those of the request end are moved there. *)
Definition OsProcessAbnormalReap (r : Z) (b i : nat) : I Z :=
  u ← urb_at b i;
  (if 0 <? urb_actualLength u then
     q ← host_request r;
     let target := (r, hr_actualLength q) in
     (if negb (bool_decide (urb_buffer u = target)) then
        bs ← read_buffer (urb_buffer u) (urb_actualLength u); write_buffer target bs
      else mret tt);;
     upd_request r (fun q => set_hr_actualLength (i32 (hr_actualLength q + urb_actualLength u)) q)
   else mret tt);;
  q ← host_request r;
  if hr_numRetired q =? hr_numUrbs q then mret HDF_SUCCESS else mret HDF_ERR_IO.

(** The first error of an URB is that of the request. *)
Definition keep_first (st : UsbRequestStatus) (q : UsbHostRequest) : UsbHostRequest :=
  if bool_decide (hr_reqStatus q = USB_REQUEST_COMPLETED) then set_hr_reqStatus st q else q.
Definition OsUrbStatusToRequestStatus (r : Z) (b i : nat) : I Z :=
  u ← urb_at b i;
  let st := urb_status u in
  if st =? 0 then mret HDF_SUCCESS
  else if st =? - ESHUTDOWN then upd_request r (set_hr_reqStatus USB_REQUEST_NO_DEVICE);; mret HDF_DEV_ERR_NO_DEVICE
  else if st =? - EPIPE then upd_request r (keep_first USB_REQUEST_STALL);; mret HDF_DEV_ERR_NO_DEVICE
  else if st =? - EOVERFLOW then upd_request r (keep_first USB_REQUEST_OVERFLOW);; mret HDF_FAILURE
  else upd_request r (keep_first USB_REQUEST_ERROR);; mret HDF_DEV_ERR_NO_DEVICE.

(** The labels [COMPLETED], [CANCEL] and [OUT]. *)
Definition bulk_completed (r : Z) : I Z := q ← host_request r; RawHandleRequestCompletion r (hr_reqStatus q).
Definition bulk_cancel (r urbIdx : Z) : I Z :=
  q ← host_request r;
  if hr_numRetired q =? hr_numUrbs q then bulk_completed r
  else OsDiscardUrbs r (urbIdx + 1) (hr_numUrbs q);; mret HDF_SUCCESS.
Definition OsBulkCompletion (r : Z) (b i : nat) : I Z :=
  q ← host_request r;
  (match hr_urbs q with
   | Urbs b' => if (b' =? b)%nat then mret tt else crash
   | _ => crash
   end);;
  upd_request r (fun q => set_hr_numRetired (hr_numRetired q + 1) q);;
  if negb (bool_decide (hr_reqStatus q = USB_REQUEST_COMPLETED)) then
    ret ← OsProcessAbnormalReap r b i;
    if ret =? HDF_SUCCESS then bulk_completed r else mret HDF_SUCCESS
  else
    u ← urb_at b i;
    upd_request r (fun q => set_hr_actualLength (i32 (hr_actualLength q + urb_actualLength u)) q);;
    ret ← OsUrbStatusToRequestStatus r b i;
    if ret =? HDF_DEV_ERR_NO_DEVICE then bulk_cancel r (Z.of_nat i)
    else if ret =? HDF_FAILURE then bulk_completed r
    else
      q ← host_request r;
      if hr_numRetired q =? hr_numUrbs q then bulk_completed r
      else if urb_actualLength u <? urb_bufferLength u then
        upd_request r (keep_first USB_REQUEST_COMPLETED_SHORT);; bulk_cancel r (Z.of_nat i)
      else mret HDF_SUCCESS.

(** What [ioctl(fd, USBDEVFS_REAPURB, &urb)] brings: an URB, or an error. *)
Inductive reaped := ReapedUrb (b i : nat) | ReapError (errno : Z).
Definition AdapterUrbCompleteHandle (d : option nat) (a : reaped) : I Z :=
  match d with
  | None => mret HDF_ERR_INVALID_PARAM
  | Some _ =>
      open_handle d;;
      match a with
      | ReapError e =>
          happens (ReapFailed e);;
          if e =? EAGAIN then mret 1 else if e =? ENODEV then mret HDF_DEV_ERR_NO_DEVICE else mret HDF_ERR_IO
      | ReapedUrb b i =>
          u ← urb_at b i;
          r ← must (urb_userContext u);
          q ← host_request r;
          let t := hr_requestType q in
          if t =? USB_REQUEST_TYPE_CONTROL then OsControlCompletion r b i
          else if t =? USB_REQUEST_TYPE_ISOCHRONOUS then OsIsoCompletion r b i
          else if (t =? USB_REQUEST_TYPE_BULK) || (t =? USB_REQUEST_TYPE_INTERRUPT) then OsBulkCompletion r b i
          else mret HDF_FAILURE
      end
  end.
End requests.
