(* ===== verification/UsbReqApi.v ===== *)
(** * UsbReqApi: the calls that make, submit and complete requests

    The request part of [usb_interface_pool.c] and [usb_protocol.c], the queue
    and the threads of [usb_io_manage.c], and the expert mode of
    [usb_raw_api_library.c], over the adapter of [UsbReq].

    A function that waits for a semaphore is cut where it waits: what comes
    before and what comes after are definitions of their own.  So is the body of
    the loop of the sending thread, where other threads can come between. *)
From S2P Require Import Prelude Hdf UsbDesc UsbPool UsbReq.
Open Scope Z_scope.

(** ** Constants and data *)
Definition USB_DIR_OFFSET : Z := 7.
Definition USB_TYPE_OFFSET : Z := 5.
Definition USB_RECIP_OFFSET : Z := 0.
Definition USB_REQUEST_DIR_TO_DEVICE : Z := 0.
Definition USB_REQUEST_DIR_FROM_DEVICE : Z := 1.
Definition USB_REQUEST_TYPE_STANDARD : Z := 0.
Definition USB_REQUEST_TYPE_CLASS : Z := 1.
Definition USB_REQUEST_TYPE_VENDOR : Z := 2.
Definition USB_REQUEST_GET_DESCRIPTOR : Z := 2.
Definition USB_RAW_REQUEST_DEFAULT_TIMEOUT : Z := 1000.
Definition USB_IO_SUBMIT_RETRY_TIME_CNT : nat := 3.
Definition MAX_OBJECT_ID : Z := 0x7FFFFFFF.
Definition BYTE_LENGTH : Z := 8.

(** A buffer of the client is what its memory holds, [None] the null pointer. *)
Record UsbControlRequest := mkControlRequest {
  cr_target : Z; cr_reqType : Z; cr_directon : Z; cr_request : Z; cr_value : Z; cr_index : Z;
  cr_buffer : option (list Z); cr_length : Z;
}.
Record UsbRequestParamsData := mkParamsData {
  pd_numIsoPackets : Z; pd_directon : Z; pd_buffer : option (list Z); pd_length : Z;
}.
Inductive request_params :=
| USB_REQUEST_PARAMS_CTRL_TYPE (ctrlReq : UsbControlRequest)
| USB_REQUEST_PARAMS_DATA_TYPE (dataReq : UsbRequestParamsData).
Record UsbRequestParams := mkParams {
  rp_interfaceId : Z; rp_pipeId : Z; rp_pipeAddress : Z; rp_callback : option nat; rp_userData : UserData;
  rp_timeout : Z; rp_request : request_params;
}.
Record UsbFillRequestData := mkFill {
  fd_endPoint : Z; fd_buffer : option (list Z); fd_length : Z; fd_numIsoPackets : Z; fd_callback : option RawCallback;
  fd_userData : UserData; fd_timeout : Z; fd_userCallback : option nat;
}.
(** [requested] and [data] of the expert mode: results are returned. *)
Record UsbControlRequestData := mkControlData {
  cd_requestType : Z; cd_requestCmd : Z; cd_value : Z; cd_index : Z; cd_length : Z; cd_timeout : Z; cd_data : option (list Z);
}.
Record UsbRequestData := mkRequestData { rd_endPoint : Z; rd_data : option (list Z); rd_length : Z; rd_timeout : Z }.

Definition UsbEndpointDirOut (ep : Z) : bool := Z.land ep USB_DDK_ENDPOINT_DIR_MASK =? 0.
(** The bytes of a 16-bit field, the lower one first. *)
Definition le16 (v : Z) : list Z := [u8 v; u8 (v / 256)].
Definition setup_bytes (requestType request value index length_ : Z) : list Z :=
  [u8 requestType; u8 request] ++ le16 value ++ le16 index ++ le16 length_.

Section api.
Context {HS : HdfStatus} {US : UsbStatus} {IS : IoStatus} {RA : RamAlloc} {SZ : UsbSizes} {RZ : ReqSizes} {K : Type} {HA : HostAdapter K} {UK : UrbKernel}.
Abbreviation I := (Prog (Io K)).

(** ** The expert mode's fill functions: [usb_raw_api_library.c] *)

(** The pointers the functions test for null are those of the request, the handle
    and the fill data; here the first and the last are there. *)
Definition fill_fields (ty : Z) (d : nat) (f : UsbFillRequestData) (q : UsbHostRequest) : UsbHostRequest :=
  set_hr_userCallback (fd_userCallback f) (set_hr_callback (fd_callback f) (set_hr_userData (fd_userData f)
    (set_hr_length (fd_length f) (set_hr_timeout (fd_timeout f) (set_hr_requestType ty
      (set_hr_endPoint (fd_endPoint f) (set_hr_devHandle (Some d) q))))))).
Definition RawFillBulkRequest (r : Z) (d : option nat) (f : UsbFillRequestData) : I Z :=
  match d with
  | None => mret HDF_ERR_INVALID_PARAM
  | Some d =>
      q ← host_request r;
      ret ← (if UsbEndpointDirOut (fd_endPoint f) then
               match fd_buffer f with
               | None => mret HDF_ERR_INVALID_PARAM
               | Some _ => memcpy_s (r, 0) (u64 (hr_bufLen q)) (fd_buffer f) (fd_length f)
               end
             else mret 0);
      if negb (ret =? 0) then mret ret else upd_request r (fill_fields USB_PIPE_TYPE_BULK d f);; mret HDF_SUCCESS
  end.
Definition RawFillControlRequest (r : Z) (d : option nat) (f : UsbFillRequestData) : I Z :=
  match d with
  | None => mret HDF_ERR_INVALID_PARAM
  | Some d => upd_request r (fill_fields USB_PIPE_TYPE_CONTROL d f);; mret HDF_SUCCESS
  end.
Definition RawFillInterruptRequest (r : Z) (d : option nat) (f : UsbFillRequestData) : I Z :=
  match d with
  | None => mret HDF_ERR_INVALID_PARAM
  | Some d =>
      q ← host_request r;
      ret ← (if UsbEndpointDirOut (fd_endPoint f) then memcpy_s (r, 0) (u64 (hr_bufLen q)) (fd_buffer f) (fd_length f) else mret 0);
      if negb (ret =? 0) then mret ret else upd_request r (fill_fields USB_PIPE_TYPE_INTERRUPT d f);; mret HDF_SUCCESS
  end.
Definition RawFillIsoRequest (r : Z) (d : option nat) (f : UsbFillRequestData) : I Z :=
  match d with
  | None => mret HDF_ERR_INVALID_PARAM
  | Some d =>
      q ← host_request r;
      ret ← (if UsbEndpointDirOut (fd_endPoint f) then memcpy_s (r, 0) (u64 (hr_bufLen q)) (fd_buffer f) (fd_length f) else mret 0);
      if negb (ret =? 0) then mret ret
      else
        upd_request r (fun q => set_hr_numIsoPackets (fd_numIsoPackets f) (fill_fields USB_PIPE_TYPE_ISOCHRONOUS d f q));;
        mret HDF_SUCCESS
  end.

(** ** Allocating, submitting, cancelling *)
Definition RawAllocRequest (d : option nat) (isoPackets length_ : Z) : I (option Z) := AdapterAllocRequest d isoPackets (u64 length_).
Definition RawFreeRequest (r : option Z) : I Z := AdapterFreeRequest r.
Definition RawSubmitRequest (r : Z) : I Z := AdapterSubmitRequest r.
Definition RawCancelRequest (r : Z) : I Z := AdapterCancelRequest r.
Definition RawHandleRequest (d : option nat) (a : reaped) : I Z := AdapterUrbCompleteHandle d a.

(** ** Making a request: [usb_interface_pool.c] *)

(** [b] is the client's handle of the interface. *)
Definition UsbAllocRequest (b : nat) (isoPackets length_ : Z) : I (option nat) :=
  e ← on_host (iface_handle b);
  match devHandle e with
  | None => mret None
  | Some d =>
      o ← take_memory sizeof_UsbIfRequest;
      match o with
      | None => mret None
      | Some o =>
          r ← RawAllocRequest (Some d) isoPackets length_;
          match r with
          | None => free_memory o;; mret None
          | Some r =>
              upd_request r (set_hr_devHandle (Some d));;
              io_put (fun s => set_g_usbRequestObjectId (i32 (g_usbRequestObjectId s + 1) `mod` MAX_OBJECT_ID) s);;
              q ← host_request r;
              id ← io_get g_usbRequestObjectId;
              io_put (fun s => set_objects (<[o := mkIfRequest id
                (mkCompInfo USB_REQUEST_TYPE_INVALID (Some (r, 0)) (hr_length q) 0 USB_REQUEST_COMPLETED NoData) (Some r) false]> (objects s)) s);;
              upd_request r (set_hr_privateObj (Some o));;
              mret (Some o)
          end
      end
  end.

Definition UsbFreeRequest (o : nat) : I Z :=
  x ← if_request o;
  match hostRequest x with
  | None => mret HDF_ERR_INVALID_PARAM
  | Some r =>
      ret ← RawFreeRequest (Some r);
      if negb (ret =? HDF_SUCCESS) then mret ret
      else free_memory o;; io_put (fun s => set_objects (delete o (objects s)) s);; mret ret
  end.

(** *** Filling it *)
Definition UsbProtocalFillControlSetup (r : Z) (c : UsbControlRequest) : I Z :=
  if (cr_reqType c =? USB_REQUEST_TYPE_STANDARD) || (cr_reqType c =? USB_REQUEST_TYPE_CLASS) || (cr_reqType c =? USB_REQUEST_TYPE_VENDOR) then
    let requestType := Z.lor (Z.lor (Z.shiftl (u8 (cr_directon c)) USB_DIR_OFFSET) (Z.shiftl (u8 (cr_reqType c)) USB_TYPE_OFFSET))
                         (Z.shiftl (u8 (cr_target c)) USB_RECIP_OFFSET) in
    write_buffer (r, 0) (setup_bytes requestType (cr_request c) (cr_value c) (cr_index c) (cr_length c));;
    mret HDF_SUCCESS
  else mret HDF_ERR_INVALID_PARAM.

(** The size given to the copy of the data is not that of the buffer. *)
Definition IfFillControlRequest (r : Z) (d : option nat) (p : UsbRequestParams) (c : UsbControlRequest) : I Z :=
  ret ← UsbProtocalFillControlSetup r c;
  if negb (ret =? HDF_SUCCESS) then mret ret
  else
    ret ← (if (cr_directon c =? USB_REQUEST_DIR_TO_DEVICE) && (0 <? cr_length c) then
             memcpy_s (r, USB_RAW_CONTROL_SETUP_SIZE) (USB_RAW_CONTROL_SETUP_SIZE + cr_length c) (cr_buffer c) (cr_length c)
           else mret 0);
    if negb (ret =? 0) then mret ret
    else
      let endPoint := if cr_directon c =? USB_REQUEST_DIR_TO_DEVICE then 0
                      else u8 (Z.shiftl (u8 (cr_directon c)) USB_DIR_OFFSET) in
      RawFillControlRequest r d
        (mkFill endPoint None (u32 (USB_RAW_CONTROL_SETUP_SIZE + cr_length c)) 0 (Some UsbIoSetRequestCompletionInfo_cb)
           (rp_userData p) (rp_timeout p) (rp_callback p)).

(** The endpoint of a data request. *)
Definition data_endpoint (dir pipeAddress_ : Z) : Z := u8 (Z.lor (Z.shiftl (u8 dir) USB_DIR_OFFSET) pipeAddress_).
Definition data_fill (p : UsbRequestParams) (q : UsbRequestParamsData) : UsbFillRequestData :=
  mkFill (data_endpoint (pd_directon q) (rp_pipeAddress p)) (pd_buffer q) (pd_length q) (pd_numIsoPackets q)
    (Some UsbIoSetRequestCompletionInfo_cb) (rp_userData p) (rp_timeout p) (rp_callback p).
Definition IfFillIsoRequest (r : Z) (d : option nat) (p : UsbRequestParams) (q : UsbRequestParamsData) : I Z :=
  match d with None => mret HDF_ERR_INVALID_PARAM | Some _ => RawFillIsoRequest r d (data_fill p q) end.
Definition IfFillInterrupteRequest (r : Z) (d : option nat) (p : UsbRequestParams) (q : UsbRequestParamsData) : I Z :=
  RawFillInterruptRequest r d (data_fill p q).
Definition IfFillBulkRequest (r : Z) (d : option nat) (p : UsbRequestParams) (q : UsbRequestParamsData) : I Z :=
  h ← host_request r;
  ret ← (if (pd_directon q =? USB_REQUEST_DIR_TO_DEVICE) && (0 <? pd_length q)
         then memcpy_s (r, 0) (u64 (hr_bufLen h)) (pd_buffer q) (pd_length q) else mret 0);
  if negb (ret =? 0) then mret HDF_ERR_IO
  else
    upd_request r (fun h => set_hr_devHandle d (set_hr_endPoint (data_endpoint (pd_directon q) (rp_pipeAddress p))
      (set_hr_requestType USB_PIPE_TYPE_BULK (set_hr_timeout (rp_timeout p) (set_hr_length (pd_length q)
        (set_hr_userData (rp_userData p) (set_hr_callback (Some UsbIoSetRequestCompletionInfo_cb)
          (set_hr_userCallback (rp_callback p) h))))))));;
    mret HDF_SUCCESS.

(** The type of the pipe, when the status is success. *)
Definition IfGetRequestPipeType (d : nat) (interfaceId_ pipeId_ : Z) : Prog (Host K) (Z * Z) :=
  p ← handle_pool d;
  match p with
  | None => mret (HDF_ERR_BAD_FD, 0)
  | Some p =>
      '(i, _) ← IfFindInterfaceObj p (USB_INTERFACE_INTERFACE_INDEX_TYPE interfaceId_) false true;
      match i with
      | None => mret (HDF_ERR_BAD_FD, 0)
      | Some i =>
          q ← IfFindPipeObj i pipeId_;
          match q with None => mret (HDF_ERR_BAD_FD, 0) | Some q => mret (HDF_SUCCESS, pipeType (pipe_info q)) end
      end
  end.

Definition IfFillRequestByPipeType (o : nat) (ty : Z) (r : Z) (d : option nat) (p : UsbRequestParams) : I Z :=
  if ty =? USB_PIPE_TYPE_CONTROL then
    match rp_request p with
    | USB_REQUEST_PARAMS_DATA_TYPE _ => mret HDF_ERR_INVALID_PARAM
    | USB_REQUEST_PARAMS_CTRL_TYPE c =>
        upd_object o (fun x => set_compInfo (set_ci_type USB_REQUEST_TYPE_DEVICE_CONTROL (compInfo x)) x);;
        IfFillControlRequest r d p c
    end
  else if (ty =? USB_PIPE_TYPE_ISOCHRONOUS) || (ty =? USB_PIPE_TYPE_BULK) || (ty =? USB_PIPE_TYPE_INTERRUPT) then
    match rp_request p with
    | USB_REQUEST_PARAMS_CTRL_TYPE _ => mret HDF_ERR_INVALID_PARAM
    | USB_REQUEST_PARAMS_DATA_TYPE q =>
        if ty =? USB_PIPE_TYPE_ISOCHRONOUS then IfFillIsoRequest r d p q
        else if ty =? USB_PIPE_TYPE_BULK then IfFillBulkRequest r d p q
        else IfFillInterrupteRequest r d p q
    end
  else mret HDF_FAILURE.

Definition UsbFillRequest (o b : nat) (p : UsbRequestParams) : I Z :=
  e ← on_host (iface_handle b);
  match devHandle e with
  | None => mret HDF_ERR_INVALID_PARAM
  | Some d =>
      x ← if_request o;
      match hostRequest x with
      | None => mret HDF_ERR_INVALID_PARAM
      | Some r =>
          '(ret, ty) ← on_host (IfGetRequestPipeType d (rp_interfaceId p) (rp_pipeId p));
          if negb (ret =? HDF_SUCCESS) then mret ret
          else
            ret ← IfFillRequestByPipeType o ty r (Some d) p;
            (match rp_request p with
             | USB_REQUEST_PARAMS_DATA_TYPE _ =>
                 let directon := Z.land (Z.shiftr (rp_pipeAddress p) USB_DIR_OFFSET) 1 in
                 let t := if directon =? USB_REQUEST_DIR_TO_DEVICE then USB_REQUEST_TYPE_PIPE_WRITE else USB_REQUEST_TYPE_PIPE_READ in
                 upd_object o (fun x => set_compInfo (set_ci_type t (compInfo x)) x)
             | USB_REQUEST_PARAMS_CTRL_TYPE _ => mret tt
             end);;
            mret ret
      end
  end.

(** ** The queue: [usb_io_manage.c] *)
Definition queue_of (p : nat) : I PoolIo := x ← io_get (fun s => pool_io s !! p); must x.
Definition upd_queue (p : nat) (f : PoolIo -> PoolIo) : I unit :=
  x ← queue_of p; io_put (fun s => set_pool_io (<[p := f x]> (pool_io s)) s).

(** Linking a request twice breaks the list. *)
Definition UsbIoSendRequest (p : nat) (r : Z) : I Z :=
  x ← queue_of p;
  if bool_decide (r ∈ submitRequestQueue x) then crash
  else
    upd_queue p (fun x => mkPoolIo (submitRequestQueue x ++ [r]) (queue_sem x + 1) (ioProcessStopStatus x));;
    mret HDF_SUCCESS.
(** The wait succeeded. *)
Definition UsbIoGetRequest (p : nat) : I (Z * option Z) :=
  upd_queue p (fun x => mkPoolIo (submitRequestQueue x) (queue_sem x - 1) (ioProcessStopStatus x));;
  x ← queue_of p;
  match submitRequestQueue x with
  | [] => mret (HDF_SUCCESS, None)
  | r :: l => host_request r;; upd_queue p (fun x => mkPoolIo l (queue_sem x) (ioProcessStopStatus x));; mret (HDF_SUCCESS, Some r)
  end.

Definition IfSubmitRequestToQueue (o : nat) : I Z :=
  x ← if_request o;
  match hostRequest x with
  | None => mret HDF_ERR_INVALID_PARAM
  | Some r =>
      q ← host_request r;
      match hr_devHandle q with
      | None => mret HDF_ERR_INVALID_PARAM
      | Some d =>
          p ← on_host (handle_pool d);
          match p with None => mret HDF_ERR_BAD_FD | Some p => UsbIoSendRequest p r end
      end
  end.

Definition UsbSubmitRequestAsync (o : nat) : I Z :=
  upd_object o (fun x => set_compInfo zero_compInfo (set_isSyncReq false x));;
  IfSubmitRequestToQueue o.

Definition UsbCancelRequest (o : nat) : I Z :=
  x ← if_request o;
  match hostRequest x with
  | None => mret HDF_ERR_INVALID_PARAM
  | Some r =>
      ret ← RawCancelRequest r;
      if negb (ret =? HDF_SUCCESS) then mret ret
      else upd_object o (fun x => set_compInfo (set_ci_status USB_REQUEST_CANCELLED (compInfo x)) x);; mret HDF_SUCCESS
  end.

(** *** Submitting and waiting *)

(** Up to the first wait; when it returns the semaphore is gone again. *)
Definition sync_begin (o : nat) : I Z :=
  x ← if_request o;
  match hostRequest x with
  | None => mret HDF_ERR_INVALID_PARAM
  | Some r =>
      ret ← OsalSemInit r;
      if negb (ret =? HDF_SUCCESS) then mret HDF_ERR_IO
      else
        upd_object o (fun x => set_isSyncReq true (set_compInfo (set_ci_status USB_REQUEST_COMPLETED (compInfo x)) x));;
        ret ← IfSubmitRequestToQueue o;
        (if negb (ret =? HDF_SUCCESS) then OsalSemDestroy r else mret tt);;
        mret ret
  end.
(** The first wait succeeds. *)
Definition sync_woken (o : nat) : I Z :=
  x ← if_request o;
  r ← must (hostRequest x);
  ok ← sem_taken r;
  if negb (ok : bool) then crash else OsalSemDestroy r;; mret HDF_SUCCESS.
(** The first wait times out; the code ignores what cancelling returns. *)
Definition sync_timeout (o : nat) : I Z := UsbCancelRequest o.
(** The second wait ends, one way or the other. *)
Definition sync_end (o : nat) : I Z :=
  x ← if_request o;
  r ← must (hostRequest x);
  sem_taken r;;
  upd_object o (fun x => set_compInfo (set_ci_status USB_REQUEST_TIMEOUT (compInfo x)) x);;
  OsalSemDestroy r;; mret HDF_ERR_TIMEOUT.

(** ** The threads *)

(** [IoSendProcess]: a request is taken from the queue; [None] ends the thread. *)
Definition send_take (p : nat) : I (option (option Z)) :=
  '(ret, r) ← UsbIoGetRequest p;
  x ← queue_of p;
  if negb (bool_decide (ioProcessStopStatus x = USB_POOL_PROCESS_RUNNING)) then mret None
  else if negb (ret =? HDF_SUCCESS) then mret (Some None) else mret (Some r).

Definition IoCancelRequest (p : nat) (r : Z) : I bool :=
  q ← host_request r;
  match hr_privateObj q with
  | None => mret true
  | Some o =>
      x ← queue_of p;
      (if negb (bool_decide (ioProcessStopStatus x = USB_POOL_PROCESS_RUNNING)) then UsbCancelRequest o;; mret tt else mret tt);;
      x ← if_request o;
      mret (bool_decide (ci_status (compInfo x) = USB_REQUEST_CANCELLED))
  end.

(** An attempt to submit, with [more] to come: whether the thread is done with the
    request. *)
Definition send_try (r : Z) (more : nat) : I bool :=
  ret ← RawSubmitRequest r;
  if ret =? HDF_SUCCESS then mret true
  else
    match more with
    | O => upd_request r (set_hr_status USB_REQUEST_ERROR);; UsbIoSetRequestCompletionInfo r;; mret true
    | S _ => mret false
    end.

(** [IoAsyncReceiveProcess]: one turn of the loop; false ends the thread. *)
Definition receive_turn (p : nat) (d : option nat) (a : reaped) : I bool :=
  ret ← RawHandleRequest d a;
  x ← queue_of p;
  if (ret <? 0) || negb (bool_decide (ioProcessStopStatus x = USB_POOL_PROCESS_RUNNING)) then
    upd_queue p (fun x => mkPoolIo (submitRequestQueue x) (queue_sem x + 1) USB_POOL_PROCESS_STOPED);; mret false
  else mret true.

(** ** The synchronous calls of the expert mode *)

(** The local variable [completed]. *)
Definition new_frame : I nat :=
  f ← io_get next_frame;
  io_put (fun s => set_next_frame (S f) (set_frames (<[f := 0]> (frames s)) s));; mret f.
Definition end_frame (f : nat) : I unit := io_put (fun s => set_frames (delete f (frames s)) s).

(** Up to the wait: the status, and the variable when it will wait. *)
Definition raw_submit_sync (r : Z) (f : nat) : I (Z * option nat) :=
  ret ← OsalSemInit r;
  if negb (ret =? HDF_SUCCESS) then end_frame f;; mret (ret, None)
  else
    ret ← RawSubmitRequest r;
    if ret <? 0 then OsalSemDestroy r;; end_frame f;; mret (ret, None) else mret (ret, Some f).
Definition HandleSyncRequest (r : Z) (d : nat) (rd : UsbRequestData) (ty : Z) : I (Z * option nat) :=
  f ← new_frame;
  q ← host_request r;
  ret ← (if UsbEndpointDirOut (rd_endPoint rd) then memcpy_s (r, 0) (u64 (hr_bufLen q)) (rd_data rd) (rd_length rd) else mret 0);
  if negb (ret =? 0) then end_frame f;; mret (ret, None)
  else
    upd_request r (fun q => set_hr_userCallback None (set_hr_callback (Some SyncRequestCallback_cb)
      (set_hr_userData (CompletedVar f) (set_hr_length (rd_length rd) (set_hr_timeout (rd_timeout rd) (set_hr_requestType ty
        (set_hr_endPoint (rd_endPoint rd) (set_hr_devHandle (Some d) q))))))));;
    raw_submit_sync r f.
Definition RawSendBulkRequest (r : Z) (d : option nat) (rd : UsbRequestData) : I (Z * option nat) :=
  match d with None => mret (HDF_ERR_INVALID_PARAM, None) | Some d => HandleSyncRequest r d rd USB_PIPE_TYPE_BULK end.
Definition RawSendInterruptRequest (r : Z) (d : option nat) (rd : UsbRequestData) : I (Z * option nat) :=
  match d with None => mret (HDF_ERR_INVALID_PARAM, None) | Some d => HandleSyncRequest r d rd USB_PIPE_TYPE_INTERRUPT end.

Definition RawFillControlSetup (r : Z) (c : UsbControlRequestData) : I Z :=
  write_buffer (r, 0) (setup_bytes (cd_requestType c) (cd_requestCmd c) (cd_value c) (cd_index c) (cd_length c));; mret HDF_SUCCESS.
(** Only towards the device the length is filled in. *)
Definition RawSendControlRequest (r : Z) (d : option nat) (c : UsbControlRequestData) : I (Z * option nat) :=
  match d with
  | None => mret (HDF_ERR_INVALID_PARAM, None)
  | Some _ =>
      f ← new_frame;
      RawFillControlSetup r c;;
      let out := Z.land (cd_requestType c) USB_DDK_ENDPOINT_DIR_MASK =? USB_PIPE_DIRECTION_OUT in
      ret ← (if out && (0 <? cd_length c)
             then memcpy_s (r, USB_RAW_CONTROL_SETUP_SIZE) (cd_length c) (cd_data c) (cd_length c) else mret 0);
      if negb (ret =? 0) then end_frame f;; mret (ret, None)
      else
        let '(endPoint, len) := if out then (0, USB_RAW_CONTROL_SETUP_SIZE + cd_length c) else (Z.shiftl 1 USB_DIR_OFFSET, 0) in
        RawFillControlRequest r d
          (mkFill endPoint None len 0 (Some SyncRequestCallback_cb) (CompletedVar f) (cd_timeout c) None);;
        raw_submit_sync r f
  end.
Definition RawGetDescriptor (r : Z) (d : option nat) (descType descIndex length_ : Z) (data : list Z) : I (Z * option nat) :=
  RawSendControlRequest r d
    (mkControlData USB_PIPE_DIRECTION_IN USB_REQUEST_GET_DESCRIPTOR (u16 (Z.lor (Z.shiftl descType BYTE_LENGTH) descIndex)) 0
       (u16 length_) USB_RAW_REQUEST_DEFAULT_TIMEOUT (Some data)).

(** What the status of a request returns. *)
Definition sync_result (st : UsbRequestStatus) (done_ : Z) : Z :=
  match st with
  | USB_REQUEST_COMPLETED => done_
  | USB_REQUEST_TIMEOUT => HDF_ERR_TIMEOUT
  | USB_REQUEST_NO_DEVICE => HDF_DEV_ERR_NO_DEVICE
  | USB_REQUEST_STALL | USB_REQUEST_OVERFLOW | USB_REQUEST_ERROR | USB_REQUEST_CANCELLED => HDF_ERR_IO
  | USB_REQUEST_COMPLETED_SHORT => HDF_FAILURE
  end.
(** After the wait, which succeeded or timed out; the second result is
    [*requested], in a control transfer the bytes read. *)
Definition sync_waited (r : Z) (timeout : bool) : I unit :=
  if timeout then RawCancelRequest r;; RawHandleRequestCompletion r USB_REQUEST_TIMEOUT;; mret tt
  else ok ← sem_taken r; if negb (ok : bool) then crash else mret tt.
Definition HandleSyncRequestCompletion (r : Z) (f : nat) (timeout : bool) : I (Z * Z) :=
  sync_waited r timeout;;
  q ← host_request r;
  OsalSemDestroy r;; end_frame f;;
  mret (sync_result (hr_status q) HDF_SUCCESS, hr_actualLength q).
(** The size given to the copy is not that of the caller's memory. *)
Definition ControlRequestCompletion (r : Z) (f : nat) (c : UsbControlRequestData) (timeout : bool) : I (Z * list Z) :=
  sync_waited r timeout;;
  q ← host_request r;
  '(ret, data) ← (if Z.land (cd_requestType c) USB_DDK_ENDPOINT_DIR_MASK =? USB_PIPE_DIRECTION_IN then
                    let destMax := u64 (hr_actualLength q + cd_length c) in
                    match cd_data c with
                    | None => mret (copy_refused, [])
                    | Some data =>
                        if (destMax =? 0) || (RSIZE_MAX <? destMax) then mret (copy_refused, data)
                        else
                          bs ← read_buffer (r, USB_RAW_CONTROL_SETUP_SIZE) (hr_actualLength q);
                          if (length data <? length bs)%nat then crash else mret (0, splice 0 bs data)
                    end
                  else mret (0, default [] (cd_data c)));
  (if negb (ret =? 0) then
     OsalSemDestroy r;; end_frame f;; mret (ret, data)
   else OsalSemDestroy r;; end_frame f;; mret (sync_result (hr_status q) (hr_actualLength q), data)).
End api.
