(* ===== verification/UsbReqUse.v ===== *)
(** * UsbReqUse: what a client of the requests may rely on

    The requests of one device as its clients see them.  A [move] is a call of a
    client, a step of the sending thread, or an URB that the kernel gives back to
    the receiving thread; [io_step] makes it in the code and tells what could be
    seen from outside; [allowed] are the rules for clients and kernel, and
    [spec_next] says which observations are right. *)
From S2P Require Import Prelude Hdf UsbDesc UsbPool UsbReq UsbReqApi.
Open Scope Z_scope.

(** ** Moves and observations *)
Inductive move :=
| Alloc (b : nat) (length_ : Z)
| Fill (o b : nat) (p : UsbRequestParams)
| Submit (o : nat)
| SyncBegin (o : nat)
| SyncWoken (o : nat)
| SyncTimeout (o : nat)
| SyncEnd (o : nat)
| Cancel (o : nat)
| Free (o : nat)
| Take
| Examine
| Try
| Finish (o : nat) (st n : Z) (data : list Z).

(** Of a completion: the object, the client's function, the status, the length of
    the request and of what was transferred, the client's data, and the bytes in
    the buffer.  Of an URB offered to the kernel: its object, type, endpoint,
    length and bytes, and whether it was taken. *)
Inductive seen :=
| Returned (ret : Z)
| Made (o : option nat)
| Offered (o : nat) (ty ep len : Z) (bytes : list Z) (ok : bool)
| Done_ (o : nat) (cb : option nat) (st : UsbRequestStatus) (len n : Z) (v : UserData) (bytes : list Z).

#[global] Instance UserData_eq_dec : EqDecision UserData.
Proof. solve_decision. Defined.
#[global] Instance seen_eq_dec : EqDecision seen.
Proof. solve_decision. Defined.

Definition seen_of (e : io_event) : list seen :=
  match e with
  | Submitted o u bytes a =>
      [Offered o (urb_type u) (urb_endPoint u) (urb_bufferLength u) bytes (match a with None => true | Some _ => false end)]
  | Completed o cb c bytes => [Done_ o cb (ci_status c) (ci_length c) (ci_actualLength c) (ci_userData c) bytes]
  | _ => []
  end.

(** ** The code *)

(** What the sending thread is doing: with a request taken from the queue, or
    between attempts, with [more] after the next. *)
Inductive sender := Resting | Took (r : Z) | Trying (r : Z) (more : nat).
Record machine (K : Type) := Machine { io : Io K; sending : sender }.
Arguments Machine {K}. Arguments io {K}. Arguments sending {K}.

Section machine.
Context {HS : HdfStatus} {US : UsbStatus} {IS : IoStatus} {RA : RamAlloc} {SZ : UsbSizes} {RZ : ReqSizes} {K : Type} {HA : HostAdapter K} {UK : UrbKernel}.
Variables (p d : nat).
Abbreviation I := (Prog (Io K)).

(** The kernel finishes the URB it holds for the object [o]: it writes the bytes
    of the device behind the set-up bytes of a control transfer, and the status
    and length into the URB. *)
Fixpoint take_held (o : nat) (l : list (nat * (nat * nat))) : option ((nat * nat) * list (nat * (nat * nat))) :=
  match l with
  | [] => None
  | (o', u) :: l =>
      if (o' =? o)%nat then Some (u, l)
      else match take_held o l with Some (u', l) => Some (u', (o', u) :: l) | None => None end
  end.
Definition kernel_finishes (o : nat) (st n : Z) (data : list Z) : I reaped :=
  l ← io_get held;
  '((b, i), l) ← must (take_held o l);
  io_put (set_held l);;
  u ← urb_at b i;
  let '(r, off) := urb_buffer u in
  write_buffer (r, off + (if urb_type u =? USB_ADAPTER_URB_TYPE_CONTROL then USB_RAW_CONTROL_SETUP_SIZE else 0)) data;;
  upd_urb b i (fun u => set_urb_actualLength n (set_urb_status st u));;
  happens (Reaped b i st n);;
  mret (ReapedUrb b i).

Definition answer {A} (m : I A) (f : A -> list seen) : I (list seen) :=
  n ← io_get (fun s => length (history s));
  a ← m;
  l ← io_get history;
  mret (f a ++ concat (map seen_of (drop n l))).
Definition returned (ret : Z) : list seen := [Returned ret].
Definition silent {A} (_ : A) : list seen := [].

(** The next state of the sending thread comes with the observations. *)
Definition code (x : move) (t : sender) : I (list seen * sender) :=
  match x with
  | Alloc b n => l ← answer (UsbAllocRequest b 0 n) (fun o => [Made o]); mret (l, t)
  | Fill o b q => l ← answer (UsbFillRequest o b q) returned; mret (l, t)
  | Submit o => l ← answer (UsbSubmitRequestAsync o) returned; mret (l, t)
  | SyncBegin o => l ← answer (sync_begin o) returned; mret (l, t)
  | SyncWoken o => l ← answer (sync_woken o) returned; mret (l, t)
  | SyncTimeout o => l ← answer (sync_timeout o) returned; mret (l, t)
  | SyncEnd o => l ← answer (sync_end o) returned; mret (l, t)
  | Cancel o => l ← answer (UsbCancelRequest o) returned; mret (l, t)
  | Free o => l ← answer (UsbFreeRequest o) returned; mret (l, t)
  | Take => r ← send_take p; mret ([], match r with Some (Some r) => Took r | _ => Resting end)
  | Examine =>
      match t with
      | Took r => c ← IoCancelRequest p r; mret ([], if (c : bool) then Resting else Trying r (pred USB_IO_SUBMIT_RETRY_TIME_CNT))
      | _ => crash
      end
  | Try =>
      match t with
      | Trying r more =>
          n ← io_get (fun s => length (history s));
          ok ← send_try r more;
          l ← io_get history;
          mret (concat (map seen_of (drop n l)), if (ok : bool) then Resting else Trying r (pred more))
      | _ => crash
      end
  | Finish o st n data => l ← answer (a ← kernel_finishes o st n data; receive_turn p (Some d) a) silent; mret (l, t)
  end.
Definition io_step (x : move) (m : machine K) : outcome (list seen * machine K) :=
  match code x (sending m) (io m) with
  | Done ((l, t), s) => Done (l, Machine s t)
  | Undefined => Undefined
  | Running => Running
  end.
Fixpoint io_steps (xs : list move) (m : machine K) : outcome (list (list seen) * machine K) :=
  match xs with
  | [] => Done ([], m)
  | x :: xs =>
      match io_step x m with
      | Done (l, m) => match io_steps xs m with Done (ls, m) => Done (l :: ls, m) | Undefined => Undefined | Running => Running end
      | Undefined => Undefined
      | Running => Running
      end
  end.
End machine.

(** ** The requests as clients see them *)

(** What a request was filled with: the type of its pipe, the endpoint, the
    length, the client's function and data. *)
Record job := Job { j_type : Z; j_ep : Z; j_len : Z; j_cb : option nat; j_data : UserData }.
Inductive phase :=
| Idle
| Queued (cancelled : bool)
| Attempted
| Flying (cancelled : bool).
(** Whether a client waits for it, and in which of the two waits. *)
Inductive waiting := Nobody | First | Second.
#[global] Instance waiting_eq_dec : EqDecision waiting.
Proof. solve_decision. Defined.
Record view := View {
  v_phase : phase;
  v_job : option job;
  v_buffer : list Z;
  v_size : Z;
  v_cancelled : bool;
  v_wait : waiting;
  v_signal : bool;
}.
Inductive aimed := AtRest | AtTaken (o : nat) | AtTrying (o : nat) (more : nat).
Record service := Service { views : gmap nat view; queue : list nat; aim : aimed }.
Definition no_requests : service := Service ∅ [] AtRest.

Definition set_phase f (v : view) := View f (v_job v) (v_buffer v) (v_size v) (v_cancelled v) (v_wait v) (v_signal v).
Definition set_cancelled (v : view) := View (v_phase v) (v_job v) (v_buffer v) (v_size v) true (v_wait v) (v_signal v).
Definition set_wait w s (v : view) := View (v_phase v) (v_job v) (v_buffer v) (v_size v) (v_cancelled v) w s.
Definition set_view (o : nat) (v : view) (a : service) := Service (<[o := v]> (views a)) (queue a) (aim a).

Definition is_idle (v : view) : bool := match v_phase v with Idle => true | _ => false end.
Definition is_control (j : job) : bool := j_type j =? USB_PIPE_TYPE_CONTROL.
Definition is_in (j : job) : bool := negb (Z.land (j_ep j) USB_DDK_ENDPOINT_DIR_MASK =? 0).
Definition setup_size (j : job) : Z := if is_control j then USB_RAW_CONTROL_SETUP_SIZE else 0.

Section spec.
Context {HS : HdfStatus} {IS : IoStatus} {RZ : ReqSizes}.
(** The types of the pipes by interface and number, and the clients' handles. *)
Variables (pipes : Z -> Z -> option Z) (handles : list nat).

(** *** Filling *)
Definition roomy (n : Z) : bool :=
  (0 <? n) && (n <? 2 ^ 31) && (sizeof_UsbHostRequest + n <=? pages n * page_size).
Definition source_ok (src : option (list Z)) (n : Z) : bool :=
  match src with Some bs => n <=? Z.of_nat (length bs) | None => false end.
Definition dir_ok (dir : Z) : bool := (dir =? USB_REQUEST_DIR_TO_DEVICE) || (dir =? USB_REQUEST_DIR_FROM_DEVICE).
Definition to_device (dir : Z) : bool := dir =? USB_REQUEST_DIR_TO_DEVICE.
Definition fill_allowed (v : view) (q : UsbRequestParams) : bool :=
  match pipes (rp_interfaceId q) (rp_pipeId q), rp_request q with
  | Some ty, USB_REQUEST_PARAMS_CTRL_TYPE c =>
      (ty =? USB_PIPE_TYPE_CONTROL) && negb (v_cancelled v) &&
      (0 <=? cr_target c) && (cr_target c <=? 3) && (0 <=? cr_reqType c) && (cr_reqType c <=? USB_REQUEST_TYPE_VENDOR) &&
      dir_ok (cr_directon c) &&
      (0 <=? cr_length c) && (USB_RAW_CONTROL_SETUP_SIZE + cr_length c <=? v_size v) &&
      (negb (to_device (cr_directon c)) || source_ok (cr_buffer c) (cr_length c))
  | Some ty, USB_REQUEST_PARAMS_DATA_TYPE c =>
      ((ty =? USB_PIPE_TYPE_BULK) || (ty =? USB_PIPE_TYPE_INTERRUPT)) && (0 <=? rp_pipeAddress q) && (rp_pipeAddress q <? 16) &&
      dir_ok (pd_directon c) && (0 <=? pd_length c) && (pd_length c <=? v_size v) &&
      (negb (to_device (pd_directon c)) || source_ok (pd_buffer c) (pd_length c))
  | None, _ => false
  end.
(** The bytes a client hands over. *)
Definition source (src : option (list Z)) (n : Z) : list Z := take (Z.to_nat n) (default [] src).
Definition control_setup (c : UsbControlRequest) : list Z :=
  setup_bytes (128 * cr_directon c + 32 * cr_reqType c + cr_target c) (cr_request c) (cr_value c) (cr_index c) (cr_length c).
Definition fill_view (q : UsbRequestParams) (v : view) : view :=
  let '(j, bs) :=
    match rp_request q with
    | USB_REQUEST_PARAMS_CTRL_TYPE c =>
        (Job USB_PIPE_TYPE_CONTROL (128 * cr_directon c) (USB_RAW_CONTROL_SETUP_SIZE + cr_length c) (rp_callback q) (rp_userData q),
         control_setup c ++ (if to_device (cr_directon c) then source (cr_buffer c) (cr_length c) else []))
    | USB_REQUEST_PARAMS_DATA_TYPE c =>
        (Job (default 0 (pipes (rp_interfaceId q) (rp_pipeId q))) (128 * pd_directon c + rp_pipeAddress q) (pd_length c)
           (rp_callback q) (rp_userData q),
         if to_device (pd_directon c) then source (pd_buffer c) (pd_length c) else [])
    end in
  View Idle (Some j) (splice 0 bs (v_buffer v)) (v_size v) (v_cancelled v) (v_wait v) (v_signal v).

(** *** Cancelling: the status that is returned, and what became of the request. *)
Definition cancel_view (ret : Z) (v : view) : option view :=
  match v_phase v with
  | Idle | Attempted => Some (set_cancelled v)
  | Queued c => Some (set_cancelled (set_phase (Queued (c || (ret =? HDF_SUCCESS))) v))
  | Flying _ => if ret =? HDF_SUCCESS then Some (set_cancelled (set_phase (Flying true) v)) else None
  end.
(** A control request is not cancelled. *)
Definition cancel_allowed (v : view) : bool := match v_job v with Some j => negb (is_control j) | None => false end.

(** *** Sending and completing *)

(** The adapter takes no more than 4096 bytes, and no empty bulk request. *)
Definition sendable (j : job) : bool :=
  (j_len j <=? MAX_BULK_DATA_BUFFER_LENGTH) && (is_control j || (0 <? j_len j)).
Definition urb_type_of (j : job) : Z :=
  if is_control j then USB_ADAPTER_URB_TYPE_CONTROL
  else if j_type j =? USB_PIPE_TYPE_BULK then USB_ADAPTER_URB_TYPE_BULK else USB_ADAPTER_URB_TYPE_INTERRUPT.
Definition offer (o : nat) (j : job) (v : view) (ok : bool) : seen :=
  Offered o (urb_type_of j) (j_ep j) (j_len j) (take (Z.to_nat (j_len j)) (v_buffer v)) ok.
Definition completion (o : nat) (j : job) (st : UsbRequestStatus) (n : Z) (buffer : list Z) : seen :=
  Done_ o (j_cb j) st (j_len j) n (j_data j) (take (Z.to_nat n) (drop (Z.to_nat (setup_size j)) buffer)).
(** A finished request: whoever waits for it is woken. *)
Definition finish_view (buffer : list Z) (v : view) : view :=
  View Idle (v_job v) buffer (v_size v) (v_cancelled v) (v_wait v) (v_signal v || negb (bool_decide (v_wait v = Nobody))).
Definition final_status (j : job) (cancelled : bool) (st : Z) : UsbRequestStatus :=
  if is_control j then
    if st =? 0 then USB_REQUEST_COMPLETED else if st =? - ENOENT then USB_REQUEST_CANCELLED
    else if st =? - EPIPE then USB_REQUEST_STALL else if st =? - EOVERFLOW then USB_REQUEST_OVERFLOW
    else if (st =? - ENODEV) || (st =? - ESHUTDOWN) then USB_REQUEST_NO_DEVICE else USB_REQUEST_ERROR
  else if cancelled then USB_REQUEST_CANCELLED
  else if st =? 0 then USB_REQUEST_COMPLETED else if st =? - ESHUTDOWN then USB_REQUEST_NO_DEVICE
  else if st =? - EPIPE then USB_REQUEST_STALL else if st =? - EOVERFLOW then USB_REQUEST_OVERFLOW
  else USB_REQUEST_ERROR.
Definition finish_buffer (j : job) (data buffer : list Z) : list Z := splice (Z.to_nat (setup_size j)) data buffer.
(** The kernel brings as many bytes as it says, into a buffer they fit into, and
    none when it wrote to the device. *)
Definition finish_allowed (j : job) (n : Z) (data : list Z) : bool :=
  (0 <=? n) && (n <=? j_len j - setup_size j) &&
  (if is_in j then Z.of_nat (length data) =? n else (length data =? 0)%nat).
End spec.

(** ** The rules *)
Section rules.
Context {HS : HdfStatus} {IS : IoStatus} {RZ : ReqSizes}.
Variables (pipes : Z -> Z -> option Z) (handles : list nat).

Definition on_view (a : service) (o : nat) (f : view -> bool) : bool := match views a !! o with Some v => f v | None => false end.
Definition unused (v : view) : bool := is_idle v && bool_decide (v_wait v = Nobody).
Definition has_job (v : view) : bool := match v_job v with Some _ => true | None => false end.
Definition allowed (x : move) (a : service) : bool :=
  match x with
  | Alloc b n => bool_decide (b ∈ handles) && roomy n
  | Fill o b q => bool_decide (b ∈ handles) && on_view a o (fun v => unused v && fill_allowed pipes v q)
  | Submit o | SyncBegin o => on_view a o (fun v => unused v && has_job v)
  | SyncWoken o => on_view a o (fun v => bool_decide (v_wait v = First) && v_signal v)
  | SyncTimeout o => on_view a o (fun v => bool_decide (v_wait v = First) && cancel_allowed v)
  | SyncEnd o => on_view a o (fun v => bool_decide (v_wait v = Second) && is_idle v)
  | Cancel o => on_view a o cancel_allowed
  | Free o => on_view a o unused
  | Take => match aim a, queue a with AtRest, _ :: _ => true | _, _ => false end
  | Examine => match aim a with AtTaken _ => true | _ => false end
  | Try => match aim a with AtTrying _ _ => true | _ => false end
  | Finish o st n data =>
      on_view a o (fun v => match v_phase v, v_job v with Flying _, Some j => finish_allowed j n data | _, _ => false end)
  end.

(** The observations that are right, and the requests after them. *)
Definition with_view (a : service) (o : nat) (f : view -> option view) : option service :=
  match views a !! o with
  | Some v => match f v with Some v => Some (set_view o v a) | None => None end
  | None => None
  end.
Definition try_next (l : list seen) (a : service) (o : nat) (more : nat) (v : view) (j : job) : option service :=
  let failed l :=
    match more with
    | O => if bool_decide (l = [completion o j USB_REQUEST_ERROR 0 (v_buffer v)])
           then Some (Service (<[o := finish_view (v_buffer v) v]> (views a)) (queue a) AtRest) else None
    | S n => if bool_decide (l = []) then Some (Service (views a) (queue a) (AtTrying o n)) else None
    end in
  if sendable j then
    match l with
    | e :: l =>
        if bool_decide (e = offer o j v true) && bool_decide (l = [])
        then Some (Service (<[o := set_phase (Flying false) v]> (views a)) (queue a) AtRest)
        else if bool_decide (e = offer o j v false) then failed l else None
    | [] => None
    end
  else failed l.
Definition spec_next (x : move) (l : list seen) (a : service) : option service :=
  match x, l with
  | Alloc b n, [Made None] => Some a
  | Alloc b n, [Made (Some o)] =>
      match views a !! o with
      | Some _ => None
      | None => Some (set_view o (View Idle None (replicate (Z.to_nat (pages n * page_size - sizeof_UsbHostRequest)) 0) n false Nobody false) a)
      end
  | Fill o _ q, [Returned ret] => if ret =? HDF_SUCCESS then with_view a o (fun v => Some (fill_view pipes q v)) else None
  | Submit o, [Returned ret] =>
      if ret =? HDF_SUCCESS then
        match with_view a o (fun v => Some (set_phase (Queued false) v)) with
        | Some a => Some (Service (views a) (queue a ++ [o]) (aim a))
        | None => None
        end
      else None
  | SyncBegin o, [Returned ret] =>
      if ret =? HDF_SUCCESS then
        match with_view a o (fun v => Some (set_wait First false (set_phase (Queued false) v))) with
        | Some a => Some (Service (views a) (queue a ++ [o]) (aim a))
        | None => None
        end
      else if ret =? HDF_ERR_IO then Some a else None
  | SyncWoken o, [Returned ret] => if ret =? HDF_SUCCESS then with_view a o (fun v => Some (set_wait Nobody false v)) else None
  | SyncTimeout o, [Returned ret] =>
      with_view a o (fun v => match cancel_view ret v with Some v => Some (set_wait Second (v_signal v) v) | None => None end)
  | SyncEnd o, [Returned ret] => if ret =? HDF_ERR_TIMEOUT then with_view a o (fun v => Some (set_wait Nobody false v)) else None
  | Cancel o, [Returned ret] => with_view a o (cancel_view ret)
  | Free o, [Returned ret] =>
      if ret =? HDF_SUCCESS then Some (Service (delete o (views a)) (queue a) (aim a)) else None
  | Take, [] => match queue a with o :: q => Some (Service (views a) q (AtTaken o)) | [] => None end
  | Examine, [] =>
      match aim a with
      | AtTaken o =>
          match views a !! o with
          | Some v =>
              match v_phase v with
              | Queued true => Some (Service (<[o := set_phase Idle v]> (views a)) (queue a) AtRest)
              | Queued false => Some (Service (<[o := set_phase Attempted v]> (views a)) (queue a) (AtTrying o (pred USB_IO_SUBMIT_RETRY_TIME_CNT)))
              | _ => None
              end
          | None => None
          end
      | _ => None
      end
  | Try, l =>
      match aim a with
      | AtTrying o more =>
          match views a !! o with
          | Some v => match v_job v with Some j => try_next l a o more v j | None => None end
          | None => None
          end
      | _ => None
      end
  | Finish o st n data, [e] =>
      match views a !! o with
      | Some v =>
          match v_phase v, v_job v with
          | Flying c, Some j =>
              let buffer := finish_buffer j data (v_buffer v) in
              if bool_decide (e = completion o j (final_status j c st) n buffer) then Some (set_view o (finish_view buffer v) a) else None
          | _, _ => None
          end
      | None => None
      end
  | _, _ => None
  end.
Fixpoint spec_steps (xs : list move) (ls : list (list seen)) (a : service) : option service :=
  match xs, ls with
  | [], [] => Some a
  | x :: xs, l :: ls => match spec_next x l a with Some a => spec_steps xs ls a | None => None end
  | _, _ => None
  end.
End rules.

(** Clients and kernel keep the rules as long as the code answers rightly. *)
Section obey.
Context {HS : HdfStatus} {US : UsbStatus} {IS : IoStatus} {RA : RamAlloc} {SZ : UsbSizes} {RZ : ReqSizes} {K : Type} {HA : HostAdapter K} {UK : UrbKernel}.
Variables (p d : nat) (pipes : Z -> Z -> option Z) (handles : list nat).
Fixpoint obedient (xs : list move) (m : machine K) (a : service) : bool :=
  match xs with
  | [] => true
  | x :: xs =>
      allowed pipes handles x a &&
      match io_step p d x m with
      | Done (l, m) => match spec_next pipes x l a with Some a => obedient xs m a | None => true end
      | _ => true
      end
  end.
End obey.
