(* ===== verification/UsbReqFacts.v ===== *)
(** * UsbReqFacts: rules for the request code

    The proof rules of its accesses, and what the functions that fill, submit,
    cancel and complete a request do to the state, given as a whole: the state
    before is [mkIo] of its parts, the state after is given part by part. *)
From S2P Require Import Prelude Hdf UsbDesc UsbDescFacts UsbPool UsbReq UsbReqApi UsbReqUse.
Open Scope Z_scope.

(** Fields of states and requests that were just changed. *)
Ltac fields :=
  lazy beta iota delta [host requests objects urb_blocks pool_io g_usbRequestObjectId frames next_frame held history
       set_host set_requests set_objects set_urb_blocks set_pool_io set_g_usbRequestObjectId set_frames set_next_frame
       set_held set_history];
  cbn [urb_type urb_endPoint urb_status urb_flags urb_buffer urb_bufferLength urb_actualLength urb_numberOfPackets
       urb_userContext urb_isoFrameDesc set_urb_type set_urb_endPoint set_urb_status set_urb_flags set_urb_buffer
       set_urb_bufferLength set_urb_actualLength set_urb_numberOfPackets set_urb_userContext set_urb_isoFrameDesc
       hr_buffer hr_length hr_actualLength hr_status hr_userData hr_devHandle hr_callback hr_userCallback hr_bufLen
       hr_sem hr_endPoint hr_timeout hr_requestType hr_bulkUrb hr_urbs hr_numUrbs hr_numRetired hr_reqStatus
       hr_isoPacketOffset hr_privateObj hr_numIsoPackets hr_isoPacketDesc set_hr_buffer set_hr_length
       set_hr_actualLength set_hr_status set_hr_userData set_hr_devHandle set_hr_callback set_hr_userCallback
       set_hr_bufLen set_hr_sem set_hr_endPoint set_hr_timeout set_hr_requestType set_hr_bulkUrb set_hr_urbs
       set_hr_numUrbs set_hr_numRetired set_hr_reqStatus set_hr_isoPacketOffset set_hr_privateObj set_hr_numIsoPackets
       set_hr_isoPacketDesc ci_type ci_buffer ci_length ci_actualLength ci_status ci_userData set_ci_type
       set_ci_status ir_objectId compInfo hostRequest isSyncReq set_compInfo set_isSyncReq submitRequestQueue
       queue_sem ioProcessStopStatus fst snd orb andb negb].
(** Lookups in maps that were just changed. *)
Ltac look :=
  fields;
  first [ eassumption
        | apply lookup_insert_eq
        | rewrite lookup_insert_ne by (done || congruence || lia); look
        | rewrite lookup_delete_ne by (done || congruence || lia); look ].

Section rules.
Context {HS : HdfStatus} {US : UsbStatus} {IS : IoStatus} {RA : RamAlloc} {SZ : UsbSizes} {RZ : ReqSizes} {K : Type} {HA : HostAdapter K} {UK : UrbKernel}.
Implicit Types (s : Io K) (h : Host K) (q : UsbHostRequest).

Lemma runs_io_get {A} (f : Io K -> A) s (Q : A -> Io K -> Prop) : Q (f s) s -> runs (io_get f) s Q.
Proof. done. Qed.
Lemma runs_io_put f s (Q : unit -> Io K -> Prop) : Q tt (f s) -> runs (io_put f) s Q.
Proof. done. Qed.
Lemma runs_happens e s (Q : unit -> Io K -> Prop) : Q tt (set_history (history s ++ [e]) s) -> runs (happens e) s Q.
Proof. done. Qed.
Lemma runs_must {A} (o : option A) a s (Q : A -> Io K -> Prop) : o = Some a -> Q a s -> runs (must o) s Q.
Proof. by intros ->. Qed.
Lemma runs_host_request r q s (Q : UsbHostRequest -> Io K -> Prop) :
  requests s !! r = Some q -> Q q s -> runs (host_request r) s Q.
Proof. intros E HQ. apply runs_bind, runs_io_get. by eapply runs_must. Qed.
Lemma runs_set_request r q s (Q : unit -> Io K -> Prop) :
  Q tt (set_requests (<[r := q]> (requests s)) s) -> runs (set_request r q) s Q.
Proof. done. Qed.
Lemma runs_upd_request r q f s (Q : unit -> Io K -> Prop) :
  requests s !! r = Some q -> Q tt (set_requests (<[r := f q]> (requests s)) s) -> runs (upd_request r f) s Q.
Proof. intros E HQ. by eapply runs_bind, runs_host_request. Qed.
Lemma runs_if_request o x s (Q : UsbIfRequest -> Io K -> Prop) :
  objects s !! o = Some x -> Q x s -> runs (if_request o) s Q.
Proof. intros E HQ. apply runs_bind, runs_io_get. by eapply runs_must. Qed.
Lemma runs_upd_object o x f s (Q : unit -> Io K -> Prop) :
  objects s !! o = Some x -> Q tt (set_objects (<[o := f x]> (objects s)) s) -> runs (upd_object o f) s Q.
Proof. intros E HQ. by eapply runs_bind, runs_if_request. Qed.
Lemma runs_urb_at b i l u s (Q : UsbAdapterUrb -> Io K -> Prop) :
  urb_blocks s !! b = Some l -> l !! i = Some u -> Q u s -> runs (urb_at b i) s Q.
Proof. intros E1 E2 HQ. apply runs_bind, runs_io_get. eapply runs_bind, runs_must; [done|]. by eapply runs_must. Qed.
Lemma runs_upd_urb b u f s (Q : unit -> Io K -> Prop) :
  urb_blocks s !! b = Some [u] -> Q tt (set_urb_blocks (<[b := [f u]]> (urb_blocks s)) s) -> runs (upd_urb b 0 f) s Q.
Proof.
  intros E HQ. eapply runs_bind, runs_urb_at; [done | done|]. apply runs_io_put.
  replace (alter _ b (urb_blocks s)) with (<[b := [f u]]> (urb_blocks s)); [done|].
  apply map_eq. intros c. destruct (decide (c = b)) as [->|Hc].
  - by rewrite lookup_insert_eq, lookup_alter_eq, E.
  - by rewrite lookup_insert_ne, lookup_alter_ne by done.
Qed.
Lemma runs_queue_of p x s (Q : PoolIo -> Io K -> Prop) : pool_io s !! p = Some x -> Q x s -> runs (queue_of p) s Q.
Proof. intros E HQ. apply runs_bind, runs_io_get. by eapply runs_must. Qed.
Lemma runs_upd_queue p x f s (Q : unit -> Io K -> Prop) :
  pool_io s !! p = Some x -> Q tt (set_pool_io (<[p := f x]> (pool_io s)) s) -> runs (upd_queue p f) s Q.
Proof. intros E HQ. by eapply runs_bind, runs_queue_of. Qed.

Lemma runs_on_host {A} (m : Prog (Host K) A) s (Q : A -> Io K -> Prop) :
  runs m (host s) (fun a h => Q a (set_host h s)) -> runs (on_host m) s Q.
Proof. unfold runs, on_host. by destruct (m (host s)) as [[a h]| |]. Qed.
Lemma set_host_same s : set_host (host s) s = s.
Proof. by destruct s. Qed.
Lemma runs_open_handle d s (Q : nat -> Io K -> Prop) :
  handle_open d (kernel (host s)) = true -> Q d s -> runs (open_handle (Some d)) s Q.
Proof.
  intros E HQ. apply runs_bind. eapply runs_must; [done|]. apply runs_bind, runs_on_host.
  unfold live_handle. apply runs_bind. unfold runs at 1, gets_host. rewrite E. apply runs_ret, runs_ret.
  by rewrite set_host_same.
Qed.

(** Memory, when it is granted. *)
Definition taken h : Host K := set_ram (mkRam ({[ram_next (ram h)]} ∪ ram_live (ram h)) (S (ram_next (ram h)))) h.
Definition given (b : nat) h : Host K := set_ram (mkRam (ram_live (ram h) ∖ {[b]}) (ram_next (ram h))) h.
Lemma runs_take_memory size s (Q : option nat -> Io K -> Prop) :
  ram_granted -> 0 < size -> Q (Some (ram_next (ram (host s)))) (set_host (taken (host s)) s) -> runs (take_memory size) s Q.
Proof.
  intros Hg Hs HQ. apply runs_on_host. unfold runs, on_ram, RawUsbMemCalloc. destruct (Z.eqb_spec size 0); [lia|]. by rewrite Hg.
Qed.
Lemma runs_free_memory b s (Q : unit -> Io K -> Prop) :
  b ∈ ram_live (ram (host s)) -> Q tt (set_host (given b (host s)) s) -> runs (free_memory b) s Q.
Proof. intros Hb HQ. apply runs_on_host. unfold runs, on_ram, RawUsbMemFree. by rewrite decide_True. Qed.
Lemma runs_calloc_urb {RL : ReqSizesLaws} s (Q : option nat -> Io K -> Prop) :
  ram_granted ->
  Q (Some (ram_next (ram (host s))))
    (set_urb_blocks (<[ram_next (ram (host s)) := [zero_urb]]> (urb_blocks s)) (set_host (taken (host s)) s)) ->
  runs (calloc_urbs 1) s Q.
Proof.
  intros Hg HQ. apply runs_bind. pose proof rz_urb. eapply runs_take_memory; [done | lia|].
  apply runs_bind, runs_io_put, runs_ret. exact HQ.
Qed.
Lemma runs_free_urb b s (Q : unit -> Io K -> Prop) :
  b ∈ ram_live (ram (host s)) -> Q tt (set_urb_blocks (delete b (urb_blocks s)) (set_host (given b (host s)) s)) ->
  runs (free_urb b) s Q.
Proof. intros Hb HQ. eapply runs_bind, runs_free_memory; [done|]. by apply runs_io_put. Qed.

Lemma runs_write_buffer r off q bs s (Q : unit -> Io K -> Prop) :
  requests s !! r = Some q -> 0 <= off -> off + Z.of_nat (length bs) <= Z.of_nat (length (hr_buffer q)) ->
  Q tt (set_requests (<[r := set_hr_buffer (splice (Z.to_nat off) bs (hr_buffer q)) q]> (requests s)) s) ->
  runs (write_buffer (r, off) bs) s Q.
Proof.
  intros E H1 H2 HQ. eapply runs_bind, runs_host_request; [exact E|]. cbn [fst snd].
  rewrite (proj2 (Z.leb_le _ _)), (proj2 (Z.leb_le _ _)) by done. by apply runs_set_request.
Qed.
Lemma runs_memcpy {IL : IoStatusLaws} r off q destMax bs n s (Q : Z -> Io K -> Prop) :
  requests s !! r = Some q -> 0 <= off -> 0 < destMax < 2 ^ 31 -> 0 <= n <= destMax -> n <= Z.of_nat (length bs) ->
  off + n <= Z.of_nat (length (hr_buffer q)) ->
  Q 0 (set_requests (<[r := set_hr_buffer (splice (Z.to_nat off) (take (Z.to_nat n) bs) (hr_buffer q)) q]> (requests s)) s) ->
  runs (memcpy_s (r, off) destMax (Some bs) n) s Q.
Proof.
  intros E H1 H2 H3 H4 H5 HQ. unfold memcpy_s. pose proof is_rsize.
  rewrite (proj2 (Z.leb_gt _ _)), (proj2 (Z.ltb_ge _ _)) by lia. cbn [orb].
  rewrite (proj2 (Z.ltb_ge _ _)), (proj2 (Z.ltb_ge _ _)) by lia. apply runs_bind.
  eapply runs_write_buffer; [exact E | done | rewrite length_take; lia|]. by apply runs_ret.
Qed.
End rules.

(** One step of the code; as many as there are. *)
Ltac io :=
  fields;
  match goal with
  | |- runs (_ ≫= _) _ _ => apply runs_bind
  | |- runs (mret _) _ _ => apply runs_ret
  | |- runs (io_get _) _ _ => apply runs_io_get
  | |- runs (io_put _) _ _ => apply runs_io_put
  | |- runs (happens _) _ _ => apply runs_happens
  | |- runs (must (Some _)) _ _ => eapply runs_must; [reflexivity|]
  | |- runs (host_request _) _ _ => eapply runs_host_request; [look|]
  | |- runs (set_request _ _) _ _ => apply runs_set_request
  | |- runs (upd_request _ _) _ _ => eapply runs_upd_request; [look|]
  | |- runs (if_request _) _ _ => eapply runs_if_request; [look|]
  | |- runs (upd_object _ _) _ _ => eapply runs_upd_object; [look|]
  | |- runs (urb_at _ _) _ _ => eapply runs_urb_at; [look | reflexivity|]
  | |- runs (upd_urb _ 0 _) _ _ => eapply runs_upd_urb; [look|]
  | |- runs (queue_of _) _ _ => eapply runs_queue_of; [look|]
  | |- runs (upd_queue _ _) _ _ => eapply runs_upd_queue; [look|]
  | |- runs (open_handle (Some _)) _ _ => eapply runs_open_handle; [done|]
  | |- runs (calloc_urbs 1) _ _ => eapply runs_calloc_urb; [done|]
  end.

Ltac run := repeat io; fields.

(** ** Submitting *)

(** Every request the adapter takes is one URB over the whole buffer. *)
Lemma bulk_one_urb caps len :
  0 < len <= MAX_BULK_DATA_BUFFER_LENGTH ->
  let n := bulk_buffer_len caps len in
  n <> 0 /\ bulk_num_urbs len n = 1 /\ (if len `mod` n =? 0 then n else len `mod` n) = len.
Proof.
  intros [H1 H2] n. assert (n = len \/ n = MAX_BULK_DATA_BUFFER_LENGTH) as Hn.
  { subst n. unfold bulk_buffer_len. rewrite (proj2 (Z.eqb_neq len 0)) by lia. repeat case_match; auto. }
  unfold bulk_num_urbs, MAX_BULK_DATA_BUFFER_LENGTH in *. rewrite (proj2 (Z.eqb_neq len 0)) by lia.
  destruct (decide (len = n)) as [<-|Hne].
  - rewrite Z_mod_same_full, Z_div_same_full by lia. cbn. split; [lia | done].
  - assert (n = 4096) as -> by (destruct Hn; congruence). rewrite Z.mod_small, Z.div_small by lia.
    rewrite (proj2 (Z.ltb_lt _ _)), (proj2 (Z.eqb_neq _ _)) by lia. done.
Qed.

(** An URB filled for a request. *)
Definition urb_for (ty r : Z) (q : UsbHostRequest) (u : UsbAdapterUrb) : UsbAdapterUrb :=
  set_urb_bufferLength (hr_length q) (set_urb_buffer (r, 0) (set_urb_endPoint (hr_endPoint q) (set_urb_type ty (set_urb_userContext (Some r) u)))).
Definition bulk_urb_type (ty : Z) : Z :=
  if ty =? USB_REQUEST_TYPE_BULK then USB_ADAPTER_URB_TYPE_BULK else USB_ADAPTER_URB_TYPE_INTERRUPT.
(** A request just before its only URB goes out. *)
Definition bulk_ready (b : nat) (q : UsbHostRequest) : UsbHostRequest :=
  set_hr_reqStatus USB_REQUEST_COMPLETED (set_hr_numRetired 0 (set_hr_numUrbs 1 (set_hr_urbs (Urbs b) (set_hr_actualLength 0 q)))).
Definition control_ready (b : nat) (q : UsbHostRequest) : UsbHostRequest :=
  set_hr_numUrbs 1 (set_hr_urbs (Urbs b) (set_hr_actualLength 0 q)).
Definition sent_bytes (q : UsbHostRequest) : list Z := take (Z.to_nat (hr_length q)) (hr_buffer q).
(** The outcome of [ioctl_SUBMITURB]. *)
Definition taken_up (a : option Z) (o b : nat) (l : list (nat * (nat * nat))) : list (nat * (nat * nat)) :=
  match a with None => l ++ [(o, (b, O))] | Some _ => l end.

Section submit.
Context {HS : HdfStatus} {HL : HdfStatusLaws} {US : UsbStatus} {UL : UsbStatusLaws} {IS : IoStatus} {IL : IoStatusLaws} {RA : RamAlloc} {SZ : UsbSizes} {RZ : ReqSizes} {RL : ReqSizesLaws}
  {K : Type} {HA : HostAdapter K} {UK : UrbKernel}.
Implicit Types (h : Host K) (R : gmap Z UsbHostRequest) (O : gmap nat UsbIfRequest) (U : gmap nat (list UsbAdapterUrb)).

Lemma ioctl_SUBMITURB_runs h R O U P g F nf hl hi d b u r q (Q : option Z -> Io K -> Prop) :
  U !! b = Some [u] -> urb_userContext u = Some r -> urb_buffer u = (r, 0) -> R !! r = Some q ->
  (let bytes := take (Z.to_nat (urb_bufferLength u)) (hr_buffer q) in let o := default Datatypes.O (hr_privateObj q) in
   let a := submiturb hi d u bytes in
   Q a (mkIo h R O U P g F nf (taken_up a o b hl) (hi ++ [Submitted o u bytes a]))) ->
  runs (ioctl_SUBMITURB d b 0) (mkIo h R O U P g F nf hl hi) Q.
Proof.
  intros Eu Ec Eb Er HQ. unfold ioctl_SUBMITURB. repeat io. rewrite Ec. repeat io. rewrite Eb. cbn. rewrite Er. cbn.
  change (drop (Z.to_nat 0) (hr_buffer q)) with (hr_buffer q).
  destruct (submiturb _ _ _ _) eqn:Ea; cbn in HQ; rewrite Ea in HQ; repeat io; exact HQ.
Qed.

Lemma submit_bulk_ok h R O U P g F nf hl hi r q b u d (Q : Z -> Io K -> Prop) :
  R !! r = Some q -> (hr_requestType q = USB_REQUEST_TYPE_BULK \/ hr_requestType q = USB_REQUEST_TYPE_INTERRUPT) ->
  hr_devHandle q = Some d -> hr_bulkUrb q = Some b -> U !! b = Some [u] -> handle_open d (kernel h) = true ->
  0 < hr_length q <= MAX_BULK_DATA_BUFFER_LENGTH ->
  (let q' := bulk_ready b q in let u' := urb_for (bulk_urb_type (hr_requestType q)) r q u in
   let o := default Datatypes.O (hr_privateObj q) in let a := submiturb hi d u' (sent_bytes q) in
   Q (match a with None => HDF_SUCCESS | Some _ => HDF_ERR_IO end)
     (mkIo h (<[r := q']> R) O (<[b := [u']]> U) P g F nf (taken_up a o b hl) (hi ++ [Submitted o u' (sent_bytes q) a]))) ->
  runs (AdapterSubmitRequest r) (mkIo h R O U P g F nf hl hi) Q.
Proof.
  intros Er Ety Ed Eb Eu Ho Hl HQ. destruct (bulk_one_urb (handle_caps d) (hr_length q) Hl) as (Hn1 & Hn2 & Hn3).
  unfold AdapterSubmitRequest. run.
  assert (hr_requestType q =? USB_REQUEST_TYPE_CONTROL = false) as -> by (destruct Ety as [-> | ->]; done).
  assert (hr_requestType q =? USB_REQUEST_TYPE_ISOCHRONOUS = false) as -> by (destruct Ety as [-> | ->]; done).
  assert ((hr_requestType q =? USB_REQUEST_TYPE_BULK) || (hr_requestType q =? USB_REQUEST_TYPE_INTERRUPT) = true) as ->
    by (destruct Ety as [-> | ->]; done).
  unfold OsSubmitBulkRequest. run. rewrite (proj2 (Z.ltb_ge _ _)), (proj2 (Z.leb_gt _ _)) by lia. run. rewrite Ed. run.
  rewrite Hn2. run. rewrite Eb. change (1 =? 1) with true. run. unfold OsSubmitBulkRequestHandle. run. rewrite Ed. run.
  change (Z.to_nat 1) with 1%nat. cbn [submit_bulk]. run. unfold OsSubmitBulkRequestHandleUrb.
  rewrite (proj2 (Z.eqb_neq _ _)) by done. run.
  assert ((if hr_requestType q =? USB_REQUEST_TYPE_BULK then Some USB_ADAPTER_URB_TYPE_BULK
           else if hr_requestType q =? USB_REQUEST_TYPE_INTERRUPT then Some USB_ADAPTER_URB_TYPE_INTERRUPT else None) =
          Some (bulk_urb_type (hr_requestType q))) as -> by (destruct Ety as [-> | ->]; done).
  run. rewrite Hn3, us_success. cbn [Z.eqb negb]. run. rewrite !insert_insert_eq.
  eapply ioctl_SUBMITURB_runs; [look | done | done | look|].
  change (Z.of_nat 0 =? 1 - 1) with true. change (Z.of_nat 0 * _) with 0. rewrite us_success in HQ.
  cbv zeta in HQ |- *. set (a := submiturb hi d _ _) in HQ. change (submiturb hi d _ _) with a. clearbody a.
  destruct a as [e|]; run; exact HQ.
Qed.

Lemma submit_control_ok h R O U P g F nf hl hi r q d (Q : Z -> Io K -> Prop) :
  ram_granted -> R !! r = Some q -> hr_requestType q = USB_REQUEST_TYPE_CONTROL -> hr_devHandle q = Some d ->
  handle_open d (kernel h) = true -> 0 <= hr_length q <= MAX_BULK_DATA_BUFFER_LENGTH ->
  (let b := ram_next (ram h) in let q' := control_ready b q in let u' := urb_for USB_ADAPTER_URB_TYPE_CONTROL r q zero_urb in
   let o := default Datatypes.O (hr_privateObj q) in let a := submiturb hi d u' (sent_bytes q) in
   let hi' := hi ++ [Submitted o u' (sent_bytes q) a] in
   match a with
   | None => Q HDF_SUCCESS (mkIo (taken h) (<[r := q']> R) O (<[b := [u']]> U) P g F nf (hl ++ [(o, (b, Datatypes.O))]) hi')
   | Some e => forall ret, ret <> HDF_SUCCESS ->
       Q ret (mkIo (given b (taken h)) (<[r := set_hr_urbs NoUrbs q']> R) O (delete b (<[b := [u']]> U)) P g F nf hl hi')
   end) ->
  runs (AdapterSubmitRequest r) (mkIo h R O U P g F nf hl hi) Q.
Proof.
  intros Hg Er Ety Ed Ho Hl HQ. unfold AdapterSubmitRequest. run. rewrite Ety. change (USB_REQUEST_TYPE_CONTROL =? USB_REQUEST_TYPE_CONTROL) with true. run.
  unfold OsSubmitControlRequest. run. rewrite Ed, bool_decide_false by done. rewrite (proj2 (Z.ltb_ge _ _)) by lia. run.
  rewrite !insert_insert_eq. assert (i32 (hr_length q) = hr_length q) as ->.
  { apply i32_id. unfold MAX_BULK_DATA_BUFFER_LENGTH in Hl. lia. }
  eapply ioctl_SUBMITURB_runs; [look | done | done | look|]. cbv zeta in HQ |- *.
  set (a := submiturb hi d _ _) in HQ. change (submiturb hi d _ _) with a. clearbody a.
  destruct a as [e|]; run; [|exact HQ]. eapply runs_free_urb; [cbn; set_solver|]. run. rewrite !insert_insert_eq.
  pose proof us_success. pose proof us_io. pose proof is_no_device. destruct (e =? ENODEV); run; apply HQ; lia.
Qed.

(** What the adapter does not take is refused before the kernel sees it. *)
Lemma submit_refused_ok h R O U P g F nf hl hi r q d (Q : Z -> Io K -> Prop) :
  R !! r = Some q -> hr_devHandle q = Some d ->
  (hr_requestType q = USB_REQUEST_TYPE_CONTROL /\ MAX_BULK_DATA_BUFFER_LENGTH < hr_length q) \/
  (hr_requestType q = USB_REQUEST_TYPE_BULK \/ hr_requestType q = USB_REQUEST_TYPE_INTERRUPT) /\
    ~ 0 < hr_length q <= MAX_BULK_DATA_BUFFER_LENGTH ->
  (forall ret, ret <> HDF_SUCCESS -> Q ret (mkIo h (<[r := set_hr_actualLength 0 q]> R) O U P g F nf hl hi)) ->
  runs (AdapterSubmitRequest r) (mkIo h R O U P g F nf hl hi) Q.
Proof.
  intros Er Ed Hc HQ. unfold AdapterSubmitRequest. run. pose proof us_success.
  destruct Hc as [[-> Hl]|[Ety Hl]].
  - change (USB_REQUEST_TYPE_CONTROL =? USB_REQUEST_TYPE_CONTROL) with true. run. unfold OsSubmitControlRequest. run. rewrite Ed, bool_decide_false by done.
    rewrite (proj2 (Z.ltb_lt _ _)) by lia. run. apply HQ. rewrite us_success. pose proof hdf_invalid_param_nz. done.
  - assert (hr_requestType q =? USB_REQUEST_TYPE_CONTROL = false) as -> by (destruct Ety as [-> | ->]; done).
    assert (hr_requestType q =? USB_REQUEST_TYPE_ISOCHRONOUS = false) as -> by (destruct Ety as [-> | ->]; done).
    assert ((hr_requestType q =? USB_REQUEST_TYPE_BULK) || (hr_requestType q =? USB_REQUEST_TYPE_INTERRUPT) = true) as ->
      by (destruct Ety as [-> | ->]; done).
    unfold OsSubmitBulkRequest. run.
    assert ((MAX_BULK_DATA_BUFFER_LENGTH <? hr_length q) || (hr_length q <=? 0) = true) as ->.
    { destruct (Z.ltb_spec MAX_BULK_DATA_BUFFER_LENGTH (hr_length q)), (Z.leb_spec (hr_length q) 0); try done. lia. }
    run. apply HQ. lia.
Qed.
End submit.

(** ** Cancelling *)
Section cancel.
Context {HS : HdfStatus} {HL : HdfStatusLaws} {US : UsbStatus} {UL : UsbStatusLaws} {IS : IoStatus} {IL : IoStatusLaws} {RA : RamAlloc} {SZ : UsbSizes} {RZ : ReqSizes}
  {K : Type} {HA : HostAdapter K} {UK : UrbKernel}.
Implicit Types (h : Host K) (R : gmap Z UsbHostRequest) (O : gmap nat UsbIfRequest) (U : gmap nat (list UsbAdapterUrb)).

Lemma discard_urbs_runs n first h R O U P g F nf hl hi r q d (Q : unit -> Io K -> Prop) :
  R !! r = Some q -> hr_devHandle q = Some d -> handle_open d (kernel h) = true ->
  hr_requestType q <> USB_REQUEST_TYPE_ISOCHRONOUS ->
  (forall ev, concat (map seen_of ev) = [] -> Q tt (mkIo h R O U P g F nf hl (hi ++ ev))) ->
  runs (discard_urbs n first r) (mkIo h R O U P g F nf hl hi) Q.
Proof.
  intros Er Ed Ho Ety HQ. revert hi HQ. induction n as [|n IH]; intros hi HQ; cbn [discard_urbs].
  { apply runs_ret. specialize (HQ [] eq_refl). by rewrite app_nil_r in HQ. }
  run. rewrite Ed. run. rewrite (proj2 (Z.eqb_neq _ _)) by done.
  destruct (hr_urbs q); run; apply IH; [exact HQ | |]; intros ev Hev; rewrite <- app_assoc; by apply HQ.
Qed.

(** A cancelled request, unless it is a bulk request that failed already. *)
Definition cancelled (q : UsbHostRequest) : UsbHostRequest :=
  if (hr_requestType q =? USB_REQUEST_TYPE_BULK) && bool_decide (hr_reqStatus q = USB_REQUEST_ERROR) then q
  else set_hr_reqStatus USB_REQUEST_CANCELLED q.
Lemma AdapterCancelRequest_runs h R O U P g F nf hl hi r q d (Q : Z -> Io K -> Prop) :
  R !! r = Some q -> hr_devHandle q = Some d -> handle_open d (kernel h) = true ->
  hr_requestType q <> USB_REQUEST_TYPE_ISOCHRONOUS ->
  match hr_urbs q with
  | NoUrbs => forall ret, ret <> HDF_SUCCESS -> Q ret (mkIo h R O U P g F nf hl hi)
  | _ => forall ev, concat (map seen_of ev) = [] -> Q HDF_SUCCESS (mkIo h (<[r := cancelled q]> R) O U P g F nf hl (hi ++ ev))
  end ->
  runs (AdapterCancelRequest r) (mkIo h R O U P g F nf hl hi) Q.
Proof.
  intros Er Ed Ho Ety HQ. unfold AdapterCancelRequest. run.
  assert (hr_urbs q <> NoUrbs -> (forall ev, concat (map seen_of ev) = [] ->
      Q HDF_SUCCESS (mkIo h (<[r := cancelled q]> R) O U P g F nf hl (hi ++ ev))) ->
    runs (OsDiscardUrbs r 0 (hr_numUrbs q);;
          q ← host_request r;
          (if negb ((hr_requestType q =? USB_REQUEST_TYPE_BULK) && bool_decide (hr_reqStatus q = USB_REQUEST_ERROR))
           then upd_request r (set_hr_reqStatus USB_REQUEST_CANCELLED) else mret tt);;
          mret HDF_SUCCESS) (mkIo h R O U P g F nf hl hi) Q) as Hall.
  { intros Hn HQ'. unfold OsDiscardUrbs. do 3 io. rewrite Ed, bool_decide_false by done.
    assert (forall ev, concat (map seen_of ev) = [] ->
      runs (q ← host_request r;
            (if negb ((hr_requestType q =? USB_REQUEST_TYPE_BULK) && bool_decide (hr_reqStatus q = USB_REQUEST_ERROR))
             then upd_request r (set_hr_reqStatus USB_REQUEST_CANCELLED) else mret tt);;
            mret HDF_SUCCESS) (mkIo h R O U P g F nf hl (hi ++ ev)) Q) as Hrest.
    { intros ev Hev. run. specialize (HQ' ev Hev). unfold cancelled in HQ'.
      destruct ((hr_requestType q =? USB_REQUEST_TYPE_BULK) && _); run; [|exact HQ']. rewrite insert_id in HQ' by done. exact HQ'. }
    change (URBS_PER_REQUEST <? 0) with false. fields. destruct (hr_numUrbs q <? 0).
    - apply runs_ret. specialize (Hrest [] eq_refl). rewrite app_nil_r in Hrest. apply Hrest.
    - eapply discard_urbs_runs; [done..|]. exact Hrest. }
  destruct (hr_urbs q); [|apply Hall; done..]. run. apply HQ. rewrite us_success. pose proof us_bad_fd. lia.
Qed.
End cancel.

(** ** Completing *)

(** What the client's object says of a completed request. *)
Definition info_offset (q : UsbHostRequest) : Z :=
  if Z.land (hr_requestType q) USB_DDK_ENDPOINT_XFERTYPE_MASK =? USB_DDK_ENDPOINT_XFER_CONTROL then USB_RAW_CONTROL_SETUP_SIZE else 0.
Definition info_of (r : Z) (q : UsbHostRequest) (x : UsbIfRequest) : UsbRequestCompInfo :=
  mkCompInfo (ci_type (compInfo x)) (Some (r, info_offset q)) (hr_length q) (u32 (hr_actualLength q)) (hr_status q) (hr_userData q).
Definition info_bytes (q : UsbHostRequest) : list Z :=
  take (Z.to_nat (u32 (hr_actualLength q))) (drop (Z.to_nat (info_offset q)) (hr_buffer q)).
(** Whoever waits is woken. *)
Definition woken (x : UsbIfRequest) (q : UsbHostRequest) : UsbHostRequest :=
  if isSyncReq x then set_hr_sem (option_map (fun n => n + 1) (hr_sem q)) q else q.

Section complete.
Context {HS : HdfStatus} {HL : HdfStatusLaws} {US : UsbStatus} {UL : UsbStatusLaws} {IS : IoStatus} {IL : IoStatusLaws} {RA : RamAlloc} {SZ : UsbSizes} {RZ : ReqSizes}
  {K : Type} {HA : HostAdapter K} {UK : UrbKernel}.
Implicit Types (h : Host K) (R : gmap Z UsbHostRequest) (O : gmap nat UsbIfRequest) (U : gmap nat (list UsbAdapterUrb)).

Lemma completion_info_runs h R O U P g F nf hl hi r q o x (Q : unit -> Io K -> Prop) :
  R !! r = Some q -> hr_privateObj q = Some o -> O !! o = Some x -> (isSyncReq x = true -> is_Some (hr_sem q)) ->
  Q tt (mkIo h (<[r := woken x q]> R) (<[o := set_compInfo (info_of r q x) x]> O) U P g F nf hl
         (hi ++ [Completed o (hr_userCallback q) (info_of r q x) (info_bytes q)])) ->
  runs (UsbIoSetRequestCompletionInfo r) (mkIo h R O U P g F nf hl hi) Q.
Proof.
  intros Er Ep Eo Es HQ. unfold UsbIoSetRequestCompletionInfo. run. rewrite Ep. run. unfold woken in HQ.
  destruct (isSyncReq x) eqn:Ex.
  - destruct (Es eq_refl) as [n En]. unfold OsalSemPost. run. rewrite En in *. run. exact HQ.
  - run. rewrite insert_id in HQ by done. exact HQ.
Qed.

Lemma raw_completion_runs h R O U P g F nf hl hi r q o x st (Q : Z -> Io K -> Prop) :
  R !! r = Some q -> hr_callback q = Some UsbIoSetRequestCompletionInfo_cb -> hr_privateObj q = Some o -> O !! o = Some x ->
  (isSyncReq x = true -> is_Some (hr_sem q)) ->
  (let q1 := set_hr_status st q in
   Q HDF_SUCCESS (mkIo h (<[r := woken x q1]> R) (<[o := set_compInfo (info_of r q1 x) x]> O) U P g F nf hl
         (hi ++ [Completed o (hr_userCallback q) (info_of r q1 x) (info_bytes q)]))) ->
  runs (RawHandleRequestCompletion r st) (mkIo h R O U P g F nf hl hi) Q.
Proof.
  intros Er Ec Ep Eo Es HQ. unfold RawHandleRequestCompletion. run. rewrite Ec.
  eapply completion_info_runs; [look | done | done | done|]. run. rewrite insert_insert_eq. exact HQ.
Qed.

(** A control transfer that was not cancelled. *)
Definition control_status (st : Z) : UsbRequestStatus :=
  if st =? 0 then USB_REQUEST_COMPLETED else if st =? - ENOENT then USB_REQUEST_CANCELLED
  else if st =? - EPIPE then USB_REQUEST_STALL else if st =? - EOVERFLOW then USB_REQUEST_OVERFLOW
  else if (st =? - ENODEV) || (st =? - ESHUTDOWN) then USB_REQUEST_NO_DEVICE else USB_REQUEST_ERROR.
Lemma OsControlCompletion_to h R O U P g F nf hl hi r q b u (Q : Z -> Io K -> Prop) :
  R !! r = Some q -> U !! b = Some [u] -> hr_urbs q = Urbs b -> b ∈ ram_live (ram h) ->
  runs (RawHandleRequestCompletion r
          (if bool_decide (hr_reqStatus q = USB_REQUEST_CANCELLED) then USB_REQUEST_CANCELLED else control_status (urb_status u)))
    (mkIo (given b h) (<[r := set_hr_urbs NoUrbs (set_hr_actualLength (i32 (hr_actualLength q + urb_actualLength u)) q)]> R) O (delete b U) P g F nf hl hi) Q ->
  runs (OsControlCompletion r b 0) (mkIo h R O U P g F nf hl hi) Q.
Proof.
  intros Er Eu Eurb Hb HQ. unfold OsControlCompletion. run. rewrite Eurb. unfold free_urbs.
  change (if urb_status u =? 0 then _ else _) with (control_status (urb_status u)).
  destruct (bool_decide _); run; (eapply runs_free_urb; [done|]); run; rewrite insert_insert_eq; exact HQ.
Qed.
Lemma OsControlCompletion_runs h R O U P g F nf hl hi r q o x b u (Q : Z -> Io K -> Prop) :
  R !! r = Some q -> hr_callback q = Some UsbIoSetRequestCompletionInfo_cb -> hr_privateObj q = Some o -> O !! o = Some x ->
  (isSyncReq x = true -> is_Some (hr_sem q)) -> U !! b = Some [u] -> hr_urbs q = Urbs b -> b ∈ ram_live (ram h) ->
  (let st := if bool_decide (hr_reqStatus q = USB_REQUEST_CANCELLED) then USB_REQUEST_CANCELLED else control_status (urb_status u) in
   let q1 := set_hr_status st (set_hr_urbs NoUrbs (set_hr_actualLength (i32 (hr_actualLength q + urb_actualLength u)) q)) in
   Q HDF_SUCCESS (mkIo (given b h) (<[r := woken x q1]> R) (<[o := set_compInfo (info_of r q1 x) x]> O) (delete b U) P g F nf hl
         (hi ++ [Completed o (hr_userCallback q) (info_of r q1 x) (info_bytes q1)]))) ->
  runs (OsControlCompletion r b 0) (mkIo h R O U P g F nf hl hi) Q.
Proof.
  intros Er Ec Ep Eo Es Eu Eurb Hb HQ. eapply OsControlCompletion_to; [done..|].
  eapply raw_completion_runs; [look | done | done | done | done|]. cbv zeta. rewrite insert_insert_eq. exact HQ.
Qed.

(** The only URB of a bulk request. *)
Definition bulk_status (st : Z) : UsbRequestStatus :=
  if st =? 0 then USB_REQUEST_COMPLETED else if st =? - ESHUTDOWN then USB_REQUEST_NO_DEVICE
  else if st =? - EPIPE then USB_REQUEST_STALL else if st =? - EOVERFLOW then USB_REQUEST_OVERFLOW else USB_REQUEST_ERROR.
Lemma OsBulkCompletion_to h R O U P g F nf hl hi r q b u (Q : Z -> Io K -> Prop) :
  R !! r = Some q -> U !! b = Some [u] -> hr_urbs q = Urbs b ->
  hr_numUrbs q = 1 -> hr_numRetired q = 0 -> hr_actualLength q = 0 -> urb_buffer u = (r, 0) -> 0 <= urb_actualLength u < 2 ^ 31 ->
  (let st := if bool_decide (hr_reqStatus q = USB_REQUEST_COMPLETED) then bulk_status (urb_status u) else hr_reqStatus q in
   runs (RawHandleRequestCompletion r st)
     (mkIo h (<[r := set_hr_reqStatus st (set_hr_actualLength (urb_actualLength u) (set_hr_numRetired 1 q))]> R) O U P g F nf hl hi) Q) ->
  runs (OsBulkCompletion r b 0) (mkIo h R O U P g F nf hl hi) Q.
Proof.
  intros Er Eu Eurb En1 En2 Ea Eb Hn HQ. unfold OsBulkCompletion. run. rewrite Eurb, Nat.eqb_refl. run. rewrite En2.
  assert (forall q2 hi', hi' = hi -> q2 = set_hr_reqStatus (if bool_decide (hr_reqStatus q = USB_REQUEST_COMPLETED) then bulk_status (urb_status u) else hr_reqStatus q)
             (set_hr_actualLength (urb_actualLength u) (set_hr_numRetired 1 q)) ->
          runs (bulk_completed r) (mkIo h (<[r := q2]> R) O U P g F nf hl hi') Q) as Hend.
  { intros q2 hi' -> ->. unfold bulk_completed. run. exact HQ. }
  clear HQ. assert (i32 (0 + urb_actualLength u) = urb_actualLength u) as Ei by (rewrite i32_id; lia).
  destruct (bool_decide (hr_reqStatus q = USB_REQUEST_COMPLETED)) eqn:Ed.
  - apply bool_decide_eq_true in Ed. run. rewrite Ea, Ei, !insert_insert_eq. unfold OsUrbStatusToRequestStatus. run.
    unfold keep_first, bulk_status in *. pose proof us_success. pose proof is_no_device. pose proof us_failure. pose proof is_no_device_failure.
    destruct (urb_status u =? 0); [|destruct (_ =? - ESHUTDOWN); [|destruct (_ =? - EPIPE); [|destruct (_ =? - EOVERFLOW)]]]; run.
    + rewrite (proj2 (Z.eqb_neq HDF_SUCCESS HDF_DEV_ERR_NO_DEVICE)), (proj2 (Z.eqb_neq HDF_SUCCESS HDF_FAILURE)) by lia. run.
      rewrite En1. change (0 + 1 =? 1) with true. apply Hend; [done|]. clear -Ed. destruct q; cbn in *. by subst.
    + rewrite Z.eqb_refl. unfold bulk_cancel. run. rewrite En1. change (0 + 1 =? 1) with true. rewrite insert_insert_eq. by apply Hend.
    + rewrite Ed, bool_decide_true by done. rewrite Z.eqb_refl. unfold bulk_cancel. run. rewrite En1. change (0 + 1 =? 1) with true.
      rewrite insert_insert_eq. by apply Hend.
    + rewrite Ed, bool_decide_true by done. rewrite (proj2 (Z.eqb_neq HDF_FAILURE HDF_DEV_ERR_NO_DEVICE)), Z.eqb_refl by done.
      rewrite insert_insert_eq. by apply Hend.
    + rewrite Ed, bool_decide_true by done. rewrite Z.eqb_refl. unfold bulk_cancel. run. rewrite En1. change (0 + 1 =? 1) with true.
      rewrite insert_insert_eq. by apply Hend.
  - run. unfold OsProcessAbnormalReap. run. destruct (Z.ltb_spec 0 (urb_actualLength u)).
    + run. rewrite Eb, Ea, bool_decide_true by done. run. rewrite En1, Ea, Ei. change (0 + 1 =? 1) with true. run. rewrite Z.eqb_refl.
      rewrite !insert_insert_eq. by apply Hend.
    + run. rewrite En1. change (0 + 1 =? 1) with true. run. rewrite Z.eqb_refl. apply Hend; [done|].
      assert (urb_actualLength u = 0) as -> by lia. clear -Ea. destruct q; cbn in *. by subst.
Qed.
Lemma OsBulkCompletion_runs h R O U P g F nf hl hi r q o x b u (Q : Z -> Io K -> Prop) :
  R !! r = Some q -> hr_callback q = Some UsbIoSetRequestCompletionInfo_cb -> hr_privateObj q = Some o -> O !! o = Some x ->
  (isSyncReq x = true -> is_Some (hr_sem q)) -> U !! b = Some [u] -> hr_urbs q = Urbs b ->
  hr_numUrbs q = 1 -> hr_numRetired q = 0 -> hr_actualLength q = 0 -> urb_buffer u = (r, 0) -> 0 <= urb_actualLength u < 2 ^ 31 ->
  (let st := if bool_decide (hr_reqStatus q = USB_REQUEST_COMPLETED) then bulk_status (urb_status u) else hr_reqStatus q in
   let q1 := set_hr_status st (set_hr_reqStatus st (set_hr_actualLength (urb_actualLength u) (set_hr_numRetired 1 q))) in
   Q HDF_SUCCESS (mkIo h (<[r := woken x q1]> R) (<[o := set_compInfo (info_of r q1 x) x]> O) U P g F nf hl
         (hi ++ [Completed o (hr_userCallback q) (info_of r q1 x) (info_bytes q1)]))) ->
  runs (OsBulkCompletion r b 0) (mkIo h R O U P g F nf hl hi) Q.
Proof.
  intros Er Ec Ep Eo Es Eu Eurb En1 En2 Ea Eb Hn HQ. eapply OsBulkCompletion_to; [done..|].
  eapply raw_completion_runs; [look | done | done | done | done|]. cbv zeta. rewrite insert_insert_eq. exact HQ.
Qed.
End complete.
