(* ===== verification/UsbReqFill.v ===== *)
(** * UsbReqFill: filling a request

    What [UsbFillRequest] makes of a request when the parameters are in order:
    the job the client asked for, and its bytes in the buffer. *)
From S2P Require Import Prelude Hdf UsbDesc UsbDescFacts UsbPool UsbReq UsbReqApi UsbReqUse UsbReqFacts.
Open Scope Z_scope.

(** ** Bytes of a buffer *)
Lemma splice_nil off l : splice off [] l = l.
Proof. unfold splice. cbn. by rewrite Nat.add_0_r, take_drop. Qed.
Lemma length_splice off bs l : (off + length bs <= length l)%nat -> length (splice off bs l) = length l.
Proof. intros H. unfold splice. rewrite !length_app, length_take, length_drop. lia. Qed.
Lemma splice_app bs1 bs2 l : splice (length bs1) bs2 (splice 0 bs1 l) = splice 0 (bs1 ++ bs2) l.
Proof.
  unfold splice. rewrite !take_0. cbn [app Nat.add]. by rewrite take_app_length, drop_app_add, drop_drop, length_app, <- app_assoc.
Qed.

(** ** Numbers of endpoints and request types *)
Lemma small_cases (P : Z -> bool) n z : forallb P (map Z.of_nat (seq 0 n)) = true -> 0 <= z < Z.of_nat n -> P z = true.
Proof.
  rewrite forallb_forall. intros H Hz. apply H, in_map_iff. exists (Z.to_nat z). split; [lia|]. apply in_seq. lia.
Qed.

Lemma dir_cases dir : dir_ok dir = true -> dir = 0 \/ dir = 1.
Proof. unfold dir_ok. intros [H%Z.eqb_eq|H%Z.eqb_eq]%orb_true_iff; auto. Qed.

Lemma data_endpoint_eq dir addr : dir_ok dir = true -> 0 <= addr < 16 -> data_endpoint dir addr = 128 * dir + addr.
Proof.
  intros Hd Ha. apply Z.eqb_eq. destruct (dir_cases dir Hd) as [-> | ->].
  - apply (small_cases (fun a => data_endpoint 0 a =? 128 * 0 + a) 16); [done | lia].
  - apply (small_cases (fun a => data_endpoint 1 a =? 128 * 1 + a) 16); [done | lia].
Qed.
Lemma endpoint_out dir addr : dir_ok dir = true -> 0 <= addr < 16 -> UsbEndpointDirOut (128 * dir + addr) = to_device dir.
Proof.
  intros Hd Ha. apply eqb_true_iff. destruct (dir_cases dir Hd) as [-> | ->].
  - apply (small_cases (fun a => Bool.eqb (UsbEndpointDirOut (128 * 0 + a)) (to_device 0)) 16); [done | lia].
  - apply (small_cases (fun a => Bool.eqb (UsbEndpointDirOut (128 * 1 + a)) (to_device 1)) 16); [done | lia].
Qed.
Lemma request_type_eq dir ty target :
  dir_ok dir = true -> 0 <= ty <= 2 -> 0 <= target <= 3 ->
  Z.lor (Z.lor (Z.shiftl (u8 dir) USB_DIR_OFFSET) (Z.shiftl (u8 ty) USB_TYPE_OFFSET)) (Z.shiftl (u8 target) USB_RECIP_OFFSET) =
  128 * dir + 32 * ty + target.
Proof.
  intros Hd Ht Hr. assert (ty = 0 \/ ty = 1 \/ ty = 2) as Ety by lia. assert (target = 0 \/ target = 1 \/ target = 2 \/ target = 3) as Er by lia.
  destruct (dir_cases dir Hd) as [-> | ->], Ety as [->|[-> | ->]], Er as [->|[->|[-> | ->]]]; done.
Qed.

Section fill.
Context {HS : HdfStatus} {HL : HdfStatusLaws} {US : UsbStatus} {UL : UsbStatusLaws} {IS : IoStatus} {IL : IoStatusLaws} {RA : RamAlloc} {SZ : UsbSizes} {RZ : ReqSizes}
  {K : Type} {HA : HostAdapter K} {UK : UrbKernel}.
Context (d : nat) (pipes : Z -> Z -> option Z).
Implicit Types (h : Host K) (R : gmap Z UsbHostRequest) (O : gmap nat UsbIfRequest) (U : gmap nat (list UsbAdapterUrb)).

(** A request filled for a job, with the bytes in its buffer. *)
Definition fill_request (j : job) (timeout : Z) (bytes : list Z) (q : UsbHostRequest) : UsbHostRequest :=
  set_hr_userCallback (j_cb j) (set_hr_callback (Some UsbIoSetRequestCompletionInfo_cb) (set_hr_userData (j_data j)
    (set_hr_length (j_len j) (set_hr_timeout timeout (set_hr_requestType (j_type j) (set_hr_endPoint (j_ep j)
      (set_hr_devHandle (Some d) (set_hr_buffer (splice 0 bytes (hr_buffer q)) q)))))))).

(** The buffer of a request has at least the size it was made with. *)
Record spacious (q : UsbHostRequest) : Prop := Spacious {
  sp_size : 0 < hr_bufLen q < 2 ^ 31;
  sp_room : hr_bufLen q <= Z.of_nat (length (hr_buffer q));
}.

Lemma source_length src n : source_ok src n = true -> 0 <= n -> exists bs, src = Some bs /\ n <= Z.of_nat (length bs) /\ source src n = take (Z.to_nat n) bs.
Proof. destruct src as [bs|]; [|done]. cbn. intros H%Z.leb_le Hn. by exists bs. Qed.

Lemma u64_size q : spacious q -> u64 (hr_bufLen q) = hr_bufLen q.
Proof. intros [H _]. unfold u64. rewrite Z.mod_small; lia. Qed.

Lemma fill_bulk_ok h R O U P g F nf hl hi r q prm c (Q : Z -> Io K -> Prop) :
  R !! r = Some q -> spacious q -> 0 <= rp_pipeAddress prm < 16 -> dir_ok (pd_directon c) = true ->
  0 <= pd_length c <= hr_bufLen q -> (to_device (pd_directon c) = true -> source_ok (pd_buffer c) (pd_length c) = true) ->
  (let j := Job USB_PIPE_TYPE_BULK (128 * pd_directon c + rp_pipeAddress prm) (pd_length c) (rp_callback prm) (rp_userData prm) in
   let bytes := if to_device (pd_directon c) then source (pd_buffer c) (pd_length c) else [] in
   Q HDF_SUCCESS (mkIo h (<[r := fill_request j (rp_timeout prm) bytes q]> R) O U P g F nf hl hi)) ->
  runs (IfFillBulkRequest r (Some d) prm c) (mkIo h R O U P g F nf hl hi) Q.
Proof.
  intros Er Hs Ha Hd Hn Hsrc HQ. unfold IfFillBulkRequest. run. change (pd_directon c =? USB_REQUEST_DIR_TO_DEVICE) with (to_device (pd_directon c)).
  rewrite data_endpoint_eq by done. pose proof Hs as [H1 H2]. destruct (to_device (pd_directon c)) eqn:Edir.
  - destruct (source_length _ _ (Hsrc eq_refl) ltac:(lia)) as (bs & Eb & Hlen & Es). destruct (Z.ltb_spec 0 (pd_length c)).
    + run. rewrite Eb. eapply runs_memcpy; [look | lia | rewrite u64_size by done; lia.. | lia | lia|]. change (0 =? 0) with true.
      run. cbv zeta in HQ. rewrite Es in HQ. rewrite insert_insert_eq. exact HQ.
    + run. change (0 =? 0) with true. run. cbv zeta in HQ. assert (pd_length c = 0) as E0 by lia.
      assert (source (pd_buffer c) (pd_length c) = []) as E by (by rewrite Es, E0). unfold fill_request in HQ. rewrite E, splice_nil in HQ.
      exact HQ.
  - run. change (0 =? 0) with true. run. cbv zeta in HQ. unfold fill_request in HQ. rewrite splice_nil in HQ. exact HQ.
Qed.

Lemma fill_interrupt_ok h R O U P g F nf hl hi r q prm c (Q : Z -> Io K -> Prop) :
  R !! r = Some q -> spacious q -> 0 <= rp_pipeAddress prm < 16 -> dir_ok (pd_directon c) = true ->
  0 <= pd_length c <= hr_bufLen q -> (to_device (pd_directon c) = true -> source_ok (pd_buffer c) (pd_length c) = true) ->
  (let j := Job USB_PIPE_TYPE_INTERRUPT (128 * pd_directon c + rp_pipeAddress prm) (pd_length c) (rp_callback prm) (rp_userData prm) in
   let bytes := if to_device (pd_directon c) then source (pd_buffer c) (pd_length c) else [] in
   Q HDF_SUCCESS (mkIo h (<[r := fill_request j (rp_timeout prm) bytes q]> R) O U P g F nf hl hi)) ->
  runs (IfFillInterrupteRequest r (Some d) prm c) (mkIo h R O U P g F nf hl hi) Q.
Proof.
  intros Er Hs Ha Hd Hn Hsrc HQ. unfold IfFillInterrupteRequest, RawFillInterruptRequest, data_fill. run. cbn [fd_endPoint fd_buffer fd_length].
  rewrite data_endpoint_eq, endpoint_out by done. pose proof Hs as [H1 H2]. destruct (to_device (pd_directon c)) eqn:Edir.
  - destruct (source_length _ _ (Hsrc eq_refl) ltac:(lia)) as (bs & Eb & Hlen & Es). rewrite Eb.
    eapply runs_memcpy; [look | lia | rewrite u64_size by done; lia.. | lia | lia|]. change (0 =? 0) with true.
    run. cbv zeta in HQ. rewrite Es in HQ. rewrite insert_insert_eq. exact HQ.
  - run. change (0 =? 0) with true. run. cbv zeta in HQ. unfold fill_request in HQ. rewrite splice_nil in HQ. exact HQ.
Qed.

(** The expert mode's own way to fill a bulk request comes to the same. *)
Lemma raw_fill_bulk_ok h R O U P g F nf hl hi r q prm c (Q : Z -> Io K -> Prop) :
  R !! r = Some q -> spacious q -> 0 <= rp_pipeAddress prm < 16 -> dir_ok (pd_directon c) = true ->
  0 <= pd_length c <= hr_bufLen q -> (to_device (pd_directon c) = true -> source_ok (pd_buffer c) (pd_length c) = true) ->
  (let j := Job USB_PIPE_TYPE_BULK (128 * pd_directon c + rp_pipeAddress prm) (pd_length c) (rp_callback prm) (rp_userData prm) in
   let bytes := if to_device (pd_directon c) then source (pd_buffer c) (pd_length c) else [] in
   Q HDF_SUCCESS (mkIo h (<[r := fill_request j (rp_timeout prm) bytes q]> R) O U P g F nf hl hi)) ->
  runs (RawFillBulkRequest r (Some d) (data_fill prm c)) (mkIo h R O U P g F nf hl hi) Q.
Proof.
  intros Er Hs Ha Hd Hn Hsrc HQ. unfold RawFillBulkRequest, data_fill. run. cbn [fd_endPoint fd_buffer fd_length].
  rewrite data_endpoint_eq, endpoint_out by done. pose proof Hs as [H1 H2]. destruct (to_device (pd_directon c)) eqn:Edir.
  - destruct (source_length _ _ (Hsrc eq_refl) ltac:(lia)) as (bs & Eb & Hlen & Es). rewrite Eb.
    eapply runs_memcpy; [look | lia | rewrite u64_size by done; lia.. | lia | lia|]. change (0 =? 0) with true.
    run. cbv zeta in HQ. rewrite Es in HQ. rewrite insert_insert_eq. exact HQ.
  - run. change (0 =? 0) with true. run. cbv zeta in HQ. unfold fill_request in HQ. rewrite splice_nil in HQ. exact HQ.
Qed.
Lemma raw_fill_bulk_same (s : Io K) r q prm c :
  requests s !! r = Some q -> spacious q -> 0 <= rp_pipeAddress prm < 16 -> dir_ok (pd_directon c) = true ->
  0 <= pd_length c <= hr_bufLen q -> (to_device (pd_directon c) = true -> source_ok (pd_buffer c) (pd_length c) = true) ->
  RawFillBulkRequest r (Some d) (data_fill prm c) s = IfFillBulkRequest r (Some d) prm c s.
Proof.
  intros Er Hs Ha Hd Hn Hsrc. destruct s as [h R O U P g F nf hl hi]. cbn in Er.
  set (s' := fun q' => mkIo h (<[r := q']> R) O U P g F nf hl hi).
  pose proof (raw_fill_bulk_ok h R O U P g F nf hl hi r q prm c (fun ret t => (ret, t) = (HDF_SUCCESS, s' (fill_request
    (Job USB_PIPE_TYPE_BULK (128 * pd_directon c + rp_pipeAddress prm) (pd_length c) (rp_callback prm) (rp_userData prm)) (rp_timeout prm)
    (if to_device (pd_directon c) then source (pd_buffer c) (pd_length c) else []) q))) Er Hs Ha Hd Hn Hsrc eq_refl) as H1.
  pose proof (fill_bulk_ok h R O U P g F nf hl hi r q prm c (fun ret t => (ret, t) = (HDF_SUCCESS, s' (fill_request
    (Job USB_PIPE_TYPE_BULK (128 * pd_directon c + rp_pipeAddress prm) (pd_length c) (rp_callback prm) (rp_userData prm)) (rp_timeout prm)
    (if to_device (pd_directon c) then source (pd_buffer c) (pd_length c) else []) q))) Er Hs Ha Hd Hn Hsrc eq_refl) as H2.
  unfold runs in H1, H2. destruct (RawFillBulkRequest _ _ _ _) as [[]| |]; try done. destruct (IfFillBulkRequest _ _ _ _ _) as [[]| |]; try done. congruence.
Qed.

Lemma fill_control_ok h R O U P g F nf hl hi r q prm c (Q : Z -> Io K -> Prop) :
  R !! r = Some q -> spacious q -> 0 <= cr_target c <= 3 -> 0 <= cr_reqType c <= USB_REQUEST_TYPE_VENDOR -> dir_ok (cr_directon c) = true ->
  0 <= cr_length c -> USB_RAW_CONTROL_SETUP_SIZE + cr_length c <= hr_bufLen q ->
  (to_device (cr_directon c) = true -> source_ok (cr_buffer c) (cr_length c) = true) ->
  (let j := Job USB_PIPE_TYPE_CONTROL (128 * cr_directon c) (USB_RAW_CONTROL_SETUP_SIZE + cr_length c) (rp_callback prm) (rp_userData prm) in
   let bytes := control_setup c ++ (if to_device (cr_directon c) then source (cr_buffer c) (cr_length c) else []) in
   Q HDF_SUCCESS (mkIo h (<[r := fill_request j (rp_timeout prm) bytes q]> R) O U P g F nf hl hi)) ->
  runs (IfFillControlRequest r (Some d) prm c) (mkIo h R O U P g F nf hl hi) Q.
Proof.
  intros Er Hs Ht Hty Hd Hn Hlen Hsrc HQ. unfold IfFillControlRequest, UsbProtocalFillControlSetup. unfold USB_REQUEST_TYPE_VENDOR in Hty.
  assert ((cr_reqType c =? USB_REQUEST_TYPE_STANDARD) || (cr_reqType c =? USB_REQUEST_TYPE_CLASS) || (cr_reqType c =? USB_REQUEST_TYPE_VENDOR) = true) as ->.
  { assert (cr_reqType c = 0 \/ cr_reqType c = 1 \/ cr_reqType c = 2) as [->|[-> | ->]] by lia; done. }
  rewrite request_type_eq by (done || lia). pose proof Hs as [H1 H2]. unfold USB_RAW_CONTROL_SETUP_SIZE in Hlen.
  assert (length (control_setup c) = 8%nat) as Hset by done. change (setup_bytes _ _ _ _ _) with (control_setup c).
  do 2 io. eapply runs_write_buffer; [look | lia | rewrite Hset; lia |]. run. rewrite us_success. change (0 =? 0) with true. run.
  change (Z.to_nat 0) with 0%nat. change (cr_directon c =? USB_REQUEST_DIR_TO_DEVICE) with (to_device (cr_directon c)).
  assert (u32 (USB_RAW_CONTROL_SETUP_SIZE + cr_length c) = USB_RAW_CONTROL_SETUP_SIZE + cr_length c) as ->
    by (apply u32_id; unfold USB_RAW_CONTROL_SETUP_SIZE; lia).
  set (buf1 := splice 0 (control_setup c) (hr_buffer q)) in *.
  assert (length buf1 = length (hr_buffer q)) as Hb1 by (apply length_splice; rewrite Hset; lia).
  set (ep := if to_device (cr_directon c) then 0 else _). assert (ep = 128 * cr_directon c) as ->.
  { unfold ep. by destruct (dir_cases _ Hd) as [-> | ->]. }
  rewrite us_success in HQ. cbv zeta in HQ. unfold fill_request in HQ. rewrite <- splice_app, Hset in HQ. fold buf1 in HQ.
  destruct (to_device (cr_directon c)) eqn:Edir.
  - destruct (source_length _ _ (Hsrc eq_refl) ltac:(lia)) as (bs & Eb & Hbs & Es). rewrite Es in HQ.
    destruct (Z.ltb_spec 0 (cr_length c)).
    + run. rewrite Eb. unfold USB_RAW_CONTROL_SETUP_SIZE. eapply runs_memcpy; [look | lia.. | cbn; lia |]. change (0 =? 0) with true.
      unfold RawFillControlRequest, fill_fields. run. rewrite us_success, !insert_insert_eq. exact HQ.
    + run. change (0 =? 0) with true. unfold RawFillControlRequest, fill_fields. run. rewrite us_success, !insert_insert_eq.
      assert (take (Z.to_nat (cr_length c)) bs = []) as E0 by (by replace (cr_length c) with 0 by lia). rewrite E0, splice_nil in HQ. exact HQ.
  - run. change (0 =? 0) with true. unfold RawFillControlRequest, fill_fields. run. rewrite us_success, !insert_insert_eq.
    rewrite splice_nil in HQ. exact HQ.
Qed.

(** The host: the handles of the clients belong to the device [d], which is open
    and has the pool [p], and the pipes are there. *)
Record device_up (p : nat) (handles : list nat) h : Prop := DeviceUp {
  du_open : handle_open d (kernel h) = true;
  du_pool : privateObject h !! d = Some p;
  du_handles : forall b, b ∈ handles -> exists i, ifaceHandles h !! b = Some (mkHandle (Some d) i);
  du_pipes : forall i n ty, pipes i n = Some ty -> IfGetRequestPipeType d i n h = Done ((HDF_SUCCESS, ty), h);
}.

(** None of it depends on the memory. *)
Definition blind {A} (m : Prog (Host K) A) : Prop :=
  forall r h a h', m h = Done (a, h') -> h' = h /\ m (set_ram r h) = Done (a, set_ram r h).
Lemma blind_ret {A} (a : A) : blind (mret a).
Proof. by intros r h a' h' [= -> ->]. Qed.
Lemma blind_crash {A} : blind (crash : Prog (Host K) A).
Proof. done. Qed.
Lemma blind_gets {A} (f : Host K -> A) : (forall r h, f (set_ram r h) = f h) -> blind (gets_host f).
Proof. intros Hf r h a h' [= <- <-]. unfold gets_host. by rewrite Hf. Qed.
Lemma blind_bind {A B} (m : Prog (Host K) A) (k : A -> Prog (Host K) B) : blind m -> (forall a, blind (k a)) -> blind (m ≫= k).
Proof.
  intros Hm Hk r h b h'. unfold mbind, P_bind. destruct (m h) as [[a h1]| |] eqn:E; [|done..].
  destruct (Hm r h a h1 E) as [-> ->]. apply Hk.
Qed.
Lemma pipe_type_blind i n : blind (IfGetRequestPipeType d i n).
Proof.
  unfold IfGetRequestPipeType, handle_pool, live_handle, IfFindInterfaceObj, IfFindPipeObj, IfInterfaceRefCount, UsbPool.pool, sdk_interface.
  repeat (first [apply blind_bind; [|intros] | apply blind_ret | apply blind_crash | by apply blind_gets | case_match]).
Qed.
Lemma device_up_ram p handles m h : device_up p handles h -> device_up p handles (set_ram m h).
Proof. intros [H1 H2 H3 H4]. split; try done. intros i n ty Hp. by eapply pipe_type_blind, H4. Qed.

Lemma runs_iface_handle b e s (Q : UsbInterfaceHandleEntity -> Io K -> Prop) :
  ifaceHandles (host s) !! b = Some e -> Q e s -> runs (on_host (iface_handle b)) s Q.
Proof.
  intros E HQ. apply runs_on_host. unfold iface_handle. apply runs_bind. unfold runs at 1, gets_host. rewrite E. apply runs_ret.
  by rewrite set_host_same.
Qed.
Lemma runs_handle_pool p s (Q : option nat -> Io K -> Prop) :
  handle_open d (kernel (host s)) = true -> privateObject (host s) !! d = Some p -> Q (Some p) s ->
  runs (on_host (handle_pool d)) s Q.
Proof.
  intros E1 E2 HQ. apply runs_on_host. unfold handle_pool, live_handle. apply runs_bind, runs_bind. unfold runs at 1, gets_host. rewrite E1.
  apply runs_ret. unfold runs. rewrite E2. by rewrite set_host_same.
Qed.

Lemma UsbFillRequest_ok p handles h R O U P g F nf hl hi o x r q b prm v (Q : Z -> Io K -> Prop) :
  device_up p handles h -> b ∈ handles -> O !! o = Some x -> hostRequest x = Some r -> R !! r = Some q -> spacious q ->
  v_size v = hr_bufLen q -> v_buffer v = hr_buffer q -> fill_allowed pipes v prm = true ->
  (forall t j bytes, v_job (fill_view pipes prm v) = Some j -> v_buffer (fill_view pipes prm v) = splice 0 bytes (hr_buffer q) ->
     (length bytes <= length (hr_buffer q))%nat -> 0 <= j_len j <= hr_bufLen q -> setup_size j <= j_len j ->
     (is_control j = true \/ j_type j = USB_PIPE_TYPE_BULK \/ j_type j = USB_PIPE_TYPE_INTERRUPT) -> (is_control j = true -> v_cancelled v = false) ->
     Q HDF_SUCCESS (mkIo h (<[r := fill_request j (rp_timeout prm) bytes q]> R)
       (<[o := set_compInfo (set_ci_type t (compInfo x)) x]> O) U P g F nf hl hi)) ->
  runs (UsbFillRequest o b prm) (mkIo h R O U P g F nf hl hi) Q.
Proof.
  intros [H1 H2 H3 H4] Hb Eo Ex Er Hs Esz Ebf Hal HQ. destruct (H3 b Hb) as [i Ei]. unfold UsbFillRequest. io.
  eapply runs_iface_handle; [exact Ei|]. cbn [devHandle]. run. rewrite Ex.
  unfold fill_allowed in Hal. destruct (pipes (rp_interfaceId prm) (rp_pipeId prm)) as [ty|] eqn:Ety; [|done].
  io. apply runs_on_host. unfold runs at 1. fields. rewrite (H4 _ _ _ Ety), us_success. fields. change (0 =? 0) with true. fields.
  unfold IfFillRequestByPipeType. unfold fill_view in HQ. rewrite Esz in Hal. pose proof Hs as [S1 S2]. rewrite us_success in HQ.
  destruct (rp_request prm) as [c|c]; cbn [v_job v_buffer] in HQ.
  - repeat (rewrite !andb_true_iff in Hal). destruct Hal as [[[[[[[[[E1 E2] E3] E4] E5] E6] E7] E8] E9] E10].
    apply Z.eqb_eq in E1 as ->. apply negb_true_iff in E2. apply Z.leb_le in E3, E4, E5, E6, E8, E9.
    change (USB_PIPE_TYPE_CONTROL =? USB_PIPE_TYPE_CONTROL) with true. run.
    eapply fill_control_ok; [look | done | done | done | done | done | done | |].
    + intros Et. rewrite Et in E10. exact E10.
    + cbv zeta. run. rewrite us_success. apply HQ; [done | by rewrite Ebf | | cbn [j_len] | cbn | by left | done].
      * rewrite length_app. change (length (control_setup c)) with 8%nat. unfold USB_RAW_CONTROL_SETUP_SIZE in *.
        destruct (to_device _); [|cbn; lia]. unfold source. rewrite length_take. lia.
      * unfold USB_RAW_CONTROL_SETUP_SIZE in *. lia.
      * unfold is_control; cbn. unfold USB_RAW_CONTROL_SETUP_SIZE in *. lia.
  - repeat (rewrite !andb_true_iff in Hal). destruct Hal as [[[[[[E1 E2] E3] E4] E5] E6] E7].
    apply Z.leb_le in E2, E5, E6. apply Z.ltb_lt in E3.
    assert (to_device (pd_directon c) = true -> source_ok (pd_buffer c) (pd_length c) = true) as Hsrc.
    { intros Et. by rewrite Et in E7. }
    assert (length (if to_device (pd_directon c) then source (pd_buffer c) (pd_length c) else []) <= length (hr_buffer q))%nat as Hlen.
    { destruct (to_device _); [|cbn; lia]. unfold source. rewrite length_take. lia. }
    cbn [default] in HQ. rewrite Ety in HQ. cbn [default] in HQ. rewrite Ebf in HQ.
    apply orb_true_iff in E1 as [->%Z.eqb_eq | ->%Z.eqb_eq].
    + change (USB_PIPE_TYPE_BULK =? USB_PIPE_TYPE_CONTROL) with false. change ((USB_PIPE_TYPE_BULK =? USB_PIPE_TYPE_ISOCHRONOUS) || _ || _) with true.
      change (USB_PIPE_TYPE_BULK =? USB_PIPE_TYPE_ISOCHRONOUS) with false. change (USB_PIPE_TYPE_BULK =? USB_PIPE_TYPE_BULK) with true. io.
      eapply fill_bulk_ok; [look | done | done | done | done | done|]. cbv zeta. run. rewrite us_success.
      apply HQ; [done | done | done | done | cbn; lia | by right; left | done].
    + change (USB_PIPE_TYPE_INTERRUPT =? USB_PIPE_TYPE_CONTROL) with false. change ((USB_PIPE_TYPE_INTERRUPT =? USB_PIPE_TYPE_ISOCHRONOUS) || _ || _) with true.
      change (USB_PIPE_TYPE_INTERRUPT =? USB_PIPE_TYPE_ISOCHRONOUS) with false. change (USB_PIPE_TYPE_INTERRUPT =? USB_PIPE_TYPE_BULK) with false. io.
      eapply fill_interrupt_ok; [look | done | done | done | done | done|]. cbv zeta. run. rewrite us_success.
      apply HQ; [done | done | done | done | cbn; lia | by right; right | done].
Qed.
End fill.
