(* ===== verification/UsbReqRel.v ===== *)
(** * UsbReqRel: the requests of the code and as clients see them

    The relation between the state of the code and the [service] of [UsbReqUse],
    and how it is kept when one request changes. *)
From S2P Require Import Prelude Hdf UsbDesc UsbDescFacts UsbPool UsbReq UsbReqApi UsbReqUse UsbReqFacts UsbReqFill.
Open Scope Z_scope.

(** What the code relies on of the kernel: a new mapping is apart from those that
    are there, and a mapping can be removed. *)
Class UrbKernelLaws {RZ : ReqSizes} {UK : UrbKernel} := {
  mmap_apart : forall hi m n r k, mmap hi m n = Some r -> k ∈ m -> ~ r <= k < r + pages n;
  munmap_works : forall hi r n, 0 < n -> munmap hi r n = true;
}.

(** ** The queue and the sending thread *)
Section schedule.
Context (p : nat).
Implicit Types (rm : gmap nat Z) (vs : gmap nat view).

Definition phase_of vs (o : nat) : option phase := v_phase <$> vs !! o.
Definition queued vs (o : nat) : Prop := exists f, phase_of vs o = Some (Queued f).
Record schedule rm (P : gmap nat PoolIo) (t : sender) vs (qu : list nat) (am : aimed) : Prop := Schedule {
  sc_queue : exists rs, P !! p = Some (mkPoolIo rs (Z.of_nat (length rs)) USB_POOL_PROCESS_RUNNING) /\
                        Forall2 (fun o r => rm !! o = Some r) qu rs;
  sc_once : NoDup qu;
  sc_queued : forall o, o ∈ qu -> queued vs o;
  sc_aim : match t, am with
           | Resting, AtRest => True
           | Took r, AtTaken o => rm !! o = Some r /\ o ∉ qu /\ queued vs o
           | Trying r n, AtTrying o n' => n = n' /\ rm !! o = Some r /\ phase_of vs o = Some Attempted
           | _, _ => False
           end;
}.

(** Only what is queued or being sent matters. *)
Lemma schedule_other rm P t vs vs' qu am o :
  schedule rm P t vs qu am -> (forall o', o' <> o -> phase_of vs' o' = phase_of vs o') ->
  (queued vs o -> queued vs' o) -> (phase_of vs o = Some Attempted -> phase_of vs' o = Some Attempted) ->
  schedule rm P t vs' qu am.
Proof.
  intros [S1 S2 S3 S4] Ho Hc Ha.
  assert (forall o', queued vs o' -> queued vs' o') as HQ.
  { intros o' Hq. destruct (decide (o' = o)) as [->|]; [auto|]. unfold queued in *. by rewrite Ho. }
  assert (forall o', phase_of vs o' = Some Attempted -> phase_of vs' o' = Some Attempted) as HA2.
  { intros o' Hp. destruct (decide (o' = o)) as [->|]; [auto | by rewrite Ho]. }
  split; [done | done | auto |]. destruct t, am; try done; naive_solver.
Qed.
(** Nor do objects that come and go. *)
Lemma schedule_frame rm rm' P t vs vs' qu am :
  schedule rm P t vs qu am ->
  (forall o, queued vs o \/ phase_of vs o = Some Attempted -> rm' !! o = rm !! o /\ phase_of vs' o = phase_of vs o) ->
  schedule rm' P t vs' qu am.
Proof.
  intros [(rs & S1 & S2) S3 S4 S5] H. split; [|done| |].
  - exists rs. split; [done|]. clear S1 S3 S5. induction S2 as [|o r qu rs Ho S2 IH]; constructor.
    + destruct (H o) as [-> _]; [left; apply S4; left | done].
    + apply IH. intros o' Ho'. apply S4. by right.
  - intros o Ho. unfold queued. destruct (H o) as [_ ->]; [by left; apply S4 | by apply S4].
  - destruct t, am; try done.
    + destruct S5 as (E1 & E2 & E3). destruct (H o) as [-> Hp]; [by left|]. unfold queued. by rewrite Hp.
    + destruct S5 as (E1 & E2 & E3). destruct (H o) as [-> ->]; [by right | done].
Qed.
End schedule.

Section relation.
Context {HS : HdfStatus} {HL : HdfStatusLaws} {US : UsbStatus} {UL : UsbStatusLaws} {IS : IoStatus} {IL : IoStatusLaws} {RA : RamAlloc} {SZ : UsbSizes} {RZ : ReqSizes} {RL : ReqSizesLaws}
  {K : Type} {HA : HostAdapter K} {UK : UrbKernel} {KL : UrbKernelLaws}.
Context (p d : nat) (pipes : Z -> Z -> option Z) (handles : list nat) (base : gset nat).
Implicit Types (h : Host K) (R : gmap Z UsbHostRequest) (O : gmap nat UsbIfRequest) (U : gmap nat (list UsbAdapterUrb)).
Implicit Types (owner : gmap nat nat) (fl : gmap nat nat) (rm : gmap nat Z) (v : view) (vs : gmap nat view).

(** ** One request *)

(** The request [q] is filled for the job [j]. *)
Record filled_for (j : job) (q : UsbHostRequest) : Prop := FilledFor {
  ff_type : hr_requestType q = j_type j;
  ff_ep : hr_endPoint q = j_ep j;
  ff_len : hr_length q = j_len j;
  ff_cb : hr_userCallback q = j_cb j;
  ff_data : hr_userData q = j_data j;
  ff_callback : hr_callback q = Some UsbIoSetRequestCompletionInfo_cb;
  ff_fits : 0 <= j_len j <= hr_bufLen q;
  ff_setup : setup_size j <= j_len j;
  ff_kind : is_control j = true \/ j_type j = USB_PIPE_TYPE_BULK \/ j_type j = USB_PIPE_TYPE_INTERRUPT;
}.

(** The URB with the kernel, in the block [k]; [c] is the block of a control
    transfer, [b] that of all others. *)
Definition flying_urb (j : job) (cancelled : bool) (r : Z) (q : UsbHostRequest) (b : nat) (c : option nat) (k : nat) U : Prop :=
  hr_actualLength q = 0 /\ hr_urbs q = Urbs k /\
  (exists w, U !! k = Some [w] /\ urb_buffer w = (r, 0) /\ urb_userContext w = Some r /\ urb_type w = urb_type_of j) /\
  if is_control j then c = Some k /\ cancelled = false
  else c = None /\ k = b /\ hr_numUrbs q = 1 /\ hr_numRetired q = 0 /\
       hr_reqStatus q = (if cancelled then USB_REQUEST_CANCELLED else USB_REQUEST_COMPLETED).
Definition at_home (x : UsbIfRequest) (q : UsbHostRequest) (b : nat) (c : option nat) (ph : phase) : Prop :=
  c = None /\ (hr_urbs q = NoUrbs \/ hr_urbs q = Urbs b) /\
  match ph with Queued f => f = bool_decide (ci_status (compInfo x) = USB_REQUEST_CANCELLED) | _ => True end.
Definition in_phase fl (o : nat) v (x : UsbIfRequest) (r : Z) (q : UsbHostRequest) (b : nat) (c : option nat) U : Prop :=
  match v_phase v with
  | Flying f => exists j k, v_job v = Some j /\ fl !! o = Some k /\ flying_urb j f r q b c k U
  | ph => fl !! o = None /\ at_home x q b c ph
  end.

(** Who waits, and with what semaphore. *)
Record waited v (x : UsbIfRequest) (q : UsbHostRequest) : Prop := Waited {
  wt_sem : v_wait v <> Nobody -> hr_sem q = Some (if v_signal v then 1 else 0);
  wt_flag : is_idle v = false -> isSyncReq x = negb (bool_decide (v_wait v = Nobody));
  wt_signal : v_wait v <> Nobody -> is_idle v = false -> v_signal v = false;
}.

(** The object [o], its request [q] at [r], its URB [u] in [b] and the blocks that
    belong to it. *)
Record resides owner fl rm R O U (o : nat) v (x : UsbIfRequest) (r : Z) (q : UsbHostRequest) (b : nat) (u : UsbAdapterUrb) (c : option nat) : Prop := Resides {
  rs_map : rm !! o = Some r;
  rs_object : O !! o = Some x;
  rs_host : hostRequest x = Some r;
  rs_request : R !! r = Some q;
  rs_private : hr_privateObj q = Some o;
  rs_dev : hr_devHandle q = Some d;
  rs_bulk : hr_bulkUrb q = Some b;
  rs_urb : U !! b = Some [u];
  rs_blocks : NoDup (o :: b :: option_list c);
  rs_owned : forall k, owner !! k = Some o <-> k ∈ o :: b :: option_list c;
  rs_space : spacious q;
  rs_size : v_size v = hr_bufLen q;
  rs_buffer : v_buffer v = hr_buffer q;
  rs_iso : hr_numIsoPackets q = 0;
  rs_roomy : roomy (hr_bufLen q) = true;
  rs_job : match v_job v with Some j => filled_for j q | None => is_idle v = true end;
  rs_cancelled : v_cancelled v = false -> hr_reqStatus q <> USB_REQUEST_CANCELLED;
  rs_control : forall j, v_job v = Some j -> is_control j = true -> v_cancelled v = false;
  rs_waited : waited v x q;
  rs_phase : in_phase fl o v x r q b c U;
}.
Definition lives owner fl rm R O U (o : nat) v : Prop := exists x r q b u c, resides owner fl rm R O U o v x r q b u c.

(** It depends on nothing that belongs to others. *)
Lemma lives_frame owner owner' fl fl' rm rm' R R' O O' U U' o v :
  lives owner fl rm R O U o v ->
  O' !! o = O !! o -> (forall r, rm !! o = Some r -> R' !! r = R !! r) -> (forall k, owner !! k = Some o -> U' !! k = U !! k) ->
  (forall k, owner' !! k = Some o <-> owner !! k = Some o) -> fl' !! o = fl !! o -> rm' !! o = rm !! o ->
  lives owner' fl' rm' R' O' U' o v.
Proof.
  intros (x & r & q & b & u & c & [H1 H2 H3 H4 H5 H6 H7 H8 H9 H10 H11 H12 H13 H14 H15 H16 H17 H18 H19 H20]) EO ER EU Eo Ef Er.
  assert (forall k, k ∈ o :: b :: option_list c -> U' !! k = U !! k) as EU' by (intros k Hk; by apply EU, H10).
  exists x, r, q, b, u, c. split; try done.
  - by rewrite Er.
  - by rewrite EO.
  - by rewrite (ER r).
  - rewrite EU'; [done | right; left].
  - intros k. by rewrite Eo.
  - unfold in_phase in *. destruct (v_phase v) as [|f| |f]; rewrite Ef; try done.
    destruct H20 as (j & k & Hj & Hk & Hf1 & Hf2 & Hf3 & Hf4). exists j, k. split; [done|]. split; [done|].
    split; [done|]. split; [done|]. split; [|done]. rewrite EU'; [done|].
    destruct (is_control j); [destruct Hf4 as [-> _]; right; right; left | destruct Hf4 as (_ & -> & _); right; left].
Qed.

(** ** All requests *)

(** The memory of [owner] and no more was taken. *)
Record memory owner (r : Ram) : Prop := Memory {
  me_wf : ram_wf r;
  me_live : ram_live r = base ∪ dom owner;
  me_apart : base ## dom owner;
}.
(** The kernel holds one URB for every object of [fl]. *)
Record holds fl (hl : list (nat * (nat * nat))) : Prop := Holds {
  ho_one : NoDup hl.*1;
  ho_held : forall o w, (o, w) ∈ hl <-> exists k, fl !! o = Some k /\ w = (k, Datatypes.O);
}.
Definition apart (r1 : Z) (q1 : UsbHostRequest) (r2 : Z) (q2 : UsbHostRequest) : Prop :=
  r1 + pages (hr_bufLen q1) <= r2 \/ r2 + pages (hr_bufLen q2) <= r1.

Record core owner fl rm h R O U hl vs : Prop := Core {
  co_up : device_up d pipes p handles h;
  co_memory : memory owner (ram h);
  co_lives : forall o v, vs !! o = Some v -> lives owner fl rm R O U o v;
  co_owner : forall k o, owner !! k = Some o -> is_Some (vs !! o);
  co_map : forall o r, rm !! o = Some r -> is_Some (vs !! o);
  co_requests : forall r q, R !! r = Some q -> exists o, rm !! o = Some r;
  co_apart : forall r1 q1 r2 q2, R !! r1 = Some q1 -> R !! r2 = Some q2 -> r1 <> r2 -> apart r1 q1 r2 q2;
  co_holds : holds fl hl;
  co_flying : forall o k, fl !! o = Some k -> is_Some (vs !! o);
  co_objects : forall o x, O !! o = Some x -> is_Some (vs !! o);
}.

Lemma map_injective owner fl rm h R O U hl vs o1 o2 r :
  core owner fl rm h R O U hl vs -> rm !! o1 = Some r -> rm !! o2 = Some r -> o1 = o2.
Proof.
  intros Hc E1 E2. destruct (co_map _ _ _ _ _ _ _ _ _ Hc _ _ E1) as [v1 V1], (co_map _ _ _ _ _ _ _ _ _ Hc _ _ E2) as [v2 V2].
  destruct (co_lives _ _ _ _ _ _ _ _ _ Hc _ _ V1) as (x1 & r1 & q1 & b1 & u1 & c1 & L1), (co_lives _ _ _ _ _ _ _ _ _ Hc _ _ V2) as (x2 & r2 & q2 & b2 & u2 & c2 & L2).
  pose proof (rs_map _ _ _ _ _ _ _ _ _ _ _ _ _ _ L1). pose proof (rs_map _ _ _ _ _ _ _ _ _ _ _ _ _ _ L2).
  pose proof (rs_request _ _ _ _ _ _ _ _ _ _ _ _ _ _ L1). pose proof (rs_request _ _ _ _ _ _ _ _ _ _ _ _ _ _ L2).
  pose proof (rs_private _ _ _ _ _ _ _ _ _ _ _ _ _ _ L1). pose proof (rs_private _ _ _ _ _ _ _ _ _ _ _ _ _ _ L2).
  simplify_eq. done.
Qed.

(** Only the object [o] changes. *)
Lemma core_update owner owner' fl fl' rm h h' R O U U' hl hl' vs o v v' r q q' x' :
  core owner fl rm h R O U hl vs -> vs !! o = Some v -> rm !! o = Some r -> R !! r = Some q -> hr_bufLen q' = hr_bufLen q ->
  lives owner' fl' rm (<[r := q']> R) (<[o := x']> O) U' o v' ->
  device_up d pipes p handles h' -> memory owner' (ram h') -> holds fl' hl' ->
  (forall k o', o' <> o -> owner' !! k = Some o' <-> owner !! k = Some o') ->
  (forall k o', o' <> o -> owner !! k = Some o' -> U' !! k = U !! k) ->
  (forall o', o' <> o -> fl' !! o' = fl !! o') ->
  core owner' fl' rm h' (<[r := q']> R) (<[o := x']> O) U' hl' (<[o := v']> vs).
Proof.
  intros Hc Hv Hr Hq Hlen Hl' Hup Hm Hh Ho HU Hfl. pose proof Hc as [C1 C2 C3 C4 C5 C6 C7 C8 C9 C10]. split; try done.
  - intros o1 v1 [[<- <-]|[Hne Hv1]]%lookup_insert_Some; [exact Hl'|].
    eapply lives_frame; [by apply C3 | | | | | |]; [by rewrite lookup_insert_ne by done | | | | by apply Hfl | done].
    + intros r1 Hr1. rewrite lookup_insert_ne; [done|]. intros <-. apply Hne. by eapply map_injective.
    + intros k Hk. by eapply HU.
    + intros k. by apply Ho.
  - intros k o1 Hk. destruct (decide (o1 = o)) as [->|Hne]; [rewrite lookup_insert_eq; by eexists|].
    rewrite lookup_insert_ne by done. by apply (C4 k), Ho.
  - intros o1 r1 Hr1. destruct (decide (o1 = o)) as [->|Hne]; [rewrite lookup_insert_eq; by eexists|].
    rewrite lookup_insert_ne by done. by eapply C5.
  - intros r1 q1 [[<- <-]|[Hne Hq1]]%lookup_insert_Some; [by exists o | by eapply C6].
  - assert (forall r1 q1, <[r := q']> R !! r1 = Some q1 -> exists q0, R !! r1 = Some q0 /\ hr_bufLen q1 = hr_bufLen q0) as Hold.
    { intros r1 q1 [[<- <-]|[_ H]]%lookup_insert_Some; eauto. }
    intros r1 q1 r2 q2 (q01 & E1 & L1)%Hold (q02 & E2 & L2)%Hold Hne. unfold apart. rewrite L1, L2. by apply (C7 r1 q01 r2 q02).
  - intros o1 k Hk. destruct (decide (o1 = o)) as [->|Hne]; [rewrite lookup_insert_eq; by eexists|].
    rewrite lookup_insert_ne by done. rewrite Hfl in Hk by done. by eapply C9.
  - intros o1 x1 [[<- <-]|[Hne Hx1]]%lookup_insert_Some; [rewrite lookup_insert_eq; by eexists|].
    rewrite lookup_insert_ne by done. by eapply C10.
Qed.

(** The object of a view, opened up. *)
Lemma core_object owner fl rm h R O U hl vs o v :
  core owner fl rm h R O U hl vs -> vs !! o = Some v ->
  exists x r q b u c, resides owner fl rm R O U o v x r q b u c.
Proof. intros Hc Hv. by apply (co_lives _ _ _ _ _ _ _ _ _ Hc). Qed.

(** What no operation changes of a request but making and freeing it. *)
Record same_request (q q' : UsbHostRequest) : Prop := SameRequest {
  sr_private : hr_privateObj q' = hr_privateObj q;
  sr_dev : hr_devHandle q' = hr_devHandle q;
  sr_bulk : hr_bulkUrb q' = hr_bulkUrb q;
  sr_iso : hr_numIsoPackets q' = hr_numIsoPackets q;
  sr_bufLen : hr_bufLen q' = hr_bufLen q;
  sr_length : length (hr_buffer q') = length (hr_buffer q);
}.
(** What an operation has to say of the new request. *)
Record good fl (o : nat) (v' : view) (x' : UsbIfRequest) (r : Z) (q' : UsbHostRequest) (b : nat) (c : option nat) U : Prop := Good {
  gd_buffer : v_buffer v' = hr_buffer q';
  gd_job : match v_job v' with Some j => filled_for j q' | None => is_idle v' = true end;
  gd_cancelled : v_cancelled v' = false -> hr_reqStatus q' <> USB_REQUEST_CANCELLED;
  gd_control : forall j, v_job v' = Some j -> is_control j = true -> v_cancelled v' = false;
  gd_waited : waited v' x' q';
  gd_phase : in_phase fl o v' x' r q' b c U;
}.

(** A change of one object, its request and its blocks. *)
Lemma core_change owner owner' fl fl' rm h h' R O U U' hl hl' vs o v v' x r q b u u' c c' q' x' :
  core owner fl rm h R O U hl vs -> vs !! o = Some v -> resides owner fl rm R O U o v x r q b u c ->
  same_request q q' -> hostRequest x' = Some r -> v_size v' = v_size v -> good fl' o v' x' r q' b c' U' ->
  U' !! b = Some [u'] -> NoDup (o :: b :: option_list c') -> (forall k, owner' !! k = Some o <-> k ∈ o :: b :: option_list c') ->
  device_up d pipes p handles h' -> memory owner' (ram h') -> holds fl' hl' ->
  (forall k o', o' <> o -> owner' !! k = Some o' <-> owner !! k = Some o') ->
  (forall k o', o' <> o -> owner !! k = Some o' -> U' !! k = U !! k) ->
  (forall o', o' <> o -> fl' !! o' = fl !! o') ->
  core owner' fl' rm h' (<[r := q']> R) (<[o := x']> O) U' hl' (<[o := v']> vs).
Proof.
  intros Hc Hv [H1 H2 H3 H4 H5 H6 H7 H8 H9 H10 [S1 S2] H12 H13 H14 H15 H16 H17 H18 H19 H20] [Q1 Q2 Q3 Q4 Q5 Q6] Hx Hsz [G1 G2 G3 G4 G5 G6].
  intros HU Hnd Hown Hup Hm Hh Ho HU' Hfl.
  eapply core_update; [exact Hc | exact Hv | done | done | done | | done..].
  exists x', r, q', b, u', c'. split; rewrite ?lookup_insert_eq; try done; try congruence.
  split; [by rewrite Q5 | rewrite Q5, Q6; lia].
Qed.

(** A change of the request and the object that leaves memory, URBs and the
    kernel alone. *)
Lemma core_quiet owner fl rm h R O U hl vs o v v' x r q b u c q' x' :
  core owner fl rm h R O U hl vs -> vs !! o = Some v -> resides owner fl rm R O U o v x r q b u c ->
  same_request q q' -> hostRequest x' = Some r -> v_size v' = v_size v -> good fl o v' x' r q' b c U ->
  core owner fl rm h (<[r := q']> R) (<[o := x']> O) U hl (<[o := v']> vs).
Proof.
  intros Hc Hv Hr Hq Hx Hsz Hg. pose proof Hr as [].
  eapply core_change; [exact Hc | exact Hv | exact Hr | done | done | done | exact Hg | done | done | done | apply Hc..| | |]; done.
Qed.

(** ** Memory and the kernel *)
Lemma memory_taken owner h o :
  memory owner (ram h) -> owner !! ram_next (ram h) = None /\ memory (<[ram_next (ram h) := o]> owner) (ram (taken h)).
Proof.
  intros [M1 M2 M3]. assert (ram_next (ram h) ∉ ram_live (ram h)) as Hn by (intros Hn%M1; lia). rewrite M2 in Hn.
  split; [apply not_elem_of_dom; set_solver|]. split; cbn.
  - intros k. cbn. intros [->%elem_of_singleton | Hk%M1]%elem_of_union; lia.
  - rewrite M2, dom_insert_L. set_solver.
  - rewrite dom_insert_L. set_solver.
Qed.
Lemma memory_given owner h b o :
  memory owner (ram h) -> owner !! b = Some o -> b ∈ ram_live (ram h) /\ memory (delete b owner) (ram (given b h)).
Proof.
  intros [M1 M2 M3] Hb. assert (b ∈ dom owner) as Hd by (by eapply elem_of_dom_2). split; [rewrite M2; set_solver|]. split; cbn.
  - intros k. cbn. intros [Hk%M1 _]%elem_of_difference. done.
  - rewrite M2, dom_delete_L. set_solver.
  - rewrite dom_delete_L. set_solver.
Qed.

Lemma holds_push fl hl o k : holds fl hl -> fl !! o = None -> holds (<[o := k]> fl) (hl ++ [(o, (k, Datatypes.O))]).
Proof.
  intros [H1 H2] Ho. split.
  - rewrite fmap_app. apply NoDup_app. split; [done|]. split; [|apply NoDup_singleton]. cbn.
    intros o' Ho' ->%list_elem_of_singleton. apply list_elem_of_fmap in Ho' as ([o1 w] & E & Hw). cbn in E. subst o1.
    apply H2 in Hw as (k' & Hk' & _). congruence.
  - intros o' w. rewrite elem_of_app, list_elem_of_singleton, H2. split.
    + intros [(k' & Hk' & ->)|[= -> ->]]; [|exists k; by rewrite lookup_insert_eq].
      exists k'. rewrite lookup_insert_ne by congruence. done.
    + intros (k' & [[<- <-]|[Hne Hk']]%lookup_insert_Some & ->); eauto.
Qed.
Lemma take_held_eq o w hl : NoDup hl.*1 -> (o, w) ∈ hl ->
  exists hl', take_held o hl = Some (w, hl') /\ NoDup hl'.*1 /\ forall o' w', (o', w') ∈ hl' <-> (o', w') ∈ hl /\ o' <> o.
Proof.
  induction hl as [|[o1 w1] hl IH]; intros Hnd Hin; [by apply not_elem_of_nil in Hin|]. cbn in Hnd |- *.
  apply NoDup_cons in Hnd as [Hn Hnd]. destruct (Nat.eqb_spec o1 o) as [->|Hne].
  - assert (forall w', (o, w') ∉ hl) as Hno.
    { intros w' Hw'. apply Hn. apply list_elem_of_fmap. by exists (o, w'). }
    apply elem_of_cons in Hin as [[= <-]|Hin]; [|by destruct (Hno _ Hin)]. exists hl. split; [done|]. split; [done|].
    intros o' w'. rewrite elem_of_cons. split; [|naive_solver]. intros Hw'. split; [by right|]. intros ->. by apply (Hno w').
  - apply elem_of_cons in Hin as [[= <- <-]|Hin]; [done|]. destruct (IH Hnd Hin) as (hl' & E & Hnd' & Hl'). rewrite E.
    exists ((o1, w1) :: hl'). split; [done|]. split.
    + cbn. apply NoDup_cons. split; [|done]. intros ([o2 w2] & -> & H2)%list_elem_of_fmap. apply Hl' in H2 as [H2 _].
      apply Hn. apply list_elem_of_fmap. by exists (o2, w2).
    + intros o' w'. rewrite !elem_of_cons, Hl'. naive_solver.
Qed.
Lemma take_held_last o w l : take_held o l = None -> take_held o (l ++ [(o, w)]) = Some (w, l).
Proof.
  induction l as [|[o' u] l IH]; cbn; [by rewrite Nat.eqb_refl|]. destruct (o' =? o)%nat; [done|].
  destruct (take_held o l) as [[] |]; [done|]. intros _. by rewrite IH.
Qed.
Lemma holds_take fl hl o k :
  holds fl hl -> fl !! o = Some k -> exists hl', take_held o hl = Some ((k, Datatypes.O), hl') /\ holds (delete o fl) hl'.
Proof.
  intros [H1 H2] Ho. destruct (take_held_eq o (k, Datatypes.O) hl H1) as (hl' & E & Hnd & Hl'); [apply H2; by exists k|].
  exists hl'. split; [done|]. split; [done|]. intros o' w. rewrite Hl', H2. setoid_rewrite lookup_delete_Some. naive_solver.
Qed.

(** The code's state and the service agree. *)
Definition represents_requests (s : Io K) (t : sender) (a : service) : Prop :=
  exists owner fl rm, core owner fl rm (host s) (requests s) (objects s) (urb_blocks s) (held s) (views a) /\
    schedule p rm (pool_io s) t (views a) (queue a) (aim a).
End relation.
