(* ===== verification/UsbReqSteps.v ===== *)
(** * UsbReqSteps: every move answers as the service does *)
From S2P Require Import Prelude Hdf UsbDesc UsbDescFacts UsbPool UsbReq UsbReqApi UsbReqUse UsbReqFacts UsbReqFill UsbReqRel.
Open Scope Z_scope.

Lemma on_view_inv a o f : on_view a o f = true -> exists v, views a !! o = Some v /\ f v = true.
Proof. unfold on_view. destruct (views a !! o); [eauto | done]. Qed.

Section served.
Context {HS : HdfStatus} {HL : HdfStatusLaws} {US : UsbStatus} {UL : UsbStatusLaws} {IS : IoStatus} {IL : IoStatusLaws} {RA : RamAlloc} {SZ : UsbSizes} {RZ : ReqSizes} {RL : ReqSizesLaws}
  {K : Type} {HA : HostAdapter K} {UK : UrbKernel} {KL : UrbKernelLaws}.
Context (p d : nat) (pipes : Z -> Z -> option Z) (handles : list nat) (base : gset nat).
Implicit Types (h : Host K) (R : gmap Z UsbHostRequest) (O : gmap nat UsbIfRequest) (U : gmap nat (list UsbAdapterUrb)).
Implicit Types (owner : gmap nat nat) (fl : gmap nat nat) (rm : gmap nat Z) (v : view) (vs : gmap nat view).
Abbreviation repr := (represents_requests p d pipes handles base).
(** A move from related states is made, is answered rightly, and leads to related
    states. *)
Definition served (x : move) (s : Io K) (t : sender) (a : service) : Prop :=
  runs (code p d x t) s (fun '(l, t') s' => exists a', spec_next pipes x l a = Some a' /\ repr s' t' a').

Lemma runs_answer {A} (m : Prog (Io K) A) f t s (Q : list seen * sender -> Io K -> Prop) :
  runs m s (fun a s' => exists ev, history s' = history s ++ ev /\ Q (f a ++ concat (map seen_of ev), t) s') ->
  runs (l ← answer m f; mret (l, t)) s Q.
Proof.
  intros H. unfold answer. apply runs_bind, runs_bind, runs_io_get, runs_bind. eapply runs_mono; [exact H|].
  intros a s' (ev & E & HQ). apply runs_bind, runs_io_get, runs_ret, runs_ret. rewrite E, drop_app_length. exact HQ.
Qed.

End served.

(** The start of the proof for a move of one object. *)
Ltac enter :=
  intros (owner & fl & rm & Hc & Hs) Hal; cbn [allowed] in Hal;
  try (apply andb_true_iff in Hal as [Hh%bool_decide_eq_true Hal]); apply on_view_inv in Hal as (v & Hv & Hw);
  match goal with |- served _ _ _ _ _ _ ?s _ _ => destruct s as [h R O U P g F nf hl hi] end;
  cbn [host requests objects urb_blocks pool_io held] in Hc, Hs;
  match goal with
  | Hc : core _ _ _ _ _ _ _ _ _ _ _ _ _ (views ?a), Hv : views ?a !! _ = Some _ |- _ =>
      destruct (core_object _ _ _ _ _ _ _ _ _ _ _ _ _ _ _ _ Hc Hv) as (x & r & q & b & u & c & Hr)
  end;
  match goal with
  | Hr : resides _ _ _ _ _ _ _ _ _ _ _ _ _ _ _ |- _ =>
      pose proof Hr as [R1 R2 R3 R4 R5 R6 R7 R8 R9 R10 R11 R12 R13 R14 R15 R16 R17 R18 [W1 W2 W3] R20]
  end.
Ltac answered := exists []; rewrite app_nil_r; split; [done|]; cbn [map concat app returned spec_next].

Section steps.
Context {HS : HdfStatus} {HL : HdfStatusLaws} {US : UsbStatus} {UL : UsbStatusLaws} {IS : IoStatus} {IL : IoStatusLaws} {RA : RamAlloc} {SZ : UsbSizes} {RZ : ReqSizes} {RL : ReqSizesLaws}
  {K : Type} {HA : HostAdapter K} {UK : UrbKernel} {KL : UrbKernelLaws}.
Context (p d : nat) (pipes : Z -> Z -> option Z) (handles : list nat) (base : gset nat).
Implicit Types (h : Host K) (R : gmap Z UsbHostRequest) (O : gmap nat UsbIfRequest) (U : gmap nat (list UsbAdapterUrb)).
Implicit Types (owner : gmap nat nat) (fl : gmap nat nat) (rm : gmap nat Z) (v : view) (vs : gmap nat view).
Abbreviation repr := (represents_requests p d pipes handles base).
Abbreviation core' := (core p d pipes handles base).
Abbreviation sched' := (schedule p).

Abbreviation served' := (served p d pipes handles base).

Lemma with_view_eq a o v f v' : views a !! o = Some v -> f v = Some v' -> with_view a o f = Some (set_view o v' a).
Proof. intros E1 E2. unfold with_view. by rewrite E1, E2. Qed.

(** What the job says of a request. *)
Definition filling (q : UsbHostRequest) :=
  (hr_requestType q, hr_endPoint q, hr_length q, hr_userCallback q, hr_userData q, hr_callback q, hr_bufLen q).
Lemma filled_same j q q' : filled_for j q -> filling q' = filling q -> filled_for j q'.
Proof. intros [] E. unfold filling in E. injection E as E1 E2 E3 E4 E5 E6 E7. split; congruence. Qed.
Lemma job_same v v' q q' :
  match v_job v with Some j => filled_for j q | None => is_idle v = true end ->
  v_job v' = v_job v -> (v_job v = None -> is_idle v' = true) -> filling q' = filling q ->
  match v_job v' with Some j => filled_for j q' | None => is_idle v' = true end.
Proof. intros H -> Hi E. destruct (v_job v); [by eapply filled_same | by apply Hi]. Qed.

(** The sending thread and the queue do not notice. *)
Definition same_stage (v v' : view) : Prop :=
  (forall f, v_phase v = Queued f -> exists f', v_phase v' = Queued f') /\ (v_phase v = Attempted -> v_phase v' = Attempted).
Lemma same_stage_eq v v' : v_phase v' = v_phase v -> same_stage v v'.
Proof. intros E. split; rewrite E; eauto. Qed.
Lemma same_stage_idle v v' : v_phase v = Idle -> same_stage v v'.
Proof. intros E. split; rewrite E; done. Qed.
Lemma same_stage_flying v v' f : v_phase v = Flying f -> same_stage v v'.
Proof. intros E. split; rewrite E; done. Qed.
Lemma phase_other rm P t vs qu am o v v' :
  sched' rm P t vs qu am -> vs !! o = Some v -> same_stage v v' -> sched' rm P t (<[o := v']> vs) qu am.
Proof.
  intros Hs Hv [Hq Ha]. eapply schedule_other with (o := o); [exact Hs | | |]; unfold queued, phase_of.
  - intros o' Ho. by rewrite lookup_insert_ne.
  - rewrite lookup_insert_eq, Hv. cbn. intros [f [= E]]. destruct (Hq f E) as [f' ->]. by exists f'.
  - rewrite lookup_insert_eq, Hv. cbn. intros [= E]. by rewrite Ha.
Qed.

(** A move that only changes one request and its object. *)
Lemma repr_quiet owner fl rm h R O U P g F nf hl hi t a o v v' x r q b u c q' x' :
  core' owner fl rm h R O U hl (views a) -> sched' rm P t (views a) (queue a) (aim a) -> views a !! o = Some v ->
  resides d owner fl rm R O U o v x r q b u c -> same_request q q' -> hostRequest x' = Some r -> v_size v' = v_size v ->
  good fl o v' x' r q' b c U -> same_stage v v' ->
  repr (mkIo h (<[r := q']> R) (<[o := x']> O) U P g F nf hl hi) t (set_view o v' a).
Proof.
  intros Hc Hs Hv Hr Hq Hx Hsz Hg Hp. exists owner, fl, rm. cbn. split; [by eapply core_quiet | by eapply phase_other].
Qed.

(** *** Waiting *)
Lemma step_sync_woken o s t a : repr s t a -> allowed pipes handles (SyncWoken o) a = true -> served' (SyncWoken o) s t a.
Proof.
  enter. apply andb_true_iff in Hw as [Hw%bool_decide_eq_true Hsig].
  assert (is_idle v = true) as Hid by (destruct (is_idle v); [done|]; rewrite W3 in Hsig by congruence; done).
  specialize (W1 ltac:(congruence)). rewrite Hsig in W1.
  unfold served. cbn [code]. apply runs_answer. unfold sync_woken, sem_taken, OsalSemDestroy. run. rewrite R3. run. rewrite W1. run.
  change (0 <? 1) with true. run. answered. rewrite Z.eqb_refl. eexists. split; [by eapply with_view_eq|]. rewrite insert_insert_eq.
  rewrite <- (insert_id O o x) by done. eapply repr_quiet; [exact Hc | exact Hs | exact Hv | exact Hr | done | done | done | | by apply same_stage_eq].
  split; [done | by eapply job_same | done | done | | done]. split; [done | cbn | done]. change (is_idle _) with (is_idle v). congruence.
Qed.

Lemma step_sync_end o s t a : repr s t a -> allowed pipes handles (SyncEnd o) a = true -> served' (SyncEnd o) s t a.
Proof.
  enter. apply andb_true_iff in Hw as [Hw%bool_decide_eq_true Hid]. specialize (W1 ltac:(congruence)).
  unfold served. cbn [code]. apply runs_answer. unfold sync_end. do 2 io. rewrite R3. do 2 io.
  set (x' := set_compInfo (set_ci_status USB_REQUEST_TIMEOUT (compInfo x)) x).
  assert (repr (mkIo h (<[r := set_hr_sem None q]> R) (<[o := x']> O) U P g F nf hl hi) t
            (set_view o (set_wait Nobody false v) a)) as Hrep.
  { eapply repr_quiet; [exact Hc | exact Hs | exact Hv | exact Hr | done | done | done | | by apply same_stage_eq].
    split; [done | by eapply job_same | done | done | |].
    - split; [done | cbn | done]. change (is_idle _) with (is_idle v). congruence.
    - unfold in_phase in *. cbn. unfold is_idle in Hid. by destruct (v_phase v). }
  unfold sem_taken, OsalSemDestroy. run. rewrite W1. run. destruct (v_signal v); [change (0 <? 1) with true | change (0 <? 0) with false]; run; answered; rewrite Z.eqb_refl;
    (eexists; split; [by eapply with_view_eq|]); rewrite ?insert_insert_eq; exact Hrep.
Qed.

(** *** Cancelling *)
Lemma good_wait fl o v x r q b c U :
  good fl o v x r q b c U -> v_wait v <> Nobody -> good fl o (set_wait Second (v_signal v) v) x r q b c U.
Proof.
  intros [G1 G2 G3 G4 [W1 W2 W3] G6] Hw. split; try done. split; [by intros; apply W1 | | by intros; apply W3].
  intros Hid. cbn. rewrite W2 by done. by rewrite bool_decide_false by done.
Qed.

Lemma job_type j q : filled_for j q -> hr_requestType q <> USB_REQUEST_TYPE_ISOCHRONOUS.
Proof. intros [-> _ _ _ _ _ _ _ [H%Z.eqb_eq|[-> | ->]]]; [rewrite H|..]; done. Qed.

Lemma set_phase_same f v : v_phase v = f -> set_phase f v = v.
Proof. intros <-. by destruct v. Qed.
Lemma cancelled_same q : same_request q (cancelled q) /\ filling (cancelled q) = filling q /\ hr_buffer (cancelled q) = hr_buffer q /\
  hr_sem (cancelled q) = hr_sem q /\ hr_urbs (cancelled q) = hr_urbs q.
Proof. unfold cancelled. by destruct (_ && _). Qed.
Lemma cancelled_status q : hr_reqStatus q <> USB_REQUEST_ERROR -> cancelled q = set_hr_reqStatus USB_REQUEST_CANCELLED q.
Proof. intros H. unfold cancelled. by rewrite (bool_decide_false (hr_reqStatus q = _)), andb_false_r. Qed.

(** What cancelling makes of a request and its object. *)
Lemma cancel_runs owner fl rm h R O U P g F nf hl hi vs o v x r q b u c (Q : Z -> Io K -> Prop) :
  core' owner fl rm h R O U hl vs -> vs !! o = Some v -> resides d owner fl rm R O U o v x r q b u c -> cancel_allowed v = true ->
  (forall ret v' x' q' ev, concat (map seen_of ev) = [] -> cancel_view ret v = Some v' -> same_request q q' ->
     hostRequest x' = Some r -> v_size v' = v_size v -> v_wait v' = v_wait v -> v_signal v' = v_signal v ->
     good fl o v' x' r q' b c U -> same_stage v v' ->
     Q ret (mkIo h (<[r := q']> R) (<[o := x']> O) U P g F nf hl (hi ++ ev))) ->
  runs (UsbCancelRequest o) (mkIo h R O U P g F nf hl hi) Q.
Proof.
  intros Hc Hv [R1 R2 R3 R4 R5 R6 R7 R8 R9 R10 R11 R12 R13 R14 R15 R16 R17 R18 [W1 W2 W3] R20] Hal HQ.
  unfold cancel_allowed in Hal. destruct (v_job v) as [j|] eqn:Ej; [|done]. apply negb_true_iff in Hal.
  assert (forall f x' q', filling q' = filling q -> hr_buffer q' = hr_buffer q -> hr_sem q' = hr_sem q -> isSyncReq x' = isSyncReq x ->
    is_idle (set_phase f v) = is_idle v -> in_phase fl o (set_cancelled (set_phase f v)) x' r q' b c U ->
    good fl o (set_cancelled (set_phase f v)) x' r q' b c U) as Hg.
  { intros f x' q' E1 E2 E3 E4 E5 Hp. split; [cbn; congruence | | done | | | done].
    - eapply (job_same v); [by rewrite Ej | done | cbn; congruence | done].
    - cbn. intros j' E' Hj'. rewrite Ej in E'. injection E' as ->. congruence.
    - split; cbn; [by rewrite E3 | change (is_idle _) with (is_idle (set_phase f v)); by rewrite E4, E5 |].
      change (is_idle _) with (is_idle (set_phase f v)). by rewrite E5. }
  unfold UsbCancelRequest. run. rewrite R3. run. unfold RawCancelRequest.
  eapply AdapterCancelRequest_runs; [done | done | apply Hc | by eapply job_type|].
  unfold in_phase in R20. destruct (hr_urbs q) as [|k|k l] eqn:Eu.
  - intros ret Hret. rewrite (proj2 (Z.eqb_neq _ _)) by done. run.
    rewrite <- (insert_id R r q), <- (insert_id O o x), <- (app_nil_r hi) by done.
    apply (HQ ret (set_cancelled (set_phase (v_phase v) v))); try done; [| |by apply same_stage_eq].
    + unfold cancel_view. rewrite (set_phase_same (v_phase v) v) by done. destruct (v_phase v) eqn:Ep; [done | | done | ].
      * by rewrite (proj2 (Z.eqb_neq _ _)), orb_false_r, set_phase_same by done.
      * destruct R20 as (j' & k & _ & _ & _ & Hk & _). congruence.
    + by apply Hg.
  - intros ev Hev. rewrite Z.eqb_refl. run.
    destruct (cancelled_same q) as (Q1 & Q2 & Q3 & Q4 & Q5).
    eapply (HQ _ (set_cancelled (set_phase match v_phase v with Queued _ => Queued true | Flying _ => Flying true | ph => ph end v))); try done.
    + unfold cancel_view. rewrite Z.eqb_refl. destruct (v_phase v) eqn:Ep; try done; [by rewrite set_phase_same | by rewrite orb_true_r | by rewrite set_phase_same].
    + apply Hg; try done; [unfold is_idle; cbn; by destruct (v_phase v)|].
      unfold in_phase, at_home, flying_urb in *. rewrite Eu in R20. cbn. rewrite Q5, Eu.
      destruct (v_phase v) as [| | |f]; cbn; try (destruct R20 as (? & ? & ? & _); done).
      destruct R20 as (j' & k' & E1 & E2 & E3 & E4 & E5 & E6). assert (j' = j) as -> by congruence. rewrite Hal in E6.
      destruct E6 as (E6 & E7 & E8 & E9 & E10). exists j, k'. rewrite Hal, cancelled_status by (rewrite E10; by destruct f). cbn. done.
    + split; cbn; [|by intros ->]. intros f ->. by exists true.
  - exfalso. unfold at_home, flying_urb in R20. destruct (v_phase v); naive_solver congruence.
Qed.

Lemma step_cancel o s t a : repr s t a -> allowed pipes handles (Cancel o) a = true -> served' (Cancel o) s t a.
Proof.
  enter. unfold served. cbn [code]. apply runs_answer. eapply cancel_runs; [exact Hc | exact Hv | exact Hr | exact Hw|].
  intros ret v' x' q' ev Hev Hv' Hq' Hx' Hsz Hwt Hsg Hg Hst. exists ev. split; [done|]. rewrite Hev. cbn [app returned spec_next].
  eexists. split; [by eapply with_view_eq|]. by eapply repr_quiet.
Qed.

Lemma step_sync_timeout o s t a : repr s t a -> allowed pipes handles (SyncTimeout o) a = true -> served' (SyncTimeout o) s t a.
Proof.
  enter. apply andb_true_iff in Hw as [Hw%bool_decide_eq_true Hca].
  unfold served. cbn [code]. apply runs_answer. eapply cancel_runs; [exact Hc | exact Hv | exact Hr | exact Hca|].
  intros ret v' x' q' ev Hev Hv' Hq' Hx' Hsz Hwt Hsg Hg Hst. exists ev. split; [done|]. rewrite Hev. cbn [app returned spec_next].
  eexists. split; [eapply with_view_eq; [done | by rewrite Hv']|]. eapply repr_quiet; [done.. | |done].
  apply good_wait; [done | by rewrite Hwt, Hw].
Qed.

(** *** Submitting *)

(** The request of an object that is neither queued nor with the sending thread
    is queued. *)
Lemma schedule_push rm P t vs qu am o v v' r :
  sched' rm P t vs qu am -> vs !! o = Some v -> v_phase v = Idle -> rm !! o = Some r -> (forall o', rm !! o' = Some r -> o' = o) ->
  v_phase v' = Queued false ->
  exists rs, P !! p = Some (mkPoolIo rs (Z.of_nat (length rs)) USB_POOL_PROCESS_RUNNING) /\ r ∉ rs /\
    sched' rm (<[p := mkPoolIo (rs ++ [r]) (Z.of_nat (length rs) + 1) USB_POOL_PROCESS_RUNNING]> P) t (<[o := v']> vs) (qu ++ [o]) am.
Proof.
  intros [(rs & S1 & S2) S3 S4 S5] Hv Hp Hr Hi Hp'. exists rs. split; [done|].
  assert (~ queued vs o) as Hnq by (unfold queued, phase_of; rewrite Hv; cbn; rewrite Hp; naive_solver).
  assert (o ∉ qu) as Hno by auto. split.
  - intros Hin. apply list_elem_of_lookup in Hin as [i Hi2]. destruct (Forall2_lookup_r _ _ _ _ _ S2 Hi2) as (o' & Ho' & E).
    apply Hi in E as ->. apply Hno. by eapply list_elem_of_lookup_2.
  - assert (queued (<[o := v']> vs) o) as Hq by (unfold queued, phase_of; rewrite lookup_insert_eq; cbn; rewrite Hp'; by eexists).
    assert (forall o', o' <> o -> phase_of (<[o := v']> vs) o' = phase_of vs o') as Hoth.
    { intros o' Ho. unfold phase_of. by rewrite lookup_insert_ne. }
    split.
    + exists (rs ++ [r]). split; [rewrite lookup_insert_eq, length_app; cbn; do 2 f_equal; lia|].
      apply Forall2_app; [done | by constructor].
    + apply NoDup_app. split; [done|]. split; [|apply NoDup_singleton]. by intros y Hy ->%list_elem_of_singleton.
    + intros o' [Ho'| ->%list_elem_of_singleton]%elem_of_app; [|done].
      unfold queued. rewrite Hoth by congruence. by apply S4.
    + destruct t, am; try done.
      * destruct S5 as (E1 & E2 & E3). assert (o0 <> o) by congruence. unfold queued. rewrite Hoth by done.
        split; [done|]. split; [|done]. rewrite elem_of_app, list_elem_of_singleton. naive_solver.
      * destruct S5 as (E1 & E2 & E3). split; [done|]. split; [done|]. rewrite Hoth; [done|]. intros ->.
        unfold phase_of in E3. rewrite Hv in E3. cbn in E3. congruence.
Qed.

Lemma queue_runs h R O U P g F nf hl hi o x r q rs (Q : Z -> Io K -> Prop) :
  device_up d pipes p handles h -> O !! o = Some x -> hostRequest x = Some r -> R !! r = Some q -> hr_devHandle q = Some d ->
  P !! p = Some (mkPoolIo rs (Z.of_nat (length rs)) USB_POOL_PROCESS_RUNNING) -> r ∉ rs ->
  Q HDF_SUCCESS (mkIo h R O U (<[p := mkPoolIo (rs ++ [r]) (Z.of_nat (length rs) + 1) USB_POOL_PROCESS_RUNNING]> P) g F nf hl hi) ->
  runs (IfSubmitRequestToQueue o) (mkIo h R O U P g F nf hl hi) Q.
Proof.
  intros Hup Ho Hx Hr Hd Hp Hn HQ. unfold IfSubmitRequestToQueue, UsbIoSendRequest. do 2 io. rewrite Hx. do 2 io. rewrite Hd. io.
  eapply runs_handle_pool; [apply Hup | apply Hup|]. run. rewrite bool_decide_false by done. run. exact HQ.
Qed.

(** A request that was just put into the queue. *)
Lemma queued_ok owner fl rm h R O U (P' : gmap nat PoolIo) g F nf hl hi t a o v v' x r q b u c q' x' :
  core' owner fl rm h R O U hl (views a) -> views a !! o = Some v -> resides d owner fl rm R O U o v x r q b u c ->
  v_phase v = Idle -> v' = set_wait (v_wait v') (v_signal v') (set_phase (Queued false) v) ->
  same_request q q' -> hostRequest x' = Some r -> filling q' = filling q -> hr_buffer q' = hr_buffer q -> hr_urbs q' = hr_urbs q ->
  hr_reqStatus q' = hr_reqStatus q -> has_job v = true -> ci_status (compInfo x') = USB_REQUEST_COMPLETED ->
  (v_wait v' <> Nobody -> hr_sem q' = Some 0 /\ v_signal v' = false) -> isSyncReq x' = negb (bool_decide (v_wait v' = Nobody)) ->
  sched' rm P' t (<[o := v']> (views a)) (queue a ++ [o]) (aim a) ->
  repr (mkIo h (<[r := q']> R) (<[o := x']> O) U P' g F nf hl hi) t (Service (<[o := v']> (views a)) (queue a ++ [o]) (aim a)).
Proof.
  intros Hc Hv Hr Hid Ev' Hq Hx Ef Eb Eu Es Hj Eci Hsem Hsync Hs. exists owner, fl, rm. cbn. split; [|done].
  eapply core_quiet; [exact Hc | exact Hv | exact Hr | done | done | by rewrite Ev'|]. rewrite Ev'.
  destruct Hr as [R1 R2 R3 R4 R5 R6 R7 R8 R9 R10 R11 R12 R13 R14 R15 R16 R17 R18 _ R20].
  split; [cbn; congruence | | cbn; by rewrite Es | done | |].
  - eapply (job_same v); [done | done | | done]. unfold has_job in Hj. by destruct (v_job v).
  - split; [|done | by intros Hw _; apply Hsem]. intros Hw. by destruct (Hsem Hw) as [-> ->].
  - unfold in_phase, at_home in *. cbn. rewrite Hid in R20. rewrite Eu, Eci. naive_solver.
Qed.

Lemma step_submit o s t a : repr s t a -> allowed pipes handles (Submit o) a = true -> served' (Submit o) s t a.
Proof.
  enter. apply andb_true_iff in Hw as [[Hid Hw%bool_decide_eq_true]%andb_true_iff Hj].
  assert (v_phase v = Idle) as Hph by (unfold is_idle in Hid; by destruct (v_phase v)).
  destruct (schedule_push _ _ _ _ _ _ o v (set_phase (Queued false) v) r Hs Hv Hph R1) as (rs & Hp & Hn & Hs'); [|done|].
  { intros o' Ho'. by eapply map_injective. }
  unfold served. cbn [code]. apply runs_answer. unfold UsbSubmitRequestAsync. run.
  eapply queue_runs; [apply Hc | look | exact R3 | done | done | done | done|]. answered. rewrite Z.eqb_refl.
  unfold with_view. rewrite Hv. eexists. split; [done|]. cbn [set_view views queue aim].
  rewrite <- (insert_id R r q) by done.
  eapply queued_ok; [exact Hc | exact Hv | exact Hr | done..| | |exact Hs'].
  - cbn. congruence.
  - cbn. by rewrite Hw.
Qed.

Lemma step_sync_begin o s t a : repr s t a -> allowed pipes handles (SyncBegin o) a = true -> served' (SyncBegin o) s t a.
Proof.
  enter. apply andb_true_iff in Hw as [[Hid Hw%bool_decide_eq_true]%andb_true_iff Hj].
  assert (v_phase v = Idle) as Hph by (unfold is_idle in Hid; by destruct (v_phase v)).
  set (v' := set_wait First false (set_phase (Queued false) v)).
  destruct (schedule_push _ _ _ _ _ _ o v v' r Hs Hv Hph R1) as (rs & Hp & Hn & Hs'); [|done|].
  { intros o' Ho'. by eapply map_injective. }
  unfold served. cbn [code]. apply runs_answer. unfold sync_begin, OsalSemInit. do 2 io. rewrite R3. run.
  destruct (sem_init hi) eqn:Esem; run.
  - rewrite us_success, Z.eqb_refl. run. eapply queue_runs; [apply Hc | look | exact R3 | look | done | done | done|].
    rewrite us_success. change (0 =? 0) with true. run. exists [SemInit true]. split; [done|]. cbn [map concat app returned spec_next seen_of].
    rewrite ?us_success, Z.eqb_refl. unfold with_view. rewrite Hv. eexists. split; [done|]. cbn [set_view views queue aim].
    eapply queued_ok; [exact Hc | exact Hv | exact Hr | done..| | |exact Hs'].
    + done.
    + done.
  - pose proof us_success. pose proof us_failure. pose proof us_io. rewrite (proj2 (Z.eqb_neq _ _)) by lia. run.
    exists [SemInit false]. split; [done|]. cbn [map concat app returned spec_next seen_of].
    rewrite (proj2 (Z.eqb_neq _ _)), Z.eqb_refl by lia. eexists. split; [done|]. exists owner, fl, rm. done.
Qed.

(** *** Filling *)
Lemma step_fill o k prm s t a : repr s t a -> allowed pipes handles (Fill o k prm) a = true -> served' (Fill o k prm) s t a.
Proof.
  enter. apply andb_true_iff in Hw as [[Hid Hw%bool_decide_eq_true]%andb_true_iff Hf].
  assert (v_phase v = Idle) as Hph by (unfold is_idle in Hid; by destruct (v_phase v)).
  unfold served. cbn [code]. apply runs_answer.
  eapply UsbFillRequest_ok; [apply Hc | done | done | done | done | done | done | done | exact Hf|].
  intros ty j bytes Ej Eb Hbl Hjl Hset Hkind Hctl. answered. rewrite Z.eqb_refl. eexists. split; [by eapply with_view_eq|].
  assert (fill_view pipes prm v = View Idle (Some j) (splice 0 bytes (hr_buffer q)) (v_size v) (v_cancelled v) (v_wait v) (v_signal v)) as ->.
  { unfold fill_view in *. destruct (rp_request prm); cbn in *; congruence. }
  assert (length (splice 0 bytes (hr_buffer q)) = length (hr_buffer q)) as Hlen by (apply length_splice; lia).
  eapply repr_quiet; [exact Hc | exact Hs | exact Hv | exact Hr | by split | done | done | | by apply same_stage_idle].
  split; [done | by split | done | by intros j' [= <-] | | ].
  - split; [done | done | done].
  - unfold in_phase in *. cbn. by rewrite Hph in R20.
Qed.

(** *** Completing *)
Lemma completed_seen j q o r x n :
  filled_for j q -> hr_actualLength q = n -> 0 <= n < 2 ^ 31 ->
  seen_of (Completed o (hr_userCallback q) (info_of r q x) (info_bytes q)) = [completion o j (hr_status q) n (hr_buffer q)].
Proof.
  intros [F1 F2 F3 F4 F5 F6 F7 F8 F9] <- Hn. assert (info_offset q = setup_size j) as Eoff.
  { unfold info_offset, setup_size, is_control in *. rewrite F1. by destruct F9 as [->%Z.eqb_eq|[-> | ->]]. }
  assert (u32 (hr_actualLength q) = hr_actualLength q) as Eu by (apply u32_id; lia).
  unfold completion, info_of, info_bytes. cbn. by rewrite Eoff, Eu, F3, F4, F5.
Qed.

(** A request that is done: whoever waited for it is woken. *)
Lemma finished_good fl o v x r q b U q1 y buffer :
  match v_job v with Some j => filled_for j q | None => is_idle v = true end -> waited v x q -> is_idle v = false ->
  (forall j, v_job v = Some j -> is_control j = true -> v_cancelled v = false) ->
  filling q1 = filling q -> hr_sem q1 = hr_sem q -> hr_buffer q1 = buffer -> (hr_urbs q1 = NoUrbs \/ hr_urbs q1 = Urbs b) ->
  (v_cancelled v = false -> hr_reqStatus q1 <> USB_REQUEST_CANCELLED) -> fl !! o = None ->
  good fl o (finish_view buffer v) (set_compInfo y x) r (woken x q1) b None U.
Proof.
  intros Hjob [W1 W2 W3] Hid Hctl Ef Es Eb Eu Hcan Hfl.
  assert (filling (woken x q1) = filling q1 /\ hr_buffer (woken x q1) = hr_buffer q1 /\ hr_urbs (woken x q1) = hr_urbs q1 /\
    hr_reqStatus (woken x q1) = hr_reqStatus q1 /\ (v_wait v <> Nobody -> hr_sem (woken x q1) = Some 1)) as (E1 & E2 & E3 & E4 & E5).
  { unfold woken. rewrite (W2 Hid). destruct (decide (v_wait v = Nobody)) as [Hw|Hw].
    - rewrite bool_decide_true by done. by destruct q1.
    - rewrite bool_decide_false by done. cbn. do 4 (split; [done|]). intros _. by rewrite Es, (W1 Hw), (W3 Hw Hid). }
  split.
  - cbn. by rewrite E2.
  - eapply (job_same v); [exact Hjob | done | by cbn | by rewrite E1].
  - cbn. by rewrite E4.
  - exact Hctl.
  - split; [|done|done]. cbn. intros Hw. rewrite E5 by done. by rewrite bool_decide_false, orb_true_r.
  - unfold in_phase, at_home. cbn. by rewrite E3.
Qed.
Lemma woken_same q q1 x : same_request q q1 -> same_request q (woken x q1).
Proof. intros []. unfold woken. destruct (isSyncReq x); by split. Qed.
Lemma sync_sem v x q : waited v x q -> is_idle v = false -> isSyncReq x = true -> is_Some (hr_sem q).
Proof.
  intros [W1 W2 _] Hid. rewrite (W2 Hid). intros Hw%negb_true_iff%bool_decide_eq_false. rewrite (W1 Hw). by eexists.
Qed.
End steps.
