(* ===== verification/UsbReqSend.v ===== *)
(** * UsbReqSend: the two threads answer as the service does *)
From S2P Require Import Prelude Hdf UsbDesc UsbDescFacts UsbPool UsbReq UsbReqApi UsbReqUse UsbReqFacts UsbReqFill UsbReqRel UsbReqSteps.
Open Scope Z_scope.

Section send.
Context {HS : HdfStatus} {HL : HdfStatusLaws} {US : UsbStatus} {UL : UsbStatusLaws} {IS : IoStatus} {IL : IoStatusLaws} {RA : RamAlloc} {SZ : UsbSizes} {RZ : ReqSizes} {RL : ReqSizesLaws}
  {K : Type} {HA : HostAdapter K} {UK : UrbKernel} {KL : UrbKernelLaws}.
Context (p d : nat) (pipes : Z -> Z -> option Z) (handles : list nat) (base : gset nat).
Implicit Types (h : Host K) (R : gmap Z UsbHostRequest) (O : gmap nat UsbIfRequest) (U : gmap nat (list UsbAdapterUrb)).
Implicit Types (owner : gmap nat nat) (fl : gmap nat nat) (rm : gmap nat Z) (v : view) (vs : gmap nat view).
Abbreviation repr := (represents_requests p d pipes handles base).
Abbreviation core' := (core p d pipes handles base).
Abbreviation sched' := (schedule p).

Abbreviation served' := (served p d pipes handles base).

(** *** Taking a request from the queue *)
Lemma step_take s t a : repr s t a -> allowed pipes handles Take a = true -> served' Take s t a.
Proof.
  intros (owner & fl & rm & Hc & Hs) Hal. destruct s as [h R O U P g F nf hl hi]. destruct a as [vs qu am]. cbn in Hc, Hs, Hal.
  destruct am; try done. destruct qu as [|o qu]; [done|]. destruct Hs as [(rs & Hp & Hrs) Hnd Hq Haim].
  apply Forall2_cons_inv_l in Hrs as (r & rs' & Hr & Hrs & ->). apply NoDup_cons in Hnd as [Hn Hnd].
  destruct (co_map _ _ _ _ _ _ _ _ _ _ _ _ _ _ Hc o r Hr) as [v Hv].
  destruct (core_object _ _ _ _ _ _ _ _ _ _ _ _ _ _ _ _ Hc Hv) as (x & r' & q & b & u & c & [R1 _ _ R4 _ _ _ _ _ _ _ _ _ _ _ _ _ _ _ _]).
  assert (r' = r) as -> by congruence. unfold served. cbn [code]. unfold send_take, UsbIoGetRequest. run.
  rewrite bool_decide_true by done. change (negb true) with false. fields. rewrite us_success. change (0 =? 0) with true. run.
  eexists. split; [done|]. cbn [views queue aim]. exists owner, fl, rm. cbn. split; [done|]. split.
  - exists rs'. split; [|done]. rewrite !insert_insert_eq, lookup_insert_eq. cbn [length]. do 2 f_equal. lia.
  - done.
  - intros o' Ho'. apply Hq. by right.
  - split; [done|]. split; [done|]. apply Hq. by left.
Qed.

(** *** Looking at it *)
Lemma step_examine s t a : repr s t a -> allowed pipes handles Examine a = true -> served' Examine s t a.
Proof.
  intros (owner & fl & rm & Hc & Hs) Hal. destruct s as [h R O U P g F nf hl hi]. destruct a as [vs qu am]. cbn in Hc, Hs, Hal.
  destruct am as [|o|]; try done. destruct Hs as [(rs & Hp & Hrs) Hnd Hq Haim]. destruct t as [|r|]; try done.
  destruct Haim as (Hr & Hno & [f Hf]). unfold phase_of in Hf. destruct (vs !! o) as [v|] eqn:Hv; [|done]. injection Hf as Hf.
  destruct (core_object _ _ _ _ _ _ _ _ _ _ _ _ _ _ _ _ Hc Hv) as (x & r' & q & b & u & c & Hres).
  pose proof Hres as [R1 R2 R3 R4 R5 R6 R7 R8 R9 R10 R11 R12 R13 R14 R15 R16 R17 R18 [W1 W2 W3] R20].
  assert (r' = r) as -> by congruence. unfold in_phase in R20. rewrite Hf in R20. destruct R20 as (Hfl & Hcn & Hurbs & Hflag).
  unfold served. cbn [code]. unfold IoCancelRequest. run. rewrite R5. run. rewrite bool_decide_true by done. run.
  cbn [spec_next aim views queue]. rewrite Hv, Hf. rewrite <- Hflag.
  assert (forall v', v_phase v' = Idle \/ v_phase v' = Attempted -> v' = set_phase (v_phase v') v -> core' owner fl rm h R O U hl (<[o := v']> vs)) as Hcore.
  { intros v' Hph Ev. rewrite <- (insert_id R r q), <- (insert_id O o x) by done. rewrite Ev.
    eapply core_quiet; [exact Hc | exact Hv | exact Hres | done | done | done|].
    split; [done | | done | done | |].
    - cbn. destruct (v_job v); [done|]. unfold is_idle in R16. by rewrite Hf in R16.
    - unfold is_idle in *. rewrite Hf in *. split; [done | by intros; apply W2 | by intros Hw _; apply W3].
    - unfold in_phase. cbn. by destruct Hph as [-> | ->]. }
  assert (forall v' am' t', v_phase v' = Idle \/ v_phase v' = Attempted ->
      (match t', am' with Resting, AtRest => True | Trying r' n, AtTrying o' n' => n = n' /\ r' = r /\ o' = o /\ v_phase v' = Attempted | _, _ => False end) ->
      sched' rm P t' (<[o := v']> vs) qu am') as Hsch.
  { intros v' am' t' Hph Ht. split; [by exists rs | done | |].
    - intros o' Ho'. unfold queued, phase_of. rewrite lookup_insert_ne by congruence. by apply Hq.
    - destruct t', am'; try done. destruct Ht as (-> & -> & -> & Hat). split; [done|]. split; [done|].
      unfold phase_of. rewrite lookup_insert_eq. cbn. by rewrite Hat. }
  destruct f; run; (eexists; split; [done|]); exists owner, fl, rm; cbn;
    (split; [apply Hcore; auto | apply Hsch; auto]).
Qed.

(** *** Submitting it *)
Lemma NoDup_three (o b k : nat) : NoDup [o; b] -> k <> b -> k <> o -> NoDup [o; b; k].
Proof. rewrite !NoDup_cons, !not_elem_of_cons. pose proof (not_elem_of_nil k). intuition congruence. Qed.
Lemma owned_push (owner : gmap nat nat) (o b k : nat) :
  owner !! k = None -> (forall k', owner !! k' = Some o <-> k' ∈ [o; b]) -> forall k', <[k := o]> owner !! k' = Some o <-> k' ∈ [o; b; k].
Proof.
  intros Hk Ho k'. rewrite lookup_insert_Some, Ho, !elem_of_cons. pose proof (not_elem_of_nil k'). destruct (decide (k = k')) as [->|]; [naive_solver|].
  intuition congruence.
Qed.

(** A request stays at the same stage; its URB may have changed. *)
Lemma at_stage_good fl o v x r q b c q' U :
  v_phase v = Attempted -> v_job v <> None -> v_buffer v = hr_buffer q ->
  match v_job v with Some j => filled_for j q | None => is_idle v = true end ->
  (v_cancelled v = false -> hr_reqStatus q' <> USB_REQUEST_CANCELLED) ->
  (forall j, v_job v = Some j -> is_control j = true -> v_cancelled v = false) ->
  waited v x q -> filling q' = filling q -> hr_buffer q' = hr_buffer q -> hr_sem q' = hr_sem q ->
  forall f, is_idle (set_phase f v) = false -> in_phase fl o (set_phase f v) x r q' b c U ->
  good fl o (set_phase f v) x r q' b c U.
Proof.
  intros Hph Hj Hb Hjob Hcan Hctl [W1 W2 W3] Ef Eb Es f Hid Hp. assert (is_idle v = false) as Hid' by (unfold is_idle; by rewrite Hph).
  split; [cbn; congruence | | exact Hcan | exact Hctl | | exact Hp].
  - eapply (job_same v); [exact Hjob | done | by intros ? | done].
  - split; [cbn; by rewrite Es | intros _; by apply W2 | intros Hw _; by apply W3].
Qed.

(** What the submission of a request comes to. *)
Definition submitted owner fl rm R O P g F nf hl hi vs (o : nat) (v : view) (j : job) (r : Z) (ret : Z) (s' : Io K) : Prop :=
  exists ev h' q' owner' fl' U' hl',
    s' = mkIo h' (<[r := q']> R) O U' P g F nf hl' (hi ++ ev) /\
    (ret = HDF_SUCCESS /\ sendable j = true /\ concat (map seen_of ev) = [offer o j v true] /\
       core' owner' fl' rm h' (<[r := q']> R) O U' hl' (<[o := set_phase (Flying false) v]> vs) \/
     ret <> HDF_SUCCESS /\ concat (map seen_of ev) = (if sendable j then [offer o j v false] else []) /\
       hr_actualLength q' = 0 /\ hl' = hl /\ core' owner fl rm h' (<[r := q']> R) O U' hl vs).
Lemma submit_outcome owner fl rm h R O U P g F nf hl hi vs o v j x r q b u c :
  ram_granted -> core' owner fl rm h R O U hl vs -> vs !! o = Some v -> resides d owner fl rm R O U o v x r q b u c ->
  v_phase v = Attempted -> v_job v = Some j ->
  runs (AdapterSubmitRequest r) (mkIo h R O U P g F nf hl hi) (submitted owner fl rm R O P g F nf hl hi vs o v j r).
Proof.
  intros Hg Hc Hv Hres Hph Ej. pose proof Hres as [R1 R2 R3 R4 R5 R6 R7 R8 R9 R10 R11 R12 R13 R14 R15 R16 R17 R18 R19 R20].
  pose proof R16 as Rj. rewrite Ej in Rj. pose proof Rj as [F1 F2 F3 F4 F5 F6 F7 F8 F9].
  unfold in_phase in R20. rewrite Hph in R20. destruct R20 as (Hfl & -> & Hurbs & _).
  assert (handle_open d (kernel h) = true) as Hopen by apply Hc.
  assert (v = set_phase Attempted v) as Ev by (by rewrite set_phase_same).
  assert (forall fl' q' U', filling q' = filling q -> hr_buffer q' = hr_buffer q -> hr_sem q' = hr_sem q ->
    (hr_reqStatus q' = hr_reqStatus q \/ hr_reqStatus q' = USB_REQUEST_COMPLETED) -> 
    forall f c', is_idle (set_phase f v) = false -> in_phase fl' o (set_phase f v) x r q' b c' U' ->
    good fl' o (set_phase f v) x r q' b c' U') as Hgood.
  { intros fl' q' U' E1 E2 E3 E4 f c' Hi Hp. eapply at_stage_good; [done | congruence | done | exact R16 | | done | done | done..].
    intros Hcf. destruct E4 as [-> | ->]; [auto | done]. }
  assert (forall q' b', b' ∉ dom owner -> same_request q q' -> filling q' = filling q -> hr_buffer q' = hr_buffer q -> hr_sem q' = hr_sem q ->
    (hr_reqStatus q' = hr_reqStatus q \/ hr_reqStatus q' = USB_REQUEST_COMPLETED) -> (hr_urbs q' = NoUrbs \/ hr_urbs q' = Urbs b) ->
    forall h' U' u', device_up d pipes p handles h' -> memory base owner (ram h') -> U' !! b = Some [u'] ->
    (forall k, k <> b -> k <> b' -> U' !! k = U !! k) ->
    core' owner fl rm h' (<[r := q']> R) O U' hl vs) as Hfailed.
  { intros q' b' Hb' E1 E2 E3 E4 E5 E6 h' U' u' Hup Hm HU HU'. rewrite <- (insert_id O o x), <- (insert_id vs o v) by done.
    rewrite Ev at 1. eapply core_change; [exact Hc | exact Hv | exact Hres | exact E1 | done | done | | exact HU | exact R9 | exact R10 | done | done | apply Hc | done | | done].
    - by apply Hgood.
    - intros k o' Ho' Hk. apply HU'; [|by intros ->; apply Hb'; eapply elem_of_dom_2].
      intros ->. apply Ho'. assert (owner !! b = Some o) by (apply R10; right; left). congruence. }
  destruct (sendable j) eqn:Esend.
  - pose proof Esend as Hsend. unfold sendable in Esend. apply andb_true_iff in Esend as [El%Z.leb_le Epos]. destruct (is_control j) eqn:Ectl.
    + destruct (memory_taken base owner h o ltac:(apply Hc)) as [Hnew Hmem]. set (k := ram_next (ram h)) in *.
      assert (k <> b) as Hkb by (intros Hkb; assert (owner !! b = Some o) by (apply R10; right; left); congruence).
      assert (k <> o) as Hko by (intros Hko; assert (owner !! o = Some o) by (apply R10; left); congruence).
      eapply submit_control_ok; [done | done | by rewrite F1; apply Z.eqb_eq in Ectl | done | done | lia|].
      cbv zeta. rewrite R5. cbn [default]. fold k. set (u' := urb_for _ _ _ _). set (a := submiturb hi d u' (sent_bytes q)).
      assert (concat (map seen_of [Submitted o u' (sent_bytes q) a]) = [offer o j v (match a with None => true | Some _ => false end)]) as Eseen.
      { unfold offer, sent_bytes. cbn. rewrite F2, F3, R13. unfold urb_type_of. by rewrite Ectl. }
      destruct a as [e|].
      * intros ret Hret. exists [Submitted o u' (sent_bytes q) (Some e)], (given k (taken h)), (set_hr_urbs NoUrbs (control_ready k q)), owner, fl,
          (delete k (<[k := [u']]> U)), hl.
        split; [done|]. right. split; [done|]. split; [by rewrite Hsend|]. split; [done|]. split; [done|].
        eapply (Hfailed _ k); [by apply not_elem_of_dom | by split | done | done | done | by left | by left | | | |].
        -- do 2 apply device_up_ram. apply Hc.
        -- destruct (memory_given base _ (taken h) k o Hmem) as [_ Hg2]; [by rewrite lookup_insert_eq|]. by rewrite delete_insert_id in Hg2.
        -- by rewrite lookup_delete_ne, lookup_insert_ne.
        -- intros k' _ Hk'. by rewrite lookup_delete_ne, lookup_insert_ne.
      * exists [Submitted o u' (sent_bytes q) None], (taken h), (control_ready k q), (<[k := o]> owner), (<[o := k]> fl), (<[k := [u']]> U),
          (hl ++ [(o, (k, Datatypes.O))]).
        split; [done|]. left. split; [done|]. split; [done|]. split; [exact Eseen|]. rewrite <- (insert_id O o x) by done.
        eapply core_change with (c' := Some k);
          [exact Hc | exact Hv | exact Hres | by split | done | done | | by rewrite lookup_insert_ne | | | apply device_up_ram, Hc | exact Hmem | apply holds_push; [apply Hc | done] | | |].
        -- apply Hgood; [done | done | done | by left | done |]. exists j, k. rewrite lookup_insert_eq. split; [done|]. split; [done|].
           split; [done|]. split; [done|]. split; [|by rewrite Ectl]. exists u'. rewrite lookup_insert_eq. split; [done|]. split; [done|]. split; [done|].
           unfold urb_type_of. by rewrite Ectl.
        -- by apply NoDup_three.
        -- by apply owned_push.
        -- intros k' o' Ho'. rewrite lookup_insert_Some. split; [intros [[_ ?]|[_ ?]]; congruence|]. intros Hk'. right. split; congruence.
        -- intros k' o' Ho' Hk'. rewrite lookup_insert_ne by congruence. done.
        -- intros o' Ho'. by rewrite lookup_insert_ne.
    + cbn in Epos. apply Z.ltb_lt in Epos.
      eapply submit_bulk_ok; [done | destruct F9 as [?|[F9|F9]]; [congruence | left; by rewrite F1, F9 | right; by rewrite F1, F9] | done | done | done | done | lia|].
      cbv zeta. rewrite R5. cbn [default]. set (u' := urb_for _ _ _ _). set (a := submiturb hi d u' (sent_bytes q)).
      assert (concat (map seen_of [Submitted o u' (sent_bytes q) a]) = [offer o j v (match a with None => true | Some _ => false end)]) as Eseen.
      { unfold offer, sent_bytes. cbn. rewrite F2, F3, R13. unfold bulk_urb_type, urb_type_of. rewrite Ectl, F1. done. }
      destruct a as [e|]; cbn [taken_up].
      * exists [Submitted o u' (sent_bytes q) (Some e)], h, (bulk_ready b q), owner, fl, (<[b := [u']]> U), hl. split; [done|]. right.
        pose proof us_success. pose proof us_io. split; [lia|]. split; [by rewrite Hsend|]. split; [done|]. split; [done|].
        eapply (Hfailed _ (fresh (dom owner))); [apply is_fresh | by split | done | done | done | by right | by right | apply Hc | apply Hc | by rewrite lookup_insert_eq|].
        intros k Hk _. by rewrite lookup_insert_ne.
      * exists [Submitted o u' (sent_bytes q) None], h, (bulk_ready b q), owner, (<[o := b]> fl), (<[b := [u']]> U), (hl ++ [(o, (b, Datatypes.O))]).
        split; [done|]. left. split; [done|]. split; [done|]. split; [exact Eseen|]. rewrite <- (insert_id O o x) by done.
        eapply core_change; [exact Hc | exact Hv | exact Hres | by split | done | done | | by rewrite lookup_insert_eq | exact R9 | exact R10 | apply Hc | apply Hc | apply holds_push; [apply Hc | done] | done | |].
        -- apply Hgood; [done | done | done | by right | done |]. exists j, b. rewrite lookup_insert_eq. split; [done|]. split; [done|].
           split; [done|]. split; [done|]. split; [|by rewrite Ectl]. exists u'. rewrite lookup_insert_eq. split; [done|]. split; [done|]. split; [done|].
           cbn. unfold bulk_urb_type, urb_type_of. by rewrite Ectl, F1.
        -- intros k o' Ho' Hk. rewrite lookup_insert_ne; [done|]. intros ->. apply Ho'.
           assert (owner !! k = Some o) by (apply R10; right; left). congruence.
        -- intros o' Ho'. by rewrite lookup_insert_ne.
  - eapply submit_refused_ok; [done | done | | ].
    + unfold sendable in Esend. destruct (is_control j) eqn:Ectl.
      * left. split; [rewrite F1; by apply Z.eqb_eq in Ectl|]. rewrite F3. apply andb_false_iff in Esend as [Esend|?]; [|done].
        by apply Z.leb_gt in Esend.
      * right. split; [destruct F9 as [?|[F9|F9]]; [congruence | left; by rewrite F1, F9 | right; by rewrite F1, F9]|]. rewrite F3.
        apply andb_false_iff in Esend as [Esend%Z.leb_gt | Esend%Z.ltb_ge]; lia.
    + intros ret Hret. exists [], h, (set_hr_actualLength 0 q), owner, fl, U, hl. rewrite app_nil_r. split; [done|]. right.
      split; [done|]. split; [by rewrite Esend|]. split; [done|]. split; [done|].
      eapply (Hfailed _ (fresh (dom owner))); [apply is_fresh | by split | done | done | done | by left | done | apply Hc | apply Hc | done | done].
Qed.

(** The sending thread is done with a request. *)
Lemma schedule_rest rm P r n vs qu o v v' :
  sched' rm P (Trying r n) vs qu (AtTrying o n) -> vs !! o = Some v -> v_phase v = Attempted ->
  sched' rm P Resting (<[o := v']> vs) qu AtRest.
Proof.
  intros [S1 S2 S3 (_ & _ & Hat)] Hv Hph. split; [done | done | | done].
  intros o' Ho'. unfold queued, phase_of. rewrite lookup_insert_ne; [by apply S3|]. intros <-. destruct (S3 _ Ho') as [f Hf]. congruence.
Qed.

(** After the last refusal the request fails; before it stays for the next turn. *)
Lemma failed_outcome owner fl rm h R O U P g F nf hl hi vs qu (o more : nat) v j x r q b u c :
  core' owner fl rm h R O U hl vs -> sched' rm P (Trying r more) vs qu (AtTrying o more) -> vs !! o = Some v ->
  resides d owner fl rm R O U o v x r q b u c -> v_phase v = Attempted -> v_job v = Some j -> hr_actualLength q = 0 ->
  runs (match more with
        | Datatypes.O => upd_request r (set_hr_status USB_REQUEST_ERROR);; UsbIoSetRequestCompletionInfo r;; mret true
        | S _ => mret false
        end) (mkIo h R O U P g F nf hl hi)
    (fun ok s' => exists ev, history s' = hi ++ ev /\ exists a',
       match more with
       | Datatypes.O => concat (map seen_of ev) = [completion o j USB_REQUEST_ERROR 0 (v_buffer v)] /\
                        a' = Service (<[o := finish_view (v_buffer v) v]> vs) qu AtRest
       | S n => concat (map seen_of ev) = [] /\ a' = Service vs qu (AtTrying o n)
       end /\ repr s' (if ok then Resting else Trying r (pred more)) a').
Proof.
  intros Hc Hs Hv Hres Hph Ej Ha. pose proof Hres as [R1 R2 R3 R4 R5 R6 R7 R8 R9 R10 R11 R12 R13 R14 R15 R16 R17 R18 R19 R20].
  pose proof R16 as Rj. rewrite Ej in Rj. assert (is_idle v = false) as Hid by (unfold is_idle; by rewrite Hph).
  unfold in_phase in R20. rewrite Hph in R20. destruct R20 as (Hfl & -> & Hurbs & _).
  destruct more as [|n].
  - run. eapply completion_info_runs; [look | done | done | by apply (sync_sem v x q)|]. run. eexists. split; [done|]. eexists. split.
    { split; [|done]. cbn [map concat]. rewrite app_nil_r. erewrite (completed_seen j (set_hr_status USB_REQUEST_ERROR q)); [by rewrite R13 | | exact Ha | lia].
      by eapply filled_same. }
    rewrite insert_insert_eq. exists owner, fl, rm. cbn. split.
    + eapply core_quiet; [exact Hc | exact Hv | exact Hres | by apply woken_same; split | done | done|].
      eapply finished_good; [exact R16 | exact R19 | done | done | done | done | by rewrite R13 | done | done | done].
    + by eapply schedule_rest.
  - run. exists []. rewrite app_nil_r. split; [done|]. eexists. split; [done|]. exists owner, fl, rm. cbn. split; [done|].
    by destruct Hs as [S1 S2 S3 (_ & S4 & S5)].
Qed.

Lemma step_try s t a : ram_granted -> repr s t a -> allowed pipes handles Try a = true -> served' Try s t a.
Proof.
  intros Hg (owner & fl & rm & Hc & Hs) Hal. destruct s as [h R O U P g F nf hl hi]. destruct a as [vs qu am]. cbn in Hc, Hs, Hal.
  destruct am as [| |o more]; try done. pose proof Hs as [(rs & Hp & Hrs) Hnd Hq Haim]. destruct t as [| |r n]; try done.
  destruct Haim as (-> & Hr & Hf). unfold phase_of in Hf. destruct (vs !! o) as [v|] eqn:Hv; [|done]. injection Hf as Hf.
  destruct (core_object _ _ _ _ _ _ _ _ _ _ _ _ _ _ _ _ Hc Hv) as (x & r' & q & b & u & c & Hres).
  assert (r' = r) as -> by (pose proof (rs_map _ _ _ _ _ _ _ _ _ _ _ _ _ _ _ Hres); congruence).
  assert (exists j, v_job v = Some j) as [j Ej].
  { pose proof (rs_job _ _ _ _ _ _ _ _ _ _ _ _ _ _ _ Hres) as Hj. destruct (v_job v) as [j|]; [by exists j|]. unfold is_idle in Hj. by rewrite Hf in Hj. }
  unfold served. cbn [code spec_next aim views]. rewrite Hv, Ej. unfold send_try, RawSubmitRequest. do 4 io.
  eapply runs_mono; [by eapply submit_outcome|].
  intros ret s' (ev & h' & q' & owner' & fl' & U' & hl' & -> & [(-> & Hsend & Hev & Hc')|(Hret & Hev & Ha & -> & Hc')]).
  - rewrite Z.eqb_refl. run. rewrite drop_app_length, Hev. unfold try_next. rewrite Hsend, !bool_decide_true by done. eexists. split; [done|].
    exists owner', fl', rm. cbn. split; [done|]. by eapply schedule_rest.
  - rewrite (proj2 (Z.eqb_neq _ _)) by done.
    destruct (core_object _ _ _ _ _ _ _ _ _ _ _ _ _ _ _ _ Hc' Hv) as (x' & r' & q1 & b' & u' & c' & Hres').
    assert (r' = r) as -> by (pose proof (rs_map _ _ _ _ _ _ _ _ _ _ _ _ _ _ _ Hres'); congruence).
    assert (q1 = q') as -> by (pose proof (rs_request _ _ _ _ _ _ _ _ _ _ _ _ _ _ _ Hres') as E; rewrite lookup_insert_eq in E; congruence).
    eapply runs_mono; [by eapply failed_outcome|]. cbn beta. intros ok [h2 R2 O2 U2 P2 g2 F2 nf2 hl2 hi2] (ev' & Eh & a' & Ha' & Hrep). run. cbn in Eh. rewrite Eh, <- app_assoc, drop_app_length.
    rewrite map_app, concat_app, Hev. exists a'. split; [|exact Hrep]. unfold try_next. cbn [views queue].
    destruct (sendable j); cbn [app].
    + rewrite (bool_decide_false (offer o j v false = offer o j v true)) by done. cbn [andb]. rewrite bool_decide_true by done.
      by destruct more; destruct Ha' as [-> ->]; rewrite bool_decide_true.
    + by destruct more; destruct Ha' as [-> ->]; rewrite bool_decide_true.
Qed.
End send.

(** ** A finished URB completes its request as the service says *)
Section finish.
Context {HS : HdfStatus} {HL : HdfStatusLaws} {US : UsbStatus} {UL : UsbStatusLaws} {IS : IoStatus} {IL : IoStatusLaws} {RA : RamAlloc} {SZ : UsbSizes} {RZ : ReqSizes} {RL : ReqSizesLaws}
  {K : Type} {HA : HostAdapter K} {UK : UrbKernel} {KL : UrbKernelLaws}.
Context (p d : nat) (pipes : Z -> Z -> option Z) (handles : list nat) (base : gset nat).
Implicit Types (h : Host K) (R : gmap Z UsbHostRequest) (O : gmap nat UsbIfRequest) (U : gmap nat (list UsbAdapterUrb)).
Implicit Types (owner : gmap nat nat) (fl : gmap nat nat) (rm : gmap nat Z) (v : view) (vs : gmap nat view).
Abbreviation repr := (represents_requests p d pipes handles base).
Abbreviation core' := (core p d pipes handles base).
Abbreviation sched' := (schedule p).

Abbreviation served' := (served p d pipes handles base).

(** The kernel writes its results and gives the URB back. *)
Definition with_results (j : job) (data : list Z) (q : UsbHostRequest) : UsbHostRequest :=
  set_hr_buffer (finish_buffer j data (hr_buffer q)) q.
Definition done_urb (st n : Z) (w : UsbAdapterUrb) : UsbAdapterUrb := set_urb_actualLength n (set_urb_status st w).
Lemma urb_type_control j :
  is_control j = true \/ j_type j = USB_PIPE_TYPE_BULK \/ j_type j = USB_PIPE_TYPE_INTERRUPT ->
  (urb_type_of j =? USB_ADAPTER_URB_TYPE_CONTROL) = is_control j.
Proof. unfold urb_type_of, is_control. by intros [->|[-> | ->]]. Qed.
Lemma kernel_finishes_to h R O U P g F nf hl hi o k hl' w r q off st n data (Q : reaped -> Io K -> Prop) :
  take_held o hl = Some ((k, Datatypes.O), hl') -> U !! k = Some [w] -> urb_buffer w = (r, 0) -> R !! r = Some q ->
  off = (if urb_type w =? USB_ADAPTER_URB_TYPE_CONTROL then USB_RAW_CONTROL_SETUP_SIZE else 0) ->
  off + Z.of_nat (length data) <= Z.of_nat (length (hr_buffer q)) ->
  Q (ReapedUrb k 0) (mkIo h (<[r := set_hr_buffer (splice (Z.to_nat off) data (hr_buffer q)) q]> R) O (<[k := [done_urb st n w]]> U) P g F nf hl' (hi ++ [Reaped k 0 st n])) ->
  runs (kernel_finishes o st n data) (mkIo h R O U P g F nf hl hi) Q.
Proof.
  intros Et Eu Eb Er Eoff Hlen HQ. unfold kernel_finishes. do 2 io. rewrite Et. repeat io. rewrite Eb. fields. rewrite <- Eoff. io.
  assert (0 <= off) by (subst off; unfold USB_RAW_CONTROL_SETUP_SIZE; destruct (_ =? _); lia).
  eapply runs_write_buffer; [look | lia | lia |]. run. exact HQ.
Qed.
Lemma kernel_finishes_runs h R O U P g F nf hl hi o k hl' w j r q st n data (Q : reaped -> Io K -> Prop) :
  take_held o hl = Some ((k, Datatypes.O), hl') -> U !! k = Some [w] -> urb_buffer w = (r, 0) -> urb_type w = urb_type_of j ->
  filled_for j q -> spacious q -> R !! r = Some q -> setup_size j + Z.of_nat (length data) <= j_len j ->
  Q (ReapedUrb k 0) (mkIo h (<[r := with_results j data q]> R) O (<[k := [done_urb st n w]]> U) P g F nf hl' (hi ++ [Reaped k 0 st n])) ->
  runs (kernel_finishes o st n data) (mkIo h R O U P g F nf hl hi) Q.
Proof.
  intros Et Eu Eb Ety [F1 F2 F3 F4 F5 F6 F7 F8 F9] [S1 S2] Er Hlen HQ. eapply (kernel_finishes_to _ _ _ _ _ _ _ _ _ _ _ _ _ _ _ _ (setup_size j)); [done.. | | lia | exact HQ].
  unfold setup_size. by rewrite Ety, urb_type_control.
Qed.

(** The common part: the thread that reaps URBs calls what the type asks for. *)
Lemma receive_runs h R O U P g F nf hl hi k w r q rs (Q : bool -> Io K -> Prop) :
  handle_open d (kernel h) = true -> U !! k = Some [w] -> urb_userContext w = Some r -> R !! r = Some q ->
  (hr_requestType q = USB_REQUEST_TYPE_CONTROL /\
     runs (OsControlCompletion r k 0) (mkIo h R O U P g F nf hl hi)
       (fun ret s' => ret = HDF_SUCCESS /\ pool_io s' !! p = Some (mkPoolIo rs (Z.of_nat (length rs)) USB_POOL_PROCESS_RUNNING) /\ Q true s') \/
   (hr_requestType q = USB_REQUEST_TYPE_BULK \/ hr_requestType q = USB_REQUEST_TYPE_INTERRUPT) /\
     runs (OsBulkCompletion r k 0) (mkIo h R O U P g F nf hl hi)
       (fun ret s' => ret = HDF_SUCCESS /\ pool_io s' !! p = Some (mkPoolIo rs (Z.of_nat (length rs)) USB_POOL_PROCESS_RUNNING) /\ Q true s')) ->
  runs (receive_turn p (Some d) (ReapedUrb k 0)) (mkIo h R O U P g F nf hl hi) Q.
Proof.
  intros Ho Eu Ec Er H. unfold receive_turn, RawHandleRequest, AdapterUrbCompleteHandle. run. rewrite Ec. run.
  assert (forall m, runs m (mkIo h R O U P g F nf hl hi)
            (fun ret s' => ret = HDF_SUCCESS /\ pool_io s' !! p = Some (mkPoolIo rs (Z.of_nat (length rs)) USB_POOL_PROCESS_RUNNING) /\ Q true s') ->
          runs m (mkIo h R O U P g F nf hl hi) (fun ret s' => runs (x ← queue_of p;
            (if (ret <? 0) || negb (bool_decide (ioProcessStopStatus x = USB_POOL_PROCESS_RUNNING))
             then upd_queue p (fun x => mkPoolIo (submitRequestQueue x) (queue_sem x + 1) USB_POOL_PROCESS_STOPED);; mret false
             else mret true)) s' Q)) as Hrest.
  { intros m Hm. eapply runs_mono; [exact Hm|]. cbn beta. intros ret s' (-> & Hp & HQ). apply runs_bind. eapply runs_queue_of; [exact Hp|].
    rewrite us_success, bool_decide_true by done. exact HQ. }
  destruct H as [[-> H]|[[-> | ->] H]]; apply Hrest, H.
Qed.

(** What is left when the code has completed the request: its state is that of
    the finished view, and the completion was the right one. *)
Lemma completed_repr owner owner' fl rm h h' R O U U' P g F nf hl hl' hi t a o v j f x r q b u u' c k st n data q1 q2 :
  core' owner fl rm h R O U hl (views a) -> sched' rm P t (views a) (queue a) (aim a) -> views a !! o = Some v ->
  resides d owner fl rm R O U o v x r q b u c -> v_phase v = Flying f -> v_job v = Some j -> 0 <= n < 2 ^ 31 ->
  hr_status q1 = final_status j f st -> hr_actualLength q1 = n -> hr_buffer q1 = finish_buffer j data (hr_buffer q) ->
  same_request q q1 -> filling q1 = filling q -> hr_sem q1 = hr_sem q -> (hr_urbs q1 = NoUrbs \/ hr_urbs q1 = Urbs b) ->
  (v_cancelled v = false -> hr_reqStatus q1 <> USB_REQUEST_CANCELLED) ->
  device_up d pipes p handles h' -> memory base owner' (ram h') -> holds (delete o fl) hl' ->
  (forall k', owner' !! k' = Some o <-> k' ∈ [o; b]) -> (forall k' o', o' <> o -> owner' !! k' = Some o' <-> owner !! k' = Some o') ->
  U' !! b = Some [u'] -> (forall k' o', o' <> o -> owner !! k' = Some o' -> U' !! k' = U !! k') ->
  exists ev, (hi ++ [Reaped k 0 st n]) ++ [Completed o (hr_userCallback q1) (info_of r q1 x) (info_bytes q1)] = hi ++ ev /\
    exists a', spec_next pipes (Finish o st n data) (concat (map seen_of ev)) a = Some a' /\
      repr (mkIo h' (<[r := woken x q1]> (<[r := q2]> R)) (<[o := set_compInfo (info_of r q1 x) x]> O) U' P g F nf hl'
              ((hi ++ [Reaped k 0 st n]) ++ [Completed o (hr_userCallback q1) (info_of r q1 x) (info_bytes q1)])) t a'.
Proof.
  intros Hc Hs Hv Hres Hph Ej Hn Hst Hact Hbuf Hsame Hfill Hsem Hurbs Hcan Hup Hmem Hholds Hown Hoth HU HUoth.
  pose proof Hres as [R1 R2 R3 R4 R5 R6 R7 R8 R9 R10 R11 R12 R13 R14 R15 R16 R17 R18 R19 R20].
  rewrite Ej in R16. assert (seen_of (Completed o (hr_userCallback q1) (info_of r q1 x) (info_bytes q1)) =
    [completion o j (final_status j f st) n (finish_buffer j data (v_buffer v))]) as Eseen.
  { rewrite (completed_seen j q1 o r x n) by (done || by eapply filled_same). by rewrite Hst, Hbuf, R13. }
  eexists. split; [by rewrite <- app_assoc|]. cbn [app map concat]. rewrite Eseen. cbn [seen_of app spec_next]. rewrite Hv, Hph, Ej.
  rewrite bool_decide_true by done.
  eexists. split; [done|]. rewrite insert_insert_eq. exists owner', (delete o fl), rm. cbn. split.
  - eapply core_change with (c' := None); [exact Hc | exact Hv | exact Hres | by apply woken_same | done | done | | exact HU | | exact Hown | done | done | done | done | done |].
    + eapply (finished_good _ _ _ _ _ q); [by rewrite Ej | exact R19 | unfold is_idle; by rewrite Hph | exact R18 | done | done | by rewrite R13 | done | done | by rewrite lookup_delete_eq].
    + rewrite NoDup_cons in R9 |- *. destruct R9 as [R9 R9']. rewrite NoDup_cons in R9'. cbn. rewrite not_elem_of_cons in R9 |- *.
      split; [split; [naive_solver | apply not_elem_of_nil] | apply NoDup_singleton].
    + intros o' Ho'. by rewrite lookup_delete_ne.
  - eapply phase_other; [exact Hs | exact Hv | by eapply same_stage_flying].
Qed.

Lemma owned_pop owner (o b k : nat) :
  NoDup [o; b; k] -> (forall k', owner !! k' = Some o <-> k' ∈ [o; b; k]) -> forall k', delete k owner !! k' = Some o <-> k' ∈ [o; b].
Proof.
  rewrite !NoDup_cons, !not_elem_of_cons. intros Hnd Ho k'. rewrite lookup_delete_Some, Ho, !elem_of_cons. pose proof (not_elem_of_nil k').
  destruct (decide (k = k')) as [->|]; intuition congruence.
Qed.

Lemma step_finish o st n data s t a : repr s t a -> allowed pipes handles (Finish o st n data) a = true -> served' (Finish o st n data) s t a.
Proof.
  enter. destruct (v_phase v) as [| | |f] eqn:Hph; try done. destruct (v_job v) as [j|] eqn:Ej; [|done].
  unfold finish_allowed in Hw. repeat rewrite andb_true_iff in Hw. destruct Hw as [[Hn1%Z.leb_le Hn2%Z.leb_le] Hdata].
  assert (setup_size j + Z.of_nat (length data) <= j_len j) as Hfit.
  { destruct (is_in j); [apply Z.eqb_eq in Hdata; lia | apply Nat.eqb_eq in Hdata; lia]. }
  pose proof R16 as [F1 F2 F3 F4 F5 F6 F7 F8 F9].
  unfold in_phase in R20. rewrite Hph in R20. destruct R20 as (j' & k & E & Hfl & Hact & Hurbs & (w & Hw & Hwb & Hwc & Hwt) & Hk).
  assert (j' = j) as -> by congruence.
  destruct (holds_take _ _ o k (co_holds _ _ _ _ _ _ _ _ _ _ _ _ _ _ Hc) Hfl) as (hl' & Etake & Hholds).
  destruct (sc_queue _ _ _ _ _ _ _ Hs) as (rs & Hp & _). pose proof R11 as [S1 S2].
  assert (0 <= setup_size j) as Hset by (unfold setup_size, USB_RAW_CONTROL_SETUP_SIZE; destruct (is_control j); lia).
  assert (length (finish_buffer j data (hr_buffer q)) = length (hr_buffer q)) as Hbl by (apply length_splice; lia).
  assert (is_idle v = false) as Hid by (unfold is_idle; by rewrite Hph).
  unfold served. cbn [code]. apply runs_answer. apply runs_bind. eapply kernel_finishes_runs; [done.. | exact R11 | done | done|].
  eapply (receive_runs _ _ _ _ _ _ _ _ _ _ k (done_urb st n w) r _ rs); [apply Hc | by rewrite lookup_insert_eq | done | by rewrite lookup_insert_eq|].
  destruct (is_control j) eqn:Ectl.
  - destruct Hk as [-> ->]. left. split; [cbn; rewrite F1; by apply Z.eqb_eq in Ectl|].
    assert (owner !! k = Some o) as Hok by (apply R10; right; right; left).
    destruct (memory_given base _ _ k o (co_memory _ _ _ _ _ _ _ _ _ _ _ _ _ _ Hc) Hok) as [Hlive Hmem].
    eapply OsControlCompletion_runs; [by rewrite lookup_insert_eq | done | done | done | by apply (sync_sem v x q) | by rewrite lookup_insert_eq | done | done|].
    cbv zeta. split; [done|]. split; [done|].
    set (q1 := set_hr_status _ _). change (hr_userCallback (with_results j data q)) with (hr_userCallback q1).
    eapply (completed_repr owner (delete k owner)) with (q1 := q1) (data := data) (n := n) (st := st) (j := j);
      [exact Hc | exact Hs | exact Hv | exact Hr | exact Hph | exact Ej | lia | | | done | by split | done | done | by left | | by apply device_up_ram, Hc | exact Hmem | done | | | | ].
    + unfold q1. cbn. unfold final_status. by rewrite bool_decide_false, Ectl by (apply R17; by eapply R18).
    + unfold q1. cbn. rewrite Hact, i32_id; lia.
    + intros _. apply R17. by eapply R18.
    + by apply owned_pop.
    + intros k' o' Ho'. rewrite lookup_delete_Some. split; [by intros [_ ?]|]. intros Hk'. split; congruence.
    + assert (k <> b) as Hkb by (cbn in R9; rewrite !NoDup_cons, !not_elem_of_cons in R9; naive_solver).
      by rewrite lookup_delete_ne, lookup_insert_ne.
    + intros k' o' Ho' Hk'. assert (k <> k') by congruence. by rewrite lookup_delete_ne, lookup_insert_ne.
  - destruct Hk as (-> & -> & Hnum & Hret & Hstat). right. split.
    { cbn. rewrite F1. destruct F9 as [?|[-> | ->]]; [congruence | by left | by right]. }
    eapply OsBulkCompletion_runs; [by rewrite lookup_insert_eq | done | done | done | by apply (sync_sem v x q) | by rewrite lookup_insert_eq | done.. | cbn; lia |].
    cbv zeta. split; [done|]. split; [done|]. set (q1 := set_hr_status _ _). change (hr_userCallback (with_results j data q)) with (hr_userCallback q1).
    assert (b <> o) as Hbo by (cbn in R9; rewrite !NoDup_cons, !not_elem_of_cons in R9; naive_solver).
    eapply (completed_repr owner owner) with (q1 := q1) (data := data) (n := n) (st := st) (j := j);
      [exact Hc | exact Hs | exact Hv | exact Hr | exact Hph | exact Ej | lia | | done | done | by split | done | done | by right | | apply Hc | apply Hc | done | exact R10 | done | by rewrite lookup_insert_eq | ].
    + unfold q1. cbn. unfold final_status. rewrite Ectl, Hstat. by destruct f.
    + intros Hcan. specialize (R17 Hcan). unfold q1. cbn. rewrite Hstat in *. destruct f; [done|]. rewrite bool_decide_true by done.
      unfold bulk_status. by repeat case_match.
    + intros k' o' Ho' Hk'. rewrite lookup_insert_ne; [done|]. intros <-. apply Ho'.
      assert (owner !! b = Some o) by (apply R10; right; left). congruence.
Qed.
End finish.
