(* ===== verification/UsbReqAlloc.v ===== *)
(** * UsbReqAlloc: making and freeing requests *)
From S2P Require Import Prelude Hdf UsbDesc UsbDescFacts UsbPool UsbReq UsbReqApi UsbReqUse UsbReqFacts UsbReqFill UsbReqRel UsbReqSteps.
Open Scope Z_scope.

Section memory.
Context {HS : HdfStatus} {HL : HdfStatusLaws} {US : UsbStatus} {UL : UsbStatusLaws} {IS : IoStatus} {IL : IoStatusLaws} {RA : RamAlloc} {SZ : UsbSizes} {RZ : ReqSizes} {RL : ReqSizesLaws}
  {K : Type} {HA : HostAdapter K} {UK : UrbKernel} {KL : UrbKernelLaws}.
Context (p d : nat) (pipes : Z -> Z -> option Z) (handles : list nat) (base : gset nat).
Implicit Types (h : Host K) (R : gmap Z UsbHostRequest) (O : gmap nat UsbIfRequest) (U : gmap nat (list UsbAdapterUrb)).
Implicit Types (owner : gmap nat nat) (fl : gmap nat nat) (rm : gmap nat Z) (v : view) (vs : gmap nat view).
Abbreviation repr := (represents_requests p d pipes handles base).
Abbreviation core' := (core p d pipes handles base).
Abbreviation sched' := (schedule p).

Abbreviation served' := (served p d pipes handles base).

(** ** Pages *)
Lemma pages_spec n : 0 < n -> n <= pages n * page_size < n + page_size.
Proof.
  intros Hn. pose proof rz_page as Hp. unfold pages. assert (page_size <> 0) as Hne by lia.
  pose proof (Z.div_mod (n + page_size - 1) page_size Hne) as E. assert (0 < page_size) as Hpos by lia.
  pose proof (Z.mod_pos_bound (n + page_size - 1) page_size Hpos). lia.
Qed.
Lemma pages_pos n : 0 < n -> 0 < pages n.
Proof. intros Hn. pose proof (pages_spec n Hn). pose proof rz_page. nia. Qed.
Lemma pages_same n m : 0 < n -> n <= m <= pages n * page_size -> pages m = pages n.
Proof.
  intros Hn Hm. pose proof (pages_spec n Hn). pose proof (pages_spec m ltac:(lia)). pose proof rz_page.
  assert (pages n < pages m + 1) by (apply (Z.mul_lt_mono_pos_r page_size); lia).
  assert (pages m < pages n + 1) by (apply (Z.mul_lt_mono_pos_r page_size); lia). lia.
Qed.
Lemma mapped_in (s : Io K) r q k :
  requests s !! r = Some q -> r <= k < r + pages (hr_bufLen q) -> k ∈ mapped_pages s.
Proof.
  intros Hr Hk. unfold mapped_pages. apply elem_of_union_list. eexists. split.
  - apply list_elem_of_fmap. exists (r, q). split; [reflexivity|]. by apply elem_of_map_to_list.
  - apply elem_of_list_to_set. unfold page_range. apply list_elem_of_fmap. exists (Z.to_nat (k - r)). split; [lia|].
    apply elem_of_seq. lia.
Qed.
Lemma request_size_eq n : roomy n = true -> request_size 0 n = sizeof_UsbHostRequest + n /\ u64 n = n /\
  0 < n < 2 ^ 31 /\ sizeof_UsbHostRequest + n <= pages n * page_size /\ pages (sizeof_UsbHostRequest + n) = pages n.
Proof.
  unfold roomy. rewrite !andb_true_iff, !Z.ltb_lt, Z.leb_le. intros [[H1 H2] H3]. pose proof (pages_spec n H1). pose proof rz_page. pose proof rz_request.
  split; [|split; [apply Z.mod_small; lia | split; [lia | split; [done | apply pages_same; lia]]]].
  unfold request_size, sizeof_UsbIsoPacketDesc. change (u64 0) with 0. replace (sizeof_UsbHostRequest + 12 * 0 + n) with (sizeof_UsbHostRequest + n) by lia.
  apply Z.mod_small. lia.
Qed.

(** *** Freeing *)

(** Only the request itself is in the pages that are unmapped. *)
Lemma unmap_eq owner fl rm h R O U hl vs r q q' :
  core' owner fl rm h R O U hl vs -> R !! r = Some q -> hr_bufLen q' = hr_bufLen q -> 0 < pages (hr_bufLen q) ->
  unmap r (pages (hr_bufLen q)) (<[r := q']> R) = delete r R.
Proof.
  intros Hc Hr Hlen Hpos. apply map_eq. intros r'. unfold unmap. destruct (decide (r' = r)) as [->|Hne].
  - rewrite lookup_delete_eq. apply map_lookup_filter_None. right. intros q1 _ Hn. apply Hn. cbn. lia.
  - rewrite lookup_delete_ne by done. destruct (R !! r') as [q1|] eqn:E.
    + apply map_lookup_filter_Some. rewrite lookup_insert_ne by done. split; [done|]. cbn.
      destruct (co_requests _ _ _ _ _ _ _ _ _ _ _ _ _ _ Hc _ _ E) as [o1 Ho1]. destruct (co_map _ _ _ _ _ _ _ _ _ _ _ _ _ _ Hc _ _ Ho1) as [v1 Hv1].
      destruct (co_apart _ _ _ _ _ _ _ _ _ _ _ _ _ _ Hc _ _ _ _ Hr E ltac:(done)) as [Ha|Ha]; [lia|].
      destruct (core_object _ _ _ _ _ _ _ _ _ _ _ _ _ _ _ _ Hc Hv1) as (x1 & r1 & q2 & b1 & u1 & c1 & Hres).
      pose proof (rs_map _ _ _ _ _ _ _ _ _ _ _ _ _ _ _ Hres). pose proof (rs_request _ _ _ _ _ _ _ _ _ _ _ _ _ _ _ Hres).
      pose proof (sp_size _ (rs_space _ _ _ _ _ _ _ _ _ _ _ _ _ _ _ Hres)) as Hs2. assert (r1 = r') as -> by congruence.
      assert (q2 = q1) as -> by congruence. pose proof (pages_pos (hr_bufLen q1) ltac:(lia)). lia.
    + apply map_lookup_filter_None. left. by rewrite lookup_insert_ne.
Qed.

(** An object, its request and its blocks are gone. *)
Lemma core_remove owner fl rm h h' R O U U' hl vs o v x r q b u :
  core' owner fl rm h R O U hl vs -> vs !! o = Some v -> resides d owner fl rm R O U o v x r q b u None -> fl !! o = None ->
  device_up d pipes p handles h' -> memory base (delete o (delete b owner)) (ram h') ->
  (forall k o', o' <> o -> owner !! k = Some o' -> U' !! k = U !! k) ->
  core' (delete o (delete b owner)) fl (delete o rm) h' (delete r R) (delete o O) U' hl (delete o vs).
Proof.
  intros Hc Hv Hres Hfl Hup Hm HU. pose proof Hres as [R1 R2 R3 R4 R5 R6 R7 R8 R9 R10 R11 R12 R13 R14 R15 R16 R17 R18 R19 R20].
  pose proof Hc as [C1 C2 C3 C4 C5 C6 C7 C8 C9 C10]. cbn in R10.
  assert (forall k o', o' <> o -> delete o (delete b owner) !! k = Some o' <-> owner !! k = Some o') as Hoth.
  { intros k o' Ho'. rewrite !lookup_delete_Some. split; [by intros (_ & _ & ?)|]. intros Hk. pose proof (R10 k) as Hk2.
    split; [|split; [|done]]; intros <-; [assert (owner !! o = Some o) by (apply Hk2; left) | assert (owner !! b = Some o) by (apply Hk2; right; left)]; congruence. }
  assert (forall k, delete o (delete b owner) !! k <> Some o) as Hgone.
  { intros k. rewrite !lookup_delete_Some. intros (H1 & H2 & H3). apply R10 in H3. rewrite !elem_of_cons in H3. pose proof (not_elem_of_nil k). naive_solver. }
  split; try done.
  - intros o1 v1 [Hne Hv1]%lookup_delete_Some. eapply lives_frame; [by apply C3 | | | | | done |].
    + by rewrite lookup_delete_ne.
    + intros r1 Hr1. rewrite lookup_delete_ne; [done|]. intros <-. apply Hne. by eapply map_injective.
    + intros k Hk. by eapply HU.
    + intros k. by apply Hoth.
    + by rewrite lookup_delete_ne.
  - intros k o1 Hk. assert (o1 <> o) as Hne by (intros ->; by eapply Hgone). rewrite lookup_delete_ne by done. by eapply C4, Hoth.
  - intros o1 r1 [Hne Hr1]%lookup_delete_Some. rewrite lookup_delete_ne by done. by eapply C5.
  - intros r1 q1 [Hne Hq1]%lookup_delete_Some. destruct (C6 _ _ Hq1) as [o1 Ho1]. exists o1. rewrite lookup_delete_ne; [done|]. congruence.
  - intros r1 q1 r2 q2 [_ H1]%lookup_delete_Some [_ H2]%lookup_delete_Some. by apply C7.
  - intros o1 k Hk. rewrite lookup_delete_ne by congruence. by eapply C9.
  - intros o1 x1 [Hne Hx1]%lookup_delete_Some. rewrite lookup_delete_ne by done. by eapply C10.
Qed.

Lemma step_free o s t a : repr s t a -> allowed pipes handles (Free o) a = true -> served' (Free o) s t a.
Proof.
  enter. apply andb_true_iff in Hw as [Hid Hw%bool_decide_eq_true].
  assert (v_phase v = Idle) as Hph by (unfold is_idle in Hid; by destruct (v_phase v)).
  unfold in_phase in R20. rewrite Hph in R20. destruct R20 as (Hfl & -> & Hurbs & _). cbn in R9, R10.
  destruct (request_size_eq (hr_bufLen q) R15) as (Esz & E64 & Hlen & Hroom & Hpages). pose proof (pages_pos (hr_bufLen q) ltac:(lia)) as Hpos.
  assert (owner !! b = Some o) as Hbo by (apply R10; right; left). assert (owner !! o = Some o) as Hoo by (apply R10; left).
  assert (b <> o) as Hne by (rewrite !NoDup_cons, !not_elem_of_cons in R9; naive_solver).
  destruct (memory_given base _ _ b o (co_memory _ _ _ _ _ _ _ _ _ _ _ _ _ _ Hc) Hbo) as [Hlive1 Hm1].
  destruct (memory_given base _ _ o o Hm1 ltac:(by rewrite lookup_delete_ne)) as [Hlive2 Hm2].
  unfold served. cbn [code]. apply runs_answer. unfold UsbFreeRequest, RawFreeRequest, AdapterFreeRequest. run. rewrite R3. run. rewrite R7. run.
  eapply runs_free_urb; [done|]. run. rewrite R14, E64, Esz.
  rewrite munmap_works by (pose proof rz_request; lia). run. rewrite us_success. change (0 =? 0) with true. run.
  eapply runs_free_memory; [done|]. run. eexists. split; [done|]. cbn [map concat app returned spec_next seen_of]. rewrite us_success, Z.eqb_refl.
  eexists. split; [done|]. exists (delete o (delete b owner)), fl, (delete o rm). cbn. split.
  - rewrite Hpages, !insert_insert_eq. erewrite unmap_eq; [|exact Hc | exact R4 | done | done].
    eapply core_remove; [exact Hc | exact Hv | exact Hr | done | by do 2 apply device_up_ram; apply Hc | exact Hm2|].
    intros k o' Ho' Hk. rewrite lookup_delete_ne; [done|]. congruence.
  - eapply schedule_frame; [exact Hs|]. intros o' Ho'. assert (o' <> o) as Hno.
    { intros ->. unfold queued, phase_of in Ho'. rewrite Hv in Ho'. cbn in Ho'. rewrite Hph in Ho'. naive_solver. }
    unfold phase_of. by rewrite !lookup_delete_ne.
Qed.

(** *** Making *)
Lemma fresh_object owner fl rm h R O U hl vs o :
  core' owner fl rm h R O U hl vs -> owner !! o = None -> vs !! o = None /\ fl !! o = None /\ rm !! o = None.
Proof.
  intros Hc Ho. assert (vs !! o = None) as Hvs.
  { destruct (vs !! o) as [v|] eqn:Hv; [|done]. destruct (core_object _ _ _ _ _ _ _ _ _ _ _ _ _ _ _ _ Hc Hv) as (x & r & q & b & u & c & Hres).
    assert (owner !! o = Some o) by (apply (rs_owned _ _ _ _ _ _ _ _ _ _ _ _ _ _ _ Hres); left). congruence. }
  split; [done|]. split.
  - destruct (fl !! o) as [k|] eqn:E; [|done]. destruct (co_flying _ _ _ _ _ _ _ _ _ _ _ _ _ _ Hc _ _ E). congruence.
  - destruct (rm !! o) as [r|] eqn:E; [|done]. destruct (co_map _ _ _ _ _ _ _ _ _ _ _ _ _ _ Hc _ _ E). congruence.
Qed.
Lemma core_add owner fl rm h h' R O U hl vs o b r q x u v :
  core' owner fl rm h R O U hl vs -> owner !! o = None -> owner !! b = None ->
  (forall r1 q1, R !! r1 = Some q1 -> r1 <> r /\ apart r1 q1 r q) ->
  device_up d pipes p handles h' -> memory base (<[b := o]> (<[o := o]> owner)) (ram h') ->
  lives d (<[b := o]> (<[o := o]> owner)) fl (<[o := r]> rm) (<[r := q]> R) (<[o := x]> O) (<[b := u]> U) o v ->
  core' (<[b := o]> (<[o := o]> owner)) fl (<[o := r]> rm) h' (<[r := q]> R) (<[o := x]> O) (<[b := u]> U) hl (<[o := v]> vs).
Proof.
  intros Hc Ho Hb Hap Hup Hm Hl. destruct (fresh_object _ _ _ _ _ _ _ _ _ _ Hc Ho) as (Hvs & Hfl & Hrm). pose proof Hc as [C1 C2 C3 C4 C5 C6 C7 C8 C9 C10].
  assert (forall k o', o' <> o -> <[b := o]> (<[o := o]> owner) !! k = Some o' <-> owner !! k = Some o') as Hoth.
  { intros k o' Ho'. rewrite !lookup_insert_Some. split; [naive_solver|]. intros Hk. right. split; [congruence|]. right. split; congruence. }
  split; try done.
  - intros o1 v1 [[<- <-]|[Hne Hv1]]%lookup_insert_Some; [exact Hl|]. eapply lives_frame; [by apply C3 | | | | | done |].
    + by rewrite lookup_insert_ne.
    + intros r1 Hr1. destruct (C3 _ _ Hv1) as (x1 & r2 & q1 & b1 & u1 & c1 & Hres). pose proof (rs_map _ _ _ _ _ _ _ _ _ _ _ _ _ _ _ Hres).
      pose proof (rs_request _ _ _ _ _ _ _ _ _ _ _ _ _ _ _ Hres). assert (r2 = r1) as -> by congruence. destruct (Hap r1 q1); [done|].
      by rewrite lookup_insert_ne.
    + intros k Hk. rewrite lookup_insert_ne; [done|]. congruence.
    + intros k. by apply Hoth.
    + by rewrite lookup_insert_ne.
  - intros k o1 Hk. destruct (decide (o1 = o)) as [->|Hne]; [rewrite lookup_insert_eq; by eexists|]. rewrite lookup_insert_ne by done. by eapply C4, Hoth.
  - intros o1 r1 [[<- <-]|[Hne Hr1]]%lookup_insert_Some; [rewrite lookup_insert_eq; by eexists|]. rewrite lookup_insert_ne by done. by eapply C5.
  - intros r1 q1 [[<- <-]|[Hne Hq1]]%lookup_insert_Some; [exists o; by rewrite lookup_insert_eq|]. destruct (C6 _ _ Hq1) as [o1 Ho1].
    exists o1. rewrite lookup_insert_ne; [done|]. congruence.
  - intros r1 q1 r2 q2 [[<- <-]|[Hn1 H1]]%lookup_insert_Some [[<- <-]|[Hn2 H2]]%lookup_insert_Some Hne; [done | | |by apply C7].
    + destruct (Hap _ _ H2) as [_ [?|?]]; [by right | by left].
    + by destruct (Hap _ _ H1).
  - intros o1 k Hk. destruct (decide (o1 = o)) as [->|Hne]; [congruence|]. rewrite lookup_insert_ne by done. by eapply C9.
  - intros o1 x1 [[<- <-]|[Hne Hx1]]%lookup_insert_Some; [rewrite lookup_insert_eq; by eexists|]. rewrite lookup_insert_ne by done. by eapply C10.
Qed.
(** A fresh mapping is apart from the requests that are there. *)
Lemma fresh_mapping owner fl rm h R O U hl vs (s : Io K) hi n r q :
  core' owner fl rm h R O U hl vs -> requests s = R -> mmap hi (mapped_pages s) n = Some r -> hr_bufLen q = n -> 0 < n ->
  forall r1 q1, R !! r1 = Some q1 -> r1 <> r /\ apart r1 q1 r q.
Proof.
  intros Hc Es Em Hq Hn r1 q1 Hr1. destruct (co_requests _ _ _ _ _ _ _ _ _ _ _ _ _ _ Hc _ _ Hr1) as [o1 Ho1].
  destruct (co_map _ _ _ _ _ _ _ _ _ _ _ _ _ _ Hc _ _ Ho1) as [v1 Hv1].
  destruct (core_object _ _ _ _ _ _ _ _ _ _ _ _ _ _ _ _ Hc Hv1) as (x1 & r2 & q2 & b1 & u1 & c1 & Hres).
  pose proof (rs_map _ _ _ _ _ _ _ _ _ _ _ _ _ _ _ Hres). pose proof (rs_request _ _ _ _ _ _ _ _ _ _ _ _ _ _ _ Hres).
  pose proof (sp_size _ (rs_space _ _ _ _ _ _ _ _ _ _ _ _ _ _ _ Hres)) as Hs2. assert (r2 = r1) as -> by congruence.
  assert (q2 = q1) as -> by congruence. pose proof (pages_pos (hr_bufLen q1) ltac:(lia)). pose proof (pages_pos n Hn).
  assert (forall k, r1 <= k < r1 + pages (hr_bufLen q1) -> ~ r <= k < r + pages n) as Hap.
  { intros k Hk. eapply mmap_apart; [exact Em|]. eapply mapped_in; [by rewrite Es | done]. }
  unfold apart. rewrite Hq. pose proof (Hap r1). pose proof (Hap r). lia.
Qed.
Lemma core_host owner fl rm h h' R O U hl vs :
  core' owner fl rm h R O U hl vs -> device_up d pipes p handles h' -> memory base owner (ram h') -> core' owner fl rm h' R O U hl vs.
Proof. intros [C1 C2 C3 C4 C5 C6 C7 C8 C9 C10] Hup Hm. by split. Qed.

(** A request as it is made. *)
Definition new_request (b o : nat) (n : Z) : UsbHostRequest :=
  set_hr_privateObj (Some o) (set_hr_devHandle (Some d) (set_hr_urbs (Urbs b) (set_hr_bulkUrb (Some b)
    (set_hr_bufLen n (set_hr_numIsoPackets 0 (zero_request (pages n * page_size - sizeof_UsbHostRequest)
       (Z.min 0 ((pages n * page_size - sizeof_UsbHostRequest) / sizeof_UsbIsoPacketDesc)))))))).
Lemma new_lives owner fl rm R O U o b r n x :
  roomy n = true -> o <> b -> (forall k, owner !! k <> Some o) -> fl !! o = None -> hostRequest x = Some r ->
  lives d (<[b := o]> (<[o := o]> owner)) fl (<[o := r]> rm) (<[r := new_request b o n]> R) (<[o := x]> O) (<[b := [zero_urb]]> U) o
    (View Idle None (replicate (Z.to_nat (pages n * page_size - sizeof_UsbHostRequest)) 0) n false Nobody false).
Proof.
  intros Hn Hob Hown Hfl Hx. destruct (request_size_eq n Hn) as (_ & _ & Hlen & Hroom & _).
  exists x, r, (new_request b o n), b, zero_urb, None. split; rewrite ?lookup_insert_eq; try done.
  - cbn. apply NoDup_cons. split; [|apply NoDup_singleton]. by intros ->%list_elem_of_singleton.
  - intros k. cbn. rewrite !lookup_insert_Some, !elem_of_cons. pose proof (not_elem_of_nil k). pose proof (Hown k). naive_solver.
  - split; [exact Hlen|]. cbn. rewrite length_replicate. lia.
  - split; [done|]. split; [done|]. split; [by right | done].
Qed.

Lemma step_alloc k n s t a : ram_granted -> repr s t a -> allowed pipes handles (Alloc k n) a = true -> served' (Alloc k n) s t a.
Proof.
  intros Hg (owner & fl & rm & Hc & Hs) Hal. cbn [allowed] in Hal. apply andb_true_iff in Hal as [Hk%bool_decide_eq_true Hn].
  destruct s as [h R O U P g F nf hl hi]. cbn in Hc, Hs. destruct (request_size_eq n Hn) as (Esz & E64 & Hlen & Hroom & Hpages).
  destruct (du_handles _ _ _ _ _ (co_up _ _ _ _ _ _ _ _ _ _ _ _ _ _ Hc) k Hk) as [i Hi].
  destruct (memory_taken base owner h (ram_next (ram h)) ltac:(apply Hc)) as [Hnew Hm1]. set (o := ram_next (ram h)) in *.
  destruct (memory_taken base _ (taken h) o Hm1) as [Hnew2 Hm2]. set (b := ram_next (ram (taken h))) in *.
  assert (o <> b) as Hob by (unfold o, b; cbn; lia). rewrite lookup_insert_ne in Hnew2 by done.
  destruct (fresh_object _ _ _ _ _ _ _ _ _ _ Hc Hnew) as (Hvs & Hfl & Hrm).
  unfold served. cbn [code]. apply runs_answer. unfold UsbAllocRequest, RawAllocRequest, AdapterAllocRequest. io.
  eapply runs_iface_handle; [exact Hi|]. cbn [devHandle]. io. pose proof rz_object.
  eapply runs_take_memory; [done | lia|]. fold o. rewrite E64.
  assert (handle_open d (kernel h) = true) as Hopen by apply Hc. run. rewrite Esz.
  destruct (mmap _ _ n) as [r|] eqn:Em; run.
  - fold o b. exists [Mapped n (Some r)]. split; [done|]. cbn [map concat app spec_next seen_of]. rewrite Hvs. eexists. split; [done|].
    rewrite !insert_insert_eq. replace (sizeof_UsbHostRequest + n - n) with sizeof_UsbHostRequest by lia.
    assert (i32 n = n) as -> by (apply i32_id; lia). change (set_hr_privateObj (Some o) _) with (new_request b o n).
    exists (<[b := o]> (<[o := o]> owner)), fl, (<[o := r]> rm). cbn. split.
    + eapply core_add; [exact Hc | done | done | | by do 2 apply device_up_ram; apply Hc | exact Hm2|].
      * eapply fresh_mapping; [exact Hc | | exact Em | done | lia]. done.
      * apply new_lives; [done | done | | done | done]. intros k' Hk'. destruct (co_owner _ _ _ _ _ _ _ _ _ _ _ _ _ _ Hc _ _ Hk'). congruence.
    + eapply schedule_frame; [exact Hs|]. intros o' Ho'. assert (o <> o') as Hno.
      { intros <-. unfold queued, phase_of in Ho'. rewrite Hvs in Ho'. cbn in Ho'. naive_solver. }
      unfold phase_of. by rewrite !lookup_insert_ne.
  - fold o. destruct (memory_given base _ _ o o Hm1 ltac:(by rewrite lookup_insert_eq)) as [Hlive Hm3]. rewrite delete_insert_id in Hm3 by done.
    eapply runs_free_memory; [done|]. run. exists [Mapped n None]. split; [done|]. cbn [map concat app spec_next seen_of]. eexists. split; [done|].
    exists owner, fl, rm. cbn. split; [|done]. eapply core_host; [exact Hc | by do 2 apply device_up_ram; apply Hc | exact Hm3].
Qed.
End memory.
