(* ===== verification/UsbReqRun.v ===== *)
(** * UsbReqRun: sessions of the requests

    A whole session answers as the service does; what was submitted and completed
    adds up; and freed requests leave nothing behind. *)
From S2P Require Import Prelude Hdf UsbDesc UsbDescFacts UsbPool UsbReq UsbReqApi UsbReqUse UsbReqFacts UsbReqFill UsbReqRel UsbReqSteps UsbReqSend UsbReqAlloc.
Open Scope Z_scope.

(** ** Counting *)

(** Whether a move submitted a request of [o], and whether it may have taken one
    back, going by what it returned. *)
Definition submits {HS : HdfStatus} (o : nat) (x : move) (l : list seen) : nat :=
  match x with Submit o' | SyncBegin o' => if bool_decide (o' = o /\ l = [Returned HDF_SUCCESS]) then 1 else 0 | _ => 0 end.
Definition cancels {HS : HdfStatus} (o : nat) (x : move) (l : list seen) : nat :=
  match x with Cancel o' | SyncTimeout o' => if bool_decide (o' = o /\ l = [Returned HDF_SUCCESS]) then 1 else 0 | _ => 0 end.
Definition is_completion (o : nat) (e : seen) : bool := match e with Done_ o' _ _ _ _ _ _ => (o' =? o)%nat | _ => false end.
Definition completes (o : nat) (l : list seen) : nat := length (List.filter (is_completion o) l).
Fixpoint total (f : move -> list seen -> nat) (xs : list move) (ls : list (list seen)) : nat :=
  match xs, ls with x :: xs, l :: ls => f x l + total f xs ls | _, _ => 0 end.

(** A request on its way counts one; in the queue it may have been taken back. *)
Definition underway (a : service) (o : nat) : nat :=
  match views a !! o with Some v => if is_idle v then 0 else 1 | None => 0 end.
Definition taken_back (a : service) (o : nat) : nat :=
  match views a !! o with Some v => match v_phase v with Queued true => 1 | _ => 0 end | None => 0 end.

(** What is queued is in the queue or just taken from it, what is being attempted
    is with the sending thread. *)
Definition placed (a : service) (o : nat) : Prop :=
  match v_phase <$> views a !! o with
  | Some (Queued _) => o ∈ queue a \/ aim a = AtTaken o
  | Some Attempted => exists n, aim a = AtTrying o n
  | _ => True
  end.

Section counting.
Context {HS : HdfStatus} {HL : HdfStatusLaws} {IS : IoStatus} {RZ : ReqSizes}.
Variables (pipes : Z -> Z -> option Z) (handles : list nat).

(** The books of one object over one move. *)
Definition balanced (x : move) (l : list seen) (a a' : service) (o : nat) : Prop :=
  (completes o l + underway a' o <= submits o x l + underway a o)%nat /\
  (submits o x l + underway a o + taken_back a' o <= completes o l + underway a' o + cancels o x l + taken_back a o)%nat /\
  (placed a o -> placed a' o).

(** Another object changes. *)
Lemma balanced_other x l a a' o :
  views a' !! o = views a !! o -> submits o x l = 0%nat -> completes o l = 0%nat ->
  (o ∈ queue a \/ aim a = AtTaken o -> o ∈ queue a' \/ aim a' = AtTaken o) -> (forall n, aim a = AtTrying o n -> exists n', aim a' = AtTrying o n') ->
  balanced x l a a' o.
Proof.
  intros E1 E2 E3 Hq Ht. unfold balanced, underway, taken_back, placed. rewrite E1, E2, E3. split; [lia|]. split; [lia|].
  destruct (views a !! o) as [v|]; [|done]. cbn. destruct (v_phase v); naive_solver.
Qed.
(** The object itself does, and the queue does not. *)
Lemma balanced_same x l a a' o v v' :
  views a !! o = Some v -> views a' !! o = Some v' -> queue a' = queue a -> aim a' = aim a ->
  submits o x l = 0%nat -> completes o l = 0%nat -> is_idle v' = is_idle v ->
  (forall f, v_phase v' = Queued f -> exists g, v_phase v = Queued g) -> (v_phase v' = Attempted -> v_phase v = Attempted) ->
  (v_phase v' = Queued true -> v_phase v = Queued true \/ cancels o x l = 1%nat) ->
  balanced x l a a' o.
Proof.
  intros E1 E2 E3 E4 E5 E6 Hi Hq Ha Hc. unfold balanced, underway, taken_back, placed. rewrite E1, E2, E3, E4, E5, E6, Hi. cbn. split; [lia|]. split.
  - destruct (v_phase v') as [|[]| |]; try (destruct (is_idle v); lia). destruct Hc as [->|Hc]; [done | |]; destruct (is_idle v); lia.
  - destruct (v_phase v') as [|f| |]; try done; [destruct (Hq f eq_refl) as [g ->]; done | by rewrite Ha].
Qed.
Lemma with_view_inv a o f a' : with_view a o f = Some a' -> exists v v', views a !! o = Some v /\ f v = Some v' /\ a' = set_view o v' a.
Proof. unfold with_view. destruct (views a !! o) as [v|]; [|done]. destruct (f v) as [v'|] eqn:E; [|done]. intros [= <-]. by exists v, v'. Qed.
Lemma set_view_same a o v : views (set_view o v a) !! o = Some v.
Proof. apply lookup_insert_eq. Qed.
Lemma set_view_other a o o' v : o' <> o -> views (set_view o v a) !! o' = views a !! o'.
Proof. intros H. by apply lookup_insert_ne. Qed.

(** A change of one view that is no submission and no completion. *)
Lemma with_view_balanced x l a a' o o1 f :
  with_view a o1 f = Some a' -> submits o x l = 0%nat -> completes o l = 0%nat ->
  (forall v v', views a !! o1 = Some v -> f v = Some v' -> is_idle v' = is_idle v /\
     (forall g, v_phase v' = Queued g -> exists g', v_phase v = Queued g') /\ (v_phase v' = Attempted -> v_phase v = Attempted) /\
     (v_phase v' = Queued true -> v_phase v = Queued true \/ cancels o1 x l = 1%nat)) ->
  balanced x l a a' o.
Proof.
  intros (v & v' & E1 & E2 & ->)%with_view_inv Es Ec H. destruct (decide (o = o1)) as [->|Hne].
  - destruct (H v v' E1 E2) as (H1 & H2 & H3 & H4). eapply balanced_same; try done. apply set_view_same.
  - apply balanced_other; [by apply set_view_other | done | done | done | eauto].
Qed.
Lemma cancel_balanced ret v v' : cancel_view ret v = Some v' -> is_idle v' = is_idle v /\
  (forall g, v_phase v' = Queued g -> exists g', v_phase v = Queued g') /\ (v_phase v' = Attempted -> v_phase v = Attempted) /\
  (v_phase v' = Queued true -> v_phase v = Queued true \/ ret = HDF_SUCCESS).
Proof.
  unfold cancel_view. destruct (v_phase v) as [|c| |c] eqn:Ep; [| | |destruct (Z.eqb_spec ret HDF_SUCCESS); [|done]]; intros [= <-];
    unfold is_idle; cbn; rewrite Ep; repeat split; try done; eauto.
  destruct (Z.eqb_spec ret HDF_SUCCESS); [by right|]. rewrite orb_false_r. intros [= ->]. by left.
Qed.
(** A request enters the queue. *)
Lemma push_balanced x l a o1 v v' o :
  views a !! o1 = Some v -> v_phase v = Idle -> v_phase v' = Queued false ->
  submits o x l = (if decide (o = o1) then 1 else 0)%nat -> completes o l = 0%nat ->
  balanced x l a (Service (views (set_view o1 v' a)) (queue (set_view o1 v' a) ++ [o1]) (aim (set_view o1 v' a))) o.
Proof.
  intros E1 E2 E3 Es Ec. destruct (decide (o = o1)) as [->|Hne].
  - unfold balanced, underway, taken_back, placed. cbn [views queue aim]. rewrite set_view_same, E1, Es, Ec. unfold is_idle. cbn. rewrite E2, E3.
    split; [lia|]. split; [lia|]. intros _. left. apply elem_of_app. right. left.
  - apply balanced_other; [by apply set_view_other | done | done | | eauto]. cbn. rewrite elem_of_app. naive_solver.
Qed.
Lemma unused_idle v : unused v = true -> v_phase v = Idle.
Proof. unfold unused, is_idle. by destruct (v_phase v). Qed.

(** The sending thread ends an attempt. *)
Lemma try_balanced l o1 more v j vs qu a' o :
  vs !! o1 = Some v -> v_phase v = Attempted -> try_next l (Service vs qu (AtTrying o1 more)) o1 more v j = Some a' ->
  balanced Try l (Service vs qu (AtTrying o1 more)) a' o.
Proof.
  intros E Ep. unfold try_next.
  assert (forall l1 l0, completes o (l0 ++ l1) = completes o l1 -> 
    match more with
    | Datatypes.O => if bool_decide (l1 = [completion o1 j USB_REQUEST_ERROR 0 (v_buffer v)])
           then Some (Service (<[o1 := finish_view (v_buffer v) v]> vs) qu AtRest) else None
    | S n => if bool_decide (l1 = []) then Some (Service vs qu (AtTrying o1 n)) else None
    end = Some a' -> balanced Try (l0 ++ l1) (Service vs qu (AtTrying o1 more)) a' o) as Hfailed.
  { intros l1 l0 Ec Ha. destruct more as [|n]; (destruct (bool_decide _) eqn:El; [|done]); apply bool_decide_eq_true in El as ->; injection Ha as <-.
    - destruct (decide (o = o1)) as [->|Hne].
      + unfold balanced, underway, taken_back, placed. cbn [views queue aim]. rewrite Ec, lookup_insert_eq, E. unfold is_idle, completes. cbn. rewrite Nat.eqb_refl, Ep. cbn. lia.
      + apply balanced_other; [by apply lookup_insert_ne | done | rewrite Ec; unfold completes; cbn; by rewrite (proj2 (Nat.eqb_neq _ _)) | by cbn; naive_solver |].
        cbn. intros n [= Ho _]. congruence.
    - apply balanced_other; [done | done | by rewrite Ec | cbn; naive_solver | cbn; naive_solver]. }
  cbn [views queue aim]. destruct (sendable j); [|by apply (Hfailed l [])]. destruct l as [|e l]; [done|].
  destruct (bool_decide (e = offer o1 j v true) && bool_decide (l = [])) eqn:Ee.
  - apply andb_true_iff in Ee as [->%bool_decide_eq_true ->%bool_decide_eq_true]. intros [= <-]. destruct (decide (o = o1)) as [->|Hne].
    + unfold balanced, underway, taken_back, placed. cbn [views queue aim]. rewrite lookup_insert_eq, E. unfold is_idle, completes. cbn. rewrite Ep. cbn. lia.
    + apply balanced_other; [by apply lookup_insert_ne | done | done | cbn; naive_solver|]. cbn. intros n [= Ho _]. congruence.
  - destruct (bool_decide (e = offer o1 j v false)) eqn:Ee2; [|done]. apply bool_decide_eq_true in Ee2 as ->. by apply (Hfailed l [_]).
Qed.
Lemma step_balanced x l a a' o :
  (forall o1 n v, aim a = AtTrying o1 n -> views a !! o1 = Some v -> v_phase v = Attempted) ->
  allowed pipes handles x a = true -> spec_next pipes x l a = Some a' -> balanced x l a a' o.
Proof.
  intros Haim Hal Hsp. destruct x as [b n|o1 b q|o1|o1|o1|o1|o1|o1|o1| | | |o1 st n data]; cbn [spec_next] in Hsp.
  - (* Alloc *) destruct l as [|[|[o1|]| |] []]; try done; [|injection Hsp as <-; by apply balanced_other; eauto].
    destruct (views a !! o1) as [v|] eqn:E; [done|]. injection Hsp as <-. destruct (decide (o = o1)) as [->|Hne].
    + unfold balanced, underway, taken_back, placed. rewrite set_view_same, E. cbn. lia.
    + apply balanced_other; [by apply set_view_other | done | done | done | eauto].
  - (* Fill *) destruct l as [|[ret| | |] []]; try done. destruct (ret =? HDF_SUCCESS); [|done]. cbn [allowed] in Hal.
    apply andb_true_iff in Hal as [_ Hal]. apply on_view_inv in Hal as (v1 & E1 & [Hu%unused_idle _]%andb_true_iff).
    eapply with_view_balanced; [exact Hsp | done | done|]. intros v v' Ev [= <-]. assert (v1 = v) as -> by congruence.
    unfold is_idle. rewrite Hu. unfold fill_view. by destruct (rp_request q).
  - (* Submit *) destruct l as [|[ret| | |] []]; try done. destruct (Z.eqb_spec ret HDF_SUCCESS) as [->|]; [|done]. cbn [allowed] in Hal.
    apply on_view_inv in Hal as (v & E & [Hu%unused_idle _]%andb_true_iff). unfold with_view in Hsp. rewrite E in Hsp. injection Hsp as <-.
    eapply push_balanced; [exact E | done | done | | done]. cbn. destruct (decide (o = o1)) as [->|Hne]; [by rewrite bool_decide_true|].
    by rewrite bool_decide_false by naive_solver.
  - (* SyncBegin *) destruct l as [|[ret| | |] []]; try done. destruct (Z.eqb_spec ret HDF_SUCCESS) as [->|Hret].
    + cbn [allowed] in Hal. apply on_view_inv in Hal as (v & E & [Hu%unused_idle _]%andb_true_iff). unfold with_view in Hsp. rewrite E in Hsp. injection Hsp as <-.
      eapply push_balanced; [exact E | done | done | | done]. cbn. destruct (decide (o = o1)) as [->|Hne]; [by rewrite bool_decide_true|].
      by rewrite bool_decide_false by naive_solver.
    + destruct (ret =? HDF_ERR_IO); [|done]. injection Hsp as <-. apply balanced_other; [done | | done | done | eauto]. cbn.
      rewrite bool_decide_false; [done | naive_solver].
  - (* SyncWoken *) destruct l as [|[ret| | |] []]; try done. destruct (ret =? HDF_SUCCESS); [|done].
    eapply with_view_balanced; [exact Hsp | done | done|]. intros v v' Ev [= <-].
    split; [done|]. split; [by eauto|]. split; [done | by left].
  - (* SyncTimeout *) destruct l as [|[ret| | |] []]; try done. eapply with_view_balanced; [exact Hsp | done | done|].
    intros v v' Ev Hv. cbn beta in Hv. destruct (cancel_view ret v) as [v1|] eqn:E; [|done]. injection Hv as <-.
    destruct (cancel_balanced _ _ _ E) as (H1 & H2 & H3 & H4). repeat split; try done. intros Hq. destruct (H4 Hq) as [?| ->]; [by left|].
    right. cbn. by rewrite bool_decide_true.
  - (* SyncEnd *) destruct l as [|[ret| | |] []]; try done. destruct (ret =? HDF_ERR_TIMEOUT); [|done].
    eapply with_view_balanced; [exact Hsp | done | done|]. intros v v' Ev [= <-].
    split; [done|]. split; [by eauto|]. split; [done | by left].
  - (* Cancel *) destruct l as [|[ret| | |] []]; try done. eapply with_view_balanced; [exact Hsp | done | done|].
    intros v v' Ev Hv. destruct (cancel_balanced _ _ _ Hv) as (H1 & H2 & H3 & H4). repeat split; try done. intros Hq. destruct (H4 Hq) as [?| ->]; [by left|].
    right. cbn. by rewrite bool_decide_true.
  - (* Free *) destruct l as [|[ret| | |] []]; try done. destruct (ret =? HDF_SUCCESS); [|done]. injection Hsp as <-.
    cbn [allowed] in Hal. apply on_view_inv in Hal as (v & E & Hu%unused_idle). destruct (decide (o = o1)) as [->|Hne].
    + unfold balanced, underway, taken_back, placed. cbn. rewrite lookup_delete_eq, E. unfold is_idle. rewrite Hu. cbn. lia.
    + apply balanced_other; [by apply lookup_delete_ne | done | done | done | eauto].
  - (* Take *) destruct l; [|done]. cbn [allowed] in Hal. destruct a as [vs [|o1 qu] []]; try done. cbn in Hsp. injection Hsp as <-.
    apply balanced_other; [done | done | done | | by intros]. cbn. rewrite elem_of_cons. naive_solver.
  - (* Examine *) destruct l; [|done]. destruct a as [vs qu [|o1|]]; try done. cbn in Hsp. destruct (vs !! o1) as [v|] eqn:E; [|done].
    destruct (v_phase v) as [|c| |] eqn:Ep; try done. destruct (decide (o = o1)) as [->|Hne].
    + destruct c; injection Hsp as <-; unfold balanced, underway, taken_back, placed; cbn; rewrite lookup_insert_eq, E; unfold is_idle; cbn; rewrite Ep; cbn;
        (split; [lia|]); (split; [lia|]); eauto.
    + destruct c; injection Hsp as <-; (apply balanced_other; [by apply lookup_insert_ne | done | done | | by intros]); cbn; naive_solver.
  - (* Try *) destruct a as [vs qu [| |o1 more]]; try done. cbn in Hsp. destruct (vs !! o1) as [v|] eqn:E; [|done]. destruct (v_job v) as [j|]; [|done].
    by eapply try_balanced; [exact E | by eapply Haim |].
  - (* Finish *) destruct l as [|e []]; try done. destruct (views a !! o1) as [v|] eqn:E; [|done]. destruct (v_phase v) as [| | |c] eqn:Ep; try done.
    destruct (v_job v) as [j|]; [|done]. destruct (bool_decide _) eqn:Ee; [|done]. apply bool_decide_eq_true in Ee as ->. injection Hsp as <-.
    destruct (decide (o = o1)) as [->|Hne].
    + unfold balanced, underway, taken_back, placed, completes, is_idle. rewrite set_view_same, E. cbn. rewrite Nat.eqb_refl, Ep. cbn. lia.
    + apply balanced_other; [by apply set_view_other | done | | done | eauto]. unfold completes. cbn. by rewrite (proj2 (Nat.eqb_neq _ _)).
Qed.
End counting.

Section sessions.
Context {HS : HdfStatus} {HL : HdfStatusLaws} {US : UsbStatus} {UL : UsbStatusLaws} {IS : IoStatus} {IL : IoStatusLaws} {RA : RamAlloc} {SZ : UsbSizes} {RZ : ReqSizes} {RL : ReqSizesLaws}
  {K : Type} {HA : HostAdapter K} {UK : UrbKernel} {KL : UrbKernelLaws}.
Context (p d : nat) (pipes : Z -> Z -> option Z) (handles : list nat).

Lemma step_served base x s t a :
  ram_granted -> represents_requests p d pipes handles base s t a -> allowed pipes handles x a = true -> served p d pipes handles base x s t a.
Proof.
  intros Hg Hr Hal. destruct x.
  - by apply step_alloc.
  - by apply step_fill.
  - by apply step_submit.
  - by apply step_sync_begin.
  - by apply step_sync_woken.
  - by apply step_sync_timeout.
  - by apply step_sync_end.
  - by apply step_cancel.
  - by apply step_free.
  - by apply step_take.
  - by apply step_examine.
  - by apply step_try.
  - by apply step_finish.
Qed.

Lemma steps_served base xs m a :
  ram_granted -> represents_requests p d pipes handles base (io m) (sending m) a -> obedient p d pipes handles xs m a = true ->
  exists ls m' a', io_steps p d xs m = Done (ls, m') /\ spec_steps pipes xs ls a = Some a' /\
    represents_requests p d pipes handles base (io m') (sending m') a'.
Proof.
  intros Hg. revert m a. induction xs as [|x xs IH]; intros [s t] a Hr Ho.
  - by exists [], (Machine s t), a.
  - cbn [obedient] in Ho. apply andb_true_iff in Ho as [Hal Ho]. cbn [io sending] in Hr.
    pose proof (step_served base x s t a Hg Hr Hal) as Hx. unfold served, runs in Hx. cbn [io_steps]. unfold io_step in *. cbn [io sending] in *.
    destruct (code p d x t s) as [[[l t'] s']| |]; try done. destruct Hx as (a1 & Ha1 & Hr1). rewrite Ha1 in Ho.
    destruct (IH (Machine s' t') a1 Hr1 Ho) as (ls & m' & a' & -> & Hsp & Hr'). exists (l :: ls), m', a'. split; [done|]. split; [|done].
    cbn [spec_steps]. by rewrite Ha1.
Qed.

(** ** Where a session starts *)

(** No request was made yet; the thread that sends runs and has nothing to do. *)
Record fresh_io (s : Io K) : Prop := FreshIo {
  fi_up : device_up d pipes p handles (host s);
  fi_ram : ram_wf (ram (host s));
  fi_requests : requests s = ∅;
  fi_objects : objects s = ∅;
  fi_queue : pool_io s !! p = Some (mkPoolIo [] 0 USB_POOL_PROCESS_RUNNING);
  fi_held : held s = [];
}.
Lemma fresh_represents s : fresh_io s -> represents_requests p d pipes handles (ram_live (ram (host s))) s Resting no_requests.
Proof.
  intros [F1 F2 F3 F4 F5 F6]. exists ∅, ∅, ∅. cbn. split.
  - rewrite F3, F4, F6. split; try done.
    + split; [done | by rewrite dom_empty_L, union_empty_r_L | by rewrite dom_empty_L; apply disjoint_empty_r].
    + split; [apply NoDup_nil_2|]. intros o w. split; [by intros ?%not_elem_of_nil | by intros (k & ? & _)].
  - split; [by exists [] | by apply NoDup_nil_2 | by intros o ?%not_elem_of_nil | done].
Qed.

(** C14: a session that keeps to the rules never runs into undefined behaviour and
    every one of its moves is answered as the service of [UsbReqUse] says:
    requests are queued in order, offered to the kernel with their type, endpoint,
    length and bytes at most three times, completed once with the client's
    function and data, the status of the URB or of the cancellation and the bytes
    that were transferred, and whoever waits for one is woken by it. *)
Theorem requests_served xs s :
  ram_granted -> fresh_io s -> obedient p d pipes handles xs (Machine s Resting) no_requests = true ->
  exists ls m' a', io_steps p d xs (Machine s Resting) = Done (ls, m') /\ spec_steps pipes xs ls no_requests = Some a'.
Proof.
  intros Hg Hf Ho. destruct (steps_served _ xs (Machine s Resting) no_requests Hg (fresh_represents s Hf) Ho) as (ls & m' & a' & H1 & H2 & _).
  by exists ls, m', a'.
Qed.

(** ** Nothing stays behind *)

(** C17: when every object of a session was freed, no page is mapped any more, the
    kernel holds no URB, and exactly the memory is taken that was taken before. *)
Theorem requests_released xs s :
  ram_granted -> fresh_io s -> obedient p d pipes handles xs (Machine s Resting) no_requests = true ->
  exists ls m', io_steps p d xs (Machine s Resting) = Done (ls, m') /\
    (objects (io m') = ∅ -> requests (io m') = ∅ /\ held (io m') = [] /\ ram_live (ram (host (io m'))) = ram_live (ram (host s))).
Proof.
  intros Hg Hf Ho. destruct (steps_served _ xs (Machine s Resting) no_requests Hg (fresh_represents s Hf) Ho) as (ls & m' & a' & H1 & _ & (owner & fl & rm & Hc & _)).
  exists ls, m'. split; [done|]. intros HO. destruct Hc as [C1 [M1 M2 M3] C3 C4 C5 C6 C7 [H2 H3] C9 C10].
  assert (forall o, ~ is_Some (views a' !! o)) as Hno.
  { intros o [v Hv]. destruct (C3 _ _ Hv) as (x & r & q & b & u & c & Hres). pose proof (rs_object _ _ _ _ _ _ _ _ _ _ _ _ _ _ _ Hres) as E. by rewrite HO in E. }
  split; [|split].
  - apply map_empty. intros r. destruct (requests (io m') !! r) as [q|] eqn:E; [|done]. destruct (C6 _ _ E) as [o Hr]. by destruct (Hno _ (C5 _ _ Hr)).
  - destruct (held (io m')) as [|[o w] l]; [done|]. destruct (proj1 (H3 o w) ltac:(left)) as (k & Hk & _). by destruct (Hno _ (C9 _ _ Hk)).
  - rewrite M2. assert (dom owner = ∅) as ->; [|set_solver]. apply dom_empty_iff_L, map_empty. intros k.
    destruct (owner !! k) as [o|] eqn:E; [|done]. by destruct (Hno _ (C4 _ _ E)).
Qed.

(** ** Well-formed states *)

(** A client's object and its request point at each other; both, and the URB that
    was made with them, are there, and the buffer has the promised size. *)
Definition object_wf (s : Io K) (o : nat) (x : UsbIfRequest) : Prop :=
  exists r q b u, hostRequest x = Some r /\ requests s !! r = Some q /\ hr_privateObj q = Some o /\ hr_devHandle q = Some d /\
    hr_bulkUrb q = Some b /\ urb_blocks s !! b = Some [u] /\ o ∈ ram_live (ram (host s)) /\ b ∈ ram_live (ram (host s)) /\
    0 < hr_bufLen q <= Z.of_nat (length (hr_buffer q)).
(** An URB with the kernel is alive, and points at the buffer of its request. *)
Definition urb_wf (s : Io K) (o k i : nat) : Prop :=
  i = Datatypes.O /\ k ∈ ram_live (ram (host s)) /\
  exists x r w, objects s !! o = Some x /\ hostRequest x = Some r /\ urb_blocks s !! k = Some [w] /\ urb_userContext w = Some r /\ urb_buffer w = (r, 0).
Record io_wf (s : Io K) : Prop := IoWf {
  iw_objects : forall o x, objects s !! o = Some x -> object_wf s o x;
  iw_requests : forall r q, requests s !! r = Some q -> exists o x, hr_privateObj q = Some o /\ objects s !! o = Some x /\ hostRequest x = Some r;
  iw_apart : forall r1 q1 r2 q2, requests s !! r1 = Some q1 -> requests s !! r2 = Some q2 -> r1 <> r2 -> apart r1 q1 r2 q2;
  iw_held : NoDup (held s).*1 /\ forall o k i, (o, (k, i)) ∈ held s -> urb_wf s o k i;
  iw_queue : exists rs, pool_io s !! p = Some (mkPoolIo rs (Z.of_nat (length rs)) USB_POOL_PROCESS_RUNNING) /\ NoDup rs /\
               forall r, r ∈ rs -> is_Some (requests s !! r);
}.
Lemma represents_wf base s t a : represents_requests p d pipes handles base s t a -> io_wf s.
Proof.
  intros (owner & fl & rm & Hc & [(rs & S1 & S2) S3 S4 S5]). pose proof Hc as [C1 [M1 M2 M3] C3 C4 C5 C6 C7 [H2 H3] C9 C10].
  assert (forall o k, owner !! k = Some o -> k ∈ ram_live (ram (host s))) as Hlive.
  { intros o k Hk. rewrite M2. apply elem_of_union. right. by eapply elem_of_dom_2. }
  split.
  - intros o x Hx. destruct (C10 _ _ Hx) as [v Hv]. destruct (C3 _ _ Hv) as (x' & r & q & b & u & c & Hres).
    destruct Hres as [R1 R2 R3 R4 R5 R6 R7 R8 R9 R10 [Z1 Z2] _ _ _ _ _ _ _ _ _]. assert (x' = x) as -> by congruence. exists r, q, b, u.
    repeat (split; [done|]). split; [apply (Hlive o), R10; left|]. split; [apply (Hlive o), R10; right; left|]. split; [apply Z1 | exact Z2].
  - intros r q Hr. destruct (C6 _ _ Hr) as [o Ho]. destruct (C5 _ _ Ho) as [v Hv]. destruct (C3 _ _ Hv) as (x & r' & q' & b & u & c & Hres).
    destruct Hres as [R1 R2 R3 R4 R5 _ _ _ _ _ _ _ _ _ _ _ _ _ _ _]. assert (r' = r) as -> by congruence. assert (q' = q) as -> by congruence. by exists o, x.
  - exact C7.
  - split; [exact H2|]. intros o k i Hin. apply H3 in Hin as (k' & Hf & E). injection E as -> ->. destruct (C9 _ _ Hf) as [v Hv].
    destruct (C3 _ _ Hv) as (x & r & q & b & u & c & Hres). pose proof (rs_phase _ _ _ _ _ _ _ _ _ _ _ _ _ _ _ Hres) as Hph.
    pose proof (rs_owned _ _ _ _ _ _ _ _ _ _ _ _ _ _ _ Hres) as Hown. pose proof (rs_object _ _ _ _ _ _ _ _ _ _ _ _ _ _ _ Hres) as Ho.
    pose proof (rs_host _ _ _ _ _ _ _ _ _ _ _ _ _ _ _ Hres) as Hh. unfold in_phase in Hph. destruct (v_phase v); try (destruct Hph; congruence).
    destruct Hph as (j & k & _ & Hf' & _ & _ & (w & W1 & W2 & W3 & _) & Hk). assert (k = k') as -> by congruence. split; [done|]. split.
    + apply (Hlive o), Hown. destruct (is_control j); [destruct Hk as [-> _]; right; right; left | destruct Hk as (_ & -> & _); right; left].
    + by exists x, r, w.
  - exists rs. split; [exact S1|]. split.
    + assert (forall o1 o2 r, rm !! o1 = Some r -> rm !! o2 = Some r -> o1 = o2) as Hinj by (intros; by eapply map_injective).
      clear -S2 S3 Hinj. induction S2 as [|o r qu rs Ho S2 IH]; [apply NoDup_nil_2|]. apply NoDup_cons in S3 as [Hn S3].
      apply NoDup_cons. split; [|by apply IH]. intros (i & Hi)%list_elem_of_lookup. destruct (Forall2_lookup_r _ _ _ _ _ S2 Hi) as (o' & Ho' & E).
      apply Hn. rewrite (Hinj o o' r) by done. by eapply list_elem_of_lookup_2.
    + intros r (i & Hi)%list_elem_of_lookup. destruct (Forall2_lookup_r _ _ _ _ _ S2 Hi) as (o & _ & Ho). destruct (C5 _ _ Ho) as [v Hv].
      destruct (C3 _ _ Hv) as (x & r' & q & b & u & c & Hres). exists q. pose proof (rs_map _ _ _ _ _ _ _ _ _ _ _ _ _ _ _ Hres).
      pose proof (rs_request _ _ _ _ _ _ _ _ _ _ _ _ _ _ _ Hres). congruence.
Qed.

(** C16: after any session the state is well formed: every object points at a mapped
    request of its own with a live URB and a buffer of the promised size, no two
    requests share a page, every URB with the kernel is alive and points at the
    buffer of its request, and the queue holds mapped requests, each once, as many
    as its semaphore counts. *)
Theorem requests_well_formed xs s :
  ram_granted -> fresh_io s -> obedient p d pipes handles xs (Machine s Resting) no_requests = true ->
  exists ls m', io_steps p d xs (Machine s Resting) = Done (ls, m') /\ io_wf (io m').
Proof.
  intros Hg Hf Ho. destruct (steps_served _ xs (Machine s Resting) no_requests Hg (fresh_represents s Hf) Ho) as (ls & m' & a' & H1 & _ & Hr).
  exists ls, m'. split; [done|]. by eapply represents_wf.
Qed.

(** ** What was submitted and completed *)
Lemma represents_aim base s t a o n v :
  represents_requests p d pipes handles base s t a -> aim a = AtTrying o n -> views a !! o = Some v -> v_phase v = Attempted.
Proof.
  intros (owner & fl & rm & _ & [_ _ _ S4]) Ha Hv. rewrite Ha in S4. destruct t; try done. destruct S4 as (_ & _ & E). unfold phase_of in E.
  rewrite Hv in E. by injection E.
Qed.
Lemma steps_balanced base xs m a o :
  ram_granted -> represents_requests p d pipes handles base (io m) (sending m) a -> obedient p d pipes handles xs m a = true -> placed a o ->
  exists ls m' a', io_steps p d xs m = Done (ls, m') /\ represents_requests p d pipes handles base (io m') (sending m') a' /\ placed a' o /\
    (total (fun _ => completes o) xs ls + underway a' o <= total (submits o) xs ls + underway a o)%nat /\
    (total (submits o) xs ls + underway a o + taken_back a' o <=
       total (fun _ => completes o) xs ls + underway a' o + total (cancels o) xs ls + taken_back a o)%nat.
Proof.
  intros Hg. revert m a. induction xs as [|x xs IH]; intros [s t] a Hr Ho Hp.
  - exists [], (Machine s t), a. cbn. do 3 (split; [done|]). lia.
  - cbn [obedient] in Ho. apply andb_true_iff in Ho as [Hal Ho]. cbn [io sending] in Hr.
    pose proof (step_served base x s t a Hg Hr Hal) as Hx. unfold served, runs in Hx. cbn [io_steps]. unfold io_step in *. cbn [io sending] in *.
    destruct (code p d x t s) as [[[l t'] s']| |]; try done. destruct Hx as (a1 & Ha1 & Hr1). rewrite Ha1 in Ho.
    destruct (step_balanced pipes handles x l a a1 o) as (B1 & B2 & B3); [intros o1 n v E1 E2; exact (represents_aim _ _ _ _ _ _ _ Hr E1 E2) | done | done|].
    destruct (IH (Machine s' t') a1 Hr1 Ho (B3 Hp)) as (ls & m' & a' & -> & Hr' & Hp' & L1 & L2). exists (l :: ls), m', a'.
    split; [done|]. split; [done|]. split; [done|]. cbn [total]. lia.
Qed.

(** Nothing is queued, being sent, or with the kernel. *)
Definition at_rest (m : machine K) : Prop :=
  (exists x, pool_io (io m) !! p = Some x /\ submitRequestQueue x = []) /\ sending m = Resting /\ held (io m) = [].
Lemma rest_idle base m a o :
  represents_requests p d pipes handles base (io m) (sending m) a -> at_rest m -> placed a o -> underway a o = 0%nat.
Proof.
  intros (owner & fl & rm & Hc & [(rs & S1 & S2) _ _ S4]) ((x & Hx & Hq) & Hs & Hh) Hp. rewrite S1 in Hx. injection Hx as <-. cbn in Hq. subst rs.
  apply Forall2_nil_inv_r in S2. rewrite Hs in S4. assert (aim a = AtRest) as Ha by (by destruct (aim a)).
  unfold underway, placed in *. destruct (views a !! o) as [v|] eqn:Hv; [|done]. cbn in Hp. unfold is_idle.
  destruct (core_object _ _ _ _ _ _ _ _ _ _ _ _ _ _ _ _ Hc Hv) as (x & r & q & b & u & c & Hres).
  pose proof (rs_phase _ _ _ _ _ _ _ _ _ _ _ _ _ _ _ Hres) as Hph. unfold in_phase in Hph. rewrite S2, Ha in Hp.
  destruct (v_phase v) as [|f| |f]; [done | | |].
  - destruct Hp as [?%not_elem_of_nil|?]; done.
  - by destruct Hp.
  - destruct Hph as (j & k & _ & Hf & _). assert ((o, (k, Datatypes.O)) ∈ held (io m)) as Hin by (apply (co_holds _ _ _ _ _ _ _ _ _ _ _ _ _ _ Hc); by exists k).
    rewrite Hh in Hin. by apply not_elem_of_nil in Hin.
Qed.

(** C15: every request that was submitted is completed at most once and at most one
    per object is on its way, and none is lost: when nothing is queued, being sent
    or with the kernel any more, each was completed or taken back by a
    cancellation that was answered with success. *)
Theorem completed_once xs s o :
  ram_granted -> fresh_io s -> obedient p d pipes handles xs (Machine s Resting) no_requests = true ->
  exists ls m', io_steps p d xs (Machine s Resting) = Done (ls, m') /\
    let submitted := total (submits o) xs ls in let completed := total (fun _ => completes o) xs ls in let taken := total (cancels o) xs ls in
    (completed <= submitted <= completed + taken + 1)%nat /\ (at_rest m' -> submitted <= completed + taken)%nat.
Proof.
  intros Hg Hf Ho.
  destruct (steps_balanced _ xs (Machine s Resting) no_requests o Hg (fresh_represents s Hf) Ho I) as (ls & m' & a' & H1 & Hr & Hp & L1 & L2).
  exists ls, m'. split; [done|]. cbv zeta. change (underway no_requests o) with 0%nat in *. change (taken_back no_requests o) with 0%nat in *.
  assert (underway a' o <= 1)%nat by (unfold underway; repeat case_match; lia). split; [lia|]. intros Hrest.
  pose proof (rest_idle _ _ _ o Hr Hrest Hp). lia.
Qed.
End sessions.
