(* ===== verification/UsbReqRaw.v ===== *)
(** * UsbReqRaw: the synchronous calls of the expert mode

    A bulk or interrupt transfer from the call to its return, with the kernel's
    part in between: what it returns, what is in the buffer then, and that nothing
    of it stays behind. *)
From S2P Require Import Prelude Hdf UsbDesc UsbDescFacts UsbPool UsbReq UsbReqApi UsbReqUse UsbReqFacts UsbReqFill UsbReqRel UsbReqSteps UsbReqSend.
Open Scope Z_scope.

Section raw.
Context {HS : HdfStatus} {HL : HdfStatusLaws} {US : UsbStatus} {UL : UsbStatusLaws} {IS : IoStatus} {IL : IoStatusLaws} {RA : RamAlloc} {SZ : UsbSizes} {RZ : ReqSizes} {RL : ReqSizesLaws}
  {K : Type} {HA : HostAdapter K} {UK : UrbKernel}.
Implicit Types (h : Host K) (R : gmap Z UsbHostRequest) (O : gmap nat UsbIfRequest) (U : gmap nat (list UsbAdapterUrb)).
Abbreviation I := (Prog (Io K)).

(** The call; when it waits, the kernel finishes the URB, the thread that reaps it
    wakes the caller, and the call goes on.  The URB has no object of a client. *)
Definition raw_transfer (ty r : Z) (d : nat) (rd : UsbRequestData) (st n : Z) (data : list Z) : I (Z * Z) :=
  '(ret, f) ← (if ty =? USB_PIPE_TYPE_BULK then RawSendBulkRequest r (Some d) rd else RawSendInterruptRequest r (Some d) rd);
  match f with
  | None => mret (ret, 0)
  | Some f => a ← kernel_finishes 0 st n data; RawHandleRequest (Some d) a;; HandleSyncRequestCompletion r f false
  end.

(** The request just before it is submitted, and its URB. *)
Definition raw_bytes (rd : UsbRequestData) : list Z :=
  if UsbEndpointDirOut (rd_endPoint rd) then source (rd_data rd) (rd_length rd) else [].
Definition raw_filled (ty : Z) (d f : nat) (rd : UsbRequestData) (q : UsbHostRequest) : UsbHostRequest :=
  set_hr_sem (Some 0) (set_hr_userCallback None (set_hr_callback (Some SyncRequestCallback_cb)
    (set_hr_userData (CompletedVar f) (set_hr_length (rd_length rd) (set_hr_timeout (rd_timeout rd) (set_hr_requestType ty
      (set_hr_endPoint (rd_endPoint rd) (set_hr_devHandle (Some d) (set_hr_buffer (splice 0 (raw_bytes rd) (hr_buffer q)) q))))))))).
Definition raw_urb (ty r : Z) (d f : nat) (rd : UsbRequestData) (q : UsbHostRequest) (u : UsbAdapterUrb) : UsbAdapterUrb :=
  urb_for (bulk_urb_type ty) r (raw_filled ty d f rd q) u.

(** A request as [RawAllocRequest] made it, not in use, and a call that fits. *)
Record raw_ready (s : Io K) (ty r : Z) (d : nat) (rd : UsbRequestData) (n : Z) (data : list Z) (q : UsbHostRequest) (b : nat) (u : UsbAdapterUrb) : Prop := RawReady {
  rr_type : ty = USB_PIPE_TYPE_BULK \/ ty = USB_PIPE_TYPE_INTERRUPT;
  rr_open : handle_open d (kernel (host s)) = true;
  rr_request : requests s !! r = Some q;
  rr_bulk : hr_bulkUrb q = Some b;
  rr_urb : urb_blocks s !! b = Some [u];
  rr_private : hr_privateObj q = None;
  rr_space : spacious q;
  rr_length : 0 < rd_length rd <= hr_bufLen q /\ rd_length rd <= MAX_BULK_DATA_BUFFER_LENGTH;
  rr_source : UsbEndpointDirOut (rd_endPoint rd) = true -> source_ok (rd_data rd) (rd_length rd) = true;
  rr_frame : frames s !! next_frame s = None;
  rr_held : take_held 0 (held s) = None;
  rr_done : 0 <= n <= rd_length rd;
  rr_data : Z.of_nat (length data) <= rd_length rd;
}.

(** The bytes of the call are copied into the buffer. *)
Lemma raw_copy_runs h R O U P g F nf hl hi r q rd (Q : Z -> Io K -> Prop) :
  R !! r = Some q -> spacious q -> 0 < rd_length rd <= hr_bufLen q ->
  (UsbEndpointDirOut (rd_endPoint rd) = true -> source_ok (rd_data rd) (rd_length rd) = true) ->
  Q 0 (mkIo h (<[r := set_hr_buffer (splice 0 (raw_bytes rd) (hr_buffer q)) q]> R) O U P g F nf hl hi) ->
  runs (if UsbEndpointDirOut (rd_endPoint rd) then memcpy_s (r, 0) (u64 (hr_bufLen q)) (rd_data rd) (rd_length rd) else mret 0)
    (mkIo h R O U P g F nf hl hi) Q.
Proof.
  intros Er Hs Hl Hsrc HQ. pose proof Hs as [S1 S2]. unfold raw_bytes in HQ. destruct (UsbEndpointDirOut (rd_endPoint rd)).
  - destruct (source_length _ _ (Hsrc eq_refl) ltac:(lia)) as (bs & Eb & Hbs & Es). rewrite Es in HQ. rewrite Eb.
    eapply runs_memcpy; [exact Er | lia | rewrite u64_size by done; lia.. | lia | lia |]. exact HQ.
  - rewrite splice_nil in HQ. replace (set_hr_buffer (hr_buffer q) q) with q in HQ by (by destruct q). rewrite insert_id in HQ by done.
    by apply runs_ret.
Qed.
Lemma raw_type ty : ty = USB_PIPE_TYPE_BULK \/ ty = USB_PIPE_TYPE_INTERRUPT -> ty = USB_REQUEST_TYPE_BULK \/ ty = USB_REQUEST_TYPE_INTERRUPT.
Proof. by intros [-> | ->]; [left | right]. Qed.

(** A completion sets the caller's variable and wakes it, and the call ends. *)
Lemma sync_callback_runs h R O U P g F nf hl hi r q f v n st (Q : Z -> Io K -> Prop) :
  R !! r = Some q -> hr_callback q = Some SyncRequestCallback_cb -> hr_userData q = CompletedVar f -> F !! f = Some v -> hr_sem q = Some n ->
  Q HDF_SUCCESS (mkIo h (<[r := set_hr_sem (Some (n + 1)) (set_hr_status st q)]> R) O U P g (<[f := 1]> F) nf hl hi) ->
  runs (RawHandleRequestCompletion r st) (mkIo h R O U P g F nf hl hi) Q.
Proof.
  intros Er Ec Eu Ef Es HQ. unfold RawHandleRequestCompletion. run. rewrite Ec. unfold SyncRequestCallback. run. rewrite Eu. run. rewrite Ef.
  unfold OsalSemPost. run. rewrite Es. run. rewrite insert_insert_eq. exact HQ.
Qed.
Lemma sync_wait_runs h R O U P g F nf hl hi r q f (Q : Z * Z -> Io K -> Prop) :
  R !! r = Some q -> hr_sem q = Some 1 ->
  Q (sync_result (hr_status q) HDF_SUCCESS, hr_actualLength q) (mkIo h (<[r := set_hr_sem None q]> R) O U P g (delete f F) nf hl hi) ->
  runs (HandleSyncRequestCompletion r f false) (mkIo h R O U P g F nf hl hi) Q.
Proof.
  intros Er Es HQ. unfold HandleSyncRequestCompletion, sync_waited, sem_taken, OsalSemDestroy, end_frame. run. rewrite Es. run.
  change (0 <? 1) with true. run. rewrite insert_insert_eq. exact HQ.
Qed.

(** From the kernel to the return of the call. *)
Lemma raw_wait_runs h R O U P g F nf hl hi r q d f v b w st n data hl' (Q : Z * Z -> Io K -> Prop) :
  handle_open d (kernel h) = true -> R !! r = Some q -> (hr_requestType q = USB_REQUEST_TYPE_BULK \/ hr_requestType q = USB_REQUEST_TYPE_INTERRUPT) ->
  hr_callback q = Some SyncRequestCallback_cb -> hr_userData q = CompletedVar f -> F !! f = Some v -> hr_sem q = Some 0 ->
  hr_urbs q = Urbs b -> hr_numUrbs q = 1 -> hr_numRetired q = 0 -> hr_actualLength q = 0 -> hr_reqStatus q = USB_REQUEST_COMPLETED ->
  U !! b = Some [w] -> urb_buffer w = (r, 0) -> urb_userContext w = Some r -> urb_type w <> USB_ADAPTER_URB_TYPE_CONTROL ->
  take_held 0 hl = Some ((b, Datatypes.O), hl') -> Z.of_nat (length data) <= Z.of_nat (length (hr_buffer q)) -> 0 <= n < 2 ^ 31 ->
  (forall q' U' ev, hr_sem q' = None -> hr_buffer q' = splice 0 data (hr_buffer q) ->
     Q (sync_result (bulk_status st) HDF_SUCCESS, n) (mkIo h (<[r := q']> R) O U' P g (delete f F) nf hl' (hi ++ ev))) ->
  runs (a ← kernel_finishes 0 st n data; RawHandleRequest (Some d) a;; HandleSyncRequestCompletion r f false) (mkIo h R O U P g F nf hl hi) Q.
Proof.
  intros Ho Er Ety Ec Eu Ef Es Eurb En1 En2 Ea Est Ew Ewb Ewc Ewt Eh Hlen Hn HQ. io.
  eapply (kernel_finishes_to _ _ _ _ _ _ _ _ _ _ _ b hl' w r q 0); [done | done | done | done | by rewrite (proj2 (Z.eqb_neq _ _)) | lia |].
  unfold RawHandleRequest, AdapterUrbCompleteHandle. run. change (urb_userContext (done_urb st n w)) with (urb_userContext w). rewrite Ewc. run.
  assert (forall m Q, runs (OsBulkCompletion r b 0) m Q ->
    runs (if hr_requestType q =? USB_REQUEST_TYPE_CONTROL then OsControlCompletion r b 0
          else if hr_requestType q =? USB_REQUEST_TYPE_ISOCHRONOUS then OsIsoCompletion r b 0
          else if (hr_requestType q =? USB_REQUEST_TYPE_BULK) || (hr_requestType q =? USB_REQUEST_TYPE_INTERRUPT)
          then OsBulkCompletion r b 0 else mret HDF_FAILURE) m Q) as Hty.
  { intros m Q' Hm. by destruct Ety as [-> | ->]. }
  apply Hty. clear Hty.
  eapply OsBulkCompletion_to; [apply lookup_insert_eq | apply lookup_insert_eq | done | done | done | done | done | exact Hn|].
  cbv zeta. cbn [hr_reqStatus set_hr_buffer]. rewrite Est, bool_decide_true by done.
  eapply sync_callback_runs; [apply lookup_insert_eq | exact Ec | exact Eu | exact Ef | exact Es|].
  eapply sync_wait_runs; [apply lookup_insert_eq | done|]. rewrite !insert_insert_eq, delete_insert_eq. by apply HQ.
Qed.

(** Up to the wait. *)
Lemma raw_send_runs h R O U P g F nf hl hi r q d rd ty b u (Q : Z * option nat -> Io K -> Prop) :
  (ty = USB_PIPE_TYPE_BULK \/ ty = USB_PIPE_TYPE_INTERRUPT) -> handle_open d (kernel h) = true -> R !! r = Some q ->
  hr_bulkUrb q = Some b -> U !! b = Some [u] -> hr_privateObj q = None -> spacious q ->
  0 < rd_length rd <= hr_bufLen q -> rd_length rd <= MAX_BULK_DATA_BUFFER_LENGTH ->
  (UsbEndpointDirOut (rd_endPoint rd) = true -> source_ok (rd_data rd) (rd_length rd) = true) -> F !! nf = None ->
  (forall q1 u1 bytes, q1 = raw_filled ty d nf rd q -> u1 = raw_urb ty r d nf rd q u -> bytes = take (Z.to_nat (rd_length rd)) (hr_buffer q1) ->
   if sem_init hi then
     let a := submiturb (hi ++ [SemInit true]) d u1 bytes in let hi' := (hi ++ [SemInit true]) ++ [Submitted 0 u1 bytes a] in
     match a with
     | None => Q (HDF_SUCCESS, Some nf) (mkIo h (<[r := bulk_ready b q1]> R) O (<[b := [u1]]> U) P g (<[nf := 0]> F) (S nf) (hl ++ [(Datatypes.O, (b, Datatypes.O))]) hi')
     | Some _ => Q (HDF_ERR_IO, None) (mkIo h (<[r := set_hr_sem None (bulk_ready b q1)]> R) O (<[b := [u1]]> U) P g F (S nf) hl hi')
     end
   else forall R', Q (HDF_FAILURE, None) (mkIo h R' O U P g F (S nf) hl (hi ++ [SemInit false]))) ->
  runs (HandleSyncRequest r d rd ty) (mkIo h R O U P g F nf hl hi) Q.
Proof.
  intros Hty Ho Er Eb Eu Ep Hs Hl1 Hl2 Hsrc Ef HQ. specialize (HQ _ _ _ eq_refl eq_refl eq_refl).
  unfold HandleSyncRequest, new_frame. run. eapply raw_copy_runs; [done..|]. change (0 =? 0) with true. run.
  unfold raw_submit_sync, OsalSemInit. pose proof us_success as Es. pose proof us_failure. pose proof us_io.
  destruct (sem_init hi) eqn:Esem; run; rewrite Esem; run.
  - rewrite (proj2 (Z.eqb_eq _ _)) by done. run. unfold RawSubmitRequest. rewrite !insert_insert_eq.
    change (set_hr_sem (Some 0) _) with (raw_filled ty d nf rd q).
    eapply (submit_bulk_ok _ _ _ _ _ _ _ _ _ _ r (raw_filled ty d nf rd q) b u d); [apply lookup_insert_eq | by apply raw_type | done | done | done | done | split; [apply Hl1 | exact Hl2] |].
    cbv zeta in HQ |- *. assert (hr_privateObj (raw_filled ty d nf rd q) = None) as -> by exact Ep. assert (hr_requestType (raw_filled ty d nf rd q) = ty) as -> by done.
    change (urb_for (bulk_urb_type ty) r (raw_filled ty d nf rd q) u) with (raw_urb ty r d nf rd q u). cbn [default].
    change (sent_bytes (raw_filled ty d nf rd q)) with (take (Z.to_nat (rd_length rd)) (hr_buffer (raw_filled ty d nf rd q))).
    destruct (submiturb (hi ++ [SemInit true]) d _ _) as [e|]; cbn [taken_up].
    + rewrite (proj2 (Z.ltb_lt _ _)) by lia. unfold OsalSemDestroy, end_frame. run. rewrite delete_insert_id, !insert_insert_eq by done. exact HQ.
    + rewrite (proj2 (Z.ltb_ge _ _)) by lia. run. rewrite insert_insert_eq. exact HQ.
  - rewrite (proj2 (Z.eqb_neq _ _)) by lia. unfold end_frame. run. rewrite delete_insert_id by done. apply HQ.
Qed.

(** C18: a synchronous bulk or interrupt transfer offers one URB with the length and
    the bytes of the call.  When the kernel takes it, the call returns what the
    status of the URB stands for and the number of bytes that were transferred,
    the bytes of the device are at the start of the buffer, and the semaphore and
    the variable it waited with are gone; when it does not, so are they. *)
Theorem raw_transfer_served (s : Io K) ty r d rd st n data q b u :
  raw_ready s ty r d rd n data q b u ->
  let f := next_frame s in let q1 := raw_filled ty d f rd q in let u1 := raw_urb ty r d f rd q u in
  let bytes := take (Z.to_nat (rd_length rd)) (hr_buffer q1) in
  runs (raw_transfer ty r d rd st n data) s (fun '(ret, len) s' =>
    frames s' = frames s /\ held s' = held s /\ host s' = host s /\
    if sem_init (history s) then
      (exists ev, history s' = history s ++ SemInit true :: Submitted 0 u1 bytes (submiturb (history s ++ [SemInit true]) d u1 bytes) :: ev) /\
      (exists q', requests s' = <[r := q']> (requests s) /\ hr_sem q' = None /\
        match submiturb (history s ++ [SemInit true]) d u1 bytes with
        | None => ret = sync_result (bulk_status st) HDF_SUCCESS /\ len = n /\ hr_buffer q' = splice 0 data (hr_buffer q1)
        | Some _ => ret = HDF_ERR_IO /\ len = 0
        end)
    else ret = HDF_FAILURE /\ len = 0).
Proof.
  intros [H1 H2 H3 H4 H5 H6 H7 [H8 H9] H10 H11 H12 H13 H14]. destruct s as [h R O U P g F nf hl hi]. cbn [host requests objects urb_blocks frames next_frame held history] in *.
  cbv zeta. unfold raw_transfer. io.
  assert (forall m Q, runs (HandleSyncRequest r d rd ty) m Q ->
    runs (if ty =? USB_PIPE_TYPE_BULK then RawSendBulkRequest r (Some d) rd else RawSendInterruptRequest r (Some d) rd) m Q) as Hsend.
  { intros m Q. by destruct H1 as [-> | ->]. }
  apply Hsend. clear Hsend. eapply raw_send_runs; [done..|]. intros q1 u1 bytes Eq Eu Eb. rewrite <- Eq, <- Eu, <- Eb.
  destruct (sem_init hi); [|intros R'; by run]. cbv zeta. destruct (submiturb (hi ++ [SemInit true]) d u1 bytes) as [e|].
  - run. do 3 (split; [done|]). split; [exists []; by rewrite <- app_assoc|]. eexists. split; [reflexivity|]. done.
  - assert (hr_buffer q1 = splice 0 (raw_bytes rd) (hr_buffer q)) as Ebuf by (by rewrite Eq).
    assert (length (hr_buffer q1) = length (hr_buffer q)) as Elen.
    { rewrite Ebuf. apply length_splice. unfold raw_bytes. destruct H7 as [S1 S2].
      destruct (UsbEndpointDirOut (rd_endPoint rd)); cbn; [|lia]. unfold source. rewrite length_take. lia. }
    assert (hr_requestType q1 = ty /\ hr_callback q1 = Some SyncRequestCallback_cb /\ hr_userData q1 = CompletedVar nf /\ hr_sem q1 = Some 0) as (Q1 & Q2 & Q3 & Q4)
      by (by rewrite Eq).
    assert (urb_buffer u1 = (r, 0) /\ urb_userContext u1 = Some r /\ urb_type u1 <> USB_ADAPTER_URB_TYPE_CONTROL) as (U1 & U2 & U3).
    { rewrite Eu. split; [done|]. split; [done|]. by destruct H1 as [-> | ->]. }
    destruct H7 as [S1 S2]. eapply (raw_wait_runs _ _ _ _ _ _ _ _ _ _ r (bulk_ready b q1) d nf 0 b u1); try done; try apply lookup_insert_eq.
    + change (hr_requestType (bulk_ready b q1)) with (hr_requestType q1). rewrite Q1. by apply raw_type.
    + by apply take_held_last.
    + change (hr_buffer (bulk_ready b q1)) with (hr_buffer q1). lia.
    + lia.
    + intros q' U' ev Hsem Hbuf. rewrite delete_insert_id by done. split; [done|]. split; [done|]. split; [done|].
      split; [eexists; by rewrite <- !app_assoc|]. exists q'. rewrite insert_insert_eq. split; [done|]. split; [done|]. split; [done|]. split; [done|]. exact Hbuf.
Qed.
End raw.
