(* ===== verification/UsbReqErrors.v ===== *)
(** * UsbReqErrors: where the request code goes wrong

    Calls outside the rules of [UsbReqUse], which the code does not refuse. *)
From S2P Require Import Prelude Hdf UsbDesc UsbDescFacts UsbPool UsbReq UsbReqApi UsbReqUse UsbReqFacts UsbReqFill UsbReqRel UsbReqSteps UsbReqAlloc UsbReqSend.
Open Scope Z_scope.

Section errors.
Context {HS : HdfStatus} {HL : HdfStatusLaws} {US : UsbStatus} {UL : UsbStatusLaws} {IS : IoStatus} {IL : IoStatusLaws} {RA : RamAlloc} {SZ : UsbSizes} {RZ : ReqSizes} {RL : ReqSizesLaws}
  {K : Type} {HA : HostAdapter K} {UK : UrbKernel} {KL : UrbKernelLaws}.
Implicit Types (h : Host K) (R : gmap Z UsbHostRequest) (O : gmap nat UsbIfRequest) (U : gmap nat (list UsbAdapterUrb)).

(** A program that ends in undefined behaviour. *)
Definition undefined {S A} (m : Prog S A) (s : S) : Prop := m s = Undefined.
Lemma undefined_next {S A B} (m : Prog S A) (k : A -> Prog S B) s : runs m s (fun a s' => undefined (k a) s') -> undefined (m ≫= k) s.
Proof. unfold runs, undefined, mbind, P_bind. by destruct (m s) as [[a s']| |]. Qed.
Lemma undefined_first {S A B} (m : Prog S A) (k : A -> Prog S B) s : undefined m s -> undefined (m ≫= k) s.
Proof. unfold undefined, mbind, P_bind. by intros ->. Qed.

(** ** Isochronous requests *)

(** The packets are in order: no packet is too long, and together they fit. *)
Definition iso_sum (l : list UsbIsoPacketDesc) : Z := fold_right (fun p n => iso_length p + n) 0 l.
Lemma iso_sum_nonneg l : Forall (fun x => 0 <= iso_length x <= MAX_ISO_DATA_BUFFER_LEN) l -> 0 <= iso_sum l.
Proof. unfold iso_sum. induction 1; cbn in *; lia. Qed.

Lemma iso_total_runs n i t R r q (s : Io K) (Q : Z * Z -> Io K -> Prop) :
  requests s = R -> R !! r = Some q -> (i + n <= length (hr_isoPacketDesc q))%nat ->
  Forall (fun p => 0 <= iso_length p <= MAX_ISO_DATA_BUFFER_LEN) (hr_isoPacketDesc q) ->
  0 <= t -> t + iso_sum (take n (drop i (hr_isoPacketDesc q))) < 2 ^ 32 ->
  Q (HDF_SUCCESS, t + iso_sum (take n (drop i (hr_isoPacketDesc q)))) s -> runs (iso_total n i r t) s Q.
Proof.
  intros Es Er. revert i t. induction n as [|n IH]; intros i t Hi Hall Ht Hs HQ; cbn [iso_total].
  { apply runs_ret. rewrite take_0 in HQ. cbn in HQ. by rewrite Z.add_0_r in HQ. }
  destruct (lookup_lt_is_Some_2 (hr_isoPacketDesc q) i ltac:(lia)) as [x Hx].
  apply runs_bind. eapply runs_host_request; [by rewrite Es|]. apply runs_bind. eapply runs_must; [exact Hx|].
  pose proof (proj1 (Forall_lookup _ _) Hall _ _ Hx) as [H1 H2]. rewrite (proj2 (Z.ltb_ge _ _)) by done.
  rewrite (drop_S _ _ _ Hx) in Hs, HQ. cbn [take iso_sum fold_right] in Hs, HQ. fold (iso_sum (take n (drop (S i) (hr_isoPacketDesc q)))) in Hs, HQ.
  assert (0 <= iso_sum (take n (drop (S i) (hr_isoPacketDesc q)))) as Hpos.
  { by apply iso_sum_nonneg, Forall_take, Forall_drop. }
  rewrite u32_id by lia. apply IH; [lia | done | lia | lia|]. by rewrite <- Z.add_assoc.
Qed.

(** There is no room for the first packet. *)
Lemma alloc_iso_undefined n r k q p l h R O U P g F nf hl hi :
  ram_granted -> R !! r = Some q -> hr_isoPacketDesc q = p :: l -> 0 < k ->
  undefined (alloc_iso (S n) 0 r k 0 0) (mkIo h R O U P g F nf hl hi).
Proof.
  intros Hg Er El Hk. cbn [alloc_iso]. apply undefined_next. run. apply undefined_next. run. apply undefined_first.
  set (q' := match hr_urbs q with IsoUrbs _ _ => _ | _ => _ end). assert (hr_isoPacketDesc q' = p :: l) as Eq' by (unfold q'; by destruct (hr_urbs q)).
  destruct (Z.to_nat (k `min` MAX_ISO_PACKETS_PER_URB)) as [|m] eqn:Em; [unfold MAX_ISO_PACKETS_PER_URB in Em; lia|].
  cbn [iso_packets]. apply undefined_next. run. rewrite Eq'. apply undefined_next. run. apply undefined_next. run. apply undefined_next. run. done.
Qed.

(** Every isochronous request whose packets are in order runs into undefined
    behaviour: the URB is allocated without room for the lengths of its packets,
    which are written behind it. *)
Lemma iso_undefined (s : Io K) r q d p l :
  ram_granted -> requests s !! r = Some q -> hr_requestType q = USB_REQUEST_TYPE_ISOCHRONOUS -> hr_devHandle q = Some d ->
  hr_isoPacketDesc q = p :: l -> hr_numIsoPackets q = Z.of_nat (length (p :: l)) -> hr_numIsoPackets q < 2 ^ 16 ->
  Forall (fun x => 0 <= iso_length x <= MAX_ISO_DATA_BUFFER_LEN) (p :: l) -> iso_sum (p :: l) <= hr_length q <= MAX_ISO_DATA_BUFFER_LEN ->
  AdapterSubmitRequest r s = Undefined.
Proof.
  intros Hg Er Ety Ed El En Hmax Hall Hsum. destruct s as [h R O U P g F nf hl hi]. cbn in Er. fold (undefined (AdapterSubmitRequest r) (mkIo h R O U P g F nf hl hi)).
  assert (0 < hr_numIsoPackets q) as Hpos by (rewrite En; cbn; lia). unfold MAX_ISO_DATA_BUFFER_LEN in *.
  unfold AdapterSubmitRequest. apply undefined_next. run. apply undefined_next. run. rewrite Ety.
  change (USB_REQUEST_TYPE_ISOCHRONOUS =? USB_REQUEST_TYPE_CONTROL) with false. change (USB_REQUEST_TYPE_ISOCHRONOUS =? USB_REQUEST_TYPE_ISOCHRONOUS) with true.
  cbn iota. unfold OsSubmitIsoRequest. apply undefined_next. run. rewrite Ed, bool_decide_false by done.
  cbn [orb].
  rewrite (proj2 (Z.ltb_ge _ 1)) by lia. unfold MAX_ISO_DATA_BUFFER_LEN at 1. rewrite (proj2 (Z.ltb_ge _ _)) by lia. apply undefined_next.
  set (q0 := set_hr_actualLength 0 q). assert (take (Z.to_nat (hr_numIsoPackets q)) (drop 0 (hr_isoPacketDesc q0)) = p :: l) as Etake.
  { cbn [q0]. rewrite drop_0. unfold q0. cbn. rewrite El, En, Nat2Z.id. by rewrite firstn_all. }
  eapply iso_total_runs; [reflexivity | apply lookup_insert_eq | | | | |].
  - unfold q0. cbn. rewrite El, En. lia.
  - unfold q0. cbn. by rewrite El.
  - lia.
  - rewrite Etake. lia.
  - rewrite Etake. rewrite us_success. change (negb (0 =? 0)) with false. cbn iota. pose proof (iso_sum_nonneg _ Hall). rewrite u32_id by lia. rewrite (proj2 (Z.ltb_ge _ _)) by lia.
    assert (i32 (hr_numIsoPackets q + (MAX_ISO_PACKETS_PER_URB - 1)) = hr_numIsoPackets q + 127) as -> by (unfold MAX_ISO_PACKETS_PER_URB; apply i32_id; lia).
    set (k := (hr_numIsoPackets q + 127) / MAX_ISO_PACKETS_PER_URB).
    assert (1 <= k) as Hk by (unfold k, MAX_ISO_PACKETS_PER_URB; apply Z.div_le_lower_bound; lia). pose proof rz_pointer.
    apply undefined_next. eapply runs_take_memory; [done | nia|]. cbn iota. apply undefined_next. run. apply undefined_first.
    unfold OsAllocIsoUrbs. apply undefined_next. run. unfold q0. cbn [hr_numIsoPackets].
    replace (Z.to_nat k) with (S (pred (Z.to_nat k))) by lia. eapply alloc_iso_undefined; [done | apply lookup_insert_eq | done | done].
Qed.

(** ** Memory that is too small *)

(** Only the length of the buffer is mapped.  When the structure in front of it
    does not fit into the rest of the last page, the buffer reaches beyond. *)
Lemma short_mapping (s : Io K) d n :
  ram_granted -> handle_open d (kernel (host s)) = true -> 0 < n < 2 ^ 31 -> pages n * page_size < sizeof_UsbHostRequest + n ->
  sizeof_UsbHostRequest < 2 ^ 32 ->
  runs (AdapterAllocRequest (Some d) 0 n) s (fun a s' => forall r, a = Some r ->
    exists q, requests s' !! r = Some q /\ hr_bufLen q = n /\ Z.of_nat (length (hr_buffer q)) < n).
Proof.
  intros Hg Ho Hn Hp Hs. destruct s as [h R O U P g F nf hl hi]. cbn in Ho.
  assert (request_size 0 n = sizeof_UsbHostRequest + n) as Esz.
  { unfold request_size, sizeof_UsbIsoPacketDesc. change (u64 0) with 0. replace (sizeof_UsbHostRequest + 12 * 0 + n) with (sizeof_UsbHostRequest + n) by lia.
    pose proof rz_request. apply Z.mod_small. lia. }
  unfold AdapterAllocRequest. run. rewrite Esz. destruct (mmap hi _ n) as [r|]; run; [|done].
  intros ? [= <-]. eexists. split; [apply lookup_insert_eq|]. cbn. split; [apply i32_id; lia|]. rewrite length_replicate. lia.
Qed.

(** Freeing such a request removes the pages behind its mapping as well: the
    request that starts there is gone, whoever it belongs to. *)
Lemma neighbour_unmapped (s : Io K) r q b r2 :
  requests s !! r = Some q -> hr_bulkUrb q = Some b -> b ∈ ram_live (ram (host s)) -> hr_numIsoPackets q = 0 ->
  0 < hr_bufLen q < 2 ^ 31 -> sizeof_UsbHostRequest < 2 ^ 32 ->
  r + pages (hr_bufLen q) <= r2 < r + pages (sizeof_UsbHostRequest + hr_bufLen q) ->
  runs (AdapterFreeRequest (Some r)) s (fun ret s' => ret = HDF_SUCCESS /\ requests s' !! r2 = None).
Proof.
  intros Er Eb Hb Ei Hn Hs Hr2. destruct s as [h R O U P g F nf hl hi]. cbn in Er, Hb.
  assert (request_size 0 (u64 (hr_bufLen q)) = sizeof_UsbHostRequest + hr_bufLen q) as Esz.
  { unfold u64 at 1. rewrite Z.mod_small by lia. unfold request_size, sizeof_UsbIsoPacketDesc. change (u64 0) with 0.
    replace (sizeof_UsbHostRequest + 12 * 0 + hr_bufLen q) with (sizeof_UsbHostRequest + hr_bufLen q) by lia. pose proof rz_request. apply Z.mod_small. lia. }
  unfold AdapterFreeRequest. run. rewrite Eb. run. eapply runs_free_urb; [done|]. run. rewrite Ei, Esz. pose proof rz_request.
  rewrite munmap_works by lia. run. split; [done|]. apply map_lookup_filter_None. right. intros q2 _ Hn2. apply Hn2. cbn.
  pose proof (pages_pos (hr_bufLen q) ltac:(lia)). lia.
Qed.

(** The length of a control transfer is not compared with the buffer: the data are
    copied behind its end. *)
Lemma control_fill_overflows (s : Io K) r q d prm c bs :
  requests s !! r = Some q -> cr_reqType c = USB_REQUEST_TYPE_STANDARD \/ cr_reqType c = USB_REQUEST_TYPE_CLASS \/ cr_reqType c = USB_REQUEST_TYPE_VENDOR ->
  cr_directon c = USB_REQUEST_DIR_TO_DEVICE -> cr_buffer c = Some bs -> 0 < cr_length c <= Z.of_nat (length bs) -> cr_length c < 2 ^ 16 ->
  USB_RAW_CONTROL_SETUP_SIZE <= Z.of_nat (length (hr_buffer q)) < USB_RAW_CONTROL_SETUP_SIZE + cr_length c ->
  IfFillControlRequest r (Some d) prm c s = Undefined.
Proof.
  intros Er Ety Ed Eb Hl Hmax Hbuf. destruct s as [h R O U P g F nf hl hi]. cbn in Er. unfold USB_RAW_CONTROL_SETUP_SIZE in *.
  apply undefined_next. unfold UsbProtocalFillControlSetup.
  assert ((cr_reqType c =? USB_REQUEST_TYPE_STANDARD) || (cr_reqType c =? USB_REQUEST_TYPE_CLASS) || (cr_reqType c =? USB_REQUEST_TYPE_VENDOR) = true) as ->.
  { by destruct Ety as [-> | [-> | ->]]. }
  run. eapply runs_write_buffer; [look | lia | cbn; lia|]. run. rewrite us_success, Ed. change (negb (0 =? 0)) with false. cbn iota.
  change (USB_REQUEST_DIR_TO_DEVICE =? USB_REQUEST_DIR_TO_DEVICE) with true. rewrite (proj2 (Z.ltb_lt _ _)) by lia. cbn [andb].
  apply undefined_first. unfold memcpy_s. pose proof is_rsize. unfold USB_RAW_CONTROL_SETUP_SIZE.
  rewrite (proj2 (Z.leb_gt _ _)), (proj2 (Z.ltb_ge _ _)) by lia. cbn [orb]. rewrite Eb.
  rewrite (proj2 (Z.ltb_ge _ _)), (proj2 (Z.ltb_ge _ _)) by lia. apply undefined_first. unfold write_buffer. apply undefined_next.
  eapply runs_host_request; [apply lookup_insert_eq|]. cbn [fst snd hr_buffer set_hr_buffer].
  rewrite length_take, length_splice by (cbn; lia). rewrite (proj2 (Z.leb_gt (8 + _) _)) by lia. done.
Qed.

(** ** The synchronous calls of the expert mode *)

(** Writing to a local variable of a call that has returned. *)
Lemma dead_variable h R O U P g F nf hl hi r q f st :
  R !! r = Some q -> hr_callback q = Some SyncRequestCallback_cb -> hr_userData q = CompletedVar f -> F !! f = None ->
  undefined (RawHandleRequestCompletion r st) (mkIo h R O U P g F nf hl hi).
Proof.
  intros Er Ec Eu Ef. unfold RawHandleRequestCompletion. apply undefined_next. run. apply undefined_next. run. rewrite Ec.
  apply undefined_first. unfold SyncRequestCallback. apply undefined_next. run. rewrite Eu. apply undefined_next. run. rewrite Ef. done.
Qed.

(** C31: after a synchronous control transfer to the device has timed out, the
    completion of its URB, which the kernel still gives back, is undefined: it sets
    a variable of the call that has returned. *)
Theorem raw_timeout_dangling (s : Io K) r q d f v n k w c :
  requests s !! r = Some q -> hr_devHandle q = Some d -> handle_open d (kernel (host s)) = true ->
  hr_requestType q = USB_REQUEST_TYPE_CONTROL -> Z.land (cd_requestType c) USB_DDK_ENDPOINT_DIR_MASK = USB_PIPE_DIRECTION_OUT ->
  hr_callback q = Some SyncRequestCallback_cb -> hr_userData q = CompletedVar f -> frames s !! f = Some v -> hr_sem q = Some n ->
  hr_urbs q = Urbs k -> k ∈ ram_live (ram (host s)) -> urb_blocks s !! k = Some [w] -> urb_userContext w = Some r ->
  runs (ControlRequestCompletion r f c true) s (fun '(ret, _) s' => ret = HDF_ERR_TIMEOUT /\
    forall st len, AdapterUrbCompleteHandle (Some d) (ReapedUrb k 0)
      (set_urb_blocks (<[k := [set_urb_actualLength len (set_urb_status st w)]]> (urb_blocks s')) s') = Undefined).
Proof.
  intros Er Ed Ho Ety Eout Ec Eu Ef Es Eurb Hk Ew Ewc. destruct s as [h R O U P g F nf hl hi]. cbn in Er, Ho, Ef, Hk, Ew.
  unfold ControlRequestCompletion, sync_waited. do 2 io. unfold RawCancelRequest.
  eapply AdapterCancelRequest_runs; [done | done | done | by rewrite Ety|]. rewrite Eurb. intros ev Hev.
  assert (cancelled q = set_hr_reqStatus USB_REQUEST_CANCELLED q) as -> by (unfold cancelled; by rewrite Ety).
  unfold RawHandleRequestCompletion. run. rewrite Ec. unfold SyncRequestCallback. run. rewrite Eu. run. rewrite Ef. unfold OsalSemPost. run. rewrite Es. run.
  rewrite Eout. change (USB_PIPE_DIRECTION_OUT =? USB_PIPE_DIRECTION_IN) with false. run. change (negb (0 =? 0)) with false. cbn iota.
  unfold OsalSemDestroy, end_frame. run. split; [done|]. intros st len. apply undefined_next. run. apply undefined_next. run. apply undefined_next. run.
  rewrite Ewc. apply undefined_next. run. rewrite Ety. change (USB_REQUEST_TYPE_CONTROL =? USB_REQUEST_TYPE_CONTROL) with true. cbn iota.
  unfold OsControlCompletion. apply undefined_next. run. apply undefined_next. run. apply undefined_next. run.
  rewrite bool_decide_true by done. rewrite Eurb. apply undefined_next. unfold free_urbs. eapply runs_free_urb; [done|]. run. apply undefined_next. run.
  eapply dead_variable; [apply lookup_insert_eq | done | done | apply lookup_delete_eq].
Qed.

(** A control transfer from the device is submitted with length zero: nothing of
    its set-up packet reaches the device. *)
Lemma raw_control_in_empty (s : Io K) r q d c :
  ram_granted -> requests s !! r = Some q -> handle_open d (kernel (host s)) = true -> USB_RAW_CONTROL_SETUP_SIZE <= Z.of_nat (length (hr_buffer q)) ->
  Z.land (cd_requestType c) USB_DDK_ENDPOINT_DIR_MASK = USB_PIPE_DIRECTION_IN ->
  sem_init (history s) = true ->
  runs (RawSendControlRequest r (Some d) c) s (fun _ s' => exists o u a,
    history s' = history s ++ [SemInit true; Submitted o u [] a] /\ urb_bufferLength u = 0).
Proof.
  intros Hg Er Ho Hb Hin Hsem. destruct s as [h R O U P g F nf hl hi]. cbn in Er, Ho, Hsem. unfold USB_RAW_CONTROL_SETUP_SIZE in Hb.
  unfold RawSendControlRequest, new_frame, RawFillControlSetup. do 4 io. run. eapply runs_write_buffer; [look | lia | cbn; lia|]. run.
  rewrite Hin. change (USB_PIPE_DIRECTION_IN =? USB_PIPE_DIRECTION_OUT) with false. cbn [andb]. run. change (0 =? 0) with true. run.
  unfold RawFillControlRequest, fill_fields. run. unfold raw_submit_sync, OsalSemInit. run. rewrite Hsem. run. rewrite us_success. change (0 =? 0) with true. run.
  unfold RawSubmitRequest. eapply submit_control_ok; [done | look | done | done | done | cbn; unfold MAX_BULK_DATA_BUFFER_LENGTH; lia|]. cbv zeta.
  set (u' := urb_for _ _ _ _). set (a := submiturb _ _ _ _).
  assert (forall ret s' (Q : Z * option nat -> Io K -> Prop), (forall x s2, history s2 = history s' -> Q x s2) -> (exists q', requests s' !! r = Some q') ->
    runs (if ret <? 0 then OsalSemDestroy r;; end_frame nf;; mret (ret, None) else mret (ret, Some nf)) s' Q) as Hend.
  { intros ret s' Q HQ [q' Hq']. destruct (ret <? 0); [|by apply runs_ret, HQ]. destruct s'. cbn in Hq'. unfold OsalSemDestroy, end_frame. run. by apply HQ. }
  destruct a as [e|].
  - intros ret Hret. apply Hend; [|eexists; apply lookup_insert_eq]. intros x [h2 R2 O2 U2 P2 g2 F2 nf2 hl2 hi2] E. cbn in E |- *. subst hi2. do 3 eexists. split; [by rewrite <- app_assoc | done].
  - apply Hend; [|eexists; apply lookup_insert_eq]. intros x [h2 R2 O2 U2 P2 g2 F2 nf2 hl2 hi2] E. cbn in E |- *. subst hi2. do 3 eexists. split; [by rewrite <- app_assoc | done].
Qed.

(** The answer to a control transfer is copied to the caller whatever room there is. *)
Lemma control_answer_overflows (s : Io K) r q f c data :
  requests s !! r = Some q -> hr_sem q = Some 1 -> Z.land (cd_requestType c) USB_DDK_ENDPOINT_DIR_MASK = USB_PIPE_DIRECTION_IN ->
  cd_data c = Some data -> Z.of_nat (length data) < hr_actualLength q -> 0 <= cd_length c < 2 ^ 16 ->
  USB_RAW_CONTROL_SETUP_SIZE + hr_actualLength q <= Z.of_nat (length (hr_buffer q)) -> hr_actualLength q < 2 ^ 30 ->
  ControlRequestCompletion r f c false s = Undefined.
Proof.
  intros Er Es Hin Ed Hl Hc Hb Hmax. destruct s as [h R O U P g F nf hl hi]. cbn in Er. unfold USB_RAW_CONTROL_SETUP_SIZE in *.
  unfold ControlRequestCompletion, sync_waited, sem_taken. apply undefined_next. run. rewrite Es. run. change (0 <? 1) with true. run.
  apply undefined_next. run. apply undefined_first. rewrite Hin. change (USB_PIPE_DIRECTION_IN =? USB_PIPE_DIRECTION_IN) with true. cbn iota. rewrite Ed.
  pose proof is_rsize. assert (u64 (hr_actualLength q + cd_length c) = hr_actualLength q + cd_length c) as -> by (apply Z.mod_small; lia).
  rewrite (proj2 (Z.eqb_neq _ _)), (proj2 (Z.ltb_ge _ _)) by lia. cbn [orb]. unfold read_buffer, USB_RAW_CONTROL_SETUP_SIZE. cbn [fst snd]. apply undefined_next. run.
  rewrite (proj2 (Z.leb_le 0 _)), (proj2 (Z.leb_le 0 _)), (proj2 (Z.leb_le _ _)) by lia. cbn [andb]. run.
  rewrite (proj2 (Nat.ltb_lt _ _)); [done|]. rewrite length_take, length_drop. lia.
Qed.

(** ** A cancelled control request *)

(** C32: a control request that was cancelled once stays cancelled: submitted again,
    taken by the kernel and finished without error, it is completed as cancelled,
    and still is for the next time. *)
Theorem cancelled_control_sticks (s : Io K) r q d j o x n data :
  ram_granted -> requests s !! r = Some q -> hr_devHandle q = Some d -> handle_open d (kernel (host s)) = true ->
  filled_for j q -> is_control j = true -> j_len j <= MAX_BULK_DATA_BUFFER_LENGTH -> spacious q ->
  hr_reqStatus q = USB_REQUEST_CANCELLED -> hr_privateObj q = Some o -> objects s !! o = Some x -> isSyncReq x = false ->
  (forall u bs, submiturb (history s) d u bs = None) -> take_held o (held s) = None ->
  setup_size j + Z.of_nat (length data) <= j_len j ->
  runs (ret ← AdapterSubmitRequest r; a ← kernel_finishes o 0 n data; AdapterUrbCompleteHandle (Some d) a;; mret ret) s (fun ret s' =>
    ret = HDF_SUCCESS /\
    (exists x', objects s' !! o = Some x' /\ ci_status (compInfo x') = USB_REQUEST_CANCELLED) /\
    (exists q', requests s' !! r = Some q' /\ hr_reqStatus q' = USB_REQUEST_CANCELLED)).
Proof.
  intros Hg Er Ed Ho Hj Hctl Hlen Hsp Est Ep Eo Hsync Hk Hheld Hfit. destruct s as [h R O U P g F nf hl hi]. cbn in Er, Ho, Eo, Hk, Hheld.
  pose proof Hj as [F1 F2 F3 F4 F5 F6 F7 F8 F9]. assert (hr_requestType q = USB_REQUEST_TYPE_CONTROL) as Ety by (rewrite F1; by apply Z.eqb_eq in Hctl).
  io. eapply submit_control_ok; [done | done | done | done | done | lia|]. cbv zeta. rewrite Hk, Ep. change (default Datatypes.O (Some o)) with o. io.
  set (k := ram_next (ram h)). set (u' := urb_for _ _ _ _).
  eapply kernel_finishes_runs; [by apply take_held_last | by rewrite lookup_insert_eq | done | unfold urb_type_of; by rewrite Hctl | | | by rewrite lookup_insert_eq | done |].
  { by eapply filled_same. }
  { by split; apply Hsp. }
  unfold AdapterUrbCompleteHandle. run. change (urb_userContext (done_urb 0 n u')) with (Some r). run.
  change (hr_requestType (with_results j data (control_ready k q))) with (hr_requestType q). rewrite Ety. change (USB_REQUEST_TYPE_CONTROL =? USB_REQUEST_TYPE_CONTROL) with true. cbn iota.
  eapply OsControlCompletion_runs; [look | done | done | done | by rewrite Hsync | look | done | cbn; set_solver |]. cbv zeta. run.
  rewrite bool_decide_true by done. unfold woken. rewrite Hsync. split; [done|]. split.
  - eexists. rewrite lookup_insert_eq. split; [done | done].
  - eexists. rewrite lookup_insert_eq. split; [done | done].
Qed.
End errors.
