(* ===== verification/UsbReqInstance.v ===== *)
(** * UsbReqInstance: requests to a serial adapter

    The device of [UsbPoolInstance], opened, behind a kernel that maps fresh pages
    and refuses every third URB; a session of it, and the theorems of [UsbReqRun],
    [UsbReqRaw] and [UsbReqErrors] applied. *)
From S2P Require Import Prelude Hdf HdfQueue Arrays UsbDesc UsbDescSpec UsbDescFacts UsbDescConfig UsbDescWhole UsbDescRun UsbDescInstance UsbPool UsbPoolFacts UsbPoolOpen UsbPoolRules UsbPoolUse UsbPoolSteps UsbPoolRun UsbPoolSelect UsbPoolErrors UsbPoolInstance UsbReq UsbReqApi UsbReqUse UsbReqFacts UsbReqFill UsbReqRel UsbReqSteps UsbReqSend UsbReqAlloc UsbReqRun UsbReqRaw UsbReqErrors.
Open Scope Z_scope.

#[global] Instance plain_io_status : IoStatus := {
  HDF_DEV_ERR_NO_DEVICE := -202; HDF_ERR_TIMEOUT := -16; copy_refused := 34; RSIZE_MAX := 2 ^ 31 - 1;
}.
#[global] Instance plain_io_status_laws : IoStatusLaws.
Proof. by split. Qed.
#[global] Instance plain_req_sizes : ReqSizes := {
  sizeof_UsbHostRequest := 240; sizeof_UsbAdapterUrb := 56; sizeof_pointer := 8; sizeof_UsbIfRequest := 80; page_size := 4096;
}.
#[global] Instance plain_req_sizes_laws : ReqSizesLaws.
Proof. by split. Qed.

(** ** The kernel *)
Definition is_submitted (e : io_event) : bool := match e with Submitted _ _ _ _ => true | _ => false end.
#[global] Instance plain_kernel : UrbKernel := {
  mmap _ m n := Some (set_fold Z.max 0 m + 1);
  munmap _ _ _ := true;
  submiturb h _ _ _ := if (length (List.filter is_submitted h) mod 3 =? 2)%nat then Some 12 else None;
  handle_caps _ := 0;
  sem_init _ := true;
}.
Lemma below_max (m : gset Z) k : k ∈ m -> k <= set_fold Z.max 0 m.
Proof.
  revert k. apply (set_fold_ind_L (fun a m => forall k, k ∈ m -> k <= a)); [set_solver|].
  intros x X r _ IH k [->%elem_of_singleton | Hk]%elem_of_union; [lia|]. specialize (IH k Hk). lia.
Qed.
#[global] Instance plain_kernel_laws : UrbKernelLaws.
Proof. split; [|done]. cbn. intros _ m n r k [= <-] Hk. pose proof (below_max m k Hk). lia. Qed.

(** ** The open adapter *)
Abbreviation bus := (one_device (config_bytes busy_config)).
Definition pool1 : nat := match ifacePoolList opened_host with p :: _ => pool_block p | [] => O end.
Definition io0 : Io bool := mkIo opened_host ∅ ∅ ∅ {[pool1 := mkPoolIo [] 0 USB_POOL_PROCESS_RUNNING]} 0 ∅ 0 [] [].
(** The types of its pipes. *)
Definition bus_pipes (i q : Z) : option Z :=
  match IfGetRequestPipeType (HA := bus) 7 i q opened_host with
  | Done ((ret, ty), _) => if ret =? HDF_SUCCESS then Some ty else None
  | _ => None
  end.
Lemma bus_pipes_found i q ty : bus_pipes i q = Some ty -> IfGetRequestPipeType (HA := bus) 7 i q opened_host = Done ((HDF_SUCCESS, ty), opened_host).
Proof.
  unfold bus_pipes. destruct (IfGetRequestPipeType 7 i q opened_host) as [[[ret ty'] h']| |] eqn:E; [|done..].
  destruct (Z.eqb_spec ret HDF_SUCCESS) as [->|]; [|done]. intros [= ->].
  by destruct (pipe_type_blind (HA := bus) 7 i q (ram opened_host) opened_host _ _ E) as [-> _].
Qed.
Lemma io0_fresh : fresh_io (HA := bus) pool1 7 bus_pipes [opened_handle] io0.
Proof.
  split; [| | done | done | by vm_compute | done].
  - split; [by vm_compute | by vm_compute | | apply bus_pipes_found].
    intros b ->%list_elem_of_singleton. by exists 1.
  - intros b. cbn. apply (bool_decide_unpack (set_Forall (fun b => b < ram_next (ram opened_host))%nat (ram_live (ram opened_host)))). by vm_compute.
Qed.

(** ** A session *)
Definition write (n : Z) (bs : list Z) : UsbRequestParams :=
  mkParams 1 1 2 (Some 5%nat) (ClientData 9) 100 (USB_REQUEST_PARAMS_DATA_TYPE (mkParamsData 0 USB_REQUEST_DIR_TO_DEVICE (Some bs) n)).
Definition read (n : Z) : UsbRequestParams :=
  mkParams 1 1 2 (Some 6%nat) (ClientData 8) 100 (USB_REQUEST_PARAMS_DATA_TYPE (mkParamsData 0 USB_REQUEST_DIR_FROM_DEVICE None n)).
Definition ask : UsbRequestParams :=
  mkParams 255 0 0 (Some 5%nat) (ClientData 9) 100 (USB_REQUEST_PARAMS_CTRL_TYPE (mkControlRequest 0 2 1 7 1 USB_REQUEST_DIR_FROM_DEVICE None 4)).
Definition b := opened_handle.
(** A write that is refused once and waited for, a read that is cancelled when it
    is with the kernel, a control transfer, and a write cancelled in the queue. *)
Definition session : list move :=
  [Alloc b 16; Alloc b 32; Fill 21 b (write 3 [1; 2; 3]); Fill 23 b (read 8); Submit 23; SyncBegin 21; Take; Examine; Try; Take; Examine;
   Finish 23 0 5 [9; 9; 8; 8; 7]; Try; Finish 21 0 3 []; SyncWoken 21;
   Fill 21 b ask; Submit 21; Take; Examine; Try; Try; Finish 21 0 4 [6; 6; 6; 6]; Submit 23; Take; Examine; Try; Cancel 23; Finish 23 (- ENOENT) 0 [];
   Fill 23 b (write 3 [1; 2; 3]); Submit 23; Cancel 23; Take; Examine; Free 21; Free 23].
Abbreviation run_session xs := (io_steps (RA := all_ram) (HA := bus) pool1 7 xs (Machine io0 Resting)).

Lemma session_obedient : obedient (RA := all_ram) (HA := bus) pool1 7 bus_pipes [b] session (Machine io0 Resting) no_requests = true.
Proof. by vm_compute. Qed.

Lemma requests_served_witness :
  exists ls m' a', run_session session = Done (ls, m') /\ spec_steps bus_pipes session ls no_requests = Some a'.
Proof.
  exact (requests_served (RA := all_ram) (HA := bus) pool1 7 bus_pipes [b] session io0 all_ram_granted io0_fresh session_obedient).
Defined.

(** What the kernel and the clients see of the session. *)
Definition seen_in (xs : list move) : list seen := match run_session xs with Done (ls, _) => concat ls | _ => [] end.
Definition is_io (e : seen) : bool := match e with Offered _ _ _ _ _ _ | Done_ _ _ _ _ _ _ _ => true | _ => false end.
Example session_seen : List.filter is_io (seen_in session) =
  [Offered 23 USB_ADAPTER_URB_TYPE_BULK 130 8 [0; 0; 0; 0; 0; 0; 0; 0] true;
   Done_ 23 (Some 6%nat) USB_REQUEST_COMPLETED 8 5 (ClientData 8) [9; 9; 8; 8; 7];
   Offered 21 USB_ADAPTER_URB_TYPE_BULK 2 3 [1; 2; 3] true;
   Done_ 21 (Some 5%nat) USB_REQUEST_COMPLETED 3 3 (ClientData 9) [1; 2; 3];
   Offered 21 USB_ADAPTER_URB_TYPE_CONTROL 128 12 [192; 7; 1; 0; 1; 0; 4; 0; 0; 0; 0; 0] false;
   Offered 21 USB_ADAPTER_URB_TYPE_CONTROL 128 12 [192; 7; 1; 0; 1; 0; 4; 0; 0; 0; 0; 0] true;
   Done_ 21 (Some 5%nat) USB_REQUEST_COMPLETED 12 4 (ClientData 9) [6; 6; 6; 6];
   Offered 23 USB_ADAPTER_URB_TYPE_BULK 130 8 [9; 9; 8; 8; 7; 0; 0; 0] true;
   Done_ 23 (Some 6%nat) USB_REQUEST_CANCELLED 8 0 (ClientData 8) []].
Proof. by vm_compute. Qed.

Lemma session_freed : match run_session session with Done (_, m) => bool_decide (objects (io m) = ∅) | _ => false end = true.
Proof. by vm_compute. Qed.
Lemma requests_released_witness :
  exists ls m', run_session session = Done (ls, m') /\
    requests (io m') = ∅ /\ held (io m') = [] /\ ram_live (ram (host (io m'))) = ram_live (ram (host io0)).
Proof.
  destruct (requests_released (RA := all_ram) (HA := bus) pool1 7 bus_pipes [b] session io0 all_ram_granted io0_fresh session_obedient) as (ls & m' & E & H).
  exists ls, m'. split; [exact E|]. apply H.
  pose proof session_freed as Hc. rewrite E in Hc. by apply bool_decide_eq_true in Hc.
Defined.

Lemma requests_well_formed_witness : exists ls m', run_session session = Done (ls, m') /\ io_wf pool1 7 (io m').
Proof.
  exact (requests_well_formed (RA := all_ram) (HA := bus) pool1 7 bus_pipes [b] session io0 all_ram_granted io0_fresh session_obedient).
Defined.

Lemma completed_once_witness :
  exists ls m', run_session session = Done (ls, m') /\
    let submitted := total (submits 23) session ls in let completed := total (fun _ => completes 23) session ls in let taken := total (cancels 23) session ls in
    (completed <= submitted <= completed + taken + 1)%nat /\ (at_rest pool1 m' -> submitted <= completed + taken)%nat.
Proof.
  exact (completed_once (RA := all_ram) (HA := bus) pool1 7 bus_pipes [b] session io0 23 all_ram_granted io0_fresh session_obedient).
Defined.

(** ** A read of the expert mode *)
Definition raw0 : Io bool := match RawAllocRequest (RA := all_ram) (HA := bus) (Some 7%nat) 0 64 io0 with Done (_, s) => s | _ => io0 end.
Definition raw_request : UsbHostRequest := default (zero_request 0 0) (UsbReq.requests raw0 !! 1).
Definition raw_block : nat := default O (hr_bulkUrb raw_request).
Definition raw_read : UsbRequestData := mkRequestData 130 None 8 100.
Lemma raw_read_ready : raw_ready (HA := bus) raw0 USB_PIPE_TYPE_BULK 1 7 raw_read 3 [5; 6; 7] raw_request raw_block zero_urb.
Proof.
  split; [by left | by vm_compute | by vm_compute | by vm_compute | by vm_compute | by vm_compute | by split; vm_compute | by vm_compute | | by vm_compute..].
  by vm_compute.
Qed.
Lemma raw_transfer_served_witness :
  let f := next_frame raw0 in let q1 := raw_filled USB_PIPE_TYPE_BULK 7 f raw_read raw_request in
  let u1 := raw_urb USB_PIPE_TYPE_BULK 1 7 f raw_read raw_request zero_urb in let bytes := take (Z.to_nat (rd_length raw_read)) (hr_buffer q1) in
  runs (raw_transfer (RA := all_ram) (HA := bus) USB_PIPE_TYPE_BULK 1 7 raw_read 0 3 [5; 6; 7]) raw0 (fun '(ret, len) s' =>
    frames s' = frames raw0 /\ held s' = held raw0 /\ host s' = host raw0 /\
    if sem_init (history raw0) then
      (exists ev, history s' = history raw0 ++ SemInit true :: Submitted 0 u1 bytes (submiturb (history raw0 ++ [SemInit true]) 7 u1 bytes) :: ev) /\
      (exists q', UsbReq.requests s' = <[1 := q']> (UsbReq.requests raw0) /\ hr_sem q' = None /\
        match submiturb (history raw0 ++ [SemInit true]) 7 u1 bytes with
        | None => ret = sync_result (bulk_status 0) HDF_SUCCESS /\ len = 3 /\ hr_buffer q' = splice 0 [5; 6; 7] (hr_buffer q1)
        | Some _ => ret = HDF_ERR_IO /\ len = 0
        end)
    else ret = HDF_FAILURE /\ len = 0).
Proof.
  exact (raw_transfer_served (RA := all_ram) (HA := bus) raw0 USB_PIPE_TYPE_BULK 1 7 raw_read 0 3 [5; 6; 7] raw_request raw_block zero_urb raw_read_ready).
Defined.

Example raw_read_taken :
  submiturb (history raw0 ++ [SemInit true]) 7 (raw_urb USB_PIPE_TYPE_BULK 1 7 0 raw_read raw_request zero_urb) (repeat 0 8) = None.
Proof. by vm_compute. Qed.

(** ** Errors *)
Definition after (xs : list move) : Io bool := match run_session xs with Done (_, m) => io m | _ => io0 end.
Definition iso_request : UsbHostRequest :=
  set_hr_requestType USB_REQUEST_TYPE_ISOCHRONOUS (set_hr_devHandle (Some 7%nat) (set_hr_length 8 (set_hr_numIsoPackets 1
    (set_hr_isoPacketDesc [mkIsoDesc 8 0 0] (zero_request 64 0))))).
Lemma iso_undefined_witness :
  AdapterSubmitRequest (RA := all_ram) (HA := bus) 1 (set_requests {[1 := iso_request]} io0) = Undefined.
Proof.
  apply (iso_undefined (RA := all_ram) (HA := bus) (set_requests {[1 := iso_request]} io0) 1 iso_request 7 (mkIsoDesc 8 0 0) []);
    [exact all_ram_granted | done..| by repeat constructor | done].
Defined.

(** A request of a page, and one in the page behind it. *)
Definition two_pages : Io bool := after [Alloc b 4096; Alloc b 16].
Definition first_page : UsbHostRequest := default (zero_request 0 0) (requests two_pages !! 1).
Lemma neighbour_unmapped_witness :
  is_Some (requests two_pages !! 2) /\
  runs (AdapterFreeRequest (Some 1)) two_pages (fun ret s' => ret = HDF_SUCCESS /\ requests s' !! 2 = None).
Proof.
  split; [apply (bool_decide_unpack _); by vm_compute|].
  apply (neighbour_unmapped two_pages 1 first_page 22 2);
    [by vm_compute | by vm_compute | apply (bool_decide_unpack _); by vm_compute | by vm_compute..].
Defined.

(** A synchronous control transfer of the expert mode that times out. *)
Definition asked_for : UsbControlRequestData := mkControlData 64 1 0 0 4 100 (Some [1; 2; 3; 4]).
Definition asking : Io bool :=
  match (r ← RawAllocRequest (RA := all_ram) (HA := bus) (Some 7%nat) 0 64;
         RawSendControlRequest (RA := all_ram) (HA := bus) (default 0 r) (Some 7%nat) asked_for) io0 with
  | Done (_, s) => s
  | _ => io0
  end.
Definition asked : UsbHostRequest := default (zero_request 0 0) (requests asking !! 1).
Definition asked_block : nat := match hr_urbs asked with Urbs k => k | _ => O end.
Definition asked_urb : UsbAdapterUrb := match urb_blocks asking !! asked_block with Some [w] => w | _ => zero_urb end.
Lemma raw_timeout_dangling_witness :
  runs (ControlRequestCompletion (HA := bus) 1 0 asked_for true) asking (fun '(ret, _) s' => ret = HDF_ERR_TIMEOUT /\
    forall st len, AdapterUrbCompleteHandle (HA := bus) (Some 7%nat) (ReapedUrb asked_block 0)
      (set_urb_blocks (<[asked_block := [set_urb_actualLength len (set_urb_status st asked_urb)]]> (urb_blocks s')) s') = Undefined).
Proof.
  apply (raw_timeout_dangling (HA := bus) asking 1 asked 7 0 0 0 asked_block asked_urb);
    [by vm_compute.. | apply (bool_decide_unpack _); by vm_compute | by vm_compute | by vm_compute].
Defined.

(** A control request that was cancelled while the kernel had it. *)
Definition cancelled_session : Io bool :=
  after [Alloc b 64; Fill 21 b ask; Submit 21; Take; Examine; Try; Cancel 21; Finish 21 (- ENOENT) 0 []].
Definition stuck : UsbHostRequest := default (zero_request 0 0) (requests cancelled_session !! 1).
Definition stuck_object : UsbIfRequest := default (mkIfRequest 0 zero_compInfo None false) (objects cancelled_session !! 21%nat).
Lemma cancelled_control_sticks_witness :
  runs (ret ← AdapterSubmitRequest (RA := all_ram) (HA := bus) 1; a ← kernel_finishes 21 0 4 [6; 6; 6; 6];
        AdapterUrbCompleteHandle (HA := bus) (Some 7%nat) a;; mret ret) cancelled_session (fun ret s' =>
    ret = HDF_SUCCESS /\
    (exists x', objects s' !! 21%nat = Some x' /\ ci_status (compInfo x') = USB_REQUEST_CANCELLED) /\
    (exists q', requests s' !! 1 = Some q' /\ hr_reqStatus q' = USB_REQUEST_CANCELLED)).
Proof.
  apply (cancelled_control_sticks (RA := all_ram) (HA := bus) cancelled_session 1 stuck 7 (Job USB_PIPE_TYPE_CONTROL 128 12 (Some 5%nat) (ClientData 9)) 21 stuck_object 4 [6; 6; 6; 6]);
    [exact all_ram_granted | by vm_compute | by vm_compute | by vm_compute | | by vm_compute | by vm_compute | by split; vm_compute | by vm_compute..].
  split; try (by vm_compute). by left.
Defined.
