(* ===== verification/CodecTypes.v ===== *)
(** * CodecTypes: the wire format of the codec component interface

    Models [codec/hal/src/codec_types.c] and the structures of
    [codec/interfaces/include/codec_component_type.h]: how tunnel setups, codec
    buffers and component capabilities are written to and read from message
    buffers.  The theorems give the items each marshalling function produces
    and show that unmarshalling them restores the structure. *)
From S2P Require Import Prelude Hdf.
Open Scope Z_scope.

(** ** Structures *)

(** The size of a union of the OpenMAX headers. *)
Class OmxTypes := { sizeof_OMX_VERSIONTYPE : Z }.

Definition BUFFER_TYPE_INVALID : Z := 0.
Definition BUFFER_TYPE_VIRTUAL_ADDR : Z := 1.
Definition BUFFER_TYPE_AVSHARE_MEM_FD : Z := 2.
Definition BUFFER_TYPE_HANDLE : Z := 4.
Definition BUFFER_TYPE_DYNAMIC_HANDLE : Z := 8.

Definition PIX_FORMAT_NUM : nat := 16.
Definition SAMPLE_FMT_NUM : nat := 32.
Definition SAMPLE_FORMAT_NUM : nat := 12.
Definition SAMPLE_RATE_NUM : nat := 16.
Definition CHANNEL_NUM : nat := 16.
Definition NAME_LENGTH : nat := 32.
Definition PROFILE_NUM : nat := 256.
Definition UUID_LENGTH : nat := 128.

(** [sizeof(PortCap)]: the larger member of the union is [AudioPortCap], four
    arrays of [int32_t]. *)
Definition sizeof_PortCap : Z := 4 * Z.of_nat (SAMPLE_FMT_NUM + SAMPLE_RATE_NUM + CHANNEL_NUM + CHANNEL_NUM).

(** [uint8_t *buffer]: null, an integer converted to a pointer, or the address
    of an array. *)
Inductive bufptr := PNull | PInt (v : Z) | PMem (m : mem).

(** The tunnel setup of two components. *)
Record OMX_TUNNELSETUPTYPE := mkTunnelSetup {
  nTunnelFlags : Z;
  eSupplier : Z;
}.

Definition set_nTunnelFlags (v : Z) (b : OMX_TUNNELSETUPTYPE) : OMX_TUNNELSETUPTYPE :=
  mkTunnelSetup v (eSupplier b).
Definition set_eSupplier (v : Z) (b : OMX_TUNNELSETUPTYPE) : OMX_TUNNELSETUPTYPE :=
  mkTunnelSetup (nTunnelFlags b) v.

(** A codec buffer; [version] is the bytes of [union OMX_VERSIONTYPE]. *)
Record OmxCodecBuffer := mkOmxCodecBuffer {
  bufferId : Z;
  buf_size : Z;
  version : list Z;
  bufferType : Z;
  buffer : bufptr;
  bufferLen : Z;
  allocLen : Z;
  filledLen : Z;
  offset : Z;
  fenceFd : Z;
  buf_type : Z;
  pts : Z;
  flag : Z;
}.

Definition set_bufferId (v : Z) (b : OmxCodecBuffer) : OmxCodecBuffer :=
  mkOmxCodecBuffer v (buf_size b) (version b) (bufferType b) (buffer b) (bufferLen b) (allocLen b) (filledLen b) (offset b) (fenceFd b) (buf_type b) (pts b) (flag b).
Definition set_buf_size (v : Z) (b : OmxCodecBuffer) : OmxCodecBuffer :=
  mkOmxCodecBuffer (bufferId b) v (version b) (bufferType b) (buffer b) (bufferLen b) (allocLen b) (filledLen b) (offset b) (fenceFd b) (buf_type b) (pts b) (flag b).
Definition set_version (v : list Z) (b : OmxCodecBuffer) : OmxCodecBuffer :=
  mkOmxCodecBuffer (bufferId b) (buf_size b) v (bufferType b) (buffer b) (bufferLen b) (allocLen b) (filledLen b) (offset b) (fenceFd b) (buf_type b) (pts b) (flag b).
Definition set_bufferType (v : Z) (b : OmxCodecBuffer) : OmxCodecBuffer :=
  mkOmxCodecBuffer (bufferId b) (buf_size b) (version b) v (buffer b) (bufferLen b) (allocLen b) (filledLen b) (offset b) (fenceFd b) (buf_type b) (pts b) (flag b).
Definition set_buffer (v : bufptr) (b : OmxCodecBuffer) : OmxCodecBuffer :=
  mkOmxCodecBuffer (bufferId b) (buf_size b) (version b) (bufferType b) v (bufferLen b) (allocLen b) (filledLen b) (offset b) (fenceFd b) (buf_type b) (pts b) (flag b).
Definition set_bufferLen (v : Z) (b : OmxCodecBuffer) : OmxCodecBuffer :=
  mkOmxCodecBuffer (bufferId b) (buf_size b) (version b) (bufferType b) (buffer b) v (allocLen b) (filledLen b) (offset b) (fenceFd b) (buf_type b) (pts b) (flag b).
Definition set_allocLen (v : Z) (b : OmxCodecBuffer) : OmxCodecBuffer :=
  mkOmxCodecBuffer (bufferId b) (buf_size b) (version b) (bufferType b) (buffer b) (bufferLen b) v (filledLen b) (offset b) (fenceFd b) (buf_type b) (pts b) (flag b).
Definition set_filledLen (v : Z) (b : OmxCodecBuffer) : OmxCodecBuffer :=
  mkOmxCodecBuffer (bufferId b) (buf_size b) (version b) (bufferType b) (buffer b) (bufferLen b) (allocLen b) v (offset b) (fenceFd b) (buf_type b) (pts b) (flag b).
Definition set_offset (v : Z) (b : OmxCodecBuffer) : OmxCodecBuffer :=
  mkOmxCodecBuffer (bufferId b) (buf_size b) (version b) (bufferType b) (buffer b) (bufferLen b) (allocLen b) (filledLen b) v (fenceFd b) (buf_type b) (pts b) (flag b).
Definition set_fenceFd (v : Z) (b : OmxCodecBuffer) : OmxCodecBuffer :=
  mkOmxCodecBuffer (bufferId b) (buf_size b) (version b) (bufferType b) (buffer b) (bufferLen b) (allocLen b) (filledLen b) (offset b) v (buf_type b) (pts b) (flag b).
Definition set_buf_type (v : Z) (b : OmxCodecBuffer) : OmxCodecBuffer :=
  mkOmxCodecBuffer (bufferId b) (buf_size b) (version b) (bufferType b) (buffer b) (bufferLen b) (allocLen b) (filledLen b) (offset b) (fenceFd b) v (pts b) (flag b).
Definition set_pts (v : Z) (b : OmxCodecBuffer) : OmxCodecBuffer :=
  mkOmxCodecBuffer (bufferId b) (buf_size b) (version b) (bufferType b) (buffer b) (bufferLen b) (allocLen b) (filledLen b) (offset b) (fenceFd b) (buf_type b) v (flag b).
Definition set_flag (v : Z) (b : OmxCodecBuffer) : OmxCodecBuffer :=
  mkOmxCodecBuffer (bufferId b) (buf_size b) (version b) (bufferType b) (buffer b) (bufferLen b) (allocLen b) (filledLen b) (offset b) (fenceFd b) (buf_type b) (pts b) v.

Record RangeValue := mkRangeValue {
  rv_min : Z;
  rv_max : Z;
}.

Definition set_rv_min (v : Z) (b : RangeValue) : RangeValue :=
  mkRangeValue v (rv_max b).
Definition set_rv_max (v : Z) (b : RangeValue) : RangeValue :=
  mkRangeValue (rv_min b) v.

Record Rect := mkRect {
  width : Z;
  height : Z;
}.

Definition set_width (v : Z) (b : Rect) : Rect :=
  mkRect v (height b).
Definition set_height (v : Z) (b : Rect) : Rect :=
  mkRect (width b) v.

Record Alignment := mkAlignment {
  widthAlignment : Z;
  heightAlignment : Z;
}.

Definition set_widthAlignment (v : Z) (b : Alignment) : Alignment :=
  mkAlignment v (heightAlignment b).
Definition set_heightAlignment (v : Z) (b : Alignment) : Alignment :=
  mkAlignment (widthAlignment b) v.

Record VideoPortCap := mkVideoPortCap {
  minSize : Rect;
  maxSize : Rect;
  whAlignment : Alignment;
  blockCount : RangeValue;
  blocksPerSecond : RangeValue;
  blockSize : Rect;
  supportPixFmts : list Z;
}.

Definition set_minSize (v : Rect) (b : VideoPortCap) : VideoPortCap :=
  mkVideoPortCap v (maxSize b) (whAlignment b) (blockCount b) (blocksPerSecond b) (blockSize b) (supportPixFmts b).
Definition set_maxSize (v : Rect) (b : VideoPortCap) : VideoPortCap :=
  mkVideoPortCap (minSize b) v (whAlignment b) (blockCount b) (blocksPerSecond b) (blockSize b) (supportPixFmts b).
Definition set_whAlignment (v : Alignment) (b : VideoPortCap) : VideoPortCap :=
  mkVideoPortCap (minSize b) (maxSize b) v (blockCount b) (blocksPerSecond b) (blockSize b) (supportPixFmts b).
Definition set_blockCount (v : RangeValue) (b : VideoPortCap) : VideoPortCap :=
  mkVideoPortCap (minSize b) (maxSize b) (whAlignment b) v (blocksPerSecond b) (blockSize b) (supportPixFmts b).
Definition set_blocksPerSecond (v : RangeValue) (b : VideoPortCap) : VideoPortCap :=
  mkVideoPortCap (minSize b) (maxSize b) (whAlignment b) (blockCount b) v (blockSize b) (supportPixFmts b).
Definition set_blockSize (v : Rect) (b : VideoPortCap) : VideoPortCap :=
  mkVideoPortCap (minSize b) (maxSize b) (whAlignment b) (blockCount b) (blocksPerSecond b) v (supportPixFmts b).
Definition set_supportPixFmts (v : list Z) (b : VideoPortCap) : VideoPortCap :=
  mkVideoPortCap (minSize b) (maxSize b) (whAlignment b) (blockCount b) (blocksPerSecond b) (blockSize b) v.

Record AudioPortCap := mkAudioPortCap {
  sampleFormats : list Z;
  sampleRate : list Z;
  channelLayouts : list Z;
  channelCount : list Z;
}.

Definition set_sampleFormats (v : list Z) (b : AudioPortCap) : AudioPortCap :=
  mkAudioPortCap v (sampleRate b) (channelLayouts b) (channelCount b).
Definition set_sampleRate (v : list Z) (b : AudioPortCap) : AudioPortCap :=
  mkAudioPortCap (sampleFormats b) v (channelLayouts b) (channelCount b).
Definition set_channelLayouts (v : list Z) (b : AudioPortCap) : AudioPortCap :=
  mkAudioPortCap (sampleFormats b) (sampleRate b) v (channelCount b).
Definition set_channelCount (v : list Z) (b : AudioPortCap) : AudioPortCap :=
  mkAudioPortCap (sampleFormats b) (sampleRate b) (channelLayouts b) v.

(** A component capability; [port] is the bytes of the union [PortCap]. *)
Record CodecCompCapability := mkCodecCompCapability {
  cap_role : Z;
  cap_type : Z;
  compName : list Z;
  supportProfiles : list Z;
  maxInst : Z;
  isSoftwareCodec : bool;
  processModeMask : Z;
  capsMask : Z;
  bitRate : RangeValue;
  port : list Z;
}.

Definition set_cap_role (v : Z) (b : CodecCompCapability) : CodecCompCapability :=
  mkCodecCompCapability v (cap_type b) (compName b) (supportProfiles b) (maxInst b) (isSoftwareCodec b) (processModeMask b) (capsMask b) (bitRate b) (port b).
Definition set_cap_type (v : Z) (b : CodecCompCapability) : CodecCompCapability :=
  mkCodecCompCapability (cap_role b) v (compName b) (supportProfiles b) (maxInst b) (isSoftwareCodec b) (processModeMask b) (capsMask b) (bitRate b) (port b).
Definition set_compName (v : list Z) (b : CodecCompCapability) : CodecCompCapability :=
  mkCodecCompCapability (cap_role b) (cap_type b) v (supportProfiles b) (maxInst b) (isSoftwareCodec b) (processModeMask b) (capsMask b) (bitRate b) (port b).
Definition set_supportProfiles (v : list Z) (b : CodecCompCapability) : CodecCompCapability :=
  mkCodecCompCapability (cap_role b) (cap_type b) (compName b) v (maxInst b) (isSoftwareCodec b) (processModeMask b) (capsMask b) (bitRate b) (port b).
Definition set_maxInst (v : Z) (b : CodecCompCapability) : CodecCompCapability :=
  mkCodecCompCapability (cap_role b) (cap_type b) (compName b) (supportProfiles b) v (isSoftwareCodec b) (processModeMask b) (capsMask b) (bitRate b) (port b).
Definition set_isSoftwareCodec (v : bool) (b : CodecCompCapability) : CodecCompCapability :=
  mkCodecCompCapability (cap_role b) (cap_type b) (compName b) (supportProfiles b) (maxInst b) v (processModeMask b) (capsMask b) (bitRate b) (port b).
Definition set_processModeMask (v : Z) (b : CodecCompCapability) : CodecCompCapability :=
  mkCodecCompCapability (cap_role b) (cap_type b) (compName b) (supportProfiles b) (maxInst b) (isSoftwareCodec b) v (capsMask b) (bitRate b) (port b).
Definition set_capsMask (v : Z) (b : CodecCompCapability) : CodecCompCapability :=
  mkCodecCompCapability (cap_role b) (cap_type b) (compName b) (supportProfiles b) (maxInst b) (isSoftwareCodec b) (processModeMask b) v (bitRate b) (port b).
Definition set_bitRate (v : RangeValue) (b : CodecCompCapability) : CodecCompCapability :=
  mkCodecCompCapability (cap_role b) (cap_type b) (compName b) (supportProfiles b) (maxInst b) (isSoftwareCodec b) (processModeMask b) (capsMask b) v (port b).
Definition set_port (v : list Z) (b : CodecCompCapability) : CodecCompCapability :=
  mkCodecCompCapability (cap_role b) (cap_type b) (compName b) (supportProfiles b) (maxInst b) (isSoftwareCodec b) (processModeMask b) (capsMask b) (bitRate b) v.


(** ** Unmarshalling into a structure

    [b ⇐ m into set of b; k] is
    [if (!m(&b->field)) { return false; } k] for a call that delivers one value;
    [b ⇐! m into set of b; k] is the same for a call that fills the field in
    place and may leave it partly filled when it fails.  The result of the
    function is its truth value and the structure as it stands. *)
Definition read_into {W V T} (b : T) (m : M W (option V)) (set : V -> T -> T)
    (k : T -> M W (bool * option T)) : M W (bool * option T) :=
  o ← m; match o with Some v => k (set v b) | None => mret (false, Some b) end.
Definition fill_into {W V T} (b : T) (m : M W (bool * V)) (set : V -> T -> T)
    (k : T -> M W (bool * option T)) : M W (bool * option T) :=
  '(ok, v) ← m; if (ok : bool) then k (set v b) else mret (false, Some (set v b)).
Definition opt_set {V T} (set : V -> T -> T) (o : option V) (b : T) : T :=
  match o with Some v => set v b | None => b end.

Notation "b' ⇐ m 'into' set 'of' b ; k" := (read_into b m set (fun b' => k))
  (at level 20, m at level 100, set at level 9, b at level 9, k at level 200,
   right associativity) : c_scope.
Notation "b' ⇐! m 'into' set 'of' b ; k" := (fill_into b m set (fun b' => k))
  (at level 20, m at level 100, set at level 9, b at level 9, k at level 200,
   right associativity) : c_scope.

Section marshalling.
Context {SB : Type} `{!Platform SB} {OMX : OmxTypes} {X : Type}.
Abbreviation M := (M (World SB X)).

Definition OMX_TUNNELSETUPTYPEBlockMarshalling (data : nat) (dataBlock : OMX_TUNNELSETUPTYPE) : M bool :=
  unless HdfSbufWriteUint32 data (nTunnelFlags dataBlock) do mret false;
  unless HdfSbufWriteInt32 data (i32 (eSupplier dataBlock)) do mret false;
  mret true.

Definition OMX_TUNNELSETUPTYPEBlockUnmarshalling (data : nat)
    (dataBlock : option OMX_TUNNELSETUPTYPE) : M (bool * option OMX_TUNNELSETUPTYPE) :=
  match dataBlock with
  | None => mret (false, None)
  | Some b =>
      b ⇐ HdfSbufReadUint32 data into set_nTunnelFlags of b;
      b ⇐ HdfSbufReadInt32 data into (fun v => set_eSupplier (u32 v)) of b;
      mret (true, Some b)
  end.

(** The three [...Free] functions: release the structure itself on demand. *)
Definition OMX_TUNNELSETUPTYPEFree (dataBlock : option nat) (freeSelf : bool) : M unit :=
  match dataBlock with
  | None => mret tt
  | Some p => if freeSelf then OsalMemFree p else mret tt
  end.

(** [(int)dataBlock->buffer]; the address of an array has no number here. *)
Definition int_of_bufptr (p : bufptr) : M Z :=
  match p with PNull => mret 0 | PInt v => mret (i32 v) | PMem _ => undefined end.
Definition array_of_bufptr (p : bufptr) : list Z :=
  match p with PMem m => mem_cells m | _ => [] end.

Definition CodecBufferMarshalling (data : nat) (dataBlock : OmxCodecBuffer) : M bool :=
  unless HdfSbufWriteInt32 data (i32 (bufferType dataBlock)) do mret false;
  unless HdfSbufWriteUint32 data (bufferLen dataBlock) do mret false;
  if bufferLen dataBlock <=? 0 then mret true
  else if bufferType dataBlock =? BUFFER_TYPE_AVSHARE_MEM_FD then
    fd ← int_of_bufptr (buffer dataBlock);
    unless HdfSbufWriteFileDescriptor data fd do mret false;
    mret true
  else
    unless write_loop data IUint8 (array_of_bufptr (buffer dataBlock)) (Z.to_nat (bufferLen dataBlock))
      do mret false;
    mret true.

Definition OmxCodecBufferBlockMarshalling (data : nat) (dataBlock : OmxCodecBuffer) : M bool :=
  unless HdfSbufWriteUint32 data (bufferId dataBlock) do mret false;
  unless HdfSbufWriteUint32 data (buf_size dataBlock) do mret false;
  unless HdfSbufWriteUnpadBuffer data (take (Z.to_nat sizeof_OMX_VERSIONTYPE) (version dataBlock)) do mret false;
  unless CodecBufferMarshalling data dataBlock do mret false;
  unless HdfSbufWriteUint32 data (allocLen dataBlock) do mret false;
  unless HdfSbufWriteUint32 data (filledLen dataBlock) do mret false;
  unless HdfSbufWriteUint32 data (offset dataBlock) do mret false;
  unless HdfSbufWriteInt32 data (fenceFd dataBlock) do mret false;
  unless HdfSbufWriteInt32 data (i32 (buf_type dataBlock)) do mret false;
  unless HdfSbufWriteInt64 data (pts dataBlock) do mret false;
  unless HdfSbufWriteUint32 data (flag dataBlock) do mret false;
  mret true.

(** The allocated array is handed over in [buffer]; it is released here only
    when an element cannot be read. *)
Definition CodecBufferUnmarshalling (data : nat) (b : OmxCodecBuffer) : M (bool * option OmxCodecBuffer) :=
  b ⇐ HdfSbufReadInt32 data into (fun v => set_bufferType (u32 v)) of b;
  b ⇐ HdfSbufReadUint32 data into set_bufferLen of b;
  let bufferCpLen := bufferLen b in
  if bufferLen b <=? 0 then mret (true, Some (set_buffer PNull b))
  else if bufferType b =? BUFFER_TYPE_AVSHARE_MEM_FD then
    fd ← HdfSbufReadFileDescriptor data;
    if fd <? 0 then mret (false, Some b)
    else mret (true, Some (set_buffer (PInt fd) b))
  else
    bufferCp ← (if 0 <? bufferCpLen then OsalMemCalloc bufferCpLen else mret None);
    match bufferCp with
    | None => mret (false, Some b)
    | Some m =>
        r ← read_loop HdfSbufReadUint8 data (mem_cells m) (Z.to_nat bufferCpLen);
        if negb r.1 then OsalMemFree (mem_id m);; mret (false, Some b)
        else mret (true, Some (set_buffer (PMem (Mem (mem_id m) r.2)) b))
    end.

Definition OmxCodecBufferBlockUnmarshalling (data : nat)
    (dataBlock : option OmxCodecBuffer) : M (bool * option OmxCodecBuffer) :=
  match dataBlock with
  | None => mret (false, None)
  | Some b =>
      b ⇐ HdfSbufReadUint32 data into set_bufferId of b;
      b ⇐ HdfSbufReadUint32 data into set_buf_size of b;
      b ⇐ HdfSbufReadUnpadBuffer sizeof_OMX_VERSIONTYPE data into set_version of b;
      b ⇐! CodecBufferUnmarshalling data b into (fun o b0 => default b0 o) of b;
      b ⇐ HdfSbufReadUint32 data into set_allocLen of b;
      b ⇐ HdfSbufReadUint32 data into set_filledLen of b;
      b ⇐ HdfSbufReadUint32 data into set_offset of b;
      b ⇐ HdfSbufReadInt32 data into set_fenceFd of b;
      b ⇐ HdfSbufReadInt32 data into (fun v => set_buf_type (u32 v)) of b;
      b ⇐ HdfSbufReadInt64 data into set_pts of b;
      b ⇐ HdfSbufReadUint32 data into set_flag of b;
      mret (true, Some b)
  end.

Definition RangeValueBlockMarshalling (data : nat) (dataBlock : RangeValue) : M bool :=
  unless HdfSbufWriteInt32 data (rv_min dataBlock) do mret false;
  unless HdfSbufWriteInt32 data (rv_max dataBlock) do mret false;
  mret true.

Definition RangeValueBlockUnmarshalling (data : nat)
    (dataBlock : option RangeValue) : M (bool * option RangeValue) :=
  match dataBlock with
  | None => mret (false, None)
  | Some b =>
      b ⇐ HdfSbufReadInt32 data into set_rv_min of b;
      b ⇐ HdfSbufReadInt32 data into set_rv_max of b;
      mret (true, Some b)
  end.

Definition RangeValueFree (dataBlock : option nat) (freeSelf : bool) : M unit :=
  match dataBlock with
  | None => mret tt
  | Some p => if freeSelf then OsalMemFree p else mret tt
  end.

Definition RectBlockMarshalling (data : nat) (dataBlock : Rect) : M bool :=
  unless HdfSbufWriteInt32 data (width dataBlock) do mret false;
  unless HdfSbufWriteInt32 data (height dataBlock) do mret false;
  mret true.

Definition RectBlockUnmarshalling (data : nat) (dataBlock : option Rect) : M (bool * option Rect) :=
  match dataBlock with
  | None => mret (false, None)
  | Some b =>
      b ⇐ HdfSbufReadInt32 data into set_width of b;
      b ⇐ HdfSbufReadInt32 data into set_height of b;
      mret (true, Some b)
  end.

Definition AlignmentBlockMarshalling (data : nat) (dataBlock : Alignment) : M bool :=
  unless HdfSbufWriteInt32 data (widthAlignment dataBlock) do mret false;
  unless HdfSbufWriteInt32 data (heightAlignment dataBlock) do mret false;
  mret true.

Definition AlignmentBlockUnmarshalling (data : nat)
    (dataBlock : option Alignment) : M (bool * option Alignment) :=
  match dataBlock with
  | None => mret (false, None)
  | Some b =>
      b ⇐ HdfSbufReadInt32 data into set_widthAlignment of b;
      b ⇐ HdfSbufReadInt32 data into set_heightAlignment of b;
      mret (true, Some b)
  end.

Definition VideoPortCapBlockMarshalling (data : nat) (dataBlock : VideoPortCap) : M bool :=
  unless RectBlockMarshalling data (minSize dataBlock) do mret false;
  unless RectBlockMarshalling data (maxSize dataBlock) do mret false;
  unless AlignmentBlockMarshalling data (whAlignment dataBlock) do mret false;
  unless RangeValueBlockMarshalling data (blockCount dataBlock) do mret false;
  unless RangeValueBlockMarshalling data (blocksPerSecond dataBlock) do mret false;
  unless RectBlockMarshalling data (blockSize dataBlock) do mret false;
  unless write_loop data IInt32 (supportPixFmts dataBlock) PIX_FORMAT_NUM do mret false;
  mret true.

Definition VideoPortCapBlockUnmarshalling (data : nat)
    (dataBlock : option VideoPortCap) : M (bool * option VideoPortCap) :=
  match dataBlock with
  | None => mret (false, None)
  | Some b =>
      b ⇐! RectBlockUnmarshalling data (Some (minSize b)) into (opt_set set_minSize) of b;
      b ⇐! RectBlockUnmarshalling data (Some (maxSize b)) into (opt_set set_maxSize) of b;
      b ⇐! AlignmentBlockUnmarshalling data (Some (whAlignment b)) into (opt_set set_whAlignment) of b;
      b ⇐! RangeValueBlockUnmarshalling data (Some (blockCount b)) into (opt_set set_blockCount) of b;
      b ⇐! RangeValueBlockUnmarshalling data (Some (blocksPerSecond b)) into (opt_set set_blocksPerSecond) of b;
      b ⇐! RectBlockUnmarshalling data (Some (blockSize b)) into (opt_set set_blockSize) of b;
      b ⇐! read_loop HdfSbufReadInt32 data (supportPixFmts b) PIX_FORMAT_NUM into set_supportPixFmts of b;
      mret (true, Some b)
  end.

Definition AudioPortCapBlockMarshalling (data : nat) (dataBlock : AudioPortCap) : M bool :=
  unless write_loop data IInt32 (sampleFormats dataBlock) SAMPLE_FORMAT_NUM do mret false;
  unless write_loop data IInt32 (sampleRate dataBlock) SAMPLE_RATE_NUM do mret false;
  unless write_loop data IInt32 (channelLayouts dataBlock) CHANNEL_NUM do mret false;
  unless write_loop data IInt32 (channelCount dataBlock) CHANNEL_NUM do mret false;
  mret true.

Definition AudioPortCapBlockUnmarshalling (data : nat)
    (dataBlock : option AudioPortCap) : M (bool * option AudioPortCap) :=
  match dataBlock with
  | None => mret (false, None)
  | Some b =>
      b ⇐! read_loop HdfSbufReadInt32 data (sampleFormats b) SAMPLE_FORMAT_NUM into set_sampleFormats of b;
      b ⇐! read_loop HdfSbufReadInt32 data (sampleRate b) SAMPLE_RATE_NUM into set_sampleRate of b;
      b ⇐! read_loop HdfSbufReadInt32 data (channelLayouts b) CHANNEL_NUM into set_channelLayouts of b;
      b ⇐! read_loop HdfSbufReadInt32 data (channelCount b) CHANNEL_NUM into set_channelCount of b;
      mret (true, Some b)
  end.

Definition AudioPortCapFree (dataBlock : option nat) (freeSelf : bool) : M unit :=
  match dataBlock with
  | None => mret tt
  | Some p => if freeSelf then OsalMemFree p else mret tt
  end.

Definition CodecCompCapabilityBlockMarshalling (data : nat) (dataBlock : CodecCompCapability) : M bool :=
  unless HdfSbufWriteInt32 data (i32 (cap_role dataBlock)) do mret false;
  unless HdfSbufWriteInt32 data (i32 (cap_type dataBlock)) do mret false;
  unless write_loop data (fun c => IUint8 (u8 c)) (compName dataBlock) NAME_LENGTH do mret false;
  unless write_loop data IInt32 (supportProfiles dataBlock) PROFILE_NUM do mret false;
  unless HdfSbufWriteInt32 data (maxInst dataBlock) do mret false;
  unless HdfSbufWriteInt8 data (if isSoftwareCodec dataBlock then 1 else 0) do mret false;
  unless HdfSbufWriteInt32 data (processModeMask dataBlock) do mret false;
  unless HdfSbufWriteUint32 data (capsMask dataBlock) do mret false;
  unless RangeValueBlockMarshalling data (bitRate dataBlock) do mret false;
  unless HdfSbufWriteUnpadBuffer data (take (Z.to_nat sizeof_PortCap) (port dataBlock)) do mret false;
  mret true.

Definition CodecCompCapabilityBlockUnmarshalling (data : nat)
    (dataBlock : option CodecCompCapability) : M (bool * option CodecCompCapability) :=
  match dataBlock with
  | None => mret (false, None)
  | Some b =>
      b ⇐ HdfSbufReadInt32 data into (fun v => set_cap_role (u32 v)) of b;
      b ⇐ HdfSbufReadInt32 data into (fun v => set_cap_type (u32 v)) of b;
      b ⇐! read_loop HdfSbufReadUint8 data (compName b) NAME_LENGTH into set_compName of b;
      b ⇐! read_loop HdfSbufReadInt32 data (supportProfiles b) PROFILE_NUM into set_supportProfiles of b;
      b ⇐ HdfSbufReadInt32 data into set_maxInst of b;
      b ⇐ HdfSbufReadInt8 data into (fun v => set_isSoftwareCodec (negb (v =? 0))) of b;
      b ⇐ HdfSbufReadInt32 data into set_processModeMask of b;
      b ⇐ HdfSbufReadUint32 data into set_capsMask of b;
      b ⇐! RangeValueBlockUnmarshalling data (Some (bitRate b)) into (opt_set set_bitRate) of b;
      b ⇐ HdfSbufReadUnpadBuffer sizeof_PortCap data into set_port of b;
      mret (true, Some b)
  end.
End marshalling.

(** ** The wire format *)
Definition enc_tunnel (b : OMX_TUNNELSETUPTYPE) : list item :=
  [IUint32 (nTunnelFlags b); IInt32 (i32 (eSupplier b))].

Definition enc_payload (b : OmxCodecBuffer) : list item :=
  if bufferLen b <=? 0 then []
  else if bufferType b =? BUFFER_TYPE_AVSHARE_MEM_FD then
    match buffer b with PInt v => [IFd (i32 v)] | _ => [IFd 0] end
  else map IUint8 (take (Z.to_nat (bufferLen b)) (array_of_bufptr (buffer b))).

Definition enc_buffer (b : OmxCodecBuffer) : list item :=
  [IUint32 (bufferId b); IUint32 (buf_size b); IUnpad (version b);
   IInt32 (i32 (bufferType b)); IUint32 (bufferLen b)] ++ enc_payload b ++
  [IUint32 (allocLen b); IUint32 (filledLen b); IUint32 (offset b); IInt32 (fenceFd b);
   IInt32 (i32 (buf_type b)); IInt64 (pts b); IUint32 (flag b)].

Definition enc_range (b : RangeValue) : list item := [IInt32 (rv_min b); IInt32 (rv_max b)].
Definition enc_rect (b : Rect) : list item := [IInt32 (width b); IInt32 (height b)].
Definition enc_alignment (b : Alignment) : list item :=
  [IInt32 (widthAlignment b); IInt32 (heightAlignment b)].
Definition enc_video (b : VideoPortCap) : list item :=
  enc_rect (minSize b) ++ enc_rect (maxSize b) ++ enc_alignment (whAlignment b) ++
  enc_range (blockCount b) ++ enc_range (blocksPerSecond b) ++ enc_rect (blockSize b) ++
  map IInt32 (supportPixFmts b).
Definition enc_audio (b : AudioPortCap) : list item :=
  map IInt32 (take SAMPLE_FORMAT_NUM (sampleFormats b)) ++ map IInt32 (sampleRate b) ++
  map IInt32 (channelLayouts b) ++ map IInt32 (channelCount b).
Definition enc_capability (b : CodecCompCapability) : list item :=
  [IInt32 (i32 (cap_role b)); IInt32 (i32 (cap_type b))] ++
  map IUint8 (compName b) ++ map IInt32 (supportProfiles b) ++
  [IInt32 (maxInst b); IInt8 (if isSoftwareCodec b then 1 else 0); IInt32 (processModeMask b);
   IUint32 (capsMask b)] ++ enc_range (bitRate b) ++ [IUnpad (port b)].

(** ** Well-formed structures: every field holds a value of its C type and every
    array has its declared length. *)
Definition tunnel_wf (b : OMX_TUNNELSETUPTYPE) : Prop := 0 <= eSupplier b < 2 ^ 32.

(** A payload in shared memory is given by a descriptor, any other payload by
    an array of at least [bufferLen] elements. *)
Definition payload_wf (b : OmxCodecBuffer) : Prop :=
  0 < bufferLen b ->
  if bufferType b =? BUFFER_TYPE_AVSHARE_MEM_FD
  then exists fd, buffer b = PInt fd /\ 0 <= fd < 2 ^ 31
  else exists m, buffer b = PMem m /\ (Z.to_nat (bufferLen b) <= length (mem_cells m))%nat.

Definition buffer_wf {OMX : OmxTypes} (b : OmxCodecBuffer) : Prop :=
  0 <= bufferType b < 2 ^ 32 /\ 0 <= buf_type b < 2 ^ 32 /\ 0 <= bufferLen b < 2 ^ 32 /\
  Z.of_nat (length (version b)) = sizeof_OMX_VERSIONTYPE /\ payload_wf b.

(** A descriptor that another party obtained may also be the -1 of a failure;
    that it is one means that some resource was refused. *)
Definition payload_ok (SB : Type) `{!Platform SB} (b : OmxCodecBuffer) : Prop :=
  0 < bufferLen b ->
  if bufferType b =? BUFFER_TYPE_AVSHARE_MEM_FD
  then exists fd, buffer b = PInt fd /\ -1 <= fd < 2 ^ 31 /\ (reliable SB -> 0 <= fd)
  else exists m, buffer b = PMem m /\ (Z.to_nat (bufferLen b) <= length (mem_cells m))%nat.

Definition buffer_ok (SB : Type) `{!Platform SB} {OMX : OmxTypes} (b : OmxCodecBuffer) : Prop :=
  0 <= bufferType b < 2 ^ 32 /\ 0 <= buf_type b < 2 ^ 32 /\ 0 <= bufferLen b < 2 ^ 32 /\
  Z.of_nat (length (version b)) = sizeof_OMX_VERSIONTYPE /\ payload_ok SB b.

Lemma buffer_wf_ok (SB : Type) `{!Platform SB} {OMX : OmxTypes} b : buffer_wf b -> buffer_ok SB b.
Proof.
  intros (H1 & H2 & H3 & H4 & Hp). do 4 (split; [done|]). intros Hl. specialize (Hp Hl).
  destruct (bufferType b =? BUFFER_TYPE_AVSHARE_MEM_FD); [|done].
  destruct Hp as (fd & Hb & Hfd). exists fd. split; [done|]. split; [lia | intros _; lia].
Qed.

(** The payload travels as bytes that the receiver stores in fresh memory. *)
Definition heap_payload (b : OmxCodecBuffer) : bool :=
  (0 <? bufferLen b) && negb (bufferType b =? BUFFER_TYPE_AVSHARE_MEM_FD).

(** The buffer as the receiver sees it, [n] naming the memory it allocates. *)
Definition recv_payload `{!Platform SB} (n : nat) (b : OmxCodecBuffer) : bufptr :=
  if bufferLen b <=? 0 then PNull
  else if bufferType b =? BUFFER_TYPE_AVSHARE_MEM_FD then
    match buffer b with PInt v => PInt (fd_image v) | p => p end
  else PMem (Mem n (take (Z.to_nat (bufferLen b)) (array_of_bufptr (buffer b)))).
Definition recv_buffer `{!Platform SB} (n : nat) (b : OmxCodecBuffer) : OmxCodecBuffer :=
  set_buffer (recv_payload n b) b.

Definition video_wf (b : VideoPortCap) : Prop := length (supportPixFmts b) = PIX_FORMAT_NUM.
Definition audio_wf (b : AudioPortCap) : Prop :=
  length (sampleFormats b) = SAMPLE_FMT_NUM /\ length (sampleRate b) = SAMPLE_RATE_NUM /\
  length (channelLayouts b) = CHANNEL_NUM /\ length (channelCount b) = CHANNEL_NUM.
Definition capability_wf (b : CodecCompCapability) : Prop :=
  0 <= cap_role b < 2 ^ 32 /\ 0 <= cap_type b < 2 ^ 32 /\
  length (compName b) = NAME_LENGTH /\ Forall (fun c => 0 <= c < 2 ^ 8) (compName b) /\
  length (supportProfiles b) = PROFILE_NUM /\
  Z.of_nat (length (port b)) = sizeof_PortCap.

(** A received buffer is as good as the one sent. *)
Lemma recv_buffer_wf `{!Platform SB, !PlatformLaws SB} {OMX : OmxTypes} n b :
  buffer_wf b -> buffer_wf (recv_buffer n b).
Proof.
  intros (H1 & H2 & H3 & H4 & Hp). unfold recv_buffer, buffer_wf, payload_wf in *; cbn.
  do 4 (split; [done|]). intros Hl. specialize (Hp Hl). unfold recv_payload.
  rewrite (proj2 (Z.leb_gt _ _)) by done. case_match.
  - destruct Hp as (fd & -> & Hfd). eauto using fd_image_valid.
  - destruct Hp as (m & -> & Hm). eexists; split; [done|]. cbn. by rewrite length_take_le.
Qed.

(** ** What the marshalling functions write *)
Ltac solve_writes :=
  repeat first
    [ eapply writes_ret
    | eapply writes_seq; [solve [eauto with hdf | apply writes_item]|] ].

Section write_lemmas.
Context {SB : Type} `{!Platform SB, !PlatformLaws SB} {OMX : OmxTypes} {X : Type}.
Abbreviation writes := (writes (SB := SB) (X := X)).

Lemma tunnel_writes d b : writes d (OMX_TUNNELSETUPTYPEBlockMarshalling d b) (enc_tunnel b).
Proof. eapply writes_eq; [unfold OMX_TUNNELSETUPTYPEBlockMarshalling; solve_writes | done]. Qed.

Lemma range_writes d b : writes d (RangeValueBlockMarshalling d b) (enc_range b).
Proof. eapply writes_eq; [unfold RangeValueBlockMarshalling; solve_writes | done]. Qed.

Lemma rect_writes d b : writes d (RectBlockMarshalling d b) (enc_rect b).
Proof. eapply writes_eq; [unfold RectBlockMarshalling; solve_writes | done]. Qed.

Lemma alignment_writes d b : writes d (AlignmentBlockMarshalling d b) (enc_alignment b).
Proof. eapply writes_eq; [unfold AlignmentBlockMarshalling; solve_writes | done]. Qed.

Hint Resolve tunnel_writes range_writes rect_writes alignment_writes : hdf.

Lemma writes_array d mk (a : list Z) k :
  length a = k -> writes d (write_loop d mk a k) (map mk a).
Proof.
  intros <-. eapply writes_eq; [by apply writes_loop|]. by rewrite firstn_all.
Qed.

Lemma video_writes d b : video_wf b -> writes d (VideoPortCapBlockMarshalling d b) (enc_video b).
Proof.
  intros Hwf. eapply writes_eq; [unfold VideoPortCapBlockMarshalling|].
  - do 6 (eapply writes_seq; [eauto with hdf|]).
    eapply writes_seq; [by apply writes_array | apply writes_ret].
  - unfold enc_video. by rewrite app_nil_r.
Qed.

Lemma audio_writes d b : audio_wf b -> writes d (AudioPortCapBlockMarshalling d b) (enc_audio b).
Proof.
  intros (H1 & H2 & H3 & H4). eapply writes_eq; [unfold AudioPortCapBlockMarshalling|].
  - eapply writes_seq; [apply writes_loop; rewrite H1; unfold SAMPLE_FORMAT_NUM, SAMPLE_FMT_NUM; lia|].
    do 3 (eapply writes_seq; [by apply writes_array|]). apply writes_ret.
  - unfold enc_audio. by rewrite app_nil_r.
Qed.

Lemma bytes_u8 (l : list Z) :
  Forall (fun c => 0 <= c < 2 ^ 8) l -> map (fun c => IUint8 (u8 c)) l = map IUint8 l.
Proof.
  induction 1 as [|c l Hc _ IH]; [done|]; cbn. rewrite IH. unfold u8.
  by rewrite Z.mod_small.
Qed.

Lemma unpad_all (l : list Z) k : Z.of_nat (length l) = k -> take (Z.to_nat k) l = l.
Proof. intros <-. by rewrite Nat2Z.id, firstn_all. Qed.

Lemma capability_writes d b :
  capability_wf b -> writes d (CodecCompCapabilityBlockMarshalling d b) (enc_capability b).
Proof.
  intros (_ & _ & H1 & Hc & H2 & H3). eapply writes_eq;
    [unfold CodecCompCapabilityBlockMarshalling|].
  - do 2 (eapply writes_seq; [apply writes_item|]).
    do 2 (eapply writes_seq; [by apply writes_array|]).
    do 4 (eapply writes_seq; [apply writes_item|]).
    eapply writes_seq; [apply range_writes|].
    eapply writes_seq; [apply writes_item | apply writes_ret].
  - unfold enc_capability. by rewrite bytes_u8, unpad_all.
Qed.

Lemma payload_writes d b :
  payload_ok SB b ->
  writes d (CodecBufferMarshalling d b)
    ([IInt32 (i32 (bufferType b)); IUint32 (bufferLen b)] ++ enc_payload b).
Proof.
  intros Hp. unfold CodecBufferMarshalling, enc_payload, payload_ok in *.
  change ([?a; ?b'] ++ ?l) with ([a] ++ [b'] ++ l).
  do 2 (eapply writes_seq; [apply writes_item|]).
  destruct (Z.leb_spec (bufferLen b) 0) as [|Hl]; [apply writes_ret|].
  specialize (Hp Hl). destruct (bufferType b =? BUFFER_TYPE_AVSHARE_MEM_FD).
  - destruct Hp as (fd & -> & Hfd). eapply writes_eq;
      [eapply writes_seq; [apply writes_item | apply writes_ret] | done].
  - destruct Hp as (m & -> & Hm). eapply writes_eq;
      [eapply writes_seq; [by apply writes_loop | apply writes_ret] | apply app_nil_r].
Qed.

Lemma buffer_ok_writes d b :
  buffer_ok SB b -> writes d (OmxCodecBufferBlockMarshalling d b) (enc_buffer b).
Proof.
  intros (_ & _ & _ & Hv & Hp). eapply writes_eq; [unfold OmxCodecBufferBlockMarshalling|].
  - do 3 (eapply writes_seq; [apply writes_item|]).
    eapply writes_seq; [by apply payload_writes|]. solve_writes.
  - unfold enc_buffer. rewrite unpad_all by done. by rewrite <- app_assoc.
Qed.

Lemma buffer_writes d b :
  buffer_wf b -> writes d (OmxCodecBufferBlockMarshalling d b) (enc_buffer b).
Proof. intros Hb. by apply buffer_ok_writes, buffer_wf_ok. Qed.
(** The address of a payload that is a descriptor is not one to read from. *)
Lemma buffer_marshal_undefined base d r b fd sd sr L n (x : X) :
  reliable SB -> d <> r -> 0 < bufferLen b -> bufferType b <> BUFFER_TYPE_AVSHARE_MEM_FD ->
  buffer b = PInt fd ->
  OmxCodecBufferBlockMarshalling r b (call_state base d r sd sr L n x) = None.
Proof.
  intros Hrel Hdr Hl Ht Hb. unfold OmxCodecBufferBlockMarshalling.
  do 3 (apply undefined_later; eapply wp_writes_reply; [done | apply writes_item | | done];
        let s := fresh in intros s _; clear sr; rename s into sr; cbn [negb]).
  apply undefined_now. unfold CodecBufferMarshalling.
  do 2 (apply undefined_later; eapply wp_writes_reply; [done | apply writes_item | | done];
        let s := fresh in intros s _; clear sr; rename s into sr; cbn [negb]).
  rewrite (proj2 (Z.leb_gt _ _)), (proj2 (Z.eqb_neq _ _)) by done. apply undefined_now.
  rewrite Hb. destruct (Z.to_nat (bufferLen b)) eqn:E; [lia | done].
Qed.
End write_lemmas.

(** ** What the unmarshalling functions read *)
Section read_lemmas.
Context {SB : Type} `{!Platform SB, !PlatformLaws SB} {OMX : OmxTypes} {X : Type}.
Abbreviation M := (M (World SB X)).
Abbreviation reads := (reads (SB := SB) (X := X)).

Lemma reads_into {V T} d (b : T) (m : M (option V)) set k l1 l2 v res :
  reads d m l1 (Some v) -> reads d (k (set v b)) l2 res ->
  reads d (read_into b m set k) (l1 ++ l2) res.
Proof. intros Hm Hk. by eapply reads_bind. Qed.

Lemma reads_into_item {V T} d (b : T) kd f set (k : T -> M (bool * option T)) i l (v : V) res :
  kind_of i = kd -> f (recv i) = Some v -> reads d (k (set v b)) l res ->
  reads d (read_into b (read_as kd f d) set k) (i :: l) res.
Proof. intros Hk Hf Hr. apply (reads_into _ _ _ _ _ [i] l v); [by apply reads_item | done]. Qed.

Lemma reads_value {A} d (m : M A) l a a' : reads d m l a -> a = a' -> reads d m l a'.
Proof. by intros ? <-. Qed.

Lemma fills_into {V T} d (b : T) (m : M (bool * V)) set k l1 l2 v res :
  reads d m l1 (true, v) -> reads d (k (set v b)) l2 res ->
  reads d (fill_into b m set k) (l1 ++ l2) res.
Proof. intros Hm Hk. by eapply reads_bind. Qed.

Lemma fills_last {V T} d (b : T) (m : M (bool * V)) set l v :
  reads d m l (true, v) ->
  reads d (fill_into b m set (fun b' => mret (true, Some b'))) l (true, Some (set v b)).
Proof.
  intros Hm. rewrite <- (app_nil_r l). eapply fills_into; [done | apply reads_ret].
Qed.

Lemma reads_array d rd mk (a vs : list Z) k f m :
  rd = read_as k f -> (forall z, kind_of (mk z) = k /\ f (recv (mk z)) = Some z) ->
  length vs = m -> length a = m ->
  reads d (read_loop rd d a m) (map mk vs) (true, vs).
Proof.
  intros -> Hmk Hv Ha. eapply reads_eq; [eapply (reads_loop d k f mk a vs); eauto; lia | done |].
  by rewrite <- Ha, drop_all, app_nil_r.
Qed.

Ltac read_items :=
  cbn; repeat first
    [ apply reads_ret
    | eapply reads_into_item; [reflexivity | reflexivity |] ].

Lemma tunnel_reads d b b0 :
  tunnel_wf b -> reads d (OMX_TUNNELSETUPTYPEBlockUnmarshalling d (Some b0)) (enc_tunnel b) (true, Some b).
Proof.
  intros Hwf. eapply reads_value; [read_items|].
  destruct b; cbn in *. unfold set_eSupplier, set_nTunnelFlags; cbn. by rewrite u32_i32_id.
Qed.

Lemma range_reads d b b0 :
  reads d (RangeValueBlockUnmarshalling d (Some b0)) (enc_range b) (true, Some b).
Proof.
  eapply reads_value; [read_items | by destruct b].
Qed.

Lemma rect_reads d b b0 :
  reads d (RectBlockUnmarshalling d (Some b0)) (enc_rect b) (true, Some b).
Proof. eapply reads_value; [read_items | by destruct b]. Qed.

Lemma alignment_reads d b b0 :
  reads d (AlignmentBlockUnmarshalling d (Some b0)) (enc_alignment b) (true, Some b).
Proof. eapply reads_value; [read_items | by destruct b]. Qed.

Lemma video_reads d b b0 :
  video_wf b -> video_wf b0 ->
  reads d (VideoPortCapBlockUnmarshalling d (Some b0)) (enc_video b) (true, Some b).
Proof.
  intros Hb Hb0. unfold VideoPortCapBlockUnmarshalling, enc_video.
  eapply reads_value.
  - do 2 (eapply fills_into; [apply rect_reads|]).
    eapply fills_into; [apply alignment_reads|].
    do 2 (eapply fills_into; [apply range_reads|]).
    eapply fills_into; [apply rect_reads|].
    apply fills_last. by eapply (reads_array _ _ IInt32).
  - by destruct b.
Qed.

(** Only the first twelve of the thirty-two sample formats travel; the others
    keep the value they had in the receiver's structure. *)
Definition recv_audio (b b0 : AudioPortCap) : AudioPortCap :=
  set_sampleFormats (take SAMPLE_FORMAT_NUM (sampleFormats b) ++
                     drop SAMPLE_FORMAT_NUM (sampleFormats b0)) b.

Lemma audio_reads d b b0 :
  audio_wf b -> audio_wf b0 ->
  reads d (AudioPortCapBlockUnmarshalling d (Some b0)) (enc_audio b) (true, Some (recv_audio b b0)).
Proof.
  intros (H1 & H2 & H3 & H4) (G1 & G2 & G3 & G4).
  unfold AudioPortCapBlockUnmarshalling, enc_audio. eapply reads_value.
  - eapply fills_into.
    { eapply (reads_loop _ _ _ IInt32 _ (take SAMPLE_FORMAT_NUM (sampleFormats b)));
        [done | rewrite length_take | ]; unfold SAMPLE_FORMAT_NUM, SAMPLE_FMT_NUM in *; lia. }
    do 2 (eapply fills_into; [by eapply (reads_array _ _ IInt32)|]).
    apply fills_last. by eapply (reads_array _ _ IInt32).
  - by destruct b.
Qed.

Lemma capability_reads d b b0 :
  capability_wf b -> capability_wf b0 ->
  reads d (CodecCompCapabilityBlockUnmarshalling d (Some b0)) (enc_capability b) (true, Some b).
Proof.
  intros (H1 & H2 & H3 & H4 & H5 & H6) (_ & _ & G3 & _ & G5 & _).
  eapply reads_value.
  - unfold CodecCompCapabilityBlockUnmarshalling, enc_capability; cbn [app].
    do 2 (eapply reads_into_item; [done | done |]).
    eapply fills_into; [by eapply (reads_array _ _ IUint8)|].
    eapply fills_into; [by eapply (reads_array _ _ IInt32)|].
    do 4 (eapply reads_into_item; [done | done |]).
    eapply fills_into; [apply range_reads|].
    eapply reads_into_item; [by cbn; rewrite H6 | done | apply reads_ret].
  - destruct b as [? ? ? ? ? sw ? ? ? ?]; cbn in *.
    unfold set_cap_role, set_cap_type; cbn. rewrite !u32_i32_id by done. by destruct sw.
Qed.
End read_lemmas.

(** ** Codec buffers: unmarshalling allocates the payload *)
Section buffer_lemmas.
Context {SB : Type} `{!Platform SB, !PlatformLaws SB} {OMX : OmxTypes} {X : Type}.
Context (base : gmap nat SB) (d r : nat) (Hdr : d <> r).
Implicit Types (sd sr : SB) (L : gset nat) (n : nat) (x : X).
Abbreviation St := (call_state base d r).
Abbreviation M := (M (World SB X)).

Definition payload_live (n : nat) (b : OmxCodecBuffer) (L : gset nat) : gset nat :=
  if heap_payload b then {[n]} ∪ L else L.
Definition payload_next (n : nat) (b : OmxCodecBuffer) : nat :=
  if heap_payload b then S n else n.

Lemma payload_bounded n b L : bounded L n -> bounded (payload_live n b L) (payload_next n b).
Proof. intros H. unfold payload_live, payload_next. destruct (heap_payload b); auto with hdf. Qed.

Lemma wp_into_item {V T} (b : T) kd f set (k : T -> M (bool * option T)) i v (a : V) sd sr L n x Q :
  sbuf_view sd = i :: v -> kind_of i = kd -> f (recv i) = Some a ->
  (forall sd', sbuf_view sd' = v -> wp (k (set a b)) Q (St sd' sr L n x)) ->
  wp (read_into b (read_as kd f d) set k) Q (St sd sr L n x).
Proof. intros Hv Hk Hf HQ. apply wp_bind. by eapply wp_read_data. Qed.

Lemma fd_i32 fd : -1 <= fd < 2 ^ 31 -> i32 fd = fd.
Proof. intros H. apply i32_id. lia. Qed.

Lemma wp_payload_unmarshal b b0 v sd sr L n x (Q : bool * option OmxCodecBuffer -> World SB X -> Prop) :
  buffer_ok SB b -> bounded L n ->
  sbuf_view sd = [IInt32 (i32 (bufferType b)); IUint32 (bufferLen b)] ++ enc_payload b ++ v ->
  (forall sd', sbuf_view sd' = v ->
     Q (true, Some (set_buffer (recv_payload n b) (set_bufferLen (bufferLen b) (set_bufferType (bufferType b) b0))))
       (St sd' sr (payload_live n b L) (payload_next n b) x)) ->
  (forall sd' n' b', ~ reliable SB -> (n <= n')%nat -> Q (false, Some b') (St sd' sr L n' x)) ->
  wp (CodecBufferUnmarshalling d b0) Q (St sd sr L n x).
Proof.
  intros (Ht & _ & Hl & _ & Hp) HL Hv HQ Hfail. unfold CodecBufferUnmarshalling.
  unfold enc_payload, recv_payload, payload_live, payload_next, heap_payload, payload_ok in *.
  eapply wp_into_item; [done | done | done |]. intros sd1 Hv1.
  eapply wp_into_item; [done | done | done |]. intros sd2 Hv2. cbn beta.
  rewrite u32_i32_id by done. simpl bufferLen. simpl bufferType.
  destruct (Z.leb_spec (bufferLen b) 0) as [Hz|Hz].
  { replace (0 <? bufferLen b) with false in HQ by (symmetry; apply Z.ltb_ge; lia).
    cbn in HQ. apply wp_ret. by apply HQ. }
  specialize (Hp Hz). replace (0 <? bufferLen b) with true in * by (symmetry; apply Z.ltb_lt; lia).
  destruct (bufferType b =? BUFFER_TYPE_AVSHARE_MEM_FD); cbn in HQ.
  - destruct Hp as (fd & Hb & Hfd & Hrel). rewrite Hb, fd_i32 in * by done.
    apply wp_bind. unfold HdfSbufReadFileDescriptor. apply wp_bind.
    eapply wp_read_data; [done | done | done | done |]. intros sd3 Hv3. apply wp_ret; cbn.
    destruct (Z.ltb_spec (fd_image fd) 0) as [Hn|_].
    + apply wp_ret, Hfail; [|lia]. intros Hr. pose proof (fd_image_valid fd). specialize (Hrel Hr). lia.
    + apply wp_ret. by apply HQ.
  - destruct Hp as (m & Hb & Hm). rewrite Hb in *; cbn in *.
    apply wp_bind, wp_calloc.
    + apply wp_bind. rewrite <- (length_take_le (mem_cells m) (Z.to_nat (bufferLen b))) at 2 by done.
      eapply (wp_read_loop_data _ _ _ Hdr _ _ IUint8); [done | exact Hv2 | |].
      { cbn. by rewrite length_take_le, length_replicate by done. }
      intros sd3 Hv3. apply wp_ret; cbn. rewrite length_take_le by done.
      rewrite drop_ge by (by rewrite length_replicate). rewrite app_nil_r. by apply HQ.
    + intros Hnr. apply wp_ret. apply Hfail; [auto | lia].
Qed.

(** The receiver obtains the sender's buffer, with the payload in memory of its
    own; the only failure is a lack of memory, and it leaves none behind. *)
Lemma wp_buffer_ok_unmarshal b b0 v sd sr L n x (Q : bool * option OmxCodecBuffer -> World SB X -> Prop) :
  buffer_ok SB b -> bounded L n ->
  sbuf_view sd = enc_buffer b ++ v ->
  (forall sd', sbuf_view sd' = v ->
     Q (true, Some (recv_buffer n b)) (St sd' sr (payload_live n b L) (payload_next n b) x)) ->
  (forall sd' n' b', ~ reliable SB -> (n <= n')%nat -> Q (false, Some b') (St sd' sr L n' x)) ->
  wp (OmxCodecBufferBlockUnmarshalling d (Some b0)) Q (St sd sr L n x).
Proof.
  intros Hwf HL Hv HQ Hfail. pose proof Hwf as (Ht & Hbt & Hl & Hver & Hp).
  unfold OmxCodecBufferBlockUnmarshalling, enc_buffer in *. rewrite <- !app_assoc in Hv. cbn [app] in Hv.
  do 2 (eapply wp_into_item; [done | done | done |]; clear sd Hv; intros sd Hv).
  eapply wp_into_item; [done | by cbn; rewrite Hver | done |]; clear sd Hv; intros sd Hv.
  apply wp_bind. eapply wp_payload_unmarshal; [done | done | exact Hv | |].
  - clear sd Hv; intros sd Hv. cbn beta iota.
    do 7 (eapply wp_into_item; [done | done | done |]; clear sd Hv; intros sd Hv).
    apply wp_ret. cbn. specialize (HQ sd Hv). cbn in HQ |- *. rewrite u32_i32_id by done.
    unfold recv_buffer in HQ. by destruct b.
  - intros sd' n' b' Hnr Hn. apply wp_ret. by apply Hfail.
Qed.

Lemma wp_buffer_unmarshal b b0 v sd sr L n x (Q : bool * option OmxCodecBuffer -> World SB X -> Prop) :
  buffer_wf b -> bounded L n ->
  sbuf_view sd = enc_buffer b ++ v ->
  (forall sd', sbuf_view sd' = v ->
     Q (true, Some (recv_buffer n b)) (St sd' sr (payload_live n b L) (payload_next n b) x)) ->
  (forall sd' n' b', ~ reliable SB -> (n <= n')%nat -> Q (false, Some b') (St sd' sr L n' x)) ->
  wp (OmxCodecBufferBlockUnmarshalling d (Some b0)) Q (St sd sr L n x).
Proof. intros Hb. by apply wp_buffer_ok_unmarshal, buffer_wf_ok. Qed.

(** On any message the function has defined behaviour, keeps the memory that
    was live and adds at most one block. *)
Lemma wp_buffer_any b0 sd sr L n x (Q : bool * option OmxCodecBuffer -> World SB X -> Prop) :
  bounded L n ->
  (forall ok b' sd' L' n', L ⊆ L' -> bounded L' n' -> (n <= n')%nat ->
     Q (ok, Some b') (St sd' sr L' n' x)) ->
  wp (OmxCodecBufferBlockUnmarshalling d (Some b0)) Q (St sd sr L n x).
Proof.
  intros HL HQ. unfold OmxCodecBufferBlockUnmarshalling.
  assert (forall V (b : OmxCodecBuffer) kd f (set : V -> _) k sd sr L n Q,
    (forall o' sd', wp (k (set o' b)) Q (St sd' sr L n x)) ->
    (forall sd', Q (false, Some b) (St sd' sr L n x)) ->
    wp (read_into b (read_as kd f d) set k) Q (St sd sr L n x)) as Hstep.
  { intros V b kd f set k sd1 sr1 L1 n1 Q1 H1 H2. apply wp_bind, wp_read_any; [done|].
    intros [v|] sd'; [apply H1 | by apply wp_ret]. }
  do 3 (apply Hstep; [intros ? ? | intros; by apply HQ]).
  apply wp_bind. apply wp_mono with (P := fun r w => exists ok b' sd' L' n',
    r = (ok, Some b') /\ w = St sd' sr L' n' x /\ L ⊆ L' /\ bounded L' n' /\ (n <= n')%nat).
  - unfold CodecBufferUnmarshalling.
    do 2 (apply Hstep; [intros ? ? | intros; naive_solver]).
    case_match; [apply wp_ret; naive_solver|]. case_match.
    + apply wp_bind, wp_bind, wp_read_any; [done|]. intros o sdx. apply wp_ret.
      case_match; apply wp_ret; naive_solver.
    + case_match; [|apply wp_bind, wp_ret, wp_ret; naive_solver].
      apply wp_bind, wp_calloc.
      * apply wp_bind, wp_read_loop_any; [done | cbn; by rewrite length_replicate |].
        intros [] vs sdx _; cbn.
        -- apply wp_ret. eexists _, _, _, _, _. split_and!; [done | done | set_solver | auto with hdf | lia].
        -- apply wp_bind, wp_free_fresh; [done|]. apply wp_ret.
           eexists _, _, _, _, _. split_and!; [done | done | done | auto with hdf | lia].
      * intros _. apply wp_ret. eexists _, _, _, _, _. split_and!; [done | done | done | auto with hdf | lia].
  - intros a w (ok & b' & sdx & L' & n' & -> & -> & HL' & Hb & Hn). cbn.
    destruct ok; [|apply wp_ret; by apply HQ].
    do 7 (apply Hstep; [intros ? ? | intros; by apply HQ]).
    apply wp_ret. by apply HQ.
Qed.
End buffer_lemmas.
