(* ===== verification/CodecService.v ===== *)
(** * CodecService: the codec component service and its abstract specification

    Models [codec/hal/src/codec_component_type_service.c]: every method of the
    component service forwards to the OpenMAX adapter with the component handle
    kept by the stub.  The adapter (C++) is a parameter.  The second half of the
    file is the contract between the two ends of the remote interface: the
    requests, their encoding as messages, and what serving a request means. *)
From S2P Require Import Prelude Hdf Rpc Arrays CodecTypes.
Open Scope Z_scope.

(** ** Data of the server

    The array of a group is known by its block, null when there is none. *)
Record CodecCapablityGroup := mkGroup {
  num : Z;
  capablitis_at : option nat;
  capablitis : list CodecCompCapability;
}.

Record CodecCapablites := mkCapablites {
  videoHwEncoderGroup : CodecCapablityGroup;
  videoHwDecoderGroup : CodecCapablityGroup;
  videoSwEncoderGroup : CodecCapablityGroup;
  videoSwDecoderGroup : CodecCapablityGroup;
  audioHwEncoderGroup : CodecCapablityGroup;
  audioHwDecoderGroup : CodecCapablityGroup;
  audioSwEncoderGroup : CodecCapablityGroup;
  audioSwDecoderGroup : CodecCapablityGroup;
  inited : bool;
  total : Z;
}.

(** The mutable state behind the stub: the component handle it stores, the
    capability table of the process, and the state of the adapter. *)
Record CodecServer (A : Type) := mkServer {
  componentHandle : Z;
  g_codecCapabilites : CodecCapablites;
  adapter : A;
}.
Arguments mkServer {A} _ _ _.
Arguments componentHandle {A} _.
Arguments g_codecCapabilites {A} _.
Arguments adapter {A} _.

(** The OpenMAX adapter.  A function that writes through a pointer returns what
    it wrote; a callback is known by its remote object.  The functions are total:
    a call during which the adapter itself, or the vendor's component under it,
    has no defined behaviour (a null buffer header in [UseHandleBuffer], say) is
    not a call of this class. *)
Class OmxAdapter (A : Type) := {
  OMXAdapterCreateComponent : option string -> list Z -> Z -> option Z -> A -> (Z * Z) * A;
  OmxAdapterDestoryComponent : Z -> A -> Z * A;
  OmxAdapterComponentVersion : Z -> A -> (Z * list Z) * A;
  OmxAdapterSendCommand : Z -> Z -> Z -> list Z -> Z -> A -> Z * A;
  OmxAdapterGetParameter : Z -> Z -> list Z -> Z -> A -> (Z * list Z) * A;
  OmxAdapterSetParameter : Z -> Z -> list Z -> Z -> A -> Z * A;
  OmxAdapterGetConfig : Z -> Z -> list Z -> Z -> A -> (Z * list Z) * A;
  OmxAdapterSetConfig : Z -> Z -> list Z -> Z -> A -> Z * A;
  OmxAdapterGetExtensionIndex : Z -> option string -> A -> (Z * Z) * A;
  OmxAdapterGetState : Z -> A -> (Z * Z) * A;
  OmxAdapterComponentTunnelRequest :
    Z -> Z -> Z -> Z -> OMX_TUNNELSETUPTYPE -> A -> (Z * OMX_TUNNELSETUPTYPE) * A;
  OmxAdapterUseBuffer : Z -> Z -> OmxCodecBuffer -> A -> (Z * OmxCodecBuffer) * A;
  OmxAdapterAllocateBuffer : Z -> Z -> OmxCodecBuffer -> A -> (Z * OmxCodecBuffer) * A;
  OmxAdapterFreeBuffer : Z -> Z -> OmxCodecBuffer -> A -> Z * A;
  OmxAdapterEmptyThisBuffer : Z -> OmxCodecBuffer -> A -> Z * A;
  OmxAdapterFillThisBuffer : Z -> OmxCodecBuffer -> A -> Z * A;
  OmxAdapterSetCallbacks : Z -> option Z -> list Z -> Z -> A -> Z * A;
  OmxAdapterDeInit : Z -> A -> Z * A;
  OmxAdapterUseEglImage : Z -> OmxCodecBuffer -> Z -> list Z -> Z -> A -> (Z * OmxCodecBuffer) * A;
  OmxAdapterComponentRoleEnum : Z -> list Z -> Z -> Z -> A -> (Z * list Z) * A;
}.

(** [sizeof(struct CompVerInfo)]. *)
Definition sizeof_CompVerInfo {OMX : OmxTypes} : Z :=
  Z.of_nat NAME_LENGTH + Z.of_nat UUID_LENGTH + 2 * sizeof_OMX_VERSIONTYPE.

(** [FD_SIZE] of the adapter: the length of a payload that is a descriptor. *)
Definition FD_SIZE : Z := 4.

(** What [ComponentNode::AllocateBuffer] makes of the buffer [b] it is given: the
    descriptor of a new shared memory replaces the payload, whatever it was; the
    type of the buffer stays what the client wrote.  Obtaining the shared memory
    is a request for memory; the -1 of a failure is not checked. *)
Definition allocated_from (SB : Type) `{!Platform SB} {OMX : OmxTypes} (b b' : OmxCodecBuffer) : Prop :=
  bufferType b' = bufferType b /\ buf_type b' = buf_type b /\ bufferLen b' = FD_SIZE /\
  Z.of_nat (length (version b')) = sizeof_OMX_VERSIONTYPE /\
  exists fd, buffer b' = PInt fd /\ -1 <= fd < 2 ^ 31 /\ (reliable SB -> 0 <= fd).

(** What the callers rely on: the adapter fills the storage it is given, no
    more and no less, with values of the right type; [UseBuffer] and
    [UseEglImage] leave the payload of the buffer alone ([component_node.cpp]). *)
Class OmxAdapterLaws (SB A : Type) `{!Platform SB} `{!OmxAdapter A} {OMX : OmxTypes} := {
  version_size h a :
    Z.of_nat (length (OmxAdapterComponentVersion h a).1.2) = sizeof_CompVerInfo;
  get_parameter_size h i p n a : length (OmxAdapterGetParameter h i p n a).1.2 = length p;
  get_config_size h i p n a : length (OmxAdapterGetConfig h i p n a).1.2 = length p;
  role_size h p n i a : length (OmxAdapterComponentRoleEnum h p n i a).1.2 = length p;
  state_range h a : 0 <= (OmxAdapterGetState h a).1.2 < 2 ^ 32;
  tunnel_range h p c q t a :
    tunnel_wf t -> tunnel_wf (OmxAdapterComponentTunnelRequest h p c q t a).1.2;
  use_buffer_wf h p b a : buffer_wf b -> buffer_wf (OmxAdapterUseBuffer h p b a).1.2;
  allocate_buffer_fd h p b a :
    (OmxAdapterAllocateBuffer h p b a).1.1 = 0 ->
    allocated_from SB b (OmxAdapterAllocateBuffer h p b a).1.2;
  use_egl_wf h b p e n a : buffer_wf b -> buffer_wf (OmxAdapterUseEglImage h b p e n a).1.2;
}.

(** The answer can be sent when the client asked for shared memory. *)
Lemma allocated_ok (SB : Type) `{!Platform SB} {OMX : OmxTypes} b b' :
  buffer_wf b -> bufferType b = BUFFER_TYPE_AVSHARE_MEM_FD -> allocated_from SB b b' -> buffer_ok SB b'.
Proof.
  intros (H1 & H2 & _) Ht (E1 & E2 & E3 & E4 & Hfd). unfold buffer_ok, payload_ok.
  rewrite E1, E2, E3. do 4 (split; [done|]). intros _. by rewrite Ht.
Qed.

(** ** The service methods *)
Section service.
Context {SB : Type} `{!Platform SB} {A : Type} `{!OmxAdapter A}.
Abbreviation M := (M (World SB (CodecServer A))).

(** Run an adapter function on the handle and state of the server. *)
Definition with_adapter {B} (f : Z -> A -> B * A) : M B :=
  x ← svc_state;
  let '(b, a') := f (componentHandle x) (adapter x) in
  set_svc (mkServer (componentHandle x) (g_codecCapabilites x) a');;
  mret b.

(** Creating a component is not tied to a handle: it delivers one. *)
Definition OmxManagerCreateComponent (compName : option string) (appData : list Z) (appDataSize : Z)
    (callbacks : option Z) : M (Z * Z) :=
  with_adapter (fun _ => OMXAdapterCreateComponent compName appData appDataSize callbacks).
Definition OmxManagerDestroyComponent (compHandle : Z) : M Z :=
  with_adapter (fun _ => OmxAdapterDestoryComponent compHandle).
Definition CodecComponentTypeGetComponentVersion : M (Z * list Z) :=
  with_adapter OmxAdapterComponentVersion.
Definition CodecComponentTypeSendCommand (cmd param : Z) (cmdData : list Z) (cmdDataLen : Z) : M Z :=
  with_adapter (fun h => OmxAdapterSendCommand h cmd param cmdData cmdDataLen).
Definition CodecComponentTypeGetParameter (paramIndex : Z) (paramStruct : list Z) (paramStructLen : Z) : M (Z * list Z) :=
  with_adapter (fun h => OmxAdapterGetParameter h paramIndex paramStruct paramStructLen).
Definition CodecComponentTypeSetParameter (index : Z) (paramStruct : list Z) (paramStructLen : Z) : M Z :=
  with_adapter (fun h => OmxAdapterSetParameter h index paramStruct paramStructLen).
Definition CodecComponentTypeGetConfig (index : Z) (cfgStruct : list Z) (cfgStructLen : Z) : M (Z * list Z) :=
  with_adapter (fun h => OmxAdapterGetConfig h index cfgStruct cfgStructLen).
Definition CodecComponentTypeSetConfig (index : Z) (cfgStruct : list Z) (cfgStructLen : Z) : M Z :=
  with_adapter (fun h => OmxAdapterSetConfig h index cfgStruct cfgStructLen).
Definition CodecComponentTypeGetExtensionIndex (paramName : option string) : M (Z * Z) :=
  with_adapter (fun h => OmxAdapterGetExtensionIndex h paramName).
Definition CodecComponentTypeGetState : M (Z * Z) := with_adapter OmxAdapterGetState.
Definition CodecComponentTypeComponentTunnelRequest (port tunneledComp tunneledPort : Z)
    (tunnelSetup : OMX_TUNNELSETUPTYPE) : M (Z * OMX_TUNNELSETUPTYPE) :=
  with_adapter (fun h => OmxAdapterComponentTunnelRequest h port tunneledComp tunneledPort tunnelSetup).
Definition CodecComponentTypeUseBuffer (portIndex : Z) (b : OmxCodecBuffer) : M (Z * OmxCodecBuffer) :=
  with_adapter (fun h => OmxAdapterUseBuffer h portIndex b).
Definition CodecComponentTypeAllocateBuffer (portIndex : Z) (b : OmxCodecBuffer) : M (Z * OmxCodecBuffer) :=
  with_adapter (fun h => OmxAdapterAllocateBuffer h portIndex b).
Definition CodecComponentTypeFreeBuffer (portIndex : Z) (b : OmxCodecBuffer) : M Z :=
  with_adapter (fun h => OmxAdapterFreeBuffer h portIndex b).
Definition CodecComponentTypeEmptyThisBuffer (b : OmxCodecBuffer) : M Z :=
  with_adapter (fun h => OmxAdapterEmptyThisBuffer h b).
Definition CodecComponentTypeFillThisBuffer (b : OmxCodecBuffer) : M Z :=
  with_adapter (fun h => OmxAdapterFillThisBuffer h b).
Definition CodecComponentTypeSetCallbacks (callback : option Z) (appData : list Z) (appDataLen : Z) : M Z :=
  with_adapter (fun h => OmxAdapterSetCallbacks h callback appData appDataLen).
Definition CodecComponentTypeComponentDeInit : M Z := with_adapter OmxAdapterDeInit.
Definition CodecComponentTypeUseEglImage (b : OmxCodecBuffer) (portIndex : Z) (eglImage : list Z)
    (eglImageLen : Z) : M (Z * OmxCodecBuffer) :=
  with_adapter (fun h => OmxAdapterUseEglImage h b portIndex eglImage eglImageLen).
Definition CodecComponentTypeComponentRoleEnum (role : list Z) (roleLen index : Z) : M (Z * list Z) :=
  with_adapter (fun h => OmxAdapterComponentRoleEnum h role roleLen index).
End service.

(** The interface descriptor of the codec service and of its callbacks. *)
Definition codec_desc : string := "ohos.hdi.codec_service".

(** ** Command numbers: [enum ComponentDispatchCmd] *)
Definition CMD_CODEC_GET_COMPONENT_NUM : Z := 0.
Definition CMD_CODEC_GET_COMPONENT_CAPABILITY_LIST : Z := 1.
Definition CMD_CREATE_COMPONENT : Z := 2.
Definition CMD_DESTROY_COMPONENT : Z := 3.
Definition CMD_GET_COMPONENT_VERSION : Z := 4.
Definition CMD_SEND_COMMAND : Z := 5.
Definition CMD_GET_PARAMETER : Z := 6.
Definition CMD_SET_PARAMETER : Z := 7.
Definition CMD_GET_CONFIG : Z := 8.
Definition CMD_SET_CONFIG : Z := 9.
Definition CMD_GET_EXTENSION_INDEX : Z := 10.
Definition CMD_GET_STATE : Z := 11.
Definition CMD_COMPONENT_TUNNEL_REQUEST : Z := 12.
Definition CMD_USE_BUFFER : Z := 13.
Definition CMD_ALLOCATE_BUFFER : Z := 14.
Definition CMD_FREE_BUFFER : Z := 15.
Definition CMD_EMPTY_THIS_BUFFER : Z := 16.
Definition CMD_FILL_THIS_BUFFER : Z := 17.
Definition CMD_SET_CALLBACKS : Z := 18.
Definition CMD_COMPONENT_DE_INIT : Z := 19.
Definition CMD_USE_EGL_IMAGE : Z := 20.
Definition CMD_COMPONENT_ROLE_ENUM : Z := 21.

(** ** The abstract interface

    A request is a method of [struct CodecComponentType] with its arguments; an
    array stands for itself and its length. *)
Inductive request :=
  | ReqGetComponentVersion
  | ReqSendCommand (cmd param : Z) (cmdData : list Z)
  | ReqGetParameter (paramIndex : Z) (paramStruct : list Z)
  | ReqSetParameter (index : Z) (paramStruct : list Z)
  | ReqGetConfig (index : Z) (cfgStruct : list Z)
  | ReqSetConfig (index : Z) (cfgStruct : list Z)
  | ReqGetExtensionIndex (paramName : option string)
  | ReqGetState
  | ReqComponentTunnelRequest (port tunneledComp tunneledPort : Z) (setup : OMX_TUNNELSETUPTYPE)
  | ReqUseBuffer (portIndex : Z) (b : OmxCodecBuffer)
  | ReqAllocateBuffer (portIndex : Z) (b : OmxCodecBuffer)
  | ReqFreeBuffer (portIndex : Z) (b : OmxCodecBuffer)
  | ReqEmptyThisBuffer (b : OmxCodecBuffer)
  | ReqFillThisBuffer (b : OmxCodecBuffer)
  | ReqSetCallbacks (callback : option Z) (appData : list Z)
  | ReqComponentDeInit
  | ReqUseEglImage (b : OmxCodecBuffer) (portIndex : Z) (eglImage : list Z)
  | ReqComponentRoleEnum (roleLen index : Z).

Inductive answer :=
  | AnsNone
  | AnsBytes (bytes : list Z)
  | AnsInt8s (vals : list Z)
  | AnsUint8s (vals : list Z)
  | AnsUint32 (v : Z)
  | AnsTunnel (t : OMX_TUNNELSETUPTYPE)
  | AnsBuffer (b : OmxCodecBuffer).

Definition cmd_of (q : request) : Z :=
  match q with
  | ReqGetComponentVersion => CMD_GET_COMPONENT_VERSION
  | ReqSendCommand _ _ _ => CMD_SEND_COMMAND
  | ReqGetParameter _ _ => CMD_GET_PARAMETER
  | ReqSetParameter _ _ => CMD_SET_PARAMETER
  | ReqGetConfig _ _ => CMD_GET_CONFIG
  | ReqSetConfig _ _ => CMD_SET_CONFIG
  | ReqGetExtensionIndex _ => CMD_GET_EXTENSION_INDEX
  | ReqGetState => CMD_GET_STATE
  | ReqComponentTunnelRequest _ _ _ _ => CMD_COMPONENT_TUNNEL_REQUEST
  | ReqUseBuffer _ _ => CMD_USE_BUFFER
  | ReqAllocateBuffer _ _ => CMD_ALLOCATE_BUFFER
  | ReqFreeBuffer _ _ => CMD_FREE_BUFFER
  | ReqEmptyThisBuffer _ => CMD_EMPTY_THIS_BUFFER
  | ReqFillThisBuffer _ => CMD_FILL_THIS_BUFFER
  | ReqSetCallbacks _ _ => CMD_SET_CALLBACKS
  | ReqComponentDeInit => CMD_COMPONENT_DE_INIT
  | ReqUseEglImage _ _ _ => CMD_USE_EGL_IMAGE
  | ReqComponentRoleEnum _ _ => CMD_COMPONENT_ROLE_ENUM
  end.

(** The message of a request, after the interface token. *)
Definition encode (q : request) : list item :=
  match q with
  | ReqGetComponentVersion | ReqGetState | ReqComponentDeInit => []
  | ReqSendCommand cmd param l => [IUint32 (u32 cmd); IUint32 param] ++ enc_int8s l
  | ReqGetParameter i l | ReqSetParameter i l | ReqGetConfig i l | ReqSetConfig i l =>
      IUint32 i :: enc_int8s l
  | ReqGetExtensionIndex name => match name with Some s => [IString s] | None => [] end
  | ReqComponentTunnelRequest p c q t => [IUint32 p; IInt32 c; IUint32 q] ++ enc_tunnel t
  | ReqUseBuffer p b | ReqAllocateBuffer p b | ReqFreeBuffer p b => IUint32 p :: enc_buffer b
  | ReqEmptyThisBuffer b | ReqFillThisBuffer b => enc_buffer b
  | ReqSetCallbacks cb l => match cb with Some r => [IRemote r] | None => [] end ++ enc_int8s l
  | ReqUseEglImage b p l => enc_buffer b ++ [IUint32 p] ++ enc_int8s l
  | ReqComponentRoleEnum n i => [IUint32 n; IUint32 i]
  end.

Definition enc_answer (a : answer) : list item :=
  match a with
  | AnsNone => []
  | AnsBytes l => [IUnpad l]
  | AnsInt8s l => map IInt8 l
  | AnsUint8s l => map IUint8 l
  | AnsUint32 v => [IUint32 v]
  | AnsTunnel t => enc_tunnel t
  | AnsBuffer b => enc_buffer b
  end.

(** Arguments that are values of their C types.  A read-back array must not be
    empty: its size is what the server asks the allocator for.  A buffer to
    allocate must be of the shared memory type: the adapter answers with a
    descriptor, which the stub takes for an address when the type is another
    ([CodecRpc.allocate_unshared_undefined]). *)
Definition request_wf {OMX : OmxTypes} (q : request) : Prop :=
  match q with
  | ReqSendCommand cmd _ l => 0 <= cmd < 2 ^ 32 /\ len l < 2 ^ 32
  | ReqSetParameter _ l | ReqSetConfig _ l => len l < 2 ^ 32
  | ReqGetParameter _ l | ReqGetConfig _ l => 0 < len l < 2 ^ 32
  | ReqGetExtensionIndex name => is_Some name
  | ReqComponentTunnelRequest _ _ _ t => tunnel_wf t
  | ReqUseBuffer _ b | ReqFreeBuffer _ b
  | ReqEmptyThisBuffer b | ReqFillThisBuffer b => buffer_wf b
  | ReqAllocateBuffer _ b => buffer_wf b /\ bufferType b = BUFFER_TYPE_AVSHARE_MEM_FD
  | ReqSetCallbacks cb l => is_Some cb /\ len l < 2 ^ 32
  | ReqUseEglImage b _ l => buffer_wf b /\ len l < 2 ^ 32
  | ReqComponentRoleEnum n _ => 0 < n < 2 ^ 32
  | _ => True
  end.

(** The request as the server sees it, [n] naming the block that receives the
    payload of a buffer. *)
Definition received `{!Platform SB} (n : nat) (q : request) : request :=
  match q with
  | ReqUseBuffer p b => ReqUseBuffer p (recv_buffer n b)
  | ReqAllocateBuffer p b => ReqAllocateBuffer p (recv_buffer n b)
  | ReqFreeBuffer p b => ReqFreeBuffer p (recv_buffer n b)
  | ReqEmptyThisBuffer b => ReqEmptyThisBuffer (recv_buffer n b)
  | ReqFillThisBuffer b => ReqFillThisBuffer (recv_buffer n b)
  | ReqUseEglImage b p l => ReqUseEglImage (recv_buffer n b) p l
  | ReqSetCallbacks cb l => ReqSetCallbacks (remote_image <$> cb) l
  | _ => q
  end.

(** Without memory the server passes null for a name or a callback object. *)
Definition degraded (q : request) : request :=
  match q with
  | ReqGetExtensionIndex _ => ReqGetExtensionIndex None
  | ReqSetCallbacks _ l => ReqSetCallbacks None l
  | _ => q
  end.

Definition delivered `{!Platform SB} (q q' : request) : Prop :=
  exists n, q' = received n q \/ (~ reliable SB /\ q' = degraded (received n q)).

(** What the adapter answers to a request. *)
Definition adapter_serve {A} `{!OmxAdapter A} (q : request) (h : Z) (a : A) : (Z * answer) * A :=
  let plain (r : Z * A) := ((r.1, AnsNone), r.2) in
  let give {B} (f : B -> answer) (r : (Z * B) * A) := ((r.1.1, f r.1.2), r.2) in
  match q with
  | ReqGetComponentVersion => give AnsBytes (OmxAdapterComponentVersion h a)
  | ReqSendCommand cmd p l => plain (OmxAdapterSendCommand h cmd p l (len l) a)
  | ReqGetParameter i l => give AnsInt8s (OmxAdapterGetParameter h i l (len l) a)
  | ReqSetParameter i l => plain (OmxAdapterSetParameter h i l (len l) a)
  | ReqGetConfig i l => give AnsInt8s (OmxAdapterGetConfig h i l (len l) a)
  | ReqSetConfig i l => plain (OmxAdapterSetConfig h i l (len l) a)
  | ReqGetExtensionIndex s => give AnsUint32 (OmxAdapterGetExtensionIndex h s a)
  | ReqGetState => give AnsUint32 (OmxAdapterGetState h a)
  | ReqComponentTunnelRequest p c q t => give AnsTunnel (OmxAdapterComponentTunnelRequest h p c q t a)
  | ReqUseBuffer p b => give AnsBuffer (OmxAdapterUseBuffer h p b a)
  | ReqAllocateBuffer p b => give AnsBuffer (OmxAdapterAllocateBuffer h p b a)
  | ReqFreeBuffer p b => plain (OmxAdapterFreeBuffer h p b a)
  | ReqEmptyThisBuffer b => plain (OmxAdapterEmptyThisBuffer h b a)
  | ReqFillThisBuffer b => plain (OmxAdapterFillThisBuffer h b a)
  | ReqSetCallbacks cb l => plain (OmxAdapterSetCallbacks h cb l (len l) a)
  | ReqComponentDeInit => plain (OmxAdapterDeInit h a)
  | ReqUseEglImage b p l => give AnsBuffer (OmxAdapterUseEglImage h b p l (len l) a)
  | ReqComponentRoleEnum n i =>
      give AnsUint8s (OmxAdapterComponentRoleEnum h (replicate (Z.to_nat n) 0) n i a)
  end.

Definition serve {A} `{!OmxAdapter A} (q : request) (x : CodecServer A) : Z * answer * CodecServer A :=
  let r := adapter_serve q (componentHandle x) (adapter x) in
  (r.1, mkServer (componentHandle x) (g_codecCapabilites x) r.2).

(** [served q x ret ans x']: serving request [q] in server state [x] may end
    with status [ret], answer [ans] (which means nothing when [ret] is an
    error) and state [x'].  The adapter is called at most once, and exactly
    once unless memory runs out. *)
Section served.
Context {SB : Type} `{!Platform SB} `{!HdfStatus} {A : Type} `{!OmxAdapter A}.

Inductive served (q : request) (x : CodecServer A) : Z -> answer -> CodecServer A -> Prop :=
  | served_refused e out :
      ~ reliable SB -> e <> HDF_SUCCESS -> served q x e out x
  | served_failed q' e ans x' :
      delivered (SB := SB) q q' -> serve q' x = (e, ans, x') -> e <> HDF_SUCCESS ->
      served q x e ans x'
  | served_lost q' e ans x' :
      ~ reliable SB -> delivered (SB := SB) q q' -> serve q' x = (HDF_SUCCESS, ans, x') ->
      e <> HDF_SUCCESS -> served q x e ans x'
  | served_done q' ans x' :
      delivered (SB := SB) q q' -> serve q' x = (HDF_SUCCESS, ans, x') ->
      served q x HDF_SUCCESS ans x'.
End served.

(** ** The contract of the interface

    What a request may leave allocated. *)
Definition keeps (q : request) (L L' : gset nat) : Prop :=
  match q with
  | ReqUseBuffer _ _ | ReqAllocateBuffer _ _ | ReqFreeBuffer _ _
  | ReqEmptyThisBuffer _ | ReqFillThisBuffer _ | ReqSetCallbacks _ _
  | ReqUseEglImage _ _ _ => L ⊆ L'
  | _ => L' = L
  end.

Lemma keeps_refl q L : keeps q L L.
Proof. destruct q; done || set_solver. Qed.

Lemma keeps_trans q L1 L2 L3 : keeps q L1 L2 -> keeps q L2 L3 -> keeps q L1 L3.
Proof. destruct q; cbn; set_solver. Qed.

(** The shape of the answer to a request. *)
Definition answer_wf (SB : Type) `{!Platform SB} {OMX : OmxTypes} (q : request) (ans : answer) : Prop :=
  match q with
  | ReqGetComponentVersion => exists l, ans = AnsBytes l /\ len l = sizeof_CompVerInfo
  | ReqGetParameter _ p | ReqGetConfig _ p => exists l, ans = AnsInt8s l /\ length l = length p
  | ReqGetExtensionIndex _ | ReqGetState => exists v, ans = AnsUint32 v
  | ReqComponentTunnelRequest _ _ _ _ => exists t, ans = AnsTunnel t /\ tunnel_wf t
  | ReqUseBuffer _ _ | ReqAllocateBuffer _ _ | ReqUseEglImage _ _ _ =>
      exists b, ans = AnsBuffer b /\ buffer_ok SB b
  | ReqComponentRoleEnum n _ => exists l, ans = AnsUint8s l /\ length l = Z.to_nat n
  | _ => ans = AnsNone
  end.

Lemma serve_answer `{!Platform SB, !PlatformLaws SB} `{!HdfStatus, !HdfStatusLaws} {OMX : OmxTypes}
    {A} `{!OmxAdapter A, !OmxAdapterLaws SB A} q q' (x : CodecServer A) ans x' :
  request_wf q -> delivered (SB := SB) q q' -> serve q' x = (HDF_SUCCESS, ans, x') -> answer_wf SB q ans.
Proof.
  intros Hq [n Hq'] Hs. unfold serve in Hs. pose proof (f_equal (fun p => p.1.1) Hs) as Hret.
  apply (f_equal (fun p => p.1.2)) in Hs. cbn in Hs, Hret. subst ans. rewrite hdf_success_zero in Hret.
  destruct Hq' as [-> | [_ ->]]; destruct q; cbn in Hq, Hret |- *; eauto.
  all: eexists; split; [done|].
  all: try (apply version_size || apply get_parameter_size || apply get_config_size).
  all: try (apply buffer_wf_ok, use_buffer_wf || apply buffer_wf_ok, use_egl_wf).
  all: try (apply recv_buffer_wf; naive_solver).
  all: try (eapply (allocated_ok _ (recv_buffer n b)); [apply recv_buffer_wf, Hq | apply Hq | by apply allocate_buffer_fd]).
  all: try (rewrite role_size; apply length_replicate).
  all: by apply tunnel_range.
Qed.

(** The answer as the client sees it. *)
Definition recv_answer `{!Platform SB} (n : nat) (ans : answer) : answer :=
  match ans with AnsBuffer b => AnsBuffer (recv_buffer n b) | _ => ans end.

(** The codec component interface as a protocol. *)
#[global] Instance codec_protocol `{!Platform SB} {OMX : OmxTypes} : Protocol request answer := {
  p_cmd := cmd_of;
  p_encode := encode;
  p_answer := enc_answer;
  p_recv := recv_answer;
  p_wf := request_wf;
  p_answer_wf := answer_wf SB;
  p_keeps := keeps;
  p_keeps_refl := keeps_refl;
}.
