(* ===== verification/CodecInstance.v ===== *)
(** * CodecInstance: an adapter that satisfies the assumptions on the OpenMAX
    adapter

    The state of this adapter is the list of the calls it received, latest
    first; it accepts every call and fills output structures with marks that
    tell where they come from. *)
From S2P Require Import Prelude Hdf CodecTypes CodecService.
Open Scope Z_scope.

#[global] Instance log_omx : OmxTypes := { sizeof_OMX_VERSIONTYPE := 4 }.

Definition omx_log : Type := list (Z * request).

Definition log_call {B} (h : Z) (q : request) (b : B) (a : omx_log) : B * omx_log := (b, (h, q) :: a).

(** Every second byte of a structure is replaced, its size is kept. *)
Fixpoint mark (l : list Z) : list Z :=
  match l with a :: _ :: l' => a :: 7 :: mark l' | _ => l end.

#[global] Instance log_adapter : OmxAdapter omx_log := {
  OMXAdapterCreateComponent name d n cb a :=
    ((0, 70 + match name with Some s => Z.of_nat (String.length s) | None => 0 end), a);
  OmxAdapterDestoryComponent h a := (0, a);
  OmxAdapterComponentVersion h := log_call h ReqGetComponentVersion (0, replicate (Z.to_nat sizeof_CompVerInfo) 1);
  OmxAdapterSendCommand h cmd p l n := log_call h (ReqSendCommand cmd p l) 0;
  OmxAdapterGetParameter h i l n := log_call h (ReqGetParameter i l) (0, mark l);
  OmxAdapterSetParameter h i l n := log_call h (ReqSetParameter i l) 0;
  OmxAdapterGetConfig h i l n := log_call h (ReqGetConfig i l) (0, mark l);
  OmxAdapterSetConfig h i l n := log_call h (ReqSetConfig i l) 0;
  OmxAdapterGetExtensionIndex h s := log_call h (ReqGetExtensionIndex s) (0, 5);
  OmxAdapterGetState h := log_call h ReqGetState (0, 2);
  OmxAdapterComponentTunnelRequest h p c p' t := log_call h (ReqComponentTunnelRequest p c p' t) (0, t);
  OmxAdapterUseBuffer h p b := log_call h (ReqUseBuffer p b) (0, set_bufferId 9 b);
  OmxAdapterAllocateBuffer h p b := log_call h (ReqAllocateBuffer p b)
    (0, set_buffer (PInt 11) (set_bufferLen FD_SIZE (set_version (replicate 4 1) (set_bufferId 9 b))));
  OmxAdapterFreeBuffer h p b := log_call h (ReqFreeBuffer p b) 0;
  OmxAdapterEmptyThisBuffer h b := log_call h (ReqEmptyThisBuffer b) 0;
  OmxAdapterFillThisBuffer h b := log_call h (ReqFillThisBuffer b) 0;
  OmxAdapterSetCallbacks h cb l n := log_call h (ReqSetCallbacks cb l) 0;
  OmxAdapterDeInit h := log_call h ReqComponentDeInit 0;
  OmxAdapterUseEglImage h b p l n := log_call h (ReqUseEglImage b p l) (0, b);
  OmxAdapterComponentRoleEnum h l n i := log_call h (ReqComponentRoleEnum n i) (0, mark l);
}.

Lemma mark_length l : length (mark l) = length l.
Proof.
  induction l as [l IH] using (induction_ltof1 _ (@length Z)). unfold ltof in IH.
  destruct l as [|a [|b l]]; [done..|]. cbn. rewrite IH by (cbn; lia). done.
Qed.

#[global] Instance log_adapter_laws (SB : Type) `{!Platform SB} : OmxAdapterLaws SB omx_log.
Proof.
  split; intros; try done; try apply mark_length; try (by cbn; lia).
  do 4 (split; [done|]). by exists 11.
Qed.

(** A server with an empty capability table and component 42. *)
Definition no_group : CodecCapablityGroup := mkGroup 0 None [].
Definition no_capabilities : CodecCapablites :=
  mkCapablites no_group no_group no_group no_group no_group no_group no_group no_group true 0.
Definition log_server : CodecServer omx_log := mkServer 42 no_capabilities [].

(** The state before any call. *)
Definition world0 : World (list item) (CodecServer omx_log) := mkWorld ∅ ∅ 0 log_server.

Lemma world0_ok : world_ok world0.
Proof. by split. Qed.
