(* ===== verification/CodecWire.v ===== *)
(** * CodecWire: round trips of the wire format

    A structure marshalled into a message buffer and unmarshalled from it is
    the structure again; and unmarshalling a message of any contents is safe. *)
From S2P Require Import Prelude Hdf HdfQueue CodecTypes CodecInstance.
Open Scope Z_scope.

Section roundtrip.
Context {SB : Type} `{!Platform SB, !PlatformLaws SB} {OMX : OmxTypes} {X : Type}.
Abbreviation W := (World SB X).

(** Write to buffer [d], then read it back. *)
Definition send_recv {T} (wr : M W bool) (rd : M W (bool * option T)) : M W (bool * option T) :=
  unless wr do mret (false, None); rd.

Lemma send_recv_pure {T} d (wr : M W bool) (rd : M W (bool * option T)) l b base r sr L n x s0 :
  reliable SB -> d <> r -> sbuf_view s0 = [] -> writes d wr l -> reads d rd l (true, Some b) ->
  exists s1, send_recv wr rd (call_state base d r s0 sr L n x) =
             Some ((true, Some b), call_state base d r s1 sr L n x) /\ sbuf_view s1 = [].
Proof.
  intros Hrel Hdr Hv Hwr Hrd.
  assert (wp (send_recv wr rd) (fun res w' => exists s1, res = (true, Some b) /\
    w' = call_state base d r s1 sr L n x /\ sbuf_view s1 = []) (call_state base d r s0 sr L n x)) as Hwp.
  { apply wp_bind, Hwr; [done | | done]. intros s1 Hs1. cbn [negb]. rewrite Hv in Hs1.
    eapply Hrd; [done | by rewrite app_nil_r |]. eauto. }
  apply wp_inv in Hwp as (res & w' & Hr & s1 & -> & -> & Hs1). eauto.
Qed.

(** The state in which buffer 0 is empty. *)
Definition with_empty_buffer (s : SB) (L : gset nat) (n : nat) (x : X) : W := call_state ∅ 0 1 s s L n x.

(** A tunnel setup survives the trip. *)
Lemma tunnel_roundtrip t t0 s L n x :
  reliable SB -> sbuf_view s = [] -> tunnel_wf t ->
  exists s1, send_recv (OMX_TUNNELSETUPTYPEBlockMarshalling 0 t)
                       (OMX_TUNNELSETUPTYPEBlockUnmarshalling 0 (Some t0)) (with_empty_buffer s L n x) =
             Some ((true, Some t), call_state ∅ 0 1 s1 s L n x) /\ sbuf_view s1 = [].
Proof. intros Hrel Hs Ht. eapply send_recv_pure; eauto using tunnel_writes, tunnel_reads. Qed.

(** C35: a component capability survives the trip whole. *)
Theorem capability_roundtrip c c0 s L n x :
  reliable SB -> sbuf_view s = [] -> capability_wf c -> capability_wf c0 ->
  exists s1, send_recv (CodecCompCapabilityBlockMarshalling 0 c)
                       (CodecCompCapabilityBlockUnmarshalling 0 (Some c0)) (with_empty_buffer s L n x) =
             Some ((true, Some c), call_state ∅ 0 1 s1 s L n x) /\ sbuf_view s1 = [].
Proof. intros Hrel Hs Hc Hc0. eapply send_recv_pure; eauto using capability_writes, capability_reads. Qed.

(** A video port capability survives the trip whole. *)
Lemma video_roundtrip c c0 s L n x :
  reliable SB -> sbuf_view s = [] -> video_wf c -> video_wf c0 ->
  exists s1, send_recv (VideoPortCapBlockMarshalling 0 c)
                       (VideoPortCapBlockUnmarshalling 0 (Some c0)) (with_empty_buffer s L n x) =
             Some ((true, Some c), call_state ∅ 0 1 s1 s L n x) /\ sbuf_view s1 = [].
Proof. intros Hrel Hs Hc Hc0. eapply send_recv_pure; eauto using video_writes, video_reads. Qed.

(** Of an audio port capability all but the sample formats from the
    thirteenth on survive the trip; those keep the receiver's values. *)
Lemma audio_roundtrip c c0 s L n x :
  reliable SB -> sbuf_view s = [] -> audio_wf c -> audio_wf c0 ->
  exists s1, send_recv (AudioPortCapBlockMarshalling 0 c)
                       (AudioPortCapBlockUnmarshalling 0 (Some c0)) (with_empty_buffer s L n x) =
             Some ((true, Some (set_sampleFormats
                                  (take 12 (sampleFormats c) ++ drop 12 (sampleFormats c0)) c)),
                   call_state ∅ 0 1 s1 s L n x) /\ sbuf_view s1 = [].
Proof. intros Hrel Hs Hc Hc0. eapply send_recv_pure; eauto using audio_writes, audio_reads. Qed.

(** C26: a codec buffer survives the trip: every field is restored, the payload
    is copied to memory the receiver owns (or its descriptor duplicated), and
    memory is taken for a payload in memory only. *)
Theorem buffer_roundtrip b b0 s L n x :
  reliable SB -> sbuf_view s = [] -> bounded L n -> buffer_wf b ->
  exists s1, send_recv (OmxCodecBufferBlockMarshalling 0 b)
                       (OmxCodecBufferBlockUnmarshalling 0 (Some b0)) (with_empty_buffer s L n x) =
             Some ((true, Some (recv_buffer n b)),
                   call_state ∅ 0 1 s1 s (payload_live n b L) (payload_next n b) x) /\ sbuf_view s1 = [].
Proof.
  intros Hrel Hs HL Hb.
  assert (wp (send_recv (OmxCodecBufferBlockMarshalling 0 b) (OmxCodecBufferBlockUnmarshalling 0 (Some b0)))
    (fun res w' => exists s1, res = (true, Some (recv_buffer n b)) /\
       w' = call_state ∅ 0 1 s1 s (payload_live n b L) (payload_next n b) x /\ sbuf_view s1 = [])
    (with_empty_buffer s L n x)) as Hwp.
  { apply wp_bind. apply (buffer_writes 0 b Hb); [done | | done].
    intros s1 Hs1. cbn [negb]. rewrite Hs in Hs1.
    eapply (wp_buffer_unmarshal _ _ _ ltac:(done) b _ []); [done | done | by rewrite app_nil_r | eauto | done]. }
  apply wp_inv in Hwp as (res & w' & Hr & s1 & -> & -> & Hs1). eauto.
Qed.

(** C36: unmarshalling a codec buffer from a message of any contents, with
    memory failing at any point, has defined behaviour (no access outside an
    array, no release of memory that is not held), keeps all live memory and
    ends with the structure the caller passed, filled or not. *)
Theorem buffer_unmarshal_safe b0 s s' L n (x : X) :
  bounded L n ->
  exists ok b' s1 L' n',
    OmxCodecBufferBlockUnmarshalling 0 (Some b0) (call_state ∅ 0 1 s s' L n x) =
      Some ((ok, Some b'), call_state ∅ 0 1 s1 s' L' n' x) /\
    L ⊆ L' /\ bounded L' n' /\ (n <= n')%nat.
Proof.
  intros HL.
  assert (wp (OmxCodecBufferBlockUnmarshalling 0 (Some b0)) (fun res w' => exists ok b' s1 L' n',
    res = (ok, Some b') /\ w' = call_state ∅ 0 1 s1 s' L' n' x /\ L ⊆ L' /\ bounded L' n' /\ (n <= n')%nat)
    (call_state ∅ 0 1 s s' L n x)) as Hwp.
  { apply wp_buffer_any; [done | done |]. intros ok b' s1 L' n' H1 H2 H3. eauto 15. }
  apply wp_inv in Hwp as (res & w' & Hr & ok & b' & s1 & L' & n' & -> & -> & H1). eauto 15.
Qed.
End roundtrip.

(** ** The theorems at concrete inputs *)
Abbreviation empty := (@nil item : list item).

Lemma tunnel_roundtrip_witness :
  exists s1, send_recv (OMX_TUNNELSETUPTYPEBlockMarshalling 0 (mkTunnelSetup 1 2))
      (OMX_TUNNELSETUPTYPEBlockUnmarshalling 0 (Some (mkTunnelSetup 0 0))) (with_empty_buffer empty ∅ 2 tt) =
    Some ((true, Some (mkTunnelSetup 1 2)), call_state ∅ 0 1 s1 empty ∅ 2 tt) /\ sbuf_view s1 = [].
Proof. apply tunnel_roundtrip; [exact queue_reliable | done | done]. Defined.

Definition cap1 : CodecCompCapability :=
  mkCodecCompCapability 3 1 (replicate 32 65) (replicate 256 2) 4 true 8 7 (mkRangeValue 1 9) (replicate 320 0).

Lemma capability_roundtrip_witness :
  exists s1, send_recv (CodecCompCapabilityBlockMarshalling 0 cap1)
      (CodecCompCapabilityBlockUnmarshalling 0 (Some cap1)) (with_empty_buffer empty ∅ 2 tt) =
    Some ((true, Some cap1), call_state ∅ 0 1 s1 empty ∅ 2 tt) /\ sbuf_view s1 = [].
Proof. apply capability_roundtrip; [exact queue_reliable | done | |]; split_and!; repeat constructor; done. Defined.

Definition video1 : VideoPortCap :=
  mkVideoPortCap (mkRect 1 1) (mkRect 8 8) (mkAlignment 2 2) (mkRangeValue 0 4) (mkRangeValue 0 5)
    (mkRect 2 2) (replicate 16 3).

Lemma video_roundtrip_witness :
  exists s1, send_recv (VideoPortCapBlockMarshalling 0 video1)
      (VideoPortCapBlockUnmarshalling 0 (Some (set_supportPixFmts (replicate 16 0) video1)))
      (with_empty_buffer empty ∅ 2 tt) =
    Some ((true, Some video1), call_state ∅ 0 1 s1 empty ∅ 2 tt) /\ sbuf_view s1 = [].
Proof. apply video_roundtrip; [exact queue_reliable | done..]. Defined.

Definition audio1 : AudioPortCap :=
  mkAudioPortCap (replicate 32 1) (replicate 16 2) (replicate 16 3) (replicate 16 4).
Definition audio0 : AudioPortCap :=
  mkAudioPortCap (replicate 32 0) (replicate 16 0) (replicate 16 0) (replicate 16 0).

Lemma audio_roundtrip_witness :
  exists s1, send_recv (AudioPortCapBlockMarshalling 0 audio1)
      (AudioPortCapBlockUnmarshalling 0 (Some audio0)) (with_empty_buffer empty ∅ 2 tt) =
    Some ((true, Some (set_sampleFormats (take 12 (sampleFormats audio1) ++ drop 12 (sampleFormats audio0)) audio1)),
          call_state ∅ 0 1 s1 empty ∅ 2 tt) /\ sbuf_view s1 = [].
Proof. apply audio_roundtrip; [exact queue_reliable | done..]. Defined.

Definition buffer1 : OmxCodecBuffer :=
  mkOmxCodecBuffer 5 80 [1; 0; 0; 0] BUFFER_TYPE_VIRTUAL_ADDR (PMem (Mem 0 [1; 2; 3])) 3 3 3 0 (-1) 1 100 0.

Lemma buffer_roundtrip_witness :
  exists s1, send_recv (OmxCodecBufferBlockMarshalling 0 buffer1)
      (OmxCodecBufferBlockUnmarshalling 0 (Some (set_bufferId 0 buffer1))) (with_empty_buffer empty {[0%nat]} 2 tt) =
    Some ((true, Some (recv_buffer 2 buffer1)),
          call_state ∅ 0 1 s1 empty (payload_live 2 buffer1 {[0%nat]}) (payload_next 2 buffer1) tt) /\
    sbuf_view s1 = [].
Proof.
  apply buffer_roundtrip; [exact queue_reliable | done | |].
  - intros k Hk. apply elem_of_singleton in Hk. lia.
  - split_and!; try done. intros _. cbn. by eexists.
Defined.

(** A message that announces three bytes of payload and holds one. *)
Lemma buffer_unmarshal_safe_witness :
  exists ok b' s1 L' n',
    OmxCodecBufferBlockUnmarshalling 0 (Some buffer1)
      (call_state ∅ 0 1 ([IUint32 1; IUint32 2; IUnpad [0; 0; 0; 0]; IInt32 1; IUint32 3; IUint8 7] : list item)
         empty ∅ 2 tt) =
      Some ((ok, Some b'), call_state ∅ 0 1 s1 empty L' n' tt) /\
    ∅ ⊆ L' /\ bounded L' n' /\ (2 <= n')%nat.
Proof. apply buffer_unmarshal_safe. intros k Hk. set_solver. Defined.
