(* ===== verification/CodecStub.v ===== *)
(** * CodecStub: the server end of the codec component interface

    Models [codec/hal/src/codec_component_type_stub.c],
    [codec/hal/src/codec_component_capability_config.c] and the creation of
    callback objects in [codec/hal/src/codec_callback_type_proxy.c]: one handler
    per command, and the dispatch of a received command to its handler. *)
From S2P Require Import Prelude Hdf Arrays CodecTypes CodecService.
Open Scope Z_scope.

(** The size of [struct CodecCallbackType]: a remote object and three function
    pointers, on a 64-bit target. *)
Definition sizeof_CodecCallbackType : Z := 4 * 8.

Section stub.
Context {SB : Type} `{!Platform SB} `{!HdfStatus} {OMX : OmxTypes} {A : Type} `{!OmxAdapter A}.
Abbreviation M := (M (World SB (CodecServer A))).
(** The indeterminate contents of local structures. *)
Context (junk_buffer : OmxCodecBuffer) (junk_tunnel : OMX_TUNNELSETUPTYPE).

(** A callback object is the name of its block and its remote object. *)
Definition CodecCallbackTypeGet {X} (remote : option Z) : Prelude.M (World SB X) (option (nat * Z)) :=
  match remote with
  | None => mret None
  | Some r =>
      instance ← OsalMemAlloc sizeof_CodecCallbackType;
      match instance with
      | None => mret None
      | Some k => if negb (set_desc_ok r codec_desc) then mret None else mret (Some (k, r))
      end
  end.

Definition CodecCallbackTypeRelease {X} (instance : option (nat * Z)) : Prelude.M (World SB X) unit :=
  match instance with Some (k, _) => OsalMemFree k | None => mret tt end.

(** ** Capabilities *)

(** One capability after the other, in the order of the table. *)
Fixpoint group_marshalling (reply : nat) (caps : list CodecCompCapability) (n : nat) {struct n} : M bool :=
  match n with
  | O => mret true
  | S n' =>
      match caps with
      | [] => undefined
      | cap :: caps' =>
          unless CodecCompCapabilityBlockMarshalling reply cap do mret false;
          group_marshalling reply caps' n'
      end
  end.

Fixpoint groups_marshalling (reply : nat) (groups : list CodecCapablityGroup) : M Z :=
  match groups with
  | [] => mret HDF_SUCCESS
  | g :: groups' =>
      unless group_marshalling reply (capablitis g) (Z.to_nat (num g)) do mret HDF_FAILURE;
      groups_marshalling reply groups'
  end.

Definition codeCapGroups (c : CodecCapablites) : list CodecCapablityGroup :=
  [videoHwEncoderGroup c; videoHwDecoderGroup c; audioHwEncoderGroup c; audioHwDecoderGroup c;
   videoSwEncoderGroup c; videoSwDecoderGroup c; audioSwEncoderGroup c; audioSwDecoderGroup c].

Definition AllCapabilityMarshalling (reply : nat) : M Z :=
  x ← svc_state;
  groups_marshalling reply (codeCapGroups (g_codecCapabilites x)).

Definition HandleGetNumCmd (reply : nat) : M Z :=
  x ← svc_state;
  if negb (inited (g_codecCapabilites x)) then mret HDF_FAILURE
  else
    unless HdfSbufWriteInt32 reply (total (g_codecCapabilites x)) do mret HDF_FAILURE;
    mret HDF_SUCCESS.

Definition HandleGetAllCapablityListCmd (reply : nat) : M Z :=
  x ← svc_state;
  if negb (inited (g_codecCapabilites x)) then mret HDF_FAILURE
  else
    ret ← AllCapabilityMarshalling reply;
    if negb (ret =? HDF_SUCCESS) then mret HDF_FAILURE else mret HDF_SUCCESS.

Definition SerStubGetComponentNum (data reply : nat) : M Z := HandleGetNumCmd reply.
Definition SerStubGetComponentCapablityList (data reply : nat) : M Z := HandleGetAllCapablityListCmd reply.

(** ** Component management *)

(** The output parameters of [ReadParamsForCreateComponent]. *)
Record CreateParams := mkCreateParams {
  cp_compName : option (nat * string);
  cp_appData : option mem;
  cp_appDataSize : Z;
  cp_callback : option (nat * Z);
}.

Definition ReadParamsForCreateComponent (data : nat) : M (Z * CreateParams) :=
  compNameCp ←? HdfSbufReadString data else mret (HDF_ERR_INVALID_PARAM, mkCreateParams None None 0 None);
  appDataSize ←? HdfSbufReadUint32 data else mret (HDF_ERR_INVALID_PARAM, mkCreateParams None None 0 None);
  compName ← strdup compNameCp;
  r ← (if 0 <? appDataSize then
         appData ← OsalMemCalloc appDataSize;
         match appData with
         | None => mret (HDF_ERR_MALLOC_FAIL, None)
         | Some m =>
             r ← read_loop HdfSbufReadInt8 data (mem_cells m) (Z.to_nat appDataSize);
             mret (if (r.1 : bool) then HDF_SUCCESS else HDF_ERR_INVALID_PARAM, Some (Mem (mem_id m) r.2))
         end
       else mret (HDF_SUCCESS, None));
  let '(ret, appData) := r in
  if negb (ret =? HDF_SUCCESS) then mret (ret, mkCreateParams compName appData appDataSize None)
  else
    callbackRemote ←? HdfSbufReadRemoteService data
      else mret (HDF_ERR_INVALID_PARAM, mkCreateParams compName appData appDataSize None);
    callback ← CodecCallbackTypeGet (Some callbackRemote);
    mret (HDF_SUCCESS, mkCreateParams compName appData appDataSize callback).

(** [if (compName != NULL) OsalMemFree(compName)] and
    [if (appDataSize > 0 && appData != NULL) OsalMemFree(appData)]. *)
Definition free_create_params (p : CreateParams) : M unit :=
  match cp_compName p with Some (k, _) => OsalMemFree k | None => mret tt end;;
  FreeMem (cp_appData p) (cp_appDataSize p).

Definition SerStubCreateComponent (data reply : nat) : M Z :=
  '(ret, p) ← ReadParamsForCreateComponent data;
  if negb (ret =? HDF_SUCCESS) then free_create_params p;; mret ret
  else
    '(ret, handle) ← OmxManagerCreateComponent (snd <$> cp_compName p) (cells (cp_appData p))
                       (i32 (cp_appDataSize p)) (snd <$> cp_callback p);
    free_create_params p;;
    if negb (ret =? HDF_SUCCESS) then mret ret
    else
      x ← svc_state;
      set_svc (mkServer handle (g_codecCapabilites x) (adapter x));;
      mret ret.

Definition SerStubDestroyComponent (data reply : nat) : M Z :=
  x ← svc_state;
  ret ← OmxManagerDestroyComponent (componentHandle x);
  mret ret.

(** ** Component methods *)
Definition SerStubGetComponentVersion (data reply : nat) : M Z :=
  '(ret, verInfo) ← CodecComponentTypeGetComponentVersion;
  if negb (ret =? HDF_SUCCESS) then mret ret
  else
    unless HdfSbufWriteUnpadBuffer reply (take (Z.to_nat sizeof_CompVerInfo) verInfo)
      do mret HDF_ERR_INVALID_PARAM;
    mret HDF_SUCCESS.

Definition SerStubSendCommand (data reply : nat) : M Z :=
  cmd ←? HdfSbufReadUint32 data else mret HDF_ERR_INVALID_PARAM;
  param ←? HdfSbufReadUint32 data else mret HDF_ERR_INVALID_PARAM;
  cmdDataLen ←? HdfSbufReadUint32 data else mret HDF_ERR_INVALID_PARAM;
  r ← read_int8s data cmdDataLen;
  match r with
  | inl e => mret e
  | inr cmdData =>
      ret ← CodecComponentTypeSendCommand cmd param (cells cmdData) cmdDataLen;
      if negb (ret =? HDF_SUCCESS) then FreeMem cmdData cmdDataLen;; mret ret
      else FreeMem cmdData cmdDataLen;; mret HDF_SUCCESS
  end.

Definition SerStubGetParameter (data reply : nat) : M Z :=
  paramIndex ←? HdfSbufReadUint32 data else mret HDF_ERR_INVALID_PARAM;
  paramStructLen ←? HdfSbufReadUint32 data else mret HDF_ERR_INVALID_PARAM;
  paramStruct ←? OsalMemCalloc paramStructLen else mret HDF_ERR_MALLOC_FAIL;
  r ← read_loop HdfSbufReadInt8 data (mem_cells paramStruct) (Z.to_nat paramStructLen);
  if negb r.1 then FreeMem (Some paramStruct) paramStructLen;; mret HDF_ERR_INVALID_PARAM
  else
    '(ret, p) ← CodecComponentTypeGetParameter paramIndex r.2 paramStructLen;
    if negb (ret =? HDF_SUCCESS) then FreeMem (Some paramStruct) paramStructLen;; mret ret
    else
      unless write_loop reply IInt8 p (Z.to_nat paramStructLen)
        do (FreeMem (Some paramStruct) paramStructLen;; mret HDF_ERR_INVALID_PARAM);
      FreeMem (Some paramStruct) paramStructLen;; mret HDF_SUCCESS.

Definition SerStubSetParameter (data reply : nat) : M Z :=
  index ←? HdfSbufReadUint32 data else mret HDF_ERR_INVALID_PARAM;
  paramStructLen ←? HdfSbufReadUint32 data else mret HDF_ERR_INVALID_PARAM;
  r ← read_int8s data paramStructLen;
  match r with
  | inl e => mret e
  | inr paramStruct =>
      ret ← CodecComponentTypeSetParameter index (cells paramStruct) paramStructLen;
      if negb (ret =? HDF_SUCCESS) then FreeMem paramStruct paramStructLen;; mret ret
      else FreeMem paramStruct paramStructLen;; mret HDF_SUCCESS
  end.

Definition SerStubGetConfig (data reply : nat) : M Z :=
  index ←? HdfSbufReadUint32 data else mret HDF_ERR_INVALID_PARAM;
  cfgStructLen ←? HdfSbufReadUint32 data else mret HDF_ERR_INVALID_PARAM;
  cfgStruct ←? OsalMemCalloc cfgStructLen else mret HDF_ERR_MALLOC_FAIL;
  r ← read_loop HdfSbufReadInt8 data (mem_cells cfgStruct) (Z.to_nat cfgStructLen);
  if negb r.1 then FreeMem (Some cfgStruct) cfgStructLen;; mret HDF_ERR_INVALID_PARAM
  else
    '(ret, p) ← CodecComponentTypeGetConfig index r.2 cfgStructLen;
    if negb (ret =? HDF_SUCCESS) then FreeMem (Some cfgStruct) cfgStructLen;; mret ret
    else
      unless write_loop reply IInt8 p (Z.to_nat cfgStructLen)
        do (FreeMem (Some cfgStruct) cfgStructLen;; mret HDF_ERR_INVALID_PARAM);
      FreeMem (Some cfgStruct) cfgStructLen;; mret ret.

Definition SerStubSetConfig (data reply : nat) : M Z :=
  index ←? HdfSbufReadUint32 data else mret HDF_ERR_INVALID_PARAM;
  cfgStructLen ←? HdfSbufReadUint32 data else mret HDF_ERR_INVALID_PARAM;
  r ← read_int8s data cfgStructLen;
  match r with
  | inl e => mret e
  | inr cfgStruct =>
      ret ← CodecComponentTypeSetConfig index (cells cfgStruct) cfgStructLen;
      if negb (ret =? HDF_SUCCESS) then FreeMem cfgStruct cfgStructLen;; mret ret
      else FreeMem cfgStruct cfgStructLen;; mret ret
  end.

Definition SerStubGetExtensionIndex (data reply : nat) : M Z :=
  paramNameCp ←? HdfSbufReadString data else mret HDF_ERR_INVALID_PARAM;
  paramName ← strdup paramNameCp;
  '(ret, indexType) ← CodecComponentTypeGetExtensionIndex (snd <$> paramName);
  match paramName with Some (k, _) => OsalMemFree k | None => mret tt end;;
  if negb (ret =? HDF_SUCCESS) then mret ret
  else
    unless HdfSbufWriteUint32 reply indexType do mret HDF_ERR_INVALID_PARAM;
    mret ret.

Definition SerStubGetState (data reply : nat) : M Z :=
  '(ret, state) ← CodecComponentTypeGetState;
  if negb (ret =? HDF_SUCCESS) then mret ret
  else
    unless HdfSbufWriteUint32 reply (u32 state) do mret HDF_ERR_INVALID_PARAM;
    mret ret.

Definition SerStubComponentTunnelRequest (data reply : nat) : M Z :=
  port ←? HdfSbufReadUint32 data else mret HDF_ERR_INVALID_PARAM;
  tunneledComp ←? HdfSbufReadInt32 data else mret HDF_ERR_INVALID_PARAM;
  tunneledPort ←? HdfSbufReadUint32 data else mret HDF_ERR_INVALID_PARAM;
  '(ok, tunnelSetup) ← OMX_TUNNELSETUPTYPEBlockUnmarshalling data (Some junk_tunnel);
  if negb ok then mret HDF_ERR_INVALID_PARAM
  else
    '(ret, tunnelSetup) ← CodecComponentTypeComponentTunnelRequest port tunneledComp tunneledPort
                            (default junk_tunnel tunnelSetup);
    if negb (ret =? HDF_SUCCESS) then mret ret
    else
      unless OMX_TUNNELSETUPTYPEBlockMarshalling reply tunnelSetup do mret HDF_ERR_INVALID_PARAM;
      mret ret.

Definition SerStubUseBuffer (data reply : nat) : M Z :=
  portIndex ←? HdfSbufReadUint32 data else mret HDF_ERR_INVALID_PARAM;
  '(ok, b) ← OmxCodecBufferBlockUnmarshalling data (Some junk_buffer);
  if negb ok then mret HDF_ERR_INVALID_PARAM
  else
    '(ret, b) ← CodecComponentTypeUseBuffer portIndex (default junk_buffer b);
    if negb (ret =? HDF_SUCCESS) then mret ret
    else
      unless OmxCodecBufferBlockMarshalling reply b do mret HDF_ERR_INVALID_PARAM;
      mret ret.

Definition SerStubAllocateBuffer (data reply : nat) : M Z :=
  portIndex ←? HdfSbufReadUint32 data else mret HDF_ERR_INVALID_PARAM;
  '(ok, b) ← OmxCodecBufferBlockUnmarshalling data (Some junk_buffer);
  if negb ok then mret HDF_ERR_INVALID_PARAM
  else
    '(ret, b) ← CodecComponentTypeAllocateBuffer portIndex (default junk_buffer b);
    if negb (ret =? HDF_SUCCESS) then mret ret
    else
      unless OmxCodecBufferBlockMarshalling reply b do mret HDF_ERR_INVALID_PARAM;
      mret ret.

Definition SerStubFreeBuffer (data reply : nat) : M Z :=
  portIndex ←? HdfSbufReadUint32 data else mret HDF_ERR_INVALID_PARAM;
  '(ok, b) ← OmxCodecBufferBlockUnmarshalling data (Some junk_buffer);
  if negb ok then mret HDF_ERR_INVALID_PARAM
  else
    ret ← CodecComponentTypeFreeBuffer portIndex (default junk_buffer b);
    if negb (ret =? HDF_SUCCESS) then mret ret else mret ret.

Definition SerStubEmptyThisBuffer (data reply : nat) : M Z :=
  '(ok, b) ← OmxCodecBufferBlockUnmarshalling data (Some junk_buffer);
  if negb ok then mret HDF_ERR_INVALID_PARAM
  else
    ret ← CodecComponentTypeEmptyThisBuffer (default junk_buffer b);
    if negb (ret =? HDF_SUCCESS) then mret ret else mret ret.

Definition SerStubFillThisBuffer (data reply : nat) : M Z :=
  '(ok, b) ← OmxCodecBufferBlockUnmarshalling data (Some junk_buffer);
  if negb ok then mret HDF_ERR_INVALID_PARAM
  else
    ret ← CodecComponentTypeFillThisBuffer (default junk_buffer b);
    if negb (ret =? HDF_SUCCESS) then mret ret else mret ret.

(** The callback object is not released here: the service keeps it. *)
Definition SerStubSetCallbacks (data reply : nat) : M Z :=
  callbackRemote ←? HdfSbufReadRemoteService data else mret HDF_ERR_INVALID_PARAM;
  callback ← CodecCallbackTypeGet (Some callbackRemote);
  appDataLen ←? HdfSbufReadUint32 data else mret HDF_ERR_INVALID_PARAM;
  r ← read_int8s data appDataLen;
  match r with
  | inl e => mret e
  | inr appData =>
      ret ← CodecComponentTypeSetCallbacks (snd <$> callback) (cells appData) appDataLen;
      if negb (ret =? HDF_SUCCESS) then FreeMem appData appDataLen;; mret ret
      else FreeMem appData appDataLen;; mret ret
  end.

Definition SerStubComponentDeInit (data reply : nat) : M Z :=
  ret ← CodecComponentTypeComponentDeInit;
  mret ret.

Definition SerStubUseEglImage (data reply : nat) : M Z :=
  '(ok, b) ← OmxCodecBufferBlockUnmarshalling data (Some junk_buffer);
  if negb ok then mret HDF_ERR_INVALID_PARAM
  else
    portIndex ←? HdfSbufReadUint32 data else mret HDF_ERR_INVALID_PARAM;
    eglImageLen ←? HdfSbufReadUint32 data else mret HDF_ERR_INVALID_PARAM;
    r ← read_int8s data eglImageLen;
    match r with
    | inl e => mret e
    | inr eglImage =>
        '(ret, b) ← CodecComponentTypeUseEglImage (default junk_buffer b) portIndex (cells eglImage) eglImageLen;
        if negb (ret =? HDF_SUCCESS) then FreeMem eglImage eglImageLen;; mret ret
        else
          unless OmxCodecBufferBlockMarshalling reply b
            do (FreeMem eglImage eglImageLen;; mret HDF_ERR_INVALID_PARAM);
          FreeMem eglImage eglImageLen;; mret ret
    end.

Definition SerStubComponentRoleEnum (data reply : nat) : M Z :=
  roleLen ←? HdfSbufReadUint32 data else mret HDF_ERR_INVALID_PARAM;
  role ←? OsalMemCalloc roleLen else mret HDF_ERR_MALLOC_FAIL;
  index ←? HdfSbufReadUint32 data
    else (FreeMem (Some role) roleLen;; mret HDF_ERR_INVALID_PARAM);
  '(ret, p) ← CodecComponentTypeComponentRoleEnum (mem_cells role) roleLen index;
  if negb (ret =? HDF_SUCCESS) then FreeMem (Some role) roleLen;; mret ret
  else
    unless write_loop reply IUint8 p (Z.to_nat roleLen)
      do (FreeMem (Some role) roleLen;; mret HDF_ERR_INVALID_PARAM);
    FreeMem (Some role) roleLen;; mret ret.

(** ** Dispatch *)
Definition HandleComponentManagerCmd (cmdId : Z) (data reply : nat) : M Z :=
  if cmdId =? CMD_CODEC_GET_COMPONENT_NUM then SerStubGetComponentNum data reply
  else if cmdId =? CMD_CODEC_GET_COMPONENT_CAPABILITY_LIST then SerStubGetComponentCapablityList data reply
  else if cmdId =? CMD_CREATE_COMPONENT then SerStubCreateComponent data reply
  else if cmdId =? CMD_DESTROY_COMPONENT then SerStubDestroyComponent data reply
  else mret HDF_ERR_INVALID_PARAM.

Definition HandleComponentCmd (cmdId : Z) (data reply : nat) : M Z :=
  if cmdId =? CMD_GET_COMPONENT_VERSION then SerStubGetComponentVersion data reply
  else if cmdId =? CMD_SEND_COMMAND then SerStubSendCommand data reply
  else if cmdId =? CMD_GET_PARAMETER then SerStubGetParameter data reply
  else if cmdId =? CMD_SET_PARAMETER then SerStubSetParameter data reply
  else if cmdId =? CMD_GET_CONFIG then SerStubGetConfig data reply
  else if cmdId =? CMD_SET_CONFIG then SerStubSetConfig data reply
  else if cmdId =? CMD_GET_EXTENSION_INDEX then SerStubGetExtensionIndex data reply
  else if cmdId =? CMD_GET_STATE then SerStubGetState data reply
  else if cmdId =? CMD_COMPONENT_TUNNEL_REQUEST then SerStubComponentTunnelRequest data reply
  else if cmdId =? CMD_USE_BUFFER then SerStubUseBuffer data reply
  else if cmdId =? CMD_ALLOCATE_BUFFER then SerStubAllocateBuffer data reply
  else if cmdId =? CMD_FREE_BUFFER then SerStubFreeBuffer data reply
  else if cmdId =? CMD_EMPTY_THIS_BUFFER then SerStubEmptyThisBuffer data reply
  else if cmdId =? CMD_FILL_THIS_BUFFER then SerStubFillThisBuffer data reply
  else if cmdId =? CMD_SET_CALLBACKS then SerStubSetCallbacks data reply
  else if cmdId =? CMD_COMPONENT_DE_INIT then SerStubComponentDeInit data reply
  else if cmdId =? CMD_USE_EGL_IMAGE then SerStubUseEglImage data reply
  else if cmdId =? CMD_COMPONENT_ROLE_ENUM then SerStubComponentRoleEnum data reply
  else mret HDF_ERR_INVALID_PARAM.

(** [cmdId] is one of the four management commands, resp. one of the eighteen
    component commands. *)
Definition manager_cmd (cmdId : Z) : bool :=
  (CMD_CODEC_GET_COMPONENT_NUM <=? cmdId) && (cmdId <=? CMD_DESTROY_COMPONENT).
Definition component_cmd (cmdId : Z) : bool :=
  (CMD_GET_COMPONENT_VERSION <=? cmdId) && (cmdId <=? CMD_COMPONENT_ROLE_ENUM).

Definition CodecComponentTypeServiceOnRemoteRequest (cmdId : Z) (data reply : nat) : M Z :=
  unless CheckInterfaceToken codec_desc data do mret HDF_ERR_INVALID_PARAM;
  if manager_cmd cmdId then HandleComponentManagerCmd cmdId data reply
  else if component_cmd cmdId then HandleComponentCmd cmdId data reply
  else mret HDF_ERR_INVALID_PARAM.
End stub.
