(* ===== verification/CodecStubFacts.v ===== *)
(** * CodecStubFacts: the stub implements the abstract interface

    For every request, the handler the stub runs on the message of the request
    calls the adapter with the arguments of the request and puts the adapter's
    answer in the reply; the memory it takes is given back, except for the
    payload of a buffer and a callback object, which pass to the service. *)
From S2P Require Import Prelude Hdf Rpc Arrays CodecTypes CodecService CodecStub.
Open Scope Z_scope.

Section adapter_call.
Context {SB : Type} `{!Platform SB, !PlatformLaws SB} `{!HdfStatus, !HdfStatusLaws}.
Context {A : Type} `{!OmxAdapter A}.
Context (base : gmap nat SB) (d r : nat) (Hdr : d <> r).
Implicit Types (sd sr : SB) (L : gset nat) (n : nat) (x : CodecServer A).
Abbreviation St := (call_state base d r).

Lemma wp_with_adapter {B} (f : Z -> A -> B * A) sd sr L n x
    (Q : B -> World SB (CodecServer A) -> Prop) :
  (forall b a', f (componentHandle x) (adapter x) = (b, a') ->
     Q b (St sd sr L n (mkServer (componentHandle x) (g_codecCapabilites x) a'))) ->
  wp (with_adapter f) Q (St sd sr L n x).
Proof.
  intros HQ. unfold with_adapter. apply wp_bind, wp_svc_state.
  destruct (f _ _) as [b a'] eqn:E. apply wp_bind, wp_set_svc, wp_ret. by apply HQ.
Qed.
(** The callback object is created unless memory or its descriptor fails. *)
Lemma wp_callback_get c L n sd sr x (Q : option (nat * Z) -> World SB (CodecServer A) -> Prop) :
  bounded L n -> Q (Some (n, c)) (St sd sr ({[n]} ∪ L) (S n) x) ->
  (forall L' n', bounded L' n' -> L ⊆ L' -> (n <= n')%nat -> ~ reliable SB -> Q None (St sd sr L' n' x)) ->
  wp (CodecCallbackTypeGet (Some c)) Q (St sd sr L n x).
Proof.
  clear Hdr. intros HL HS HN. unfold CodecCallbackTypeGet. apply wp_bind, wp_alloc.
  - destruct (set_desc_ok c codec_desc) eqn:E; apply wp_ret; [done|].
    apply HN; [auto with hdf | set_solver | lia |]. intros (_ & _ & _ & Hd). by rewrite Hd in E.
  - intros Hnr. apply wp_ret, HN; [auto with hdf | done | lia | by apply Hnr].
Qed.
End adapter_call.

(** ** The handlers *)
Section handlers.
Context {SB : Type} `{!Platform SB, !PlatformLaws SB} `{!HdfStatus, !HdfStatusLaws} {OMX : OmxTypes}.
Context {A : Type} `{!OmxAdapter A, !OmxAdapterLaws SB A}.
Context (junk_buffer : OmxCodecBuffer) (junk_tunnel : OMX_TUNNELSETUPTYPE).
Context (base : gmap nat SB) (d r : nat) (Hdr : d <> r).
Implicit Types (sd sr : SB) (L : gset nat) (n : nat) (x : CodecServer A).
Abbreviation St := (call_state base d r).
Abbreviation served := (served (SB := SB)).
Abbreviation delivered := (delivered (SB := SB)).
Abbreviation handled := (handled served base d r).

Lemma handled_refused q L n x e sd' sr' L' n' :
  ~ reliable SB -> e <> HDF_SUCCESS -> (n <= n')%nat -> bounded L' n' -> keeps q L L' ->
  handled q L n x e (St sd' sr' L' n' x).
Proof. intros. do 6 eexists. split; [done|]. split; [by apply (served_refused _ _ _ AnsNone) | done]. Qed.

Lemma handled_called q q' L n x ret ans x' sd' sr' L' n' :
  delivered q q' -> serve q' x = (ret, ans, x') ->
  (ret = HDF_SUCCESS -> sbuf_view sr' = enc_answer ans) ->
  (n <= n')%nat -> bounded L' n' -> keeps q L L' ->
  handled q L n x ret (St sd' sr' L' n' x').
Proof.
  intros Hd Hs Ha Hn Hb Hk. do 6 eexists. split; [done|]. split; [|done].
  destruct (Z.eq_dec ret HDF_SUCCESS) as [->|Hne]; [by eapply served_done | by eapply served_failed].
Qed.

Lemma handled_lost q q' L n x e ans x' sd' sr' L' n' :
  ~ reliable SB -> delivered q q' -> serve q' x = (HDF_SUCCESS, ans, x') -> e <> HDF_SUCCESS ->
  (n <= n')%nat -> bounded L' n' -> keeps q L L' ->
  handled q L n x e (St sd' sr' L' n' x').
Proof. intros. do 6 eexists. split; [done|]. split; [by eapply served_lost | done]. Qed.

(** A request without buffer or callback is delivered as it is. *)
Lemma delivered_self q : received 0 q = q -> delivered q q.
Proof. exists 0%nat. by left. Qed.

Lemma delivered_received n q : delivered q (received n q).
Proof. exists n. by left. Qed.

Lemma delivered_degraded n q : ~ reliable SB -> delivered q (degraded (received n q)).
Proof. exists n. by right. Qed.

(** [take_item] performs the next read of the data buffer. *)
Ltac take_item :=
  apply wp_bind; eapply wp_read_data; [exact Hdr | eassumption | reflexivity | reflexivity |];
  let s := fresh "sd" in let H := fresh "Hv" in intros s H; cbn beta iota.
Ltac call_adapter :=
  apply wp_bind; apply wp_with_adapter;
  let E := fresh "E" in intros ? ? E; cbn [fst snd mem_cells default id fmap option_fmap option_map] in E; cbn beta iota.
Ltac split_ret ret :=
  let Hr := fresh "Hret" in destruct (Z.eqb_spec ret HDF_SUCCESS) as [Hr|Hr]; [subst ret|]; cbn [negb].
Ltac later := first [lia | unfold array_next, payload_next in *; repeat case_match; lia].
Ltac within := first [eassumption | apply payload_bounded; within | apply array_bounded; within
  | apply bounded_alloc; within | apply bounded_S; within].
Ltac live := solve [ assumption | apply keeps_refl | within
  | eapply bounded_le; [within | later] | later
  | cbn; unfold array_live, payload_live; repeat case_match; set_solver ].
(** Close a path on which the adapter was called with [q]. *)
Ltac served_by := repeat match goal with q := _ : request |- _ => subst q end; unfold received, degraded, serve, adapter_serve; cbn [fmap option_fmap option_map]; match goal with E : _ = (_, _) |- _ => rewrite E end; cbn.
Ltac reply_is := intros; cbn; match goal with H : sbuf_view _ = _ |- _ => rewrite H; clear H end;
  match goal with H : sbuf_view _ = [] |- _ => rewrite H end; cbn; rewrite ?unpad_all by done; done.
Ltac called q :=
  eapply (handled_called q); [by apply delivered_self | served_by; reflexivity
    | solve [done | reply_is] | live | live | live ].
Ltac lost q :=
  eapply (handled_lost q); [done | by apply delivered_self
    | served_by; reflexivity
    | apply invalid_param_error | live | live | live ].

Ltac called_at n q :=
  eapply (handled_called q); [exact (delivered_received n q) | served_by; reflexivity
    | solve [done | reply_is] | live | live | live ].
Ltac lost_at n q :=
  eapply (handled_lost q); [done | exact (delivered_received n q)
    | served_by; reflexivity
    | apply invalid_param_error | live | live | live ].
Ltac refused q := apply (handled_refused q); [by auto | first [apply malloc_fail_error | apply invalid_param_error]
  | live | live | live].
(** [put_reply W]: the handler writes to the reply what lemma [W] says. *)
Tactic Notation "put_reply" uconstr(W) :=
  apply wp_bind; eapply wp_writes_reply; [exact Hdr | first [by apply W | apply W] | |];
  let s := fresh "sr" in let H := fresh "Hr" in intros s H; cbn [negb]; try apply wp_ret.
(** [get_array l]: the handler reads the array [l]. *)
Ltac get_array l :=
  apply wp_bind; eapply (wp_read_int8s _ _ _ Hdr l []); [live | by rewrite app_nil_r | |];
  [ let s := fresh "sd" in let H := fresh "Hv" in intros s H; cbn beta iota
  | intros ? ? ? ?; apply wp_ret;
    match goal with |- handled ?q _ _ _ _ _ => refused q end ].
Ltac give_back := apply wp_bind; apply wp_free_array; [live|]; apply wp_ret.

(** Memory for a structure of [n] bytes, which holds what it is given. *)
Lemma wp_free_struct n0 k l L n sd sr x (Q : unit -> World SB (CodecServer A) -> Prop) :
  0 < k -> bounded L n0 -> Q tt (St sd sr L n x) ->
  wp (FreeMem (Some (Mem n0 l)) k) Q (St sd sr ({[n0]} ∪ L) n x).
Proof.
  intros Hk Hb HQ. unfold FreeMem. rewrite (proj2 (Z.ltb_lt 0 k)) by done. by apply wp_free_fresh.
Qed.
Ltac get_mem :=
  apply wp_bind; apply wp_calloc;
  [| let H := fresh in intros H; apply wp_ret; match goal with |- handled ?q _ _ _ _ _ => refused q end].
Ltac get_struct :=
  get_mem; cbn beta iota; apply wp_bind; eapply (wp_read_zeroed _ _ _ Hdr _ []); [by rewrite app_nil_r|];
  let s := fresh "sd" in let H := fresh "Hv" in intros s H; cbn beta iota.
Ltac give_struct := apply wp_bind; apply wp_free_struct; [done | live |]; apply wp_ret.
Ltac put_struct p :=
  apply wp_bind; eapply wp_writes_reply; [exact Hdr | apply writes_loop; unfold len in *; lia | |];
  let s := fresh "sr" in let H := fresh "Hr" in
  intros s H; cbn [negb]; try (rewrite take_ge in H by (unfold len in *; lia)).

Ltac called_degraded q :=
  eapply (handled_called q); [by apply (delivered_degraded 0 q) | served_by; reflexivity
    | solve [done | reply_is] | live | live | live ].
Ltac lost_degraded q :=
  eapply (handled_lost q); [done | by apply (delivered_degraded 0 q)
    | served_by; reflexivity | apply invalid_param_error | live | live | live ].

(** [get_buffer b]: the handler reads the buffer [b]. *)
Ltac get_buffer b :=
  apply wp_bind; first [ eapply (wp_buffer_unmarshal _ _ _ Hdr b _ []); [assumption | live | by rewrite app_nil_r | |]
                       | eapply (wp_buffer_unmarshal _ _ _ Hdr b); [assumption | live | eassumption | |] ];
  [ let s := fresh "sd" in let H := fresh "Hv" in intros s H; cbn beta iota; cbn [negb]
  | intros; apply wp_ret;
    match goal with |- handled ?q _ _ _ _ _ => refused q end ].

Lemma handle_GetComponentVersion sd sr L n x :
  bounded L n -> sbuf_view sr = [] ->
  wp (SerStubGetComponentVersion d r) (handled ReqGetComponentVersion L n x) (St sd sr L n x).
Proof.
  intros HL Hr. unfold SerStubGetComponentVersion. call_adapter. destruct b as [ret v].
  pose proof (version_size (componentHandle x) (adapter x)) as Hsz. rewrite E in Hsz; cbn in Hsz.
  split_ret ret; [|apply wp_ret; called ReqGetComponentVersion].
  put_reply writes_item; [called ReqGetComponentVersion | lost ReqGetComponentVersion].
Qed.

Lemma handle_SendCommand cmd param l sd sr L n x :
  let q := ReqSendCommand cmd param l in
  request_wf q -> bounded L n -> sbuf_view sd = encode q -> sbuf_view sr = [] ->
  wp (SerStubSendCommand d r) (handled q L n x) (St sd sr L n x).
Proof.
  intros q [Hc Hl] HL Hv Hr. unfold SerStubSendCommand. cbn in Hv.
  do 3 take_item. rewrite u32_id by done. get_array l.
  call_adapter. rename b into ret. rewrite array_cells in *.
  split_ret ret; give_back; called q.
Qed.

Lemma handle_SetParameter i l sd sr L n x :
  let q := ReqSetParameter i l in
  request_wf q -> bounded L n -> sbuf_view sd = encode q -> sbuf_view sr = [] ->
  wp (SerStubSetParameter d r) (handled q L n x) (St sd sr L n x).
Proof.
  intros q Hl HL Hv Hr. unfold SerStubSetParameter. cbn in Hv. do 2 take_item. get_array l.
  call_adapter. rename b into ret. rewrite array_cells in *.
  split_ret ret; give_back; called q.
Qed.

Lemma handle_SetConfig i l sd sr L n x :
  let q := ReqSetConfig i l in
  request_wf q -> bounded L n -> sbuf_view sd = encode q -> sbuf_view sr = [] ->
  wp (SerStubSetConfig d r) (handled q L n x) (St sd sr L n x).
Proof.
  intros q Hl HL Hv Hr. unfold SerStubSetConfig. cbn in Hv. do 2 take_item. get_array l.
  call_adapter. rename b into ret. rewrite array_cells in *.
  split_ret ret; give_back; called q.
Qed.

(** The two methods that read a structure and write it back. *)
Lemma handle_GetParameter i l sd sr L n x :
  let q := ReqGetParameter i l in
  request_wf q -> bounded L n -> sbuf_view sd = encode q -> sbuf_view sr = [] ->
  wp (SerStubGetParameter d r) (handled q L n x) (St sd sr L n x).
Proof.
  intros q [Hl0 Hl] HL Hv Hr. unfold SerStubGetParameter. cbn in Hv. do 2 take_item.
  get_struct. call_adapter. destruct b as [ret p].
  pose proof (get_parameter_size (componentHandle x) i l (len l) (adapter x)) as Hsz.
  rewrite E in Hsz; cbn in Hsz.
  split_ret ret; [|give_struct; called q].
  put_struct p; give_struct; [called q | lost q].
Qed.

Lemma handle_GetConfig i l sd sr L n x :
  let q := ReqGetConfig i l in
  request_wf q -> bounded L n -> sbuf_view sd = encode q -> sbuf_view sr = [] ->
  wp (SerStubGetConfig d r) (handled q L n x) (St sd sr L n x).
Proof.
  intros q [Hl0 Hl] HL Hv Hr. unfold SerStubGetConfig. cbn in Hv. do 2 take_item.
  get_struct. call_adapter. destruct b as [ret p].
  pose proof (get_config_size (componentHandle x) i l (len l) (adapter x)) as Hsz.
  rewrite E in Hsz; cbn in Hsz.
  split_ret ret; [|give_struct; called q].
  put_struct p; give_struct; [called q | lost q].
Qed.

Lemma handle_ComponentRoleEnum k i sd sr L n x :
  let q := ReqComponentRoleEnum k i in
  request_wf q -> bounded L n -> sbuf_view sd = encode q -> sbuf_view sr = [] ->
  wp (SerStubComponentRoleEnum d r) (handled q L n x) (St sd sr L n x).
Proof.
  intros q [Hl0 Hl] HL Hv Hr. unfold SerStubComponentRoleEnum. cbn in Hv. take_item.
  get_mem. take_item. call_adapter. destruct b as [ret p].
  pose proof (role_size (componentHandle x) (replicate (Z.to_nat k) 0) k i (adapter x)) as Hsz.
  rewrite length_replicate in Hsz. rewrite E in Hsz; cbn in Hsz.
  split_ret ret; [|give_struct; called q].
  put_struct p; give_struct; [called q | lost q].
Qed.

Lemma handle_GetState sd sr L n x :
  bounded L n -> sbuf_view sr = [] ->
  wp (SerStubGetState d r) (handled ReqGetState L n x) (St sd sr L n x).
Proof.
  intros HL Hr. unfold SerStubGetState. call_adapter. destruct b as [ret v].
  pose proof (state_range (componentHandle x) (adapter x)) as Hsz. rewrite E in Hsz; cbn in Hsz.
  rewrite u32_id by done.
  split_ret ret; [|apply wp_ret; called ReqGetState].
  put_reply writes_item; [called ReqGetState | lost ReqGetState].
Qed.

Lemma handle_ComponentDeInit sd sr L n x :
  bounded L n -> sbuf_view sr = [] ->
  wp (SerStubComponentDeInit d r) (handled ReqComponentDeInit L n x) (St sd sr L n x).
Proof.
  intros HL Hr. unfold SerStubComponentDeInit. call_adapter. apply wp_ret. called ReqComponentDeInit.
Qed.

Lemma handle_ComponentTunnelRequest p c p' t sd sr L n x :
  let q := ReqComponentTunnelRequest p c p' t in
  request_wf q -> bounded L n -> sbuf_view sd = encode q -> sbuf_view sr = [] ->
  wp (SerStubComponentTunnelRequest junk_tunnel d r) (handled q L n x) (St sd sr L n x).
Proof.
  intros q Ht HL Hv Hr. unfold SerStubComponentTunnelRequest. cbn -[enc_tunnel] in Hv. do 3 take_item.
  apply wp_bind. eapply (tunnel_reads d t junk_tunnel Ht _ _ _ _ _ _ _ []);
    [exact Hdr | by rewrite app_nil_r |]. intros sd3 Hv3. cbn beta iota; cbn [negb].
  call_adapter. destruct b as [ret t'].
  pose proof (tunnel_range (componentHandle x) p c p' t (adapter x) Ht) as Hsz.
  rewrite E in Hsz; cbn in Hsz.
  split_ret ret; [|apply wp_ret; called q].
  put_reply tunnel_writes; [called q | lost q].
Qed.

(** The methods that carry a codec buffer. *)
Lemma handle_UseBuffer p b sd sr L n x :
  let q := ReqUseBuffer p b in
  request_wf q -> bounded L n -> sbuf_view sd = encode q -> sbuf_view sr = [] ->
  wp (SerStubUseBuffer junk_buffer d r) (handled q L n x) (St sd sr L n x).
Proof.
  intros q Hb HL Hv Hr. unfold SerStubUseBuffer. cbn -[enc_buffer] in Hv. take_item. get_buffer b.
  call_adapter. destruct b0 as [ret b'].
  pose proof (use_buffer_wf (componentHandle x) p _ (adapter x) (recv_buffer_wf n b Hb)) as Hsz.
  rewrite E in Hsz; cbn in Hsz.
  split_ret ret; [|apply wp_ret; called_at n q].
  put_reply buffer_writes; [called_at n q | lost_at n q].
Qed.

Lemma handle_AllocateBuffer p b sd sr L n x :
  let q := ReqAllocateBuffer p b in
  request_wf q -> bounded L n -> sbuf_view sd = encode q -> sbuf_view sr = [] ->
  wp (SerStubAllocateBuffer junk_buffer d r) (handled q L n x) (St sd sr L n x).
Proof.
  intros q [Hb Ht] HL Hv Hr. unfold SerStubAllocateBuffer. cbn -[enc_buffer] in Hv. take_item. get_buffer b.
  call_adapter. destruct b0 as [ret b'].
  split_ret ret; [|apply wp_ret; called_at n q].
  pose proof (allocate_buffer_fd (componentHandle x) p (recv_buffer n b) (adapter x)) as Hfd.
  rewrite E in Hfd; cbn in Hfd. specialize (Hfd hdf_success_zero).
  pose proof (allocated_ok _ _ _ (recv_buffer_wf n b Hb) Ht Hfd) as Hok.
  put_reply buffer_ok_writes; [called_at n q | lost_at n q].
Qed.

(** For any other type of buffer the stub reads the payload at the descriptor. *)
Lemma handle_AllocateBuffer_unshared p b sd sr L n x :
  let q := ReqAllocateBuffer p b in
  reliable SB -> buffer_wf b -> bufferType b <> BUFFER_TYPE_AVSHARE_MEM_FD -> bounded L n ->
  sbuf_view sd = encode q ->
  (OmxAdapterAllocateBuffer (componentHandle x) p (recv_buffer n b) (adapter x)).1.1 = 0 ->
  SerStubAllocateBuffer junk_buffer d r (St sd sr L n x) = None.
Proof.
  intros q Hrel Hb Ht HL Hv Hacc. unfold SerStubAllocateBuffer. cbn -[enc_buffer] in Hv.
  apply undefined_later. eapply wp_read_data; [exact Hdr | exact Hv | done | done |]. intros sd1 Hv1.
  apply undefined_later. eapply (wp_buffer_unmarshal _ _ _ Hdr b _ []); [done | done | by rewrite app_nil_r | | done].
  intros sd2 Hv2. cbn [negb default id].
  pose proof (allocate_buffer_fd (componentHandle x) p (recv_buffer n b) (adapter x) Hacc) as (Et & _ & El & _ & fd & Ep & _).
  apply undefined_later, wp_with_adapter. intros [ret b'] a' E. rewrite E in *. cbn in Hacc, Et, El, Ep. subst ret.
  rewrite hdf_success_zero. cbn [negb Z.eqb].
  apply undefined_now. apply (buffer_marshal_undefined _ _ _ _ fd); [done | done | by rewrite El | by rewrite Et | done].
Qed.

Lemma handle_FreeBuffer p b sd sr L n x :
  let q := ReqFreeBuffer p b in
  request_wf q -> bounded L n -> sbuf_view sd = encode q -> sbuf_view sr = [] ->
  wp (SerStubFreeBuffer junk_buffer d r) (handled q L n x) (St sd sr L n x).
Proof.
  intros q Hb HL Hv Hr. unfold SerStubFreeBuffer. cbn -[enc_buffer] in Hv. take_item. get_buffer b.
  call_adapter. rename b0 into ret. split_ret ret; apply wp_ret; called_at n q.
Qed.

Lemma handle_EmptyThisBuffer b sd sr L n x :
  let q := ReqEmptyThisBuffer b in
  request_wf q -> bounded L n -> sbuf_view sd = encode q -> sbuf_view sr = [] ->
  wp (SerStubEmptyThisBuffer junk_buffer d r) (handled q L n x) (St sd sr L n x).
Proof.
  intros q Hb HL Hv Hr. unfold SerStubEmptyThisBuffer. cbn -[enc_buffer] in Hv. get_buffer b.
  call_adapter. rename b0 into ret. split_ret ret; apply wp_ret; called_at n q.
Qed.

Lemma handle_FillThisBuffer b sd sr L n x :
  let q := ReqFillThisBuffer b in
  request_wf q -> bounded L n -> sbuf_view sd = encode q -> sbuf_view sr = [] ->
  wp (SerStubFillThisBuffer junk_buffer d r) (handled q L n x) (St sd sr L n x).
Proof.
  intros q Hb HL Hv Hr. unfold SerStubFillThisBuffer. cbn -[enc_buffer] in Hv. get_buffer b.
  call_adapter. rename b0 into ret. split_ret ret; apply wp_ret; called_at n q.
Qed.

Lemma handle_UseEglImage b p l sd sr L n x :
  let q := ReqUseEglImage b p l in
  request_wf q -> bounded L n -> sbuf_view sd = encode q -> sbuf_view sr = [] ->
  wp (SerStubUseEglImage junk_buffer d r) (handled q L n x) (St sd sr L n x).
Proof.
  intros q [Hb Hl] HL Hv Hr. unfold SerStubUseEglImage. cbn -[enc_buffer] in Hv. get_buffer b.
  do 2 take_item. get_array l.
  call_adapter. rewrite array_cells in *. destruct b0 as [ret b'].
  pose proof (use_egl_wf (componentHandle x) _ p l (len l) (adapter x) (recv_buffer_wf n b Hb)) as Hsz.
  rewrite E in Hsz; cbn in Hsz.
  split_ret ret; [|give_back; called_at n q].
  put_reply buffer_writes; give_back; [called_at n q | lost_at n q].
Qed.

(** [strdup] may fail; the service then gets a null name. *)
Lemma handle_GetExtensionIndex s sd sr L n x :
  let q := ReqGetExtensionIndex (Some s) in
  bounded L n -> sbuf_view sd = encode q -> sbuf_view sr = [] ->
  wp (SerStubGetExtensionIndex d r) (handled q L n x) (St sd sr L n x).
Proof.
  intros q HL Hv Hr. unfold SerStubGetExtensionIndex. cbn in Hv. take_item.
  apply wp_bind. unfold strdup. apply wp_bind, wp_alloc; [|intros Hnr]; apply wp_ret; cbn [fmap option_fmap option_map];
    call_adapter; destruct b as [ret v]; apply wp_bind; cbn beta iota.
  - apply wp_free_fresh; [done|].
    split_ret ret; [|apply wp_ret; called q]. put_reply writes_item; [called q | lost q].
  - assert (~ reliable SB) as Hnr' by (apply Hnr; lia).
    apply wp_ret. split_ret ret; [|apply wp_ret; called_degraded q].
    put_reply writes_item; [called_degraded q | lost_degraded q].
Qed.

Lemma handle_SetCallbacks c l sd sr L n x :
  let q := ReqSetCallbacks (Some c) l in
  len l < 2 ^ 32 -> bounded L n -> sbuf_view sd = encode q -> sbuf_view sr = [] ->
  wp (SerStubSetCallbacks d r) (handled q L n x) (St sd sr L n x).
Proof.
  intros q Hl HL Hv Hr. unfold SerStubSetCallbacks. cbn in Hv. take_item.
  apply wp_bind. eapply wp_callback_get; [done | |].
  - take_item. get_array l. call_adapter. rename b into ret. rewrite array_cells in *.
    split_ret ret; give_back; called_at n q.
  - intros L' n' HL' Hs Hn Hnr. take_item. get_array l. call_adapter. rename b into ret.
    rewrite array_cells in *. split_ret ret; give_back; called_degraded q.
Qed.
End handlers.

(** ** Dispatch *)
Section dispatch.
Context {SB : Type} `{!Platform SB, !PlatformLaws SB} `{!HdfStatus, !HdfStatusLaws} {OMX : OmxTypes}.
Context {A : Type} `{!OmxAdapter A, !OmxAdapterLaws SB A}.
Context (junk_buffer : OmxCodecBuffer) (junk_tunnel : OMX_TUNNELSETUPTYPE).
Implicit Types (sd sr : SB) (L : gset nat) (n : nat) (x : CodecServer A).

Lemma component_cmd_of q :
  manager_cmd (cmd_of q) = false /\ component_cmd (cmd_of q) = true.
Proof. by destruct q. Qed.

Lemma handle_component base d r q sd sr L n x :
  d <> r -> request_wf q -> bounded L n -> sbuf_view sd = encode q -> sbuf_view sr = [] ->
  wp (HandleComponentCmd junk_buffer junk_tunnel (cmd_of q) d r) (handled (served (SB := SB)) base d r q L n x)
     (call_state base d r sd sr L n x).
Proof.
  intros Hdr Hq HL Hv Hr. destruct q; cbn [cmd_of].
  - by apply handle_GetComponentVersion.
  - by apply handle_SendCommand.
  - by apply handle_GetParameter.
  - by apply handle_SetParameter.
  - by apply handle_GetConfig.
  - by apply handle_SetConfig.
  - destruct paramName as [s|]; [by apply handle_GetExtensionIndex | by destruct Hq].
  - by apply handle_GetState.
  - by apply handle_ComponentTunnelRequest.
  - by apply handle_UseBuffer.
  - by apply handle_AllocateBuffer.
  - by apply handle_FreeBuffer.
  - by apply handle_EmptyThisBuffer.
  - by apply handle_FillThisBuffer.
  - destruct Hq as [[c Hc] Hl]. cbn in Hc. subst. by apply handle_SetCallbacks.
  - by apply handle_ComponentDeInit.
  - by apply handle_UseEglImage.
  - by apply handle_ComponentRoleEnum.
Qed.

(** The stub is a dispatcher for the interface, with the adapter behind it. *)
#[export] Instance stub_dispatch :
  Dispatch codec_desc (served (SB := SB)) (CodecComponentTypeServiceOnRemoteRequest junk_buffer junk_tunnel).
Proof.
  split.
  - intros base d r q sd sr L n x Hdr Hq HL Hv Hr. unfold CodecComponentTypeServiceOnRemoteRequest.
    apply wp_bind. eapply wp_check_token; [done | done |]. intros sd' Hv'. cbn [negb].
    change (p_cmd q) with (cmd_of q). destruct (component_cmd_of q) as [-> ->]. by apply handle_component.
  - intros q x ans x' Hq Hs. inversion Hs; subst; try done. by eapply serve_answer.
Qed.
End dispatch.
