(* ===== verification/CodecProxy.v ===== *)
(** * CodecProxy: the client end of the codec component interface

    Models [codec/hal/src/codec_component_type_proxy.c].  Every method of the
    proxy writes its arguments to a message, has the remote object dispatch it
    and reads the results from the reply.  A method returns its status and the
    final contents of its output parameters, whose initial contents are
    arguments. *)
From S2P Require Import Prelude Hdf Rpc Arrays CodecTypes CodecService.
Open Scope Z_scope.

(** [struct CodecComponentTypeProxy]; its first member, the method table, is
    [CodecComponentType] below. *)
Record CodecComponentTypeProxy (W : Type) := mkProxy { remote : option (HdfRemoteService W) }.
Arguments mkProxy {W} _.
Arguments remote {W} _.

Section proxy.
Context {SB : Type} `{!Platform SB} `{!HdfStatus} {OMX : OmxTypes} {X : Type}.
Abbreviation M := (M (World SB X)).
Abbreviation Self := (option (CodecComponentTypeProxy (World SB X))).
Implicit Types (self : Self).

Definition WriteInterfaceToken self (data : nat) : M Z :=
  match self with
  | None => mret HDF_FAILURE
  | Some proxy =>
      unless HdfRemoteServiceWriteInterfaceToken (remote proxy) data do mret HDF_FAILURE;
      mret HDF_SUCCESS
  end.

Definition CodecComponentTypeProxyCall self (id : Z) (data reply : nat) : M Z :=
  proxy ← deref self;
  match remote proxy with
  | Some (mkRemote _ (Some (Some Dispatch))) => Dispatch id data reply
  | _ => mret HDF_ERR_INVALID_OBJECT
  end.

Definition ReadValuesForGetComponentVersion (reply : nat) (verInfo : list Z) : M (Z * list Z) :=
  verInfoCp ←? HdfSbufReadUnpadBuffer sizeof_CompVerInfo reply else mret (HDF_ERR_INVALID_PARAM, verInfo);
  mret (HDF_SUCCESS, verInfoCp).

(** [if (WriteInterfaceToken(self, data) != HDF_SUCCESS) fail] *)
Definition token_ok self (d : nat) : M bool :=
  ret ← WriteInterfaceToken self d; mret (ret =? HDF_SUCCESS).

Definition CodecComponentTypeProxyGetComponentVersion self (verInfo : list Z) : M (Z * list Z) :=
  with_sbufs verInfo (fun data reply =>
    unless token_ok self data do leave data reply HDF_FAILURE verInfo;
    ret ← CodecComponentTypeProxyCall self CMD_GET_COMPONENT_VERSION data reply;
    if negb (ret =? HDF_SUCCESS) then leave data reply ret verInfo
    else
      '(ret, verInfo) ← ReadValuesForGetComponentVersion reply verInfo;
      leave data reply ret verInfo).

Definition CodecComponentTypeProxySendCommand self (cmd param : Z) (cmdData : list Z) (cmdDataLen : Z) : M (Z * unit) :=
  with_sbufs tt (fun data reply =>
    unless token_ok self data do leave data reply HDF_FAILURE tt;
    unless HdfSbufWriteUint32 data (u32 cmd) do leave data reply HDF_ERR_INVALID_PARAM tt;
    unless HdfSbufWriteUint32 data param do leave data reply HDF_ERR_INVALID_PARAM tt;
    unless HdfSbufWriteUint32 data cmdDataLen do leave data reply HDF_ERR_INVALID_PARAM tt;
    unless write_loop data IInt8 cmdData (Z.to_nat cmdDataLen) do leave data reply HDF_ERR_INVALID_PARAM tt;
    ret ← CodecComponentTypeProxyCall self CMD_SEND_COMMAND data reply;
    if negb (ret =? HDF_SUCCESS) then leave data reply ret tt
    else leave data reply ret tt).

Definition CodecComponentTypeProxyGetParameter self (paramIndex : Z) (paramStruct : list Z)
    (paramStructLen : Z) : M (Z * list Z) :=
  with_sbufs paramStruct (fun data reply =>
    unless token_ok self data do leave data reply HDF_FAILURE paramStruct;
    unless HdfSbufWriteUint32 data paramIndex do leave data reply HDF_ERR_INVALID_PARAM paramStruct;
    unless HdfSbufWriteUint32 data paramStructLen do leave data reply HDF_ERR_INVALID_PARAM paramStruct;
    unless write_loop data IInt8 paramStruct (Z.to_nat paramStructLen)
      do leave data reply HDF_ERR_INVALID_PARAM paramStruct;
    ret ← CodecComponentTypeProxyCall self CMD_GET_PARAMETER data reply;
    if negb (ret =? HDF_SUCCESS) then leave data reply ret paramStruct
    else
      '(ok, paramStruct) ← read_loop HdfSbufReadInt8 reply paramStruct (Z.to_nat paramStructLen);
      if negb ok then leave data reply HDF_ERR_INVALID_PARAM paramStruct
      else leave data reply ret paramStruct).

Definition CodecComponentTypeProxySetParameter self (index : Z) (paramStruct : list Z)
    (paramStructLen : Z) : M (Z * unit) :=
  with_sbufs tt (fun data reply =>
    unless token_ok self data do leave data reply HDF_FAILURE tt;
    unless HdfSbufWriteUint32 data index do leave data reply HDF_ERR_INVALID_PARAM tt;
    unless HdfSbufWriteUint32 data paramStructLen do leave data reply HDF_ERR_INVALID_PARAM tt;
    unless write_loop data IInt8 paramStruct (Z.to_nat paramStructLen)
      do leave data reply HDF_ERR_INVALID_PARAM tt;
    ret ← CodecComponentTypeProxyCall self CMD_SET_PARAMETER data reply;
    if negb (ret =? HDF_SUCCESS) then leave data reply ret tt
    else leave data reply ret tt).

Definition CodecComponentTypeProxyGetConfig self (index : Z) (cfgStruct : list Z)
    (cfgStructLen : Z) : M (Z * list Z) :=
  with_sbufs cfgStruct (fun data reply =>
    unless token_ok self data do leave data reply HDF_FAILURE cfgStruct;
    unless HdfSbufWriteUint32 data index do leave data reply HDF_ERR_INVALID_PARAM cfgStruct;
    unless HdfSbufWriteUint32 data cfgStructLen do leave data reply HDF_ERR_INVALID_PARAM cfgStruct;
    unless write_loop data IInt8 cfgStruct (Z.to_nat cfgStructLen)
      do leave data reply HDF_ERR_INVALID_PARAM cfgStruct;
    ret ← CodecComponentTypeProxyCall self CMD_GET_CONFIG data reply;
    if negb (ret =? HDF_SUCCESS) then leave data reply ret cfgStruct
    else
      '(ok, cfgStruct) ← read_loop HdfSbufReadInt8 reply cfgStruct (Z.to_nat cfgStructLen);
      if negb ok then leave data reply HDF_ERR_INVALID_PARAM cfgStruct
      else leave data reply ret cfgStruct).

Definition CodecComponentTypeProxySetConfig self (index : Z) (cfgStruct : list Z)
    (cfgStructLen : Z) : M (Z * unit) :=
  with_sbufs tt (fun data reply =>
    unless token_ok self data do leave data reply HDF_FAILURE tt;
    unless HdfSbufWriteUint32 data index do leave data reply HDF_ERR_INVALID_PARAM tt;
    unless HdfSbufWriteUint32 data cfgStructLen do leave data reply HDF_ERR_INVALID_PARAM tt;
    unless write_loop data IInt8 cfgStruct (Z.to_nat cfgStructLen)
      do leave data reply HDF_ERR_INVALID_PARAM tt;
    ret ← CodecComponentTypeProxyCall self CMD_SET_CONFIG data reply;
    if negb (ret =? HDF_SUCCESS) then leave data reply ret tt
    else leave data reply ret tt).

Definition CodecComponentTypeProxyGetExtensionIndex self (paramName : string) (indexType : Z) : M (Z * Z) :=
  with_sbufs indexType (fun data reply =>
    unless token_ok self data do leave data reply HDF_FAILURE indexType;
    unless HdfSbufWriteString data paramName do leave data reply HDF_ERR_INVALID_PARAM indexType;
    ret ← CodecComponentTypeProxyCall self CMD_GET_EXTENSION_INDEX data reply;
    if negb (ret =? HDF_SUCCESS) then leave data reply ret indexType
    else
      v ←? HdfSbufReadUint32 reply else leave data reply HDF_ERR_INVALID_PARAM indexType;
      leave data reply ret v).

Definition CodecComponentTypeProxyGetState self (state : Z) : M (Z * Z) :=
  with_sbufs state (fun data reply =>
    unless token_ok self data do leave data reply HDF_FAILURE state;
    ret ← CodecComponentTypeProxyCall self CMD_GET_STATE data reply;
    if negb (ret =? HDF_SUCCESS) then leave data reply ret state
    else
      v ←? HdfSbufReadUint32 reply else leave data reply HDF_ERR_INVALID_PARAM state;
      leave data reply ret v).

(** The tunnel setup and, below, the buffer are read into the caller's own
    structure, part of which may have been overwritten when a read fails. *)
Definition CodecComponentTypeProxyComponentTunnelRequest self (port tunneledComp tunneledPort : Z)
    (tunnelSetup : OMX_TUNNELSETUPTYPE) : M (Z * OMX_TUNNELSETUPTYPE) :=
  with_sbufs tunnelSetup (fun data reply =>
    unless token_ok self data do leave data reply HDF_FAILURE tunnelSetup;
    unless HdfSbufWriteUint32 data port do leave data reply HDF_ERR_INVALID_PARAM tunnelSetup;
    unless HdfSbufWriteInt32 data tunneledComp do leave data reply HDF_ERR_INVALID_PARAM tunnelSetup;
    unless HdfSbufWriteUint32 data tunneledPort do leave data reply HDF_ERR_INVALID_PARAM tunnelSetup;
    unless OMX_TUNNELSETUPTYPEBlockMarshalling data tunnelSetup
      do leave data reply HDF_ERR_INVALID_PARAM tunnelSetup;
    ret ← CodecComponentTypeProxyCall self CMD_COMPONENT_TUNNEL_REQUEST data reply;
    if negb (ret =? HDF_SUCCESS) then leave data reply ret tunnelSetup
    else
      '(ok, t) ← OMX_TUNNELSETUPTYPEBlockUnmarshalling reply (Some tunnelSetup);
      if negb ok then leave data reply HDF_ERR_INVALID_PARAM (default tunnelSetup t)
      else leave data reply ret (default tunnelSetup t)).

Definition CodecComponentTypeProxyUseBuffer self (portIndex : Z) (buffer : OmxCodecBuffer) : M (Z * OmxCodecBuffer) :=
  with_sbufs buffer (fun data reply =>
    unless token_ok self data do leave data reply HDF_FAILURE buffer;
    unless HdfSbufWriteUint32 data portIndex do leave data reply HDF_ERR_INVALID_PARAM buffer;
    unless OmxCodecBufferBlockMarshalling data buffer do leave data reply HDF_ERR_INVALID_PARAM buffer;
    ret ← CodecComponentTypeProxyCall self CMD_USE_BUFFER data reply;
    if negb (ret =? HDF_SUCCESS) then leave data reply ret buffer
    else
      '(ok, b) ← OmxCodecBufferBlockUnmarshalling reply (Some buffer);
      if negb ok then leave data reply HDF_ERR_INVALID_PARAM (default buffer b)
      else leave data reply ret (default buffer b)).

Definition CodecComponentTypeProxyAllocateBuffer self (portIndex : Z) (buffer : OmxCodecBuffer) : M (Z * OmxCodecBuffer) :=
  with_sbufs buffer (fun data reply =>
    unless token_ok self data do leave data reply HDF_FAILURE buffer;
    unless HdfSbufWriteUint32 data portIndex do leave data reply HDF_ERR_INVALID_PARAM buffer;
    unless OmxCodecBufferBlockMarshalling data buffer do leave data reply HDF_ERR_INVALID_PARAM buffer;
    ret ← CodecComponentTypeProxyCall self CMD_ALLOCATE_BUFFER data reply;
    if negb (ret =? HDF_SUCCESS) then leave data reply ret buffer
    else
      '(ok, b) ← OmxCodecBufferBlockUnmarshalling reply (Some buffer);
      if negb ok then leave data reply HDF_ERR_INVALID_PARAM (default buffer b)
      else leave data reply ret (default buffer b)).

Definition CodecComponentTypeProxyFreeBuffer self (portIndex : Z) (buffer : OmxCodecBuffer) : M (Z * unit) :=
  with_sbufs tt (fun data reply =>
    unless token_ok self data do leave data reply HDF_FAILURE tt;
    unless HdfSbufWriteUint32 data portIndex do leave data reply HDF_ERR_INVALID_PARAM tt;
    unless OmxCodecBufferBlockMarshalling data buffer do leave data reply HDF_ERR_INVALID_PARAM tt;
    ret ← CodecComponentTypeProxyCall self CMD_FREE_BUFFER data reply;
    if negb (ret =? HDF_SUCCESS) then leave data reply ret tt
    else leave data reply ret tt).

Definition CodecComponentTypeProxyEmptyThisBuffer self (buffer : OmxCodecBuffer) : M (Z * unit) :=
  with_sbufs tt (fun data reply =>
    unless token_ok self data do leave data reply HDF_FAILURE tt;
    unless OmxCodecBufferBlockMarshalling data buffer do leave data reply HDF_ERR_INVALID_PARAM tt;
    ret ← CodecComponentTypeProxyCall self CMD_EMPTY_THIS_BUFFER data reply;
    if negb (ret =? HDF_SUCCESS) then leave data reply ret tt
    else leave data reply ret tt).

Definition CodecComponentTypeProxyFillThisBuffer self (buffer : OmxCodecBuffer) : M (Z * unit) :=
  with_sbufs tt (fun data reply =>
    unless token_ok self data do leave data reply HDF_FAILURE tt;
    unless OmxCodecBufferBlockMarshalling data buffer do leave data reply HDF_ERR_INVALID_PARAM tt;
    ret ← CodecComponentTypeProxyCall self CMD_FILL_THIS_BUFFER data reply;
    if negb (ret =? HDF_SUCCESS) then leave data reply ret tt
    else leave data reply ret tt).

(** A callback object is known by its remote object. *)
Definition CodecComponentTypeProxySetCallbacks self (callback : option Z) (appData : list Z)
    (appDataLen : Z) : M (Z * unit) :=
  with_sbufs tt (fun data reply =>
    unless token_ok self data do leave data reply HDF_FAILURE tt;
    callbackRemote ← deref callback;
    unless HdfSbufWriteRemoteService data callbackRemote do leave data reply HDF_ERR_INVALID_PARAM tt;
    unless HdfSbufWriteUint32 data appDataLen do leave data reply HDF_ERR_INVALID_PARAM tt;
    unless write_loop data IInt8 appData (Z.to_nat appDataLen) do leave data reply HDF_ERR_INVALID_PARAM tt;
    ret ← CodecComponentTypeProxyCall self CMD_SET_CALLBACKS data reply;
    if negb (ret =? HDF_SUCCESS) then leave data reply ret tt
    else leave data reply ret tt).

Definition CodecComponentTypeProxyComponentDeInit self : M (Z * unit) :=
  with_sbufs tt (fun data reply =>
    unless token_ok self data do leave data reply HDF_FAILURE tt;
    ret ← CodecComponentTypeProxyCall self CMD_COMPONENT_DE_INIT data reply;
    if negb (ret =? HDF_SUCCESS) then leave data reply ret tt
    else leave data reply ret tt).

Definition CodecComponentTypeProxyUseEglImage self (buffer : OmxCodecBuffer) (portIndex : Z)
    (eglImage : list Z) (eglImageLen : Z) : M (Z * OmxCodecBuffer) :=
  with_sbufs buffer (fun data reply =>
    unless token_ok self data do leave data reply HDF_FAILURE buffer;
    unless OmxCodecBufferBlockMarshalling data buffer do leave data reply HDF_ERR_INVALID_PARAM buffer;
    unless HdfSbufWriteUint32 data portIndex do leave data reply HDF_ERR_INVALID_PARAM buffer;
    unless HdfSbufWriteUint32 data eglImageLen do leave data reply HDF_ERR_INVALID_PARAM buffer;
    unless write_loop data IInt8 eglImage (Z.to_nat eglImageLen)
      do leave data reply HDF_ERR_INVALID_PARAM buffer;
    ret ← CodecComponentTypeProxyCall self CMD_USE_EGL_IMAGE data reply;
    if negb (ret =? HDF_SUCCESS) then leave data reply ret buffer
    else
      '(ok, b) ← OmxCodecBufferBlockUnmarshalling reply (Some buffer);
      if negb ok then leave data reply HDF_ERR_INVALID_PARAM (default buffer b)
      else leave data reply ret (default buffer b)).

Definition CodecComponentTypeProxyComponentRoleEnum self (role : list Z) (roleLen index : Z) : M (Z * list Z) :=
  with_sbufs role (fun data reply =>
    unless token_ok self data do leave data reply HDF_FAILURE role;
    unless HdfSbufWriteUint32 data roleLen do leave data reply HDF_ERR_INVALID_PARAM role;
    unless HdfSbufWriteUint32 data index do leave data reply HDF_ERR_INVALID_PARAM role;
    ret ← CodecComponentTypeProxyCall self CMD_COMPONENT_ROLE_ENUM data reply;
    if negb (ret =? HDF_SUCCESS) then leave data reply ret role
    else
      '(ok, role) ← read_loop HdfSbufReadUint8 reply role (Z.to_nat roleLen);
      if negb ok then leave data reply HDF_ERR_INVALID_PARAM role
      else leave data reply ret role).
End proxy.

(** ** The method table *)
Record CodecComponentType (W : Type) := mkComponentType {
  GetComponentVersion : option (CodecComponentTypeProxy W) -> list Z -> M W (Z * list Z);
  SendCommand : option (CodecComponentTypeProxy W) -> Z -> Z -> list Z -> Z -> M W (Z * unit);
  GetParameter : option (CodecComponentTypeProxy W) -> Z -> list Z -> Z -> M W (Z * list Z);
  SetParameter : option (CodecComponentTypeProxy W) -> Z -> list Z -> Z -> M W (Z * unit);
  GetConfig : option (CodecComponentTypeProxy W) -> Z -> list Z -> Z -> M W (Z * list Z);
  SetConfig : option (CodecComponentTypeProxy W) -> Z -> list Z -> Z -> M W (Z * unit);
  GetExtensionIndex : option (CodecComponentTypeProxy W) -> string -> Z -> M W (Z * Z);
  GetState : option (CodecComponentTypeProxy W) -> Z -> M W (Z * Z);
  ComponentTunnelRequest : option (CodecComponentTypeProxy W) -> Z -> Z -> Z ->
    OMX_TUNNELSETUPTYPE -> M W (Z * OMX_TUNNELSETUPTYPE);
  UseBuffer : option (CodecComponentTypeProxy W) -> Z -> OmxCodecBuffer -> M W (Z * OmxCodecBuffer);
  AllocateBuffer : option (CodecComponentTypeProxy W) -> Z -> OmxCodecBuffer -> M W (Z * OmxCodecBuffer);
  FreeBuffer : option (CodecComponentTypeProxy W) -> Z -> OmxCodecBuffer -> M W (Z * unit);
  EmptyThisBuffer : option (CodecComponentTypeProxy W) -> OmxCodecBuffer -> M W (Z * unit);
  FillThisBuffer : option (CodecComponentTypeProxy W) -> OmxCodecBuffer -> M W (Z * unit);
  SetCallbacks : option (CodecComponentTypeProxy W) -> option Z -> list Z -> Z -> M W (Z * unit);
  ComponentDeInit : option (CodecComponentTypeProxy W) -> M W (Z * unit);
  UseEglImage : option (CodecComponentTypeProxy W) -> OmxCodecBuffer -> Z -> list Z -> Z ->
    M W (Z * OmxCodecBuffer);
  ComponentRoleEnum : option (CodecComponentTypeProxy W) -> list Z -> Z -> Z -> M W (Z * list Z);
}.
Arguments mkComponentType {W}.

(** A proxy object: the block it lives in, its remote object and its table. *)
Record ProxyObject (W : Type) := mkProxyObject {
  po_block : nat;
  po_proxy : CodecComponentTypeProxy W;
  po_instance : CodecComponentType W;
}.
Arguments mkProxyObject {W} _ _ _.
Arguments po_block {W} _.
Arguments po_proxy {W} _.
Arguments po_instance {W} _.

(** Eighteen function pointers and the remote object, on a 64-bit target. *)
Definition sizeof_CodecComponentTypeProxy : Z := 19 * 8.

Section instance.
Context {SB : Type} `{!Platform SB} `{!HdfStatus} {OMX : OmxTypes} {X : Type}.
Abbreviation W := (World SB X).
Abbreviation M := (M W).
Context (HdfRemoteServiceRecycle : option (HdfRemoteService W) -> M unit).

Definition CodecComponentTypeProxyConstruct : CodecComponentType W :=
  mkComponentType
    CodecComponentTypeProxyGetComponentVersion
    CodecComponentTypeProxySendCommand
    CodecComponentTypeProxyGetParameter
    CodecComponentTypeProxySetParameter
    CodecComponentTypeProxyGetConfig
    CodecComponentTypeProxySetConfig
    CodecComponentTypeProxyGetExtensionIndex
    CodecComponentTypeProxyGetState
    CodecComponentTypeProxyComponentTunnelRequest
    CodecComponentTypeProxyUseBuffer
    CodecComponentTypeProxyAllocateBuffer
    CodecComponentTypeProxyFreeBuffer
    CodecComponentTypeProxyEmptyThisBuffer
    CodecComponentTypeProxyFillThisBuffer
    CodecComponentTypeProxySetCallbacks
    CodecComponentTypeProxyComponentDeInit
    CodecComponentTypeProxyUseEglImage
    CodecComponentTypeProxyComponentRoleEnum.

Definition CodecComponentTypeGet (remote : option (HdfRemoteService W)) : M (option (ProxyObject W)) :=
  proxy ← OsalMemAlloc sizeof_CodecComponentTypeProxy;
  match proxy with
  | None => HdfRemoteServiceRecycle remote;; mret None
  | Some k => mret (Some (mkProxyObject k (mkProxy remote) CodecComponentTypeProxyConstruct))
  end.

Definition CodecComponentTypeRelease (instance : option (ProxyObject W)) : M unit :=
  match instance with
  | None => mret tt
  | Some o => OsalMemFree (po_block o)
  end.
End instance.

(** The initial contents of the output parameters of a call. *)
Record OutParams := mkOutParams { o_verInfo : list Z; o_word : Z; o_role : list Z }.

(** A client calls a method of the table. *)
Definition invoke {W} (inst : CodecComponentType W) (self : option (CodecComponentTypeProxy W))
    (o : OutParams) (q : request) : M W (Z * answer) :=
  let give {B} (f : B -> answer) (m : M W (Z * B)) := p ← m; mret (p.1, f p.2) in
  let plain := give (fun _ : unit => AnsNone) in
  match q with
  | ReqGetComponentVersion => give AnsBytes (GetComponentVersion _ inst self (o_verInfo o))
  | ReqSendCommand cmd p l => plain (SendCommand _ inst self cmd p l (len l))
  | ReqGetParameter i l => give AnsInt8s (GetParameter _ inst self i l (len l))
  | ReqSetParameter i l => plain (SetParameter _ inst self i l (len l))
  | ReqGetConfig i l => give AnsInt8s (GetConfig _ inst self i l (len l))
  | ReqSetConfig i l => plain (SetConfig _ inst self i l (len l))
  | ReqGetExtensionIndex name =>
      s ← deref name; give AnsUint32 (GetExtensionIndex _ inst self s (o_word o))
  | ReqGetState => give AnsUint32 (GetState _ inst self (o_word o))
  | ReqComponentTunnelRequest p c p' t => give AnsTunnel (ComponentTunnelRequest _ inst self p c p' t)
  | ReqUseBuffer p b => give AnsBuffer (UseBuffer _ inst self p b)
  | ReqAllocateBuffer p b => give AnsBuffer (AllocateBuffer _ inst self p b)
  | ReqFreeBuffer p b => plain (FreeBuffer _ inst self p b)
  | ReqEmptyThisBuffer b => plain (EmptyThisBuffer _ inst self b)
  | ReqFillThisBuffer b => plain (FillThisBuffer _ inst self b)
  | ReqSetCallbacks cb l => plain (SetCallbacks _ inst self cb l (len l))
  | ReqComponentDeInit => plain (ComponentDeInit _ inst self)
  | ReqUseEglImage b p l => give AnsBuffer (UseEglImage _ inst self b p l (len l))
  | ReqComponentRoleEnum n i => give AnsUint8s (ComponentRoleEnum _ inst self (o_role o) n i)
  end.
