(* ===== verification/CodecProxyFacts.v ===== *)
(** * CodecProxyFacts: a method of the proxy performs its request

    Every method is proved against the contract [Dispatch] of the transport,
    whatever is at the other end: the message carries the arguments, the reply
    becomes the output parameters, and both message buffers are given back on
    every path. *)
From S2P Require Import Prelude Hdf Rpc Arrays CodecTypes CodecService CodecProxy.
Open Scope Z_scope.

Section method.
Context {SB : Type} `{!Platform SB, !PlatformLaws SB} `{!HdfStatus, !HdfStatusLaws} {OMX : OmxTypes} {X : Type}.
Context (S : behaviour request answer X) (rem : HdfRemoteService (World SB X)).
Abbreviation self := (Some (mkProxy (Some rem))).
Context {HD : Dispatch (rs_desc rem) S (CodecComponentTypeProxyCall self)}.
Context (w : World SB X) (Hw : world_ok w).

Abbreviation post := (post S w).

Lemma token_writes d :
  writes d (token_ok self d) [IToken (rs_desc rem)].
Proof.
  intros base r' sd sr L n x Q Hdr' Ht Hf. unfold token_ok, WriteInterfaceToken. cbn [remote].
  apply wp_bind, wp_bind, wp_bind, wp_ret. eapply wp_write_data; [done | done | |].
  - intros sd' Hv. apply wp_ret, wp_ret. rewrite Z.eqb_refl. by apply Ht.
  - intros sd' Hnr. apply wp_ret, wp_ret. rewrite (proj2 (Z.eqb_neq _ _)) by apply failure_error. by apply Hf.
Qed.

Ltac open_call := open_method token_writes.
Ltac call_peer q := call_remote (CodecComponentTypeProxyCall self) q.

Lemma proxy_SendCommand cmd param l :
  let q := ReqSendCommand cmd param l in
  request_wf q ->
  wp (CodecComponentTypeProxySendCommand self cmd param l (len l)) (post q (fun _ => AnsNone)) w.
Proof. intros q Hq. open_call. do 3 put writes_item. put writes_all. call_peer q. finish 0%nat. Qed.

Lemma proxy_SetParameter i l :
  let q := ReqSetParameter i l in
  request_wf q ->
  wp (CodecComponentTypeProxySetParameter self i l (len l)) (post q (fun _ => AnsNone)) w.
Proof. intros q Hq. open_call. do 2 put writes_item. put writes_all. call_peer q. finish 0%nat. Qed.

Lemma proxy_SetConfig i l :
  let q := ReqSetConfig i l in
  request_wf q ->
  wp (CodecComponentTypeProxySetConfig self i l (len l)) (post q (fun _ => AnsNone)) w.
Proof. intros q Hq. open_call. do 2 put writes_item. put writes_all. call_peer q. finish 0%nat. Qed.

Lemma proxy_FreeBuffer p b :
  let q := ReqFreeBuffer p b in
  request_wf q ->
  wp (CodecComponentTypeProxyFreeBuffer self p b) (post q (fun _ => AnsNone)) w.
Proof. intros q Hq. open_call. put writes_item. put buffer_writes. call_peer q. finish 0%nat. Qed.

Lemma proxy_EmptyThisBuffer b :
  let q := ReqEmptyThisBuffer b in
  request_wf q ->
  wp (CodecComponentTypeProxyEmptyThisBuffer self b) (post q (fun _ => AnsNone)) w.
Proof. intros q Hq. open_call. put buffer_writes. call_peer q. finish 0%nat. Qed.

Lemma proxy_FillThisBuffer b :
  let q := ReqFillThisBuffer b in
  request_wf q ->
  wp (CodecComponentTypeProxyFillThisBuffer self b) (post q (fun _ => AnsNone)) w.
Proof. intros q Hq. open_call. put buffer_writes. call_peer q. finish 0%nat. Qed.

Lemma proxy_ComponentDeInit  :
  let q := ReqComponentDeInit in
  request_wf q ->
  wp (CodecComponentTypeProxyComponentDeInit self ) (post q (fun _ => AnsNone)) w.
Proof. intros q Hq. open_call.  call_peer q. finish 0%nat. Qed.

Lemma proxy_SetCallbacks c l :
  let q := ReqSetCallbacks (Some c) l in
  request_wf q ->
  wp (CodecComponentTypeProxySetCallbacks self (Some c) l (len l)) (post q (fun _ => AnsNone)) w.
Proof.
  intros q Hq. open_call. apply wp_bind, wp_ret. do 2 put writes_item. put writes_all.
  call_peer q. finish 0%nat.
Qed.
Lemma proxy_GetState v0 :
  let q := ReqGetState in
  wp (CodecComponentTypeProxyGetState self v0) (post q AnsUint32) w.
Proof.
  intros q. open_call. call_peer q. pose proof Hans as [v ->].
  take_reply reads_item. finish 0%nat.
Qed.

Lemma proxy_GetExtensionIndex name v0 :
  let q := ReqGetExtensionIndex (Some name) in
  request_wf q ->
  wp (CodecComponentTypeProxyGetExtensionIndex self name v0) (post q AnsUint32) w.
Proof.
  intros q Hq. open_call. put writes_item. call_peer q. pose proof Hans as [v ->].
  take_reply reads_item. finish 0%nat.
Qed.
Lemma version_reads d l v0 :
  len l = sizeof_CompVerInfo ->
  reads (X := X) d (ReadValuesForGetComponentVersion d v0) [IUnpad l] (HDF_SUCCESS, l).
Proof.
  intros Hl. change [IUnpad l] with ([IUnpad l] ++ []). apply reads_bind with (a := Some l); [|apply reads_ret].
  apply reads_item; [|done]. cbn. by rewrite <- Hl.
Qed.

Lemma proxy_GetComponentVersion v0 :
  let q := ReqGetComponentVersion in
  wp (CodecComponentTypeProxyGetComponentVersion self v0) (post q AnsBytes) w.
Proof.
  intros q. open_call. call_peer q. pose proof Hans as (l & -> & Hl).
  take_reply version_reads. finish 0%nat.
Qed.

Lemma proxy_GetParameter i l :
  let q := ReqGetParameter i l in
  request_wf q ->
  wp (CodecComponentTypeProxyGetParameter self i l (len l)) (post q AnsInt8s) w.
Proof.
  intros q Hq. open_call. do 2 put writes_item. put writes_all. call_peer q.
  pose proof Hans as (l' & -> & Hl). take_reply (reads_full _ IInt8). finish 0%nat.
Qed.

Lemma proxy_GetConfig i l :
  let q := ReqGetConfig i l in
  request_wf q ->
  wp (CodecComponentTypeProxyGetConfig self i l (len l)) (post q AnsInt8s) w.
Proof.
  intros q Hq. open_call. do 2 put writes_item. put writes_all. call_peer q.
  pose proof Hans as (l' & -> & Hl). take_reply (reads_full _ IInt8). finish 0%nat.
Qed.

Lemma proxy_ComponentRoleEnum role i :
  let q := ReqComponentRoleEnum (len role) i in
  request_wf q ->
  wp (CodecComponentTypeProxyComponentRoleEnum self role (len role) i) (post q AnsUint8s) w.
Proof.
  intros q Hq. open_call. do 2 put writes_item. call_peer q.
  pose proof Hans as (l' & -> & Hl). unfold len in Hl. rewrite Nat2Z.id in Hl.
  take_reply (reads_full _ IUint8). finish 0%nat.
Qed.

Lemma proxy_ComponentTunnelRequest p c p' t :
  let q := ReqComponentTunnelRequest p c p' t in
  request_wf q ->
  wp (CodecComponentTypeProxyComponentTunnelRequest self p c p' t) (post q AnsTunnel) w.
Proof.
  intros q Hq. open_call. do 3 put writes_item. put tunnel_writes. call_peer q.
  pose proof Hans as (t' & -> & Ht). take_reply tunnel_reads. finish 0%nat.
Qed.
(** The buffer in the reply; its payload is stored in memory of the client. *)
Lemma wp_buffer_reply d r b b0 sd sr L n x (Q : bool * option OmxCodecBuffer -> World SB X -> Prop) :
  d <> r -> buffer_ok SB b -> bounded L n -> sbuf_view sr = enc_buffer b ->
  (forall sr', Q (true, Some (recv_buffer n b))
     (call_state (w_sbufs w) d r sd sr' (payload_live n b L) (payload_next n b) x)) ->
  (forall sr' n' b', ~ reliable SB -> (n <= n')%nat ->
     Q (false, Some b') (call_state (w_sbufs w) d r sd sr' L n' x)) ->
  wp (OmxCodecBufferBlockUnmarshalling r (Some b0)) Q (call_state (w_sbufs w) d r sd sr L n x).
Proof.
  intros Hdr Hb HL Hv HS HF. rewrite call_state_swap by done.
  eapply (wp_buffer_ok_unmarshal _ _ _ (not_eq_sym Hdr) b _ []); [done | done | by rewrite app_nil_r | |].
  - intros sr' _. rewrite call_state_swap by done. apply HS.
  - intros sr' n' b' Hnr Hn. rewrite call_state_swap by done. by apply HF.
Qed.

Lemma payload_keeps q n b L L' :
  (match q with ReqUseBuffer _ _ | ReqAllocateBuffer _ _ | ReqUseEglImage _ _ _ => True | _ => False end) ->
  keeps q L L' -> keeps q L (payload_live n b L').
Proof. intros Hq Hk. unfold payload_live. destruct q, (heap_payload b); try done; cbn in *; set_solver. Qed.

Lemma payload_next_le n b : (n <= payload_next n b)%nat.
Proof. unfold payload_next. case_match; lia. Qed.

(** The common ending of the methods that return a buffer. *)
Lemma reply_buffer_ok q d r (buffer : OmxCodecBuffer) sd sr L n x ans :
  (match q with ReqUseBuffer _ _ | ReqAllocateBuffer _ _ | ReqUseEglImage _ _ _ => True | _ => False end) ->
  d <> r -> w_sbufs w !! d = None -> w_sbufs w !! r = None ->
  S q (w_svc w) HDF_SUCCESS ans x -> answer_wf SB q ans ->
  sbuf_view sr = enc_answer ans -> bounded L n -> (w_next w <= n)%nat -> keeps q (w_live w) L ->
  wp ('(ok, b) ← OmxCodecBufferBlockUnmarshalling r (Some buffer);
      if negb ok then leave d r HDF_ERR_INVALID_PARAM (default buffer b)
      else leave d r HDF_SUCCESS (default buffer b)) (post q AnsBuffer)
     (call_state (w_sbufs w) d r sd sr L n x).
Proof.
  intros Hq Hdr Hd Hr HS Hans Hsr HL Hn Hk.
  assert (exists b, ans = AnsBuffer b /\ buffer_ok SB b) as (b & -> & Hb) by (by destruct q).
  apply wp_bind. apply wp_buffer_reply with (b := b); [done..| |]; cbn beta iota; cbn [negb default id].
  - intros sr'. eapply done_ok with (blk := n); [done.. | | | by apply payload_keeps | done].
    + by apply payload_bounded.
    + pose proof (payload_next_le n b). lia.
  - intros sr' n' b' Hnr Hn'. apply leave_ok; [done..| | lia | done |].
    + by eapply bounded_le.
    + eapply outcome_lost; [done | exact HS | apply invalid_param_error].
Qed.

Lemma proxy_UseBuffer p b :
  let q := ReqUseBuffer p b in
  request_wf q -> wp (CodecComponentTypeProxyUseBuffer self p b) (post q AnsBuffer) w.
Proof.
  intros q Hq. open_call. put writes_item. put buffer_writes. call_peer q. by eapply reply_buffer_ok.
Qed.

Lemma proxy_AllocateBuffer p b :
  let q := ReqAllocateBuffer p b in
  request_wf q -> wp (CodecComponentTypeProxyAllocateBuffer self p b) (post q AnsBuffer) w.
Proof.
  intros q Hq. pose proof Hq as [Hb _]. open_call. put writes_item. put buffer_writes. call_peer q.
  by eapply reply_buffer_ok.
Qed.

Lemma proxy_UseEglImage b p l :
  let q := ReqUseEglImage b p l in
  request_wf q -> wp (CodecComponentTypeProxyUseEglImage self b p l (len l)) (post q AnsBuffer) w.
Proof.
  intros q Hq. pose proof Hq as [Hb _]. open_call. put buffer_writes. do 2 put writes_item. put writes_all.
  call_peer q. by eapply reply_buffer_ok.
Qed.

(** ** Any method of the table *)
Definition out_wf (o : OutParams) (q : request) : Prop :=
  match q with ReqComponentRoleEnum n _ => len (o_role o) = n | _ => True end.

Lemma invoke_ok o q :
  request_wf q -> out_wf o q ->
  wp (invoke CodecComponentTypeProxyConstruct self o q) (returned S q w) w.
Proof.
  intros Hq Ho. destruct q; cbn [invoke GetComponentVersion].
  all: try (apply wp_bind).
  - eapply wp_mono; [apply proxy_GetComponentVersion | done].
  - eapply wp_mono; [by apply proxy_SendCommand | done].
  - eapply wp_mono; [by apply proxy_GetParameter | done].
  - eapply wp_mono; [by apply proxy_SetParameter | done].
  - eapply wp_mono; [by apply proxy_GetConfig | done].
  - eapply wp_mono; [by apply proxy_SetConfig | done].
  - destruct paramName as [s|]; [|by destruct Hq]. apply wp_ret, wp_bind.
    eapply wp_mono; [by apply proxy_GetExtensionIndex | done].
  - eapply wp_mono; [apply proxy_GetState | done].
  - eapply wp_mono; [by apply proxy_ComponentTunnelRequest | done].
  - eapply wp_mono; [by apply proxy_UseBuffer | done].
  - eapply wp_mono; [by apply proxy_AllocateBuffer | done].
  - eapply wp_mono; [by apply proxy_FreeBuffer | done].
  - eapply wp_mono; [by apply proxy_EmptyThisBuffer | done].
  - eapply wp_mono; [by apply proxy_FillThisBuffer | done].
  - destruct Hq as [[c Hc] Hl]. cbn in Hc. subst.
    eapply wp_mono; [by apply proxy_SetCallbacks | done].
  - eapply wp_mono; [by apply proxy_ComponentDeInit | done].
  - eapply wp_mono; [by apply proxy_UseEglImage | done].
  - cbn in Ho. subst. eapply wp_mono; [by apply proxy_ComponentRoleEnum | done].
Qed.
End method.
