(* ===== verification/CodecRpc.v ===== *)
(** * CodecRpc: proxy and stub together

    The end-to-end theorems of the codec component interface: a client that
    calls a method of the proxy gets what the OpenMAX adapter in the server
    answers to the same call. *)
From S2P Require Import Prelude Hdf HdfQueue Rpc Arrays CodecTypes CodecService CodecInstance.
From S2P Require Import CodecStub CodecStubFacts CodecProxy CodecProxyFacts.
Open Scope Z_scope.

Section connection.
Context {SB : Type} `{!Platform SB, !PlatformLaws SB} `{!HdfStatus, !HdfStatusLaws} {OMX : OmxTypes} {X : Type}.

(** The transport of a proxy is the dispatcher of its remote object. *)
Lemma remote_dispatch desc (S : behaviour request answer X) f :
  Dispatch (SB := SB) desc S f ->
  Dispatch desc S (CodecComponentTypeProxyCall (Some (mkProxy (Some (mkRemote desc (Some (Some f))))))).
Proof. done. Qed.

(** A remote object without a dispatcher refuses every call. *)
Lemma proxy_offline_dispatch desc (disp : option (option (Z -> nat -> nat -> M (World SB X) Z))) :
  (forall f, disp <> Some (Some f)) ->
  Dispatch (Q := request) (Ans := answer) desc offline
    (CodecComponentTypeProxyCall (Some (mkProxy (Some (mkRemote desc disp))))).
Proof.
  intros Hn. apply offline_dispatch; [exact AnsNone|]. intros id d r.
  destruct disp as [[f|]|]; [by destruct (Hn f) | done | done].
Qed.
End connection.

(** ** The proxy connected to the stub *)
Section rpc.
Context {SB : Type} `{!Platform SB, !PlatformLaws SB} `{!HdfStatus, !HdfStatusLaws} {OMX : OmxTypes}.
Context {A : Type} `{!OmxAdapter A, !OmxAdapterLaws SB A}.
Context (junk_buffer : OmxCodecBuffer) (junk_tunnel : OMX_TUNNELSETUPTYPE).
Implicit Types (w : World SB (CodecServer A)).

Definition stub_remote : HdfRemoteService (World SB (CodecServer A)) :=
  mkRemote codec_desc (Some (Some (CodecComponentTypeServiceOnRemoteRequest junk_buffer junk_tunnel))).
Definition stub_proxy : option (CodecComponentTypeProxy (World SB (CodecServer A))) :=
  Some (mkProxy (Some stub_remote)).

(** One remote call. *)
Definition remote_call (o : OutParams) (q : request) : M (World SB (CodecServer A)) (Z * answer) :=
  invoke CodecComponentTypeProxyConstruct stub_proxy o q.

Lemma remote_call_returns o q w :
  world_ok w -> request_wf q -> out_wf o q ->
  wp (remote_call o q) (returned (served (SB := SB)) q w) w.
Proof.
  intros Hw Hq Ho.
  exact (invoke_ok (served (SB := SB)) stub_remote (HD := remote_dispatch _ _ _ (stub_dispatch _ _)) w Hw o q Hq Ho).
Qed.

(** What [served] and [outcome] say together when no resource is short. *)
Lemma reliable_outcome q (x : CodecServer A) ret out x' :
  reliable SB -> outcome (served (SB := SB)) q x ret out x' ->
  exists n m ans, serve (received n q) x = (ret, ans, x') /\ (ret = HDF_SUCCESS -> out = recv_answer m ans).
Proof.
  intros Hrel Ho. inversion Ho; subst; try done;
    match goal with Hs : served _ _ _ _ _ |- _ => inversion Hs; subst; try done end.
  all: match goal with Hd : delivered _ _ |- _ => destruct Hd as [k [->|[]]]; [|done] end.
  - by exists k, 0%nat, ans.
  - by exists k, n, ans.
Qed.
(** C1: a remote call is transparent.  When no memory is refused, to the two ends
    or, in the form of shared memory, to the adapter, calling any
    method of the proxy with well-formed arguments returns (a buffer to allocate
    is of the shared memory type, [allocate_unshared_undefined] is about the
    others), the server's adapter has been called exactly once with the arguments
    of the call, the client gets the adapter's status and, on success, the
    adapter's results; both message buffers are recycled. *)
Theorem rpc_transparent o q w :
  reliable SB -> world_ok w -> request_wf q -> out_wf o q ->
  exists res w' n m ans,
    remote_call o q w = Some (res, w') /\
    serve (received n q) (w_svc w) = (res.1, ans, w_svc w') /\
    (res.1 = HDF_SUCCESS -> res.2 = recv_answer m ans) /\
    w_sbufs w' = w_sbufs w /\ world_ok w'.
Proof.
  intros Hrel Hw Hq Ho.
  destruct (wp_inv _ _ _ (remote_call_returns o q w Hw Hq Ho)) as (res & w' & Hr & Hs & Hok & _ & Hout).
  destruct (reliable_outcome _ _ _ _ _ Hrel Hout) as (n & m & ans & Hserve & Hans).
  by exists res, w', n, m, ans.
Qed.

(** C2: a call is performed at most once, whatever fails.  Even when memory or
    message space is refused at any point, or the adapter answers an allocation
    with the descriptor -1 because it got no shared memory, the call returns (a
    buffer to allocate is of the shared memory type), the server's state
    changes by at most one call of the adapter, a successful status means that
    the adapter succeeded and its results were delivered, every message buffer
    is recycled, and the memory of the two ends is as before, up to what the
    request keeps. *)
Theorem rpc_at_most_once o q w :
  world_ok w -> request_wf q -> out_wf o q ->
  exists res w',
    remote_call o q w = Some (res, w') /\
    (w_svc w' = w_svc w \/
     exists q' ret ans, delivered (SB := SB) q q' /\ serve q' (w_svc w) = (ret, ans, w_svc w')) /\
    (res.1 = HDF_SUCCESS -> exists q' m ans, delivered (SB := SB) q q' /\
       serve q' (w_svc w) = (HDF_SUCCESS, ans, w_svc w') /\ res.2 = recv_answer m ans) /\
    w_sbufs w' = w_sbufs w /\ keeps q (w_live w) (w_live w') /\ world_ok w'.
Proof.
  intros Hw Hq Ho.
  destruct (wp_inv _ _ _ (remote_call_returns o q w Hw Hq Ho)) as (res & w' & Hr & Hs & Hok & Hk & Hout).
  exists res, w'. split; [done|]. split; [|split; [|done]].
  - inversion Hout; subst; [by left|..];
      match goal with Hsv : served _ _ _ _ _ |- _ => inversion Hsv; subst; eauto 8 end.
  - intros Hret. inversion Hout; subst; try done.
    match goal with Hsv : served _ _ _ _ _ |- _ => inversion Hsv; subst; try done; eauto 8 end.
Qed.

(** Why a buffer to allocate must be of the shared memory type: for any other
    type an allocation that the adapter accepts has no defined behaviour, because
    the stub reads the payload at the number of the descriptor. *)
Lemma allocate_unshared_undefined o p b w :
  reliable SB -> world_ok w -> buffer_wf b -> bufferType b <> BUFFER_TYPE_AVSHARE_MEM_FD ->
  (forall n, (OmxAdapterAllocateBuffer (componentHandle (w_svc w)) p (recv_buffer n b) (adapter (w_svc w))).1.1 = 0) ->
  remote_call o (ReqAllocateBuffer p b) w = None.
Proof.
  intros Hrel [Hs HL] Hb Ht Hacc. unfold remote_call. cbn [invoke AllocateBuffer CodecComponentTypeProxyConstruct].
  apply undefined_now. unfold CodecComponentTypeProxyAllocateBuffer, with_sbufs.
  set (n := w_next w). assert (n <> S n) as Hdr by lia. pose proof (proj1 Hrel) as Hobt.
  apply undefined_later. unfold wp, HdfSbufTypedObtain at 1. rewrite Hobt.
  apply undefined_later. unfold wp, HdfSbufTypedObtain. rewrite Hobt. cbn [w_next w_sbufs w_live w_svc].
  change (mkWorld _ _ _ _) with (call_state (w_sbufs w) n (S n) sbuf_new sbuf_new (w_live w) (S (S n)) (w_svc w)).
  apply undefined_later. eapply (token_writes stub_remote); [done | | done]. intros sd1 Hv1. cbn [negb].
  apply undefined_later. eapply writes_item; [done | | done]. intros sd2 Hv2. cbn [negb].
  apply undefined_later. eapply buffer_writes; [done | done | | done]. intros sd3 Hv3. cbn [negb].
  rewrite Hv2, Hv1, sbuf_view_new in Hv3. cbn [app] in Hv3.
  apply undefined_now. cbn [CodecComponentTypeProxyCall stub_proxy remote stub_remote].
  apply undefined_later, wp_deref with (a := mkProxy (Some stub_remote)); [done|]. cbn [remote stub_remote].
  unfold CodecComponentTypeServiceOnRemoteRequest.
  apply undefined_later. eapply wp_check_token; [done | exact Hv3 |]. intros sd4 Hv4. cbn [negb].
  eapply handle_AllocateBuffer_unshared; [done.. | | exact Hv4 | apply Hacc].
  eapply bounded_le; [exact HL | lia].
Qed.

(** ** Sessions *)

(** A client that makes calls one after the other. *)
Fixpoint session (cs : list (OutParams * request)) : M (World SB (CodecServer A)) (list (Z * answer)) :=
  match cs with
  | [] => mret []
  | (o, q) :: cs' => res ← remote_call o q; rs ← session cs'; mret (res :: rs)
  end.

(** The same calls made directly on the adapter. *)
Inductive direct : list request -> CodecServer A -> list (Z * answer) -> CodecServer A -> Prop :=
  | direct_nil x : direct [] x [] x
  | direct_cons q qs n m ret ans out x x1 x2 rs :
      serve (received n q) x = (ret, ans, x1) ->
      (ret = HDF_SUCCESS -> out = recv_answer m ans) ->
      direct qs x1 rs x2 ->
      direct (q :: qs) x ((ret, out) :: rs) x2.

(** C25: a sequence of remote calls with well-formed arguments, allocations being
    of shared memory, is the same sequence of adapter calls, in the same order,
    and leaves no message buffer behind. *)
Theorem session_refines_direct cs w :
  reliable SB -> world_ok w ->
  Forall (fun c => request_wf c.2 /\ out_wf c.1 c.2) cs ->
  exists rs w', session cs w = Some (rs, w') /\
    direct (map snd cs) (w_svc w) rs (w_svc w') /\ w_sbufs w' = w_sbufs w /\ world_ok w'.
Proof.
  intros Hrel Hw Hcs. revert w Hw. induction Hcs as [|[o q] cs [Hq Ho] _ IH]; intros w Hw.
  { exists [], w. split_and!; try done. constructor. }
  cbn in Hq, Ho. pose proof (remote_call_returns o q w Hw Hq Ho) as Hc.
  apply wp_inv in Hc as (res & w1 & Hr & Hs & Hok & _ & Hout).
  destruct (reliable_outcome _ _ _ _ _ Hrel Hout) as (n & m & ans & Hserve & Hans).
  destruct (IH w1 Hok) as (rs & w2 & Hses & Hdir & Hs2 & Hok2).
  exists (res :: rs), w2. cbn. unfold mbind, M_bind. rewrite Hr, Hses. split; [done|].
  split; [|by rewrite Hs2]. destruct res. by eapply direct_cons.
Qed.
End rpc.

(** Without a dispatcher a method returns [HDF_ERR_INVALID_OBJECT] (or
    fails for lack of memory), changes nothing and recycles its buffers. *)
Lemma proxy_offline `{!Platform SB, !PlatformLaws SB} `{!HdfStatus, !HdfStatusLaws} {OMX : OmxTypes}
    {X} desc (disp : option (option (Z -> nat -> nat -> M (World SB X) Z))) o q (w : World SB X) :
  (forall f, disp <> Some (Some f)) -> world_ok w -> request_wf q -> out_wf o q ->
  exists res w',
    invoke CodecComponentTypeProxyConstruct (Some (mkProxy (Some (mkRemote desc disp)))) o q w = Some (res, w') /\
    res.1 <> HDF_SUCCESS /\ (reliable SB -> res.1 = HDF_ERR_INVALID_OBJECT) /\
    w_sbufs w' = w_sbufs w /\ w_svc w' = w_svc w /\ keeps q (w_live w) (w_live w') /\ world_ok w'.
Proof.
  intros Hn Hw Hq Ho.
  pose proof (invoke_ok offline (mkRemote desc disp) (HD := proxy_offline_dispatch _ _ Hn) w Hw o q Hq Ho) as Hc.
  apply wp_inv in Hc as (res & w' & Hr & Hs & Hok & Hk & Hout). exists res, w'.
  pose proof invalid_object_error.
  inversion Hout; subst; try match goal with Hsv : offline _ _ _ _ _ |- _ => destruct Hsv end;
    split_and!; congruence || done.
Qed.

(** ** The theorems at concrete inputs *)
Definition zero_buffer : OmxCodecBuffer :=
  mkOmxCodecBuffer 0 0 [0; 0; 0; 0] BUFFER_TYPE_VIRTUAL_ADDR (PMem (Mem 0 [1; 2; 3])) 3 3 3 0 0 0 0 0.
Definition zero_tunnel : OMX_TUNNELSETUPTYPE := mkTunnelSetup 0 0.
Definition zero_out : OutParams := mkOutParams [] 0 [0; 0].

Abbreviation log_rpc := (remote_call (A := omx_log) zero_buffer zero_tunnel zero_out).

Lemma zero_buffer_wf : buffer_wf zero_buffer.
Proof.
  split_and!; try done. intros _. cbn. by eexists.
Qed.

(** A command reaches the adapter with its arguments and the component handle. *)
Example send_command_runs :
  (fun p => (p.1, adapter (w_svc p.2), w_sbufs p.2, w_live p.2)) <$> log_rpc (ReqSendCommand 1 2 [3; 4]) world0 =
  Some (0, AnsNone, [(42, ReqSendCommand 1 2 [3; 4])], ∅, ∅).
Proof. vm_compute. reflexivity. Qed.

(** A structure comes back as the adapter changed it. *)
Example get_parameter_runs :
  fst <$> log_rpc (ReqGetParameter 1 [1; 2; 3; 4]) world0 = Some (0, AnsInt8s [1; 7; 3; 7]).
Proof. vm_compute. reflexivity. Qed.

(** An allocation of shared memory answers with its descriptor; one of another
    type, which the adapter accepts as well, brings the server down. *)
Definition shared_request : OmxCodecBuffer := set_bufferLen 0 (set_bufferType BUFFER_TYPE_AVSHARE_MEM_FD zero_buffer).
Example allocate_shared_runs :
  (fun p => match p.1.2 with AnsBuffer b => (p.1.1, buffer b, bufferLen b) | _ => (-1, PNull, 0) end) <$>
    log_rpc (ReqAllocateBuffer 1 shared_request) world0 = Some (0, PInt 11, 4).
Proof. vm_compute. reflexivity. Qed.
Example allocate_unshared_crashes : log_rpc (ReqAllocateBuffer 1 zero_buffer) world0 = None.
Proof. vm_compute. reflexivity. Qed.

Lemma rpc_transparent_witness :
  exists res w' n m ans,
    log_rpc (ReqUseBuffer 1 zero_buffer) world0 = Some (res, w') /\
    serve (received n (ReqUseBuffer 1 zero_buffer)) (w_svc world0) = (res.1, ans, w_svc w') /\
    (res.1 = HDF_SUCCESS -> res.2 = recv_answer m ans) /\
    w_sbufs w' = w_sbufs world0 /\ world_ok w'.
Proof.
  apply (rpc_transparent zero_buffer zero_tunnel zero_out (ReqUseBuffer 1 zero_buffer) world0);
    [exact queue_reliable | exact world0_ok | exact zero_buffer_wf | done].
Defined.

Lemma rpc_at_most_once_witness :
  exists res w',
    log_rpc (ReqGetParameter 1 [1; 2]) world0 = Some (res, w') /\
    (w_svc w' = w_svc world0 \/
     exists q' ret ans, delivered (ReqGetParameter 1 [1; 2]) q' /\
       serve q' (w_svc world0) = (ret, ans, w_svc w')) /\
    (res.1 = HDF_SUCCESS -> exists q' m ans, delivered (ReqGetParameter 1 [1; 2]) q' /\
       serve q' (w_svc world0) = (HDF_SUCCESS, ans, w_svc w') /\ res.2 = recv_answer m ans) /\
    w_sbufs w' = w_sbufs world0 /\
    keeps (ReqGetParameter 1 [1; 2]) (w_live world0) (w_live w') /\ world_ok w'.
Proof.
  apply (rpc_at_most_once zero_buffer zero_tunnel zero_out (ReqGetParameter 1 [1; 2]) world0);
    [exact world0_ok | done | done].
Defined.

Definition four_calls : list (OutParams * request) :=
  [(zero_out, ReqSendCommand 0 2 []); (zero_out, ReqAllocateBuffer 1 shared_request);
   (zero_out, ReqComponentRoleEnum 2 0); (zero_out, ReqGetState)].

Lemma session_refines_direct_witness :
  exists rs w', session (A := omx_log) zero_buffer zero_tunnel four_calls world0 = Some (rs, w') /\
    direct (map snd four_calls) (w_svc world0) rs (w_svc w') /\
    w_sbufs w' = w_sbufs world0 /\ world_ok w'.
Proof.
  apply (session_refines_direct zero_buffer zero_tunnel four_calls world0);
    [exact queue_reliable | exact world0_ok |].
  repeat (constructor; [by first [split_and! | split; [split; [split_and!; done | done] | done]]|]). constructor.
Defined.

Lemma proxy_offline_witness :
  exists res w',
    invoke CodecComponentTypeProxyConstruct (Some (mkProxy (Some (mkRemote codec_desc (Some None)))))
      zero_out ReqGetState world0 = Some (res, w') /\
    res.1 <> HDF_SUCCESS /\ (reliable (list item) -> res.1 = HDF_ERR_INVALID_OBJECT) /\
    w_sbufs w' = w_sbufs world0 /\ w_svc w' = w_svc world0 /\
    keeps ReqGetState (w_live world0) (w_live w') /\ world_ok w'.
Proof.
  apply (proxy_offline codec_desc (Some None) zero_out ReqGetState world0);
    [done | exact world0_ok | done | done].
Defined.
