(* ===== verification/CodecCallback.v ===== *)
(** * CodecCallback: the callback interface of the codec service

    Models the methods of [codec/hal/src/codec_callback_type_proxy.c] (the end
    in the codec service, which reports events and finished buffers) and
    [codec/hal/src/codec_callback_type_stub.c] (the end in the application). *)
From S2P Require Import Prelude Hdf Rpc Arrays CodecTypes CodecService.
Open Scope Z_scope.

(** [struct EventInfo]: two arrays with their lengths and two numbers. *)
Record EventInfo := mkEventInfo {
  ei_appData : option mem;
  ei_appDataLen : Z;
  ei_data1 : Z;
  ei_data2 : Z;
  ei_eventData : option mem;
  ei_eventDataLen : Z;
}.
Definition zero_info : EventInfo := mkEventInfo None 0 0 0 None 0.
Definition set_ei_appData (a : option mem) (n : Z) (i : EventInfo) : EventInfo :=
  mkEventInfo a n (ei_data1 i) (ei_data2 i) (ei_eventData i) (ei_eventDataLen i).
Definition set_ei_data1 (v : Z) (i : EventInfo) : EventInfo :=
  mkEventInfo (ei_appData i) (ei_appDataLen i) v (ei_data2 i) (ei_eventData i) (ei_eventDataLen i).
Definition set_ei_data2 (v : Z) (i : EventInfo) : EventInfo :=
  mkEventInfo (ei_appData i) (ei_appDataLen i) (ei_data1 i) v (ei_eventData i) (ei_eventDataLen i).
Definition set_ei_eventData (a : option mem) (n : Z) (i : EventInfo) : EventInfo :=
  mkEventInfo (ei_appData i) (ei_appDataLen i) (ei_data1 i) (ei_data2 i) a n.

(** [enum CallbackDispatchCmd] *)
Definition CMD_EVENT_HANDLER : Z := 0.
Definition CMD_EMPTY_BUFFER_DONE : Z := 1.
Definition CMD_FILL_BUFFER_DONE : Z := 2.

(** The application's callback object, a parameter: arrays are passed with
    their lengths, the application's state is [C]. *)
Class CallbackImpl (C : Type) := {
  EventHandler : Z -> list Z -> Z -> Z -> Z -> list Z -> Z -> C -> Z * C;
  EmptyBufferDone : list Z -> Z -> OmxCodecBuffer -> C -> Z * C;
  FillBufferDone : list Z -> Z -> OmxCodecBuffer -> C -> Z * C;
}.

(** ** The proxy *)
Section proxy.
Context {SB : Type} `{!Platform SB} `{!HdfStatus} {OMX : OmxTypes} {X : Type}.
Abbreviation M := (M (World SB X)).

(** [struct CodecCallbackType]: its remote object. *)
Definition CodecCallbackType : Type := option (HdfRemoteService (World SB X)).
Implicit Types (self : CodecCallbackType).

Definition CodecCallbackTypeProxyCall self (id : Z) (data reply : nat) : M Z :=
  match self with
  | Some (mkRemote _ (Some (Some Dispatch))) => Dispatch id data reply
  | _ => mret HDF_ERR_INVALID_OBJECT
  end.

Definition WriteArray (data : nat) (array : list Z) (arrayLen : Z) : M Z :=
  unless HdfSbufWriteUint32 data arrayLen do mret HDF_ERR_INVALID_PARAM;
  unless write_loop data IInt8 array (Z.to_nat arrayLen) do mret HDF_ERR_INVALID_PARAM;
  mret HDF_SUCCESS.

Definition WriteEventInfo (data : nat) (info : EventInfo) : M Z :=
  ret ← WriteArray data (cells (ei_appData info)) (ei_appDataLen info);
  if negb (ret =? HDF_SUCCESS) then mret ret
  else
    unless HdfSbufWriteUint32 data (ei_data1 info) do mret HDF_ERR_INVALID_PARAM;
    unless HdfSbufWriteUint32 data (ei_data2 info) do mret HDF_ERR_INVALID_PARAM;
    ret ← WriteArray data (cells (ei_eventData info)) (ei_eventDataLen info);
    mret ret.

(** [ret = f(...); if (ret != HDF_SUCCESS) fail] *)
Definition succeeds (m : M Z) : M bool := ret ← m; mret (ret =? HDF_SUCCESS).

Definition CodecCallbackTypeProxyEventHandler self (event : Z) (info : EventInfo) : M (Z * unit) :=
  with_sbufs tt (fun data reply =>
    unless HdfRemoteServiceWriteInterfaceToken self data do leave data reply HDF_FAILURE tt;
    unless HdfSbufWriteUint32 data (u32 event) do leave data reply HDF_ERR_INVALID_PARAM tt;
    unless succeeds (WriteEventInfo data info) do leave data reply HDF_ERR_INVALID_PARAM tt;
    ret ← CodecCallbackTypeProxyCall self CMD_EVENT_HANDLER data reply;
    if negb (ret =? HDF_SUCCESS) then leave data reply ret tt
    else leave data reply ret tt).

Definition CodecCallbackTypeProxyEmptyBufferDone self (appData : list Z) (appDataLen : Z)
    (buffer : OmxCodecBuffer) : M (Z * unit) :=
  with_sbufs tt (fun data reply =>
    unless HdfRemoteServiceWriteInterfaceToken self data do leave data reply HDF_FAILURE tt;
    unless HdfSbufWriteUint32 data appDataLen do leave data reply HDF_ERR_INVALID_PARAM tt;
    unless write_loop data IInt8 appData (Z.to_nat appDataLen) do leave data reply HDF_ERR_INVALID_PARAM tt;
    unless OmxCodecBufferBlockMarshalling data buffer do leave data reply HDF_ERR_INVALID_PARAM tt;
    ret ← CodecCallbackTypeProxyCall self CMD_EMPTY_BUFFER_DONE data reply;
    if negb (ret =? HDF_SUCCESS) then leave data reply ret tt
    else leave data reply ret tt).

Definition CodecCallbackTypeProxyFillBufferDone self (appData : list Z) (appDataLen : Z)
    (buffer : OmxCodecBuffer) : M (Z * unit) :=
  with_sbufs tt (fun data reply =>
    unless HdfRemoteServiceWriteInterfaceToken self data do leave data reply HDF_FAILURE tt;
    unless HdfSbufWriteUint32 data appDataLen do leave data reply HDF_ERR_INVALID_PARAM tt;
    unless write_loop data IInt8 appData (Z.to_nat appDataLen) do leave data reply HDF_ERR_INVALID_PARAM tt;
    unless OmxCodecBufferBlockMarshalling data buffer do leave data reply HDF_ERR_INVALID_PARAM tt;
    ret ← CodecCallbackTypeProxyCall self CMD_FILL_BUFFER_DONE data reply;
    if negb (ret =? HDF_SUCCESS) then leave data reply ret tt
    else leave data reply ret tt).
End proxy.

(** ** The stub *)
Section stub.
Context {SB : Type} `{!Platform SB} `{!HdfStatus} {OMX : OmxTypes} {C : Type} `{!CallbackImpl C}.
Abbreviation M := (M (World SB C)).
(** The indeterminate contents of a local structure. *)
Context (junk_buffer : OmxCodecBuffer).

Definition call_impl (f : C -> Z * C) : M Z :=
  x ← svc_state; let '(ret, x') := f x in set_svc x';; mret ret.

(** The status and, on success, the array and its length. *)
Definition ReadArray (data : nat) : M (Z * option (option mem * Z)) :=
  bufferLen ←? HdfSbufReadUint32 data else mret (HDF_ERR_INVALID_PARAM, None);
  if bufferLen <=? 0 then mret (HDF_SUCCESS, Some (None, bufferLen))
  else
    buffer ←? OsalMemCalloc bufferLen else mret (HDF_ERR_MALLOC_FAIL, None);
    r ← read_loop HdfSbufReadInt8 data (mem_cells buffer) (Z.to_nat bufferLen);
    if negb r.1 then OsalMemFree (mem_id buffer);; mret (HDF_ERR_INVALID_PARAM, None)
    else mret (HDF_SUCCESS, Some (Some (Mem (mem_id buffer) r.2), bufferLen)).

(** The status and the structure afterwards.  An array the function leaves
    untouched keeps the value the caller gave it. *)
Definition ReadEventInfo (data : nat) (info : EventInfo) : M (Z * EventInfo) :=
  '(ret, a) ← ReadArray data;
  let info := match a with Some (p, n) => set_ei_appData p n info | None => info end in
  if negb (ret =? HDF_SUCCESS) then mret (ret, info)
  else
    data1 ←? HdfSbufReadUint32 data
      else (FreeMem (ei_appData info) (ei_appDataLen info);; mret (HDF_ERR_INVALID_PARAM, info));
    let info := set_ei_data1 data1 info in
    data2 ←? HdfSbufReadUint32 data
      else (FreeMem (ei_appData info) (ei_appDataLen info);; mret (HDF_ERR_INVALID_PARAM, info));
    let info := set_ei_data2 data2 info in
    '(ret, a) ← ReadArray data;
    let info := match a with Some (p, n) => set_ei_eventData p n info | None => info end in
    if negb (ret =? HDF_SUCCESS) then FreeMem (ei_appData info) (ei_appDataLen info);; mret (ret, info)
    else mret (ret, info).

Definition ReleaseEventInfo (info : EventInfo) : M unit :=
  FreeMem (ei_appData info) (ei_appDataLen info);;
  FreeMem (ei_eventData info) (ei_eventDataLen info).

Definition SerStubEventHandler (data reply : nat) : M Z :=
  event ←? HdfSbufReadUint32 data else mret HDF_ERR_INVALID_PARAM;
  '(ret, info) ← ReadEventInfo data zero_info;
  if negb (ret =? HDF_SUCCESS) then mret HDF_ERR_INVALID_PARAM
  else
    ret ← call_impl (EventHandler event (cells (ei_appData info)) (ei_appDataLen info)
                       (ei_data1 info) (ei_data2 info) (cells (ei_eventData info)) (ei_eventDataLen info));
    ReleaseEventInfo info;; mret ret.

Definition SerStubEmptyBufferDone (data reply : nat) : M Z :=
  appDataLen ←? HdfSbufReadUint32 data else mret HDF_ERR_INVALID_PARAM;
  r ← read_int8s data appDataLen;
  match r with
  | inl e => mret e
  | inr appData =>
      '(ok, buffer) ← OmxCodecBufferBlockUnmarshalling data (Some junk_buffer);
      if negb ok then FreeMem appData appDataLen;; mret HDF_ERR_INVALID_PARAM
      else
        ret ← call_impl (EmptyBufferDone (cells appData) appDataLen (default junk_buffer buffer));
        if negb (ret =? HDF_SUCCESS) then FreeMem appData appDataLen;; mret ret
        else FreeMem appData appDataLen;; mret ret
  end.

Definition SerStubFillBufferDone (data reply : nat) : M Z :=
  appDataLen ←? HdfSbufReadUint32 data else mret HDF_ERR_INVALID_PARAM;
  r ← read_int8s data appDataLen;
  match r with
  | inl e => mret e
  | inr appData =>
      '(ok, buffer) ← OmxCodecBufferBlockUnmarshalling data (Some junk_buffer);
      if negb ok then FreeMem appData appDataLen;; mret HDF_ERR_INVALID_PARAM
      else
        ret ← call_impl (FillBufferDone (cells appData) appDataLen (default junk_buffer buffer));
        if negb (ret =? HDF_SUCCESS) then FreeMem appData appDataLen;; mret ret
        else FreeMem appData appDataLen;; mret ret
  end.

(** The remote object of the callback was given the descriptor of the codec
    service when it was created. *)
Definition CodecCallbackTypeServiceOnRemoteRequest (code : Z) (data reply : nat) : M Z :=
  unless CheckInterfaceToken codec_desc data do mret HDF_ERR_INVALID_PARAM;
  if code =? CMD_EVENT_HANDLER then SerStubEventHandler data reply
  else if code =? CMD_EMPTY_BUFFER_DONE then SerStubEmptyBufferDone data reply
  else if code =? CMD_FILL_BUFFER_DONE then SerStubFillBufferDone data reply
  else mret HDF_ERR_INVALID_PARAM.
End stub.

(** ** The abstract interface *)
Inductive cb_request :=
  | CbEventHandler (event : Z) (appData : list Z) (data1 data2 : Z) (eventData : list Z)
  | CbEmptyBufferDone (appData : list Z) (b : OmxCodecBuffer)
  | CbFillBufferDone (appData : list Z) (b : OmxCodecBuffer).

Definition cb_cmd (q : cb_request) : Z :=
  match q with
  | CbEventHandler _ _ _ _ _ => CMD_EVENT_HANDLER
  | CbEmptyBufferDone _ _ => CMD_EMPTY_BUFFER_DONE
  | CbFillBufferDone _ _ => CMD_FILL_BUFFER_DONE
  end.

Definition cb_encode (q : cb_request) : list item :=
  match q with
  | CbEventHandler e a d1 d2 v =>
      IUint32 (u32 e) :: enc_int8s a ++ [IUint32 d1; IUint32 d2] ++ enc_int8s v
  | CbEmptyBufferDone a b | CbFillBufferDone a b => enc_int8s a ++ enc_buffer b
  end.

Definition cb_wf {OMX : OmxTypes} (q : cb_request) : Prop :=
  match q with
  | CbEventHandler e a _ _ v => 0 <= e < 2 ^ 32 /\ len a < 2 ^ 32 /\ len v < 2 ^ 32
  | CbEmptyBufferDone a b | CbFillBufferDone a b => len a < 2 ^ 32 /\ buffer_wf b
  end.

(** The payload of a buffer stays with the application. *)
Definition cb_keeps (q : cb_request) (L L' : gset nat) : Prop :=
  match q with CbEventHandler _ _ _ _ _ => L' = L | _ => L ⊆ L' end.

Lemma cb_keeps_refl q L : cb_keeps q L L.
Proof. destruct q; cbn; set_solver. Qed.

#[global] Instance callback_protocol {OMX : OmxTypes} : Protocol cb_request unit := {
  p_cmd := cb_cmd;
  p_encode := cb_encode;
  p_answer := fun _ => [];
  p_recv := fun _ a => a;
  p_wf := cb_wf;
  p_answer_wf := fun _ _ => True;
  p_keeps := cb_keeps;
  p_keeps_refl := cb_keeps_refl;
}.

(** What the application is asked, [n] naming the block of a payload. *)
Definition cb_serve `{!Platform SB} {C} `{!CallbackImpl C} (n : nat) (q : cb_request) : C -> Z * C :=
  match q with
  | CbEventHandler e a d1 d2 v => EventHandler e a (len a) d1 d2 v (len v)
  | CbEmptyBufferDone a b => EmptyBufferDone a (len a) (recv_buffer n b)
  | CbFillBufferDone a b => FillBufferDone a (len a) (recv_buffer n b)
  end.

(** The application is called once, or not at all when memory runs out. *)
Inductive cb_served {SB} `{!Platform SB} `{!HdfStatus} {C} `{!CallbackImpl C} (q : cb_request) (x : C) :
    Z -> unit -> C -> Prop :=
  | cb_refused e u : ~ reliable SB -> e <> HDF_SUCCESS -> cb_served q x e u x
  | cb_called n ret u x' : cb_serve n q x = (ret, x') -> cb_served q x ret u x'.
