(* ===== verification/CodecCallbackFacts.v ===== *)
(** * CodecCallbackFacts: callbacks reach the application

    The stub serves every callback message, the proxy sends it, and together
    they call the application exactly once per callback. *)
From S2P Require Import Prelude Hdf HdfQueue Rpc Arrays CodecTypes CodecService CodecInstance CodecCallback.
Open Scope Z_scope.

(** ** The stub *)
Section stub_facts.
Context {SB : Type} `{!Platform SB, !PlatformLaws SB} `{!HdfStatus, !HdfStatusLaws} {OMX : OmxTypes}.
Context {C : Type} `{!CallbackImpl C} (junk_buffer : OmxCodecBuffer).
Context (base : gmap nat SB) (d r : nat) (Hdr : d <> r).
Implicit Types (sd sr : SB) (L : gset nat) (n : nat) (x : C).
Abbreviation St := (call_state base d r).
Abbreviation handled := (handled (cb_served (SB := SB)) base d r).

Lemma wp_call_impl (f : C -> Z * C) sd sr L n x (Q : Z -> World SB C -> Prop) :
  (forall ret x', f x = (ret, x') -> Q ret (St sd sr L n x')) ->
  wp (call_impl f) Q (St sd sr L n x).
Proof.
  intros HQ. unfold call_impl. apply wp_bind, wp_svc_state. destruct (f x) as [ret x'] eqn:E.
  apply wp_bind, wp_set_svc, wp_ret. by apply HQ.
Qed.

(** An array and its length: delivered, or the status is an error and no
    memory is held. *)
Lemma wp_ReadArray l v sd sr L n x (Q : Z * option (option mem * Z) -> World SB C -> Prop) :
  bounded L n -> sbuf_view sd = enc_int8s l ++ v ->
  (forall sd', sbuf_view sd' = v ->
     Q (HDF_SUCCESS, Some (array_ptr n l, len l)) (St sd' sr (array_live n l L) (array_next n l) x)) ->
  (forall sd' n', ~ reliable SB -> (n <= n')%nat ->
     Q (HDF_ERR_MALLOC_FAIL, None) (St sd' sr L n' x)) ->
  wp (ReadArray d) Q (St sd sr L n x).
Proof.
  intros HL Hv HQ Hf. unfold ReadArray.
  apply wp_bind. eapply wp_read_data; [done | exact Hv | done | done |]. cbn beta iota. intros sd1 Hv1.
  unfold array_ptr, array_live, array_next in HQ. destruct (Z.leb_spec (len l) 0) as [Hl|Hl].
  - apply len_nil in Hl as ->. apply wp_ret. by apply HQ.
  - rewrite (proj2 (Z.ltb_lt _ _)) in HQ by done.
    apply wp_bind, wp_calloc; [|intros Hnr; apply wp_ret, Hf; [auto|lia]].
    apply wp_bind. eapply (wp_read_zeroed _ _ _ Hdr); [exact Hv1 |]. intros sd2 Hv2. apply wp_ret. by apply HQ.
Qed.

Lemma cb_handled_refused q L n x e sd' sr' n' :
  ~ reliable SB -> e <> HDF_SUCCESS -> (n <= n')%nat -> bounded L n ->
  handled q L n x e (St sd' sr' L n' x).
Proof.
  intros Hnr He Hn HL. exists sd', sr', L, n', tt, x. split; [done|]. split; [by constructor|].
  split; [done|]. split; [done|]. split; [by eapply bounded_le | apply cb_keeps_refl].
Qed.

Lemma cb_handled_called k q L n x ret x' sd' sr' L' n' :
  cb_serve k q x = (ret, x') -> sbuf_view sr' = [] -> (n <= n')%nat -> bounded L' n' -> cb_keeps q L L' ->
  handled q L n x ret (St sd' sr' L' n' x').
Proof.
  intros Hs Hr Hn HL Hk. exists sd', sr', L', n', tt, x'. split; [done|]. split; [by eapply cb_called | done].
Qed.

Lemma handle_EventHandler e a d1 d2 v sd sr L n x :
  let q := CbEventHandler e a d1 d2 v in
  cb_wf q -> bounded L n -> sbuf_view sd = cb_encode q -> sbuf_view sr = [] ->
  wp (SerStubEventHandler d r) (handled q L n x) (St sd sr L n x).
Proof.
  intros q (He & Ha & Hv0) HL Hv Hr. unfold SerStubEventHandler. cbn -[enc_int8s] in Hv.
  apply wp_bind. eapply wp_read_data; [done | exact Hv | done | done |]. intros sd1 Hv1. cbn beta iota.
  rewrite u32_id by done. apply wp_bind. unfold ReadEventInfo.
  apply wp_bind. eapply wp_ReadArray; [done | exact Hv1 | |].
  2:{ intros sd2 n' Hnr Hn. cbn beta iota. rewrite (proj2 (Z.eqb_neq _ _)) by apply malloc_fail_error.
      apply wp_ret. cbn beta iota. rewrite (proj2 (Z.eqb_neq _ _)) by apply malloc_fail_error. apply wp_ret.
      apply cb_handled_refused; [done | apply invalid_param_error | done | done]. }
  intros sd2 Hv2. cbn beta iota. rewrite Z.eqb_refl. cbn [negb].
  apply wp_bind. eapply wp_read_data; [done | exact Hv2 | done | done |]. intros sd3 Hv3. cbn beta iota.
  apply wp_bind. eapply wp_read_data; [done | exact Hv3 | done | done |]. intros sd4 Hv4. cbn beta iota.
  pose proof (array_bounded n a L HL) as HLa. pose proof (array_next_le n a) as Hna.
  apply wp_bind. eapply (wp_ReadArray v []); [done | by rewrite app_nil_r | |].
  - intros sd5 _. cbn beta iota. rewrite Z.eqb_refl. cbn [negb]. apply wp_ret. cbn. rewrite Z.eqb_refl. cbn [negb].
    rewrite !array_cells. apply wp_bind, wp_call_impl. intros ret x' Hs. apply wp_bind. unfold ReleaseEventInfo. cbn.
    pose proof (array_next_le (array_next n a) v) as Hnv.
    eapply wp_free_two; [done..|]. apply wp_ret.
    eapply (cb_handled_called 0); [done | done | lia | by eapply bounded_le; [exact HL | lia] | done].
  - intros sd5 n' Hnr Hn. cbn beta iota. rewrite (proj2 (Z.eqb_neq _ _)) by apply malloc_fail_error. cbn [negb].
    apply wp_bind. cbn. apply wp_free_array; [done|]. apply wp_ret. cbn beta iota.
    rewrite (proj2 (Z.eqb_neq _ _)) by apply malloc_fail_error. apply wp_ret.
    apply cb_handled_refused; [done | apply invalid_param_error | lia | done].
Qed.

(** Releasing the array while the payload read after it stays. *)
Lemma wp_free_under_payload a b L n sd sr x :
  bounded L n ->
  wp (FreeMem (array_ptr n a) (len a))
    (fun _ w' => exists L', bounded L' (payload_next (array_next n a) b) /\ L ⊆ L' /\
       w' = St sd sr L' (payload_next (array_next n a) b) x)
    (St sd sr (payload_live (array_next n a) b (array_live n a L)) (payload_next (array_next n a) b) x).
Proof.
  intros HL. pose proof (payload_bounded _ b _ (array_bounded n a L HL)) as Hb.
  assert (L ⊆ payload_live (array_next n a) b (array_live n a L)) as Hsub.
  { pose proof (array_live_sub n a L). unfold payload_live. case_match; set_solver. }
  unfold FreeMem, array_ptr. destruct (0 <? len a) eqn:E; cbn; [|apply wp_ret; eauto].
  apply wp_free.
  - unfold payload_live, array_live. rewrite E. case_match; set_solver.
  - exists (payload_live (array_next n a) b (array_live n a L) ∖ {[n]}). split_and!; [apply (bounded_mono _ _ _ Hb); set_solver | | done].
    assert (n ∉ L) by (intros Hn%HL; lia). set_solver.
Qed.

(** Both buffer callbacks have the same handler but for the method they call. *)
Lemma handle_buffer_done q f a b sd sr L n x :
  q = CbEmptyBufferDone a b \/ q = CbFillBufferDone a b ->
  (forall k x, cb_serve k q x = f a (len a) (recv_buffer k b) x) ->
  cb_wf q -> bounded L n -> sbuf_view sd = cb_encode q -> sbuf_view sr = [] ->
  wp (appDataLen ←? HdfSbufReadUint32 d else mret HDF_ERR_INVALID_PARAM;
      r ← read_int8s d appDataLen;
      match r with
      | inl e => mret e
      | inr appData =>
          '(ok, buffer) ← OmxCodecBufferBlockUnmarshalling d (Some junk_buffer);
          if negb ok then FreeMem appData appDataLen;; mret HDF_ERR_INVALID_PARAM
          else
            ret ← call_impl (f (cells appData) appDataLen (default junk_buffer buffer));
            if negb (ret =? HDF_SUCCESS) then FreeMem appData appDataLen;; mret ret
            else FreeMem appData appDataLen;; mret ret
      end) (handled q L n x) (St sd sr L n x).
Proof.
  intros Hq Hf Hwf HL Hv Hr.
  assert (len a < 2 ^ 32 /\ buffer_wf b) as [Ha Hb] by (destruct Hq as [-> | ->]; done).
  assert (sbuf_view sd = enc_int8s a ++ enc_buffer b) as Hv0 by (destruct Hq as [-> | ->]; done).
  assert (forall L', L ⊆ L' -> cb_keeps q L L') as Hk by (destruct Hq as [-> | ->]; done).
  pose proof (array_bounded n a L HL) as HLa. pose proof (array_next_le n a) as Hna.
  apply wp_bind. eapply wp_read_data; [done | exact Hv0 | done | done |]. intros sd1 Hv1. cbn beta iota.
  apply wp_bind. eapply wp_read_int8s; [done | done | exact Hv1 | |]; cbn beta iota.
  2:{ intros sd2 n' Hnr Hn. apply wp_ret, cb_handled_refused; [done | apply malloc_fail_error | done | done]. }
  intros sd2 Hv2. apply wp_bind.
  eapply (wp_buffer_unmarshal _ _ _ Hdr b _ []); [done | done | by rewrite app_nil_r | |]; cbn beta iota; cbn [negb].
  - intros sd3 _. rewrite array_cells. apply wp_bind, wp_call_impl. intros ret x' Hs. cbn [default id] in Hs.
    assert (wp (FreeMem (array_ptr n a) (len a);; mret ret) (handled q L n x)
      (St sd3 sr (payload_live (array_next n a) b (array_live n a L)) (payload_next (array_next n a) b) x')) as Hend;
      [|by case_match].
    apply wp_bind. eapply wp_mono; [apply wp_free_under_payload; done|].
    intros [] w' (L' & HL' & Hs' & ->). apply wp_ret.
    eapply cb_handled_called; [by rewrite Hf | done | | done | by apply Hk].
    unfold payload_next. case_match; lia.
  - intros sd3 n' b' Hnr Hn. apply wp_bind, wp_free_array; [done|]. apply wp_ret.
    apply cb_handled_refused; [done | apply invalid_param_error | lia | done].
Qed.
End stub_facts.

Section callback_rpc.
Context {SB : Type} `{!Platform SB, !PlatformLaws SB} `{!HdfStatus, !HdfStatusLaws} {OMX : OmxTypes}.

(** The stub is a dispatcher for the callback interface. *)
#[export] Instance callback_dispatch {C} `{!CallbackImpl C} junk_buffer :
  Dispatch codec_desc (cb_served (SB := SB) (C := C)) (CodecCallbackTypeServiceOnRemoteRequest junk_buffer).
Proof.
  split; [|done].
  intros base d r q sd sr L n x Hdr Hq HL Hv Hr. unfold CodecCallbackTypeServiceOnRemoteRequest.
  apply wp_bind. eapply wp_check_token; [done | done |]. intros sd' Hv'. cbn [negb].
  destruct q; cbn.
  - by apply handle_EventHandler.
  - unfold SerStubEmptyBufferDone. eapply handle_buffer_done; [done | by left | done..].
  - unfold SerStubFillBufferDone. eapply handle_buffer_done; [done | by right | done..].
Qed.

(** ** The proxy *)
Section proxy_facts.
Context {X : Type} (S : behaviour cb_request unit X) (rem : HdfRemoteService (World SB X)).
Abbreviation self := (Some rem).
Context {HD : Dispatch (rs_desc rem) S (CodecCallbackTypeProxyCall self)}.
Context (w : World SB X) (Hw : world_ok w).
Abbreviation post := (post S w).

Lemma cb_token_writes d :
  writes d (HdfRemoteServiceWriteInterfaceToken self d) [IToken (rs_desc rem)].
Proof.
  intros base r' sd sr L n x Q Hdr' Ht Hf. unfold HdfRemoteServiceWriteInterfaceToken.
  apply wp_bind, wp_ret. by eapply wp_write_data.
Qed.

Lemma succeeds_writes d (m : M (World SB X) Z) l : status_writes d m l -> writes d (succeeds m) l.
Proof.
  intros Hm base r sd sr L n x Q Hdr Ht Hf. unfold succeeds. apply wp_bind, Hm; [done | |].
  - intros sd' Hv. apply wp_ret. rewrite Z.eqb_refl. by apply Ht.
  - intros e sd' Hnr He. apply wp_ret. rewrite (proj2 (Z.eqb_neq _ _)) by done. by apply Hf.
Qed.

Lemma WriteArray_writes d l : status_writes (X := X) d (WriteArray d l (len l)) (enc_int8s l).
Proof.
  unfold enc_int8s. rewrite <- (app_nil_r (map IInt8 l)). apply (status_seq _ _ _ _ [IUint32 (len l)]);
    [apply writes_item | apply invalid_param_error |].
  apply status_seq; [apply writes_all | apply invalid_param_error | apply status_done].
Qed.

(** An event whose lengths are those of its arrays. *)
Definition info_wf (i : EventInfo) : Prop :=
  ei_appDataLen i = len (cells (ei_appData i)) /\ ei_eventDataLen i = len (cells (ei_eventData i)).

Lemma WriteEventInfo_writes d i :
  info_wf i ->
  status_writes (X := X) d (WriteEventInfo d i)
    (enc_int8s (cells (ei_appData i)) ++ [IUint32 (ei_data1 i); IUint32 (ei_data2 i)] ++
     enc_int8s (cells (ei_eventData i))).
Proof.
  intros [Ha Hv] base r sd sr L n x Q Hdr Ht Hf. unfold WriteEventInfo. rewrite Ha, Hv.
  apply wp_bind, WriteArray_writes; [done | |].
  - intros sd1 Hv1. rewrite Z.eqb_refl. cbn [negb].
    eapply (status_seq d _ _ _ [_]); [apply writes_item | apply invalid_param_error | | done | | done].
    + eapply (status_seq d _ _ _ [_]); [apply writes_item | apply invalid_param_error |].
      intros base' r' sd2 sr2 L2 n2 x2 Q2 Hdr2 Ht2 Hf2.
      apply wp_bind, WriteArray_writes; [done | |]; intros; apply wp_ret; eauto.
    + intros sd2 Hv2. apply Ht. by rewrite Hv2, Hv1, <- !app_assoc.
  - intros e sd1 Hnr He. rewrite (proj2 (Z.eqb_neq _ _)) by done. apply wp_ret. by apply Hf.
Qed.

Ltac open_call := open_method cb_token_writes.
Ltac call_peer q := call_remote (CodecCallbackTypeProxyCall self) q.

Lemma proxy_EventHandler e i :
  let q := CbEventHandler e (cells (ei_appData i)) (ei_data1 i) (ei_data2 i) (cells (ei_eventData i)) in
  info_wf i -> cb_wf q ->
  wp (CodecCallbackTypeProxyEventHandler self e i) (post q (fun u => u)) w.
Proof.
  intros q Hi Hq. open_call. put writes_item. put (succeeds_writes _ _ _ (WriteEventInfo_writes _ _ Hi)).
  call_peer q. destruct ans. finish 0%nat.
Qed.

Lemma proxy_EmptyBufferDone a b :
  let q := CbEmptyBufferDone a b in
  cb_wf q -> wp (CodecCallbackTypeProxyEmptyBufferDone self a (len a) b) (post q (fun u => u)) w.
Proof.
  intros q Hq. pose proof Hq as [_ Hb]. open_call. put writes_item. put writes_all. put buffer_writes.
  call_peer q. destruct ans. finish 0%nat.
Qed.

Lemma proxy_FillBufferDone a b :
  let q := CbFillBufferDone a b in
  cb_wf q -> wp (CodecCallbackTypeProxyFillBufferDone self a (len a) b) (post q (fun u => u)) w.
Proof.
  intros q Hq. pose proof Hq as [_ Hb]. open_call. put writes_item. put writes_all. put buffer_writes.
  call_peer q. destruct ans. finish 0%nat.
Qed.
End proxy_facts.

(** ** Proxy and stub together *)
Section connected.
Context {C : Type} `{!CallbackImpl C} (junk_buffer : OmxCodecBuffer).

Definition callback_remote : HdfRemoteService (World SB C) :=
  mkRemote codec_desc (Some (Some (CodecCallbackTypeServiceOnRemoteRequest junk_buffer))).

(** The codec service makes one callback. *)
Definition callback_call (q : cb_request) : M (World SB C) (Z * unit) :=
  match q with
  | CbEventHandler e a d1 d2 v =>
      CodecCallbackTypeProxyEventHandler (Some callback_remote) e
        (mkEventInfo (Some (Mem 0 a)) (len a) d1 d2 (Some (Mem 1 v)) (len v))
  | CbEmptyBufferDone a b => CodecCallbackTypeProxyEmptyBufferDone (Some callback_remote) a (len a) b
  | CbFillBufferDone a b => CodecCallbackTypeProxyFillBufferDone (Some callback_remote) a (len a) b
  end.

Lemma callback_call_returns q (w : World SB C) :
  world_ok w -> cb_wf q ->
  wp (callback_call q) (post (cb_served (SB := SB)) w q (fun u => u)) w.
Proof.
  intros Hw Hq.
  pose proof (callback_dispatch (C := C) junk_buffer : Dispatch (rs_desc callback_remote) (cb_served (SB := SB))
    (CodecCallbackTypeProxyCall (Some callback_remote))) as HD.
  destruct q; cbn [callback_call].
  - by apply (proxy_EventHandler _ _ (HD := HD) w Hw event (mkEventInfo (Some (Mem 0 appData)) _ _ _ (Some (Mem 1 eventData)) _)).
  - by apply (proxy_EmptyBufferDone _ _ (HD := HD) w Hw appData b).
  - by apply (proxy_FillBufferDone _ _ (HD := HD) w Hw appData b).
Qed.

(** C37: every callback reaches the application.  When no memory is refused, an
    event or a finished buffer reported through the proxy calls the
    application's method exactly once, with the data reported, and the codec
    service gets the application's status; the buffers of the message are
    recycled, and an event leaves no memory behind. *)
Theorem callback_delivered q (w : World SB C) :
  reliable SB -> world_ok w -> cb_wf q ->
  exists ret w' n,
    callback_call q w = Some ((ret, tt), w') /\
    cb_serve n q (w_svc w) = (ret, w_svc w') /\
    w_sbufs w' = w_sbufs w /\ cb_keeps q (w_live w) (w_live w') /\ world_ok w'.
Proof.
  intros Hrel Hw Hq.
  destruct (wp_inv _ _ _ (callback_call_returns q w Hw Hq)) as ([ret []] & w' & Hr & Hs & Hok & Hk & Hout).
  assert (exists n, cb_serve n q (w_svc w) = (ret, w_svc w')) as [n Hn].
  { cbn in Hout. inversion Hout; subst; try done;
      match goal with Hsv : cb_served _ _ _ _ _ |- _ => inversion Hsv; subst; by eauto end. }
  by exists ret, w', n.
Qed.

(** A callback is made at most once, whatever fails: the application's
    state changes by at most one call, success means that the application was
    called and succeeded, and the message buffers are recycled. *)
Lemma callback_at_most_once q (w : World SB C) :
  world_ok w -> cb_wf q ->
  exists ret w',
    callback_call q w = Some ((ret, tt), w') /\
    ((ret <> HDF_SUCCESS /\ w_svc w' = w_svc w) \/
     exists n r, cb_serve n q (w_svc w) = (r, w_svc w') /\ (ret = HDF_SUCCESS -> r = HDF_SUCCESS)) /\
    w_sbufs w' = w_sbufs w /\ cb_keeps q (w_live w) (w_live w') /\ world_ok w'.
Proof.
  intros Hw Hq.
  destruct (wp_inv _ _ _ (callback_call_returns q w Hw Hq)) as ([ret []] & w' & Hr & Hs & Hok & Hk & Hout).
  exists ret, w'. split; [done|]. split; [|done]. cbn in Hout.
  inversion Hout; subst; [by left|..];
    match goal with Hsv : cb_served _ _ _ _ _ |- _ => inversion Hsv; subst; naive_solver end.
Qed.
End connected.
End callback_rpc.

(** ** The theorems at concrete inputs *)

(** An application that notes the callbacks it gets. *)
#[global] Instance note_impl : CallbackImpl (list (Z * list Z)) := {
  EventHandler e a _ _ _ v _ x := (0, (e, a ++ v) :: x);
  EmptyBufferDone a _ b x := (0, (bufferId b, a) :: x);
  FillBufferDone a _ b x := (0, (bufferId b, a) :: x);
}.

Definition app_world : World (list item) (list (Z * list Z)) := mkWorld ∅ ∅ 0 [].
Definition done_buffer : OmxCodecBuffer :=
  mkOmxCodecBuffer 6 0 [0; 0; 0; 0] BUFFER_TYPE_AVSHARE_MEM_FD (PInt 12) 4 0 0 0 0 0 0 0.

Lemma done_buffer_wf : buffer_wf done_buffer.
Proof. do 4 (split; [done|]). intros _. cbn. by exists 12. Qed.

Example event_runs :
  (fun p => (p.1, w_svc p.2, w_sbufs p.2, w_live p.2)) <$>
    callback_call done_buffer (CbEventHandler 3 [1] 5 6 [8; 9]) app_world =
  Some ((0, tt), [(3, [1; 8; 9])], ∅, ∅).
Proof. vm_compute. reflexivity. Qed.

Lemma callback_delivered_witness :
  exists ret w' n,
    callback_call done_buffer (CbFillBufferDone [4] done_buffer) app_world = Some ((ret, tt), w') /\
    cb_serve n (CbFillBufferDone [4] done_buffer) (w_svc app_world) = (ret, w_svc w') /\
    w_sbufs w' = w_sbufs app_world /\
    cb_keeps (CbFillBufferDone [4] done_buffer) (w_live app_world) (w_live w') /\ world_ok w'.
Proof.
  apply (callback_delivered done_buffer (CbFillBufferDone [4] done_buffer) app_world);
    [exact queue_reliable | by split | by split; [done | exact done_buffer_wf]].
Defined.

Lemma callback_at_most_once_witness :
  exists ret w',
    callback_call done_buffer (CbEventHandler 3 [] 0 0 [2]) app_world = Some ((ret, tt), w') /\
    ((ret <> HDF_SUCCESS /\ w_svc w' = w_svc app_world) \/
     exists n r, cb_serve n (CbEventHandler 3 [] 0 0 [2]) (w_svc app_world) = (r, w_svc w') /\
       (ret = HDF_SUCCESS -> r = HDF_SUCCESS)) /\
    w_sbufs w' = w_sbufs app_world /\
    cb_keeps (CbEventHandler 3 [] 0 0 [2]) (w_live app_world) (w_live w') /\ world_ok w'.
Proof.
  apply (callback_at_most_once done_buffer (CbEventHandler 3 [] 0 0 [2]) app_world); [by split | done].
Defined.
