(* ===== verification/CodecManager.v ===== *)
(** * CodecManager: creating and destroying codec components

    Models [codec/hal/src/codec_component_manager_proxy.c], the client end of
    the management commands; the server end is in [CodecStub].  The remote
    object of the service, which the code keeps in a global, is an argument of
    the four methods. *)
From S2P Require Import Prelude Hdf Rpc Arrays CodecTypes CodecService CodecStub CodecProxy.
Open Scope Z_scope.

Section manager.
Context {SB : Type} `{!Platform SB} `{!HdfStatus} {OMX : OmxTypes} {X : Type}.
Abbreviation W := (World SB X).
Abbreviation M := (M W).
Context (HdfRemoteServiceRecycle : option (HdfRemoteService W) -> M unit).
Implicit Types (remoteOmx : option (HdfRemoteService W)).

(** [remoteOmx->dispatcher->Dispatch(remoteOmx, ...)], unchecked. *)
Definition dispatch_unchecked remoteOmx (cmd : Z) (data reply : nat) : M Z :=
  remote ← deref remoteOmx;
  dispatcher ← deref (rs_dispatcher remote);
  Dispatch ← deref dispatcher;
  Dispatch cmd data reply.

(** The opening of the two query methods: a buffer that is obtained first is
    given back when the second one is not. *)
Definition with_sbufs_in_order {R} (out : R) (body : nat -> nat -> M (Z * R)) : M (Z * R) :=
  data ←? HdfSbufTypedObtain else mret (HDF_FAILURE, out);
  reply ←? HdfSbufTypedObtain else (HdfSbufRecycle data;; mret (HDF_FAILURE, out));
  body data reply.

(** When the token cannot be written the methods return without releasing
    their buffers. *)
Definition GetComponentNum remoteOmx : M Z :=
  '(num, _) ← with_sbufs_in_order tt (fun data reply =>
    unless HdfRemoteServiceWriteInterfaceToken remoteOmx data do mret (HDF_FAILURE, tt);
    ret ← dispatch_unchecked remoteOmx CMD_CODEC_GET_COMPONENT_NUM data reply;
    if negb (ret =? HDF_SUCCESS) then leave data reply HDF_FAILURE tt
    else
      num ←? HdfSbufReadInt32 reply else leave data reply HDF_FAILURE tt;
      leave data reply num tt);
  mret num.

(** [for (i = 0; i < count; i++) if (!Unmarshalling(reply, &capList[i])) fail];
    the list argument is the part of [capList] from [i] on. *)
Fixpoint read_capabilities (reply : nat) (capList : list CodecCompCapability) (n : nat) {struct n} :
    M (bool * list CodecCompCapability) :=
  match n with
  | O => mret (true, capList)
  | S n' =>
      match capList with
      | [] => undefined
      | cap :: capList' =>
          '(ok, c) ← CodecCompCapabilityBlockUnmarshalling reply (Some cap);
          if negb ok then mret (false, default cap c :: capList')
          else
            r ← read_capabilities reply capList' n';
            mret (r.1, default cap c :: r.2)
      end
  end.

Definition GetComponentCapabilityList remoteOmx (capList : list CodecCompCapability) (count : Z) :
    M (Z * list CodecCompCapability) :=
  with_sbufs_in_order capList (fun data reply =>
    unless HdfRemoteServiceWriteInterfaceToken remoteOmx data do mret (HDF_FAILURE, capList);
    ret ← dispatch_unchecked remoteOmx CMD_CODEC_GET_COMPONENT_CAPABILITY_LIST data reply;
    if negb (ret =? HDF_SUCCESS) then leave data reply HDF_FAILURE capList
    else if count <=? 0 then leave data reply HDF_FAILURE capList
    else
      '(ok, capList) ← read_capabilities reply capList (Z.to_nat count);
      if negb ok then leave data reply HDF_FAILURE capList
      else leave data reply HDF_SUCCESS capList).

(** [component] is the output parameter; a callback object is known by its
    remote object. *)
Definition CreateComponent remoteOmx (component : option (ProxyObject W)) (compName : string)
    (appData : list Z) (appDataSize : Z) (callback : option Z) : M (Z * option (ProxyObject W)) :=
  with_sbufs component (fun data reply =>
    unless HdfRemoteServiceWriteInterfaceToken remoteOmx data do mret (HDF_FAILURE, component);
    unless HdfSbufWriteString data compName do leave data reply HDF_ERR_INVALID_PARAM component;
    unless HdfSbufWriteInt32 data appDataSize do leave data reply HDF_ERR_INVALID_PARAM component;
    unless write_loop data IInt8 appData (Z.to_nat appDataSize)
      do leave data reply HDF_ERR_INVALID_PARAM component;
    callbackRemote ← deref callback;
    unless HdfSbufWriteRemoteService data callbackRemote do leave data reply HDF_ERR_INVALID_PARAM component;
    ret ← dispatch_unchecked remoteOmx CMD_CREATE_COMPONENT data reply;
    if negb (ret =? HDF_SUCCESS) then leave data reply ret component
    else
      component ← CodecComponentTypeGet HdfRemoteServiceRecycle remoteOmx;
      leave data reply ret component).

Definition DestoryComponent remoteOmx (component : option (ProxyObject W)) : M (Z * unit) :=
  with_sbufs tt (fun data reply =>
    unless HdfRemoteServiceWriteInterfaceToken remoteOmx data do mret (HDF_FAILURE, tt);
    ret ← dispatch_unchecked remoteOmx CMD_DESTROY_COMPONENT data reply;
    if negb (ret =? HDF_SUCCESS) then leave data reply ret tt
    else
      CodecComponentTypeRelease component;;
      leave data reply ret tt).
End manager.

(** ** The manager object

    The global [g_codecComponentManagerProxy] is its remote object; the service
    manager of the framework is a parameter: whether it can be had, what it
    answers for the name of the codec service, and whether the descriptor can
    be set. *)
Section instance.
Context `{!HdfStatus} {R : Type}.
Context (service_manager : bool) (get_service : option R) (set_desc : R -> bool).

(** The status, the global afterwards, and the remote objects recycled. *)
Definition InitCodecComponentManagerProxy (remoteOmx : option R) : Z * option R * list R :=
  match remoteOmx with
  | Some r => (HDF_SUCCESS, Some r, [])
  | None =>
      if negb service_manager then (HDF_FAILURE, None, [])
      else match get_service with
           | None => (HDF_FAILURE, None, [])
           | Some r => if negb (set_desc r) then (HDF_FAILURE, None, [r]) else (HDF_SUCCESS, Some r, [])
           end
  end.

(** Whether a manager is returned, and the same. *)
Definition GetCodecComponentManager (remoteOmx : option R) : bool * option R * list R :=
  let '(ret, g, l) := InitCodecComponentManagerProxy remoteOmx in
  if negb (ret =? HDF_SUCCESS) then (false, g, l) else (true, g, l).

(** The global afterwards, and the remote objects recycled. *)
Definition CodecComponentManagerRelease (remoteOmx : option R) : option R * list R :=
  match remoteOmx with
  | Some r => (None, [r])
  | None => (None, [])
  end.
End instance.
