(* ===== verification/CodecManagerFacts.v ===== *)
(** * CodecManagerFacts: components are created and destroyed *)
From S2P Require Import Prelude Hdf HdfQueue Rpc Arrays CodecTypes CodecService CodecInstance.
From S2P Require Import CodecStub CodecStubFacts CodecProxy CodecProxyFacts CodecRpc CodecManager.
Open Scope Z_scope.

(** ** The abstract interface of component management *)
Inductive mgr_request :=
  | MgrCreate (name : string) (appData : list Z) (callback : Z)
  | MgrDestroy.

Definition mgr_cmd (q : mgr_request) : Z :=
  match q with MgrCreate _ _ _ => CMD_CREATE_COMPONENT | MgrDestroy => CMD_DESTROY_COMPONENT end.

Definition mgr_encode (q : mgr_request) : list item :=
  match q with
  | MgrCreate name app cb => [IString name; IInt32 (len app)] ++ map IInt8 app ++ [IRemote cb]
  | MgrDestroy => []
  end.

Definition mgr_wf (q : mgr_request) : Prop :=
  match q with MgrCreate _ app _ => len app < 2 ^ 31 | MgrDestroy => True end.

(** Creating keeps the callback object and the new proxy. *)
Definition mgr_keeps (q : mgr_request) (L L' : gset nat) : Prop :=
  match q with
  | MgrCreate _ _ _ => L ⊆ L'
  | MgrDestroy => L' = L
  end.

Lemma mgr_keeps_refl q L : mgr_keeps q L L.
Proof. destruct q; cbn; set_solver. Qed.

#[global] Instance manager_protocol : Protocol mgr_request unit := {
  p_cmd := mgr_cmd;
  p_encode := mgr_encode;
  p_answer := fun _ => [];
  p_recv := fun _ a => a;
  p_wf := mgr_wf;
  p_answer_wf := fun _ _ => True;
  p_keeps := mgr_keeps;
  p_keeps_refl := mgr_keeps_refl;
}.

(** The server creates a component and remembers its handle, or destroys the
    component it remembers.  Without memory the adapter is given no name or no
    callback. *)
Inductive mgr_served {SB} `{!Platform SB} `{!HdfStatus} {A} `{!OmxAdapter A} :
    mgr_request -> CodecServer A -> Z -> unit -> CodecServer A -> Prop :=
  | mgr_refused q x e u : ~ reliable SB -> e <> HDF_SUCCESS -> mgr_served q x e u x
  | mgr_created name app cb name' cb' x ret h a' u :
      (name' = Some name \/ ~ reliable SB) -> (cb' = Some (remote_image cb) \/ ~ reliable SB) ->
      OMXAdapterCreateComponent name' app (len app) cb' (adapter x) = ((ret, h), a') ->
      mgr_served (MgrCreate name app cb) x ret u
        (mkServer (if ret =? HDF_SUCCESS then h else componentHandle x) (g_codecCapabilites x) a')
  | mgr_destroyed x ret a' u :
      OmxAdapterDestoryComponent (componentHandle x) (adapter x) = (ret, a') ->
      mgr_served MgrDestroy x ret u (mkServer (componentHandle x) (g_codecCapabilites x) a').

(** ** The stub *)
Section stub_facts.
Context {SB : Type} `{!Platform SB, !PlatformLaws SB} `{!HdfStatus, !HdfStatusLaws} {OMX : OmxTypes}.
Context {A : Type} `{!OmxAdapter A}.
Context (base : gmap nat SB) (d r : nat) (Hdr : d <> r).
Implicit Types (sd sr : SB) (L : gset nat) (n : nat) (x : CodecServer A).
Abbreviation St := (call_state base d r).
Abbreviation handled := (handled (mgr_served (SB := SB)) base d r).

(** The blocks that [free_create_params] releases. *)
Definition params_blocks (p : CreateParams) : list nat :=
  match cp_compName p with Some (k, _) => [k] | None => [] end ++
  match cp_appData p with Some m => if 0 <? cp_appDataSize p then [mem_id m] else [] | None => [] end.

(** [p] holds memory taken since the live set was [L]. *)
Definition owns (p : CreateParams) (L L' : gset nat) : Prop :=
  NoDup (params_blocks p) /\ Forall (fun k => k ∈ L' /\ k ∉ L) (params_blocks p) /\ L ⊆ L'.

Lemma wp_free_create_params p L L' n sd sr x (Q : unit -> World SB (CodecServer A) -> Prop) :
  owns p L L' -> bounded L' n ->
  (forall L2, L ⊆ L2 -> bounded L2 n -> Q tt (St sd sr L2 n x)) ->
  wp (free_create_params p) Q (St sd sr L' n x).
Proof.
  intros (Hnd & Hall & Hsub) Hb HQ. unfold free_create_params, params_blocks in *.
  assert (forall L1, owns (mkCreateParams None (cp_appData p) (cp_appDataSize p) (cp_callback p)) L L1 ->
    bounded L1 n -> wp (FreeMem (cp_appData p) (cp_appDataSize p)) Q (St sd sr L1 n x)) as Happ.
  { intros L1 (_ & Hall1 & Hsub1) Hb1. unfold FreeMem, params_blocks in *. cbn in *.
    destruct (cp_appData p) as [m|]; [|apply wp_ret; eauto].
    destruct (0 <? cp_appDataSize p); [|apply wp_ret; eauto].
    apply Forall_singleton in Hall1 as [H1 H2]. apply wp_free; [done|].
    apply HQ; [set_solver | apply (bounded_mono _ _ _ Hb1); set_solver]. }
  apply wp_bind. destruct (cp_compName p) as [[k s]|].
  - cbn in Hnd, Hall. apply NoDup_cons in Hnd as [Hk Hnd]. apply Forall_cons in Hall as [[H1 H2] Hall].
    apply wp_free; [done|]. apply Happ; [|apply (bounded_mono _ _ _ Hb); set_solver].
    split; [done|]. split; [|set_solver]. cbn. rewrite Forall_forall in Hall |- *.
    intros k' Hk'. specialize (Hall k' Hk'). assert (k' <> k) by (intros ->; done). set_solver.
  - apply wp_ret. by apply Happ.
Qed.

Lemma wp_strdup s L n sd sr x (Q : option (nat * string) -> World SB (CodecServer A) -> Prop) :
  Q (Some (n, s)) (St sd sr ({[n]} ∪ L) (S n) x) ->
  (~ reliable SB -> Q None (St sd sr L (S n) x)) ->
  wp (strdup s) Q (St sd sr L n x).
Proof.
  intros HS HN. unfold strdup. apply wp_bind, wp_alloc; [by apply wp_ret|].
  intros Hnr. apply wp_ret, HN, Hnr. lia.
Qed.

(** The array that follows its size: read, or not allocated. *)
Lemma wp_read_app_data app v sd sr L n x (Q : Z * option mem -> World SB (CodecServer A) -> Prop) :
  sbuf_view sd = map IInt8 app ++ v ->
  (forall sd', sbuf_view sd' = v ->
     Q (HDF_SUCCESS, array_ptr n app) (St sd' sr (array_live n app L) (array_next n app) x)) ->
  (~ reliable SB -> Q (HDF_ERR_MALLOC_FAIL, None) (St sd sr L (S n) x)) ->
  wp (if 0 <? len app then
         appData ← OsalMemCalloc (len app);
         match appData with
         | None => mret (HDF_ERR_MALLOC_FAIL, None)
         | Some m =>
             r ← read_loop HdfSbufReadInt8 d (mem_cells m) (Z.to_nat (len app));
             mret (if (r.1 : bool) then HDF_SUCCESS else HDF_ERR_INVALID_PARAM, Some (Mem (mem_id m) r.2))
         end
       else mret (HDF_SUCCESS, None)) Q (St sd sr L n x).
Proof.
  intros Hv HQ Hf. unfold array_ptr, array_live, array_next in HQ.
  destruct (Z.ltb_spec 0 (len app)) as [Hl|Hl].
  - apply wp_bind, wp_calloc; [|intros Hnr; apply wp_ret, Hf; auto].
    apply wp_bind. eapply (wp_read_zeroed _ _ _ Hdr); [exact Hv|]. intros sd' Hv'. apply wp_ret. by apply HQ.
  - apply wp_ret. apply len_nil in Hl as ->. by apply HQ.
Qed.

Lemma owns_params name n0 n app cb L :
  bounded L n0 -> (n0 < n)%nat ->
  owns (mkCreateParams ((fun s => (n0, s)) <$> name) (array_ptr n app) (len app) cb) L
    (array_live n app (match name with Some _ => {[n0]} ∪ L | None => L end)).
Proof.
  intros HL Hn. assert (n0 ∉ L) as Hn0 by (intros Hk%HL; lia). assert (n ∉ L) as Hn1 by (intros Hk%HL; lia).
  unfold owns, params_blocks, array_ptr, array_live. cbn.
  clear HL. destruct name as [s|], (0 <? len app) eqn:E; cbn; rewrite ?E; (split; [|split; [|set_solver]]).
  all: try (repeat constructor; set_solver).
  apply NoDup_cons_2; [rewrite list_elem_of_singleton; lia | apply NoDup_singleton].
Qed.

Lemma wp_read_params name app cb sd sr L n x (Q : Z * CreateParams -> World SB (CodecServer A) -> Prop) :
  let q := MgrCreate name app cb in
  mgr_wf q -> bounded L n -> sbuf_view sd = mgr_encode q ->
  (forall p sd' L' n', owns p L L' -> bounded L' n' -> (n <= n')%nat ->
     (snd <$> cp_compName p = Some name \/ ~ reliable SB) ->
     cells (cp_appData p) = app -> cp_appDataSize p = len app ->
     (snd <$> cp_callback p = Some (remote_image cb) \/ ~ reliable SB) ->
     Q (HDF_SUCCESS, p) (St sd' sr L' n' x)) ->
  (forall p sd' L' n', owns p L L' -> bounded L' n' -> (n <= n')%nat -> ~ reliable SB ->
     Q (HDF_ERR_MALLOC_FAIL, p) (St sd' sr L' n' x)) ->
  wp (ReadParamsForCreateComponent d) Q (St sd sr L n x).
Proof.
  intros q Hq HL Hv HQ Hf. unfold ReadParamsForCreateComponent. cbn in Hv, Hq.
  apply wp_bind. eapply wp_read_data; [done | exact Hv | done | done |]. intros sd1 Hv1. cbn beta iota.
  apply wp_bind. eapply wp_read_i32_u32; [done | exact Hv1 |]. intros sd2 Hv2. cbn beta iota.
  rewrite u32_id by (unfold len in *; lia).
  set (name' := fun o : option (nat * string) => snd <$> o).
  assert (forall o L1, bounded L1 (S n) ->
    o = (fun s => (n, s)) <$> name' o -> (name' o = Some name \/ ~ reliable SB) ->
    L1 = (match name' o with Some _ => {[n]} ∪ L | None => L end) ->
    wp (r ← (if 0 <? len app then
         appData ← OsalMemCalloc (len app);
         match appData with
         | None => mret (HDF_ERR_MALLOC_FAIL, None)
         | Some m =>
             r ← read_loop HdfSbufReadInt8 d (mem_cells m) (Z.to_nat (len app));
             mret (if (r.1 : bool) then HDF_SUCCESS else HDF_ERR_INVALID_PARAM, Some (Mem (mem_id m) r.2))
         end
       else mret (HDF_SUCCESS, None));
      let '(ret, appData) := r in
      if negb (ret =? HDF_SUCCESS) then mret (ret, mkCreateParams o appData (len app) None)
      else
        callbackRemote ←? HdfSbufReadRemoteService d
          else mret (HDF_ERR_INVALID_PARAM, mkCreateParams o appData (len app) None);
        callback ← CodecCallbackTypeGet (Some callbackRemote);
        mret (HDF_SUCCESS, mkCreateParams o appData (len app) callback)) Q (St sd2 sr L1 (S n) x)) as Hrest.
  { intros o L1 HL1 Ho Hname HeqL. apply wp_bind. eapply wp_read_app_data; [exact Hv2 | |]; cbn beta iota.
    - intros sd3 Hv3. rewrite Z.eqb_refl. cbn [negb].
      apply wp_bind. eapply wp_read_data; [done | exact Hv3 | done | done |]. intros sd4 Hv4. cbn beta iota.
      pose proof (owns_params (name' o) n (S n) app None L HL ltac:(lia)) as Hown.
      rewrite <- Ho, <- HeqL in Hown. pose proof (array_next_le (S n) app) as Hle.
      apply wp_bind. apply wp_callback_get; [by apply array_bounded | |].
      + apply wp_ret. apply HQ; cbn; try done; [|auto using bounded_alloc, array_bounded | lia | apply array_cells | by left].
        destruct Hown as (H1 & H2 & H3). split; [done|]. split; [|set_solver].
        eapply Forall_impl; [exact H2|]. set_solver.
      + intros L' n' HL' Hs Hn Hnr. apply wp_ret. apply HQ; cbn; try done; [|lia | apply array_cells | by right].
        destruct Hown as (H1 & H2 & H3). split; [done|]. split; [|set_solver].
        eapply Forall_impl; [exact H2|]. set_solver.
    - intros Hnr. rewrite (proj2 (Z.eqb_neq _ _)) by apply malloc_fail_error. cbn [negb]. apply wp_ret.
      pose proof (owns_params (name' o) n (S n) [] None L HL ltac:(lia)) as Hown.
      rewrite <- Ho in Hown. apply Hf; [|by apply bounded_S | lia | done]. rewrite HeqL. exact Hown. }
  apply wp_bind. apply wp_strdup.
  - apply Hrest; [by apply bounded_alloc | done | by left | done].
  - intros Hnr. apply Hrest; [by apply bounded_S | done | by right | done].
Qed.

Lemma handle_CreateComponent name app cb sd sr L n x :
  let q := MgrCreate name app cb in
  mgr_wf q -> bounded L n -> sbuf_view sd = mgr_encode q -> sbuf_view sr = [] ->
  wp (SerStubCreateComponent d r) (handled q L n x) (St sd sr L n x).
Proof.
  intros q Hq HL Hv Hr. unfold SerStubCreateComponent.
  apply wp_bind. eapply wp_read_params; [exact Hq | done | exact Hv | |].
  - intros p sd1 L1 n1 Hown HL1 Hn1 Hname Happ Hsize Hcb. cbn beta iota. rewrite Z.eqb_refl. cbn [negb].
    rewrite Happ, Hsize, i32_id by (cbn in Hq; unfold len in *; lia).
    apply wp_bind. unfold OmxManagerCreateComponent. apply wp_with_adapter. intros [ret h] a' E. cbn beta iota.
    apply wp_bind. eapply wp_free_create_params; [exact Hown | done |]. intros L2 Hs2 HL2.
    assert (forall x', x' = mkServer (if ret =? HDF_SUCCESS then h else componentHandle x) (g_codecCapabilites x) a' ->
      handled q L n x ret (St sd1 sr L2 n1 x')) as Hend.
    { intros x' ->. do 6 eexists. split; [done|].
      split; [by apply (mgr_created _ _ _ _ _ _ _ _ _ tt Hname Hcb)|]. done. }
    destruct (Z.eqb_spec ret HDF_SUCCESS) as [Hret|Hret]; cbn [negb].
    + apply wp_bind, wp_svc_state, wp_bind, wp_set_svc, wp_ret. by apply Hend.
    + apply wp_ret. by apply Hend.
  - intros p sd1 L1 n1 Hown HL1 Hn1 Hnr. cbn beta iota. rewrite (proj2 (Z.eqb_neq _ _)) by apply malloc_fail_error.
    cbn [negb]. apply wp_bind. eapply wp_free_create_params; [exact Hown | done |]. intros L2 Hs2 HL2.
    apply wp_ret. do 6 eexists. split; [done|].
    split; [apply (mgr_refused _ _ _ tt); [done | apply malloc_fail_error] | done].
Qed.

Lemma handle_DestroyComponent sd sr L n x :
  bounded L n -> sbuf_view sr = [] ->
  wp (SerStubDestroyComponent d r) (handled MgrDestroy L n x) (St sd sr L n x).
Proof.
  intros HL Hr. unfold SerStubDestroyComponent. apply wp_bind, wp_svc_state, wp_bind.
  unfold OmxManagerDestroyComponent. apply wp_with_adapter. intros ret a' E. apply wp_ret.
  do 6 eexists. split; [done|]. by split; [apply (mgr_destroyed _ _ _ tt)|].
Qed.
End stub_facts.

(** The stub dispatches the management commands. *)
#[export] Instance manager_dispatch {SB : Type} `{!Platform SB, !PlatformLaws SB} `{!HdfStatus, !HdfStatusLaws}
    {OMX : OmxTypes} {A} `{!OmxAdapter A} junk_buffer junk_tunnel :
  Dispatch codec_desc (mgr_served (SB := SB) (A := A))
    (CodecComponentTypeServiceOnRemoteRequest junk_buffer junk_tunnel).
Proof.
  split; [|done].
  intros base d r q sd sr L n x Hdr Hq HL Hv Hr. unfold CodecComponentTypeServiceOnRemoteRequest.
  apply wp_bind. eapply wp_check_token; [done | done |]. intros sd' Hv'. cbn [negb].
  destruct q as [name app cb|]; cbn.
  - by apply handle_CreateComponent.
  - by apply handle_DestroyComponent.
Qed.

(** ** The proxy *)
Section proxy_facts.
Context {SB : Type} `{!Platform SB, !PlatformLaws SB} `{!HdfStatus, !HdfStatusLaws} {OMX : OmxTypes} {X : Type}.
Context (S : behaviour mgr_request unit X) (rem : HdfRemoteService (World SB X)).
Context {HD : Dispatch (rs_desc rem) S (dispatch_unchecked (Some rem))}.
Context (Recycle : option (HdfRemoteService (World SB X)) -> M (World SB X) unit).
Context (HRecycle : forall o w, Recycle o w = Some (tt, w)).
Context (w : World SB X) (Hw : world_ok w).

(** The method returned without recycling its buffers: the interface token
    could not be written. *)
Definition leaked {R} (p : Z * R) (w' : World SB X) : Prop :=
  ~ reliable SB /\ p.1 = HDF_FAILURE /\ w_svc w' = w_svc w /\ w_live w' = w_live w /\
  exists d r s s', d <> r /\ w_sbufs w' = <[r := s']> (<[d := s]> (w_sbufs w)).

Definition post_or_leak {R} (q : mgr_request) (p : Z * R) (w' : World SB X) : Prop :=
  post S w q (fun _ => tt) p w' \/ leaked p w'.

Lemma mgr_token_ok {R} P d r (out : R) k sd :
  (forall p w', leaked p w' -> P p w') ->
  d <> r -> w_sbufs w !! d = None -> w_sbufs w !! r = None -> sbuf_view sd = [] ->
  (forall sd', sbuf_view sd' = [IToken (rs_desc rem)] ->
     wp k P (call_state (w_sbufs w) d r sd' sbuf_new (w_live w) (2 + w_next w) (w_svc w))) ->
  wp (unless HdfRemoteServiceWriteInterfaceToken (Some rem) d do mret (HDF_FAILURE, out); k) P
    (call_state (w_sbufs w) d r sd sbuf_new (w_live w) (2 + w_next w) (w_svc w)).
Proof.
  intros HP Hdr Hd Hr Hv Hk. unfold HdfRemoteServiceWriteInterfaceToken.
  apply wp_bind, wp_bind, wp_ret. eapply wp_write_data; [done | exact Hv | |]; cbn [negb].
  - intros sd' Hv'. by apply Hk.
  - intros sd' Hnr. apply wp_ret, HP. split_and!; try done. by exists d, r, sd', sbuf_new.
Qed.

(** A successful creation delivers a new proxy of the service, unless there is
    no memory for it. *)
Definition created (p : Z * option (ProxyObject (World SB X))) (w' : World SB X) : Prop :=
  p.1 = HDF_SUCCESS ->
  (p.2 = None /\ ~ reliable SB) \/
  exists k, p.2 = Some (mkProxyObject k (mkProxy (Some rem)) CodecComponentTypeProxyConstruct) /\
    k ∈ w_live w' /\ k ∉ w_live w.

Lemma proxy_Create component name app cb :
  let q := MgrCreate name app cb in
  mgr_wf q ->
  wp (CreateComponent Recycle (Some rem) component name app (len app) (Some cb))
    (fun p w' => post_or_leak q p w' /\ created p w') w.
Proof.
  intros q Hq.
  assert (forall p w', p.1 <> HDF_SUCCESS -> post S w q (fun _ => tt) p w' -> post_or_leak q p w' /\ created p w') as HP
    by (intros p w' Hne Hp; split; [by left | by intros Hs]).
  apply (open_ok S w Hw q (fun _ => tt)); [exact HP|]. intros d r Hdr Hd Hr.
  apply mgr_token_ok; [| done..| apply sbuf_view_new |].
  { intros p w' Hl. split; [by right|]. intros Hs. destruct Hl as (_ & Hf & _). rewrite Hf in Hs.
    by destruct failure_error. }
  intros sd Hv.
  eapply put_to; [done.. | exact HP | apply writes_item | exact Hv | apply invalid_param_error |].
  clear sd Hv. intros sd Hv. cbn in Hv.
  eapply put_to; [done.. | exact HP | apply writes_item | exact Hv | apply invalid_param_error |].
  clear sd Hv. intros sd Hv. cbn in Hv.
  eapply put_to; [done.. | exact HP | apply writes_all | exact Hv | apply invalid_param_error |].
  clear sd Hv. intros sd Hv. apply wp_bind, wp_ret.
  eapply put_to; [done.. | exact HP | apply writes_item | exact Hv | apply invalid_param_error |].
  clear sd Hv. intros sd Hv.
  eapply (call_to (rs_desc rem) S (dispatch_unchecked (Some rem)) w Hw d r Hdr Hd Hr q _ (fun _ => tt));
    [exact HP | done | done | by rewrite Hv |].
  intros sd' sr' L n x' [] HS Hans Hrep HL Hn Hk. cbn in Hk.
  apply wp_bind. unfold CodecComponentTypeGet. apply wp_bind, wp_alloc.
  - apply wp_ret. unfold leave. apply wp_release; [done..|]. split.
    + left. apply left_post; [done | by apply bounded_alloc | lia | cbn; set_solver |].
      exact (outcome_done S q _ 0 tt _ HS Hans).
    + intros _. right. exists n. cbn. split; [done|]. split; [set_solver|].
      destruct Hw as [_ Hlw]. intros Hin%Hlw. lia.
  - intros Hnr. apply wp_bind. unfold wp at 1. rewrite HRecycle. apply wp_ret.
    unfold leave. apply wp_release; [done..|]. split.
    + left. apply left_post; [done | by apply bounded_S | lia | done |]. exact (outcome_done S q _ 0 tt _ HS Hans).
    + intros _. left. split; [done|]. apply Hnr. unfold sizeof_CodecComponentTypeProxy. lia.
Qed.

(** Destroying also releases the proxy of the component. *)
Definition destroyed (component : option (ProxyObject (World SB X))) (p : Z * unit) (w' : World SB X) : Prop :=
  p.1 = HDF_SUCCESS /\ w_sbufs w' = w_sbufs w /\ world_ok w' /\
  w_live w' = match component with Some o => w_live w ∖ {[po_block o]} | None => w_live w end /\
  exists ans, S MgrDestroy (w_svc w) HDF_SUCCESS ans (w_svc w').

Lemma proxy_Destory component :
  match component with Some o => po_block o ∈ w_live w | None => True end ->
  wp (DestoryComponent (Some rem) component)
    (fun p w' => (p.1 <> HDF_SUCCESS /\ post_or_leak MgrDestroy p w') \/ destroyed component p w') w.
Proof.
  clear HRecycle Recycle. intros Hc. unfold DestoryComponent.
  apply (open_ok S w Hw MgrDestroy (fun _ => tt)); [by intros; left; split; [|left]|]. intros d r Hdr Hd Hr.
  apply mgr_token_ok; [| done..| apply sbuf_view_new |].
  { intros p w' Hl. left. split; [|by right]. destruct Hl as (_ & -> & _). apply failure_error. }
  intros sd Hv.
  eapply (call_to (rs_desc rem) S (dispatch_unchecked (Some rem)) w Hw d r Hdr Hd Hr MgrDestroy _ (fun _ => tt));
    [by intros; left; split; [|left] | done | done | exact Hv |].
  intros sd' sr' L n x' ans HS _ Hrep HL Hn Hk. cbn in Hk. subst L. apply wp_bind.
  assert (forall L2, L2 = match component with Some o => w_live w ∖ {[po_block o]} | None => w_live w end ->
    wp (leave d r HDF_SUCCESS tt)
      (fun p w' => (p.1 <> HDF_SUCCESS /\ post_or_leak MgrDestroy p w') \/ destroyed component p w')
      (call_state (w_sbufs w) d r sd' sr' L2 n x')) as Hend.
  { intros L2 HL2. unfold leave. apply wp_release; [done..|]. right. split; [done|]. split; [done|].
    split; [|split; [done | by exists ans]]. destruct Hw as [Hs Hlw]. split; cbn; [by eapply bounded_le|].
    apply (bounded_mono _ _ _ HL). rewrite HL2. destruct component; set_solver. }
  unfold CodecComponentTypeRelease. destruct component as [o|]; [|apply wp_ret; by apply Hend].
  apply wp_free; [done|]. by apply Hend.
Qed.
End proxy_facts.

(** ** Manager and service together *)
Section connected.
Context {SB : Type} `{!Platform SB, !PlatformLaws SB} `{!HdfStatus, !HdfStatusLaws} {OMX : OmxTypes}.
Context {A : Type} `{!OmxAdapter A, !OmxAdapterLaws SB A}.
Context (junk_buffer : OmxCodecBuffer) (junk_tunnel : OMX_TUNNELSETUPTYPE).
Abbreviation World := (World SB (CodecServer A)).
Abbreviation service := (stub_remote junk_buffer junk_tunnel).
(** Giving up a remote object concerns neither the buffers nor the memory of
    the model. *)
Context (Recycle : option (HdfRemoteService World) -> M World unit).
Context (HRecycle : forall o w, Recycle o w = Some (tt, w)).
Implicit Types (w : World).

Definition service_dispatch : Dispatch (rs_desc service) (mgr_served (SB := SB)) (dispatch_unchecked (Some service)) :=
  manager_dispatch junk_buffer junk_tunnel.

Lemma mgr_reliable q (x : CodecServer A) ret u x' :
  reliable SB -> outcome (mgr_served (SB := SB)) q x ret u x' -> mgr_served (SB := SB) q x ret u x'.
Proof.
  intros Hrel Ho. destruct u. inversion Ho as [|? [] [] ? ?| |? [] ? ?]; by subst.
Qed.

(** C38: a component is created in the server.  When no memory is refused, the
    adapter is asked once for the named component, with the application's data
    and the callback; on success the server remembers the handle and the
    client gets a new proxy of the service; every message buffer is recycled. *)
Theorem create_component component name app cb w :
  reliable SB -> world_ok w -> len app < 2 ^ 31 ->
  exists ret h a' comp w',
    CreateComponent Recycle (Some service) component name app (len app) (Some cb) w = Some ((ret, comp), w') /\
    OMXAdapterCreateComponent (Some name) app (len app) (Some (remote_image cb)) (adapter (w_svc w)) = ((ret, h), a') /\
    w_svc w' = mkServer (if ret =? HDF_SUCCESS then h else componentHandle (w_svc w))
                 (g_codecCapabilites (w_svc w)) a' /\
    (ret = HDF_SUCCESS -> exists k,
       comp = Some (mkProxyObject k (mkProxy (Some service)) CodecComponentTypeProxyConstruct) /\
       k ∈ w_live w' /\ k ∉ w_live w) /\
    w_sbufs w' = w_sbufs w /\ world_ok w'.
Proof.
  intros Hrel Hw Happ.
  pose proof (proxy_Create mgr_served service (HD := service_dispatch) Recycle HRecycle w Hw
                component name app cb Happ) as Hc.
  apply wp_inv in Hc as ([ret comp] & w' & Hrun & [Hpost|Hleak] & Hcr); [|by destruct Hleak as [? _]].
  destruct Hpost as (Hs & Hok & _ & Hout). apply mgr_reliable in Hout; [|done].
  cbn in Hout. inversion Hout; subst; [done|].
  match goal with Hn : _ \/ ~ reliable SB, Hc : _ \/ ~ reliable SB |- _ =>
    destruct Hn as [->|?]; [|done]; destruct Hc as [->|?]; [|done] end.
  do 5 eexists. split; [exact Hrun|]. split; [eassumption|]. split; [done|]. split; [|done].
  intros Hret. by destruct (Hcr Hret) as [[_ ?]|?].
Qed.

(** A component is destroyed in the server.  When no memory is refused,
    the adapter is asked once to destroy the component the server remembers;
    the client's proxy is released exactly when that succeeds, and every
    message buffer is recycled. *)
Lemma destroy_component component w :
  reliable SB -> world_ok w ->
  match component with Some o => po_block o ∈ w_live w | None => True end ->
  exists ret a' w',
    DestoryComponent (Some service) component w = Some ((ret, tt), w') /\
    OmxAdapterDestoryComponent (componentHandle (w_svc w)) (adapter (w_svc w)) = (ret, a') /\
    w_svc w' = mkServer (componentHandle (w_svc w)) (g_codecCapabilites (w_svc w)) a' /\
    w_live w' = (if ret =? HDF_SUCCESS
                 then match component with Some o => w_live w ∖ {[po_block o]} | None => w_live w end
                 else w_live w) /\
    w_sbufs w' = w_sbufs w /\ world_ok w'.
Proof.
  intros Hrel Hw Hc.
  pose proof (proxy_Destory mgr_served service (HD := service_dispatch) w Hw component Hc) as Hd.
  apply wp_inv in Hd as ([ret []] & w' & Hrun & [[Hne [Hpost|Hleak]]|Hdes]); [|by destruct Hleak as [? _]|].
  - destruct Hpost as (Hs & Hok & Hk & Hout). apply mgr_reliable in Hout; [|done].
    cbn in Hout, Hk. inversion Hout; subst; [done|].
    do 3 eexists. split; [exact Hrun|]. split; [eassumption|]. split; [done|].
    cbn in Hne. by rewrite (proj2 (Z.eqb_neq _ _)) by done.
  - destruct Hdes as (Hret & Hs & Hok & Hk & ans & HS). cbn in Hret. subst ret. inversion HS; subst; [done|].
    do 3 eexists. split; [exact Hrun|]. split; [eassumption|]. split; [done|]. by rewrite Z.eqb_refl.
Qed.

(** A client creates two components and calls a method of the first. *)
Definition use_first_of_two (name1 name2 : string) (cb : Z) (o : OutParams) (q : request) :
    M World (Z * answer) :=
  '(_, c1) ← CreateComponent Recycle (Some service) None name1 [] 0 (Some cb);
  '(_, c2) ← CreateComponent Recycle (Some service) None name2 [] 0 (Some cb);
  c ← deref c1;
  invoke (po_instance c) (Some (po_proxy c)) o q.

(** C39: the server remembers one component.  After two components were
    created, a method called on the first one is performed on the second: the
    adapter gets the handle of the second component. *)
Theorem second_component_hijacks_first name1 name2 cb o q w h1 h2 a1 a2 :
  reliable SB -> world_ok w -> request_wf q -> out_wf o q ->
  OMXAdapterCreateComponent (Some name1) [] 0 (Some (remote_image cb)) (adapter (w_svc w)) = ((HDF_SUCCESS, h1), a1) ->
  OMXAdapterCreateComponent (Some name2) [] 0 (Some (remote_image cb)) a1 = ((HDF_SUCCESS, h2), a2) ->
  exists res w' n ans,
    use_first_of_two name1 name2 cb o q w = Some (res, w') /\
    adapter_serve (received n q) h2 a2 = ((res.1, ans), adapter (w_svc w')).
Proof.
  intros Hrel Hw Hq Ho H1 H2.
  destruct (create_component None name1 [] cb w Hrel Hw ltac:(done))
    as (ret & h & a & c & w1 & Hrun1 & Hc1 & Hx1 & Hcomp1 & _ & Hok1).
  change (len []) with 0 in Hc1. rewrite H1 in Hc1. injection Hc1 as <- <- <-.
  destruct (Hcomp1 eq_refl) as (k & -> & _).
  destruct (create_component None name2 [] cb w1 Hrel Hok1 ltac:(done))
    as (ret & h & a & c & w2 & Hrun2 & Hc2 & Hx2 & _ & _ & Hok2).
  rewrite Hx1 in Hc2. change (len []) with 0 in Hc2. cbn in Hc2. rewrite H2 in Hc2. injection Hc2 as <- <- <-.
  pose proof (remote_call_returns junk_buffer junk_tunnel o q w2 Hok2 Hq Ho) as Hcall.
  apply wp_inv in Hcall as (res & w' & Hrun3 & _ & _ & _ & Hout).
  destruct (reliable_outcome _ _ _ _ _ Hrel Hout) as (n & m & ans & Hserve & _).
  exists res, w', n, ans. split.
  - unfold use_first_of_two, mbind, M_bind. change (len []) with 0 in *. rewrite Hrun1, Hrun2. exact Hrun3.
  - unfold serve in Hserve. rewrite Hx2 in Hserve. cbn in Hserve.
    rewrite Z.eqb_refl in Hserve. cbn in Hserve.
    destruct (adapter_serve (received n q) h2 a2) as [[r' ans'] a'] eqn:E. cbn in Hserve.
    injection Hserve as -> -> Hx. by rewrite <- Hx.
Qed.
End connected.

(** ** The theorems at concrete inputs *)
Abbreviation log_world := (World (list item) (CodecServer omx_log)).
Abbreviation log_service := (stub_remote (SB := list item) (A := omx_log) zero_buffer zero_tunnel).
Definition no_recycle (_ : option (HdfRemoteService log_world)) : M log_world unit := mret tt.

Lemma create_component_witness :
  exists ret h a' comp w',
    CreateComponent no_recycle (Some log_service) None "avc" [1; 2] (len [1; 2]) (Some 5) world0 =
      Some ((ret, comp), w') /\
    OMXAdapterCreateComponent (Some "avc"%string) [1; 2] (len [1; 2]) (Some (remote_image 5))
      (adapter (w_svc world0)) = ((ret, h), a') /\
    w_svc w' = mkServer (if ret =? HDF_SUCCESS then h else componentHandle (w_svc world0))
                 (g_codecCapabilites (w_svc world0)) a' /\
    (ret = HDF_SUCCESS -> exists k,
       comp = Some (mkProxyObject k (mkProxy (Some log_service)) CodecComponentTypeProxyConstruct) /\
       k ∈ w_live w' /\ k ∉ w_live world0) /\
    w_sbufs w' = w_sbufs world0 /\ world_ok w'.
Proof.
  apply (create_component zero_buffer zero_tunnel no_recycle (fun _ _ => eq_refl) None "avc"%string [1; 2] 5 world0);
    [exact queue_reliable | exact world0_ok | done].
Defined.

Definition some_component : ProxyObject log_world :=
  mkProxyObject 3 (mkProxy (Some log_service)) CodecComponentTypeProxyConstruct.
Definition world3 : log_world := mkWorld ∅ {[3%nat]} 4 log_server.

Lemma world3_ok : world_ok world3.
Proof. split; [done|]. intros k Hk. cbn in Hk. apply elem_of_singleton in Hk. cbn. lia. Qed.

Lemma destroy_component_witness :
  exists ret a' w',
    DestoryComponent (Some log_service) (Some some_component) world3 = Some ((ret, tt), w') /\
    OmxAdapterDestoryComponent (componentHandle (w_svc world3)) (adapter (w_svc world3)) = (ret, a') /\
    w_svc w' = mkServer (componentHandle (w_svc world3)) (g_codecCapabilites (w_svc world3)) a' /\
    w_live w' = (if ret =? HDF_SUCCESS then w_live world3 ∖ {[3%nat]} else w_live world3) /\
    w_sbufs w' = w_sbufs world3 /\ world_ok w'.
Proof.
  apply (destroy_component zero_buffer zero_tunnel (Some some_component) world3);
    [exact queue_reliable | exact world3_ok | set_solver].
Defined.

Lemma second_component_hijacks_first_witness :
  exists res w' n ans,
    use_first_of_two zero_buffer zero_tunnel no_recycle "avc" "vorbis" 5 zero_out ReqGetState world0 = Some (res, w') /\
    adapter_serve (received n ReqGetState) 76 [] = ((res.1, ans), adapter (w_svc w')).
Proof.
  apply (second_component_hijacks_first zero_buffer zero_tunnel no_recycle (fun _ _ => eq_refl)
           "avc"%string "vorbis"%string 5 zero_out ReqGetState world0 73 76 [] []);
    [exact queue_reliable | exact world0_ok | done | done | done | done].
Defined.
