(* ===== verification/CodecQuery.v ===== *)
(** * CodecQuery: the capability queries of the codec service

    The number of components and the list of their capabilities, as
    [codec_component_manager_proxy.c] asks for them and
    [codec_component_capability_config.c] answers; and the buffers the manager
    leaks when the interface token cannot be written. *)
From S2P Require Import Prelude Hdf HdfQueue Rpc Arrays CodecTypes CodecService CodecInstance CodecWire.
From S2P Require Import CodecStub CodecStubFacts CodecProxy CodecRpc CodecManager.
Open Scope Z_scope.

(** The capabilities of the table in the order in which they are sent. *)
Definition all_capabilities (c : CodecCapablites) : list CodecCompCapability :=
  concat (map (fun g => take (Z.to_nat (num g)) (capablitis g)) (codeCapGroups c)).

(** Every group has as many entries as it says. *)
Definition table_wf (c : CodecCapablites) : Prop :=
  Forall (fun g => (Z.to_nat (num g) <= length (capablitis g))%nat /\ Forall capability_wf (capablitis g))
    (codeCapGroups c).

Section queries.
Context {SB : Type} `{!Platform SB, !PlatformLaws SB} `{!HdfStatus, !HdfStatusLaws} {OMX : OmxTypes}.
Context {A : Type} `{!OmxAdapter A}.

(** ** What the server writes *)
Section server.
Context {X : Type}.

Lemma group_writes r caps n :
  (n <= length caps)%nat -> Forall capability_wf caps ->
  writes (X := CodecServer A) r (group_marshalling r caps n) (concat (map enc_capability (take n caps))).
Proof.
  revert caps. induction n as [|n IH]; intros [|cap caps] Hn Hwf; cbn -[enc_capability] in Hn |- *; try apply writes_ret; [lia|].
  apply Forall_cons in Hwf as [Hc Hwf].
  apply writes_seq; [by apply capability_writes | apply IH; [lia | done]].
Qed.

Lemma groups_writes r gs :
  Forall (fun g => (Z.to_nat (num g) <= length (capablitis g))%nat /\ Forall capability_wf (capablitis g)) gs ->
  status_writes (X := CodecServer A) r (groups_marshalling r gs)
    (concat (map enc_capability (concat (map (fun g => take (Z.to_nat (num g)) (capablitis g)) gs)))).
Proof.
  induction 1 as [|g gs [Hn Hwf] _ IH]; cbn -[enc_capability]; [apply status_done|].
  rewrite map_app, concat_app.
  apply status_seq; [by apply group_writes | apply failure_error | done].
Qed.
End server.

(** ** What the client reads *)
Lemma read_capabilities_reads r caps capList :
  Forall capability_wf caps -> Forall capability_wf capList -> (length caps <= length capList)%nat ->
  reads (X := CodecServer A) r (read_capabilities r capList (length caps))
    (concat (map enc_capability caps)) (true, caps ++ drop (length caps) capList).
Proof.
  intros Hc. revert capList. induction Hc as [|cap caps Hcap _ IH]; intros capList Hl Hlen; cbn [length read_capabilities].
  - rewrite drop_0. apply reads_ret.
  - destruct capList as [|c0 capList]; [cbn in Hlen; lia|]. apply Forall_cons in Hl as [Hc0 Hl].
    cbn [map concat]. eapply reads_bind; [by apply capability_reads|]. cbn beta iota. cbn [negb].
    rewrite <- (app_nil_r (concat _)). eapply reads_bind; [apply IH; [done | cbn in Hlen; lia]|].
    apply reads_ret.
Qed.

(** The opening of the query methods. *)
Lemma wp_in_order {R} (out : R) body (w : World SB (CodecServer A)) P :
  world_ok w ->
  (forall d r, d <> r -> w_sbufs w !! d = None -> w_sbufs w !! r = None ->
     wp (body d r) P
        (call_state (w_sbufs w) d r sbuf_new sbuf_new (w_live w) (2 + w_next w) (w_svc w))) ->
  (forall n, ~ reliable SB -> (w_next w <= n)%nat ->
     P (HDF_FAILURE, out) (mkWorld (w_sbufs w) (w_live w) n (w_svc w))) ->
  wp (with_sbufs_in_order out body) P w.
Proof.
  intros [Hs HL] Hb Hf.
  assert (forall k, (w_next w <= k)%nat -> w_sbufs w !! k = None) as Hfresh.
  { intros k Hk. apply not_elem_of_dom. intros ?%Hs. lia. }
  assert (forall n, sbuf_obtain_ok n = false -> ~ reliable SB) as Hnr.
  { intros n E (H1 & _). by rewrite H1 in E. }
  unfold with_sbufs_in_order. apply wp_bind. unfold wp at 1, HdfSbufTypedObtain.
  destruct (sbuf_obtain_ok (w_next w)) eqn:E1; [|apply wp_ret, Hf; eauto].
  apply wp_bind. unfold wp at 1. cbn.
  destruct (sbuf_obtain_ok (S (w_next w))) eqn:E2.
  - apply Hb; [lia | apply Hfresh; lia | apply Hfresh; lia].
  - unfold wp, mbind, M_bind, mret, M_ret, HdfSbufRecycle; cbn.
    rewrite lookup_insert_eq; cbn. rewrite delete_insert_id by (apply Hfresh; lia).
    apply Hf; [eauto | lia].
Qed.

(** ** Client and server *)
Context (junk_buffer : OmxCodecBuffer) (junk_tunnel : OMX_TUNNELSETUPTYPE).
Abbreviation service := (stub_remote (SB := SB) (A := A) junk_buffer junk_tunnel).

(** A query on a token written by the client: the handler runs. *)
Lemma wp_query base d r cmd h sd sr L n x (P : Z -> World SB (CodecServer A) -> Prop) :
  d <> r -> sbuf_view sd = [IToken codec_desc] ->
  (cmd = CMD_CODEC_GET_COMPONENT_NUM /\ h = HandleGetNumCmd r) \/
  (cmd = CMD_CODEC_GET_COMPONENT_CAPABILITY_LIST /\ h = HandleGetAllCapablityListCmd r) ->
  (forall sd', wp h P (call_state base d r sd' sr L n x)) ->
  wp (dispatch_unchecked (Some service) cmd d r) P (call_state base d r sd sr L n x).
Proof.
  intros Hdr Hv Hh Hk. unfold dispatch_unchecked, stub_remote. do 3 apply wp_bind, wp_ret.
  unfold CodecComponentTypeServiceOnRemoteRequest. apply wp_bind.
  eapply wp_check_token; [done | exact Hv |]. intros sd' _. cbn [negb].
  destruct Hh as [[-> ->]|[-> ->]]; apply Hk.
Qed.

(** The number of components.  When no memory is refused, the client gets
    the number of entries of the server's table once the table is loaded, and
    [HDF_FAILURE] before; nothing changes and the buffers are recycled. *)
Lemma component_num w :
  reliable SB -> world_ok w ->
  let c := g_codecCapabilites (w_svc w) in
  exists w', GetComponentNum (Some service) w = Some (if inited c then total c else HDF_FAILURE, w') /\
    w_svc w' = w_svc w /\ restored w w'.
Proof.
  intros Hrel Hw c.
  assert (wp (GetComponentNum (Some service)) (fun v w' =>
    v = (if inited c then total c else HDF_FAILURE) /\ w_svc w' = w_svc w /\ restored w w') w) as Hwp.
  { unfold GetComponentNum. apply wp_bind. apply wp_in_order; [done | | done].
    intros d r Hdr Hd Hr. unfold HdfRemoteServiceWriteInterfaceToken. apply wp_bind, wp_bind, wp_ret.
    eapply wp_write_data; [done | apply sbuf_view_new | | done]. intros sd Hv. cbn in Hv. cbn [negb].
    apply wp_bind. eapply wp_query; [done | exact Hv | by left |]. intros sd'.
    unfold HandleGetNumCmd. apply wp_bind, wp_svc_state. fold c.
    assert (forall v sr n, (w_next w <= n)%nat ->
      wp (leave d r v tt) (fun p w' => wp (let '(num, _) := p in mret num) (fun v' w'' =>
          v' = v /\ w_svc w'' = w_svc w /\ restored w w'') w')
        (call_state (w_sbufs w) d r sd' sr (w_live w) n (w_svc w))) as Hleave.
    { intros v sr n Hn. unfold leave. apply wp_release; [done..|]. by apply wp_ret. }
    destruct (inited c) eqn:Ei; cbn [negb].
    - apply wp_bind. eapply wp_writes_reply; [done | apply writes_item | | done]. intros sr Hsr. cbn [negb].
      apply wp_ret. rewrite Z.eqb_refl. cbn [negb].
      apply wp_bind. eapply (wp_reads_reply _ _ _ _ [IInt32 (total c)] (Some (total c)) []);
        [done | by apply reads_item | by rewrite Hsr, sbuf_view_new |]. intros sr' _. apply Hleave. lia.
    - apply wp_ret. rewrite (proj2 (Z.eqb_neq _ _)) by apply failure_error. cbn [negb]. apply Hleave. lia. }
  apply wp_inv in Hwp as (v & w' & Hrun & -> & Hx & Hres). by exists w'.
Qed.

(** The capability list.  When no memory is refused and the table is
    loaded, a client that asks for at most as many capabilities as there are
    gets the first ones of the table, in the order hardware video, hardware
    audio, software video, software audio, each encoder group before its
    decoder group; the rest of its array is untouched, and the buffers are
    recycled. *)
Lemma capability_list capList count w :
  reliable SB -> world_ok w ->
  let c := g_codecCapabilites (w_svc w) in
  inited c = true -> table_wf c ->
  0 < count -> (Z.to_nat count <= length capList)%nat -> (Z.to_nat count <= length (all_capabilities c))%nat ->
  Forall capability_wf capList ->
  exists w', GetComponentCapabilityList (Some service) capList count w =
      Some ((HDF_SUCCESS, take (Z.to_nat count) (all_capabilities c) ++ drop (Z.to_nat count) capList), w') /\
    w_svc w' = w_svc w /\ restored w w'.
Proof.
  intros Hrel Hw c Hi Ht Hc0 Hcl Hca Hwf.
  assert (wp (GetComponentCapabilityList (Some service) capList count) (fun p w' =>
    p = (HDF_SUCCESS, take (Z.to_nat count) (all_capabilities c) ++ drop (Z.to_nat count) capList) /\
    w_svc w' = w_svc w /\ restored w w') w) as Hwp.
  { unfold GetComponentCapabilityList. apply wp_in_order; [done | | done].
    intros d r Hdr Hd Hr. unfold HdfRemoteServiceWriteInterfaceToken. apply wp_bind, wp_bind, wp_ret.
    eapply wp_write_data; [done | apply sbuf_view_new | | done]. intros sd Hv. cbn in Hv. cbn [negb].
    apply wp_bind. eapply wp_query; [done | exact Hv | by right |]. intros sd'.
    unfold HandleGetAllCapablityListCmd. apply wp_bind, wp_svc_state. fold c. rewrite Hi. cbn [negb].
    apply wp_bind. unfold AllCapabilityMarshalling. apply wp_bind, wp_svc_state. fold c.
    eapply wp_status_reply; [done | by apply groups_writes | | done]. intros sr Hsr.
    rewrite Z.eqb_refl. cbn [negb]. apply wp_ret. rewrite Z.eqb_refl. cbn [negb].
    rewrite (proj2 (Z.leb_gt _ _)) by done. fold (all_capabilities c) in Hsr.
    rewrite sbuf_view_new, app_nil_l in Hsr.
    rewrite <- (take_drop (Z.to_nat count) (all_capabilities c)), map_app, concat_app in Hsr.
    assert (Forall capability_wf (all_capabilities c)) as Hall.
    { unfold all_capabilities. apply Forall_concat, Forall_map. eapply Forall_impl; [exact Ht|].
      intros g [_ Hg]. by apply Forall_take. }
    apply wp_bind. eapply wp_reads_reply; [done | | exact Hsr |].
    - pose proof (read_capabilities_reads r (take (Z.to_nat count) (all_capabilities c)) capList) as Hrd.
      rewrite length_take_le in Hrd by done. apply Hrd; [by apply Forall_take | done | done].
    - intros sr' _. cbn beta iota. cbn [negb]. unfold leave. apply wp_release; [done..|].
      split; [done|]. split; [done|]. apply restored_end. lia. }
  apply wp_inv in Hwp as (v & w' & Hrun & -> & Hx & Hres). by exists w'.
Qed.
End queries.

(** ** A leak *)

(** When the interface token cannot be written, each of the four manager
    methods fails without recycling the two message buffers it obtained. *)
Lemma token_failure_leaks_buffers {SB} `{!Platform SB} `{!HdfStatus} {OMX : OmxTypes} {X}
    (rem : HdfRemoteService (World SB X)) Recycle capList count component name app size cb (w : World SB X) :
  sbuf_obtain_ok (w_next w) = true -> sbuf_obtain_ok (S (w_next w)) = true ->
  (sbuf_write (IToken (rs_desc rem)) sbuf_new).1 = false -> world_ok w ->
  exists w',
    GetComponentNum (Some rem) w = Some (HDF_FAILURE, w') /\
    GetComponentCapabilityList (Some rem) capList count w = Some ((HDF_FAILURE, capList), w') /\
    CreateComponent Recycle (Some rem) component name app size cb w = Some ((HDF_FAILURE, component), w') /\
    DestoryComponent (Some rem) component w = Some ((HDF_FAILURE, tt), w') /\
    base.size (w_sbufs w') = (base.size (w_sbufs w) + 2)%nat.
Proof.
  intros H1 H2 Hw [Hs _]. set (n := w_next w) in *.
  destruct (sbuf_write (IToken (rs_desc rem)) sbuf_new) as [b s'] eqn:E. cbn in Hw. subst b.
  assert (forall k, (n <= k)%nat -> w_sbufs w !! k = None) as Hfresh.
  { intros k Hk. apply not_elem_of_dom. intros ?%Hs. unfold n in Hk. lia. }
  exists (mkWorld (<[n := s']> (<[S n := sbuf_new]> (<[n := sbuf_new]> (w_sbufs w)))) (w_live w) (S (S n)) (w_svc w)).
  assert (HdfSbufTypedObtain w = Some (Some n, mkWorld (<[n := sbuf_new]> (w_sbufs w)) (w_live w) (S n) (w_svc w))) as O1
    by (unfold HdfSbufTypedObtain; fold n; by rewrite H1).
  set (w1 := mkWorld _ _ (S n) _) in O1.
  assert (HdfSbufTypedObtain w1 = Some (Some (S n),
    mkWorld (<[S n := sbuf_new]> (w_sbufs w1)) (w_live w) (S (S n)) (w_svc w))) as O2
    by (unfold HdfSbufTypedObtain; cbn; by rewrite H2).
  set (w2 := mkWorld _ _ (S (S n)) _) in O2.
  assert (HdfRemoteServiceWriteInterfaceToken (Some rem) n w2 =
    Some (false, mkWorld (<[n := s']> (w_sbufs w2)) (w_live w) (S (S n)) (w_svc w))) as T.
  { unfold HdfRemoteServiceWriteInterfaceToken, mbind, M_bind, deref, mret, M_ret, HdfSbufWrite, on_sbuf, w2, w1. cbn.
    rewrite lookup_insert_ne, lookup_insert_eq by lia. by rewrite E. }
  unfold GetComponentNum, GetComponentCapabilityList, CreateComponent, DestoryComponent,
    with_sbufs, with_sbufs_in_order.
  split_and!; try (unfold mbind, M_bind; rewrite O1, O2, T; done).
  cbn. assert (w_sbufs w !! n = None) as Hn by (by apply Hfresh).
  assert (w_sbufs w !! S n = None) as Hn' by (apply Hfresh; lia).
  rewrite map_size_insert_Some by (rewrite lookup_insert_ne, lookup_insert_eq by lia; by eexists).
  rewrite map_size_insert_None by (by rewrite lookup_insert_ne by lia).
  rewrite map_size_insert_None by done. lia.
Qed.

(** ** The manager object *)
Section lifecycle.
Context `{!HdfStatus, !HdfStatusLaws} {R : Type}.

(** What a process may do with the manager object; [Get] comes with what the
    service manager answers. *)
Inductive manager_op :=
  | OpGet (service_manager : bool) (get_service : option R) (set_desc : R -> bool)
  | OpRelease.

(** The global, the references acquired and the references recycled so far. *)
Record manager_refs := mkRefs { mr_global : option R; mr_acquired : list R; mr_recycled : list R }.

Definition manager_step (s : manager_refs) (op : manager_op) : manager_refs :=
  match op with
  | OpGet sm gs sd =>
      let '(_, g, l) := GetCodecComponentManager sm gs sd (mr_global s) in
      let acquired := match mr_global s with None => if sm then option_list gs else [] | Some _ => [] end in
      mkRefs g (mr_acquired s ++ acquired) (mr_recycled s ++ l)
  | OpRelease =>
      let '(g, l) := CodecComponentManagerRelease (mr_global s) in
      mkRefs g (mr_acquired s) (mr_recycled s ++ l)
  end.

Lemma manager_step_balanced s op :
  mr_acquired s ≡ₚ mr_recycled s ++ option_list (mr_global s) ->
  mr_acquired (manager_step s op) ≡ₚ mr_recycled (manager_step s op) ++ option_list (mr_global (manager_step s op)).
Proof.
  intros Hb. destruct s as [g acq rec], op as [sm gs sd|]; cbn in *.
  - unfold GetCodecComponentManager, InitCodecComponentManagerProxy.
    destruct g as [r|]; [rewrite Z.eqb_refl; cbn; by rewrite !app_nil_r|].
    rewrite app_nil_r in Hb.
    destruct sm; cbn [negb]; [destruct gs as [r|]; [destruct (sd r)|]|]; cbn [negb].
    1: rewrite Z.eqb_refl.
    2-4: rewrite (proj2 (Z.eqb_neq _ _)) by apply failure_error.
    all: cbn; by rewrite ?app_nil_r, Hb.
  - destruct g; cbn in *; rewrite ?app_nil_r in *; done.
Qed.

(** Over any sequence of requests for and releases of the manager object,
    whatever the service manager answers, the references acquired are those
    recycled and, while the manager is alive, the one it holds: none is leaked
    and none is recycled twice. *)
Lemma manager_refs_balanced ops :
  let s := fold_left manager_step ops (mkRefs None [] []) in
  mr_acquired s ≡ₚ mr_recycled s ++ option_list (mr_global s).
Proof.
  assert (forall s, mr_acquired s ≡ₚ mr_recycled s ++ option_list (mr_global s) ->
    let s' := fold_left manager_step ops s in
    mr_acquired s' ≡ₚ mr_recycled s' ++ option_list (mr_global s')) as Hall; [|by apply Hall].
  induction ops as [|op ops IH]; intros s Hs; cbn; [done|].
  apply IH. by apply manager_step_balanced.
Qed.
End lifecycle.

(** ** The theorems at concrete inputs *)
Abbreviation log_service := (stub_remote (SB := list item) (A := omx_log) zero_buffer zero_tunnel).

(** A table with one software audio decoder. *)
Definition one_group : CodecCapablityGroup := mkGroup 1 (Some 0%nat) [cap1].
Definition one_capability : CodecCapablites :=
  mkCapablites no_group no_group no_group no_group no_group no_group no_group one_group true 1.
Definition query_world : World (list item) (CodecServer omx_log) :=
  mkWorld ∅ {[0%nat]} 1 (mkServer 42 one_capability []).

Lemma query_world_ok : world_ok query_world.
Proof. split; [done|]. intros k Hk. cbn in Hk |- *. set_unfold. lia. Qed.

Lemma cap1_wf : capability_wf cap1.
Proof. do 3 (split; [done|]). split; [by repeat constructor | done]. Qed.

Lemma component_num_witness :
  exists w', GetComponentNum (Some log_service) query_world =
      Some (if inited one_capability then total one_capability else HDF_FAILURE, w') /\
    w_svc w' = w_svc query_world /\ restored query_world w'.
Proof.
  apply (component_num zero_buffer zero_tunnel query_world); [exact queue_reliable | exact query_world_ok].
Defined.

Lemma capability_list_witness :
  exists w', GetComponentCapabilityList (Some log_service) [cap1; cap1] 1 query_world =
      Some ((HDF_SUCCESS, take 1 (all_capabilities one_capability) ++ drop 1 [cap1; cap1]), w') /\
    w_svc w' = w_svc query_world /\ restored query_world w'.
Proof.
  apply (capability_list zero_buffer zero_tunnel [cap1; cap1] 1 query_world);
    [exact queue_reliable | exact query_world_ok | done | | lia | by apply Nat.leb_le | by apply Nat.leb_le |].
  - pose proof cap1_wf. repeat constructor; done.
  - pose proof cap1_wf. repeat constructor; done.
Defined.

(** A platform whose message buffers hold nothing. *)
Definition full_platform : Platform unit := {|
  sbuf_new := tt;
  sbuf_write _ s := (false, s);
  sbuf_read _ s := (None, s);
  sbuf_check_token _ s := (false, s);
  sbuf_obtain_ok _ := true;
  alloc_ok _ _ := true;
  set_desc_ok _ _ := true;
  fd_image fd := fd;
  remote_image r := r;
|}.

Lemma token_failure_leaks_buffers_witness :
  let _ := full_platform in
  let w : World unit unit := mkWorld ∅ ∅ 0 tt in
  let rem := Some (mkRemote codec_desc None) in
  exists w',
    GetComponentNum rem w = Some (HDF_FAILURE, w') /\
    GetComponentCapabilityList rem [] 0 w = Some ((HDF_FAILURE, []), w') /\
    CreateComponent (fun _ => mret tt) rem None "omx" [] 0 None w = Some ((HDF_FAILURE, None), w') /\
    DestoryComponent rem None w = Some ((HDF_FAILURE, tt), w') /\
    base.size (w_sbufs w') = (base.size (w_sbufs w) + 2)%nat.
Proof.
  intros P w rem.
  apply (token_failure_leaks_buffers (mkRemote codec_desc None) (fun _ => mret tt) [] 0 None "omx"%string [] 0 None w);
    [done | done | done | by split].
Defined.


(** Two requests, a release and a refused request. *)
Definition four_ops : list (manager_op (R := Z)) :=
  [OpGet true (Some 7) (fun _ => true); OpGet true (Some 8) (fun _ => true); OpRelease;
   OpGet true (Some 9) (fun _ => false)].

Lemma manager_refs_balanced_witness :
  let s := fold_left manager_step four_ops (mkRefs None [] []) in
  mr_acquired s ≡ₚ mr_recycled s ++ option_list (mr_global s).
Proof. apply (manager_refs_balanced four_ops). Defined.
