(* ===== verification/CodecCaps.v ===== *)
(** * CodecCaps: the capability table and the configuration it is loaded from

    Models [codec/hal/src/codec_config_parser.c], the data part of
    [codec_component_capability_config.c] and the start of the driver
    ([codec_component_type_driver.c]).  The device resource tree of the driver
    framework is a class of operations; so is what a fresh block of memory holds,
    which the code reads in places.  A pointer into a capability is a [place]. *)
From S2P Require Import Prelude Hdf CodecTypes CodecService.
Open Scope Z_scope.

(** ** Constants *)
Definition NODE_VIDEO_HARDWARE_ENCODERS : string := "VideoHwEncoders".
Definition NODE_VIDEO_HARDWARE_DECODERS : string := "VideoHwDecoders".
Definition NODE_VIDEO_SOFTWARE_ENCODERS : string := "VideoSwEncoders".
Definition NODE_VIDEO_SOFTWARE_DECODERS : string := "VideoSwDecoders".
Definition NODE_AUDIO_HARDWARE_ENCODERS : string := "AudioHwEncoders".
Definition NODE_AUDIO_HARDWARE_DECODERS : string := "AudioHwDecoders".
Definition NODE_AUDIO_SOFTWARE_ENCODERS : string := "AudioSwEncoders".
Definition NODE_AUDIO_SOFTWARE_DECODERS : string := "AudioSwDecoders".
Definition CODEC_CONFIG_KEY_ROLE : string := "role".
Definition CODEC_CONFIG_KEY_TYPE : string := "type".
Definition CODEC_CONFIG_KEY_NAME : string := "name".
Definition CODEC_CONFIG_KEY_SUPPORT_PROFILES : string := "supportProfiles".
Definition CODEC_CONFIG_KEY_MAX_INST : string := "maxInst".
Definition CODEC_CONFIG_KEY_IS_SOFTWARE_CODEC : string := "isSoftwareCodec".
Definition CODEC_CONFIG_KEY_PROCESS_MODE_MASK : string := "processModeMask".
Definition CODEC_CONFIG_KEY_CAPS_MASK : string := "capsMask".
Definition CODEC_CONFIG_KEY_MIN_BITRATE : string := "minBitRate".
Definition CODEC_CONFIG_KEY_MAX_BITRATE : string := "maxBitRate".
Definition CODEC_CONFIG_KEY_MIN_WIDTH : string := "minWidth".
Definition CODEC_CONFIG_KEY_MIN_HEIGHT : string := "minHeight".
Definition CODEC_CONFIG_KEY_MAX_WIDTH : string := "maxWidth".
Definition CODEC_CONFIG_KEY_MAX_HEIGHT : string := "maxHeight".
Definition CODEC_CONFIG_KEY_WIDTH_ALIGNMENT : string := "widthAlignment".
Definition CODEC_CONFIG_KEY_HEIGHT_ALIGNMENT : string := "heightAlignment".
Definition CODEC_CONFIG_KEY_MIN_BLOCK_COUNT : string := "minBlockCount".
Definition CODEC_CONFIG_KEY_MAX_BLOCK_COUNT : string := "maxBlockCount".
Definition CODEC_CONFIG_KEY_MIN_BLOCKS_PER_SECOND : string := "minBlocksPerSecond".
Definition CODEC_CONFIG_KEY_MAX_BLOCKS_PER_SECOND : string := "maxBlocksPerSecond".
Definition CODEC_CONFIG_KEY_SUPPORT_PIXEL_FMTS : string := "supportPixelFmts".
Definition CODEC_CONFIG_KEY_BLOCK_SIZE_WIDTH : string := "blockSizeWidth".
Definition CODEC_CONFIG_KEY_BLOCK_SIZE_HEIGHT : string := "blockSizeHeight".
Definition CODEC_CONFIG_KEY_SAMPLE_FORMATS : string := "sampleFormats".
Definition CODEC_CONFIG_KEY_SAMPLE_RATE : string := "sampleRate".
Definition CODEC_CONFIG_KEY_CHANNEL_LAYOUTS : string := "channelLayouts".
Definition CODEC_CONFIG_KEY_CHANNEL_COUNT : string := "channelCount".
Definition INVALID_TYPE : Z := 4.
Definition MEDIA_ROLETYPE_INVALID : Z := 0x10006.
Definition INVALID_PROFILE : Z := 0.
Definition AUD_SAMPLE_RATE_INVALID : Z := 96001.
Definition AUDIO_SAMPLE_FMT_INVALID : Z := 10.

(** [sizeof(CodecCompCapability)]; the flag is followed by padding. *)
Definition sizeof_CodecCompCapability : Z :=
  4 + 4 + Z.of_nat NAME_LENGTH + 4 * Z.of_nat PROFILE_NUM + 4 + 4 + 4 + 4 + 8 + sizeof_PortCap.

(** What depends on the target and on the OpenMAX headers. *)
Class CodecTarget := { arm64 : bool; OMX_COLOR_FormatUnused : Z; }.
Definition MASK_NUM_LIMIT `{!CodecTarget} : Z := if arm64 then 64 else 32.

(** ** The device resource tree

    The operations of [struct DeviceResourceIface] the code uses, over nodes [N].
    A function that writes through a pointer returns the status and what it wrote;
    [GetUint32Array] writes the first cells of the array it is given. *)
Class ResourceTree (N : Type) := {
  iface_there : bool;
  node_children : N -> list N;
  GetChildNode : N -> string -> option N;
  GetUint32 : N -> string -> Z -> Z * Z;
  GetElemNum : N -> string -> Z;
  GetUint32Array : N -> string -> Z -> list Z;
  GetString : N -> string -> list Z -> Z * option (list Z);
  GetBool : N -> string -> bool;
}.

(** What the cells of a block hold before they are written. *)
Class FreshMemory := {
  junk_capability : nat -> nat -> CodecCompCapability;
  junk_word : nat -> nat -> Z;
}.

(** ** Places in a capability *)

(** An array of [int32_t]: the profiles, or [n] words of the union from a byte on.
    The machine stores the low byte of a word first. *)
Inductive place := SupportProfiles | PortArray (off n : nat).
Definition word_bytes (v : Z) : list Z := [u8 v; u8 (v / 2 ^ 8); u8 (v / 2 ^ 16); u8 (v / 2 ^ 24)].
Definition put_word (off : nat) (v : Z) (bytes : list Z) : list Z := take off bytes ++ word_bytes v ++ drop (off + 4) bytes.

Record ConfigUintNodeAttr := mkNodeAttr { na_attrName : string; valueAddr : nat; defaultValue : Z }.
Record ConfigUintArrayNodeAttr := mkArrayAttr { attrName : string; array : place; aa_length : Z; endValue : Z }.

Section parser.
Context {SB : Type} `{!Platform SB} `{!HdfStatus} `{!CodecTarget} {A : Type} {N : Type} `{!ResourceTree N} `{!FreshMemory}.
Abbreviation M := (M (World SB (CodecServer A))).

(** Storing a word where there is none is undefined. *)
Definition store (p : place) (i : nat) (v : Z) (cap : CodecCompCapability) : M CodecCompCapability :=
  match p with
  | SupportProfiles =>
      if (i <? length (supportProfiles cap))%nat then mret (set_supportProfiles (<[i := i32 v]> (supportProfiles cap)) cap) else undefined
  | PortArray off n =>
      if (i <? n)%nat && (off + 4 * i + 4 <=? length (port cap))%nat
      then mret (set_port (put_word (off + 4 * i) v (port cap)) cap) else undefined
  end.
Fixpoint store_all (p : place) (i : nat) (vs : list Z) (cap : CodecCompCapability) : M CodecCompCapability :=
  match vs with
  | [] => mret cap
  | v :: vs => cap ← store p i v cap; store_all p (S i) vs cap
  end.

(** [strcpy_s] of the C library. *)
Definition strcpy_s (dest : list Z) (destMax : nat) (src : list Z) : Z * list Z :=
  if (length src <? destMax)%nat then (0, src ++ [0] ++ drop (S (length src)) dest) else (34, <[0%nat := 0]> dest).

(** ** Attributes of a node *)
Definition GetUintTableConfig (node : N) (attr : ConfigUintArrayNodeAttr) (cap : CodecCompCapability) : M (Z * CodecCompCapability) :=
  let count := GetElemNum node (attrName attr) in
  if (count <? 0) || (aa_length attr <=? count) then mret (HDF_FAILURE, cap)
  else
    cap ← (if 0 <? count then store_all (array attr) 0 (GetUint32Array node (attrName attr) count) cap else mret cap);
    cap ← store (array attr) (Z.to_nat count) (endValue attr) cap;
    mret (HDF_SUCCESS, cap).

(** The status and the mask. *)
Definition GetMaskedConfig (node : N) (name : string) : M (Z * Z) :=
  let count := GetElemNum node name in
  if (count <? 0) || (MASK_NUM_LIMIT <? count) then mret (HDF_FAILURE, 0)
  else if 0 <? count then
    p ← OsalMemAlloc (4 * count);
    match p with
    | None => mret (HDF_FAILURE, 0)
    | Some k =>
        let vs := GetUint32Array node name count in
        let values := vs ++ map (junk_word k) (seq (length vs) (Z.to_nat count - length vs)) in
        OsalMemFree k;;
        mret (HDF_SUCCESS, fold_left Z.lor values 0)
    end
  else mret (HDF_SUCCESS, 0).

(** The numbers one after the other, until one is missing. *)
Fixpoint get_numbers (node : N) (attrs : list ConfigUintNodeAttr) (cap : CodecCompCapability) : M (Z * CodecCompCapability) :=
  match attrs with
  | [] => mret (HDF_SUCCESS, cap)
  | a :: attrs =>
      let '(ret, v) := GetUint32 node (na_attrName a) (defaultValue a) in
      cap ← store (PortArray (valueAddr a) 1) 0 v cap;
      if negb (ret =? HDF_SUCCESS) then mret (HDF_FAILURE, cap) else get_numbers node attrs cap
  end.
Fixpoint get_tables (node : N) (attrs : list ConfigUintArrayNodeAttr) (cap : CodecCompCapability) : M (Z * CodecCompCapability) :=
  match attrs with
  | [] => mret (HDF_SUCCESS, cap)
  | a :: attrs =>
      '(ret, cap) ← GetUintTableConfig node a cap;
      if negb (ret =? HDF_SUCCESS) then mret (HDF_FAILURE, cap) else get_tables node attrs cap
  end.

Definition video_numbers : list ConfigUintNodeAttr :=
  [mkNodeAttr CODEC_CONFIG_KEY_MIN_WIDTH 0 0; mkNodeAttr CODEC_CONFIG_KEY_MIN_HEIGHT 4 0;
   mkNodeAttr CODEC_CONFIG_KEY_MAX_WIDTH 8 0; mkNodeAttr CODEC_CONFIG_KEY_MAX_HEIGHT 12 0;
   mkNodeAttr CODEC_CONFIG_KEY_WIDTH_ALIGNMENT 16 0; mkNodeAttr CODEC_CONFIG_KEY_HEIGHT_ALIGNMENT 20 0;
   mkNodeAttr CODEC_CONFIG_KEY_MIN_BLOCK_COUNT 24 0; mkNodeAttr CODEC_CONFIG_KEY_MAX_BLOCK_COUNT 28 0;
   mkNodeAttr CODEC_CONFIG_KEY_MIN_BLOCKS_PER_SECOND 32 0; mkNodeAttr CODEC_CONFIG_KEY_MAX_BLOCKS_PER_SECOND 36 0;
   mkNodeAttr CODEC_CONFIG_KEY_BLOCK_SIZE_WIDTH 40 0; mkNodeAttr CODEC_CONFIG_KEY_BLOCK_SIZE_HEIGHT 44 0].
Definition pixel_formats : ConfigUintArrayNodeAttr :=
  mkArrayAttr CODEC_CONFIG_KEY_SUPPORT_PIXEL_FMTS (PortArray 48 PIX_FORMAT_NUM) (Z.of_nat PIX_FORMAT_NUM) OMX_COLOR_FormatUnused.
Definition GetVideoPortCapability (childNode : N) (cap : CodecCompCapability) : M (Z * CodecCompCapability) :=
  '(ret, cap) ← get_numbers childNode video_numbers cap;
  if negb (ret =? HDF_SUCCESS) then mret (HDF_FAILURE, cap)
  else
    '(ret, cap) ← GetUintTableConfig childNode pixel_formats cap;
    if negb (ret =? HDF_SUCCESS) then mret (HDF_FAILURE, cap) else mret (HDF_SUCCESS, cap).

Definition audio_tables : list ConfigUintArrayNodeAttr :=
  [mkArrayAttr CODEC_CONFIG_KEY_SAMPLE_FORMATS (PortArray 0 SAMPLE_FMT_NUM) (Z.of_nat SAMPLE_FMT_NUM) AUDIO_SAMPLE_FMT_INVALID;
   mkArrayAttr CODEC_CONFIG_KEY_SAMPLE_RATE (PortArray 128 SAMPLE_RATE_NUM) (Z.of_nat SAMPLE_RATE_NUM) AUD_SAMPLE_RATE_INVALID;
   mkArrayAttr CODEC_CONFIG_KEY_CHANNEL_LAYOUTS (PortArray 192 CHANNEL_NUM) (Z.of_nat CHANNEL_NUM) (-1);
   mkArrayAttr CODEC_CONFIG_KEY_CHANNEL_COUNT (PortArray 256 CHANNEL_NUM) (Z.of_nat CHANNEL_NUM) (-1)].
Definition GetAudioPortCapability (childNode : N) (cap : CodecCompCapability) : M (Z * CodecCompCapability) :=
  get_tables childNode audio_tables cap.

Definition profiles : ConfigUintArrayNodeAttr :=
  mkArrayAttr CODEC_CONFIG_KEY_SUPPORT_PROFILES SupportProfiles (Z.of_nat PROFILE_NUM) INVALID_PROFILE.
Definition GetMiscOfCapability (childNode : N) (cap : CodecCompCapability) : M (Z * CodecCompCapability) :=
  '(ret, cap) ← GetUintTableConfig childNode profiles cap;
  if negb (ret =? HDF_SUCCESS) then mret (HDF_FAILURE, cap)
  else
    let '(ret, v) := GetUint32 childNode CODEC_CONFIG_KEY_MAX_INST 0 in
    let cap := set_maxInst (i32 v) cap in
    if negb (ret =? HDF_SUCCESS) then mret (HDF_FAILURE, cap)
    else
      '(ret, v) ← GetMaskedConfig childNode CODEC_CONFIG_KEY_PROCESS_MODE_MASK;
      let cap := set_processModeMask (i32 v) cap in
      if negb (ret =? HDF_SUCCESS) then mret (HDF_FAILURE, cap)
      else
        '(ret, v) ← GetMaskedConfig childNode CODEC_CONFIG_KEY_CAPS_MASK;
        let cap := set_capsMask v cap in
        if negb (ret =? HDF_SUCCESS) then mret (HDF_FAILURE, cap)
        else
          let '(ret, v) := GetUint32 childNode CODEC_CONFIG_KEY_MIN_BITRATE 0 in
          let cap := set_bitRate (set_rv_min (i32 v) (bitRate cap)) cap in
          if negb (ret =? HDF_SUCCESS) then mret (HDF_FAILURE, cap)
          else
            let '(ret, v) := GetUint32 childNode CODEC_CONFIG_KEY_MAX_BITRATE 0 in
            let cap := set_bitRate (set_rv_max (i32 v) (bitRate cap)) cap in
            if negb (ret =? HDF_SUCCESS) then mret (HDF_FAILURE, cap) else mret (HDF_SUCCESS, cap).

(** A capability that cannot be read is marked by its role. *)
Definition GetOneCapability (childNode : N) (cap : CodecCompCapability) (isVideoGroup : bool) : M (Z * CodecCompCapability) :=
  let '(ret, v) := GetUint32 childNode CODEC_CONFIG_KEY_ROLE MEDIA_ROLETYPE_INVALID in
  let cap := set_cap_role v cap in
  if negb (ret =? HDF_SUCCESS) then mret (HDF_FAILURE, set_cap_role MEDIA_ROLETYPE_INVALID cap)
  else
    let '(ret, v) := GetUint32 childNode CODEC_CONFIG_KEY_TYPE INVALID_TYPE in
    let cap := set_cap_type v cap in
    if negb (ret =? HDF_SUCCESS) then mret (HDF_FAILURE, set_cap_type INVALID_TYPE (set_cap_role MEDIA_ROLETYPE_INVALID cap))
    else
      let '(ret, name) := GetString childNode CODEC_CONFIG_KEY_NAME [] in
      if negb (ret =? HDF_SUCCESS) then mret (HDF_FAILURE, set_cap_role MEDIA_ROLETYPE_INVALID cap)
      else
        match name with
        | None => mret (HDF_FAILURE, set_cap_role MEDIA_ROLETYPE_INVALID cap)
        | Some name =>
            if (NAME_LENGTH <=? length name)%nat || (length name =? 0)%nat then mret (HDF_FAILURE, set_cap_role MEDIA_ROLETYPE_INVALID cap)
            else
              let '(ret, dest) := strcpy_s (compName cap) NAME_LENGTH name in
              let cap := set_compName dest cap in
              if negb (ret =? 0) then mret (HDF_FAILURE, cap)
              else
                let cap := set_isSoftwareCodec (GetBool childNode CODEC_CONFIG_KEY_IS_SOFTWARE_CODEC) cap in
                '(ret, cap) ← GetMiscOfCapability childNode cap;
                if negb (ret =? HDF_SUCCESS) then mret (HDF_FAILURE, set_cap_role MEDIA_ROLETYPE_INVALID cap)
                else
                  '(ret, cap) ← (if isVideoGroup then GetVideoPortCapability childNode cap else GetAudioPortCapability childNode cap);
                  if negb (ret =? HDF_SUCCESS) then mret (HDF_FAILURE, set_cap_role MEDIA_ROLETYPE_INVALID cap)
                  else mret (HDF_SUCCESS, cap)
        end.

(** ** Groups *)
Inductive group_id :=
| VideoHwEncoder | VideoHwDecoder | VideoSwEncoder | VideoSwDecoder | AudioHwEncoder | AudioHwDecoder | AudioSwEncoder | AudioSwDecoder.
Definition group_of (g : group_id) (c : CodecCapablites) : CodecCapablityGroup :=
  match g with
  | VideoHwEncoder => videoHwEncoderGroup c | VideoHwDecoder => videoHwDecoderGroup c
  | VideoSwEncoder => videoSwEncoderGroup c | VideoSwDecoder => videoSwDecoderGroup c
  | AudioHwEncoder => audioHwEncoderGroup c | AudioHwDecoder => audioHwDecoderGroup c
  | AudioSwEncoder => audioSwEncoderGroup c | AudioSwDecoder => audioSwDecoderGroup c
  end.
Definition set_group (g : group_id) (v : CodecCapablityGroup) (c : CodecCapablites) : CodecCapablites :=
  let at_ (g' : group_id) := match g, g' with
    | VideoHwEncoder, VideoHwEncoder | VideoHwDecoder, VideoHwDecoder | VideoSwEncoder, VideoSwEncoder | VideoSwDecoder, VideoSwDecoder
    | AudioHwEncoder, AudioHwEncoder | AudioHwDecoder, AudioHwDecoder | AudioSwEncoder, AudioSwEncoder | AudioSwDecoder, AudioSwDecoder => v
    | _, _ => group_of g' c end in
  mkCapablites (at_ VideoHwEncoder) (at_ VideoHwDecoder) (at_ VideoSwEncoder) (at_ VideoSwDecoder)
    (at_ AudioHwEncoder) (at_ AudioHwDecoder) (at_ AudioSwEncoder) (at_ AudioSwDecoder) (inited c) (total c).
Definition set_inited (v : bool) (c : CodecCapablites) : CodecCapablites :=
  mkCapablites (videoHwEncoderGroup c) (videoHwDecoderGroup c) (videoSwEncoderGroup c) (videoSwDecoderGroup c)
    (audioHwEncoderGroup c) (audioHwDecoderGroup c) (audioSwEncoderGroup c) (audioSwDecoderGroup c) v (total c).
Definition set_total (v : Z) (c : CodecCapablites) : CodecCapablites :=
  mkCapablites (videoHwEncoderGroup c) (videoHwDecoderGroup c) (videoSwEncoderGroup c) (videoSwDecoderGroup c)
    (audioHwEncoderGroup c) (audioHwDecoderGroup c) (audioSwEncoderGroup c) (audioSwDecoderGroup c) (inited c) v.

(** The groups in the order in which they are loaded, and their nodes. *)
Definition codecCapGroups : list group_id :=
  [VideoHwEncoder; VideoHwDecoder; VideoSwEncoder; VideoSwDecoder; AudioHwEncoder; AudioHwDecoder; AudioSwEncoder; AudioSwDecoder].
Definition codecGroupsNodeName (g : group_id) : string :=
  match g with
  | VideoHwEncoder => NODE_VIDEO_HARDWARE_ENCODERS | VideoHwDecoder => NODE_VIDEO_HARDWARE_DECODERS
  | VideoSwEncoder => NODE_VIDEO_SOFTWARE_ENCODERS | VideoSwDecoder => NODE_VIDEO_SOFTWARE_DECODERS
  | AudioHwEncoder => NODE_AUDIO_HARDWARE_ENCODERS | AudioHwDecoder => NODE_AUDIO_HARDWARE_DECODERS
  | AudioSwEncoder => NODE_AUDIO_SOFTWARE_ENCODERS | AudioSwDecoder => NODE_AUDIO_SOFTWARE_DECODERS
  end.

Definition caps_get : M CodecCapablites := x ← svc_state; mret (g_codecCapabilites x).
Definition caps_upd (f : CodecCapablites -> CodecCapablites) : M unit :=
  x ← svc_state; set_svc (mkServer (componentHandle x) (f (g_codecCapabilites x)) (adapter x)).

(** The status and the number. *)
Definition GetGroupCapabilitiesNumber (node : N) (nodeName : string) : Z * Z :=
  if negb iface_there then (HDF_FAILURE, 0)
  else
    match GetChildNode node nodeName with
    | None => (HDF_FAILURE, 0)
    | Some codecGroupNode => (HDF_SUCCESS, Z.of_nat (length (node_children codecGroupNode)))
    end.

(** A capability that cannot be read is only reported. *)
Fixpoint group_loop (l : list N) (index : nat) (isVideoGroup : bool) (caps : list CodecCompCapability) : M (list CodecCompCapability) :=
  match l with
  | [] => mret caps
  | childNode :: l =>
      cap ← deref (caps !! index);
      '(_, cap) ← GetOneCapability childNode cap isVideoGroup;
      group_loop l (S index) isVideoGroup (<[index := cap]> caps)
  end.
Definition strstr (s t : string) : bool := match String.index 0 t s with Some _ => true | None => false end.
Definition GetGroupCapabilities (node : N) (nodeName : string) (g : group_id) : M Z :=
  if negb iface_there then mret HDF_ERR_INVALID_PARAM
  else
    match GetChildNode node nodeName with
    | None => mret HDF_FAILURE
    | Some codecGroupNode =>
        c ← caps_get;
        caps ← group_loop (node_children codecGroupNode) 0 (strstr nodeName "Video") (capablitis (group_of g c));
        caps_upd (fun c => set_group g (mkGroup (num (group_of g c)) (capablitis_at (group_of g c)) caps) c);;
        mret HDF_SUCCESS
    end.

(** ** Loading and clearing *)

(** The first loop: memory for every group. *)
Fixpoint alloc_groups (node : N) (l : list group_id) : M Z :=
  match l with
  | [] => mret HDF_SUCCESS
  | g :: l =>
      let '(ret, codecNum) := GetGroupCapabilitiesNumber node (codecGroupsNodeName g) in
      if ret =? HDF_SUCCESS then
        p ← (if 0 <? codecNum then OsalMemAlloc (sizeof_CodecCompCapability * codecNum) else mret None);
        caps_upd (set_group g
          match p with
          | Some k => mkGroup codecNum (Some k) (map (junk_capability k) (seq 0 (Z.to_nat codecNum)))
          | None => mkGroup 0 None []
          end);;
        if (0 <? codecNum) && bool_decide (p = None) then mret HDF_FAILURE
        else caps_upd (fun c => set_total (i32 (total c + num (group_of g c))) c);; alloc_groups node l
      else alloc_groups node l
  end.
(** The second loop. *)
Fixpoint fill_groups (node : N) (l : list group_id) : M Z :=
  match l with
  | [] => mret HDF_SUCCESS
  | g :: l =>
      ret ← GetGroupCapabilities node (codecGroupsNodeName g) g;
      if negb (ret =? HDF_SUCCESS) then mret HDF_FAILURE else fill_groups node l
  end.
Definition LoadCodecCapabilityFromHcs (node : option N) : M Z :=
  match node with
  | None => mret HDF_ERR_INVALID_PARAM
  | Some node =>
      ret ← alloc_groups node codecCapGroups;
      if negb (ret =? HDF_SUCCESS) then mret ret
      else
        ret ← fill_groups node codecCapGroups;
        if negb (ret =? HDF_SUCCESS) then mret ret
        else caps_upd (set_inited true);; mret HDF_SUCCESS
  end.

Fixpoint clear_groups (l : list group_id) : M unit :=
  match l with
  | [] => mret tt
  | g :: l =>
      c ← caps_get;
      (match capablitis_at (group_of g c) with
       | Some k => OsalMemFree k;; caps_upd (set_group g (mkGroup 0 None []))
       | None => mret tt
       end);;
      clear_groups l
  end.
Definition ClearCapabilityGroup : M Z :=
  clear_groups codecCapGroups;; caps_upd (fun c => set_total 0 (set_inited false c));; mret HDF_SUCCESS.

(** ** The driver: [g_resourceNode] is passed and returned. *)
Definition InitDataNode (node g_resourceNode : option N) : Z * option N :=
  match node with None => (HDF_FAILURE, g_resourceNode) | Some _ => (HDF_SUCCESS, node) end.
Definition ClearCapabilityData : M Z := ClearCapabilityGroup.
Definition LoadCapabilityData (g_resourceNode : option N) : M Z := LoadCodecCapabilityFromHcs g_resourceNode.
(** [deviceObject] is known by its property. *)
Definition HdfCodecComponentTypeDriverInit (deviceObject : option (option N)) (g_resourceNode : option N) : M (Z * option N) :=
  match deviceObject with
  | None => mret (HDF_FAILURE, g_resourceNode)
  | Some property =>
      let '(_, g_resourceNode) := InitDataNode property g_resourceNode in
      ret ← LoadCapabilityData g_resourceNode;
      (if negb (ret =? HDF_SUCCESS) then ClearCapabilityData;; mret tt else mret tt);;
      mret (HDF_SUCCESS, g_resourceNode)
  end.
End parser.
