(* ===== verification/CodecCapsSpec.v ===== *)
(** * CodecCapsSpec: what a configuration of capabilities means

    The contract of the device resource tree ([ResourceLaws]), the description of
    a capability as the author of a configuration has it in mind, the attributes
    that write it down, and what reading a [CodecCompCapability] back gives. *)
From S2P Require Import Prelude Hdf CodecTypes CodecService CodecCaps.
Open Scope Z_scope.

(** ** The resource tree *)
Inductive attr := ANumber (v : Z) | AArray (l : list Z) | AString (s : list Z) | AFlag.

(** A node has attributes; the operations deliver them.  Of an attribute that is
    not there no string is delivered; and whatever a node holds, a number has 32
    bits, no more elements are written than were asked for, and a string ends with
    its first null character. *)
Class ResourceLaws (N : Type) `{!HdfStatus} `{!ResourceTree N} := {
  node_attr : N -> string -> option attr;
  rl_number n a v d : node_attr n a = Some (ANumber v) -> GetUint32 n a d = (HDF_SUCCESS, v);
  rl_array n a l : node_attr n a = Some (AArray l) ->
    GetElemNum n a = Z.of_nat (length l) /\ GetUint32Array n a (Z.of_nat (length l)) = l;
  rl_string n a s d : node_attr n a = Some (AString s) -> GetString n a d = (HDF_SUCCESS, Some s);
  rl_flag n a : GetBool n a = true <-> node_attr n a = Some AFlag;
  rl_no_string n a d : node_attr n a = None -> (GetString n a d).1 <> HDF_SUCCESS;
  rl_word n a d : 0 <= d < 2 ^ 32 -> 0 <= (GetUint32 n a d).2 < 2 ^ 32;
  rl_fits n a c : 0 <= c -> Z.of_nat (length (GetUint32Array n a c)) <= c;
  rl_chars n a ret s : GetString n a [] = (ret, Some s) -> Forall (fun c => 0 < c < 2 ^ 8) s;
}.

(** An enumerator is an [int]. *)
Class CodecTargetLaws `{!CodecTarget} := { ct_unused : - 2 ^ 31 <= OMX_COLOR_FormatUnused < 2 ^ 31 }.
(** A cell that was not written holds some value of its type. *)
Class FreshMemoryLaws `{!FreshMemory} := { junk_wf k i : capability_wf (junk_capability k i) }.

(** ** Descriptions *)

(** The tables of a port are as long as they need to be. *)
Record description := mkDescription {
  d_role : Z;
  d_type : Z;
  d_name : list Z;
  d_profiles : list Z;
  d_maxInst : Z;
  d_software : bool;
  d_modes : list Z;
  d_caps : list Z;
  d_bitRate : RangeValue;
  d_port : VideoPortCap + AudioPortCap;
}.
Definition video_values (v : VideoPortCap) : list Z :=
  [width (minSize v); height (minSize v); width (maxSize v); height (maxSize v);
   widthAlignment (whAlignment v); heightAlignment (whAlignment v); rv_min (blockCount v); rv_max (blockCount v);
   rv_min (blocksPerSecond v); rv_max (blocksPerSecond v); width (blockSize v); height (blockSize v)].
Definition audio_values (a : AudioPortCap) : list (list Z) := [sampleFormats a; sampleRate a; channelLayouts a; channelCount a].

(** The attributes that write a description down. *)
Section attributes.
Context `{!CodecTarget}.
Definition port_attrs (p : VideoPortCap + AudioPortCap) : list (string * attr) :=
  match p with
  | inl v => zip_with (fun a z => (na_attrName a, ANumber z)) video_numbers (video_values v) ++ [(attrName pixel_formats, AArray (supportPixFmts v))]
  | inr a => zip_with (fun t l => (attrName t, AArray l)) audio_tables (audio_values a)
  end.
Definition attrs_of (d : description) : list (string * attr) :=
  [(CODEC_CONFIG_KEY_ROLE, ANumber (d_role d)); (CODEC_CONFIG_KEY_TYPE, ANumber (d_type d)); (CODEC_CONFIG_KEY_NAME, AString (d_name d));
   (CODEC_CONFIG_KEY_SUPPORT_PROFILES, AArray (d_profiles d)); (CODEC_CONFIG_KEY_MAX_INST, ANumber (d_maxInst d));
   (CODEC_CONFIG_KEY_PROCESS_MODE_MASK, AArray (d_modes d)); (CODEC_CONFIG_KEY_CAPS_MASK, AArray (d_caps d));
   (CODEC_CONFIG_KEY_MIN_BITRATE, ANumber (rv_min (d_bitRate d))); (CODEC_CONFIG_KEY_MAX_BITRATE, ANumber (rv_max (d_bitRate d)))] ++
  port_attrs (d_port d).

(** A number fits into a positive [int32_t]; a table leaves room for the value
    that ends it, which is not in it. *)
Definition number_ok (v : Z) : Prop := 0 <= v < 2 ^ 31.
Definition table_ok (n : Z) (e : Z) (l : list Z) : Prop := Z.of_nat (length l) < n /\ Forall (fun v => number_ok v /\ v <> e) l.
Definition mask_ok (l : list Z) : Prop := Z.of_nat (length l) <= MASK_NUM_LIMIT.
Definition port_ok (video : bool) (p : VideoPortCap + AudioPortCap) : Prop :=
  match p with
  | inl v => video = true /\ Forall number_ok (video_values v) /\ table_ok (aa_length pixel_formats) (endValue pixel_formats) (supportPixFmts v)
  | inr a => video = false /\ Forall2 (fun t l => table_ok (aa_length t) (endValue t) l) audio_tables (audio_values a)
  end.
Record valid (video : bool) (d : description) : Prop := Valid {
  va_role : 0 <= d_role d < 2 ^ 32;
  va_type : 0 <= d_type d < 2 ^ 32;
  va_name : (0 < length (d_name d) < NAME_LENGTH)%nat /\ Forall (fun c => 0 < c < 2 ^ 8) (d_name d);
  va_profiles : table_ok (aa_length profiles) (endValue profiles) (d_profiles d);
  va_maxInst : number_ok (d_maxInst d);
  va_modes : mask_ok (d_modes d);
  va_caps : mask_ok (d_caps d);
  va_bitRate : number_ok (rv_min (d_bitRate d)) /\ number_ok (rv_max (d_bitRate d));
  va_port : port_ok video (d_port d);
}.
End attributes.

(** ** Reading a capability *)

(** The values before the first [e]. *)
Fixpoint until (e : Z) (l : list Z) : list Z :=
  match l with [] => [] | v :: l => if v =? e then [] else v :: until e l end.
Definition byte_of (i : nat) (bytes : list Z) : Z := nth i bytes 0.
Definition word_at (off : nat) (bytes : list Z) : Z :=
  i32 (byte_of off bytes + 2 ^ 8 * byte_of (off + 1) bytes + 2 ^ 16 * byte_of (off + 2) bytes + 2 ^ 24 * byte_of (off + 3) bytes).
Definition words_at (off n : nat) (bytes : list Z) : list Z := map (fun i => word_at (off + 4 * i) bytes) (seq 0 n).
Definition read_video `{!CodecTarget} (bytes : list Z) : VideoPortCap :=
  mkVideoPortCap (mkRect (word_at 0 bytes) (word_at 4 bytes)) (mkRect (word_at 8 bytes) (word_at 12 bytes))
    (mkAlignment (word_at 16 bytes) (word_at 20 bytes)) (mkRangeValue (word_at 24 bytes) (word_at 28 bytes))
    (mkRangeValue (word_at 32 bytes) (word_at 36 bytes)) (mkRect (word_at 40 bytes) (word_at 44 bytes))
    (until OMX_COLOR_FormatUnused (words_at 48 PIX_FORMAT_NUM bytes)).
Definition read_audio (bytes : list Z) : AudioPortCap :=
  mkAudioPortCap (until AUDIO_SAMPLE_FMT_INVALID (words_at 0 SAMPLE_FMT_NUM bytes)) (until AUD_SAMPLE_RATE_INVALID (words_at 128 SAMPLE_RATE_NUM bytes))
    (until (-1) (words_at 192 CHANNEL_NUM bytes)) (until (-1) (words_at 256 CHANNEL_NUM bytes)).

(** A capability holds what a description says. *)
Record means `{!CodecTarget} (d : description) (cap : CodecCompCapability) : Prop := Means {
  me_role : cap_role cap = d_role d;
  me_type : cap_type cap = d_type d;
  me_name : until 0 (compName cap) = d_name d;
  me_profiles : until INVALID_PROFILE (supportProfiles cap) = d_profiles d;
  me_maxInst : maxInst cap = d_maxInst d;
  me_software : isSoftwareCodec cap = d_software d;
  me_modes : processModeMask cap = i32 (fold_left Z.lor (d_modes d) 0);
  me_caps : capsMask cap = fold_left Z.lor (d_caps d) 0;
  me_bitRate : bitRate cap = d_bitRate d;
  me_port : match d_port d with inl v => read_video (port cap) = v | inr a => read_audio (port cap) = a end;
}.

(** ** Configurations *)
Definition is_video (g : group_id) : bool := strstr (codecGroupsNodeName g) "Video".
Section configuration.
Context `{!HdfStatus} `{!CodecTarget} {N : Type} `{!ResourceTree N, !ResourceLaws N}.
Definition describes (n : N) (d : description) : Prop :=
  Forall (fun '(k, a) => node_attr n k = Some a) (attrs_of d) /\ GetBool n CODEC_CONFIG_KEY_IS_SOFTWARE_CODEC = d_software d.

(** A node that gives a role and a type, a number each, but no name; and what
    reading it makes of the entry [cap]. *)
Definition nameless (n : N) (type : Z) : Prop :=
  (exists role, node_attr n CODEC_CONFIG_KEY_ROLE = Some (ANumber role)) /\
  node_attr n CODEC_CONFIG_KEY_TYPE = Some (ANumber type) /\ node_attr n CODEC_CONFIG_KEY_NAME = None.
Definition stale_entry (type : Z) (cap : CodecCompCapability) : CodecCompCapability :=
  set_cap_role MEDIA_ROLETYPE_INVALID (set_cap_type type cap).

(** What the author of the configuration wants in each group. *)
Definition catalog := group_id -> list description.
Definition tree_describes (root : N) (cat : catalog) : Prop :=
  iface_there = true /\
  forall g, exists n, GetChildNode root (codecGroupsNodeName g) = Some n /\
    Forall2 describes (node_children n) (cat g) /\ Forall (valid (is_video g)) (cat g).
End configuration.

(** Nothing is loaded. *)
Definition blank_group : CodecCapablityGroup := mkGroup 0 None [].
Definition blank_table : CodecCapablites :=
  mkCapablites blank_group blank_group blank_group blank_group blank_group blank_group blank_group blank_group false 0.
