(* ===== verification/CodecCapsFacts.v ===== *)
(** * CodecCapsFacts: reading one capability

    Words in the union, tables and masks, and [GetOneCapability]: whatever the node
    holds it is defined and leaves a well-formed capability, and when the node
    describes a capability it reads that one. *)
From S2P Require Import Prelude Hdf CodecTypes CodecService CodecCaps CodecCapsSpec.
Open Scope Z_scope.

(** ** Words *)
Lemma put_word_length off v bytes : (off + 4 <= length bytes)%nat -> length (put_word off v bytes) = length bytes.
Proof. intros H. unfold put_word. rewrite !length_app, length_take, length_drop. cbn. lia. Qed.
Lemma byte_put_other off v bytes i : (off + 4 <= length bytes)%nat -> (i < off \/ off + 4 <= i)%nat -> byte_of i (put_word off v bytes) = byte_of i bytes.
Proof.
  intros Hl Hi. unfold byte_of, put_word. destruct Hi as [Hi|Hi].
  - rewrite app_nth1 by (rewrite length_take; lia). rewrite !nth_lookup, lookup_take_lt; [done | lia].
  - rewrite app_nth2 by (rewrite length_take; lia). rewrite length_take, Nat.min_l by lia.
    rewrite app_nth2 by (cbn; lia). rewrite !nth_lookup, lookup_drop. f_equal. f_equal. cbn [length word_bytes]. lia.
Qed.
Lemma byte_put_same off v bytes k b : (off + 4 <= length bytes)%nat -> word_bytes v !! k = Some b -> byte_of (off + k) (put_word off v bytes) = b.
Proof.
  intros Hl Hk. pose proof (lookup_lt_Some _ _ _ Hk) as Hlt. unfold byte_of, put_word.
  rewrite app_nth2 by (rewrite length_take; lia). rewrite length_take, Nat.min_l by lia.
  rewrite app_nth1 by lia. rewrite nth_lookup. replace (off + k - off)%nat with k by lia. by rewrite Hk.
Qed.
Lemma bytes_word v : u8 v + 2 ^ 8 * u8 (v / 2 ^ 8) + 2 ^ 16 * u8 (v / 2 ^ 16) + 2 ^ 24 * u8 (v / 2 ^ 24) = u32 v.
Proof.
  unfold u8, u32. change (2 ^ 8) with 256. change (2 ^ 16) with 65536. change (2 ^ 24) with 16777216. change (2 ^ 32) with 4294967296.
  Z.div_mod_to_equations. lia.
Qed.
Lemma i32_u32 v : i32 (u32 v) = i32 v.
Proof. unfold i32, u32. by rewrite Zplus_mod_idemp_l. Qed.
Lemma word_put_same off v bytes : (off + 4 <= length bytes)%nat -> word_at off (put_word off v bytes) = i32 v.
Proof.
  intros H. unfold word_at. rewrite <- (i32_u32 v), <- bytes_word. f_equal. rewrite <- (Nat.add_0_r off) at 1.
  by rewrite (byte_put_same off v bytes 0 (u8 v)), (byte_put_same off v bytes 1 (u8 (v / 2 ^ 8))), (byte_put_same off v bytes 2 (u8 (v / 2 ^ 16))),
    (byte_put_same off v bytes 3 (u8 (v / 2 ^ 24))).
Qed.
Lemma word_put_other off v bytes off' :
  (off + 4 <= length bytes)%nat -> (off' + 4 <= off \/ off + 4 <= off')%nat -> word_at off' (put_word off v bytes) = word_at off' bytes.
Proof. intros H Ho. unfold word_at. by rewrite !byte_put_other by lia. Qed.
Lemma words_length off n bytes : length (words_at off n bytes) = n.
Proof. unfold words_at. by rewrite length_map, length_seq. Qed.
Lemma words_lookup off n bytes i : (i < n)%nat -> words_at off n bytes !! i = Some (word_at (off + 4 * i) bytes).
Proof. intros H. unfold words_at. by rewrite list_lookup_fmap, lookup_seq_lt. Qed.
Lemma words_put_same off n i v bytes :
  (i < n)%nat -> (off + 4 * i + 4 <= length bytes)%nat -> words_at off n (put_word (off + 4 * i) v bytes) = <[i := i32 v]> (words_at off n bytes).
Proof.
  intros Hi Hl. apply list_eq_same_length with n; [by rewrite length_insert, words_length | by rewrite words_length|].
  intros j x y Hj Hx Hy. rewrite words_lookup in Hx by done. injection Hx as <-. destruct (decide (j = i)) as [->|Hne].
  - rewrite list_lookup_insert_eq in Hy by (by rewrite words_length). injection Hy as <-. by apply word_put_same.
  - rewrite list_lookup_insert_ne, words_lookup in Hy by done. injection Hy as <-. apply word_put_other; lia.
Qed.
Lemma words_put_other off n o v bytes :
  (o + 4 <= length bytes)%nat -> (off + 4 * n <= o \/ o + 4 <= off)%nat -> words_at off n (put_word o v bytes) = words_at off n bytes.
Proof.
  intros Hl Ho. apply list_eq_same_length with n; [by rewrite words_length.. |].
  intros j x y Hj Hx Hy. rewrite words_lookup in Hx, Hy by done. injection Hx as <-. injection Hy as <-. apply word_put_other; lia.
Qed.

(** ** Places *)
Definition array_of (p : place) (cap : CodecCompCapability) : list Z :=
  match p with SupportProfiles => supportProfiles cap | PortArray off n => words_at off n (port cap) end.
Definition place_length (p : place) : nat := match p with SupportProfiles => PROFILE_NUM | PortArray _ n => n end.
Definition place_there (p : place) : bool :=
  match p with SupportProfiles => true | PortArray off n => (off + 4 * n <=? Z.to_nat sizeof_PortCap)%nat end.
Definition apart (p q : place) : bool :=
  match p, q with
  | PortArray o n, PortArray o' n' => (o + 4 * n <=? o')%nat || (o' + 4 * n' <=? o)%nat
  | SupportProfiles, SupportProfiles => false
  | _, _ => true
  end.
(** A capability without its arrays. *)
Definition rest (cap : CodecCompCapability) : CodecCompCapability := set_port [] (set_supportProfiles [] cap).

(** Only the places in [ps] were written. *)
Record writes_only (ps : list place) (cap cap' : CodecCompCapability) : Prop := WritesOnly {
  wo_rest : rest cap' = rest cap;
  wo_wf : capability_wf cap -> capability_wf cap';
  wo_other : forall q, forallb (apart q) ps = true -> array_of q cap' = array_of q cap;
}.
Lemma writes_nothing ps cap : writes_only ps cap cap.
Proof. by split. Qed.
Lemma writes_then ps cap cap1 cap2 : writes_only ps cap cap1 -> writes_only ps cap1 cap2 -> writes_only ps cap cap2.
Proof. intros [A1 A2 A3] [B1 B2 B3]. split; [congruence | auto | intros q Hq; by rewrite B3, A3]. Qed.
Lemma writes_more ps qs cap cap' : ps ⊆ qs -> writes_only ps cap cap' -> writes_only qs cap cap'.
Proof.
  intros Hs [A1 A2 A3]. split; [done..|]. intros q Hq. apply A3. apply forallb_forall. intros p Hp.
  apply (proj1 (forallb_forall _ _) Hq). by apply list_elem_of_In, Hs, list_elem_of_In.
Qed.
Lemma writes_head p ps cap cap' : writes_only [p] cap cap' -> writes_only (p :: ps) cap cap'.
Proof. apply writes_more. set_solver. Qed.
Lemma writes_tail p ps cap cap' : writes_only ps cap cap' -> writes_only (p :: ps) cap cap'.
Proof. apply writes_more. set_solver. Qed.
Lemma array_length p cap : capability_wf cap -> length (array_of p cap) = place_length p.
Proof. intros (_ & _ & _ & _ & H & _). destruct p; [done | apply words_length]. Qed.
Lemma rest_fields cap cap' : rest cap' = rest cap ->
  cap_role cap' = cap_role cap /\ cap_type cap' = cap_type cap /\ compName cap' = compName cap /\ maxInst cap' = maxInst cap /\
  isSoftwareCodec cap' = isSoftwareCodec cap /\ processModeMask cap' = processModeMask cap /\ capsMask cap' = capsMask cap /\ bitRate cap' = bitRate cap.
Proof. destruct cap, cap'. unfold rest. cbn. by intros [= -> -> -> -> -> -> -> ->]. Qed.

Section parser.
Context {SB : Type} `{!Platform SB} `{!HdfStatus, !HdfStatusLaws} `{!CodecTarget, !CodecTargetLaws} {A : Type} {N : Type} `{!ResourceTree N, !ResourceLaws N} `{!FreshMemory}.
Implicit Types (w : World SB (CodecServer A)).

Lemma store_runs p i v cap w (Q : CodecCompCapability -> World SB (CodecServer A) -> Prop) :
  capability_wf cap -> place_there p = true -> (i < place_length p)%nat ->
  (forall cap', writes_only [p] cap cap' -> array_of p cap' = <[i := i32 v]> (array_of p cap) -> Q cap' w) -> wp (store p i v cap) Q w.
Proof.
  intros Hwf Hp Hi HQ. pose proof Hwf as (W1 & W2 & W3 & W4 & W5 & W6). destruct p as [|off n]; cbn in Hp, Hi; unfold store.
  - rewrite (proj2 (Nat.ltb_lt _ _)) by (rewrite W5; exact Hi). apply wp_ret, HQ; [|done]. split; [done | |].
    + intros _. do 4 (split; [done|]). split; [|done].
      change (length (<[i := i32 v]> (supportProfiles cap)) = PROFILE_NUM). by rewrite length_insert.
    + intros q Hq. cbn in Hq. by destruct q.
  - apply Nat.leb_le in Hp. rewrite (proj2 (Nat.ltb_lt _ _)), (proj2 (Nat.leb_le _ _)) by lia. cbn [andb]. apply wp_ret, HQ.
    + split; [done | |].
      * intros _. do 5 (split; [done|]).
        change (Z.of_nat (length (put_word (off + 4 * i) v (port cap))) = sizeof_PortCap). rewrite put_word_length; [done | lia].
      * intros q Hq. cbn in Hq. rewrite andb_true_r in Hq. destruct q as [|o m]; [done|]. cbn in Hq |- *. apply words_put_other; [lia|].
        apply orb_true_iff in Hq as [?%Nat.leb_le|?%Nat.leb_le]; lia.
    + cbn. apply words_put_same; lia.
Qed.
(** The values behind each other from the [i]-th cell on. *)
Lemma store_all_runs p i vs cap w (Q : CodecCompCapability -> World SB (CodecServer A) -> Prop) :
  capability_wf cap -> place_there p = true -> (i + length vs <= place_length p)%nat ->
  (forall cap', writes_only [p] cap cap' -> take (i + length vs) (array_of p cap') = take i (array_of p cap) ++ map i32 vs -> Q cap' w) ->
  wp (store_all p i vs cap) Q w.
Proof.
  intros Hwf Hp. revert i cap Hwf. induction vs as [|v vs IH]; intros i cap Hwf Hi HQ; cbn in *.
  - apply wp_ret, HQ; [apply writes_nothing|]. by rewrite Nat.add_0_r, app_nil_r.
  - apply wp_bind. eapply store_runs; [done | done | lia|]. intros cap1 Hw1 E1. apply IH; [by apply (wo_wf _ _ _ Hw1) | lia|].
    intros cap2 Hw2 E2. apply HQ; [by eapply writes_then|]. replace (i + S (length vs))%nat with (S i + length vs)%nat by lia. rewrite E2, E1.
    pose proof (array_length p cap Hwf). rewrite (insert_prefix _ _ _ (take i (array_of p cap))) by (done || lia). by rewrite <- app_assoc.
Qed.

(** ** Tables *)
Lemma until_prefix e l r : Forall (fun v => v <> e) l -> until e (l ++ e :: r) = l.
Proof.
  induction 1 as [|v l Hv _ IH]; cbn; [by rewrite Z.eqb_refl|]. by rewrite (proj2 (Z.eqb_neq _ _)), IH.
Qed.
(** The attribute [a] names a table of the place it is stored at. *)
Definition table_attr (a : ConfigUintArrayNodeAttr) : Prop :=
  place_there (array a) = true /\ aa_length a = Z.of_nat (place_length (array a)) /\ - 2 ^ 31 <= endValue a < 2 ^ 31.
Definition table_given (n : N) (a : ConfigUintArrayNodeAttr) (l : list Z) : Prop :=
  node_attr n (attrName a) = Some (AArray l) /\ table_ok (aa_length a) (endValue a) l.
Lemma GetUintTableConfig_runs n a cap w (Q : Z * CodecCompCapability -> World SB (CodecServer A) -> Prop) :
  capability_wf cap -> table_attr a ->
  (forall ret cap', writes_only [array a] cap cap' ->
     (forall l, table_given n a l -> ret = HDF_SUCCESS /\ until (endValue a) (array_of (array a) cap') = l) -> Q (ret, cap') w) ->
  wp (GetUintTableConfig n a cap) Q w.
Proof.
  intros Hwf (Hp & Hl & He) HQ. unfold GetUintTableConfig. cbv zeta. set (count := GetElemNum n (attrName a)).
  assert (forall l, table_given n a l -> count = Z.of_nat (length l) /\ GetUint32Array n (attrName a) count = l /\ Z.of_nat (length l) < aa_length a) as Hgiven.
  { intros l [Hg1 [Hg2 _]]. destruct (rl_array n _ l Hg1) as [E1 E2]. unfold count. by rewrite E1. }
  destruct ((count <? 0) || (aa_length a <=? count)) eqn:Ebad.
  { apply wp_ret, HQ; [apply writes_nothing|]. intros l Hg. destruct (Hgiven l Hg) as (-> & _ & Hlt).
    apply orb_true_iff in Ebad as [?%Z.ltb_lt|?%Z.leb_le]; lia. }
  apply orb_false_iff in Ebad as [Hc0%Z.ltb_ge Hc1%Z.leb_gt].
  assert (wp (if 0 <? count then store_all (array a) 0 (GetUint32Array n (attrName a) count) cap else mret cap) (fun cap1 w1 =>
      w1 = w /\ writes_only [array a] cap cap1 /\
      (forall l, table_given n a l -> take (length l) (array_of (array a) cap1) = map i32 l)) w) as Hstore.
  { destruct (Z.ltb_spec 0 count) as [Hpos|Hz].
    - pose proof (rl_fits n (attrName a) count Hc0). apply store_all_runs; [done..| lia|]. intros cap1 Hw1 E1. split; [done|]. split; [done|].
      intros l Hg. destruct (Hgiven l Hg) as (_ & E & _). by rewrite E in E1.
    - apply wp_ret. split; [done|]. split; [apply writes_nothing|]. intros l Hg. destruct (Hgiven l Hg) as (E & _ & _). by destruct l; [|cbn in E; lia]. }
  apply wp_bind. eapply wp_mono; [exact Hstore|]. intros cap1 w1 (-> & Hw1 & E1). pose proof (wo_wf _ _ _ Hw1 Hwf) as Hwf1.
  apply wp_bind. apply store_runs; [done | done | lia|]. intros cap2 Hw2 E2. apply wp_ret, HQ; [by eapply writes_then|].
  intros l Hg. split; [done|]. specialize (E1 l Hg). destruct (Hgiven l Hg) as (Ec & _ & Hlt). destruct Hg as (_ & _ & Hok).
  rewrite E2, Ec, Nat2Z.id, (i32_id (endValue a)) by done. pose proof (array_length (array a) cap1 Hwf1) as Hlen.
  rewrite insert_take_drop by lia. rewrite E1. replace (map i32 l) with l.
  - apply until_prefix. eapply Forall_impl; [exact Hok|]. by intros v [_ ?].
  - symmetry. rewrite <- (map_id l) at 2. apply map_ext_in. intros v Hv%list_elem_of_In. apply (proj1 (Forall_forall _ _) Hok) in Hv as [[? ?] _].
    apply i32_id. lia.
Qed.

(** ** Masks *)

(** Memory was taken and given back. *)
Record aged (w w' : World SB (CodecServer A)) : Prop := Aged {
  ag_sbufs : w_sbufs w' = w_sbufs w;
  ag_live : w_live w' = w_live w;
  ag_svc : w_svc w' = w_svc w;
  ag_next : (w_next w <= w_next w')%nat;
}.
Lemma aged_refl w : aged w w.
Proof. by split. Qed.
Lemma aged_trans w1 w2 w3 : aged w1 w2 -> aged w2 w3 -> aged w1 w3.
Proof. intros [A1 A2 A3 A4] [B1 B2 B3 B4]. split; [congruence..| lia]. Qed.
Lemma aged_bounded w w' : aged w w' -> bounded (w_live w) (w_next w) -> bounded (w_live w') (w_next w').
Proof. intros [_ -> _ Hn] Hb k Hk. specialize (Hb k Hk). lia. Qed.
Definition mask_given (n : N) (name : string) (l : list Z) : Prop := node_attr n name = Some (AArray l) /\ mask_ok l.
Lemma GetMaskedConfig_runs n name w (Q : Z * Z -> World SB (CodecServer A) -> Prop) :
  bounded (w_live w) (w_next w) ->
  (forall ret m w', aged w w' -> (reliable SB -> forall l, mask_given n name l -> ret = HDF_SUCCESS /\ m = fold_left Z.lor l 0) -> Q (ret, m) w') ->
  wp (GetMaskedConfig n name) Q w.
Proof.
  intros Hb HQ. unfold GetMaskedConfig. cbv zeta. set (count := GetElemNum n name).
  assert (forall l, mask_given n name l -> count = Z.of_nat (length l) /\ GetUint32Array n name count = l /\ Z.of_nat (length l) <= MASK_NUM_LIMIT) as Hgiven.
  { intros l [Hg1 Hg2]. destruct (rl_array n _ l Hg1) as [E1 E2]. unfold count. by rewrite E1. }
  destruct ((count <? 0) || (MASK_NUM_LIMIT <? count)) eqn:Ebad.
  { apply wp_ret, HQ; [apply aged_refl|]. intros _ l Hg. destruct (Hgiven l Hg) as (-> & _ & Hlt).
    apply orb_true_iff in Ebad as [?%Z.ltb_lt|?%Z.ltb_lt]; lia. }
  apply orb_false_iff in Ebad as [Hc0%Z.ltb_ge _]. destruct (Z.ltb_spec 0 count) as [Hpos|Hz].
  - apply wp_bind. unfold wp at 1, OsalMemAlloc. destruct (alloc_ok (w_next w) (4 * count)) eqn:Eok.
    + apply wp_bind. unfold wp at 1, OsalMemFree. cbn [w_live]. rewrite decide_True by set_solver. apply wp_ret, HQ.
      * assert (w_next w ∉ w_live w) by (intros Hk; specialize (Hb _ Hk); lia). split; cbn; [done | set_solver | done | lia].
      * intros _ l Hg. split; [done|]. destruct (Hgiven l Hg) as (Ec & -> & _). rewrite Ec, Nat2Z.id, Nat.sub_diag. cbn. by rewrite app_nil_r.
    + apply wp_ret, HQ; [split; cbn; done || lia|]. intros (_ & Hr & _) l Hg. by rewrite Hr in Eok by lia.
  - apply wp_ret, HQ; [apply aged_refl|]. intros _ l Hg. split; [done|]. destruct (Hgiven l Hg) as (Ec & _ & _). by destruct l; [|cbn in Ec; lia].
Qed.

(** ** Several attributes *)
Definition number_place (a : ConfigUintNodeAttr) : place := PortArray (valueAddr a) 1.
Fixpoint spaced (ps : list place) : bool := match ps with [] => true | p :: ps => forallb (apart p) ps && spaced ps end.
Definition number_given (n : N) (a : ConfigUintNodeAttr) (v : Z) : Prop := node_attr n (na_attrName a) = Some (ANumber v) /\ number_ok v.

Lemma numbers_stay ps cap cap' attrs :
  writes_only ps cap cap' -> forallb (fun a => forallb (apart (number_place a)) ps) attrs = true ->
  map (fun a => word_at (valueAddr a) (port cap')) attrs = map (fun a => word_at (valueAddr a) (port cap)) attrs.
Proof.
  intros Hw. induction attrs as [|a attrs IH]; [done|]. intros [Ha Hs]%andb_true_iff. cbn. f_equal; [|by apply IH].
  pose proof (wo_other _ _ _ Hw (number_place a) Ha) as Eo. cbn in Eo. rewrite Nat.add_0_r in Eo. by injection Eo.
Qed.

Lemma get_numbers_runs n attrs cap w (Q : Z * CodecCompCapability -> World SB (CodecServer A) -> Prop) :
  capability_wf cap -> Forall (fun a => place_there (number_place a) = true) attrs -> spaced (map number_place attrs) = true ->
  (forall ret cap', writes_only (map number_place attrs) cap cap' ->
     (forall vs, Forall2 (number_given n) attrs vs -> ret = HDF_SUCCESS /\ map (fun a => word_at (valueAddr a) (port cap')) attrs = vs) ->
     Q (ret, cap') w) ->
  wp (get_numbers n attrs cap) Q w.
Proof.
  intros Hwf Hp. revert cap Hwf Q. induction Hp as [|a attrs Ha _ IH]; intros cap Hwf Q Hs HQ; cbn in Hs; cbn [get_numbers get_tables].
  { apply wp_ret, HQ; [apply writes_nothing|]. intros vs Hv. by inversion Hv. }
  apply andb_true_iff in Hs as [Hapart Hs]. destruct (GetUint32 n (na_attrName a) (defaultValue a)) as [ret v] eqn:Eu.
  apply wp_bind. eapply store_runs; [done | exact Ha | cbn; lia |]. intros cap1 Hw1 E1.
  assert (writes_only (map number_place (a :: attrs)) cap cap1) as Hw1' by (by apply writes_head).
  assert (forall v', number_given n a v' -> ret = HDF_SUCCESS /\ i32 v = v') as Hgiven.
  { intros v' [Hg [? ?]]. rewrite (rl_number n _ v' _ Hg) in Eu. injection Eu as <- <-. split; [done|]. apply i32_id. lia. }
  destruct (Z.eqb_spec ret HDF_SUCCESS) as [->|Hne]; cbn [negb].
  - apply IH; [by apply (wo_wf _ _ _ Hw1) | done |]. intros ret cap2 Hw2 E2. apply HQ.
    + eapply writes_then; [exact Hw1'|]. by apply writes_tail.
    + intros vs Hv. inversion Hv as [|? v' ? vs' Hv1 Hv2]; subst. destruct (E2 vs' Hv2) as [-> <-]. split; [done|]. cbn. f_equal.
      destruct (Hgiven v' Hv1) as [_ <-]. pose proof (wo_other _ _ _ Hw2 (number_place a) Hapart) as Eo.
      unfold number_place in Eo. rewrite E1 in Eo. cbn in Eo. rewrite Nat.add_0_r in Eo. by injection Eo.
  - apply wp_ret, HQ; [done|]. intros vs Hv. inversion Hv as [|? v' ? vs' Hv1 Hv2]; subst. by destruct (Hgiven v' Hv1) as [-> _].
Qed.

Lemma get_tables_runs n attrs cap w (Q : Z * CodecCompCapability -> World SB (CodecServer A) -> Prop) :
  capability_wf cap -> Forall table_attr attrs -> spaced (map array attrs) = true ->
  (forall ret cap', writes_only (map array attrs) cap cap' ->
     (forall ls, Forall2 (table_given n) attrs ls -> ret = HDF_SUCCESS /\ map (fun a => until (endValue a) (array_of (array a) cap')) attrs = ls) ->
     Q (ret, cap') w) ->
  wp (get_tables n attrs cap) Q w.
Proof.
  intros Hwf Hp. revert cap Hwf Q. induction Hp as [|a attrs Ha _ IH]; intros cap Hwf Q Hs HQ; cbn in Hs; cbn [get_numbers get_tables].
  { apply wp_ret, HQ; [apply writes_nothing|]. intros vs Hv. by inversion Hv. }
  apply andb_true_iff in Hs as [Hapart Hs]. apply wp_bind. apply GetUintTableConfig_runs; [done..|]. intros ret cap1 Hw1 E1.
  assert (writes_only (map array (a :: attrs)) cap cap1) as Hw1' by (by apply writes_head).
  destruct (Z.eqb_spec ret HDF_SUCCESS) as [->|Hne]; cbn [negb].
  - apply IH; [by apply (wo_wf _ _ _ Hw1) | done |]. intros ret cap2 Hw2 E2. apply HQ.
    + eapply writes_then; [exact Hw1'|]. by apply writes_tail.
    + intros ls Hv. inversion Hv as [|? l ? ls' Hv1 Hv2]; subst. destruct (E2 ls' Hv2) as [-> <-]. split; [done|]. cbn. f_equal.
      rewrite (wo_other _ _ _ Hw2 (array a) Hapart). by apply E1.
  - apply wp_ret, HQ; [done|]. intros ls Hv. inversion Hv as [|? l ? ls' Hv1 Hv2]; subst. by destruct (E1 l Hv1) as [-> _].
Qed.

(** ** The port *)
Definition port_only (cap cap' : CodecCompCapability) : Prop :=
  rest cap' = rest cap /\ supportProfiles cap' = supportProfiles cap /\ (capability_wf cap -> capability_wf cap').
Lemma port_writes ps cap cap' : writes_only ps cap cap' -> forallb (apart SupportProfiles) ps = true -> port_only cap cap'.
Proof. intros [A1 A2 A3] Hs. split; [done|]. split; [|done]. exact (A3 SupportProfiles Hs). Qed.
Definition attrs_given (n : N) (l : list (string * attr)) : Prop := Forall (fun '(k, a) => node_attr n k = Some a) l.

Lemma GetVideoPortCapability_runs n cap w (Q : Z * CodecCompCapability -> World SB (CodecServer A) -> Prop) :
  capability_wf cap ->
  (forall ret cap', port_only cap cap' ->
     (forall v, attrs_given n (port_attrs (inl v)) -> port_ok true (inl v) -> ret = HDF_SUCCESS /\ read_video (port cap') = v) -> Q (ret, cap') w) ->
  wp (GetVideoPortCapability n cap) Q w.
Proof.
  intros Hwf HQ. unfold GetVideoPortCapability. apply wp_bind. apply get_numbers_runs; [done | by repeat constructor | done |].
  intros ret cap1 Hw1 E1.
  assert (forall v, attrs_given n (port_attrs (inl v)) -> port_ok true (inl v) -> Forall2 (number_given n) video_numbers (video_values v)) as Hnums.
  { intros v Ha (_ & Hv & _). apply Forall_app in Ha as [Ha _]. apply Forall2_same_length_lookup_2; [done|].
    intros i a z Hi Hz. split; [|exact (proj1 (Forall_lookup _ _) Hv i z Hz)].
    refine (proj1 (Forall_lookup _ _) Ha i (_, _) _). by rewrite lookup_zip_with, Hi; cbn; rewrite Hz. }
  destruct (Z.eqb_spec ret HDF_SUCCESS) as [->|Hne]; cbn [negb].
  - pose proof (wo_wf _ _ _ Hw1 Hwf). apply wp_bind. apply GetUintTableConfig_runs; [done | by split; [|split; [|apply ct_unused]] |].
    intros ret cap2 Hw2 E2.
    assert (port_only cap cap2) as Hpo.
    { apply (port_writes (array pixel_formats :: map number_place video_numbers)); [|done].
      eapply writes_then; [apply writes_tail, Hw1 | apply writes_head, Hw2]. }
    assert (forall v, attrs_given n (port_attrs (inl v)) -> port_ok true (inl v) -> ret = HDF_SUCCESS /\ read_video (port cap2) = v) as Hread.
    { intros v Ha Hok. destruct (E1 _ (Hnums v Ha Hok)) as [_ En].
      destruct (E2 (supportPixFmts v)) as [-> Et]. { apply Forall_app in Ha as [_ [Ha _]%Forall_cons]. by split; [|apply Hok]. } split; [done|].
      assert (map (fun a => word_at (valueAddr a) (port cap2)) video_numbers = video_values v) as En2.
      { rewrite <- En. by apply (numbers_stay _ _ _ _ Hw2). }
      destruct v as [[] [] [] [] [] [] fmts]. cbn in En2.
      change (until OMX_COLOR_FormatUnused (words_at 48 PIX_FORMAT_NUM (port cap2)) = fmts) in Et. injection En2 as <- <- <- <- <- <- <- <- <- <- <- <-. unfold read_video. by rewrite Et. }
    destruct (Z.eqb_spec ret HDF_SUCCESS) as [->|Hne]; cbn [negb]; apply wp_ret, HQ; [done.. |].
    intros v Ha Hok. by destruct (Hread v Ha Hok).
  - apply wp_ret, HQ; [by eapply port_writes|]. intros v Ha Hok. by destruct (E1 _ (Hnums v Ha Hok)).
Qed.

Lemma GetAudioPortCapability_runs n cap w (Q : Z * CodecCompCapability -> World SB (CodecServer A) -> Prop) :
  capability_wf cap ->
  (forall ret cap', port_only cap cap' ->
     (forall v, attrs_given n (port_attrs (inr v)) -> port_ok false (inr v) -> ret = HDF_SUCCESS /\ read_audio (port cap') = v) -> Q (ret, cap') w) ->
  wp (GetAudioPortCapability n cap) Q w.
Proof.
  intros Hwf HQ. apply get_tables_runs; [done | by repeat constructor | done |].
  intros ret cap1 Hw1 E1. apply HQ; [by eapply port_writes|]. intros v Ha [_ Hok]. destruct (E1 (audio_values v)) as [-> Er].
  - apply Forall2_same_length_lookup_2; [done|]. intros i a l Hi Hl. split; [|exact (Forall2_lookup_lr _ _ _ _ _ _ Hok Hi Hl)].
    refine (proj1 (Forall_lookup _ _) Ha i (_, _) _). unfold port_attrs. by rewrite lookup_zip_with, Hi; cbn; rewrite Hl.
  - split; [done|]. destruct v. cbn in Er. injection Er as <- <- <- <-. done.
Qed.
End parser.
