(* ===== verification/CodecCapsLoad.v ===== *)
(** * CodecCapsLoad: reading a whole capability

    [GetOneCapability]: whatever the node holds it is defined, gives its memory
    back and leaves a well-formed capability, marked when it is discarded; and
    when the node describes a capability, it reads that one. *)
From S2P Require Import Prelude Hdf CodecTypes CodecService CodecCaps CodecCapsSpec CodecCapsFacts.
Open Scope Z_scope.

Section parser.
Context {SB : Type} `{!Platform SB} `{!HdfStatus, !HdfStatusLaws} `{!CodecTarget, !CodecTargetLaws} {A : Type} {N : Type} `{!ResourceTree N, !ResourceLaws N} `{!FreshMemory}.
Implicit Types (w : World SB (CodecServer A)).

Lemma wp_checked {B} ret (b : B) k (Q : B -> World SB (CodecServer A) -> Prop) w :
  (ret <> HDF_SUCCESS -> Q b w) -> (ret = HDF_SUCCESS -> wp k Q w) -> wp (if negb (ret =? HDF_SUCCESS) then mret b else k) Q w.
Proof. intros Hne Heq. destruct (Z.eqb_spec ret HDF_SUCCESS); [by apply Heq | by apply wp_ret, Hne]. Qed.

(** The attributes of a description, one by one. *)
Lemma attrs_split n d :
  attrs_given n (attrs_of d) ->
  (node_attr n CODEC_CONFIG_KEY_ROLE = Some (ANumber (d_role d)) /\ node_attr n CODEC_CONFIG_KEY_TYPE = Some (ANumber (d_type d)) /\
   node_attr n CODEC_CONFIG_KEY_NAME = Some (AString (d_name d))) /\
  (node_attr n CODEC_CONFIG_KEY_SUPPORT_PROFILES = Some (AArray (d_profiles d)) /\
   node_attr n CODEC_CONFIG_KEY_MAX_INST = Some (ANumber (d_maxInst d)) /\
   node_attr n CODEC_CONFIG_KEY_PROCESS_MODE_MASK = Some (AArray (d_modes d)) /\ node_attr n CODEC_CONFIG_KEY_CAPS_MASK = Some (AArray (d_caps d)) /\
   node_attr n CODEC_CONFIG_KEY_MIN_BITRATE = Some (ANumber (rv_min (d_bitRate d))) /\
   node_attr n CODEC_CONFIG_KEY_MAX_BITRATE = Some (ANumber (rv_max (d_bitRate d)))) /\
  attrs_given n (port_attrs (d_port d)).
Proof. intros [Ha Hp]%Forall_app. repeat apply Forall_cons in Ha as [? Ha]. done. Qed.

(** ** The attributes of every capability *)
Record misc_means (d : description) (cap : CodecCompCapability) : Prop := MiscMeans {
  mm_profiles : until INVALID_PROFILE (supportProfiles cap) = d_profiles d;
  mm_maxInst : maxInst cap = d_maxInst d;
  mm_modes : processModeMask cap = i32 (fold_left Z.lor (d_modes d) 0);
  mm_caps : capsMask cap = fold_left Z.lor (d_caps d) 0;
  mm_bitRate : bitRate cap = d_bitRate d;
}.
Definition same_head (cap cap' : CodecCompCapability) : Prop :=
  cap_role cap' = cap_role cap /\ cap_type cap' = cap_type cap /\ compName cap' = compName cap /\ isSoftwareCodec cap' = isSoftwareCodec cap.

(** A number the description gives. *)
Lemma number_read n k v v' ret d :
  node_attr n k = Some (ANumber v) -> number_ok v -> GetUint32 n k d = (ret, v') -> ret = HDF_SUCCESS /\ i32 v' = v.
Proof. intros Hn [? ?] E. rewrite (rl_number n k v d Hn) in E. injection E as <- <-. split; [done|]. apply i32_id. lia. Qed.

Lemma GetMiscOfCapability_runs n cap w (Q : Z * CodecCompCapability -> World SB (CodecServer A) -> Prop) :
  capability_wf cap -> bounded (w_live w) (w_next w) ->
  (forall ret cap' w', aged w w' -> capability_wf cap' -> same_head cap cap' ->
     (reliable SB -> forall d video, attrs_given n (attrs_of d) -> valid video d -> ret = HDF_SUCCESS /\ misc_means d cap') -> Q (ret, cap') w') ->
  wp (GetMiscOfCapability n cap) Q w.
Proof.
  intros Hwf Hb HQ. unfold GetMiscOfCapability. apply wp_bind. apply GetUintTableConfig_runs; [done | by repeat split |].
  intros ret1 cap1 Hw1 E1. pose proof (wo_wf _ _ _ Hw1 Hwf) as Hwf1. destruct (rest_fields _ _ (wo_rest _ _ _ Hw1)) as (R1 & R2 & R3 & _ & R4 & _).
  assert (same_head cap cap1) as Hh by done.
  apply wp_checked.
  { intros Hf. apply HQ; [apply aged_refl | done | done |]. intros _ d video (_ & (Hp & _) & _)%attrs_split Hv.
    by destruct (E1 (d_profiles d) (conj Hp (va_profiles _ _ Hv))). }
  intros _. destruct (GetUint32 n CODEC_CONFIG_KEY_MAX_INST 0) as [ret2 v2] eqn:E2. apply wp_checked.
  { intros Hf. apply HQ; [apply aged_refl | done | done |]. intros _ d video (_ & (_ & Hp & _) & _)%attrs_split Hv.
    by destruct (number_read _ _ _ _ _ _ Hp (va_maxInst _ _ Hv) E2). }
  intros _. apply wp_bind. apply GetMaskedConfig_runs; [done|]. intros ret3 m3 w3 Hw3 E3. apply wp_checked.
  { intros Hf. apply HQ; [done.. |]. intros Hr d video (_ & (_ & _ & Hp & _) & _)%attrs_split Hv. by destruct (E3 Hr _ (conj Hp (va_modes _ _ Hv))). }
  intros _. apply wp_bind. apply GetMaskedConfig_runs; [by apply aged_bounded with w|]. intros ret4 m4 w4 Hw4 E4. pose proof (aged_trans _ _ _ Hw3 Hw4) as Hag.
  apply wp_checked.
  { intros Hf. apply HQ; [done.. |]. intros Hr d video (_ & (_ & _ & _ & Hp & _) & _)%attrs_split Hv. by destruct (E4 Hr _ (conj Hp (va_caps _ _ Hv))). }
  intros _. destruct (GetUint32 n CODEC_CONFIG_KEY_MIN_BITRATE 0) as [ret5 v5] eqn:E5. apply wp_checked.
  { intros Hf. apply HQ; [done.. |]. intros _ d video (_ & (_ & _ & _ & _ & Hp & _) & _)%attrs_split Hv.
    by destruct (number_read _ _ _ _ _ _ Hp (proj1 (va_bitRate _ _ Hv)) E5). }
  intros _. destruct (GetUint32 n CODEC_CONFIG_KEY_MAX_BITRATE 0) as [ret6 v6] eqn:E6. apply wp_checked.
  { intros Hf. apply HQ; [done.. |]. intros _ d video (_ & (_ & _ & _ & _ & _ & Hp) & _)%attrs_split Hv.
    by destruct (number_read _ _ _ _ _ _ Hp (proj2 (va_bitRate _ _ Hv)) E6). }
  intros _. apply wp_ret, HQ; [done.. |]. intros Hr d video (_ & (P1 & P2 & P3 & P4 & P5 & P6) & _)%attrs_split Hv. split; [done|].
  destruct (va_bitRate _ _ Hv) as [B1 B2]. split; cbn.
  - exact (proj2 (E1 _ (conj P1 (va_profiles _ _ Hv)))).
  - exact (proj2 (number_read _ _ _ _ _ _ P2 (va_maxInst _ _ Hv) E2)).
  - by rewrite (proj2 (E3 Hr _ (conj P3 (va_modes _ _ Hv)))).
  - exact (proj2 (E4 Hr _ (conj P4 (va_caps _ _ Hv)))).
  - rewrite (proj2 (number_read _ _ _ _ _ _ P5 B1 E5)), (proj2 (number_read _ _ _ _ _ _ P6 B2 E6)). by destruct (d_bitRate d).
Qed.

(** ** The name *)
Lemma name_copied dest name :
  (length name < NAME_LENGTH)%nat -> length dest = NAME_LENGTH -> Forall (fun c => 0 <= c < 2 ^ 8) dest -> Forall (fun c => 0 < c < 2 ^ 8) name ->
  exists dest', strcpy_s dest NAME_LENGTH name = (0, dest') /\ length dest' = NAME_LENGTH /\ Forall (fun c => 0 <= c < 2 ^ 8) dest' /\ until 0 dest' = name.
Proof.
  intros Hn Hl Hd Hc. exists (name ++ [0] ++ drop (S (length name)) dest). unfold strcpy_s. rewrite (proj2 (Nat.ltb_lt _ _) Hn). split; [done|].
  split; [rewrite !length_app, length_drop; cbn; lia|]. split.
  - apply Forall_app. split; [eapply Forall_impl; [exact Hc|]; cbn; lia|]. constructor; [lia|]. by apply Forall_drop.
  - apply until_prefix. eapply Forall_impl; [exact Hc|]. cbn. lia.
Qed.

(** ** One capability *)
Definition port_means (d : description) (cap : CodecCompCapability) : Prop :=
  match d_port d with inl v => read_video (port cap) = v | inr a => read_audio (port cap) = a end.
Lemma port_runs n cap (video : bool) w (Q : Z * CodecCompCapability -> World SB (CodecServer A) -> Prop) :
  capability_wf cap ->
  (forall ret cap', port_only cap cap' ->
     (forall d, attrs_given n (port_attrs (d_port d)) -> valid video d -> ret = HDF_SUCCESS /\ port_means d cap') -> Q (ret, cap') w) ->
  wp (if video then GetVideoPortCapability n cap else GetAudioPortCapability n cap) Q w.
Proof.
  intros Hwf HQ. destruct video.
  - apply GetVideoPortCapability_runs; [done|]. intros ret cap' Hp Hr. apply HQ; [done|]. intros d Ha Hv. pose proof (va_port _ _ Hv) as Hok.
    unfold port_means. destruct (d_port d) as [v|a]; [by apply Hr | by destruct Hok].
  - apply GetAudioPortCapability_runs; [done|]. intros ret cap' Hp Hr. apply HQ; [done|]. intros d Ha Hv. pose proof (va_port _ _ Hv) as Hok.
    unfold port_means. destruct (d_port d) as [v|a]; [by destruct Hok | by apply Hr].
Qed.

(** What [GetOneCapability] leaves: a failure marks the capability. *)
Record one_read (n : N) (video : bool) (ret : Z) (cap : CodecCompCapability) : Prop := OneRead {
  or_wf : capability_wf cap;
  or_status : ret = HDF_SUCCESS \/ ret = HDF_FAILURE /\ cap_role cap = MEDIA_ROLETYPE_INVALID;
  or_means : reliable SB -> forall d, describes n d -> valid video d -> ret = HDF_SUCCESS /\ means d cap;
}.
Lemma capability_wf_role v cap : 0 <= v < 2 ^ 32 -> capability_wf cap -> capability_wf (set_cap_role v cap).
Proof. intros Hv (_ & Hwf). exact (conj Hv Hwf). Qed.
Lemma capability_wf_type v cap : 0 <= v < 2 ^ 32 -> capability_wf cap -> capability_wf (set_cap_type v cap).
Proof. intros Hv (Hr & _ & Hwf). exact (conj Hr (conj Hv Hwf)). Qed.
Lemma marked n video ret cap :
  capability_wf cap -> ret = HDF_FAILURE -> (reliable SB -> forall d, describes n d -> valid video d -> False) ->
  one_read n video ret (set_cap_role MEDIA_ROLETYPE_INVALID cap).
Proof. intros Hwf -> Hno. split; [by apply capability_wf_role | by right | intros Hr d Hd Hv; by destruct (Hno Hr d Hd Hv)]. Qed.

(** The end: what every capability has, and the port. *)
Definition head_means (d : description) (cap : CodecCompCapability) : Prop :=
  cap_role cap = d_role d /\ cap_type cap = d_type d /\ until 0 (compName cap) = d_name d /\ isSoftwareCodec cap = d_software d.
Lemma tail_runs n cap (video : bool) w (Q : Z * CodecCompCapability -> World SB (CodecServer A) -> Prop) :
  capability_wf cap -> bounded (w_live w) (w_next w) -> (forall d, describes n d -> valid video d -> head_means d cap) ->
  (forall ret cap' w', aged w w' -> one_read n video ret cap' -> Q (ret, cap') w') ->
  wp ('(ret, cap) ← GetMiscOfCapability n cap;
      if negb (ret =? HDF_SUCCESS) then mret (HDF_FAILURE, set_cap_role MEDIA_ROLETYPE_INVALID cap)
      else
        '(ret, cap) ← (if video then GetVideoPortCapability n cap else GetAudioPortCapability n cap);
        if negb (ret =? HDF_SUCCESS) then mret (HDF_FAILURE, set_cap_role MEDIA_ROLETYPE_INVALID cap)
        else mret (HDF_SUCCESS, cap)) Q w.
Proof.
  intros Hwf Hb Hhead HQ.
  apply wp_bind. apply GetMiscOfCapability_runs; [done | done |]. intros ret1 cap1 w1 Hw1 Hwf1 (S1 & S2 & S3 & S4) Hmisc. apply wp_checked.
  { intros Hf. apply HQ, marked; [done.. |]. intros Hr d [Ha _] Hv. by destruct (Hmisc Hr d video Ha Hv). }
  intros _. apply wp_bind. apply port_runs; [done|]. intros ret2 cap2 (R1 & R2 & R3) Hport. specialize (R3 Hwf1). apply wp_checked.
  { intros Hf. apply HQ, marked; [done.. |]. intros Hr d [Ha _] Hv. destruct (Hport d) as [? _]; [by apply attrs_split | done | done]. }
  intros _. apply wp_ret, HQ; [done|]. split; [done | by left |]. intros Hr d Hd Hv. split; [done|].
  destruct (Hhead d Hd Hv) as (T1 & T2 & T3 & T4). destruct Hd as [Ha _]. destruct (Hmisc Hr d video Ha Hv) as [_ [M1 M2 M3 M4 M5]].
  destruct (rest_fields _ _ R1) as (F1 & F2 & F3 & F4 & F5 & F6 & F7 & F8). pose proof (attrs_split _ _ Ha) as (_ & _ & Pp).
  split; rewrite ?F1, ?F2, ?F3, ?F4, ?F5, ?F6, ?F7, ?F8, ?R2, ?S1, ?S2, ?S3, ?S4; try done. exact (proj2 (Hport d Pp Hv)).
Qed.

Lemma GetOneCapability_runs n cap video w (Q : Z * CodecCompCapability -> World SB (CodecServer A) -> Prop) :
  capability_wf cap -> bounded (w_live w) (w_next w) ->
  (forall ret cap' w', aged w w' -> one_read n video ret cap' -> Q (ret, cap') w') ->
  wp (GetOneCapability n cap video) Q w.
Proof.
  intros Hwf Hb HQ. unfold GetOneCapability.
  destruct (GetUint32 n CODEC_CONFIG_KEY_ROLE MEDIA_ROLETYPE_INVALID) as [ret1 v1] eqn:E1.
  assert (0 <= v1 < 2 ^ 32) as Hv1.
  { pose proof (rl_word n CODEC_CONFIG_KEY_ROLE MEDIA_ROLETYPE_INVALID) as Hw. rewrite E1 in Hw. apply Hw. done. }
  pose proof (capability_wf_role v1 cap Hv1 Hwf) as Hwf1. apply wp_checked.
  { intros Hf. apply HQ, marked; [apply aged_refl | done | done |]. intros _ d [((Hp & _) & _)%attrs_split _] Hv.
    rewrite (rl_number _ _ _ _ Hp) in E1. by injection E1 as <- _. }
  intros _. destruct (GetUint32 n CODEC_CONFIG_KEY_TYPE INVALID_TYPE) as [ret2 v2] eqn:E2.
  assert (0 <= v2 < 2 ^ 32) as Hv2.
  { pose proof (rl_word n CODEC_CONFIG_KEY_TYPE INVALID_TYPE) as Hw. rewrite E2 in Hw. apply Hw. done. }
  pose proof (capability_wf_type v2 _ Hv2 Hwf1) as Hwf2. apply wp_checked.
  { intros Hf. apply HQ; [apply aged_refl|].
    change (set_cap_type INVALID_TYPE _) with (set_cap_role MEDIA_ROLETYPE_INVALID (set_cap_type INVALID_TYPE (set_cap_role v1 cap))).
    apply marked; [by apply capability_wf_type | done |]. intros _ d [((_ & Hp & _) & _)%attrs_split _] Hv.
    rewrite (rl_number _ _ _ _ Hp) in E2. by injection E2 as <- _. }
  intros _. set (cap2 := set_cap_type v2 (set_cap_role v1 cap)) in *.
  destruct (GetString n CODEC_CONFIG_KEY_NAME []) as [ret3 name] eqn:E3.
  assert (forall d, describes n d -> ret3 = HDF_SUCCESS /\ name = Some (d_name d)) as Hname.
  { intros d [((_ & _ & Hp) & _)%attrs_split _]. rewrite (rl_string _ _ _ _ Hp) in E3. by injection E3 as <- <-. }
  apply wp_checked.
  { intros Hf. apply HQ, marked; [apply aged_refl | done | done |]. intros _ d Hd _. by destruct (Hname d Hd). }
  intros _. destruct name as [name|].
  2: { apply wp_ret, HQ, marked; [apply aged_refl | done | done |]. intros _ d Hd _. by destruct (Hname d Hd). }
  destruct ((NAME_LENGTH <=? length name)%nat || (length name =? 0)%nat) eqn:El.
  { apply wp_ret, HQ, marked; [apply aged_refl | done | done |]. intros _ d Hd Hv. destruct (Hname d Hd) as [_ [= ->]]. destruct (va_name _ _ Hv) as [Hn _].
    apply orb_true_iff in El as [?%Nat.leb_le|?%Nat.eqb_eq]; lia. }
  apply orb_false_iff in El as [Hl%Nat.leb_gt _]. pose proof Hwf2 as (W1 & W2 & W3 & W4 & W5).
  destruct (name_copied (compName cap2) name Hl W3 W4 (rl_chars _ _ _ _ E3)) as (dest & -> & D1 & D2 & D3). cbn [negb Z.eqb].
  match goal with |- context [set_isSoftwareCodec ?b ?c] => set (cap3 := set_isSoftwareCodec b c) end.
  assert (capability_wf cap3) as Hwf3 by exact (conj W1 (conj W2 (conj D1 (conj D2 W5)))).
  apply tail_runs; [done | done | | done]. intros d Hd Hv. destruct (Hname d Hd) as [_ [= ->]]. destruct Hd as [((P1 & P2 & _) & _)%attrs_split Hsw].
  rewrite (rl_number _ _ _ _ P1) in E1. injection E1 as <- <-. rewrite (rl_number _ _ _ _ P2) in E2. by injection E2 as <- <-.
Qed.

(** A node without a name leaves all of the entry but the role and the type. *)
Lemma GetOneCapability_nameless n cap video type w :
  nameless n type -> GetOneCapability n cap video w = Some ((HDF_FAILURE, stale_entry type cap), w).
Proof.
  intros ([role Hrole] & Htype & Hname). unfold GetOneCapability.
  rewrite (rl_number _ _ _ _ Hrole), (rl_number _ _ _ _ Htype), Z.eqb_refl. cbn [negb].
  pose proof (rl_no_string n CODEC_CONFIG_KEY_NAME [] Hname) as Hf. destruct (GetString n CODEC_CONFIG_KEY_NAME []) as [ret s]. cbn in Hf.
  by rewrite (proj2 (Z.eqb_neq _ _) Hf).
Qed.
Lemma GetOneCapability_reads n cap video w (Q : Z * CodecCompCapability -> World SB (CodecServer A) -> Prop) :
  capability_wf cap -> bounded (w_live w) (w_next w) ->
  (forall ret cap' w', aged w w' -> one_read n video ret cap' -> (forall type, nameless n type -> cap' = stale_entry type cap) -> Q (ret, cap') w') ->
  wp (GetOneCapability n cap video) Q w.
Proof.
  intros Hwf Hb HQ.
  assert (wp (GetOneCapability n cap video) (fun p w' => aged w w' /\ one_read n video p.1 p.2) w) as Hwp by by apply GetOneCapability_runs.
  apply wp_inv in Hwp as ([ret cap'] & w' & Hrun & Hw & Hone). unfold wp. rewrite Hrun. apply HQ; [done..|].
  intros type Hn. rewrite (GetOneCapability_nameless _ _ _ _ _ Hn) in Hrun. by injection Hrun.
Qed.
End parser.
