(* ===== verification/CodecCapsTable.v ===== *)
(** * CodecCapsTable: loading and clearing the capability table

    The invariant of the table and of its memory, and what the loops of
    [LoadCodecCapabilityFromHcs] and [ClearCapabilityGroup] do to it. *)
From S2P Require Import Prelude Hdf Rpc CodecTypes CodecService CodecCaps CodecCapsSpec CodecCapsFacts CodecCapsLoad.
Open Scope Z_scope.

(** ** Groups *)
#[export] Instance group_id_eq_dec : EqDecision group_id.
Proof. solve_decision. Defined.
Lemma all_groups g : g ∈ codecCapGroups.
Proof. destruct g; cbn; set_solver. Qed.
Lemma groups_nodup : NoDup codecCapGroups.
Proof. by apply (bool_decide_unpack _). Qed.
Lemma group_of_set g g' v c : group_of g' (set_group g v c) = if decide (g' = g) then v else group_of g' c.
Proof. by destruct g, g'. Qed.
Lemma inited_set g v c : inited (set_group g v c) = inited c.
Proof. done. Qed.
Lemma total_set g v c : total (set_group g v c) = total c.
Proof. done. Qed.
Lemma group_of_total g v c : group_of g (set_total v c) = group_of g c.
Proof. by destruct g. Qed.
Lemma group_of_inited g v c : group_of g (set_inited v c) = group_of g c.
Proof. by destruct g. Qed.
Lemma table_ext c c' : (forall g, group_of g c = group_of g c') -> inited c = inited c' -> total c = total c' -> c = c'.
Proof.
  intros Hg. pose proof (Hg VideoHwEncoder). pose proof (Hg VideoHwDecoder). pose proof (Hg VideoSwEncoder). pose proof (Hg VideoSwDecoder).
  pose proof (Hg AudioHwEncoder). pose proof (Hg AudioHwDecoder). pose proof (Hg AudioSwEncoder). pose proof (Hg AudioSwDecoder).
  destruct c, c'. cbn in *. by intros; subst.
Qed.
(** How many capabilities the groups hold. *)
Definition held (c : CodecCapablites) : Z := foldr (fun g n => num (group_of g c) + n) 0 codecCapGroups.
Lemma held_set g v c : held (set_group g v c) = held c - num (group_of g c) + num v.
Proof. destruct g; cbn; lia. Qed.
Lemma held_same c c' : (forall g, num (group_of g c') = num (group_of g c)) -> held c' = held c.
Proof. intros Hg. unfold held. cbn [foldr codecCapGroups]. by rewrite !Hg. Qed.
Lemma held_total v c : held (set_total v c) = held c.
Proof. apply held_same. by intros []. Qed.

(** ** The invariant *)

(** An array is as long as the group says; without one the group is empty. *)
Definition group_ok (g : CodecCapablityGroup) : Prop :=
  match capablitis_at g with
  | Some _ => 0 < num g /\ num g = Z.of_nat (length (capablitis g)) /\ Forall capability_wf (capablitis g)
  | None => g = blank_group
  end.
Lemma group_ok_wf g : group_ok g -> num g = Z.of_nat (length (capablitis g)) /\ Forall capability_wf (capablitis g).
Proof. unfold group_ok. destruct (capablitis_at g); [by intros (_ & ? & ?) | by intros ->]. Qed.
Definition owns (c : CodecCapablites) (k : nat) : Prop := exists g, capablitis_at (group_of g c) = Some k.
(** The live blocks [L] are those of the table, each of one group, and [L0]. *)
Record table_inv (L0 L : gset nat) (n : nat) (c : CodecCapablites) : Prop := TableInv {
  ti_groups : forall g, group_ok (group_of g c);
  ti_one : forall g g' k, capablitis_at (group_of g c) = Some k -> capablitis_at (group_of g' c) = Some k -> g = g';
  ti_live : forall k, k ∈ L <-> k ∈ L0 \/ owns c k;
  ti_new : forall k, owns c k -> k ∉ L0;
  ti_bounded : bounded L n;
}.
Lemma table_inv_same L0 L n n' c c' :
  (forall g, group_ok (group_of g c')) -> (forall g, capablitis_at (group_of g c') = capablitis_at (group_of g c)) -> (n <= n')%nat ->
  table_inv L0 L n c -> table_inv L0 L n' c'.
Proof.
  intros Hok Hat Hn [T1 T2 T3 T4 T5]. assert (forall k, owns c' k <-> owns c k) as Ho by (intros k; unfold owns; by setoid_rewrite Hat).
  split; [done | intros g g' k; rewrite !Hat; apply T2 | intros k; by rewrite Ho | intros k; rewrite Ho; apply T4 | by eapply bounded_le].
Qed.
Lemma blank_owns c k : (forall g, group_of g c = blank_group) -> ~ owns c k.
Proof. intros Hb [g Hg]. by rewrite Hb in Hg. Qed.
Lemma table_inv_blank L0 n c : (forall g, group_of g c = blank_group) -> bounded L0 n -> table_inv L0 L0 n c.
Proof.
  intros Hb Hn. split; [intros g; by rewrite Hb | intros g g' k; by rewrite Hb | | | done].
  - intros k. split; [by left | intros [?|[]%blank_owns]; done].
  - by intros k []%blank_owns.
Qed.
(** A block for a group that has none. *)
Lemma table_inv_alloc L0 L n c g v :
  group_of g c = blank_group -> capablitis_at v = Some n -> group_ok v -> table_inv L0 L n c -> table_inv L0 ({[n]} ∪ L) (S n) (set_group g v c).
Proof.
  intros Hg Hv Hok [T1 T2 T3 T4 T5].
  assert (forall k, owns (set_group g v c) k <-> k = n \/ owns c k) as Ho.
  { intros k. split.
    - intros [g' Hg']. rewrite group_of_set in Hg'. destruct (decide (g' = g)) as [->|]; [left; congruence | right; by exists g'].
    - intros [->|[g' Hg']]; [exists g; by rewrite group_of_set, decide_True|]. exists g'. rewrite group_of_set, decide_False; [done|].
      intros ->. by rewrite Hg in Hg'. }
  assert (forall k, owns c k -> (k < n)%nat) as Hlt by (intros k Hk; apply T5, T3; by right).
  split.
  - intros g'. rewrite group_of_set. by destruct (decide (g' = g)).
  - intros g1 g2 k. rewrite !group_of_set. destruct (decide (g1 = g)) as [->|], (decide (g2 = g)) as [->|]; [done | | | apply T2].
    + rewrite Hv. intros [= <-] H2. assert (n < n)%nat by (apply Hlt; by exists g2). lia.
    + rewrite Hv. intros H1 [= <-]. assert (n < n)%nat by (apply Hlt; by exists g1). lia.
  - intros k. rewrite Ho, elem_of_union, elem_of_singleton, T3. tauto.
  - intros k [->|Hk]%Ho; [|by apply T4]. intros Hn. assert (n < n)%nat by (apply T5, T3; by left). lia.
  - by apply bounded_alloc.
Qed.
(** The block of a group is released. *)
Lemma table_inv_free L0 L n c g k :
  capablitis_at (group_of g c) = Some k -> table_inv L0 L n c -> k ∈ L /\ table_inv L0 (L ∖ {[k]}) n (set_group g blank_group c).
Proof.
  intros Hg [T1 T2 T3 T4 T5]. split; [apply T3; right; by exists g|].
  assert (forall k', owns (set_group g blank_group c) k' <-> k' <> k /\ owns c k') as Ho.
  { intros k'. split.
    - intros [g' Hg']. rewrite group_of_set in Hg'. destruct (decide (g' = g)) as [->|Hne]; [done|]. split; [|by exists g'].
      intros ->. by apply Hne, (T2 g' g k).
    - intros [Hne [g' Hg']]. exists g'. rewrite group_of_set, decide_False; [done|]. intros ->. congruence. }
  split.
  - intros g'. rewrite group_of_set. by destruct (decide (g' = g)).
  - intros g1 g2 k'. rewrite !group_of_set. destruct (decide (g1 = g)), (decide (g2 = g)); [done..| apply T2].
  - intros k'. rewrite Ho, elem_of_difference, elem_of_singleton, T3. split; [tauto|]. intros [Hk|[? ?]]; [|tauto].
    split; [by left|]. intros ->. apply (T4 k); [by exists g | done].
  - intros k' [_ Hk]%Ho. by apply T4.
  - eapply bounded_mono; [exact T5 | set_solver].
Qed.

(** ** The loops *)
Lemma i32_plus x y : i32 (i32 x + y) = i32 (x + y).
Proof.
  unfold i32. replace ((x + 2 ^ 31) mod 2 ^ 32 - 2 ^ 31 + y + 2 ^ 31) with ((x + 2 ^ 31) mod 2 ^ 32 + y) by lia.
  rewrite Zplus_mod_idemp_l. do 2 f_equal. lia.
Qed.
Section loops.
Context {SB : Type} `{!Platform SB} `{!HdfStatus, !HdfStatusLaws} `{!CodecTarget, !CodecTargetLaws} {A : Type} {N : Type} `{!ResourceTree N, !ResourceLaws N}.
Context `{!FreshMemory, !FreshMemoryLaws}.
(** Of the process only the memory and the table change. *)
Context (sbufs : gmap nat SB) (h : Z) (a : A).
Definition St (L : gset nat) (n : nat) (c : CodecCapablites) : World SB (CodecServer A) := mkWorld sbufs L n (mkServer h c a).

Lemma wp_caps_get L n c (Q : CodecCapablites -> World SB (CodecServer A) -> Prop) : Q c (St L n c) -> wp caps_get Q (St L n c).
Proof. done. Qed.
Lemma wp_caps_upd f L n c (Q : unit -> World SB (CodecServer A) -> Prop) : Q tt (St L n (f c)) -> wp (caps_upd f) Q (St L n c).
Proof. done. Qed.
Lemma aged_St L n c w' : aged (St L n c) w' -> exists n', w' = St L n' c /\ (n <= n')%nat.
Proof. destruct w'. intros [E1 E2 E3 E4]. cbn in *. subst. by eexists. Qed.

(** What a node leaves in its cell. *)
Definition cell_read (video : bool) (n : N) (cap : CodecCompCapability) : Prop := exists ret, one_read (SB := SB) n video ret cap.

Lemma group_loop_runs (video : bool) l i caps L n c (Q : list CodecCompCapability -> World SB (CodecServer A) -> Prop) :
  Forall capability_wf caps -> bounded L n -> (i + length l <= length caps)%nat ->
  (forall caps' n', (n <= n')%nat -> length caps' = length caps -> Forall capability_wf caps' -> take i caps' = take i caps ->
     Forall2 (cell_read video) l (take (length l) (drop i caps')) ->
     (forall j nd type cap, l !! j = Some nd -> nameless nd type -> caps !! (i + j)%nat = Some cap -> caps' !! (i + j)%nat = Some (stale_entry type cap)) ->
     Q caps' (St L n' c)) ->
  wp (group_loop l i video caps) Q (St L n c).
Proof.
  revert i caps n. induction l as [|nd l IH]; intros i caps n Hwf Hb Hi HQ; cbn [group_loop length] in *.
  { apply wp_ret, HQ; [done.. | constructor | done]. }
  apply wp_bind. destruct (lookup_lt_is_Some_2 caps i) as [cap Hcap]; [lia|]. eapply wp_deref; [exact Hcap|]. apply wp_bind.
  apply GetOneCapability_reads; [by eapply Forall_lookup_1 | done |]. intros ret cap' w' [n' [-> Hn']]%aged_St Hone Hkept.
  assert (i < length caps)%nat by lia. apply IH; [apply Forall_insert; [done | by apply Hone] | by eapply bounded_le | rewrite length_insert; lia |].
  intros caps' n'' Hn Hl Hw Ht Hf Hk. rewrite length_insert in Hl.
  assert (caps' !! i = Some cap') as Hi'.
  { rewrite <- (lookup_take_lt caps' (S i)) by lia. rewrite Ht, lookup_take_lt by lia. by apply list_lookup_insert_eq. }
  apply HQ; [lia | done | done | | |].
  - apply (f_equal (take i)) in Ht. rewrite !take_take, !Nat.min_l in Ht by lia. by rewrite take_insert_ge in Ht by lia.
  - rewrite (drop_S _ _ _ Hi'). cbn. constructor; [by exists ret | done].
  - intros [|j] nd' type cap0 Hj Hless Hcap0.
    + rewrite Nat.add_0_r in *. injection Hj as ->. rewrite Hcap in Hcap0. injection Hcap0 as <-. by rewrite Hi', (Hkept type Hless).
    + replace (i + S j)%nat with (S i + j)%nat in * by lia. apply (Hk j nd'); [done..|]. by rewrite list_lookup_insert_ne by lia.
Qed.

(** The number of a group in the configuration. *)
Definition number_of (root : N) (g : group_id) : Z := (GetGroupCapabilitiesNumber root (codecGroupsNodeName g)).2.
Lemma number_nonneg root nm : 0 <= (GetGroupCapabilitiesNumber root nm).2.
Proof. unfold GetGroupCapabilitiesNumber. destruct (negb iface_there); [done|]. destruct (GetChildNode root nm); cbn; lia. Qed.
Lemma number_failed root nm : (GetGroupCapabilitiesNumber root nm).1 <> HDF_SUCCESS -> (GetGroupCapabilitiesNumber root nm).2 = 0.
Proof. unfold GetGroupCapabilitiesNumber. destruct (negb iface_there); [done|]. by destruct (GetChildNode root nm). Qed.
Lemma blank_ok : group_ok blank_group.
Proof. done. Qed.

(** The cells of a block of its own, as they were found. *)
Definition fresh_group (v : CodecCapablityGroup) : Prop :=
  forall k, capablitis_at v = Some k -> capablitis v = map (junk_capability k) (seq 0 (Z.to_nat (num v))).

Lemma alloc_groups_runs root l L0 L n c (Q : Z -> World SB (CodecServer A) -> Prop) :
  table_inv L0 L n c -> total c = i32 (held c) -> (forall g, g ∈ l -> group_of g c = blank_group) -> NoDup l ->
  (forall ret L' n' c', table_inv L0 L' n' c' -> (n <= n')%nat -> inited c' = inited c -> (forall g, g ∉ l -> group_of g c' = group_of g c) ->
     (ret = HDF_SUCCESS /\ total c' = i32 (held c') /\ (forall g, g ∈ l -> num (group_of g c') = number_of root g /\ fresh_group (group_of g c')) \/
      ret = HDF_FAILURE /\ ~ reliable SB) -> Q ret (St L' n' c')) ->
  wp (alloc_groups root l) Q (St L n c).
Proof.
  revert L n c. induction l as [|g l IH]; intros L n c Hinv Htot Hblank Hnd HQ; cbn [alloc_groups].
  { apply wp_ret, HQ; [done.. | left]. split_and!; [done | done |]. by intros g Hg%not_elem_of_nil. }
  apply NoDup_cons in Hnd as [Hgl Hnd]. assert (group_of g c = blank_group) as Hg by (apply Hblank; left).
  destruct (GetGroupCapabilitiesNumber root (codecGroupsNodeName g)) as [ret num_] eqn:En.
  assert (number_of root g = num_) as Hnum by (unfold number_of; by rewrite En).
  (** The rest of the loop, from a table in which the group has what it should have. *)
  assert (forall L1 n1 c1, table_inv L0 L1 n1 c1 -> total c1 = i32 (held c1) -> (n <= n1)%nat -> inited c1 = inited c ->
    num (group_of g c1) = num_ -> fresh_group (group_of g c1) -> (forall g', g' <> g -> group_of g' c1 = group_of g' c) -> wp (alloc_groups root l) Q (St L1 n1 c1)) as Hrest.
  { intros L1 n1 c1 Hinv1 Htot1 Hn1 Hin1 Hnum1 Hfr1 Hoth1. apply IH; [done | done | | done |].
    - intros g' Hg'. rewrite Hoth1; [apply Hblank; by right|]. by intros ->.
    - intros ret' L' n' c' Hinv' Hn' Hin' Hoth' Hret. apply HQ; [done | lia | congruence | |].
      + intros g' Hg'. rewrite Hoth' by (intros ?; apply Hg'; by right). apply Hoth1. intros ->. apply Hg'. left.
      + destruct Hret as [(-> & Ht & Hall)|]; [left | by right]. split_and!; [done | done |]. intros g' [->|Hg']%elem_of_cons; [|by apply Hall].
        rewrite Hoth' by done. split; [congruence | done]. }
  destruct (Z.eqb_spec ret HDF_SUCCESS) as [->|Hne].
  2: { apply Hrest; [done.. | | by rewrite Hg | done]. rewrite Hg. pose proof (number_failed root (codecGroupsNodeName g)) as Hz. rewrite En in Hz. symmetry. by apply Hz. }
  assert (0 <= num_) as Hpos by (rewrite <- Hnum; apply number_nonneg).
  apply wp_bind. destruct (Z.ltb_spec 0 num_) as [Hlt|Hge]; cbn [andb].
  - unfold wp at 1, OsalMemAlloc. cbn [w_next St]. destruct (alloc_ok n (sizeof_CodecCompCapability * num_)) eqn:Eok.
    + apply wp_bind. change (mkWorld _ _ _ _) with (St ({[n]} ∪ L) (S n) c). apply wp_caps_upd. rewrite bool_decide_false by done.
      apply wp_bind, wp_caps_upd. set (v := mkGroup num_ (Some n) _).
      assert (group_ok v) as Hv.
      { unfold group_ok. cbn. split_and!; [done | rewrite length_map, length_seq; lia |]. apply Forall_map, Forall_forall. intros i _. apply junk_wf. }
      assert (num (group_of g (set_group g v c)) = num_) as Hgv by (by rewrite group_of_set, decide_True).
      apply Hrest; [ | | lia | done | by rewrite group_of_total, group_of_set, decide_True | |].
      * eapply (table_inv_same _ _ (S n)); [| by intros g'; rewrite group_of_total | done | by apply table_inv_alloc].
        intros g'. rewrite group_of_total, group_of_set. destruct (decide (g' = g)); [done | by apply Hinv].
      * rewrite held_total, held_set, Hg, Hgv. cbn [num blank_group v]. change (total (set_total ?x _)) with x. rewrite total_set, Htot, i32_plus. f_equal. lia.
      * rewrite group_of_total, group_of_set, decide_True by done. by intros k [= <-].
      * intros g' Hg'. by rewrite group_of_total, group_of_set, decide_False.
    + apply wp_bind. change (mkWorld _ _ _ _) with (St L (S n) c). apply wp_caps_upd. rewrite bool_decide_true by done. apply wp_ret.
      assert (forall g', group_of g' (set_group g (mkGroup 0 None []) c) = group_of g' c) as Hsame.
      { intros g'. rewrite group_of_set. by destruct (decide (g' = g)) as [->|]. }
      apply HQ; [| lia | done | by intros g' _ | right; split; [done|]].
      * eapply (table_inv_same _ _ n); [| by intros g'; rewrite Hsame | lia | done]. intros g'. rewrite Hsame. apply Hinv.
      * intros (_ & Hr & _). rewrite Hr in Eok; [done|]. assert (0 < sizeof_CodecCompCapability) by done. lia.
  - apply wp_ret, wp_bind, wp_caps_upd, wp_bind, wp_caps_upd. assert (num_ = 0) as -> by lia.
    assert (set_group g (mkGroup 0 None []) c = c) as Hsame.
    { apply table_ext; [|done..]. intros g'. rewrite group_of_set. by destruct (decide (g' = g)) as [->|]. }
    rewrite Hsame. apply Hrest; [ | | done | done | by rewrite group_of_total, Hg | by rewrite group_of_total, Hg | by intros g' _; rewrite group_of_total].
    + eapply (table_inv_same _ _ n); [| by intros g'; rewrite group_of_total | done | done]. intros g'. rewrite group_of_total. apply Hinv.
    + rewrite held_total, <- Htot. change (total (set_total ?x _)) with x. rewrite Hg, Htot, i32_plus. f_equal. cbn. lia.
Qed.

(** ** Filling *)
Definition group_there (root : N) (g : group_id) : Prop := iface_there = true /\ is_Some (GetChildNode root (codecGroupsNodeName g)).
Definition group_read (root : N) (g : group_id) (v : CodecCapablityGroup) : Prop :=
  exists gn, GetChildNode root (codecGroupsNodeName g) = Some gn /\ Forall2 (cell_read (is_video g)) (node_children gn) (capablitis v).
(** What the nodes without a name leave of the cells [caps]. *)
Definition group_kept (root : N) (g : group_id) (caps caps' : list CodecCompCapability) : Prop :=
  forall gn i nd type cap, GetChildNode root (codecGroupsNodeName g) = Some gn -> node_children gn !! i = Some nd -> nameless nd type ->
    caps !! i = Some cap -> caps' !! i = Some (stale_entry type cap).
(** Group [v] became [v'] when it was filled. *)
Definition filled (root : N) (g : group_id) (v v' : CodecCapablityGroup) : Prop :=
  group_there root g /\ group_read root g v' /\ capablitis_at v' = capablitis_at v /\ group_kept root g (capablitis v) (capablitis v').
Lemma number_there root g gn : iface_there = true -> GetChildNode root (codecGroupsNodeName g) = Some gn -> number_of root g = Z.of_nat (length (node_children gn)).
Proof. intros Hi Hg. unfold number_of, GetGroupCapabilitiesNumber. by rewrite Hi, Hg. Qed.

Lemma GetGroupCapabilities_runs root g L0 L n c (Q : Z -> World SB (CodecServer A) -> Prop) :
  table_inv L0 L n c -> num (group_of g c) = number_of root g ->
  (forall ret n' c', table_inv L0 L n' c' -> (n <= n')%nat -> inited c' = inited c -> total c' = total c ->
     (forall g', g' <> g -> group_of g' c' = group_of g' c) -> num (group_of g c') = num (group_of g c) ->
     (ret = HDF_SUCCESS /\ filled root g (group_of g c) (group_of g c') \/ ret <> HDF_SUCCESS /\ ~ group_there root g) -> Q ret (St L n' c')) ->
  wp (GetGroupCapabilities root (codecGroupsNodeName g) g) Q (St L n c).
Proof.
  intros Hinv Hnum HQ. unfold GetGroupCapabilities. destruct iface_there eqn:Ei; cbn [negb].
  2: { apply wp_ret, HQ; [done.. |]. right. split; [apply invalid_param_error|]. unfold group_there. by rewrite Ei; intros []. }
  destruct (GetChildNode root (codecGroupsNodeName g)) as [gn|] eqn:Eg.
  2: { apply wp_ret, HQ; [done.. |]. right. split; [apply failure_error|]. intros [_ Hs]. rewrite Eg in Hs. by destruct Hs. }
  rewrite (number_there root g gn) in Hnum by done. destruct (group_ok_wf _ (ti_groups _ _ _ _ Hinv g)) as [Hlen Hwf].
  apply wp_bind, wp_caps_get, wp_bind. apply group_loop_runs; [done | by apply Hinv | lia |].
  intros caps' n' Hn' Hl Hwf' _ Hread Hkept. rewrite drop_0, take_ge in Hread by lia.
  apply wp_bind, wp_caps_upd, wp_ret. set (v := mkGroup _ _ caps').
  assert (group_ok (group_of g c)) as Hok by apply Hinv.
  assert (group_ok v) as Hv.
  { unfold group_ok in *. subst v. cbn. destruct (capablitis_at (group_of g c)) as [k|]; [split_and!; [apply Hok | lia | done]|].
    rewrite Hok in Hl |- *. cbn in Hl. by destruct caps'. }
  apply HQ; [| done | done | done | | by rewrite group_of_set, decide_True | left].
  - eapply (table_inv_same _ _ n); [| | done | done]; intros g'; rewrite group_of_set; destruct (decide (g' = g)) as [->|]; try done. apply Hinv.
  - intros g' Hg'. by rewrite group_of_set, decide_False.
  - split; [done|]. rewrite group_of_set, decide_True by done. split_and!; [by split; [|exists gn] | by exists gn | done |].
    intros gn' i nd type cap Hgn' Hnd Hless Hcap. assert (gn' = gn) as -> by congruence. by apply (Hkept i nd).
Qed.

Lemma fill_groups_runs root l L0 L n c (Q : Z -> World SB (CodecServer A) -> Prop) :
  table_inv L0 L n c -> (forall g, g ∈ l -> num (group_of g c) = number_of root g) -> NoDup l ->
  (forall ret n' c', table_inv L0 L n' c' -> (n <= n')%nat -> inited c' = inited c -> total c' = total c ->
     (forall g, g ∉ l -> group_of g c' = group_of g c) -> (forall g, num (group_of g c') = num (group_of g c)) ->
     (ret = HDF_SUCCESS /\ (forall g, g ∈ l -> filled root g (group_of g c) (group_of g c')) \/
      ret = HDF_FAILURE /\ exists g, ~ group_there root g) -> Q ret (St L n' c')) ->
  wp (fill_groups root l) Q (St L n c).
Proof.
  revert n c. induction l as [|g l IH]; intros n c Hinv Hnum Hnd HQ; cbn [fill_groups].
  { apply wp_ret, HQ; [done.. | left]. split; [done|]. by intros g Hg%not_elem_of_nil. }
  apply NoDup_cons in Hnd as [Hgl Hnd]. apply wp_bind. apply (GetGroupCapabilities_runs _ _ L0); [done | apply Hnum; left |].
  intros ret n1 c1 Hinv1 Hn1 Hin1 Htot1 Hoth1 Hnum1 Hret. 
  assert (forall g', num (group_of g' c1) = num (group_of g' c)) as Hnums.
  { intros g'. destruct (decide (g' = g)) as [->|]; [done | by rewrite Hoth1]. }
  assert (forall g', g' ∉ g :: l -> group_of g' c1 = group_of g' c) as Hout.
  { intros g' Hg'. apply Hoth1. intros ->. apply Hg'. left. }
  destruct Hret as [(-> & Hfill)|[Hf Hno]].
  - rewrite Z.eqb_refl. cbn [negb]. apply IH; [done | | done |].
    { intros g' Hg'. rewrite Hnums. apply Hnum. by right. }
    intros ret n2 c2 Hinv2 Hn2 Hin2 Htot2 Hoth2 Hnum2 Hret. apply HQ; [done | lia | congruence | congruence | | |].
    + intros g' Hg'. rewrite Hoth2 by (intros ?; apply Hg'; by right). by apply Hout.
    + intros g'. by rewrite Hnum2.
    + destruct Hret as [[-> Hall]|]; [left | by right]. split; [done|]. intros g' [->|Hg']%elem_of_cons; [by rewrite Hoth2|].
      specialize (Hall g' Hg'). rewrite Hoth1 in Hall; [done|]. by intros ->.
  - rewrite (proj2 (Z.eqb_neq _ _)) by done. cbn [negb]. apply wp_ret, HQ; [done.. |]. right. split; [done | by exists g].
Qed.

(** ** Clearing *)
Lemma clear_groups_runs l L0 L n c (Q : unit -> World SB (CodecServer A) -> Prop) :
  table_inv L0 L n c ->
  (forall L' c', table_inv L0 L' n c' -> (forall g, group_of g c' = if decide (g ∈ l) then blank_group else group_of g c) ->
     Q tt (St L' n c')) ->
  wp (clear_groups l) Q (St L n c).
Proof.
  revert L c. induction l as [|g l IH]; intros L c Hinv HQ; cbn [clear_groups]; [by apply wp_ret, HQ|].
  apply wp_bind, wp_caps_get. pose proof (ti_groups _ _ _ _ Hinv g) as Hok. unfold group_ok in Hok.
  apply wp_bind. destruct (capablitis_at (group_of g c)) as [k|] eqn:Ek.
  - destruct (table_inv_free _ _ _ _ _ _ Ek Hinv) as [Hk Hinv']. apply wp_bind. unfold wp at 1, OsalMemFree. cbn [w_live St].
    rewrite decide_True by done. change (mkWorld _ _ _ _) with (St (L ∖ {[k]}) n c). apply wp_caps_upd.
    apply IH; [done|]. intros L' c' Hinv2 Hg2. apply HQ; [done|]. intros g'. rewrite Hg2, group_of_set.
    destruct (decide (g' ∈ l)); [rewrite decide_True by (by right); done|].
    destruct (decide (g' = g)) as [->|Hne]; [rewrite decide_True by left; done|]. rewrite decide_False; [done|]. by intros [?|?]%elem_of_cons.
  - apply wp_ret. apply IH; [done|]. intros L' c' Hinv2 Hg2. apply HQ; [done|]. intros g'. rewrite Hg2.
    destruct (decide (g' ∈ l)); [rewrite decide_True by (by right); done|].
    destruct (decide (g' = g)) as [->|Hne]; [rewrite decide_True by left; done|]. rewrite decide_False; [done|]. by intros [?|?]%elem_of_cons.
Qed.
Lemma ClearCapabilityGroup_runs L0 L n c (Q : Z -> World SB (CodecServer A) -> Prop) :
  table_inv L0 L n c -> Q HDF_SUCCESS (St L0 n blank_table) -> wp ClearCapabilityGroup Q (St L n c).
Proof.
  intros Hinv HQ. unfold ClearCapabilityGroup. apply wp_bind. apply (clear_groups_runs _ L0); [done|]. intros L' c' Hinv' Hg.
  assert (forall g, group_of g c' = blank_group) as Hb by (intros g; rewrite Hg; by rewrite decide_True by apply all_groups).
  apply wp_bind, wp_caps_upd, wp_ret. assert (L' = L0) as ->.
  { apply set_eq. intros k. rewrite (ti_live _ _ _ _ Hinv'). split; [intros [?|[]%blank_owns]; done | by left]. }
  replace (set_total 0 (set_inited false c')) with blank_table; [done|]. apply table_ext; [|done..].
  intros g. rewrite group_of_total, group_of_inited, Hb. by destruct g.
Qed.

(** ** Loading *)

(** The table is that of the configuration. *)
Record table_loaded (root : N) (c : CodecCapablites) : Prop := TableLoaded {
  tl_inited : inited c = true;
  tl_total : total c = i32 (held c);
  tl_groups : forall g, group_there root g /\ num (group_of g c) = number_of root g /\ group_read root g (group_of g c);
  (** An entry without a name is what the block of its group held there. *)
  tl_kept : forall g gn i nd type, GetChildNode root (codecGroupsNodeName g) = Some gn -> node_children gn !! i = Some nd -> nameless nd type ->
    exists k, capablitis_at (group_of g c) = Some k /\ capablitis (group_of g c) !! i = Some (stale_entry type (junk_capability k i));
}.
Lemma LoadCodecCapabilityFromHcs_runs root L0 n (Q : Z -> World SB (CodecServer A) -> Prop) :
  bounded L0 n ->
  (forall ret L n' c, table_inv L0 L n' c -> (n <= n')%nat ->
     (ret = HDF_SUCCESS /\ table_loaded root c \/ ret = HDF_FAILURE /\ (~ reliable SB \/ exists g, ~ group_there root g)) -> Q ret (St L n' c)) ->
  wp (LoadCodecCapabilityFromHcs (Some root)) Q (St L0 n blank_table).
Proof.
  intros Hb HQ. unfold LoadCodecCapabilityFromHcs. apply wp_bind.
  apply (alloc_groups_runs root _ L0); [apply table_inv_blank; [by intros [] | done] | done | by intros [] | apply groups_nodup |].
  intros ret L n1 c1 Hinv1 Hn1 _ _ [(-> & Htot1 & Hnum1)|[-> Hr]].
  2: { rewrite (proj2 (Z.eqb_neq _ _)) by apply failure_error. cbn [negb]. apply wp_ret, HQ; [done.. |]. right. split; [done | by left]. }
  rewrite Z.eqb_refl. cbn [negb]. apply wp_bind. apply (fill_groups_runs root _ L0); [done | intros g Hg; by apply Hnum1 | apply groups_nodup |].
  intros ret n2 c2 Hinv2 Hn2 _ Htot2 _ Hnum2 [[-> Hall]|[-> Hno]].
  2: { rewrite (proj2 (Z.eqb_neq _ _)) by apply failure_error. cbn [negb]. apply wp_ret, HQ; [done | lia |]. right. split; [done | by right]. }
  rewrite Z.eqb_refl. cbn [negb]. apply wp_bind, wp_caps_upd, wp_ret, HQ; [| lia | left; split; [done|]].
  - eapply (table_inv_same _ _ n2); [| by intros g; rewrite group_of_inited | done | done]. intros g. rewrite group_of_inited. apply Hinv2.
  - assert (held (set_inited true c2) = held c1) as Hh by (apply held_same; intros g; rewrite group_of_inited; apply Hnum2).
    split; [done | by rewrite Hh, <- Htot1, <- Htot2 | |]; intros g; rewrite group_of_inited; pose proof (all_groups g) as Hg;
      destruct (Hall g Hg) as (Ht & Hrd & Hat & Hkept), (Hnum1 g Hg) as [Hn Hfresh].
    + rewrite Hnum2. by split_and!.
    + intros gn i nd type Hgn Hnd Hless. rewrite (number_there root g gn) in Hn by (done || apply Ht).
      pose proof (lookup_lt_Some _ _ _ Hnd) as Hi. pose proof (ti_groups _ _ _ _ Hinv1 g) as Hok. unfold group_ok in Hok.
      destruct (capablitis_at (group_of g c1)) as [k|] eqn:Ek.
      * exists k. split; [done|]. apply (Hkept gn i nd); [done..|]. rewrite (Hfresh k Ek), list_lookup_fmap, lookup_seq_lt by lia. done.
      * rewrite Hok in Hn. cbn in Hn. lia.
Qed.
End loops.
