(* ===== verification/CodecCapsRun.v ===== *)
(** * CodecCapsRun: from the configuration to the client

    What a start of the driver makes of the table ([driver_init_all_or_nothing],
    [table_describes]), and what a client then asks for and gets
    ([capabilities_reach_client]), also from a node without a name
    ([nameless_memory_sent]). *)
From S2P Require Import Prelude Hdf HdfQueue Rpc CodecTypes CodecService CodecInstance CodecWire CodecStub CodecProxy CodecRpc CodecManager CodecQuery.
From S2P Require Import CodecCaps CodecCapsSpec CodecCapsFacts CodecCapsLoad CodecCapsTable.
Open Scope Z_scope.

(** The groups in the order in which they are sent. *)
Definition send_order : list group_id :=
  [VideoHwEncoder; VideoHwDecoder; AudioHwEncoder; AudioHwDecoder; VideoSwEncoder; VideoSwDecoder; AudioSwEncoder; AudioSwDecoder].
Lemma sent_groups c : codeCapGroups c = map (fun g => group_of g c) send_order.
Proof. done. Qed.
Definition wanted (cat : catalog) : list description := concat (map cat send_order).

Section table.
Context {SB : Type} `{!Platform SB} `{!HdfStatus, !HdfStatusLaws} `{!CodecTarget, !CodecTargetLaws} {N : Type} `{!ResourceTree N, !ResourceLaws N}.
Context `{!FreshMemory}.

Lemma table_inv_wf L0 L n c : table_inv L0 L n c -> table_wf c.
Proof.
  intros Hinv. unfold table_wf. rewrite sent_groups. apply Forall_map, Forall_forall. intros g _.
  destruct (group_ok_wf _ (ti_groups _ _ _ _ Hinv g)) as [Hn Hwf]. split; [lia | done].
Qed.
(** With a description in every node, the table holds what the catalog wants. *)
Lemma table_describes root c cat :
  reliable SB -> tree_describes root cat -> table_loaded (SB := SB) root c ->
  forall g, num (group_of g c) = Z.of_nat (length (cat g)) /\ Forall2 means (cat g) (capablitis (group_of g c)).
Proof.
  intros Hr [Hi Ht] [_ _ Hg] g. destruct (Hg g) as (_ & Hn & gn & Egn & Hread). destruct (Ht g) as (gn' & Egn' & Hd & Hv).
  assert (gn' = gn) as -> by congruence. rewrite Hn, (number_there root g gn) by done. split; [by rewrite (Forall2_length _ _ _ Hd)|].
  clear Egn Egn' Hn. revert Hread Hv. generalize (capablitis (group_of g c)). induction Hd as [|n d l ds Hnd _ IH]; intros caps Hread Hv.
  - inversion Hread. constructor.
  - inversion Hread as [|? cap ? caps' [ret Hone] Hrest]; subst. apply Forall_cons in Hv as [Hvd Hv]. constructor; [|by apply IH].
    by destruct (or_means _ _ _ _ Hone Hr d Hnd Hvd).
Qed.
Lemma sent_capabilities root c cat L0 L n :
  reliable SB -> tree_describes root cat -> table_loaded (SB := SB) root c -> table_inv L0 L n c -> Forall2 means (wanted cat) (all_capabilities c).
Proof.
  intros Hr Ht Hl Hinv. unfold wanted, all_capabilities. rewrite sent_groups, map_map. induction send_order as [|g l IH]; cbn; [constructor|].
  apply Forall2_app; [|done]. destruct (table_describes root c cat Hr Ht Hl g) as [Hn Hm].
  destruct (group_ok_wf _ (ti_groups _ _ _ _ Hinv g)) as [Hlen _]. by rewrite take_ge by lia.
Qed.
Lemma held_wanted root c cat : reliable SB -> tree_describes root cat -> table_loaded (SB := SB) root c -> held c = Z.of_nat (length (wanted cat)).
Proof.
  intros Hr Ht Hl. assert (forall g, num (group_of g c) = Z.of_nat (length (cat g))) as Hn by (intros g; by apply (table_describes root c cat Hr Ht Hl g)).
  unfold held, wanted, send_order. cbn [foldr codecCapGroups map concat]. rewrite !Hn, !length_app. cbn [length]. lia.
Qed.
(** How many nodes the groups of the configuration have. *)
Definition configured (root : N) : Z := foldr (fun g n => number_of root g + n) 0 codecCapGroups.
Lemma held_configured root c : table_loaded (SB := SB) root c -> held c = configured root.
Proof.
  intros Hl. assert (forall g, num (group_of g c) = number_of root g) as Hn by (intros g; apply (tl_groups _ _ Hl g)).
  unfold held, configured. cbn [foldr codecCapGroups]. by rewrite !Hn.
Qed.
Lemma sent_length L0 L n c : table_inv L0 L n c -> length (all_capabilities c) = Z.to_nat (held c).
Proof.
  intros Hinv. assert (forall g, length (take (Z.to_nat (num (group_of g c))) (capablitis (group_of g c))) = Z.to_nat (num (group_of g c)) /\
    0 <= num (group_of g c)) as Hg.
  { intros g. destruct (group_ok_wf _ (ti_groups _ _ _ _ Hinv g)) as [Hlen _]. rewrite length_take. lia. }
  unfold all_capabilities, held, send_order. rewrite sent_groups. cbn [map concat send_order foldr codecCapGroups].
  rewrite !length_app, !(proj1 (Hg _)). cbn [length]. pose proof (fun g => proj2 (Hg g)) as Hn.
  pose proof (Hn VideoHwEncoder). pose proof (Hn VideoHwDecoder). pose proof (Hn VideoSwEncoder). pose proof (Hn VideoSwDecoder).
  pose proof (Hn AudioHwEncoder). pose proof (Hn AudioHwDecoder). pose proof (Hn AudioSwEncoder). pose proof (Hn AudioSwDecoder). lia.
Qed.
Lemma sent_entry L0 L n c g i cap :
  table_inv L0 L n c -> capablitis (group_of g c) !! i = Some cap -> cap ∈ all_capabilities c.
Proof.
  intros Hinv Hi. unfold all_capabilities. rewrite sent_groups, map_map. apply list_elem_of_In, in_concat.
  destruct (group_ok_wf _ (ti_groups _ _ _ _ Hinv g)) as [Hlen _].
  eexists. split; [apply in_map_iff; exists g; split; [done|]; destruct g; cbn; tauto|].
  rewrite take_ge by lia. by eapply list_elem_of_In, list_elem_of_lookup_2.
Qed.
End table.

Section start.
Context {SB : Type} `{!Platform SB} `{!HdfStatus, !HdfStatusLaws} `{!CodecTarget, !CodecTargetLaws} {A : Type} {N : Type} `{!ResourceTree N, !ResourceLaws N}.
Context `{!FreshMemory, !FreshMemoryLaws}.
Implicit Types (w : World SB (CodecServer A)).
Abbreviation table w := (g_codecCapabilites (w_svc w)).

(** A start changes the table and the memory only. *)
Definition only_table w w' : Prop :=
  w_sbufs w' = w_sbufs w /\ componentHandle (w_svc w') = componentHandle (w_svc w) /\ adapter (w_svc w') = adapter (w_svc w) /\ (w_next w <= w_next w')%nat.
Definition started (root : N) w w' : Prop :=
  table_loaded (SB := SB) root (table w') /\ table_inv (w_live w) (w_live w') (w_next w') (table w').
Definition start_failed (root : N) w w' : Prop :=
  table w' = blank_table /\ w_live w' = w_live w /\ (~ reliable SB \/ exists g, ~ group_there root g).

Lemma driver_init root g_res w :
  bounded (w_live w) (w_next w) -> table w = blank_table ->
  exists w', HdfCodecComponentTypeDriverInit (Some (Some root)) g_res w = Some ((HDF_SUCCESS, Some root), w') /\ only_table w w' /\
    (started root w w' \/ start_failed root w w').
Proof.
  destruct w as [sbufs L n [h c a]]. cbn. intros Hb ->.
  assert (wp (HdfCodecComponentTypeDriverInit (Some (Some root)) g_res) (fun p w' => p = (HDF_SUCCESS, Some root) /\
    only_table (St sbufs h a L n blank_table) w' /\ (started root (St sbufs h a L n blank_table) w' \/ start_failed root (St sbufs h a L n blank_table) w'))
    (St sbufs h a L n blank_table)) as Hwp.
  { unfold HdfCodecComponentTypeDriverInit. cbn [InitDataNode]. apply wp_bind. apply LoadCodecCapabilityFromHcs_runs; [done|].
    intros ret L' n' c Hinv Hn' [[-> Hl]|[-> Hf]]; apply wp_bind.
    - rewrite Z.eqb_refl. by apply wp_ret, wp_ret; split_and!; [| | left].
    - rewrite (proj2 (Z.eqb_neq _ _)) by apply failure_error. cbn [negb]. apply wp_bind. apply (ClearCapabilityGroup_runs _ _ _ L); [done|].
      by apply wp_ret, wp_ret; split_and!; [| | right]. }
  apply wp_inv in Hwp as (p & w' & Hrun & -> & Ho & Hres). by exists w'.
Qed.

Lemma clear_after root w w' : started root w w' \/ start_failed root w w' -> only_table w w' -> bounded (w_live w) (w_next w) ->
  exists w'', ClearCapabilityData w' = Some (HDF_SUCCESS, w'') /\ only_table w' w'' /\ table w'' = blank_table /\ w_live w'' = w_live w.
Proof.
  intros Hs (_ & _ & _ & Hn) Hb. assert (table_inv (w_live w) (w_live w') (w_next w') (table w')) as Hinv.
  { destruct Hs as [[_ Hinv]|(-> & -> & _)]; [done|]. apply table_inv_blank; [by intros [] | by eapply bounded_le]. }
  destruct w' as [sbufs L n [h c a]]. cbn in Hinv.
  assert (wp ClearCapabilityData (fun ret w'' => ret = HDF_SUCCESS /\ w'' = St sbufs h a (w_live w) n blank_table) (St sbufs h a L n c)) as Hwp
    by by apply (ClearCapabilityGroup_runs _ _ _ (w_live w)).
  apply wp_inv in Hwp as (ret & w'' & Hrun & -> & ->). by eexists.
Qed.

(** C5: whatever the configuration holds and whatever memory is refused, starting
    the driver on an empty table is defined, returns success, and changes the table
    and the memory only.  It ends in one of two ways.  Either the table is loaded:
    every group node is there, each group has one well-formed entry per node, read
    from it or marked as invalid, the total is theirs, and the memory taken is that
    of the groups, one block each.  Or the table is empty and no memory is kept;
    then memory was refused or a group node is missing.  Clearing the table gives
    back all of it in both cases. *)
Theorem driver_init_all_or_nothing root g_res w :
  bounded (w_live w) (w_next w) -> table w = blank_table ->
  exists w', HdfCodecComponentTypeDriverInit (Some (Some root)) g_res w = Some ((HDF_SUCCESS, Some root), w') /\ only_table w w' /\
    (started root w w' \/ start_failed root w w') /\
    exists w'', ClearCapabilityData w' = Some (HDF_SUCCESS, w'') /\ only_table w' w'' /\ table w'' = blank_table /\ w_live w'' = w_live w.
Proof.
  intros Hb Ht. destruct (driver_init root g_res w Hb Ht) as (w' & Hrun & Ho & Hs). exists w'. split_and!; [done.. |]. by apply (clear_after root).
Qed.

End start.

(** ** The client *)
Section client.
Context {SB : Type} `{!Platform SB, !PlatformLaws SB} `{!HdfStatus, !HdfStatusLaws} {OMX : OmxTypes} {A : Type} `{!OmxAdapter A}.
Context `{!CodecTarget, !CodecTargetLaws} {N : Type} `{!ResourceTree N, !ResourceLaws N} `{!FreshMemory, !FreshMemoryLaws}.
Context (junk_buffer : OmxCodecBuffer) (junk_tunnel : OMX_TUNNELSETUPTYPE).
Abbreviation service := (stub_remote (SB := SB) (A := A) junk_buffer junk_tunnel).

(** A start with every group node there, when no memory is refused. *)
Lemma start_loads root g_res (w : World SB (CodecServer A)) :
  reliable SB -> world_ok w -> g_codecCapabilites (w_svc w) = blank_table -> (forall g, group_there root g) ->
  exists w1, HdfCodecComponentTypeDriverInit (Some (Some root)) g_res w = Some ((HDF_SUCCESS, Some root), w1) /\ world_ok w1 /\
    started root w w1.
Proof.
  intros Hr Hw Hb Hg. destruct (driver_init root g_res w (proj2 Hw) Hb) as (w1 & Hrun1 & (Hs & _ & _ & Hnext) & Hst).
  destruct Hst as [[Hl Hinv]|(_ & _ & Hno)]; [|by destruct Hno as [?|[g Hno]]; [|destruct (Hno (Hg g))]].
  exists w1. split; [done|]. split; [|done]. split; [rewrite Hs; eapply bounded_le; [apply Hw | done] | apply Hinv].
Qed.
(** A client that asks for all capabilities of a loaded table. *)
Lemma loaded_reaches_client root c capList L0 L n (w : World SB (CodecServer A)) :
  reliable SB -> world_ok w -> g_codecCapabilites (w_svc w) = c -> table_loaded (SB := SB) root c -> table_inv L0 L n c ->
  0 < held c <= Z.of_nat (length capList) -> held c < 2 ^ 31 -> Forall capability_wf capList ->
  exists w2 w3,
    GetComponentNum (Some service) w = Some (held c, w2) /\
    GetComponentCapabilityList (Some service) capList (held c) w2 =
      Some ((HDF_SUCCESS, all_capabilities c ++ drop (Z.to_nat (held c)) capList), w3).
Proof.
  intros Hr Hw Hc Hl Hinv Hn Hmax Hwf. pose proof (sent_length _ _ _ _ Hinv) as Hlen.
  destruct (component_num junk_buffer junk_tunnel w Hr Hw) as (w2 & Hrun2 & Hsvc2 & Hres2). cbv zeta in Hrun2.
  rewrite Hc, (tl_inited _ _ Hl), (tl_total _ _ Hl), i32_id in Hrun2 by lia.
  assert (g_codecCapabilites (w_svc w2) = c) as Hc2 by (by rewrite Hsvc2).
  destruct (capability_list junk_buffer junk_tunnel capList (held c) w2) as (w3 & Hrun3 & _); rewrite ?Hc2; try done;
    [by eapply restored_ok | apply Hl | by eapply table_inv_wf | lia | lia | lia |].
  rewrite Hc2, take_ge in Hrun3 by lia. by exists w2, w3.
Qed.

(** C4: when the configuration describes a catalog of capabilities and no memory
    is refused, then after the driver has started a client that asks for the number
    of components gets the size of the catalog, and if it then asks for that many
    capabilities it gets, in the order in which the groups are sent, capabilities
    that mean what the catalog says: the names, numbers, tables and masks written
    in the configuration. *)
Theorem capabilities_reach_client root g_res cat capList (w : World SB (CodecServer A)) :
  reliable SB -> world_ok w -> g_codecCapabilites (w_svc w) = blank_table -> tree_describes root cat ->
  let n := length (wanted cat) in
  (0 < n <= length capList)%nat -> Z.of_nat n < 2 ^ 31 -> Forall capability_wf capList ->
  exists w1 w2 w3 caps,
    HdfCodecComponentTypeDriverInit (Some (Some root)) g_res w = Some ((HDF_SUCCESS, Some root), w1) /\
    GetComponentNum (Some service) w1 = Some (Z.of_nat n, w2) /\
    GetComponentCapabilityList (Some service) capList (Z.of_nat n) w2 = Some ((HDF_SUCCESS, caps ++ drop n capList), w3) /\
    Forall2 means (wanted cat) caps.
Proof.
  intros Hr Hw Hb Htree n Hn Hmax Hwf.
  destruct (start_loads root g_res w Hr Hw Hb) as (w1 & Hrun1 & Hw1 & Hl & Hinv).
  { intros g. destruct Htree as [Hi Ht]. destruct (Ht g) as (gn & Egn & _). by split; [|exists gn]. }
  pose proof (held_wanted root _ cat Hr Htree Hl) as Hheld. fold n in Hheld.
  destruct (loaded_reaches_client root _ capList _ _ _ w1 Hr Hw1 eq_refl Hl Hinv) as (w2 & w3 & Hrun2 & Hrun3); [lia | lia | done |].
  rewrite Hheld in Hrun2, Hrun3. rewrite Nat2Z.id in Hrun3.
  exists w1, w2, w3, (all_capabilities (g_codecCapabilites (w_svc w1))). split_and!; [done.. |]. by apply (sent_capabilities root _ _ _ _ _ Hr Htree Hl Hinv).
Qed.

(** C34: a node without a name sends uninitialised memory to the clients.  When
    every group node is there, the [i]-th node of group [g] gives a role and a type
    but no name, and no memory is refused, the driver starts successfully, with one
    new block [k] for the entries of that group; a client that asks for the number
    of components is told the number of all nodes, the nameless one counted; and
    among the capabilities it then gets is one that, but for the role (which says
    invalid) and the type, is what cell [i] of the block [k] held when it was
    allocated, whatever that was. *)
Theorem nameless_memory_sent root g_res g gn i nd type capList (w : World SB (CodecServer A)) :
  reliable SB -> world_ok w -> g_codecCapabilites (w_svc w) = blank_table -> (forall g', group_there root g') ->
  GetChildNode root (codecGroupsNodeName g) = Some gn -> node_children gn !! i = Some nd -> nameless nd type ->
  let n := configured root in
  0 < n <= Z.of_nat (length capList) -> n < 2 ^ 31 -> Forall capability_wf capList ->
  exists w1 w2 w3 caps k,
    HdfCodecComponentTypeDriverInit (Some (Some root)) g_res w = Some ((HDF_SUCCESS, Some root), w1) /\
    k ∉ w_live w /\ k ∈ w_live w1 /\ capablitis_at (group_of g (g_codecCapabilites (w_svc w1))) = Some k /\
    GetComponentNum (Some service) w1 = Some (n, w2) /\
    GetComponentCapabilityList (Some service) capList n w2 = Some ((HDF_SUCCESS, caps ++ drop (Z.to_nat n) capList), w3) /\
    length caps = Z.to_nat n /\ stale_entry type (junk_capability k i) ∈ caps.
Proof.
  intros Hr Hw Hb Hthere Hgn Hnd Hless n Hn Hmax Hwf.
  destruct (start_loads root g_res w Hr Hw Hb Hthere) as (w1 & Hrun1 & Hw1 & Hl & Hinv).
  pose proof (held_configured root _ Hl) as Hheld. fold n in Hheld.
  destruct (tl_kept _ _ Hl g gn i nd type Hgn Hnd Hless) as (k & Hk & Hcell).
  destruct (loaded_reaches_client root _ capList _ _ _ w1 Hr Hw1 eq_refl Hl Hinv) as (w2 & w3 & Hrun2 & Hrun3); [lia | lia | done |].
  rewrite Hheld in Hrun2, Hrun3. assert (owns (g_codecCapabilites (w_svc w1)) k) as Ho by by exists g.
  exists w1, w2, w3, (all_capabilities (g_codecCapabilites (w_svc w1))), k. split_and!; [done | | | done | done | done | |].
  - by apply (ti_new _ _ _ _ Hinv).
  - apply (ti_live _ _ _ _ Hinv). by right.
  - by rewrite (sent_length _ _ _ _ Hinv), Hheld.
  - by apply (sent_entry _ _ _ _ g i _ Hinv).
Qed.
End client.
