(* ===== verification/CodecDriver.v ===== *)
(** * CodecDriver: the life of the two stubs and of the codec driver

    Models [CodecComponentTypeStubGetInstance], [CodecCallbackTypeStubGetInstance]
    and their releases ([codec_component_type_stub.c], [codec_callback_type_stub.c])
    and the driver entry ([codec_component_type_driver.c]).  The dynamic linker and
    the registration with the framework are a class of operations. *)
From S2P Require Import Prelude Hdf Rpc CodecTypes CodecService CodecCaps CodecCapsSpec CodecCapsFacts CodecCapsLoad CodecCapsTable CodecCapsRun.
Open Scope Z_scope.

(** Whether a library can be opened and has a symbol; the remote object made for
    the stub at a block; the status of [HdfDeviceObjectSetInterfaceDesc]; the
    sizes of the structures; and the handle that the memory of a new stub holds. *)
Class Linker := {
  dlopen_ok : string -> bool;
  dlsym_ok : string -> string -> bool;
  remote_of : nat -> option Z;
  HdfDeviceObjectSetInterfaceDesc : string -> Z;
  sizeof_CodecComponentTypeStub : Z;
  sizeof_CodecCallbackTypeStub : Z;
  sizeof_HdfCodecComponentTypeHost : Z;
  junk_handle : nat -> Z;
}.

(** The process: its state, the references it holds to libraries, and the remote
    objects it made and did not recycle. *)
Record Process (SB X : Type) := mkProcess { p_world : World SB X; p_libs : list string; p_remotes : list Z }.
Arguments mkProcess {SB X} _ _ _.
Arguments p_world {SB X} _.
Arguments p_libs {SB X} _.
Arguments p_remotes {SB X} _.

Definition CODEC_SERVICE_IMPL : string := "libcodec_hdi_omx_service_impl".
Definition OMX_CALLBACK_IMPLEMENT : string := "libcodec_hdi_omx_callback_type_service_impl".

Section process.
Context {SB : Type} `{!Platform SB} `{!HdfStatus} `{!Linker} {X : Type}.
Abbreviation P := (Process SB X).
Definition on_world {A} (m : M (World SB X) A) : M P A := zoom p_world (fun w p => mkProcess w (p_libs p) (p_remotes p)) m.

Definition dlopen (path : string) : M P bool :=
  if dlopen_ok path then modify (fun p : P => mkProcess (p_world p) (path :: p_libs p) (p_remotes p));; mret true else mret false.
(** Giving back a reference that is not held is undefined. *)
Fixpoint close_one (path : string) (l : list string) : option (list string) :=
  match l with
  | [] => None
  | x :: l => if String.eqb x path then Some l else cons x <$> close_one path l
  end.
Definition dlclose (path : string) : M P unit :=
  libs ← gets p_libs;
  libs ← deref (close_one path libs);
  modify (fun p : P => mkProcess (p_world p) libs (p_remotes p)).
Definition HdfRemoteServiceObtain (stub : nat) : M P (option Z) :=
  match remote_of stub with
  | Some r => modify (fun p : P => mkProcess (p_world p) (p_libs p) (r :: p_remotes p));; mret (Some r)
  | None => mret None
  end.

Definition LoadServiceHandler (impl : string) : M P bool := dlopen impl.

(** ** The callback stub, known by its block *)
Definition CodecCallbackTypeStubGetInstance : M P (option nat) :=
  p ← on_world (OsalMemAlloc sizeof_CodecCallbackTypeStub);
  match p with
  | None => mret None
  | Some stub =>
      remote ← HdfRemoteServiceObtain stub;
      match remote with
      | None => on_world (OsalMemFree stub);; mret None
      | Some r =>
          if negb (set_desc_ok r codec_desc) then mret None
          else
            dlHandler ← LoadServiceHandler OMX_CALLBACK_IMPLEMENT;
            if negb dlHandler then on_world (OsalMemFree stub);; mret None
            else if negb (dlsym_ok OMX_CALLBACK_IMPLEMENT "CodecCallbackTypeServiceConstruct")
            then dlclose OMX_CALLBACK_IMPLEMENT;; on_world (OsalMemFree stub);; mret None
            else mret (Some stub)
      end
  end.
Definition CodecCallbackTypeStubRelease (instance : option nat) : M P unit :=
  match instance with
  | None => mret tt
  | Some stub => dlclose OMX_CALLBACK_IMPLEMENT;; on_world (OsalMemFree stub)
  end.
End process.

(** ** The component stub and the driver *)
Record HdfCodecComponentTypeHost := mkHost { host_at : nat; host_instance : option nat }.
Record HdfDeviceObject (N : Type) := mkDevice { dev_property : option N; dev_service : option HdfCodecComponentTypeHost }.
Arguments mkDevice {N} _ _.
Arguments dev_property {N} _.
Arguments dev_service {N} _.

Section driver.
Context {SB : Type} `{!Platform SB} `{!HdfStatus} `{!Linker} {A : Type} `{!CodecTarget} {N : Type} `{!ResourceTree N} `{!FreshMemory}.
Abbreviation P := (Process SB (CodecServer A)).

(** The handle of the component is a field of the stub. *)
Definition new_stub (stub : nat) : M (World SB (CodecServer A)) unit :=
  x ← svc_state; set_svc (mkServer (junk_handle stub) (g_codecCapabilites x) (adapter x)).
Definition CodecComponentTypeStubGetInstance : M P (option nat) :=
  p ← on_world (OsalMemAlloc sizeof_CodecComponentTypeStub);
  match p with
  | None => mret None
  | Some stub =>
      on_world (new_stub stub);;
      dlHandler ← LoadServiceHandler CODEC_SERVICE_IMPL;
      if negb dlHandler then on_world (OsalMemFree stub);; mret None
      else if negb (dlsym_ok CODEC_SERVICE_IMPL "CodecComponentTypeServiceConstruct")
      then dlclose CODEC_SERVICE_IMPL;; on_world (OsalMemFree stub);; mret None
      else mret (Some stub)
  end.
Definition CodecComponentTypeStubRelease (instance : option nat) : M P unit :=
  match instance with
  | None => mret tt
  | Some stub => dlclose CODEC_SERVICE_IMPL;; on_world (OsalMemFree stub)
  end.

Definition HdfCodecComponentTypeDriverBind (deviceObject : HdfDeviceObject N) : M P (Z * HdfDeviceObject N) :=
  p ← on_world (OsalMemAlloc sizeof_HdfCodecComponentTypeHost);
  match p with
  | None => mret (HDF_FAILURE, deviceObject)
  | Some host =>
      let ret := HdfDeviceObjectSetInterfaceDesc codec_desc in
      if negb (ret =? HDF_SUCCESS) then mret (ret, deviceObject)
      else
        instance ← CodecComponentTypeStubGetInstance;
        match instance with
        | None => on_world (OsalMemFree host);; mret (HDF_FAILURE, deviceObject)
        | Some stub => mret (HDF_SUCCESS, mkDevice (dev_property deviceObject) (Some (mkHost host (Some stub))))
        end
  end.
Definition HdfCodecComponentTypeDriverRelease (deviceObject : HdfDeviceObject N) : M P unit :=
  host ← deref (dev_service deviceObject);
  CodecComponentTypeStubRelease (host_instance host);;
  on_world (OsalMemFree (host_at host));;
  on_world ClearCapabilityData;;
  mret tt.
End driver.

(** ** Rules *)
Section rules.
Context {SB : Type} `{!Platform SB} `{!HdfStatus, !HdfStatusLaws} `{!Linker} {X : Type}.
Implicit Types (p : Process SB X).
(** The process with other memory. *)
Definition with_memory L n p : Process SB X :=
  mkProcess (mkWorld (w_sbufs (p_world p)) L n (w_svc (p_world p))) (p_libs p) (p_remotes p).
Definition with_libs l p : Process SB X := mkProcess (p_world p) l (p_remotes p).
Abbreviation live p := (w_live (p_world p)).
Abbreviation next p := (w_next (p_world p)).

Lemma wp_world {A} (m : M (World SB X) A) p (Q : A -> Process SB X -> Prop) :
  wp m (fun a w => Q a (mkProcess w (p_libs p) (p_remotes p))) (p_world p) -> wp (on_world m) Q p.
Proof. intros Hwp. by apply wp_zoom. Qed.
Lemma wp_new size p (Q : option nat -> Process SB X -> Prop) :
  Q (Some (next p)) (with_memory ({[next p]} ∪ live p) (S (next p)) p) -> Q None (with_memory (live p) (S (next p)) p) ->
  wp (on_world (OsalMemAlloc size)) Q p.
Proof. intros Hs Hn. apply wp_world. unfold wp, OsalMemAlloc. by destruct (alloc_ok _ _). Qed.
Lemma wp_old k p (Q : unit -> Process SB X -> Prop) :
  k ∈ live p -> Q tt (with_memory (live p ∖ {[k]}) (next p) p) -> wp (on_world (OsalMemFree k)) Q p.
Proof. intros Hk HQ. apply wp_world. unfold wp, OsalMemFree. by rewrite decide_True. Qed.
Lemma wp_load path p (Q : bool -> Process SB X -> Prop) :
  Q true (with_libs (path :: p_libs p) p) -> Q false p -> wp (LoadServiceHandler path) Q p.
Proof. intros Ht Hf. unfold LoadServiceHandler, dlopen. by destruct (dlopen_ok path). Qed.
Lemma wp_unload path l p (Q : unit -> Process SB X -> Prop) : p_libs p = path :: l -> Q tt (with_libs l p) -> wp (dlclose path) Q p.
Proof.
  intros Hl HQ. unfold dlclose. apply wp_bind. apply wp_gets. rewrite Hl. cbn [close_one]. rewrite String.eqb_refl.
  apply wp_bind. eapply wp_deref; [done|]. by apply wp_modify.
Qed.

(** The life of the callback stub: what a failure leaves, and what a release
    does not give back. *)
Lemma callback_stub_life p :
  bounded (live p) (next p) ->
  exists res p1, CodecCallbackTypeStubGetInstance p = Some (res, p1) /\ w_svc (p_world p1) = w_svc (p_world p) /\
    match res with
    | Some stub => exists r, remote_of stub = Some r /\ p_remotes p1 = r :: p_remotes p /\
        exists p2, CodecCallbackTypeStubRelease res p1 = Some (tt, p2) /\ live p2 = live p /\ p_libs p2 = p_libs p /\ p_remotes p2 = r :: p_remotes p
    | None => p_libs p1 = p_libs p /\
        (live p1 = live p \/ live p1 = {[next p]} ∪ live p /\ exists r, remote_of (next p) = Some r /\ set_desc_ok r codec_desc = false)
    end.
Proof.
  intros Hb. assert (next p ∈ {[next p]} ∪ live p) as Hin by set_solver. pose proof (free_fresh _ _ Hb) as Hfree.
  assert (wp CodecCallbackTypeStubGetInstance (fun res p1 => w_svc (p_world p1) = w_svc (p_world p) /\
    match res with
    | Some stub => stub = next p /\ live p1 = {[next p]} ∪ live p /\ p_libs p1 = OMX_CALLBACK_IMPLEMENT :: p_libs p /\
        exists r, remote_of stub = Some r /\ p_remotes p1 = r :: p_remotes p
    | None => p_libs p1 = p_libs p /\
        (live p1 = live p \/ live p1 = {[next p]} ∪ live p /\ exists r, remote_of (next p) = Some r /\ set_desc_ok r codec_desc = false)
    end) p) as Hwp.
  { unfold CodecCallbackTypeStubGetInstance. apply wp_bind, wp_new; [|apply wp_ret; split_and!; [done | done | by left]].
    unfold HdfRemoteServiceObtain. destruct (remote_of (next p)) as [r|] eqn:Er.
    2: { apply wp_bind, wp_ret, wp_bind. apply wp_old; [done|]. apply wp_ret. cbn. split_and!; [done | done | by left]. }
    apply wp_bind, wp_bind, wp_modify, wp_ret. destruct (set_desc_ok r codec_desc) eqn:Es; cbn [negb].
    2: { apply wp_ret. split; [done|]. split; [done|]. right. split; [done|]. by exists r. }
    apply wp_bind, wp_load; cbn [negb].
    2: { apply wp_bind. apply wp_old; [done|]. apply wp_ret. cbn. split_and!; [done | done | by left]. }
    destruct (dlsym_ok _ _); cbn [negb].
    - apply wp_ret. split_and!; [done.. |]. by exists r.
    - apply wp_bind. eapply wp_unload; [done|]. apply wp_bind. apply wp_old; [done|]. apply wp_ret. cbn. split_and!; [done | done | by left]. }
  apply wp_inv in Hwp as (res & p1 & Hrun & Hsvc & Hres). exists res, p1. split; [done|]. split; [done|]. destruct res as [stub|]; [|done].
  destruct Hres as (-> & Hlive & Hlibs & r & Er & Hrem). exists r. split; [done|]. split; [done|].
  assert (wp (CodecCallbackTypeStubRelease (Some (next p))) (fun u p2 => live p2 = live p /\ p_libs p2 = p_libs p /\ p_remotes p2 = r :: p_remotes p) p1) as Hwp.
  { cbn. apply wp_bind. eapply wp_unload; [exact Hlibs|]. apply wp_old; cbn; [by rewrite Hlive|]. by rewrite Hlive, Hfree, Hrem. }
  apply wp_inv in Hwp as ([] & p2 & Hrun2 & H2). by exists p2.
Qed.
End rules.

(** ** The driver *)
Lemma table_inv_shrink L0 L n c k : k ∈ L0 -> table_inv L0 L n c -> table_inv (L0 ∖ {[k]}) (L ∖ {[k]}) n c.
Proof.
  intros Hk [T1 T2 T3 T4 T5]. split; [done | done | | | eapply bounded_mono; [exact T5 | set_solver]].
  - intros k'. rewrite !elem_of_difference, elem_of_singleton, T3. split; [tauto|]. intros [?|Ho]; [tauto|]. split; [by right|].
    intros ->. by apply (T4 k).
  - intros k' Ho Hk'. apply (T4 k' Ho). set_solver.
Qed.

Lemma two_blocks (X : gset nat) a b : a ∉ X -> b ∉ X -> (({[a]} ∪ ({[b]} ∪ X)) ∖ {[a]}) ∖ {[b]} = X.
Proof.
  intros Ha Hb. apply set_eq. intros x. rewrite !elem_of_difference, !elem_of_union, !elem_of_singleton.
  split; [tauto|]. intros Hx. split; [split; [tauto|]|]; by intros ->.
Qed.

Section life.
Context {SB : Type} `{!Platform SB} `{!HdfStatus, !HdfStatusLaws} `{!Linker} `{!CodecTarget, !CodecTargetLaws} {A : Type}.
Context {N : Type} `{!ResourceTree N, !ResourceLaws N} `{!FreshMemory, !FreshMemoryLaws}.
Implicit Types (p : Process SB (CodecServer A)) (d : HdfDeviceObject N).
Abbreviation live p := (w_live (p_world p)).
Abbreviation next p := (w_next (p_world p)).
Abbreviation table p := (g_codecCapabilites (w_svc (p_world p))).

(** Everything but the server's state. *)
Definition same_holdings p p' : Prop :=
  w_sbufs (p_world p') = w_sbufs (p_world p) /\ live p' = live p /\ p_libs p' = p_libs p /\ p_remotes p' = p_remotes p.
Definition bound d p d' p' : Prop :=
  d' = mkDevice (dev_property d) (Some (mkHost (next p) (Some (S (next p))))) /\
  w_sbufs (p_world p') = w_sbufs (p_world p) /\ live p' = {[S (next p)]} ∪ ({[next p]} ∪ live p) /\ next p' = S (S (next p)) /\
  p_libs p' = CODEC_SERVICE_IMPL :: p_libs p /\ p_remotes p' = p_remotes p /\ componentHandle (w_svc (p_world p')) = junk_handle (S (next p)).
(** A refused interface descriptor leaves the host behind. *)
Definition not_bound d p d' p' : Prop :=
  d' = d /\ (same_holdings p p' \/
    HdfDeviceObjectSetInterfaceDesc codec_desc <> HDF_SUCCESS /\ p' = with_memory ({[next p]} ∪ live p) (S (next p)) p).

Lemma stub_instance p (Q : option nat -> Process SB (CodecServer A) -> Prop) :
  bounded (live p) (next p) ->
  (forall p', w_sbufs (p_world p') = w_sbufs (p_world p) -> live p' = {[next p]} ∪ live p -> next p' = S (next p) ->
     p_libs p' = CODEC_SERVICE_IMPL :: p_libs p -> p_remotes p' = p_remotes p -> table p' = table p ->
     componentHandle (w_svc (p_world p')) = junk_handle (next p) -> Q (Some (next p)) p') ->
  (forall p', same_holdings p p' -> table p' = table p -> Q None p') ->
  wp CodecComponentTypeStubGetInstance Q p.
Proof.
  intros Hb Hs Hn. pose proof (free_fresh _ _ Hb) as Hfree. unfold CodecComponentTypeStubGetInstance.
  apply wp_bind, wp_new; [|by apply wp_ret, Hn].
  apply wp_bind. apply wp_world. unfold wp at 1. cbn [new_stub].
  apply wp_bind, wp_load; cbn [negb].
  2: { apply wp_bind. apply wp_old; [cbn; set_solver|]. apply wp_ret, Hn; [|done]. by split_and!. }
  destruct (dlsym_ok _ _); cbn [negb].
  - by apply wp_ret, Hs.
  - apply wp_bind. eapply wp_unload; [done|]. apply wp_bind. apply wp_old; [cbn; set_solver|]. apply wp_ret, Hn; [|done]. by split_and!.
Qed.

Lemma driver_bind d p :
  bounded (live p) (next p) ->
  exists ret d' p', HdfCodecComponentTypeDriverBind d p = Some ((ret, d'), p') /\ table p' = table p /\
    (ret = HDF_SUCCESS /\ bound d p d' p' \/ ret <> HDF_SUCCESS /\ not_bound d p d' p').
Proof.
  intros Hb. pose proof (free_fresh _ _ Hb) as Hfree.
  assert (wp (HdfCodecComponentTypeDriverBind d) (fun r p' => table p' = table p /\
    (r.1 = HDF_SUCCESS /\ bound d p r.2 p' \/ r.1 <> HDF_SUCCESS /\ not_bound d p r.2 p')) p) as Hwp.
  { unfold HdfCodecComponentTypeDriverBind. apply wp_bind, wp_new.
    2: { apply wp_ret. split; [done|]. right. split; [apply failure_error|]. split; [done | by left]. }
    destruct (Z.eqb_spec (HdfDeviceObjectSetInterfaceDesc codec_desc) HDF_SUCCESS) as [_|Hd]; cbn [negb].
    2: { apply wp_ret. split; [done|]. right. split; [done|]. split; [done|]. by right. }
    apply wp_bind. apply stub_instance; [by apply bounded_alloc | |].
    - intros p' G1 G2 G3 G4 G5 G6 G7. apply wp_ret. split; [done|]. left. split; [done|]. by split_and!.
    - intros p' (G1 & G2 & G3 & G4) G5. cbn in G2. apply wp_bind. apply wp_old; [rewrite G2; set_solver|]. apply wp_ret. split; [done|].
      right. split; [apply failure_error|]. split; [done|]. left. split_and!; cbn; try done. by rewrite G2. }
  apply wp_inv in Hwp as ([ret d'] & p' & Hrun & Hres). by exists ret, d', p'.
Qed.

Lemma driver_release d p L0 host stub libs :
  dev_service d = Some (mkHost host (Some stub)) -> p_libs p = CODEC_SERVICE_IMPL :: libs -> host <> stub ->
  table_inv ({[stub]} ∪ ({[host]} ∪ L0)) (live p) (next p) (table p) -> stub ∉ L0 -> host ∉ L0 ->
  exists p', HdfCodecComponentTypeDriverRelease d p = Some (tt, p') /\ table p' = blank_table /\
    w_sbufs (p_world p') = w_sbufs (p_world p) /\ live p' = L0 /\ p_libs p' = libs /\ p_remotes p' = p_remotes p.
Proof.
  intros Hd Hlibs Hne Hinv Hstub Hhost.
  assert (stub ∈ live p /\ host ∈ live p) as [G1 G2] by (split; apply (ti_live _ _ _ _ Hinv); left; set_solver).
  apply (table_inv_shrink _ _ _ _ stub) in Hinv; [|set_solver]. apply (table_inv_shrink _ _ _ _ host) in Hinv; [|set_solver].
  replace ((({[stub]} ∪ ({[host]} ∪ L0)) ∖ {[stub]}) ∖ {[host]}) with L0 in Hinv by (symmetry; by apply two_blocks).
  assert (wp (HdfCodecComponentTypeDriverRelease d) (fun _ p' => table p' = blank_table /\
    w_sbufs (p_world p') = w_sbufs (p_world p) /\ live p' = L0 /\ p_libs p' = libs /\ p_remotes p' = p_remotes p) p) as Hwp.
  { unfold HdfCodecComponentTypeDriverRelease. apply wp_bind. eapply wp_deref; [exact Hd|]. cbn [host_instance host_at CodecComponentTypeStubRelease].
    apply wp_bind, wp_bind. eapply wp_unload; [exact Hlibs|]. apply wp_old; [exact G1|]. apply wp_bind. apply wp_old; [cbn; set_solver|].
    apply wp_bind. apply wp_world. destruct p as [[sbufs L n [h c a]] lb rem]. apply (ClearCapabilityGroup_runs sbufs h a L0 _ n c); [done|]. by apply wp_ret. }
  apply wp_inv in Hwp as ([] & p' & Hrun & Hres). by exists p'.
Qed.

(** C6: the life of the driver.  Whatever memory, library or registration is
    refused and whatever the configuration holds, binding the driver is defined.
    When it succeeds, starting and releasing it are defined too, and after them the
    process holds the memory, the libraries and the buffers it held before, and the
    capability table is empty.  When it fails, the device has no service and
    nothing is kept, but for one case: when the interface descriptor cannot be set
    the host block is leaked. *)
Theorem driver_lifecycle d root g_res p :
  bounded (live p) (next p) -> table p = blank_table -> dev_property d = Some root ->
  exists ret d' p1, HdfCodecComponentTypeDriverBind d p = Some ((ret, d'), p1) /\
    (ret = HDF_SUCCESS /\ (exists p2 p3,
       on_world (HdfCodecComponentTypeDriverInit (Some (dev_property d')) g_res) p1 = Some ((HDF_SUCCESS, Some root), p2) /\
       HdfCodecComponentTypeDriverRelease d' p2 = Some (tt, p3) /\ same_holdings p p3 /\ table p3 = blank_table) \/
     ret <> HDF_SUCCESS /\ not_bound d p d' p1).
Proof.
  intros Hb Ht Hd. destruct (driver_bind d p Hb) as (ret & d' & p1 & Hrun & Ht1 & Hres). exists ret, d', p1. split; [done|].
  destruct Hres as [[-> Hbd]|]; [left | by right]. split; [done|]. destruct Hbd as (-> & B1 & B2 & B3 & B4 & B5 & _). cbn [dev_property]. rewrite Hd.
  assert (bounded (live p1) (next p1)) as Hb1 by (rewrite B2, B3; by do 2 apply bounded_alloc).
  destruct (driver_init root g_res (p_world p1) Hb1) as (w2 & Hrun2 & Ho & Hs); [by rewrite Ht1|].
  pose proof Ho as (O1 & _ & _ & O4).
  assert (table_inv (live p1) (w_live w2) (w_next w2) (g_codecCapabilites (w_svc w2))) as Hinv.
  { destruct Hs as [[_ Hinv]|(-> & -> & _)]; [done|]. apply table_inv_blank; [by intros [] | by eapply bounded_le]. }
  set (p2 := mkProcess w2 (p_libs p1) (p_remotes p1)). rewrite B2 in Hinv.
  assert (next p ∉ live p /\ S (next p) ∉ live p) as [F1 F2] by (split; intros Hin%Hb; lia).
  edestruct (driver_release (mkDevice (Some root) (Some (mkHost (next p) (Some (S (next p)))))) p2 (live p)) as (p3 & Hrun3 & R1 & R2 & R3 & R4 & R5);
    [done | exact B4 | lia | exact Hinv | exact F2 | exact F1 |].
  exists p2, p3. split_and!; [unfold on_world, zoom; by rewrite Hrun2 | done | | done].
  unfold same_holdings. split_and!; [by rewrite R2; cbn; rewrite O1 | done | done | by rewrite R5].
Qed.
End life.
