(* ===== verification/CodecCapsInstance.v ===== *)
(** * CodecCapsInstance: a configuration and its run

    A resource tree made of named nodes with attributes, which satisfies the
    contract of [CodecCapsSpec]; a configuration with a video encoder and an audio
    decoder; and the theorems of [CodecCapsRun] at it. *)
From S2P Require Import Prelude Hdf HdfQueue Rpc CodecTypes CodecService CodecInstance CodecWire CodecStub CodecProxy CodecRpc CodecManager CodecQuery.
From S2P Require Import CodecCaps CodecCapsSpec CodecCapsFacts CodecCapsLoad CodecCapsTable CodecCapsRun CodecDriver.
Open Scope Z_scope.

Inductive node := Node (node_name : string) (attrs : list (string * attr)) (children : list node).
Definition attr_ok (x : attr) : bool :=
  match x with
  | ANumber v => (0 <=? v) && (v <? 2 ^ 32)
  | AString s => forallb (fun c => (0 <? c) && (c <? 2 ^ 8)) s
  | AArray _ | AFlag => true
  end.
Definition named {A} (a : string) (l : list (string * A)) : option A := snd <$> find (fun p => String.eqb (fst p) a) l.
Definition attr_at (n : node) (a : string) : option attr :=
  match n with Node _ attrs _ => match named a attrs with Some x => if attr_ok x then Some x else None | None => None end end.

#[export] Instance plain_tree : ResourceTree node := {
  iface_there := true;
  node_children '(Node _ _ l) := l;
  GetChildNode '(Node _ _ l) name := find (fun '(Node s _ _) => String.eqb s name) l;
  GetUint32 n a d := match attr_at n a with Some (ANumber v) => (0, v) | _ => (-1, d) end;
  GetElemNum n a := match attr_at n a with Some (AArray l) => Z.of_nat (length l) | _ => -1 end;
  GetUint32Array n a c := match attr_at n a with Some (AArray l) => take (Z.to_nat c) l | _ => [] end;
  GetString n a d := match attr_at n a with Some (AString s) => (0, Some s) | _ => (-1, None) end;
  GetBool n a := match attr_at n a with Some AFlag => true | _ => false end;
}.
Lemma attr_at_ok n a x : attr_at n a = Some x -> attr_ok x = true.
Proof. destruct n as [s attrs l]. cbn. destruct (named a attrs) as [y|]; [|done]. destruct (attr_ok y) eqn:E; [by intros [= <-] | done]. Qed.
#[export] Instance plain_laws : ResourceLaws node.
Proof.
  refine {| node_attr := attr_at |}; cbn.
  - by intros n a v d ->.
  - intros n a l ->. by rewrite Nat2Z.id, firstn_all.
  - by intros n a s d ->.
  - intros n a. by destruct (attr_at n a) as [[]|].
  - by intros n a d ->.
  - intros n a d Hd. destruct (attr_at n a) as [[v|l|s|]|] eqn:E; cbn; [|lia..].
    apply attr_at_ok in E. cbn in E. apply andb_true_iff in E as [?%Z.leb_le ?%Z.ltb_lt]. lia.
  - intros n a c Hc. destruct (attr_at n a) as [[]|]; cbn; rewrite ?length_take; lia.
  - intros n a ret s Hs. destruct (attr_at n a) as [[v|l|s'|]|] eqn:E; [done | done | | done | done]. injection Hs as _ <-.
    apply attr_at_ok in E. cbn in E. apply Forall_forall. intros c Hc%list_elem_of_In.
    apply (proj1 (forallb_forall _ _) E) in Hc. apply andb_true_iff in Hc as [?%Z.ltb_lt ?%Z.ltb_lt]. lia.
Defined.

#[export] Instance plain_target : CodecTarget := { arm64 := false; OMX_COLOR_FormatUnused := 0 }.
#[export] Instance plain_target_laws : CodecTargetLaws.
Proof. by split. Qed.
(** Fresh memory holds the bytes 0xA5. *)
Definition stale_capability : CodecCompCapability :=
  mkCodecCompCapability 0xA5A5A5A5 0xA5A5A5A5 (replicate 32 0xA5) (replicate 256 0xA5) (i32 0xA5A5A5A5) true (i32 0xA5A5A5A5) 0xA5A5A5A5
    (mkRangeValue (i32 0xA5A5A5A5) (i32 0xA5A5A5A5)) (replicate 320 0xA5).
#[export] Instance plain_memory : FreshMemory := { junk_capability _ _ := stale_capability; junk_word _ _ := 0xA5A5A5A5 }.
#[export] Instance plain_memory_laws : FreshMemoryLaws.
Proof. split. intros ??. do 3 (split; [done|]). split; [by repeat constructor | done]. Qed.

(** ** A configuration *)
Definition chars (s : string) : list Z := map (fun c => Z.of_nat (Ascii.nat_of_ascii c)) (String.list_ascii_of_string s).
Definition avc_encoder : description :=
  mkDescription 1 1 (chars "OMX.hw.video.encoder.avc") [1; 2; 8] 4 false [1; 4] [1; 2; 8] (mkRangeValue 1 40000000)
    (inl (mkVideoPortCap (mkRect 176 144) (mkRect 1920 1088) (mkAlignment 16 8) (mkRangeValue 99 8160) (mkRangeValue 99 489600) (mkRect 16 16) [24; 25])).
Definition aac_decoder : description :=
  mkDescription 0x10000 2 (chars "OMX.sw.audio.decoder.aac") [0x1000] 2 true [] [4] (mkRangeValue 8000 320000)
    (inr (mkAudioPortCap [1; 2] [44100; 48000] [3] [1; 2])).
Definition small_catalog : catalog := fun g => match g with VideoHwEncoder => [avc_encoder] | AudioSwDecoder => [aac_decoder] | _ => [] end.
(** The node that writes a description down. *)
Definition node_of (d : description) : node :=
  Node "codec" (attrs_of d ++ if d_software d then [(CODEC_CONFIG_KEY_IS_SOFTWARE_CODEC, AFlag)] else []) [].
Definition tree_of (cat : catalog) : node := Node "root" [] (map (fun g => Node (codecGroupsNodeName g) [] (map node_of (cat g))) codecCapGroups).

Lemma avc_described : describes (node_of avc_encoder) avc_encoder /\ valid true avc_encoder.
Proof.
  split; [split; [by repeat constructor | done]|]. split; [done | done | | | done | by apply Z.leb_le | by apply Z.leb_le | done |].
  - split; [split; by apply Nat.ltb_lt | by repeat constructor].
  - split; [done | by repeat constructor].
  - split; [done|]. split; [by repeat constructor|]. by split; [|repeat constructor].
Qed.
Lemma aac_described : describes (node_of aac_decoder) aac_decoder /\ valid false aac_decoder.
Proof.
  split; [split; [by repeat constructor | done]|]. split; [done | done | | | done | by apply Z.leb_le | by apply Z.leb_le | done |].
  - split; [split; by apply Nat.ltb_lt | by repeat constructor].
  - split; [done | by repeat constructor].
  - split; [done|]. repeat (constructor; [by split; [|repeat constructor]|]). constructor.
Qed.
Lemma small_described : tree_describes (tree_of small_catalog) small_catalog.
Proof.
  pose proof avc_described as [V1 V2]. pose proof aac_described as [U1 U2].
  split; [done|]. intros g. exists (Node (codecGroupsNodeName g) [] (map node_of (small_catalog g))).
  destruct g; (split; [done|]; split; [|by repeat first [constructor | exact V2 | exact U2]]).
  1: by apply Forall2_cons_2.
  7: by apply Forall2_cons_2.
  all: constructor.
Qed.

(** ** Runs *)

(** The process before its start: block 3 belongs to something else. *)
Definition new_world : World (list item) (CodecServer omx_log) := mkWorld ∅ {[3%nat]} 5 (mkServer 42 blank_table []).
Lemma new_world_ok : world_ok new_world.
Proof. split; [done|]. intros k Hk. cbn in Hk |- *. set_unfold. lia. Qed.

Lemma driver_init_all_or_nothing_witness :
  exists w', HdfCodecComponentTypeDriverInit (Some (Some (tree_of small_catalog))) None new_world = Some ((HDF_SUCCESS, Some (tree_of small_catalog)), w') /\
    only_table new_world w' /\ (started (tree_of small_catalog) new_world w' \/ start_failed (tree_of small_catalog) new_world w') /\
    exists w'', ClearCapabilityData w' = Some (HDF_SUCCESS, w'') /\ only_table w' w'' /\
      g_codecCapabilites (w_svc w'') = blank_table /\ w_live w'' = w_live new_world.
Proof. apply (driver_init_all_or_nothing (tree_of small_catalog) None new_world); [apply new_world_ok | done]. Defined.

Lemma capabilities_reach_client_witness :
  exists w1 w2 w3 caps,
    HdfCodecComponentTypeDriverInit (Some (Some (tree_of small_catalog))) None new_world = Some ((HDF_SUCCESS, Some (tree_of small_catalog)), w1) /\
    GetComponentNum (Some log_service) w1 = Some (2, w2) /\
    GetComponentCapabilityList (Some log_service) [cap1; cap1; cap1] 2 w2 = Some ((HDF_SUCCESS, caps ++ [cap1]), w3) /\
    Forall2 means [avc_encoder; aac_decoder] caps.
Proof.
  apply (capabilities_reach_client zero_buffer zero_tunnel (tree_of small_catalog) None small_catalog [cap1; cap1; cap1] new_world);
    [exact queue_reliable | exact new_world_ok | done | exact small_described | split; by apply Nat.leb_le | done |].
  pose proof cap1_wf. by repeat constructor.
Defined.

(** A node that gives a role and a type only, in a tree with all the groups. *)
Definition nameless_node : node := Node "codec" [(CODEC_CONFIG_KEY_ROLE, ANumber 1); (CODEC_CONFIG_KEY_TYPE, ANumber 1)] [].
Definition nameless_tree : node :=
  Node "root" [] (map (fun g => Node (codecGroupsNodeName g) [] (if decide (g = VideoHwEncoder) then [nameless_node] else [])) codecCapGroups).
Definition stale : CodecCompCapability := stale_entry 1 stale_capability.

Lemma nameless_memory_sent_witness :
  configured nameless_tree = 1 /\
  exists w1 w2 w3 caps k,
    HdfCodecComponentTypeDriverInit (Some (Some nameless_tree)) None new_world = Some ((HDF_SUCCESS, Some nameless_tree), w1) /\
    k ∉ w_live new_world /\ k ∈ w_live w1 /\ capablitis_at (group_of VideoHwEncoder (g_codecCapabilites (w_svc w1))) = Some k /\
    GetComponentNum (Some log_service) w1 = Some (configured nameless_tree, w2) /\
    GetComponentCapabilityList (Some log_service) [cap1; cap1] (configured nameless_tree) w2 =
      Some ((HDF_SUCCESS, caps ++ drop (Z.to_nat (configured nameless_tree)) [cap1; cap1]), w3) /\
    length caps = Z.to_nat (configured nameless_tree) /\ stale_entry 1 (junk_capability k 0) ∈ caps.
Proof.
  split; [reflexivity|].
  apply (nameless_memory_sent zero_buffer zero_tunnel nameless_tree None VideoHwEncoder
    (Node (codecGroupsNodeName VideoHwEncoder) [] [nameless_node]) 0%nat nameless_node 1 [cap1; cap1] new_world);
    [exact queue_reliable | exact new_world_ok | done | | done | done | | done | done |].
  - intros []; (split; [done | by eexists]).
  - split; [by exists 1 | done].
  - pose proof cap1_wf. by repeat constructor.
Defined.

(** The same by evaluation: the only capability the client gets. *)
Example stale_memory_sent :
  match HdfCodecComponentTypeDriverInit (Some (Some nameless_tree)) None new_world with
  | Some (_, w1) =>
      match GetComponentNum (Some log_service) w1 with
      | Some (n, w2) =>
          n = 1 /\ match GetComponentCapabilityList (Some log_service) [cap1] n w2 with Some (p, _) => p = (HDF_SUCCESS, [stale]) | None => False end
      | None => False
      end
  | None => False
  end.
Proof. vm_compute. by split. Qed.

(** One group node is missing: the other groups are lost with it. *)
Definition partial_tree : node := Node "root" [] [Node NODE_VIDEO_HARDWARE_ENCODERS [] [node_of avc_encoder]].
Example missing_group_discards_all :
  match LoadCodecCapabilityFromHcs (Some partial_tree) new_world with
  | Some (ret, w1) =>
      ret = HDF_FAILURE /\ inited (g_codecCapabilites (w_svc w1)) = false /\ num (videoHwEncoderGroup (g_codecCapabilites (w_svc w1))) = 1 /\
      match HdfCodecComponentTypeDriverInit (Some (Some partial_tree)) None new_world with
      | Some (p, w2) => g_codecCapabilites (w_svc w2) = blank_table /\ w_live w2 = w_live new_world
      | None => False
      end
  | None => False
  end.
Proof. vm_compute. by repeat split. Qed.

(** ** The driver *)
#[export] Instance plain_linker : Linker := {
  dlopen_ok _ := true; dlsym_ok _ _ := true; remote_of stub := Some (Z.of_nat stub); HdfDeviceObjectSetInterfaceDesc _ := 0;
  sizeof_CodecComponentTypeStub := 200; sizeof_CodecCallbackTypeStub := 64; sizeof_HdfCodecComponentTypeHost := 48; junk_handle _ := 0xA5A5A5A5;
}.
Definition new_device : HdfDeviceObject node := mkDevice (Some (tree_of small_catalog)) None.
Definition new_process : Process (list item) (CodecServer omx_log) := mkProcess new_world [] [].

Lemma driver_lifecycle_witness :
  exists ret d' p1, HdfCodecComponentTypeDriverBind new_device new_process = Some ((ret, d'), p1) /\
    (ret = HDF_SUCCESS /\ (exists p2 p3,
       on_world (HdfCodecComponentTypeDriverInit (Some (dev_property d')) None) p1 = Some ((HDF_SUCCESS, Some (tree_of small_catalog)), p2) /\
       HdfCodecComponentTypeDriverRelease d' p2 = Some (tt, p3) /\ same_holdings new_process p3 /\
       g_codecCapabilites (w_svc (p_world p3)) = blank_table) \/
     ret <> HDF_SUCCESS /\ not_bound new_device new_process d' p1).
Proof. apply (driver_lifecycle new_device (tree_of small_catalog) None new_process); [apply new_world_ok | done | done]. Defined.

(** A new stub holds the handle that its memory held: a request that comes before
    a component is created reaches the adapter with it. *)
Example stale_handle_used :
  match HdfCodecComponentTypeDriverBind new_device new_process with
  | Some (p, p1) =>
      p.1 = HDF_SUCCESS /\
      match remote_call (SB := list item) (A := omx_log) zero_buffer zero_tunnel (mkOutParams [] 0 []) ReqGetState (p_world p1) with
      | Some (_, w) => adapter (w_svc w) = [(0xA5A5A5A5, ReqGetState)]
      | None => False
      end
  | None => False
  end.
Proof. vm_compute. by split. Qed.

(** An interface descriptor that is refused, and the host block. *)
Definition refusing_linker : Linker := {|
  dlopen_ok _ := true; dlsym_ok _ _ := true; remote_of stub := Some (Z.of_nat stub); HdfDeviceObjectSetInterfaceDesc _ := -1;
  sizeof_CodecComponentTypeStub := 200; sizeof_CodecCallbackTypeStub := 64; sizeof_HdfCodecComponentTypeHost := 48; junk_handle _ := 0;
|}.
Example bind_leaks_host :
  match @HdfCodecComponentTypeDriverBind (list item) _ _ refusing_linker omx_log node new_device new_process with
  | Some (p, p1) => p.1 = -1 /\ w_live (p_world p1) = {[5%nat]} ∪ w_live new_world
  | None => False
  end.
Proof. vm_compute. by split. Qed.

(** A callback stub made and released: its remote object stays. *)
Example callback_stub_keeps_remote :
  match CodecCallbackTypeStubGetInstance new_process with
  | Some (stub, p1) =>
      stub = Some 5%nat /\
      match CodecCallbackTypeStubRelease stub p1 with
      | Some (_, p2) => w_live (p_world p2) = w_live new_world /\ p_libs p2 = [] /\ p_remotes p2 = [5]
      | None => False
      end
  | None => False
  end.
Proof. vm_compute. by repeat split. Qed.
