(* ===== verification/Input.v ===== *)
(** * Input: the device manager of the input HAL and what it runs on

    Models [input/hal/src/input_manager.c].  A device is opened by binding the I/O
    service of its driver; the drivers, and the calls of the framework that bind a
    service, send it a command and listen to its events, are a class of operations.
    Input is the state of the process: the manager, the services it holds, the
    listeners the framework will call, and the calls made to the application. *)
From stdpp Require Import pretty.
From S2P Require Import Prelude Hdf Arrays.
Open Scope Z_scope.

(** ** Constants *)
Definition MAX_INPUT_DEV_NUM : Z := 32.
Definition CHIP_INFO_LEN : Z := 10.
Definition CHIP_NAME_LEN : Z := 10.
Definition VENDOR_NAME_LEN : Z := 10.
Definition SELF_TEST_RESULT_LEN : Z := 20.
Definition DEV_MANAGER_SERVICE_NAME : string := "hdf_input_host".
Definition SERVICE_NAME_LEN : Z := 24.
Definition PLACEHOLDER_LENGTH : Z := 2.
Definition PLACEHOLDER_LIMIT : Z := 10.
Definition INPUT_SUCCESS : Z := 0.
Definition INPUT_FAILURE : Z := -1.
Definition INPUT_INVALID_PARAM : Z := -2.
Definition INPUT_NOMEM : Z := -3.
Definition INPUT_NULL_PTR : Z := -4.
Definition INDEV_TYPE_UNKNOWN : Z := 39.
Definition INPUT_POWER_STATUS_UNKNOWN : Z := 3.
Definition TEST_TYPE_UNKNOWN : Z := 4.
Definition sizeof_DevDesc : Z := 8.

(** The sizes of structures; some depend on headers of the kernel. *)
Class InputTypes := { sizeof : string -> Z }.

(** ** Data *)

(** The attributes and abilities of a device are copied as bytes. *)
Record DeviceInfo := mkDeviceInfo {
  devIndex : Z;
  devType : Z;
  chipInfo : list Z;
  vendorName : list Z;
  chipName : list Z;
  attrSet : list Z;
  abilitySet : list Z;
}.
Definition set_devType v (d : DeviceInfo) := mkDeviceInfo (devIndex d) v (chipInfo d) (vendorName d) (chipName d) (attrSet d) (abilitySet d).
Definition set_chipInfo v (d : DeviceInfo) := mkDeviceInfo (devIndex d) (devType d) v (vendorName d) (chipName d) (attrSet d) (abilitySet d).
Definition set_vendorName v (d : DeviceInfo) := mkDeviceInfo (devIndex d) (devType d) (chipInfo d) v (chipName d) (attrSet d) (abilitySet d).
Definition set_chipName v (d : DeviceInfo) := mkDeviceInfo (devIndex d) (devType d) (chipInfo d) (vendorName d) v (attrSet d) (abilitySet d).
Definition set_attrSet v (d : DeviceInfo) := mkDeviceInfo (devIndex d) (devType d) (chipInfo d) (vendorName d) (chipName d) v (abilitySet d).
Definition set_abilitySet v (d : DeviceInfo) := mkDeviceInfo (devIndex d) (devType d) (chipInfo d) (vendorName d) (chipName d) (attrSet d) v.

(** A node of the device list and its block.  A callback is known by a number. *)
Record DeviceInfoNode := mkNode { node_at : nat; payload : DeviceInfo; service : nat; listener : option nat; eventCb : option Z }.
Definition set_payload v (p : DeviceInfoNode) := mkNode (node_at p) v (service p) (listener p) (eventCb p).
Definition set_callback l cb (p : DeviceInfoNode) := mkNode (node_at p) (payload p) (service p) l cb.
Record InputHostDev := mkHostDev { host_service : option nat; host_listener : option nat; hostCb : option Z }.
Record InputDevManager := mkManager {
  manager_at : nat;
  devList : list DeviceInfoNode;
  attachedDevNum : Z;
  evtCallbackNum : Z;
  mutex : bool;
  hostDev : InputHostDev;
}.
Definition set_devices l n (m : InputDevManager) := mkManager (manager_at m) l n (evtCallbackNum m) (mutex m) (hostDev m).
Definition set_devList l (m : InputDevManager) := set_devices l (attachedDevNum m) m.
Definition set_evtCallbackNum n (m : InputDevManager) := mkManager (manager_at m) (devList m) (attachedDevNum m) n (mutex m) (hostDev m).
Definition set_mutex b (m : InputDevManager) := mkManager (manager_at m) (devList m) (attachedDevNum m) (evtCallbackNum m) b (hostDev m).
Definition set_hostDev h (m : InputDevManager) := mkManager (manager_at m) (devList m) (attachedDevNum m) (evtCallbackNum m) (mutex m) h.
(** The tables of functions, by their blocks. *)
Record IInputInterface := mkInterface { interface_at : nat; iInputManager : option nat; iInputController : option nat; iInputReporter : option nat }.

(** The function of a listener, and a call of a callback of the application. *)
Inductive listener_kind := ReportListener | HotPlugListener.
Inductive report := EventPkgs (cb : Z) (pkgs : list (list Z)) (index : Z) | HotPlugged (cb : Z) (event : list Z).

Record Input (D : Type) := mkInput {
  g_devManager : option InputDevManager;
  services : gmap nat string;
  registered : list (nat * (nat * listener_kind));
  drivers : D;
  reports : list report;
}.
Arguments mkInput {D} _ _ _ _ _.
Arguments g_devManager {D} _.
Arguments services {D} _.
Arguments registered {D} _.
Arguments drivers {D} _.
Arguments reports {D} _.

(** What the drivers answer: whether there is a service of a name, the status of
    adding and removing a listener, and a command with its messages. *)
Class InputDrivers (SB D : Type) := {
  bind_ok : string -> D -> bool;
  listen_status : string -> D -> Z;
  unlisten_status : string -> D -> Z;
  io_dispatch : string -> Z -> option SB -> SB -> D -> Z * SB * D;
}.

(** ** Strings *)
Definition chars (s : string) : list Z := map (fun c => Z.of_nat (Ascii.nat_of_ascii c)) (String.list_ascii_of_string s).
(** [strncpy_s] of the C library: the status and the destination. *)
Definition strncpy_s (dest : list Z) (destMax : Z) (src : list Z) (count : Z) : Z * list Z :=
  let n := Z.min count (len src) in
  if n <? destMax then (0, take (Z.to_nat n) src ++ [0] ++ drop (S (Z.to_nat n)) dest) else (162, <[0%nat := 0]> dest).
(** The string in an array. *)
Fixpoint before_nul (l : list Z) : list Z := match l with [] => [] | c :: l => if c =? 0 then [] else c :: before_nul l end.

Section input.
Context {SB : Type} `{!Platform SB} `{!HdfStatus} `{!InputTypes} {D : Type} `{!InputDrivers SB D}.
Abbreviation M := (M (World SB (Input D))).

(** ** The framework *)
Definition upd_input (f : Input D -> Input D) : M unit := x ← svc_state; set_svc (f x).
Definition set_manager m (x : Input D) := mkInput m (services x) (registered x) (drivers x) (reports x).
Definition set_services s (x : Input D) := mkInput (g_devManager x) s (registered x) (drivers x) (reports x).
Definition set_registered l (x : Input D) := mkInput (g_devManager x) (services x) l (drivers x) (reports x).
Definition set_drivers (d : D) (x : Input D) : Input D := mkInput (g_devManager x) (services x) (registered x) d (reports x).
Definition add_report r (x : Input D) := mkInput (g_devManager x) (services x) (registered x) (drivers x) (reports x ++ [r]).

Definition malloc (type : string) : M (option nat) := OsalMemAlloc (sizeof type).
Definition free (k : nat) : M unit := OsalMemFree k.
Definition free_opt (k : option nat) : M unit := match k with Some k => free k | None => mret tt end.

(** A name for a service. *)
Definition fresh : M nat := fun w => Some (w_next w, mkWorld (w_sbufs w) (w_live w) (S (w_next w)) (w_svc w)).
Definition HdfIoServiceBind (name : string) : M (option nat) :=
  x ← svc_state;
  if bind_ok name (drivers x) then s ← fresh; upd_input (fun x => set_services (<[s := name]> (services x)) x);; mret (Some s)
  else mret None.
(** Nothing happens without a service; one that was recycled is not there any more,
    and its listeners are not called any more. *)
Definition HdfIoServiceRecycle (s : option nat) : M unit :=
  match s with
  | None => mret tt
  | Some s =>
      x ← svc_state;
      deref (services x !! s);;
      upd_input (fun x => set_registered (filter (fun p => p.1 <> s) (registered x)) (set_services (delete s (services x)) x))
  end.
Definition HdfDeviceRegisterEventListener (s l : nat) (k : listener_kind) : M Z :=
  x ← svc_state;
  name ← deref (services x !! s);
  let ret := listen_status name (drivers x) in
  (if ret =? 0 then upd_input (fun x => set_registered (registered x ++ [(s, (l, k))]) x) else mret tt);;
  mret ret.
Definition HdfDeviceUnregisterEventListener (s l : option nat) : M Z :=
  match s, l with
  | Some s, Some l =>
      x ← svc_state;
      name ← deref (services x !! s);
      let ret := unlisten_status name (drivers x) in
      (if ret =? 0 then upd_input (fun x => set_registered (filter (fun p => ~ (p.1 = s /\ p.2.1 = l)) (registered x)) x) else mret tt);;
      mret ret
  | _, _ => mret HDF_ERR_INVALID_PARAM
  end.
(** [service->dispatcher->Dispatch] *)
Definition Dispatch (s : nat) (cmd : Z) (data : option nat) (reply : nat) : M Z := fun w =>
  match services (w_svc w) !! s, w_sbufs w !! reply with
  | Some name, Some sr =>
      let '(ret, sr, d) := io_dispatch name cmd (data ≫= fun k => w_sbufs w !! k) sr (drivers (w_svc w)) in
      Some (ret, mkWorld (<[reply := sr]> (w_sbufs w)) (w_live w) (w_next w) (set_drivers d (w_svc w)))
  | _, _ => None
  end.
(** Null is the empty buffer. *)
Definition HdfSbufReadBuffer : nat -> M (option (list Z)) := read_as KBuffer (fun i => match i with IBuffer v => Some v | _ => None end).

(** ** The manager *)
Definition GetDevManager : M (option InputDevManager) := x ← svc_state; mret (g_devManager x).
Definition upd_manager (f : InputDevManager -> InputDevManager) : M unit :=
  m ← GetDevManager; m ← deref m; upd_input (set_manager (Some (f m))).
(** A thread that takes the mutex it holds blocks for ever. *)
Definition pthread_mutex_lock : M unit := m ← GetDevManager; m ← deref m; if mutex m then undefined else upd_manager (set_mutex true).
Definition pthread_mutex_unlock : M unit := upd_manager (set_mutex false).

Fixpoint find_node (index : Z) (l : list DeviceInfoNode) : option (nat * DeviceInfoNode) :=
  match l with
  | [] => None
  | pos :: l => if devIndex (payload pos) =? index then Some (0%nat, pos) else prod_map S id <$> find_node index l
  end.
Definition upd_node (k : nat) (f : DeviceInfoNode -> DeviceInfoNode) : M unit := upd_manager (fun m => set_devList (alter f k (devList m)) m).
(** The loop of most functions: [body] runs for the first node of the device, with
    the mutex held; every return of the loop releases it. *)
Definition on_device {B} (index : Z) (failure : B) (body : nat -> DeviceInfoNode -> M B) : M B :=
  m ← GetDevManager;
  match m with
  | None => mret failure
  | Some m =>
      pthread_mutex_lock;;
      match find_node index (devList m) with
      | Some (k, pos) => r ← body k pos; pthread_mutex_unlock;; mret r
      | None => pthread_mutex_unlock;; mret failure
      end
  end.

Definition CloseInputDevice (index : Z) : M Z :=
  on_device index INPUT_FAILURE (fun k pos =>
    HdfIoServiceRecycle (Some (service pos));;
    free (node_at pos);;
    upd_manager (fun m => set_devices (delete k (devList m)) (u32 (attachedDevNum m - 1)) m);;
    mret INPUT_SUCCESS).

Definition no_info (index : Z) : DeviceInfo :=
  mkDeviceInfo index 0 (replicate (Z.to_nat CHIP_INFO_LEN) 0) (replicate (Z.to_nat VENDOR_NAME_LEN) 0) (replicate (Z.to_nat CHIP_NAME_LEN) 0)
    (replicate (Z.to_nat (sizeof "DevAttr")) 0) (replicate (Z.to_nat (sizeof "DevAbility")) 0).
Definition AddService (index : Z) (s : nat) : M Z :=
  m ← GetDevManager;
  match m with
  | None => mret INPUT_FAILURE
  | Some _ =>
      p ← malloc "DeviceInfoNode";
      match p with
      | None => mret INPUT_NOMEM
      | Some device =>
          pthread_mutex_lock;;
          upd_manager (fun m => set_devices (devList m ++ [mkNode device (no_info index) s None None]) (u32 (attachedDevNum m + 1)) m);;
          pthread_mutex_unlock;;
          mret INPUT_SUCCESS
      end
  end.

Definition CheckIndex (index : Z) : M Z :=
  if MAX_INPUT_DEV_NUM <=? index then mret INPUT_INVALID_PARAM
  else
    m ← GetDevManager;
    match m with
    | None => mret INPUT_FAILURE
    | Some m =>
        pthread_mutex_lock;;
        match find_node index (devList m) with
        | Some _ => pthread_mutex_unlock;; mret INPUT_FAILURE
        | None => pthread_mutex_unlock;; mret INPUT_SUCCESS
        end
    end.

(** [snprintf_s] with ["%s%u"]: the name, unless it is too long. *)
Definition snprintf_s (destMax count : Z) (prefix : string) (v : Z) : option string :=
  let s := prefix +:+ pretty v in
  if (Z.of_nat (String.length s) <=? count) && (Z.of_nat (String.length s) <? destMax) then Some s else None.
Definition OpenInputDevice (index : Z) : M Z :=
  ret ← CheckIndex index;
  if negb (ret =? INPUT_SUCCESS) then mret INPUT_FAILURE
  else
    let len := if index <? PLACEHOLDER_LIMIT then 1 else PLACEHOLDER_LENGTH in
    match snprintf_s SERVICE_NAME_LEN (Z.of_nat (String.length "hdf_input_event") + len) "hdf_input_event" index with
    | None => mret INPUT_FAILURE
    | Some serviceName =>
        s ← HdfIoServiceBind serviceName;
        match s with
        | None => mret INPUT_NULL_PTR
        | Some s =>
            ret ← AddService index s;
            if ret <? 0 then HdfIoServiceRecycle (Some s);; mret INPUT_FAILURE else mret INPUT_SUCCESS
        end
    end.

(** The descriptors in the order of the reply; the array from the current index on. *)
Fixpoint scan_loop (reply : nat) (staArr : list (list Z)) (n : nat) {struct n} : M (list (list Z)) :=
  match n with
  | O => mret staArr
  | S n =>
      o ← HdfSbufReadBuffer reply;
      match o with
      | Some data =>
          if negb (len data =? sizeof_DevDesc) then mret staArr
          else match staArr with [] => undefined | _ :: staArr => r ← scan_loop reply staArr n; mret (data :: r) end
      | None => mret staArr
      end
  end.
Definition ScanInputDevice (staArr : list (list Z)) (arrLen : Z) : M (Z * list (list Z)) :=
  m ← GetDevManager;
  match m with
  | None => mret (INPUT_FAILURE, staArr)
  | Some m =>
      pthread_mutex_lock;;
      (match host_service (hostDev m) with
       | None => s ← HdfIoServiceBind DEV_MANAGER_SERVICE_NAME;
                 upd_manager (fun m => set_hostDev (mkHostDev s (host_listener (hostDev m)) (hostCb (hostDev m))) m)
       | Some _ => mret tt
       end);;
      m ← GetDevManager; m ← deref m;
      pthread_mutex_unlock;;
      match host_service (hostDev m) with
      | None => mret (INPUT_FAILURE, staArr)
      | Some s =>
          reply ← HdfSbufTypedObtain;
          match reply with
          | None => mret (INPUT_FAILURE, staArr)
          | Some reply =>
              ret ← Dispatch s 0 None reply;
              if negb (ret =? INPUT_SUCCESS) then HdfSbufRecycle reply;; mret (INPUT_FAILURE, staArr)
              else r ← scan_loop reply staArr (Z.to_nat arrLen); HdfSbufRecycle reply;; mret (INPUT_SUCCESS, r)
          end
      end
  end.

(** The number of devices and the pointers to their information, the blocks of the
    nodes; [size] is the room of the array. *)
Fixpoint list_loop (l : list DeviceInfoNode) (room : nat) : bool * list nat :=
  match l, room with
  | [], _ => (true, [])
  | _ :: _, O => (false, [])
  | pos :: l, S room => let '(ok, r) := list_loop l room in (ok, node_at pos :: r)
  end.
Definition GetInputDeviceList (size : Z) : M (Z * Z * list nat) :=
  m ← GetDevManager;
  match m with
  | None => mret (INPUT_FAILURE, 0, [])
  | Some m =>
      pthread_mutex_lock;;
      let '(ok, deviceList) := list_loop (devList m) (Z.to_nat size) in
      pthread_mutex_unlock;;
      mret (if ok then INPUT_SUCCESS else INPUT_FAILURE, attachedDevNum m, deviceList)
  end.
(** Following such a pointer. *)
Definition read_info (p : nat) : M DeviceInfo :=
  m ← GetDevManager; m ← deref m;
  pos ← deref (List.find (fun pos => (node_at pos =? p)%nat) (devList m));
  mret (payload pos).

(** ** The interface *)
Definition InstanceManagerHdi : M (Z * option nat) := p ← malloc "InputManager"; mret (match p with Some _ => INPUT_SUCCESS | None => INPUT_NOMEM end, p).
Definition InstanceControllerHdi : M (Z * option nat) := p ← malloc "InputController"; mret (match p with Some _ => INPUT_SUCCESS | None => INPUT_NOMEM end, p).
Definition InstanceReporterHdi : M (Z * option nat) := p ← malloc "InputReporter"; mret (match p with Some _ => INPUT_SUCCESS | None => INPUT_NOMEM end, p).
Definition FreeInputHdi (hdi : IInputInterface) : M unit :=
  free_opt (iInputManager hdi);; free_opt (iInputController hdi);; free_opt (iInputReporter hdi);; free (interface_at hdi).
Definition InstanceInputHdi : M (option IInputInterface) :=
  hdi ← malloc "IInputInterface";
  match hdi with
  | None => mret None
  | Some hdi =>
      '(ret, m) ← InstanceManagerHdi;
      if negb (ret =? INPUT_SUCCESS) then FreeInputHdi (mkInterface hdi m None None);; mret None
      else
        '(ret, c) ← InstanceControllerHdi;
        if negb (ret =? INPUT_SUCCESS) then FreeInputHdi (mkInterface hdi m c None);; mret None
        else
          '(ret, r) ← InstanceReporterHdi;
          if negb (ret =? INPUT_SUCCESS) then FreeInputHdi (mkInterface hdi m c r);; mret None
          else mret (Some (mkInterface hdi m c r))
  end.
Definition InitDevManager : M Z :=
  manager ← malloc "InputDevManager";
  match manager with
  | None => mret INPUT_NOMEM
  | Some manager => upd_input (set_manager (Some (mkManager manager [] 0 0 false (mkHostDev None None None))));; mret INPUT_SUCCESS
  end.
Definition GetInputInterface : M (Z * option IInputInterface) :=
  hdi ← InstanceInputHdi;
  match hdi with
  | None => mret (INPUT_NULL_PTR, None)
  | Some hdi =>
      ret ← InitDevManager;
      if negb (ret =? INPUT_SUCCESS) then FreeInputHdi hdi;; mret (INPUT_FAILURE, None) else mret (INPUT_SUCCESS, Some hdi)
  end.

Definition FreeDevManager : M unit :=
  m ← GetDevManager; m ← deref m;
  HdfDeviceUnregisterEventListener (host_service (hostDev m)) (host_listener (hostDev m));;
  free_opt (host_listener (hostDev m));;
  HdfIoServiceRecycle (host_service (hostDev m));;
  pthread_mutex_unlock;;
  free (manager_at m);;
  upd_input (set_manager None).
Fixpoint release_loop (l : list DeviceInfoNode) : M unit :=
  match l with
  | [] => mret tt
  | pos :: l =>
      HdfDeviceUnregisterEventListener (Some (service pos)) (listener pos);;
      free_opt (listener pos);;
      HdfIoServiceRecycle (Some (service pos));;
      upd_manager (fun m => set_devList l m);;
      free (node_at pos);;
      release_loop l
  end.
Definition ReleaseInputInterface (inputInterface : option IInputInterface) : M unit :=
  match inputInterface with
  | None => mret tt
  | Some hdi =>
      FreeInputHdi hdi;;
      m ← GetDevManager;
      match m with
      | None => mret tt
      | Some m => pthread_mutex_lock;; release_loop (devList m);; FreeDevManager
      end
  end.
End input.
