(* ===== verification/InputOps.v ===== *)
(** * InputOps: the controller and the reporter of the input HAL

    Models [input/hal/src/input_controller.c] (commands to the driver of a device
    and what it answers) and [input/hal/src/input_reporter.c] (listeners and the
    callbacks of the application). *)
From S2P Require Import Prelude Hdf Arrays Input.
Open Scope Z_scope.

(** ** Commands: [enum InputIOsvcCmdId] *)
Definition GET_DEV_TYPE : Z := 0.
Definition SET_PWR_STATUS : Z := 1.
Definition GET_PWR_STATUS : Z := 2.
Definition GET_CHIP_INFO : Z := 3.
Definition GET_VENDOR_NAME : Z := 4.
Definition GET_CHIP_NAME : Z := 5.
Definition GET_DEV_ATTR : Z := 6.
Definition GET_DEV_ABILITY : Z := 7.
Definition SET_GESTURE_MODE : Z := 8.
Definition RUN_CAPAC_TEST : Z := 9.
Definition RUN_EXTRA_CMD : Z := 10.
Definition MAX_EVENT_PKG_NUM : nat := 100.

(** What [in] and [out] point to. *)
Inductive cmd_in := InWord (v : Z) | InExtra (cmdCode cmdValue : string).
Inductive cmd_out := OutWord (v : Z) | OutChars (l : list Z) | OutBytes (l : list Z).
Definition out_word (o : option cmd_out) (v : Z) : Z := match o with Some (OutWord v) => v | _ => v end.
Definition out_list (o : option cmd_out) (l : list Z) : list Z := match o with Some (OutChars l) | Some (OutBytes l) => l | _ => l end.

Section controller.
Context {SB : Type} `{!Platform SB} `{!HdfStatus} `{!InputTypes} {D : Type} `{!InputDrivers SB D}.
Abbreviation M := (M (World SB (Input D))).

(** ** The controller *)
Definition FillSbufData (data : nat) (cmd : Z) (input : cmd_in) : M bool :=
  if (cmd =? SET_PWR_STATUS) || (cmd =? SET_GESTURE_MODE) || (cmd =? RUN_CAPAC_TEST) then
    match input with InWord v => HdfSbufWriteUint32 data v | InExtra _ _ => undefined end
  else if cmd =? RUN_EXTRA_CMD then
    match input with
    | InExtra cmdCode cmdValue => ret ← HdfSbufWriteString data cmdCode; if (ret : bool) then HdfSbufWriteString data cmdValue else mret false
    | InWord _ => undefined
    end
  else mret false.

Definition ReadStrBuf (reply : nat) (buf : list Z) (length : Z) : M (bool * list Z) :=
  tempStr ← HdfSbufReadString reply;
  match tempStr with
  | Some tempStr =>
      let src := before_nul (chars tempStr) in
      let '(ret, buf) := strncpy_s buf length src (len src) in
      mret (ret =? 0, buf)
  | None => mret (false, buf)
  end.
(** Copying [n] bytes from a buffer of the message, whatever its length. *)
Definition memcpy_from (n : Z) (dest src : list Z) : M (bool * list Z) :=
  if (length src =? 0)%nat then mret (false, replicate (Z.to_nat n) 0)
  else if len src <? n then undefined
  else mret (true, take (Z.to_nat n) src).
Definition ReadAttrBuf (data : nat) (attr : list Z) : M (bool * list Z) :=
  tmpAttr ← HdfSbufReadBuffer data;
  match tmpAttr with None => mret (false, attr) | Some tmpAttr => memcpy_from (sizeof "DevAttr") attr tmpAttr end.
Definition ReadAbilityBuf (data : nat) (ability : list Z) : M (bool * list Z) :=
  tmpAbility ← HdfSbufReadBuffer data;
  match tmpAbility with None => mret (false, ability) | Some tmpAbility => memcpy_from (sizeof "DevAbility") ability tmpAbility end.

Definition ObtainSbufData (reply : nat) (cmd : Z) (out : cmd_out) (length : Z) : M (bool * cmd_out) :=
  if (cmd =? GET_PWR_STATUS) || (cmd =? GET_DEV_TYPE) then
    tempInt ← HdfSbufReadUint32 reply;
    mret (match tempInt with Some v => (true, OutWord v) | None => (false, out) end)
  else if (cmd =? GET_CHIP_INFO) || (cmd =? GET_VENDOR_NAME) || (cmd =? GET_CHIP_NAME) || (cmd =? RUN_CAPAC_TEST) then
    match out with OutChars buf => '(ret, buf) ← ReadStrBuf reply buf length; mret (ret, OutChars buf) | _ => undefined end
  else if cmd =? GET_DEV_ATTR then
    match out with OutBytes attr => '(ret, attr) ← ReadAttrBuf reply attr; mret (ret, OutBytes attr) | _ => undefined end
  else if cmd =? GET_DEV_ABILITY then
    match out with OutBytes ability => '(ret, ability) ← ReadAbilityBuf reply ability; mret (ret, OutBytes ability) | _ => undefined end
  else mret (false, out).

(** Three of the four calls ask for more room, which the model does not limit. *)
Definition recycle_opt (d : option nat) : M unit := match d with Some d => HdfSbufRecycle d | None => mret tt end.
Definition InstanceCmdSbuf (cmd : Z) : M (option (nat * nat)) :=
  data ← HdfSbufTypedObtain;
  reply ← HdfSbufTypedObtain;
  match data, reply with
  | Some data, Some reply => mret (Some (data, reply))
  | _, _ => recycle_opt data;; recycle_opt reply;; mret None
  end.

Definition exchange (s : nat) (cmd : Z) (input : option cmd_in) (out : option cmd_out) (outLen : Z) (data reply : nat) : M (Z * option cmd_out) :=
  ok ← match input with Some input => FillSbufData data cmd input | None => mret true end;
  if negb ok then mret (INPUT_FAILURE, out)
  else
    ret ← Dispatch s cmd (Some data) reply;
    if negb (ret =? INPUT_SUCCESS) then mret (ret, out)
    else
      match out with
      | Some o => '(ok, o) ← ObtainSbufData reply cmd o outLen; mret (if (ok : bool) then ret else INPUT_FAILURE, Some o)
      | None => mret (ret, None)
      end.
Definition IoServiceOps (s : nat) (cmd : Z) (input : option cmd_in) (out : option cmd_out) (outLen : Z) : M (Z * option cmd_out) :=
  p ← InstanceCmdSbuf cmd;
  match p with
  | None => mret (INPUT_FAILURE, out)
  | Some (data, reply) =>
      r ← exchange s cmd input out outLen data reply;
      HdfSbufRecycle data;; HdfSbufRecycle reply;;
      mret r
  end.

Definition SetPowerStatus (index status : Z) : M Z :=
  if (MAX_INPUT_DEV_NUM <=? index) || (INPUT_POWER_STATUS_UNKNOWN <=? status) then mret INPUT_INVALID_PARAM
  else
    on_device index INPUT_FAILURE (fun _ pos =>
      '(ret, _) ← IoServiceOps (service pos) SET_PWR_STATUS (Some (InWord status)) None 0;
      mret (if negb (ret =? 0) then INPUT_FAILURE else INPUT_SUCCESS)).

(** The status and what [status] points to afterwards. *)
Definition GetPowerStatus (index : Z) (status : option Z) : M (Z * option Z) :=
  match status with
  | None => mret (INPUT_INVALID_PARAM, None)
  | Some status =>
      if MAX_INPUT_DEV_NUM <=? index then mret (INPUT_INVALID_PARAM, Some status)
      else
        on_device index (INPUT_FAILURE, Some status) (fun _ pos =>
          '(ret, o) ← IoServiceOps (service pos) GET_PWR_STATUS None (Some (OutWord status)) 4;
          let status := out_word o status in
          mret (if negb (ret =? 0) then INPUT_FAILURE else if INPUT_POWER_STATUS_UNKNOWN <=? status then INPUT_FAILURE else INPUT_SUCCESS, Some status))
  end.

Definition GetDeviceType (index : Z) (deviceType : option Z) : M (Z * option Z) :=
  match deviceType with
  | None => mret (INPUT_INVALID_PARAM, None)
  | Some deviceType =>
      if MAX_INPUT_DEV_NUM <=? index then mret (INPUT_INVALID_PARAM, Some deviceType)
      else
        on_device index (INPUT_FAILURE, Some deviceType) (fun k pos =>
          '(ret, o) ← IoServiceOps (service pos) GET_DEV_TYPE None (Some (OutWord deviceType)) 4;
          let deviceType := out_word o deviceType in
          if negb (ret =? 0) then mret (INPUT_FAILURE, Some deviceType)
          else if INDEV_TYPE_UNKNOWN <=? deviceType then mret (INPUT_FAILURE, Some deviceType)
          else upd_node k (fun pos => set_payload (set_devType deviceType (payload pos)) pos);; mret (INPUT_SUCCESS, Some deviceType))
  end.

(** The string of the node that a command reads into. *)
Definition string_of (cmd : Z) : option ((DeviceInfo -> list Z) * (list Z -> DeviceInfo -> DeviceInfo)) :=
  if cmd =? GET_CHIP_NAME then Some (chipName, set_chipName)
  else if cmd =? GET_CHIP_INFO then Some (chipInfo, set_chipInfo)
  else if cmd =? GET_VENDOR_NAME then Some (vendorName, set_vendorName)
  else None.
(** [info] has room for [length] characters. *)
Definition GetDevStringInfo (index : Z) (info : option (list Z)) (length lenLimit cmd : Z) : M (Z * option (list Z)) :=
  match info with
  | None => mret (INPUT_INVALID_PARAM, None)
  | Some info =>
      if (MAX_INPUT_DEV_NUM <=? index) || (length <? lenLimit) then mret (INPUT_INVALID_PARAM, Some info)
      else
        on_device index (INPUT_FAILURE, Some info) (fun k pos =>
          match string_of cmd with
          | None => mret (INPUT_FAILURE, Some info)
          | Some (get, set) =>
              '(ret, o) ← IoServiceOps (service pos) cmd None (Some (OutChars (get (payload pos)))) lenLimit;
              let tempInfo := out_list o (get (payload pos)) in
              upd_node k (fun pos => set_payload (set tempInfo (payload pos)) pos);;
              if negb (ret =? 0) then mret (INPUT_FAILURE, Some info)
              else
                let '(ret, info) := strncpy_s info length (before_nul tempInfo) (lenLimit - 1) in
                mret (if negb (ret =? 0) then INPUT_FAILURE else INPUT_SUCCESS, Some info)
          end)
  end.
Definition GetChipName (index : Z) (chipName : option (list Z)) (length : Z) : M (Z * option (list Z)) :=
  GetDevStringInfo index chipName length CHIP_NAME_LEN GET_CHIP_NAME.
Definition GetChipInfo (index : Z) (chipInfo : option (list Z)) (length : Z) : M (Z * option (list Z)) :=
  GetDevStringInfo index chipInfo length CHIP_INFO_LEN GET_CHIP_INFO.
Definition GetVendorName (index : Z) (vendorName : option (list Z)) (length : Z) : M (Z * option (list Z)) :=
  GetDevStringInfo index vendorName length VENDOR_NAME_LEN GET_VENDOR_NAME.

Definition SetGestureMode (index gestureMode : Z) : M Z :=
  if MAX_INPUT_DEV_NUM <=? index then mret INPUT_INVALID_PARAM
  else
    on_device index INPUT_FAILURE (fun _ pos =>
      '(ret, _) ← IoServiceOps (service pos) SET_GESTURE_MODE (Some (InWord gestureMode)) None 0;
      mret (if negb (ret =? 0) then INPUT_FAILURE else INPUT_SUCCESS)).

Definition RunCapacitanceTest (index testType : Z) (result : option (list Z)) (length : Z) : M (Z * option (list Z)) :=
  match result with
  | None => mret (INPUT_INVALID_PARAM, None)
  | Some result =>
      if (MAX_INPUT_DEV_NUM <=? index) || (TEST_TYPE_UNKNOWN <=? testType) || (length <? SELF_TEST_RESULT_LEN)
      then mret (INPUT_INVALID_PARAM, Some result)
      else
        let testResult := replicate (Z.to_nat SELF_TEST_RESULT_LEN) 0 in
        on_device index (INPUT_FAILURE, Some result) (fun _ pos =>
          '(ret, o) ← IoServiceOps (service pos) RUN_CAPAC_TEST (Some (InWord testType)) (Some (OutChars testResult)) SELF_TEST_RESULT_LEN;
          if negb (ret =? 0) then mret (INPUT_FAILURE, Some result)
          else
            let '(ret, result) := strncpy_s result length (before_nul (out_list o testResult)) (SELF_TEST_RESULT_LEN - 1) in
            mret (if negb (ret =? 0) then INPUT_FAILURE else INPUT_SUCCESS, Some result))
  end.

(** A null pointer for the command, its code or its value is refused. *)
Definition RunExtraCommand (index : Z) (cmdInfo : option (option string * option string)) : M Z :=
  match cmdInfo with
  | Some (Some cmdCode, Some cmdValue) =>
      if MAX_INPUT_DEV_NUM <=? index then mret INPUT_INVALID_PARAM
      else
        on_device index INPUT_FAILURE (fun _ pos =>
          '(ret, _) ← IoServiceOps (service pos) RUN_EXTRA_CMD (Some (InExtra cmdCode cmdValue)) None 0;
          mret (if negb (ret =? 0) then INPUT_FAILURE else INPUT_SUCCESS))
  | _ => mret INPUT_INVALID_PARAM
  end.

Definition GetDeviceAbility (index : Z) (ability : list Z) : M (Z * list Z) :=
  if MAX_INPUT_DEV_NUM <=? index then mret (INPUT_INVALID_PARAM, ability)
  else
    on_device index (INPUT_FAILURE, ability) (fun k pos =>
      '(ret, o) ← IoServiceOps (service pos) GET_DEV_ABILITY None (Some (OutBytes ability)) (sizeof "DevAbility");
      let ability := out_list o ability in
      if negb (ret =? 0) then mret (INPUT_FAILURE, ability)
      else upd_node k (fun pos => set_payload (set_abilitySet ability (payload pos)) pos);; mret (INPUT_SUCCESS, ability)).
Definition GetDeviceAttr (index : Z) (attr : list Z) : M (Z * list Z) :=
  if MAX_INPUT_DEV_NUM <=? index then mret (INPUT_INVALID_PARAM, attr)
  else
    on_device index (INPUT_FAILURE, attr) (fun k pos =>
      '(ret, o) ← IoServiceOps (service pos) GET_DEV_ATTR None (Some (OutBytes attr)) (sizeof "DevAttr");
      let attr := out_list o attr in
      if negb (ret =? 0) then mret (INPUT_FAILURE, attr)
      else upd_node k (fun pos => set_payload (set_attrSet attr (payload pos)) pos);; mret (INPUT_SUCCESS, attr)).

(** The local node is written only, so its first contents do not matter. *)
Definition UpdateAbilityInfo (index : Z) : M Z := '(ret, _) ← GetDeviceAbility index (abilitySet (no_info 0)); mret ret.
Definition UpdateAttrInfo (index : Z) : M Z := '(ret, _) ← GetDeviceAttr index (attrSet (no_info 0)); mret ret.
Definition UpdateDevBaseInfo (index : Z) : M Z :=
  let node := no_info 0 in
  '(ret, _) ← GetDeviceType index (Some (devType node));
  if negb (ret =? INPUT_SUCCESS) then mret ret
  else
    '(ret, _) ← GetChipName index (Some (chipInfo node)) CHIP_INFO_LEN;
    if negb (ret =? INPUT_SUCCESS) then mret ret
    else
      '(ret, _) ← GetChipInfo index (Some (vendorName node)) VENDOR_NAME_LEN;
      if negb (ret =? INPUT_SUCCESS) then mret ret
      else
        '(ret, _) ← GetVendorName index (Some (chipName node)) CHIP_NAME_LEN;
        if negb (ret =? INPUT_SUCCESS) then mret ret else mret INPUT_SUCCESS.
Definition UpdateDevFullInfo (index : Z) : M Z :=
  ret ← UpdateDevBaseInfo index;
  if negb (ret =? INPUT_SUCCESS) then mret ret
  else
    ret ← UpdateAbilityInfo index;
    if negb (ret =? INPUT_SUCCESS) then mret ret
    else ret ← UpdateAttrInfo index; if negb (ret =? INPUT_SUCCESS) then mret ret else mret INPUT_SUCCESS.

(** The status and the pointer, of [input_manager.c]. *)
Definition GetInputDevice (index : Z) : M (Z * option nat) :=
  if MAX_INPUT_DEV_NUM <=? index then mret (INPUT_INVALID_PARAM, None)
  else
    ret ← UpdateDevFullInfo index;
    if negb (ret =? INPUT_SUCCESS) then mret (ret, None)
    else on_device index (INPUT_FAILURE, None) (fun _ pos => mret (INPUT_SUCCESS, Some (node_at pos))).

(** ** The reporter *)
Definition EventListenerInstance : M (option nat) := malloc "HdfDevEventlistener".
Definition HotPlugEventListenerInstance : M (option nat) := malloc "HdfDevEventlistener".

Fixpoint read_packages (data : nat) (n : nat) : M (list (list Z)) :=
  match n with
  | O => mret []
  | S n =>
      o ← HdfSbufReadBuffer data;
      match o with
      | None | Some [] => mret []
      | Some pkg => pkgs ← read_packages data n; mret (pkg :: pkgs)
      end
  end.
Fixpoint call_back (l : list DeviceInfoNode) (s : nat) (pkgs : list (list Z)) : M unit :=
  match l with
  | [] => mret tt
  | pos :: l =>
      (if (service pos =? s)%nat
       then cb ← deref (eventCb pos); upd_input (add_report (EventPkgs cb pkgs (devIndex (payload pos))))
       else mret tt);;
      call_back l s pkgs
  end.
Definition EventListenerCallback (s : option nat) (data : option nat) : M Z :=
  match s, data with
  | Some s, Some data =>
      m ← GetDevManager;
      match m with
      | None => mret INPUT_NULL_PTR
      | Some m => pkgs ← read_packages data MAX_EVENT_PKG_NUM; call_back (devList m) s pkgs;; mret INPUT_SUCCESS
      end
  | _, _ => mret INPUT_INVALID_PARAM
  end.
Definition HotPlugEventListenerCallback (s : option nat) (data : option nat) : M Z :=
  match s, data with
  | Some _, Some data =>
      m ← GetDevManager;
      match m with
      | None => mret INPUT_FAILURE
      | Some m =>
          event ← HdfSbufReadBuffer data;
          match event with
          | None => mret INPUT_FAILURE
          | Some event => cb ← deref (hostCb (hostDev m)); upd_input (add_report (HotPlugged cb event));; mret INPUT_SUCCESS
          end
      end
  | _, _ => mret INPUT_INVALID_PARAM
  end.

(** A callback that is null, or has no function, is refused. *)
Definition RegisterReportCallback (index : Z) (callback : option Z) : M Z :=
  match callback with
  | None => mret INPUT_INVALID_PARAM
  | Some callback =>
      if MAX_INPUT_DEV_NUM <=? index then mret INPUT_INVALID_PARAM
      else
        on_device index INPUT_FAILURE (fun k pos =>
          l ← EventListenerInstance;
          match l with
          | None => mret INPUT_FAILURE
          | Some l =>
              ret ← HdfDeviceRegisterEventListener (service pos) l ReportListener;
              if negb (ret =? INPUT_SUCCESS) then free l;; mret INPUT_FAILURE
              else
                upd_manager (fun m => set_evtCallbackNum (i32 (evtCallbackNum m + 1)) m);;
                upd_node k (set_callback (Some l) (Some callback));;
                mret INPUT_SUCCESS
          end)
  end.
Definition UnregisterReportCallback (index : Z) : M Z :=
  if MAX_INPUT_DEV_NUM <=? index then mret INPUT_INVALID_PARAM
  else
    on_device index INPUT_FAILURE (fun k pos =>
      match eventCb pos with
      | None => mret INPUT_FAILURE
      | Some _ =>
          ret ← HdfDeviceUnregisterEventListener (Some (service pos)) (listener pos);
          if negb (ret =? INPUT_SUCCESS) then mret INPUT_FAILURE
          else
            free_opt (listener pos);;
            upd_node k (set_callback None None);;
            upd_manager (fun m => set_evtCallbackNum (i32 (evtCallbackNum m - 1)) m);;
            mret INPUT_SUCCESS
      end).

Definition RegisterHotPlugCallback (callback : option Z) : M Z :=
  match callback with
  | None => mret INPUT_INVALID_PARAM
  | Some callback =>
      m ← GetDevManager;
      match m with
      | None => mret INPUT_FAILURE
      | Some m =>
          pthread_mutex_lock;;
          (match host_service (hostDev m) with
           | None => s ← HdfIoServiceBind DEV_MANAGER_SERVICE_NAME;
                     upd_manager (fun m => set_hostDev (mkHostDev s (host_listener (hostDev m)) (hostCb (hostDev m))) m)
           | Some _ => mret tt
           end);;
          m ← GetDevManager; m ← deref m;
          match host_service (hostDev m) with
          | None => pthread_mutex_unlock;; mret INPUT_FAILURE
          | Some s =>
              l ← HotPlugEventListenerInstance;
              match l with
              | None => pthread_mutex_unlock;; mret INPUT_FAILURE
              | Some l =>
                  ret ← HdfDeviceRegisterEventListener s l HotPlugListener;
                  if negb (ret =? INPUT_SUCCESS) then pthread_mutex_unlock;; free l;; mret INPUT_FAILURE
                  else
                    upd_manager (fun m => set_hostDev (mkHostDev (host_service (hostDev m)) (Some l) (Some callback)) m);;
                    pthread_mutex_unlock;;
                    mret INPUT_SUCCESS
              end
          end
      end
  end.
Definition UnregisterHotPlugCallback : M Z :=
  m ← GetDevManager;
  match m with
  | None => mret INPUT_FAILURE
  | Some m =>
      pthread_mutex_lock;;
      free_opt (host_listener (hostDev m));;
      upd_manager (fun m => set_hostDev (mkHostDev (host_service (hostDev m)) None None) m);;
      pthread_mutex_unlock;;
      mret INPUT_SUCCESS
  end.

(** ** Events

    The framework calls every listener of a service with a message of its own; it
    reads the function from the listener, which must be there. *)
Definition run_listener (s : nat) (sb : SB) (p : nat * listener_kind) : M unit :=
  w ← get_state;
  if negb (bool_decide (p.1 ∈ w_live w)) then undefined
  else
    data ← fresh;
    modify (fun w => mkWorld (<[data := sb]> (w_sbufs w)) (w_live w) (w_next w) (w_svc w));;
    (match p.2 with
     | ReportListener => EventListenerCallback (Some s) (Some data)
     | HotPlugListener => HotPlugEventListenerCallback (Some s) (Some data)
     end);;
    HdfSbufRecycle data.
Fixpoint run_listeners (s : nat) (sb : SB) (l : list (nat * listener_kind)) : M unit :=
  match l with [] => mret tt | p :: l => run_listener s sb p;; run_listeners s sb l end.
Definition event (s : nat) (sb : SB) : M unit :=
  x ← svc_state; run_listeners s sb (snd <$> filter (fun p => p.1 = s) (registered x)).
End controller.
