(* ===== verification/InputSpec.v ===== *)
(** * InputSpec: what the input HAL promises to an application

    An application opens devices, registers callbacks and sends commands.  What it
    may count on is a registry: the open devices in the order of opening, each with
    its callback, and the state of hot plugging.  The file has the registry, the
    rules an application must keep, and the laws that the drivers obey. *)
From stdpp Require Import pretty.
From S2P Require Import Prelude Hdf Arrays Input InputOps.
Open Scope Z_scope.

Definition event_name (index : Z) : string := "hdf_input_event" +:+ pretty index.

(** ** The drivers *)

(** The items of a request. *)
Definition request_items (input : option cmd_in) : list item :=
  match input with
  | None => []
  | Some (InWord v) => [IUint32 v]
  | Some (InExtra cmdCode cmdValue) => [IString cmdCode; IString cmdValue]
  end.
(** What a message holds when a command with an answer succeeds. *)
Definition well_shaped `{!InputTypes} (cmd : Z) (v : list item) : Prop :=
  if (cmd =? GET_PWR_STATUS) || (cmd =? GET_DEV_TYPE) then exists z l, v = IUint32 z :: l
  else if (cmd =? GET_CHIP_INFO) || (cmd =? GET_VENDOR_NAME) || (cmd =? GET_CHIP_NAME) || (cmd =? RUN_CAPAC_TEST) then exists s l, v = IString s :: l
  else if cmd =? GET_DEV_ATTR then exists b l, v = IBuffer b :: l /\ len b = sizeof "DevAttr"
  else if cmd =? GET_DEV_ABILITY then exists b l, v = IBuffer b :: l /\ len b = sizeof "DevAbility"
  else True.

(** A driver sees the items of a request and answers with items; a device answers in
    the form the command asks for.  Nothing can be read from an empty message. *)
Class InputDriverLaws (SB D : Type) `{!Platform SB, !PlatformLaws SB} `{!InputTypes} `{!InputDrivers SB D} := {
  io_answer : string -> Z -> list item -> D -> Z * list item * D;
  io_dispatch_view name cmd data sr d : sbuf_view sr = [] ->
    exists ret sr' d', io_dispatch name cmd data sr d = (ret, sr', d') /\
      io_answer name cmd (from_option sbuf_view [] data) d = (ret, sbuf_view sr', d');
  io_answer_shape name cmd rq d v d' : name <> DEV_MANAGER_SERVICE_NAME -> io_answer name cmd rq d = (0, v, d') -> well_shaped cmd v;
  sbuf_read_empty k (s : SB) : sbuf_view s = [] -> exists s', sbuf_read k s = (None, s');
  sizeof_types t : 0 < sizeof t;
}.

(** ** The registry *)
Inductive hotplug := NoHotPlug | HotPlugTo (cb : Z) | HotPlugLost.
Record registry := mkRegistry { opened : list (Z * option Z); hot : hotplug; bound : bool }.
Definition empty_registry : registry := mkRegistry [] NoHotPlug false.
Definition set_opened l (g : registry) := mkRegistry l (hot g) (bound g).
Definition set_hot h (g : registry) := mkRegistry (opened g) h (bound g).
(** The callback of a device, if it is open. *)
Definition callback_of (index : Z) (g : registry) : option (option Z) := snd <$> List.find (fun p => p.1 =? index) (opened g).
Definition set_callback_of (index : Z) cb (g : registry) : registry :=
  set_opened (map (fun p => if p.1 =? index then (p.1, cb) else p) (opened g)) g.

(** The calls of the controller on a device, with the arguments they take. *)
Inductive command :=
  | PowerTo (status : Z) | PowerOf (status : option Z) | TypeOf (deviceType : option Z)
  | ChipNameOf (chipName : option (list Z)) (length : Z) | ChipInfoOf (chipInfo : option (list Z)) (length : Z)
  | VendorNameOf (vendorName : option (list Z)) (length : Z)
  | GestureTo (gestureMode : Z) | TestOf (testType : Z) (result : option (list Z)) (length : Z)
  | ExtraCommand (cmdInfo : option (option string * option string)).
(** What an application asks for, and what the drivers do by themselves. *)
Inductive request (SB : Type) :=
  | Open (index : Z) | Close (index : Z) | Get (index : Z) | Listing (size : Z) | Scan (staArr : list (list Z)) (arrLen : Z)
  | Command (index : Z) (c : command)
  | Register (index : Z) (cb : option Z) | Unregister (index : Z)
  | RegisterHot (cb : option Z) | UnregisterHot
  | DeviceEvent (index : Z) (sb : SB) | HotEvent (sb : SB).
Arguments Open {SB} _.
Arguments Close {SB} _.
Arguments Get {SB} _.
Arguments Listing {SB} _.
Arguments Scan {SB} _ _.
Arguments Command {SB} _ _.
Arguments Register {SB} _ _.
Arguments Unregister {SB} _.
Arguments RegisterHot {SB} _.
Arguments UnregisterHot {SB}.
Arguments DeviceEvent {SB} _ _.
Arguments HotEvent {SB} _.
Inductive value := Word (o : option Z) | Chars (o : option (list Z)).
Inductive answer :=
  | Status (ret : Z) | Got (ret : Z) (info : option DeviceInfo) | Listed (ret n : Z) (indices : list Z)
  | Scanned (ret : Z) (staArr : list (list Z)) | Valued (ret : Z) (v : value) | Happened.
Definition status_of (a : answer) : Z :=
  match a with Status ret | Got ret _ | Listed ret _ _ | Scanned ret _ | Valued ret _ => ret | Happened => INPUT_SUCCESS end.

(** A command as the driver sees it: its number, its argument, and which answers
    are accepted, each with the value it gives and what it changes in the
    description of the device.  There is none when the arguments are refused. *)
Definition plan (V : Type) : Type := Z * option cmd_in * (list item -> option (V * (DeviceInfo -> DeviceInfo))).
Definition written (src dest : list Z) : list Z := src ++ 0 :: drop (S (length src)) dest.
Definition word_below {V} (limit : Z) (f : Z -> V * (DeviceInfo -> DeviceInfo)) (v : list item) : option (V * (DeviceInfo -> DeviceInfo)) :=
  match v with IUint32 z :: _ => if z <? limit then Some (f z) else None | _ => None end.
Definition string_below {V} (limit : Z) (f : list Z -> V * (DeviceInfo -> DeviceInfo)) (v : list item) : option (V * (DeviceInfo -> DeviceInfo)) :=
  match v with IString s :: _ => let src := before_nul (chars s) in if len src <? limit then Some (f src) else None | _ => None end.
Definition accepted {V} (v : V) (_ : list item) : option (V * (DeviceInfo -> DeviceInfo)) := Some (v, id).
(** A string that is kept in the description and copied to the caller. *)
Definition string_plan (cmd limit : Z) (get : DeviceInfo -> list Z) (set : list Z -> DeviceInfo -> DeviceInfo) (info : option (list Z)) (length : Z) : option (plan value) :=
  match info with
  | Some info =>
      if length <? limit then None
      else Some (cmd, None, string_below limit (fun src => (Chars (Some (written src info)), fun i => set (written src (get i)) i)))
  | None => None
  end.
Definition command_plan (c : command) : option (plan value) :=
  match c with
  | PowerTo status => if status <? INPUT_POWER_STATUS_UNKNOWN then Some (SET_PWR_STATUS, Some (InWord status), accepted (Word None)) else None
  | PowerOf (Some _) => Some (GET_PWR_STATUS, None, word_below INPUT_POWER_STATUS_UNKNOWN (fun z => (Word (Some z), id)))
  | TypeOf (Some _) => Some (GET_DEV_TYPE, None, word_below INDEV_TYPE_UNKNOWN (fun z => (Word (Some z), set_devType z)))
  | ChipNameOf buf length => string_plan GET_CHIP_NAME CHIP_NAME_LEN chipName set_chipName buf length
  | ChipInfoOf buf length => string_plan GET_CHIP_INFO CHIP_INFO_LEN chipInfo set_chipInfo buf length
  | VendorNameOf buf length => string_plan GET_VENDOR_NAME VENDOR_NAME_LEN vendorName set_vendorName buf length
  | GestureTo gestureMode => Some (SET_GESTURE_MODE, Some (InWord gestureMode), accepted (Word None))
  | TestOf testType (Some result) length =>
      if (testType <? TEST_TYPE_UNKNOWN) && (SELF_TEST_RESULT_LEN <=? length)
      then Some (RUN_CAPAC_TEST, Some (InWord testType), string_below SELF_TEST_RESULT_LEN (fun src => (Chars (Some (written src result)), id)))
      else None
  | ExtraCommand (Some (Some cmdCode, Some cmdValue)) => Some (RUN_EXTRA_CMD, Some (InExtra cmdCode cmdValue), accepted (Word None))
  | _ => None
  end.

(** ** Serving a request *)
Section serve.
Context {SB : Type} `{!Platform SB} `{!HdfStatus} `{!InputTypes} {D : Type} `{!InputDrivers SB D}.
Abbreviation M := (M (World SB (Input D))).

Definition run_command (index : Z) (c : command) : M (Z * value) :=
  match c with
  | PowerTo status => ret ← SetPowerStatus index status; mret (ret, Word None)
  | PowerOf status => '(ret, o) ← GetPowerStatus index status; mret (ret, Word o)
  | TypeOf deviceType => '(ret, o) ← GetDeviceType index deviceType; mret (ret, Word o)
  | ChipNameOf buf length => '(ret, o) ← GetChipName index buf length; mret (ret, Chars o)
  | ChipInfoOf buf length => '(ret, o) ← GetChipInfo index buf length; mret (ret, Chars o)
  | VendorNameOf buf length => '(ret, o) ← GetVendorName index buf length; mret (ret, Chars o)
  | GestureTo gestureMode => ret ← SetGestureMode index gestureMode; mret (ret, Word None)
  | TestOf testType result length => '(ret, o) ← RunCapacitanceTest index testType result length; mret (ret, Chars o)
  | ExtraCommand cmdInfo => ret ← RunExtraCommand index cmdInfo; mret (ret, Word None)
  end.
(** The application follows the pointers it gets at once. *)
Fixpoint read_infos (l : list nat) : M (list DeviceInfo) :=
  match l with [] => mret [] | p :: l => i ← read_info p; r ← read_infos l; mret (i :: r) end.
Definition event_of (s : option nat) (sb : SB) : M unit := match s with Some s => event s sb | None => mret tt end.
Definition serve (rq : request SB) : M answer :=
  match rq with
  | Open index => ret ← OpenInputDevice index; mret (Status ret)
  | Close index => ret ← CloseInputDevice index; mret (Status ret)
  | Get index =>
      '(ret, p) ← GetInputDevice index;
      match p with Some p => i ← read_info p; mret (Got ret (Some i)) | None => mret (Got ret None) end
  | Listing size => '(ret, n, l) ← GetInputDeviceList size; r ← read_infos l; mret (Listed ret n (map devIndex r))
  | Scan staArr arrLen => '(ret, staArr) ← ScanInputDevice staArr arrLen; mret (Scanned ret staArr)
  | Command index c => '(ret, v) ← run_command index c; mret (Valued ret v)
  | Register index cb => ret ← RegisterReportCallback index cb; mret (Status ret)
  | Unregister index => ret ← UnregisterReportCallback index; mret (Status ret)
  | RegisterHot cb => ret ← RegisterHotPlugCallback cb; mret (Status ret)
  | UnregisterHot => ret ← UnregisterHotPlugCallback; mret (Status ret)
  | DeviceEvent index sb =>
      m ← GetDevManager; m ← deref m;
      event_of ((fun p => service p.2) <$> find_node index (devList m)) sb;; mret Happened
  | HotEvent sb => m ← GetDevManager; m ← deref m; event_of (host_service (hostDev m)) sb;; mret Happened
  end.
Fixpoint serve_all (l : list (request SB)) : M (list answer) :=
  match l with [] => mret [] | rq :: l => a ← serve rq; r ← serve_all l; mret (a :: r) end.
End serve.

(** ** The rules and the answers *)
Section rules.
Context {SB : Type} `{!Platform SB, !PlatformLaws SB} `{!HdfStatus} `{!InputTypes} {D : Type} `{!InputDrivers SB D, !InputDriverLaws SB D}.
Implicit Types (g : registry) (d : D) (rq : request SB).

Definition is_buffer (i : item) : Prop := match i with IBuffer _ => True | _ => False end.
Definition permitted rq g : Prop :=
  match rq with
  | Open index => 0 <= index
  | Listing size => 0 <= size
  | Close index | Register index (Some _) => forall cb, callback_of index g <> Some (Some cb)
  | Scan staArr arrLen => arrLen <= Z.of_nat (length staArr)
  | RegisterHot (Some _) => hot g = NoHotPlug
  | DeviceEvent _ sb => Forall is_buffer (sbuf_view sb)
  | HotEvent sb => Forall is_buffer (sbuf_view sb) /\ hot g <> HotPlugLost
  | _ => True
  end.

(** The packages of a message: at most so many, up to an empty one. *)
Fixpoint packages (n : nat) (v : list item) : list (list Z) :=
  match n, v with
  | S n, IBuffer (c :: b) :: v => (c :: b) :: packages n v
  | _, _ => []
  end.
(** The calls of the application's callbacks. *)
Definition reports_of rq g : list report :=
  match rq with
  | DeviceEvent index sb => match callback_of index g with Some (Some cb) => [EventPkgs cb (packages MAX_EVENT_PKG_NUM (sbuf_view sb)) index] | _ => [] end
  | HotEvent sb => match hot g, sbuf_view sb with HotPlugTo cb, IBuffer b :: _ => [HotPlugged cb b] | _, _ => [] end
  | _ => []
  end.

(** A service for hot plugging and scanning is bound when it is first needed. *)
Definition bind_host d g : registry := mkRegistry (opened g) (hot g) (bound g || bind_ok DEV_MANAGER_SERVICE_NAME d).
Definition touched rq d g : registry := match rq with RegisterHot (Some _) | Scan _ _ => bind_host d g | _ => g end.

(** The status and the registry afterwards, when no memory is refused. *)
Definition expected rq d g : answer * registry :=
  match rq with
  | Open index =>
      if MAX_INPUT_DEV_NUM <=? index then (Status INPUT_FAILURE, g)
      else match callback_of index g with
           | Some _ => (Status INPUT_FAILURE, g)
           | None => if bind_ok (event_name index) d then (Status INPUT_SUCCESS, set_opened (opened g ++ [(index, None)]) g) else (Status INPUT_NULL_PTR, g)
           end
  | Close index =>
      match callback_of index g with
      | Some _ => (Status INPUT_SUCCESS, set_opened (filter (fun p => p.1 <> index) (opened g)) g)
      | None => (Status INPUT_FAILURE, g)
      end
  | Listing size =>
      (Listed (if Z.of_nat (length (opened g)) <=? size then INPUT_SUCCESS else INPUT_FAILURE) (Z.of_nat (length (opened g))) (take (Z.to_nat size) (map fst (opened g))), g)
  | Register index cb =>
      match cb with
      | None => (Status INPUT_INVALID_PARAM, g)
      | Some cb =>
          if MAX_INPUT_DEV_NUM <=? index then (Status INPUT_INVALID_PARAM, g)
          else match callback_of index g with
               | Some _ => if listen_status (event_name index) d =? 0 then (Status INPUT_SUCCESS, set_callback_of index (Some cb) g) else (Status INPUT_FAILURE, g)
               | None => (Status INPUT_FAILURE, g)
               end
      end
  | Unregister index =>
      if MAX_INPUT_DEV_NUM <=? index then (Status INPUT_INVALID_PARAM, g)
      else match callback_of index g with
           | Some (Some _) => if unlisten_status (event_name index) d =? 0 then (Status INPUT_SUCCESS, set_callback_of index None g) else (Status INPUT_FAILURE, g)
           | _ => (Status INPUT_FAILURE, g)
           end
  | RegisterHot cb =>
      match cb with
      | None => (Status INPUT_INVALID_PARAM, g)
      | Some cb =>
          let g := bind_host d g in
          if negb (bound g) then (Status INPUT_FAILURE, g)
          else if listen_status DEV_MANAGER_SERVICE_NAME d =? 0 then (Status INPUT_SUCCESS, set_hot (HotPlugTo cb) g) else (Status INPUT_FAILURE, g)
      end
  | UnregisterHot => (Status INPUT_SUCCESS, set_hot (match hot g with NoHotPlug => NoHotPlug | _ => HotPlugLost end) g)
  | _ => (Happened, g)
  end.

(** The descriptors read from a message into an array. *)
Fixpoint scanned (n : nat) (v : list item) (staArr : list (list Z)) : list (list Z) :=
  match n, v, staArr with
  | S n, IBuffer b :: v, _ :: r => if len b =? sizeof_DevDesc then b :: scanned n v r else staArr
  | _, _, _ => staArr
  end.
Definition scan_ok d g staArr arrLen d' a : Prop :=
  let g := bind_host d g in
  match io_answer DEV_MANAGER_SERVICE_NAME 0 [] d with
  | (ret, v, d1) =>
      if bound g then
        d' = d1 /\ exists r, a = Scanned (if ret =? 0 then INPUT_SUCCESS else INPUT_FAILURE) r /\ length r = length staArr /\
          (ret <> 0 -> r = staArr) /\ (ret = 0 -> Forall is_buffer v -> r = scanned (Z.to_nat arrLen) v staArr)
      else d' = d /\ a = Scanned INPUT_FAILURE staArr
  end.
(** The answer to a command: it was sent, and it succeeds when the driver does and
    its answer is accepted; without memory nothing is sent. *)
Definition answered {V} (name : string) (pl : plan V) d i (ret : Z) (x : V) i' d' : Prop :=
  let '(cmd, input, accept) := pl in
  (~ reliable SB /\ ret = INPUT_FAILURE /\ d' = d /\ devIndex i' = devIndex i) \/
  exists ret0 v, io_answer name cmd (request_items input) d = (ret0, v, d') /\ devIndex i' = devIndex i /\
    match (if ret0 =? 0 then accept v else None) with
    | Some (x', f) => ret = INPUT_SUCCESS /\ x = x' /\ i' = f i
    | None => ret = INPUT_FAILURE
    end.
(** What a driver tells about its device, in strings that fit, and the description
    that says the same. *)
Record device_facts := mkFacts { f_type : Z; f_chipName : string; f_chipInfo : string; f_vendorName : string; f_ability : list Z; f_attr : list Z }.
Definition text (s : string) : list Z := before_nul (chars s).
Record tells (name : string) d (f : device_facts) : Prop := Tells {
  te_type : io_answer name GET_DEV_TYPE [] d = (0, [IUint32 (f_type f)], d) /\ f_type f < INDEV_TYPE_UNKNOWN;
  te_chipName : io_answer name GET_CHIP_NAME [] d = (0, [IString (f_chipName f)], d) /\ len (text (f_chipName f)) < CHIP_NAME_LEN;
  te_chipInfo : io_answer name GET_CHIP_INFO [] d = (0, [IString (f_chipInfo f)], d) /\ len (text (f_chipInfo f)) < CHIP_INFO_LEN;
  te_vendorName : io_answer name GET_VENDOR_NAME [] d = (0, [IString (f_vendorName f)], d) /\ len (text (f_vendorName f)) < VENDOR_NAME_LEN;
  te_ability : io_answer name GET_DEV_ABILITY [] d = (0, [IBuffer (f_ability f)], d);
  te_attr : io_answer name GET_DEV_ATTR [] d = (0, [IBuffer (f_attr f)], d);
}.
Record says (index : Z) (f : device_facts) (i : DeviceInfo) : Prop := Says {
  sa_index : devIndex i = index;
  sa_type : devType i = f_type f;
  sa_chipName : before_nul (chipName i) = text (f_chipName f);
  sa_chipInfo : before_nul (chipInfo i) = text (f_chipInfo f);
  sa_vendorName : before_nul (vendorName i) = text (f_vendorName f);
  sa_ability : abilitySet i = f_ability f;
  sa_attr : attrSet i = f_attr f;
}.

(** A device that is asked for must be there. *)
Definition asks_ok index g (ret : Z) : Prop :=
  (MAX_INPUT_DEV_NUM <= index -> ret = INPUT_INVALID_PARAM) /\ (index < MAX_INPUT_DEV_NUM -> callback_of index g = None -> ret <> INPUT_SUCCESS).
(** The answer to a request, the calls of callbacks, and the registry after it.
    Only a request that was refused memory may fail otherwise. *)
Definition step_ok rq g d a rep g' d' : Prop :=
  rep = reports_of rq g /\
  match rq with
  | Get index => g' = g /\ exists ret info, a = Got ret info /\ asks_ok index g ret /\
      (ret = INPUT_SUCCESS <-> info <> None) /\ (forall i, info = Some i -> devIndex i = index)
  | Command index c => g' = g /\ exists ret v, a = Valued ret v /\ (MAX_INPUT_DEV_NUM <= index -> ret = INPUT_INVALID_PARAM) /\ (callback_of index g = None -> ret <> INPUT_SUCCESS)
  | Scan staArr arrLen => g' = bind_host d g /\ (scan_ok d g staArr arrLen d' a \/ ~ reliable SB /\ d' = d /\ a = Scanned INPUT_FAILURE staArr)
  | _ => d' = d /\ ((a, g') = expected rq d g \/ ~ reliable SB /\ g' = touched rq d g /\ a = Status INPUT_FAILURE)
  end.

(** The requests keep the rules, whatever the answers are. *)
Fixpoint keeps_rules g (l : list (request SB)) : Prop :=
  match l with
  | [] => True
  | rq :: l => permitted rq g /\ forall d a rep g' d', step_ok rq g d a rep g' d' -> keeps_rules g' l
  end.
Inductive steps_ok : registry -> D -> list (request SB) -> list answer -> list report -> registry -> D -> Prop :=
  | steps_nil g d : steps_ok g d [] [] [] g d
  | steps_cons g d rq l a rep g1 d1 la lrep g2 d2 :
      step_ok rq g d a rep g1 d1 -> steps_ok g1 d1 l la lrep g2 d2 -> steps_ok g d (rq :: l) (a :: la) (rep ++ lrep) g2 d2.
End rules.
