(* ===== verification/InputFacts.v ===== *)
(** * InputFacts: the manager represents a registry

    The relation between the state of the HAL and the registry, how each change of
    the manager carries over, and rules for the framework calls. *)
From stdpp Require Import pretty.
From S2P Require Import Prelude Hdf Arrays Input InputOps InputSpec.
Open Scope Z_scope.

(** ** What the manager owns *)

(** The blocks [bs] are live on top of [L0]. *)
Record owned (L0 L : gset nat) (n : nat) (bs : list nat) : Prop := Owned {
  ow_distinct : NoDup bs;
  ow_new : Forall (fun k => k ∉ L0) bs;
  ow_live : L = L0 ∪ list_to_set bs;
  ow_bounded : bounded L n;
}.
Lemma owned_perm L0 L n bs bs' : bs ≡ₚ bs' -> owned L0 L n bs -> owned L0 L n bs'.
Proof. intros Hp [H1 H2 -> H4]. split; [by rewrite <- Hp | by rewrite <- Hp | by rewrite Hp | done]. Qed.
Lemma owned_le L0 L n n' bs : (n <= n')%nat -> owned L0 L n bs -> owned L0 L n' bs.
Proof. intros Hn [H1 H2 H3 H4]. split; [done.. |]. by eapply bounded_le. Qed.
Lemma owned_alloc L0 L n bs : owned L0 L n bs -> owned L0 ({[n]} ∪ L) (S n) (n :: bs).
Proof.
  intros [H1 H2 H3 H4]. assert (n ∉ L) as Hn by (intros ?%H4; lia). split.
  - apply NoDup_cons; split; [|done]. set_solver.
  - apply Forall_cons; split; [|done]. set_solver.
  - rewrite H3. cbn. set_solver.
  - by apply bounded_alloc.
Qed.
Lemma owned_free L0 L n k bs : owned L0 L n (k :: bs) -> k ∈ L /\ owned L0 (L ∖ {[k]}) n bs.
Proof.
  intros [[H1a H1b]%NoDup_cons [H2a H2b]%Forall_cons H3 H4]. cbn in H3. split; [set_solver|]. split; [done | done | set_solver |].
  eapply bounded_mono; [done | set_solver].
Qed.
Lemma owned_nil L n : bounded L n -> owned L L n [].
Proof. intros Hb. split; [constructor | constructor | cbn; set_solver | done]. Qed.

(** The services [l], by name. *)
Record holds (sv : gmap nat string) (n : nat) (l : list (nat * string)) : Prop := Holds {
  ho_distinct : NoDup l.*1;
  ho_map : sv = list_to_map l;
  ho_new : Forall (fun s => (s < n)%nat) l.*1;
}.
Lemma holds_perm sv n l l' : l ≡ₚ l' -> holds sv n l -> holds sv n l'.
Proof.
  intros Hp [H1 H2 H3]. split; [by rewrite <- Hp | | by rewrite <- Hp]. rewrite H2. by apply list_to_map_proper.
Qed.
Lemma holds_le sv n n' l : (n <= n')%nat -> holds sv n l -> holds sv n' l.
Proof. intros Hn [H1 H2 H3]. split; [done.. |]. eapply Forall_impl; [done|]. cbn. lia. Qed.
Lemma holds_bind sv n l name : holds sv n l -> holds (<[n := name]> sv) (S n) ((n, name) :: l).
Proof.
  intros [H1 -> H3]. split; cbn; [|done|].
  - apply NoDup_cons; split; [|done]. intros Hn. rewrite Forall_forall in H3. apply H3 in Hn. lia.
  - apply Forall_cons; split; [lia|]. eapply Forall_impl; [done|]. cbn. lia.
Qed.
Lemma holds_recycle sv n s name l : holds sv n ((s, name) :: l) -> sv !! s = Some name /\ holds (delete s sv) n l.
Proof.
  intros [[H1a H1b]%NoDup_cons -> [H3a H3b]%Forall_cons]. cbn. split; [by rewrite lookup_insert_eq|]. split; [done | | done].
  rewrite delete_insert_id; [done|]. by apply not_elem_of_list_to_map_1.
Qed.

(** What the framework calls when a service has an event. *)
Definition regs_of (rg : list (nat * (nat * listener_kind))) (s : nat) : list (nat * listener_kind) := snd <$> filter (fun p => p.1 = s) rg.

(** ** The relation *)
Definition node_blocks (p : DeviceInfoNode) : list nat := node_at p :: option_list (listener p).
Definition node_service (p : DeviceInfoNode) : nat * string := (service p, event_name (devIndex (payload p))).
Definition node_regs (p : DeviceInfoNode) : list (nat * listener_kind) := (fun l => (l, ReportListener)) <$> option_list (listener p).
Definition view (p : DeviceInfoNode) : Z * option Z := (devIndex (payload p), eventCb p).
Definition blocks_of (a : nat) (hl : option nat) (l : list DeviceInfoNode) : list nat := a :: option_list hl ++ concat (map node_blocks l).
Definition services_of (hs : option nat) (l : list DeviceInfoNode) : list (nat * string) :=
  map (fun s => (s, DEV_MANAGER_SERVICE_NAME)) (option_list hs) ++ map node_service l.
Definition callbacks (l : list DeviceInfoNode) : nat := length (concat (map (fun p => option_list (eventCb p)) l)).

Record node_ok rg (p : DeviceInfoNode) : Prop := NodeOk {
  no_regs : regs_of rg (service p) = node_regs p;
  no_callback : listener p = None <-> eventCb p = None;
}.
Definition host_ok (h : hotplug) (v : InputHostDev) rg : Prop :=
  match h with
  | NoHotPlug => host_listener v = None /\ hostCb v = None /\ forall s, host_service v = Some s -> regs_of rg s = []
  | HotPlugTo cb => exists s l, host_service v = Some s /\ host_listener v = Some l /\ hostCb v = Some cb /\ regs_of rg s = [(l, HotPlugListener)]
  | HotPlugLost => host_listener v = None /\ hostCb v = None
  end.
Record represents (L0 : gset nat) (g : registry) (L : gset nat) (n : nat) (m : InputDevManager) (sv : gmap nat string)
    (rg : list (nat * (nat * listener_kind))) : Prop := Represents {
  re_view : map view (devList m) = opened g;
  re_bound : bound g = bool_decide (is_Some (host_service (hostDev m)));
  re_host : host_ok (hot g) (hostDev m) rg;
  re_nodes : Forall (node_ok rg) (devList m);
  re_blocks : owned L0 L n (blocks_of (manager_at m) (host_listener (hostDev m)) (devList m));
  re_services : holds sv n (services_of (host_service (hostDev m)) (devList m));
  re_regs : Forall (fun q => is_Some (sv !! q.1)) rg;
  re_distinct : NoDup (map fst (opened g));
  re_range : Forall (fun p => 0 <= p.1 < MAX_INPUT_DEV_NUM) (opened g);
  re_number : attachedDevNum m = Z.of_nat (length (devList m));
  re_callbacks : evtCallbackNum m = Z.of_nat (callbacks (devList m));
}.

Lemma holds_is_new sv n l s : holds sv n l -> is_Some (sv !! s) -> (s < n)%nat.
Proof.
  intros [Hd -> Hn] [name Hs]. apply elem_of_list_to_map_2 in Hs. rewrite Forall_forall in Hn. apply Hn. by apply (list_elem_of_fmap_2 fst _ (s, name)).
Qed.
Lemma represents_regs L0 g L n m sv rg : represents L0 g L n m sv rg -> Forall (fun q => (q.1 < n)%nat) rg.
Proof. intros []. eapply Forall_impl; [done|]. cbn. intros q. by eapply holds_is_new. Qed.
Lemma held_insert (sv : gmap nat string) s name (rg : list (nat * (nat * listener_kind))) :
  Forall (fun q => is_Some (sv !! q.1)) rg -> Forall (fun q => is_Some (<[s := name]> sv !! q.1)) rg.
Proof. intros Hh. eapply Forall_impl; [done|]. cbn. intros q Hq. destruct (decide (q.1 = s)) as [->|]; [by rewrite lookup_insert_eq | by rewrite lookup_insert_ne]. Qed.
Lemma held_recycle (sv : gmap nat string) s (rg : list (nat * (nat * listener_kind))) :
  Forall (fun q => is_Some (sv !! q.1)) rg -> Forall (fun q => is_Some (delete s sv !! q.1)) (filter (fun q => q.1 <> s) rg).
Proof. rewrite !Forall_forall. intros Hh q [Hne Hq]%list_elem_of_filter. rewrite lookup_delete_ne by done. by apply Hh. Qed.
Lemma held_filter (sv : gmap nat string) P `{!forall x, Decision (P x)} (rg : list (nat * (nat * listener_kind))) :
  Forall (fun q => is_Some (sv !! q.1)) rg -> Forall (fun q => is_Some (sv !! q.1)) (filter P rg).
Proof. rewrite !Forall_forall. intros Hh q [_ Hq]%list_elem_of_filter. by apply Hh. Qed.
Lemma represents_mutex L0 g L n b m sv rg : represents L0 g L n m sv rg -> represents L0 g L n (set_mutex b m) sv rg.
Proof. by intros []. Qed.
Lemma represents_le L0 g L n n' m sv rg : (n <= n')%nat -> represents L0 g L n m sv rg -> represents L0 g L n' m sv rg.
Proof.
  intros Hn []. split; try done; [by eapply owned_le | by eapply holds_le].
Qed.
Lemma unlock_locked m : mutex m = false -> set_mutex false (set_mutex true m) = m.
Proof. destruct m. cbn. by intros ->. Qed.

(** ** Devices *)
Lemma find_node_split index l k p : find_node index l = Some (k, p) ->
  exists l1 l2, l = l1 ++ p :: l2 /\ k = length l1 /\ devIndex (payload p) = index.
Proof.
  revert k. induction l as [|q l IH]; intros k; cbn; [done|]. destruct (Z.eqb_spec (devIndex (payload q)) index) as [E|E].
  - intros [= <- <-]. by exists [], l.
  - destruct (find_node index l) as [[k' p']|] eqn:Ef; cbn; [|done]. intros [= <- <-].
    destruct (IH k' eq_refl) as (l1 & l2 & -> & -> & ?). by exists (q :: l1), l2.
Qed.
Lemma find_node_view index l g : map view l = opened g ->
  callback_of index g = eventCb ∘ snd <$> find_node index l.
Proof.
  intros E. unfold callback_of. rewrite <- E. clear E. induction l as [|p l IH]; cbn; [done|].
  destruct (devIndex (payload p) =? index); [done|]. rewrite IH. by destruct (find_node index l) as [[]|].
Qed.
Lemma find_none index l : find_node index l = None -> index ∉ map (fun p => devIndex (payload p)) l.
Proof.
  induction l as [|p l IH]; cbn; [intros _ []%not_elem_of_nil|]. destruct (Z.eqb_spec (devIndex (payload p)) index); [done|].
  destruct (find_node index l) as [[]|]; [done|]. intros _. apply not_elem_of_cons. split; [congruence | auto].
Qed.
Lemma alter_at {A} (f : A -> A) l1 x l2 : alter f (length l1) (l1 ++ x :: l2) = l1 ++ f x :: l2.
Proof. induction l1 as [|y l1 IH]; cbn; [done|]. by rewrite <- IH. Qed.

Lemma blocks_split a hl l1 p l2 : blocks_of a hl (l1 ++ p :: l2) ≡ₚ node_blocks p ++ blocks_of a hl (l1 ++ l2).
Proof.
  unfold blocks_of. rewrite !map_app, !concat_app. cbn [map concat]. rewrite (Permutation_app_swap_app (concat (map node_blocks l1))).
  rewrite <- Permutation_middle. constructor. by rewrite !(Permutation_app_swap_app (node_blocks p)).
Qed.
Lemma services_split hs l1 p l2 : services_of hs (l1 ++ p :: l2) ≡ₚ node_service p :: services_of hs (l1 ++ l2).
Proof. unfold services_of. rewrite !map_app. cbn [map]. by rewrite <- !Permutation_middle. Qed.
Lemma callbacks_split l1 p l2 : callbacks (l1 ++ p :: l2) = (length (option_list (eventCb p)) + callbacks (l1 ++ l2))%nat.
Proof. unfold callbacks. rewrite !map_app, !concat_app. cbn [map concat]. rewrite !length_app. lia. Qed.

Lemma opened_few g : NoDup (map fst (opened g)) -> Forall (fun p => 0 <= p.1 < MAX_INPUT_DEV_NUM) (opened g) -> (length (opened g) <= 32)%nat.
Proof.
  intros Hd Hr. assert (length (map Z.to_nat (map fst (opened g))) <= length (seq 0 32))%nat as Hl.
  { apply submseteq_length, NoDup_submseteq.
    - apply NoDup_fmap_2_strong; [|done]. intros x y Hx Hy E.
      apply list_elem_of_fmap in Hx as (p & -> & Hp), Hy as (q & -> & Hq). rewrite Forall_forall in Hr. apply Hr in Hp, Hq. lia.
    - intros k (i & -> & (p & -> & Hp)%list_elem_of_fmap)%list_elem_of_fmap. rewrite Forall_forall in Hr. apply Hr in Hp. apply elem_of_seq. cbn in *. unfold MAX_INPUT_DEV_NUM in Hp. lia. }
  by rewrite !length_map, length_seq in Hl.
Qed.
Lemma represents_few L0 g L n m sv rg : represents L0 g L n m sv rg -> (length (devList m) <= 32)%nat.
Proof. intros []. pose proof (opened_few _ re_distinct0 re_range0) as H. by rewrite <- re_view0, length_map in H. Qed.
Lemma callbacks_few l : (callbacks l <= length l)%nat.
Proof. induction l as [|p l IH]; cbn; [lia|]. rewrite length_app. fold (callbacks l). destruct (eventCb p); cbn; lia. Qed.

Lemma regs_new rg n s : Forall (fun p => (p.1 < n)%nat) rg -> (n <= s)%nat -> regs_of rg s = [].
Proof.
  intros Hn Hs. unfold regs_of. induction Hn as [|p l Hp _ IH]; [done|]. cbn in Hp. rewrite filter_cons_False by lia. done.
Qed.
Lemma regs_app rg rg' s : regs_of (rg ++ rg') s = regs_of rg s ++ regs_of rg' s.
Proof. unfold regs_of. by rewrite filter_app, fmap_app. Qed.
Lemma regs_recycled rg s s' : s' <> s -> regs_of (filter (fun p => p.1 <> s) rg) s' = regs_of rg s'.
Proof.
  intros Hs. unfold regs_of. induction rg as [|p rg IH]; [done|]. destruct (decide (p.1 = s)) as [E|E].
  - rewrite (filter_cons_False (fun p => p.1 <> s)) by (by intros []). rewrite filter_cons_False by congruence. done.
  - rewrite (filter_cons_True (fun p => p.1 <> s)) by done. rewrite !filter_cons. by destruct (decide (p.1 = s')); cbn; rewrite IH.
Qed.
Lemma regs_removed rg s l s' : s' <> s -> regs_of (filter (fun p => ~ (p.1 = s /\ p.2.1 = l)) rg) s' = regs_of rg s'.
Proof.
  intros Hs. unfold regs_of. induction rg as [|p rg IH]; [done|]. rewrite (filter_cons (fun p => ~ (p.1 = s /\ p.2.1 = l))).
  destruct (decide (~ (p.1 = s /\ p.2.1 = l))) as [E|E].
  - rewrite !filter_cons. by destruct (decide (p.1 = s')); cbn; rewrite IH.
  - rewrite (filter_cons_False (fun p => p.1 = s')); [done|]. intros E'. apply E. intros [? _]. congruence.
Qed.
Lemma regs_all_removed rg s l k : regs_of rg s = [(l, k)] -> regs_of (filter (fun p => ~ (p.1 = s /\ p.2.1 = l)) rg) s = [].
Proof.
  assert (Forall (fun q => q.1 = l) (regs_of rg s) -> regs_of (filter (fun p => ~ (p.1 = s /\ p.2.1 = l)) rg) s = []) as H.
  { unfold regs_of. induction rg as [|p rg IH]; [done|]. rewrite !filter_cons. destruct (decide (p.1 = s)) as [E|E]; cbn [fmap list_fmap].
    - intros [Hp Hrest]%Forall_cons. rewrite decide_False by (intros Hn; by apply Hn). auto.
    - intros Hrest. rewrite decide_True by (by intros []). rewrite filter_cons_False by done. auto. }
  intros E. apply H. rewrite E. by constructor.
Qed.

(** A device alone has its index and its service. *)
Record node_alone (l1 : list DeviceInfoNode) (p : DeviceInfoNode) (l2 : list DeviceInfoNode) : Prop := NodeAlone {
  na_index : devIndex (payload p) ∉ map (fun q => devIndex (payload q)) (l1 ++ l2);
  na_service : forall q, q ∈ l1 ++ l2 -> service q <> service p;
}.
Lemma represents_alone L0 g L n m sv rg l1 p l2 : represents L0 g L n m sv rg -> devList m = l1 ++ p :: l2 ->
  node_alone l1 p l2 /\ host_service (hostDev m) <> Some (service p).
Proof.
  intros [] E. pose proof (ho_distinct _ _ _ re_services0) as Hs. rewrite E, services_split in Hs. cbn in Hs. apply NoDup_cons in Hs as [Hs _].
  rewrite <- re_view0, E, map_map, <- Permutation_middle in re_distinct0. cbn in re_distinct0. apply NoDup_cons in re_distinct0 as [Hi _].
  unfold services_of in Hs. rewrite fmap_app, elem_of_app in Hs. split; [split|].
  - done.
  - intros q Hq Eq. apply Hs. right. rewrite <- Eq. apply (list_elem_of_fmap_2 fst _ (node_service q)). by apply (list_elem_of_fmap_2 node_service).
  - intros Eh. apply Hs. left. rewrite Eh. cbn. by left.
Qed.
Lemma view_others index (f : Z * option Z -> Z * option Z) l :
  index ∉ map (fun q => devIndex (payload q)) l -> map (fun p : Z * option Z => if p.1 =? index then f p else p) (map view l) = map view l.
Proof.
  induction l as [|q l IH]; cbn; [done|]. intros [Hq Hl]%not_elem_of_cons. rewrite (proj2 (Z.eqb_neq _ _)) by congruence. by rewrite IH.
Qed.

Lemma host_ok_regs h v rg rg' : (forall s, host_service v = Some s -> regs_of rg' s = regs_of rg s) -> host_ok h v rg -> host_ok h v rg'.
Proof.
  intros Hr. destruct h as [|cb|]; cbn; [| | done].
  - intros (H1 & H2 & H3). split_and!; [done.. |]. intros s Hs. rewrite Hr by done. auto.
  - intros (s & l & H1 & H2 & H3 & H4). exists s, l. by rewrite Hr.
Qed.
Lemma nodes_ok_regs l rg rg' : (forall p, p ∈ l -> regs_of rg' (service p) = regs_of rg (service p)) -> Forall (node_ok rg) l -> Forall (node_ok rg') l.
Proof. rewrite !Forall_forall. intros Hr Hl p Hp. destruct (Hl p Hp). split; [by rewrite Hr | done]. Qed.

(** A device is put in the place of another with the same index and service. *)
Lemma represents_node L0 g L n m sv rg l1 p l2 p' L' n' m' rg' :
  represents L0 g L n m sv rg -> devList m = l1 ++ p :: l2 -> devList m' = l1 ++ p' :: l2 ->
  service p' = service p -> devIndex (payload p') = devIndex (payload p) -> node_ok rg' p' ->
  (forall s, s <> service p -> regs_of rg' s = regs_of rg s) -> Forall (fun q => is_Some (sv !! q.1)) rg' -> (n <= n')%nat ->
  owned L0 L' n' (node_blocks p' ++ blocks_of (manager_at m) (host_listener (hostDev m)) (l1 ++ l2)) ->
  manager_at m' = manager_at m -> attachedDevNum m' = attachedDevNum m -> hostDev m' = hostDev m -> evtCallbackNum m' = Z.of_nat (callbacks (l1 ++ p' :: l2)) ->
  represents L0 (set_callback_of (devIndex (payload p)) (eventCb p') g) L' n' m' sv rg'.
Proof.
  intros Hre E E' Hsv Hi Hok Hr Hnew Hn Ho Ha Hnum Hh Hcb. destruct (represents_alone _ _ _ _ _ _ _ _ _ _ Hre E) as [[Hin Hse] Hhs]. destruct Hre.
  assert (map view (devList m') = opened (set_callback_of (devIndex (payload p)) (eventCb p') g)) as Hview.
  { cbn. rewrite <- re_view0, E, E'. rewrite !map_app. cbn [map fst]. rewrite Z.eqb_refl. rewrite map_app in Hin.
    rewrite !(view_others _ (fun q => (q.1, eventCb p'))) by set_solver. unfold view at 2. by rewrite Hi. }
  assert (map fst (opened (set_callback_of (devIndex (payload p)) (eventCb p') g)) = map fst (opened g)) as Hfst.
  { cbn. rewrite map_map. apply map_ext. intros q. by destruct (q.1 =? _). }
  split; rewrite ?Hh, ?Ha, ?Hnum, ?E'.
  - by rewrite <- E'.
  - done.
  - eapply host_ok_regs; [|done]. intros s Hs. apply Hr. congruence.
  - rewrite E in re_nodes0. apply Forall_app in re_nodes0 as [H1 [_ H2]%Forall_cons]. apply Forall_app. split; [|apply Forall_cons; split; [done|]].
    + eapply nodes_ok_regs; [|done]. intros q Hq. apply Hr, Hse. set_solver.
    + eapply nodes_ok_regs; [|done]. intros q Hq. apply Hr, Hse. set_solver.
  - eapply owned_perm; [|done]. by rewrite blocks_split.
  - eapply holds_le; [done|]. eapply holds_perm; [|done]. rewrite E, !services_split. unfold node_service. by rewrite Hsv, Hi.
  - done.
  - by rewrite Hfst.
  - apply Forall_map. rewrite Forall_forall in re_range0. apply Forall_forall. intros q Hq. destruct (q.1 =? _); cbn; auto.
  - rewrite re_number0, E, !length_app. cbn. done.
  - done.
Qed.

Lemma set_callback_same g index cb : NoDup (map fst (opened g)) -> callback_of index g = Some cb -> set_callback_of index cb g = g.
Proof.
  destruct g as [l h b]. unfold callback_of, set_callback_of, set_opened. cbn. intros Hd Hf. f_equal.
  induction l as [|[i c] l IH]; cbn in *; [done|]. apply NoDup_cons in Hd as [Hi Hd]. destruct (Z.eqb_spec i index) as [->|Ei].
  - cbn in Hf. injection Hf as <-. f_equal. clear -Hi. induction l as [|[j c'] l IH]; cbn in *; [done|].
    apply not_elem_of_cons in Hi as [Hj Hl]. rewrite (proj2 (Z.eqb_neq _ _)) by congruence. by rewrite IH.
  - by rewrite IH.
Qed.

(** Another description of a device. *)
Lemma represents_payload L0 g L n m sv rg l1 p l2 i : represents L0 g L n m sv rg -> devList m = l1 ++ p :: l2 -> devIndex i = devIndex (payload p) ->
  represents L0 g L n (set_devList (l1 ++ set_payload i p :: l2) m) sv rg.
Proof.
  intros Hre E Hi. assert (callback_of (devIndex (payload p)) g = Some (eventCb p)) as Hcb.
  { rewrite (find_node_view _ (devList m)) by apply Hre. destruct (find_node _ (devList m)) as [[k q]|] eqn:Ef.
    - apply find_node_split in Ef as (k1 & k2 & Ek & _ & Hq). destruct (represents_alone _ _ _ _ _ _ _ _ _ _ Hre Ek) as [[Hk _] _].
      assert (p ∈ k1 ++ q :: k2) as Hp by (rewrite <- Ek, E; set_solver). apply elem_of_app in Hp as [Hp|[->|Hp]%elem_of_cons]; [|done|];
        destruct Hk; rewrite Hq; apply list_elem_of_fmap; exists p; set_solver.
    - apply find_none in Ef. destruct Ef. apply list_elem_of_fmap. exists p. rewrite E. set_solver. }
  rewrite <- (set_callback_same g (devIndex (payload p)) (eventCb p)); [|apply Hre|done]. destruct Hre as [].
  eapply (represents_node L0 g L n m sv rg l1 p l2 (set_payload i p)); try done; cbn.
  - rewrite E in re_nodes0. apply Forall_app in re_nodes0 as [_ [[H1 H2] _]%Forall_cons]. done.
  - eapply owned_perm; [|done]. rewrite E. apply blocks_split.
  - rewrite re_callbacks0, E, !callbacks_split. done.
Qed.

Lemma filter_others index l : index ∉ map (fun q => devIndex (payload q)) l -> filter (fun q : Z * option Z => q.1 <> index) (map view l) = map view l.
Proof.
  induction l as [|q l IH]; cbn [map]; [done|]. intros [Hq Hl]%not_elem_of_cons. rewrite filter_cons_True by (cbn; congruence). by rewrite IH.
Qed.

(** A device that was not there. *)
Lemma represents_open L0 g L n m sv rg index : represents L0 g L n m sv rg -> callback_of index g = None -> 0 <= index < MAX_INPUT_DEV_NUM ->
  forall i, devIndex i = index ->
  represents L0 (set_opened (opened g ++ [(index, None)]) g) ({[S n]} ∪ L) (S (S n))
    (set_devices (devList m ++ [mkNode (S n) i n None None]) (u32 (attachedDevNum m + 1)) m) (<[n := event_name index]> sv) rg.
Proof.
  intros Hre Hc Hr i Hi. pose proof (represents_few _ _ _ _ _ _ _ Hre) as Hfew. destruct Hre. rewrite (find_node_view _ _ _ re_view0) in Hc.
  pose proof (Forall_impl _ _ _ re_regs0 (fun q => holds_is_new _ _ _ q.1 re_services0)) as Hregs.
  destruct (find_node index (devList m)) eqn:Ef; [done|]. apply find_none in Ef. split; cbn -[blocks_of services_of callbacks u32].
  - rewrite map_app, re_view0. cbn. unfold view. cbn. by rewrite Hi.
  - done.
  - done.
  - apply Forall_app. split; [done|]. apply Forall_singleton. split; cbn; [|done]. by eapply regs_new.
  - eapply owned_perm; [|apply owned_alloc; eapply owned_le; [|done]; lia]. rewrite blocks_split, app_nil_r. done.
  - eapply holds_le; [|eapply holds_perm; [|apply holds_bind; done]]; [lia|]. rewrite services_split, app_nil_r. unfold node_service. cbn. by rewrite Hi.
  - by apply held_insert.
  - rewrite map_app. cbn. rewrite <- Permutation_cons_append. apply NoDup_cons. split; [|done]. rewrite <- re_view0, map_map. done.
  - apply Forall_app. split; [done|]. by apply Forall_singleton.
  - rewrite re_number0, length_app. cbn. rewrite u32_id; lia.
  - rewrite callbacks_split, app_nil_r. done.
Qed.

Lemma represents_close L0 g L n m sv rg l1 p l2 : represents L0 g L n m sv rg -> devList m = l1 ++ p :: l2 -> eventCb p = None ->
  sv !! service p = Some (event_name (devIndex (payload p))) /\ node_at p ∈ L /\
  represents L0 (set_opened (filter (fun q => q.1 <> devIndex (payload p)) (opened g)) g) (L ∖ {[node_at p]}) n
    (set_devices (l1 ++ l2) (u32 (attachedDevNum m - 1)) m) (delete (service p) sv) (filter (fun q => q.1 <> service p) rg).
Proof.
  intros Hre E Hcb. pose proof (represents_few _ _ _ _ _ _ _ Hre) as Hfew. destruct (represents_alone _ _ _ _ _ _ _ _ _ _ Hre E) as [[Hin Hse] Hhs]. destruct Hre.
  rewrite E in re_nodes0. apply Forall_app in re_nodes0 as [Hn1 [[Hreg Hl] Hn2]%Forall_cons]. assert (listener p = None) as Hlp by (by apply Hl).
  assert (filter (fun q => q.1 <> devIndex (payload p)) (opened g) = map view (l1 ++ l2)) as Hfil.
  { rewrite <- re_view0, E, map_app, filter_app. cbn [map]. rewrite filter_cons_False by (cbn; by intros []).
    rewrite map_app in Hin. rewrite map_app, !filter_others by set_solver. done. }
  destruct (holds_recycle sv n (service p) (event_name (devIndex (payload p))) (services_of (host_service (hostDev m)) (l1 ++ l2))) as [Hs Hsv].
  { eapply holds_perm; [|done]. by rewrite E, services_split. }
  destruct (owned_free L0 L n (node_at p) (blocks_of (manager_at m) (host_listener (hostDev m)) (l1 ++ l2))) as [Hnode Hown].
  { eapply owned_perm; [|done]. rewrite E, blocks_split. unfold node_blocks. by rewrite Hlp. }
  split; [done|]. split; [done|]. split; cbn -[blocks_of services_of callbacks u32].
  - by rewrite Hfil.
  - done.
  - eapply host_ok_regs; [|done]. intros s Hs'. apply regs_recycled. congruence.
  - apply Forall_app. split; (eapply nodes_ok_regs; [|done]); intros q Hq; apply regs_recycled, Hse; set_solver.
  - done.
  - done.
  - by apply held_recycle.
  - rewrite Hfil. rewrite <- re_view0, E, map_map, map_app in re_distinct0. cbn in re_distinct0. rewrite <- Permutation_middle in re_distinct0.
    apply NoDup_cons in re_distinct0 as [_ Hd]. by rewrite map_map, map_app.
  - apply Forall_forall. intros q [_ Hq]%list_elem_of_filter. rewrite Forall_forall in re_range0. auto.
  - rewrite re_number0. rewrite E in *. rewrite !length_app in *. cbn [length] in *. rewrite u32_id; lia.
  - rewrite re_callbacks0, E, callbacks_split, Hcb. done.
Qed.

(** The service of hot plugging and its listener. *)
Lemma represents_bind L0 g L n m sv rg l cb : represents L0 g L n m sv rg -> hostDev m = mkHostDev None l cb ->
  represents L0 (mkRegistry (opened g) (hot g) true) L (S n) (set_hostDev (mkHostDev (Some n) l cb) m) (<[n := DEV_MANAGER_SERVICE_NAME]> sv) rg.
Proof.
  intros [] E. rewrite E in *. pose proof (Forall_impl _ _ _ re_regs0 (fun q => holds_is_new _ _ _ q.1 re_services0)) as Hregs. split; cbn -[blocks_of services_of callbacks] in *; try done.
  - destruct (hot g); cbn in *; [|by destruct re_host0 as (? & ? & ? & _)|done]. destruct re_host0 as (-> & -> & _). split_and!; [done.. |].
    intros s [= <-]. by eapply regs_new.
  - eapply owned_le; [|done]. lia.
  - exact (holds_bind _ _ _ DEV_MANAGER_SERVICE_NAME re_services0).
  - by apply held_insert.
Qed.
Lemma represents_hot L0 g L n m sv rg s cb : represents L0 g L n m sv rg -> host_service (hostDev m) = Some s -> hot g = NoHotPlug ->
  represents L0 (set_hot (HotPlugTo cb) g) ({[n]} ∪ L) (S n) (set_hostDev (mkHostDev (Some s) (Some n) (Some cb)) m) sv (rg ++ [(s, (n, HotPlugListener))]).
Proof.
  intros [] Es Eh. rewrite Eh, Es in *. cbn in re_host0. destruct re_host0 as (Hl & _ & Hnone). rewrite Hl in *.
  assert (forall p, p ∈ devList m -> service p <> s) as Hne.
  { intros p Hp Ep. pose proof (ho_distinct _ _ _ re_services0) as Hs. cbn in Hs. apply NoDup_cons in Hs as [Hs _]. apply Hs. rewrite <- Ep.
    apply (list_elem_of_fmap_2 fst _ (node_service p)). by apply (list_elem_of_fmap_2 node_service). }
  assert (forall s', s' <> s -> regs_of (rg ++ [(s, (n, HotPlugListener))]) s' = regs_of rg s') as Hr.
  { intros s' Hs'. rewrite regs_app. unfold regs_of at 2. rewrite filter_cons_False by (cbn; congruence). cbn. apply app_nil_r. }
  split; cbn -[blocks_of services_of callbacks] in *; try done.
  - exists s, n. split_and!; [done.. |]. rewrite regs_app, Hnone by done. unfold regs_of. by rewrite filter_cons_True.
  - eapply nodes_ok_regs; [|done]. intros p Hp. by apply Hr, Hne.
  - eapply owned_perm; [|apply owned_alloc; done]. unfold blocks_of. cbn. apply Permutation_swap.
  - eapply holds_le; [|done]. lia.
  - apply Forall_app. split; [done | apply Forall_singleton; cbn]. apply (holds_recycle _ _ _ _ _) in re_services0 as [-> _]. done.
Qed.
Lemma represents_unhot L0 g L n m sv rg : represents L0 g L n m sv rg ->
  match host_listener (hostDev m) with Some l => l ∈ L | None => True end /\
  represents L0 (set_hot (match hot g with NoHotPlug => NoHotPlug | _ => HotPlugLost end) g)
    (match host_listener (hostDev m) with Some l => L ∖ {[l]} | None => L end) n (set_hostDev (mkHostDev (host_service (hostDev m)) None None) m) sv rg.
Proof.
  intros []. destruct (hostDev m) as [s hl cb] eqn:Eh. cbn in *. destruct hl as [l|].
  - destruct (owned_free L0 L n l (blocks_of (manager_at m) None (devList m))) as [Hl Ho].
    { eapply owned_perm; [|done]. unfold blocks_of. cbn. apply Permutation_swap. }
    split; [done|]. split; cbn -[blocks_of services_of callbacks]; try done. destruct (hot g); [by destruct re_host0 | done | done].
  - split; [done|]. split; cbn -[blocks_of services_of callbacks]; try done.
    destruct (hot g); [by destruct re_host0 as (_ & _ & ?) | done | done].
Qed.
