(* ===== verification/InputRules.v ===== *)
(** * InputRules: rules for the calls of the input HAL

    The calls of the framework on a state with a manager, the mutex and the search
    for a device, the exchange of messages with a driver, and messages from one. *)
From stdpp Require Import pretty.
From S2P Require Import Prelude Hdf Arrays Input InputOps InputSpec InputFacts.
Open Scope Z_scope.

(** A state with a manager. *)
Definition St {SB D} (S : gmap nat SB) L n m sv rg (d : D) rp : World SB (Input D) := mkWorld S L n (mkInput (Some m) sv rg d rp).

(** What a driver's answer gives to the caller that reads into [out]. *)
Definition reply_of `{!InputTypes} (cmd : Z) (v : list item) (out : cmd_out) (outLen : Z) : bool * cmd_out :=
  if (cmd =? GET_PWR_STATUS) || (cmd =? GET_DEV_TYPE) then match v with IUint32 z :: _ => (true, OutWord z) | _ => (false, out) end
  else if (cmd =? GET_CHIP_INFO) || (cmd =? GET_VENDOR_NAME) || (cmd =? GET_CHIP_NAME) || (cmd =? RUN_CAPAC_TEST) then
    match v, out with
    | IString s :: _, OutChars buf =>
        let src := before_nul (chars s) in let '(ret, buf) := strncpy_s buf outLen src (len src) in (ret =? 0, OutChars buf)
    | _, _ => (false, out)
    end
  else if (cmd =? GET_DEV_ATTR) || (cmd =? GET_DEV_ABILITY) then match v with IBuffer b :: _ => (true, OutBytes b) | _ => (false, out) end
  else (false, out).
(** The arguments that go with a command. *)
Definition input_fits (cmd : Z) (input : option cmd_in) : Prop :=
  match input with
  | None => True
  | Some (InWord _) => cmd = SET_PWR_STATUS \/ cmd = SET_GESTURE_MODE \/ cmd = RUN_CAPAC_TEST
  | Some (InExtra _ _) => cmd = RUN_EXTRA_CMD
  end.
Definition out_fits (cmd : Z) (out : option cmd_out) : Prop :=
  match out with
  | None => True
  | Some (OutWord _) => cmd = GET_PWR_STATUS \/ cmd = GET_DEV_TYPE
  | Some (OutChars _) => cmd = GET_CHIP_INFO \/ cmd = GET_VENDOR_NAME \/ cmd = GET_CHIP_NAME \/ cmd = RUN_CAPAC_TEST
  | Some (OutBytes _) => cmd = GET_DEV_ATTR \/ cmd = GET_DEV_ABILITY
  end.

Section rules.
Context {SB : Type} `{!Platform SB, !PlatformLaws SB} `{!HdfStatus} `{!InputTypes} {D : Type} `{!InputDrivers SB D, !InputDriverLaws SB D}.
Implicit Types (S : gmap nat SB) (L : gset nat) (n : nat) (m : InputDevManager) (sv : gmap nat string) (d : D) (rp : list report).
Abbreviation W := (World SB (Input D)).

(** ** Memory, services and listeners *)
Lemma wp_malloc type S L n m sv rg d rp (Q : option nat -> W -> Prop) :
  Q (Some n) (St S ({[n]} ∪ L) (Datatypes.S n) m sv rg d rp) -> (~ reliable SB -> Q None (St S L (Datatypes.S n) m sv rg d rp)) ->
  wp (malloc type) Q (St S L n m sv rg d rp).
Proof.
  intros Hs Hn. unfold malloc, wp, OsalMemAlloc. cbn. destruct (alloc_ok n (sizeof type)) eqn:E; [done|].
  apply Hn. intros (_ & Hal & _). rewrite Hal in E; [done | apply sizeof_types].
Qed.
Lemma wp_free_block k S L n m sv rg d rp (Q : unit -> W -> Prop) :
  k ∈ L -> Q tt (St S (L ∖ {[k]}) n m sv rg d rp) -> wp (free k) Q (St S L n m sv rg d rp).
Proof. intros Hk HQ. unfold free, wp, OsalMemFree. cbn. by rewrite decide_True. Qed.
Lemma wp_service name S L n m sv rg d rp (Q : option nat -> W -> Prop) :
  (bind_ok name d = true -> Q (Some n) (St S L (Datatypes.S n) m (<[n := name]> sv) rg d rp)) -> (bind_ok name d = false -> Q None (St S L n m sv rg d rp)) ->
  wp (HdfIoServiceBind name) Q (St S L n m sv rg d rp).
Proof. intros Ht Hf. unfold wp, HdfIoServiceBind, mbind, M_bind, svc_state, gets. cbn. destruct (bind_ok name d); [by apply Ht | by apply Hf]. Qed.
Lemma wp_recycle_service s name S L n m sv rg d rp (Q : unit -> W -> Prop) :
  sv !! s = Some name -> Q tt (St S L n m (delete s sv) (filter (fun p => p.1 <> s) rg) d rp) ->
  wp (HdfIoServiceRecycle (Some s)) Q (St S L n m sv rg d rp).
Proof. intros Hs HQ. unfold wp, HdfIoServiceRecycle, mbind, M_bind, svc_state, gets. cbn. rewrite Hs. done. Qed.
Lemma wp_listen s l k name S L n m sv rg d rp (Q : Z -> W -> Prop) :
  sv !! s = Some name -> (listen_status name d = 0 -> Q 0 (St S L n m sv (rg ++ [(s, (l, k))]) d rp)) ->
  (listen_status name d <> 0 -> Q (listen_status name d) (St S L n m sv rg d rp)) ->
  wp (HdfDeviceRegisterEventListener s l k) Q (St S L n m sv rg d rp).
Proof.
  intros Hs Ht Hf. unfold wp, HdfDeviceRegisterEventListener, mbind, M_bind, svc_state, gets. cbn. rewrite Hs. unfold deref, mret, M_ret.
  destruct (Z.eqb_spec (listen_status name d) 0) as [E|E]; cbn; [rewrite E; by apply Ht | by apply Hf].
Qed.
Lemma wp_unlisten s l name S L n m sv rg d rp (Q : Z -> W -> Prop) :
  sv !! s = Some name -> (unlisten_status name d = 0 -> Q 0 (St S L n m sv (filter (fun p => ~ (p.1 = s /\ p.2.1 = l)) rg) d rp)) ->
  (unlisten_status name d <> 0 -> Q (unlisten_status name d) (St S L n m sv rg d rp)) ->
  wp (HdfDeviceUnregisterEventListener (Some s) (Some l)) Q (St S L n m sv rg d rp).
Proof.
  intros Hs Ht Hf. unfold wp, HdfDeviceUnregisterEventListener, mbind, M_bind, svc_state, gets. cbn. rewrite Hs. unfold deref, mret, M_ret.
  destruct (Z.eqb_spec (unlisten_status name d) 0) as [E|E]; cbn; [rewrite E; by apply Ht | by apply Hf].
Qed.

(** ** The manager *)
Lemma wp_manager S L n m sv rg d rp (Q : option InputDevManager -> W -> Prop) :
  Q (Some m) (St S L n m sv rg d rp) -> wp GetDevManager Q (St S L n m sv rg d rp).
Proof. done. Qed.
Lemma wp_upd_manager f S L n m sv rg d rp (Q : unit -> W -> Prop) :
  Q tt (St S L n (f m) sv rg d rp) -> wp (upd_manager f) Q (St S L n m sv rg d rp).
Proof. done. Qed.
Lemma wp_upd_node k f S L n m sv rg d rp (Q : unit -> W -> Prop) :
  Q tt (St S L n (set_devList (alter f k (devList m)) m) sv rg d rp) -> wp (upd_node k f) Q (St S L n m sv rg d rp).
Proof. done. Qed.
Lemma wp_lock S L n m sv rg d rp (Q : unit -> W -> Prop) :
  mutex m = false -> Q tt (St S L n (set_mutex true m) sv rg d rp) -> wp pthread_mutex_lock Q (St S L n m sv rg d rp).
Proof. intros Hm HQ. unfold pthread_mutex_lock. apply wp_bind, wp_manager, wp_bind. eapply wp_deref; [done|]. by rewrite Hm. Qed.
Lemma wp_unlock S L n m sv rg d rp (Q : unit -> W -> Prop) :
  Q tt (St S L n (set_mutex false m) sv rg d rp) -> wp pthread_mutex_unlock Q (St S L n m sv rg d rp).
Proof. done. Qed.

(** A device that is not there, and one that is. *)
Lemma wp_no_device {B} index (failure : B) body S L n m sv rg d rp (Q : B -> W -> Prop) :
  mutex m = false -> find_node index (devList m) = None -> Q failure (St S L n m sv rg d rp) ->
  wp (on_device index failure body) Q (St S L n m sv rg d rp).
Proof.
  intros Hm Hf HQ. unfold on_device. apply wp_bind, wp_manager, wp_bind, wp_lock; [done|]. rewrite Hf. apply wp_bind, wp_unlock, wp_ret.
  by rewrite unlock_locked.
Qed.
Lemma wp_present_device {B} index (failure : B) body k p S L n m sv rg d rp (Q : B -> W -> Prop) :
  mutex m = false -> find_node index (devList m) = Some (k, p) ->
  wp (body k p) (fun r w => wp pthread_mutex_unlock (fun _ => Q r) w) (St S L n (set_mutex true m) sv rg d rp) ->
  wp (on_device index failure body) Q (St S L n m sv rg d rp).
Proof.
  intros Hm Hf HQ. unfold on_device. apply wp_bind, wp_manager, wp_bind, wp_lock; [done|]. rewrite Hf. apply wp_bind.
  eapply wp_mono; [done|]. intros r w Hr. apply wp_bind. eapply wp_mono; [exact Hr|]. intros [] w' Hw. by apply wp_ret.
Qed.

(** ** Messages to a driver *)
Lemma fill_writes data cmd input : input_fits cmd (Some input) -> writes (X := Input D) data (FillSbufData data cmd input) (request_items (Some input)).
Proof.
  intros Hfit. unfold FillSbufData. destruct input as [v|code value]; cbn in Hfit.
  - assert ((cmd =? SET_PWR_STATUS) || (cmd =? SET_GESTURE_MODE) || (cmd =? RUN_CAPAC_TEST) = true) as -> by (by destruct Hfit as [->|[->| ->]]).
    apply writes_item.
  - subst cmd. cbn -[HdfSbufWriteString].
    intros base r sd sr L n x Q Hdr Ht Hf. apply wp_bind. apply (writes_item data (IString code)); [done| |].
    + intros sd' Hv. apply (writes_item data (IString value)); [done| |]; [|auto]. intros sd'' Hv'. apply Ht. by rewrite Hv', Hv, <- app_assoc.
    + intros sd' Hnr. apply wp_ret. auto.
Qed.
Lemma obtain_reads reply cmd v out outLen base data sd sr L n x (Q : bool * cmd_out -> W -> Prop) :
  data <> reply -> out_fits cmd (Some out) -> well_shaped cmd v -> sbuf_view sr = v ->
  (forall sr', Q (reply_of cmd v out outLen) (call_state base data reply sd sr' L n x)) ->
  wp (ObtainSbufData reply cmd out outLen) Q (call_state base data reply sd sr L n x).
Proof.
  intros Hd Hfit Hsh Hv HQ. unfold ObtainSbufData. unfold well_shaped in Hsh. unfold reply_of in HQ.
  destruct ((cmd =? GET_PWR_STATUS) || (cmd =? GET_DEV_TYPE)) eqn:E1.
  { destruct Hsh as (z & l & ->). apply wp_bind. eapply (wp_reads_reply _ _ _ _ [IUint32 z]); [done | by apply reads_item | exact Hv |]. cbn. intros sr' _. by apply wp_ret. }
  destruct ((cmd =? GET_CHIP_INFO) || (cmd =? GET_VENDOR_NAME) || (cmd =? GET_CHIP_NAME) || (cmd =? RUN_CAPAC_TEST)) eqn:E2.
  { destruct out as [z|buf|b]; cbn in Hfit; [by destruct Hfit as [->| ->] | | by destruct Hfit as [->| ->]].
    destruct Hsh as (s & l & ->). unfold ReadStrBuf. apply wp_bind, wp_bind. eapply (wp_reads_reply _ _ _ _ [IString s]); [done | by apply reads_item | exact Hv |]. cbn. intros sr' _.
    specialize (HQ sr'). destruct (strncpy_s _ _ _ _). by do 2 apply wp_ret. }
  destruct (cmd =? GET_DEV_ATTR) eqn:E3; [|destruct (cmd =? GET_DEV_ABILITY) eqn:E4]; cbn in HQ.
  3: { exfalso. destruct out as [z|buf|b]; cbn in Hfit.
       - by destruct Hfit as [->| ->].
       - by destruct Hfit as [->|[->|[->| ->]]].
       - by destruct Hfit as [->| ->]. }
  all: destruct out as [z|buf|b0]; cbn in Hfit; [by destruct Hfit as [->| ->] | by destruct Hfit as [->|[->|[->| ->]]] |];
    destruct Hsh as (b & l & -> & Hb); (first [unfold ReadAttrBuf | unfold ReadAbilityBuf]); apply wp_bind, wp_bind;
    (eapply (wp_reads_reply _ _ _ _ [IBuffer b]); [done | by apply reads_item | exact Hv |]); cbn; intros sr' _;
    pose proof (sizeof_types "DevAttr") as Hs; pose proof (sizeof_types "DevAbility") as Hs';
    unfold memcpy_from; (rewrite (proj2 (Nat.eqb_neq _ _)) by (unfold len in Hb; lia)); rewrite Hb, Z.ltb_irrefl;
    apply wp_ret, wp_ret; cbn; rewrite <- Hb; unfold len; rewrite Nat2Z.id, firstn_all; apply HQ.
Qed.

Lemma wp_dispatch s name cmd base data reply sd sr L n x (Q : Z -> W -> Prop) :
  data <> reply -> services x !! s = Some name -> sbuf_view sr = [] ->
  (forall ret sr' d', io_answer name cmd (sbuf_view sd) (drivers x) = (ret, sbuf_view sr', d') ->
    Q ret (call_state base data reply sd sr' L n (set_drivers d' x))) ->
  wp (Dispatch s cmd (Some data) reply) Q (call_state base data reply sd sr L n x).
Proof.
  intros Hd Hs Hv HQ. unfold wp, Dispatch, call_state. cbn. rewrite Hs, lookup_insert_eq, lookup_insert_ne, lookup_insert_eq by done. cbn.
  destruct (io_dispatch_view name cmd (Some sd) sr (drivers x) Hv) as (ret & sr' & d' & E & Ha). rewrite E. rewrite insert_insert_eq. by apply HQ.
Qed.
(** The two messages of a command. *)
Lemma wp_messages cmd S L n x (Q : option (nat * nat) -> W -> Prop) :
  bounded (dom S) n ->
  Q (Some (n, Datatypes.S n)) (call_state S n (Datatypes.S n) sbuf_new sbuf_new L (Datatypes.S (Datatypes.S n)) x) ->
  (~ reliable SB -> Q None (mkWorld S L (Datatypes.S (Datatypes.S n)) x)) ->
  wp (InstanceCmdSbuf cmd) Q (mkWorld S L n x).
Proof.
  intros Hb Hok Hfail. assert (forall k, (n <= k)%nat -> S !! k = None) as Hfresh by (intros k Hk; apply not_elem_of_dom; intros ?%Hb; lia).
  assert (forall k, sbuf_obtain_ok k = false -> ~ reliable SB) as Hnr by (intros k E (Hr & _); by rewrite Hr in E).
  unfold InstanceCmdSbuf. apply wp_bind. unfold wp at 1, HdfSbufTypedObtain.
  destruct (sbuf_obtain_ok _) eqn:E1; apply wp_bind; unfold wp at 1; cbn; destruct (sbuf_obtain_ok (Datatypes.S n)) eqn:E2;
    [by apply wp_ret | | | by apply wp_ret; eauto];
    unfold recycle_opt, wp, mbind, M_bind, mret, M_ret, HdfSbufRecycle; cbn;
    rewrite lookup_insert_eq; cbn; rewrite delete_insert_id by (apply Hfresh; lia); eauto.
Qed.

(** What a command gives: nothing was sent for lack of memory, or the answer of the
    driver. *)
Definition ops_result name cmd input out outLen d ret out' d' : Prop :=
  (~ reliable SB /\ ret = INPUT_FAILURE /\ out' = out /\ d' = d) \/
  exists ret0 v, io_answer name cmd (request_items input) d = (ret0, v, d') /\
    if ret0 =? 0 then
      match out with
      | None => ret = 0 /\ out' = None
      | Some o => ret = (if (reply_of cmd v o outLen).1 then 0 else INPUT_FAILURE) /\ out' = Some (reply_of cmd v o outLen).2 /\ well_shaped cmd v
      end
    else ret = ret0 /\ out' = out.

Lemma wp_recycle_two {A} (a : A) base data reply sd sr L n (x : Input D) (Q : A -> W -> Prop) :
  data <> reply -> base !! data = None -> base !! reply = None -> Q a (mkWorld base L n x) ->
  wp (HdfSbufRecycle data;; HdfSbufRecycle reply;; mret a) Q (call_state base data reply sd sr L n x).
Proof.
  intros Hdr Hd Hr HQ. apply wp_bind. unfold wp at 1, HdfSbufRecycle, call_state; cbn.
  rewrite lookup_insert_ne, lookup_insert_eq by done. rewrite delete_insert_ne, delete_insert_id by done.
  apply wp_bind. unfold wp at 1; cbn. rewrite lookup_insert_eq. by rewrite delete_insert_id.
Qed.
Lemma wp_io_ops s name cmd input out outLen S L n m sv rg d rp (Q : Z * option cmd_out -> W -> Prop) :
  bounded (dom S) n -> sv !! s = Some name -> name <> DEV_MANAGER_SERVICE_NAME -> input_fits cmd input -> out_fits cmd out ->
  (forall n' ret out' d', (n <= n')%nat -> ops_result name cmd input out outLen d ret out' d' -> Q (ret, out') (St S L n' m sv rg d' rp)) ->
  wp (IoServiceOps s cmd input out outLen) Q (St S L n m sv rg d rp).
Proof.
  intros Hb Hs Hname Hin Hout HQ. unfold IoServiceOps, St. apply wp_bind, wp_messages; [done | | intros Hnr; apply wp_ret, HQ; [lia | by left]].
  assert (forall k, (n <= k)%nat -> S !! k = None) as Hfresh by (intros k Hk; apply not_elem_of_dom; intros ?%Hb; lia).
  set (x := mkInput (Some m) sv rg d rp). apply wp_bind.
  assert (forall ret out' d' sd sr, ops_result name cmd input out outLen d ret out' d' ->
    wp (HdfSbufRecycle n;; HdfSbufRecycle (Datatypes.S n);; mret (ret, out')) Q (call_state S n (Datatypes.S n) sd sr L (Datatypes.S (Datatypes.S n)) (set_drivers d' x))) as Hend.
  { intros ret out' d' sd sr Hres. apply wp_recycle_two; [lia | apply Hfresh; lia | apply Hfresh; lia |]. apply HQ; [lia | done]. }
  unfold exchange. apply wp_bind.
  assert (forall sd sr, sbuf_view sd = request_items input -> sbuf_view sr = [] -> wp (exchange s cmd None out outLen n (Datatypes.S n))
    (fun a w => wp (HdfSbufRecycle n;; HdfSbufRecycle (Datatypes.S n);; mret a) Q w) (call_state S n (Datatypes.S n) sd sr L (Datatypes.S (Datatypes.S n)) x)) as Hsend.
  { intros sd sr Hsd Hsr. unfold exchange. apply wp_bind, wp_ret, wp_bind. eapply wp_dispatch; [lia | done | done |]. intros ret sr' d' Ha.
    rewrite Hsd in Ha. cbn in Ha. unfold INPUT_SUCCESS. destruct (Z.eqb_spec ret 0) as [->|Hret]; cbn [negb].
    2: { apply wp_ret, Hend. right. exists ret, (sbuf_view sr'). split; [done|]. by rewrite (proj2 (Z.eqb_neq _ _)). }
    destruct out as [o|].
    2: { apply wp_ret, Hend. right. by exists 0, (sbuf_view sr'). }
    pose proof (io_answer_shape _ _ _ _ _ _ Hname Ha) as Hsh. apply wp_bind. eapply obtain_reads; [lia | done | done | done |]. intros sr''.
    destruct (reply_of cmd (sbuf_view sr') o outLen) as [ok o'] eqn:Er. apply wp_ret, Hend. right. exists 0, (sbuf_view sr'). split; [done|].
    rewrite Er. cbn. by destruct ok. }
  destruct input as [input|].
  - apply (fill_writes n cmd input Hin); [lia| |]; intros sd' Hv; cbn [negb].
    + rewrite sbuf_view_new in Hv. apply (Hsend sd' sbuf_new); [done | apply sbuf_view_new].
    + apply wp_ret. apply (Hend _ _ d). by left.
  - apply wp_ret. apply (Hsend sbuf_new sbuf_new); apply sbuf_view_new.
Qed.
End rules.

(** ** Messages from the drivers

    Reading the buffers of a message, the listeners the framework calls, and the
    scan for devices. *)
Section events.
Context {SB : Type} `{!Platform SB, !PlatformLaws SB} `{!HdfStatus} `{!InputTypes} {D : Type} `{!InputDrivers SB D, !InputDriverLaws SB D}.
Implicit Types (S : gmap nat SB) (L : gset nat) (n : nat) (m : InputDevManager) (sv : gmap nat string) (d : D) (rp : list report).
Abbreviation W := (World SB (Input D)).

(** ** Buffers of a message *)
Lemma wp_read_any_buffer k sb S L n m sv rg d rp (Q : option (list Z) -> W -> Prop) :
  (forall o sb', (Forall is_buffer (sbuf_view sb) ->
      match sbuf_view sb with IBuffer b :: v => o = Some b /\ sbuf_view sb' = v | _ => o = None end) ->
    Q o (St (<[k := sb']> S) L n m sv rg d rp)) ->
  wp (HdfSbufReadBuffer k) Q (St (<[k := sb]> S) L n m sv rg d rp).
Proof.
  intros HQ. unfold HdfSbufReadBuffer, read_as. apply wp_bind. unfold wp at 1, HdfSbufRead, on_sbuf. cbn. rewrite lookup_insert_eq.
  destruct (sbuf_read KBuffer sb) as [o sb'] eqn:E. rewrite insert_insert_eq. apply wp_ret, HQ. intros Hb.
  destruct (sbuf_view sb) as [|i v] eqn:Ev.
  - destruct (sbuf_read_empty KBuffer sb Ev) as [s' E']. rewrite E in E'. by injection E' as -> _.
  - apply Forall_cons in Hb as [Hi _]. destruct i as [| | | | | | | | |b| |]; try done.
    destruct (sbuf_read_view _ _ _ Ev) as (s' & E' & Hs'). cbn in E'. rewrite E in E'. by injection E' as -> ->.
Qed.

Lemma wp_packages k sb v c S L n m sv rg d rp (Q : list (list Z) -> W -> Prop) :
  sbuf_view sb = v -> Forall is_buffer v -> (forall sb', Q (packages c v) (St (<[k := sb']> S) L n m sv rg d rp)) ->
  wp (read_packages k c) Q (St (<[k := sb]> S) L n m sv rg d rp).
Proof.
  revert sb v Q. induction c as [|c IH]; intros sb v Q Hv Hb HQ; cbn [read_packages]; [by apply wp_ret, (HQ sb)|].
  apply wp_bind, wp_read_any_buffer. intros o sb'. rewrite Hv. intros Ho. specialize (Ho Hb). destruct v as [|i v]; [subst o; by apply wp_ret, (HQ sb')|].
  pose proof Hb as Hb'. apply Forall_cons in Hb' as [Hi Hb']. destruct i as [| | | | | | | | |b| |]; try done. destruct Ho as [-> Hv'].
  destruct b as [|z b]; [by apply wp_ret, (HQ sb')|]. apply wp_bind. apply (IH sb' v); [done | done |]. intros sb''. by apply wp_ret, HQ.
Qed.

Lemma scan_loop_runs k sr v c arr S L n m sv rg d rp (Q : list (list Z) -> W -> Prop) :
  sbuf_view sr = v -> (c <= length arr)%nat ->
  (forall sr' r, length r = length arr -> (Forall is_buffer v -> r = scanned c v arr) -> Q r (St (<[k := sr']> S) L n m sv rg d rp)) ->
  wp (scan_loop k arr c) Q (St (<[k := sr]> S) L n m sv rg d rp).
Proof.
  revert sr v arr Q. induction c as [|c IH]; intros sr v arr Q Hv Hl HQ; cbn [scan_loop]; [by apply wp_ret, (HQ sr)|].
  apply wp_bind, wp_read_any_buffer. rewrite Hv. intros o sr' Ho. destruct arr as [|x arr]; cbn in Hl; [lia|]. destruct o as [b|].
  - destruct (len b =? sizeof_DevDesc) eqn:Eb; cbn [negb].
    + apply wp_bind. apply (IH sr' (sbuf_view sr')); [done | lia |]. intros sr'' r Hr Hs. apply wp_ret, HQ; cbn; [lia|]. intros Hb. specialize (Ho Hb).
      destruct v as [|i v]; [done|]. apply Forall_cons in Hb as [Hi Hb]. destruct i as [| | | | | | | | |b'| |]; try done. destruct Ho as [[= <-] Hv'].
      rewrite Eb. f_equal. rewrite <- Hv'. apply Hs. by rewrite Hv'.
    + apply wp_ret, HQ; [done|]. intros Hb. specialize (Ho Hb). cbn. destruct v as [|i v]; [done|]. destruct i as [| | | | | | | | |b'| |]; try done.
      destruct Ho as [[= <-] _]. by rewrite Eb.
  - apply wp_ret, HQ; [done|]. intros Hb. specialize (Ho Hb). cbn. destruct v as [|i v]; [done|]. destruct i as [| | | | | | | | |b'| |]; try done. by destruct Ho.
Qed.

(** ** Listeners *)
Lemma wp_message k sb S L m sv rg d rp n (Q : unit -> W -> Prop) : S !! k = None -> Q tt (St S L n m sv rg d rp) ->
  wp (HdfSbufRecycle k) Q (St (<[k := sb]> S) L n m sv rg d rp).
Proof. intros Hk HQ. unfold wp, HdfSbufRecycle. cbn. rewrite lookup_insert_eq. by rewrite delete_insert_id. Qed.

Lemma call_back_others l s pkgs S L n m sv rg d rp (Q : unit -> W -> Prop) :
  (forall p, p ∈ l -> service p <> s) -> Q tt (St S L n m sv rg d rp) -> wp (call_back l s pkgs) Q (St S L n m sv rg d rp).
Proof.
  induction l as [|p l IH]; intros Hl HQ; cbn [call_back]; [by apply wp_ret|].
  rewrite (proj2 (Nat.eqb_neq _ _)) by (apply Hl; by left). apply wp_bind, wp_ret, IH; [|done]. intros q Hq. apply Hl. by right.
Qed.
Lemma call_back_device l1 p l2 cb pkgs S L n m sv rg d rp (Q : unit -> W -> Prop) :
  (forall q, q ∈ l1 ++ l2 -> service q <> service p) -> eventCb p = Some cb ->
  Q tt (St S L n m sv rg d (rp ++ [EventPkgs cb pkgs (devIndex (payload p))])) -> wp (call_back (l1 ++ p :: l2) (service p) pkgs) Q (St S L n m sv rg d rp).
Proof.
  induction l1 as [|q l1 IH]; intros Hl Hcb HQ; cbn [call_back app].
  - rewrite Nat.eqb_refl, Hcb. apply wp_bind, wp_bind. eapply wp_deref; [done|]. apply call_back_others; [done | exact HQ].
  - rewrite (proj2 (Nat.eqb_neq _ _)) by (apply Hl; by left). apply wp_bind, wp_ret, IH; [|done | done]. intros q' Hq. apply Hl. by right.
Qed.

(** An event of a device whose listener is registered. *)
Lemma wp_device_event sb l1 p l2 l cb S L n m sv rg d rp (Q : unit -> W -> Prop) :
  bounded (dom S) n -> devList m = l1 ++ p :: l2 -> (forall q, q ∈ l1 ++ l2 -> service q <> service p) -> eventCb p = Some cb ->
  regs_of rg (service p) = [(l, ReportListener)] -> l ∈ L -> Forall is_buffer (sbuf_view sb) ->
  Q tt (St S L (Datatypes.S n) m sv rg d (rp ++ [EventPkgs cb (packages MAX_EVENT_PKG_NUM (sbuf_view sb)) (devIndex (payload p))])) ->
  wp (event (service p) sb) Q (St S L n m sv rg d rp).
Proof.
  intros Hb Hm Hne Hcb Hr Hl Hbuf HQ. assert (S !! n = None) as Hn by (apply not_elem_of_dom; intros ?%Hb; lia).
  unfold event. apply wp_bind. change (wp (run_listeners (service p) sb (regs_of rg (service p))) Q (St S L n m sv rg d rp)). rewrite Hr. cbn [run_listeners].
  apply wp_bind. unfold run_listener. apply wp_bind. unfold wp at 1, get_state. cbn [w_live St fst snd]. rewrite bool_decide_true by done. cbn [negb].
  apply wp_bind. unfold wp at 1, fresh. cbn. apply wp_bind, wp_modify, wp_bind. cbn.
  change (wp (EventListenerCallback (Some (service p)) (Some n)) (fun _ w => wp (HdfSbufRecycle n) (fun a w => wp (mret tt) Q w) w)
    (St (<[n := sb]> S) L (Datatypes.S n) m sv rg d rp)).
  unfold EventListenerCallback. apply wp_bind, wp_manager, wp_bind. apply (wp_packages n sb (sbuf_view sb)); [done | done |]. intros sb'.
  apply wp_bind. rewrite Hm. eapply call_back_device; [done | done |]. apply wp_ret, wp_message; [done|]. by apply wp_ret.
Qed.
(** An event of the service for hot plugging. *)
Lemma wp_hot_event sb s l cb S L n m sv rg d rp (Q : unit -> W -> Prop) :
  bounded (dom S) n -> hostCb (hostDev m) = Some cb -> regs_of rg s = [(l, HotPlugListener)] -> l ∈ L -> Forall is_buffer (sbuf_view sb) ->
  Q tt (St S L (Datatypes.S n) m sv rg d (rp ++ match sbuf_view sb with IBuffer b :: _ => [HotPlugged cb b] | _ => [] end)) ->
  wp (event s sb) Q (St S L n m sv rg d rp).
Proof.
  intros Hb Hcb Hr Hl Hbuf HQ. assert (S !! n = None) as Hn by (apply not_elem_of_dom; intros ?%Hb; lia).
  unfold event. apply wp_bind. change (wp (run_listeners s sb (regs_of rg s)) Q (St S L n m sv rg d rp)). rewrite Hr. cbn [run_listeners].
  apply wp_bind. unfold run_listener. apply wp_bind. unfold wp at 1, get_state. cbn [w_live St fst snd]. rewrite bool_decide_true by done. cbn [negb].
  apply wp_bind. unfold wp at 1, fresh. cbn. apply wp_bind, wp_modify, wp_bind. cbn.
  change (wp (HotPlugEventListenerCallback (Some s) (Some n)) (fun _ w => wp (HdfSbufRecycle n) (fun a w => wp (mret tt) Q w) w)
    (St (<[n := sb]> S) L (Datatypes.S n) m sv rg d rp)).
  unfold HotPlugEventListenerCallback. apply wp_bind, wp_manager, wp_bind, wp_read_any_buffer. intros o sb' Ho. specialize (Ho Hbuf).
  destruct (sbuf_view sb) as [|i v].
  - subst o. apply wp_ret, wp_message; [done|]. apply wp_ret. by rewrite app_nil_r in HQ.
  - apply Forall_cons in Hbuf as [Hi _]. destruct i as [| | | | | | | | |b'| |]; try done. destruct Ho as [-> _]. apply wp_bind.
    eapply wp_deref; [done|]. apply wp_bind. apply wp_ret, wp_message; [done|]. by apply wp_ret.
Qed.
Lemma wp_no_listener s sb S L n m sv rg d rp (Q : unit -> W -> Prop) : regs_of rg s = [] -> Q tt (St S L n m sv rg d rp) ->
  wp (event s sb) Q (St S L n m sv rg d rp).
Proof.
  intros Hr HQ. unfold event. apply wp_bind. change (wp (run_listeners s sb (regs_of rg s)) Q (St S L n m sv rg d rp)). rewrite Hr. by apply wp_ret.
Qed.
End events.
