(* ===== verification/InputCommands.v ===== *)
(** * InputCommands: the commands of the controller

    Each function of the controller on an open device follows the plan of its
    command: what it sends, which answers it accepts, what it returns and keeps.
    [UpdateDevFullInfo] is six of them in a row. *)
From stdpp Require Import pretty.
From S2P Require Import Prelude Hdf Arrays Input InputOps InputSpec InputFacts InputRules.
Open Scope Z_scope.

Lemma before_nul_written src dest : before_nul (written (before_nul src) dest) = before_nul src.
Proof.
  unfold written. generalize (drop (S (length (before_nul src))) dest). intros r. induction src as [|c src IH]; cbn; [done|]. destruct (Z.eqb_spec c 0) as [->|Hc]; cbn; [done|]. by rewrite (proj2 (Z.eqb_neq _ _) Hc), IH.
Qed.
Lemma strncpy_fits src dest destMax count : len src <= count -> len src < destMax -> strncpy_s dest destMax src count = (0, written src dest).
Proof.
  intros Hc Hd. unfold strncpy_s, written. rewrite Z.min_r by done. rewrite (proj2 (Z.ltb_lt _ _) Hd). unfold len. by rewrite Nat2Z.id, firstn_all.
Qed.
Lemma strncpy_over src dest destMax : destMax <= len src -> strncpy_s dest destMax src (len src) = (162, <[0%nat := 0]> dest).
Proof. intros Hd. unfold strncpy_s. rewrite Z.min_id. by rewrite (proj2 (Z.ltb_ge _ _) Hd). Qed.
Lemma find_node_mid index l1 p l2 : devIndex (payload p) = index -> index ∉ map (fun q => devIndex (payload q)) l1 -> find_node index (l1 ++ p :: l2) = Some (length l1, p).
Proof.
  intros Hp. induction l1 as [|q l1 IH]; cbn; [by rewrite Hp, Z.eqb_refl|]. intros [Hq Hl]%not_elem_of_cons.
  rewrite (proj2 (Z.eqb_neq _ _)) by congruence. by rewrite IH.
Qed.
Lemma event_name_host index : event_name index <> DEV_MANAGER_SERVICE_NAME.
Proof. done. Qed.

Section commands.
Context {SB : Type} `{!Platform SB, !PlatformLaws SB} `{!HdfStatus} `{!InputTypes} {D : Type} `{!InputDrivers SB D, !InputDriverLaws SB D}.
Abbreviation W := (World SB (Input D)).

(** ** An open device *)
Context (S : gmap nat SB) (L : gset nat) (m : InputDevManager) (sv : gmap nat string) (rg : list (nat * (nat * listener_kind))) (rp : list report).
Context (index : Z) (l1 : list DeviceInfoNode) (p : DeviceInfoNode) (l2 : list DeviceInfoNode).
Context (Hmutex : mutex m = false) (Hfirst : index ∉ map (fun q => devIndex (payload q)) l1).
Context (Hservice : sv !! service p = Some (event_name index)) (Hrange : index < MAX_INPUT_DEV_NUM).
Implicit Types (n : nat) (i : DeviceInfo) (d : D).

(** The manager with another description of the device. *)
Definition at_ i : InputDevManager := set_devList (l1 ++ set_payload i p :: l2) m.
Abbreviation Dv n i d := (St S L n (at_ i) sv rg d rp).
Abbreviation Locked n i d := (St S L n (set_mutex true (at_ i)) sv rg d rp).

Lemma wp_at {B} (failure : B) body n i d (Q : B -> W -> Prop) :
  devIndex i = index ->
  wp (body (length l1) (set_payload i p)) (fun r w => wp pthread_mutex_unlock (fun _ => Q r) w) (Locked n i d) ->
  wp (on_device index failure body) Q (Dv n i d).
Proof. intros Hi HQ. eapply wp_present_device; [done | by apply find_node_mid | done]. Qed.
Lemma wp_unlock_at n i d (Q : unit -> W -> Prop) : Q tt (Dv n i d) -> wp pthread_mutex_unlock Q (Locked n i d).
Proof. intros HQ. apply wp_unlock. by rewrite (unlock_locked (at_ i) Hmutex). Qed.
Lemma wp_keep f n i d (Q : unit -> W -> Prop) : Q tt (Locked n (f i) d) ->
  wp (upd_node (length l1) (fun pos => set_payload (f (payload pos)) pos)) Q (Locked n i d).
Proof. intros HQ. apply wp_upd_node. unfold at_. cbn. rewrite alter_at. done. Qed.

(** The exchange of messages, once for all commands: the plan is the one that is
    followed when the reply is accepted as [accept] says. *)
Definition result_of (ret : Z) (out : option cmd_out) (v : list item) (cmd : Z) (out0 : option cmd_out) (outLen : Z) : Prop :=
  match out0 with
  | None => ret = 0 /\ out = None
  | Some o => ret = (if (reply_of cmd v o outLen).1 then 0 else INPUT_FAILURE) /\ out = Some (reply_of cmd v o outLen).2 /\ well_shaped cmd v
  end.
Lemma wp_ops cmd input out outLen n i d (Q : Z * option cmd_out -> W -> Prop) :
  bounded (dom S) n -> input_fits cmd input -> out_fits cmd out ->
  (forall n' d', (n <= n')%nat -> ~ reliable SB -> d' = d -> Q (INPUT_FAILURE, out) (Locked n' i d')) ->
  (forall n' d' ret v, (n <= n')%nat -> io_answer (event_name index) cmd (request_items input) d = (ret, v, d') -> ret <> 0 -> Q (ret, out) (Locked n' i d')) ->
  (forall n' d' ret v out', (n <= n')%nat -> io_answer (event_name index) cmd (request_items input) d = (0, v, d') -> result_of ret out' v cmd out outLen ->
    Q (ret, out') (Locked n' i d')) ->
  wp (IoServiceOps (service (set_payload i p)) cmd input out outLen) Q (Locked n i d).
Proof.
  intros Hb Hin Hout Hno Hbad Hok. eapply wp_io_ops; [done | exact Hservice | apply event_name_host | done | done |].
  intros n' ret out' d' Hn [(Hr & -> & -> & ->)|(ret0 & v & Ha & Hres)]; [by apply Hno|].
  destruct (Z.eqb_spec ret0 0) as [->|Hne]; [by eapply Hok | destruct Hres as [-> ->]; by eapply Hbad].
Qed.
Abbreviation kept Q pl n i d := (forall n' ret x i' d', (n <= n')%nat -> answered (event_name index) pl d i ret x i' d' -> devIndex i' = index ->
  Q (ret, x) (Dv n' i' d')).

Lemma answered_accepted {V} cmd input accept d i v d' (x : V) f : io_answer (event_name index) cmd (request_items input) d = (0, v, d') ->
  accept v = Some (x, f) -> devIndex (f i) = devIndex i -> answered (event_name index) (cmd, input, accept) d i INPUT_SUCCESS x (f i) d'.
Proof. intros Ha Hacc Hi. right. exists 0, v. split; [done|]. split; [done|]. cbn. by rewrite Hacc. Qed.
Lemma answered_not_accepted {V} cmd input accept d i i' v d' (x : V) : io_answer (event_name index) cmd (request_items input) d = (0, v, d') ->
  accept v = None -> devIndex i' = devIndex i -> answered (event_name index) (cmd, input, accept) d i INPUT_FAILURE x i' d'.
Proof. intros Ha Hacc Hi. right. exists 0, v. split; [done|]. split; [done|]. cbn. by rewrite Hacc. Qed.
Lemma answered_failed {V} cmd input accept d i i' ret v d' (x : V) : io_answer (event_name index) cmd (request_items input) d = (ret, v, d') ->
  ret <> 0 -> devIndex i' = devIndex i -> answered (event_name index) (cmd, input, accept) d i INPUT_FAILURE x i' d'.
Proof. intros Ha Hne Hi. right. exists ret, v. split; [done|]. split; [done|]. by rewrite (proj2 (Z.eqb_neq _ _) Hne). Qed.
Lemma answered_refused {V} cmd input accept d i i' (x : V) :
  ~ reliable SB -> devIndex i' = devIndex i -> answered (event_name index) (cmd, input, accept) d i INPUT_FAILURE x i' d.
Proof. intros Hr Hi. by left. Qed.

(** ** Commands without an answer *)
Lemma wp_order cmd input n i d (Q : Z -> W -> Prop) :
  bounded (dom S) n -> input_fits cmd (Some input) -> devIndex i = index ->
  kept (fun a => Q a.1) (cmd, Some input, accepted (Word None)) n i d ->
  wp (on_device index INPUT_FAILURE (fun _ pos =>
      '(ret, _) ← IoServiceOps (service pos) cmd (Some input) None 0;
      mret (if negb (ret =? 0) then INPUT_FAILURE else INPUT_SUCCESS))) Q (Dv n i d).
Proof.
  intros Hb Hin Hi HQ. apply wp_at; [done|]. apply wp_bind. apply wp_ops; [done | done | done | | |].
  - intros n' d' Hn Hr ->. apply wp_ret, wp_unlock_at, (HQ n' INPUT_FAILURE (Word None)); [done | by apply answered_refused | done].
  - intros n' d' ret v Hn Ha Hne. rewrite (proj2 (Z.eqb_neq _ _) Hne). apply wp_ret, wp_unlock_at, (HQ n' INPUT_FAILURE (Word None)); [done | by eapply answered_failed | done].
  - intros n' d' ret v out' Hn Ha [-> _]. apply wp_ret, wp_unlock_at, (HQ n' INPUT_SUCCESS (Word None)); [done | | done].
    by apply (answered_accepted _ _ _ d i v d' (Word None) id).
Qed.

(** ** Numbers *)
Lemma word_reply cmd z0 ret out v outLen : cmd = GET_PWR_STATUS \/ cmd = GET_DEV_TYPE -> result_of ret out v cmd (Some (OutWord z0)) outLen ->
  exists z l, v = IUint32 z :: l /\ ret = 0 /\ out = Some (OutWord z).
Proof. by intros [->| ->] (-> & -> & (z & l & ->)); exists z, l. Qed.
Lemma wp_PowerOf z0 n i d (Q : Z * option Z -> W -> Prop) :
  bounded (dom S) n -> devIndex i = index ->
  (forall n' ret o i' d', (n <= n')%nat ->
    answered (event_name index) (GET_PWR_STATUS, None, word_below INPUT_POWER_STATUS_UNKNOWN (fun z => (Word (Some z), id))) d i ret (Word o) i' d' ->
    devIndex i' = index -> Q (ret, o) (Dv n' i' d')) ->
  wp (GetPowerStatus index (Some z0)) Q (Dv n i d).
Proof.
  intros Hb Hi HQ. unfold GetPowerStatus. rewrite (proj2 (Z.leb_gt _ _) Hrange). apply wp_at; [done|]. apply wp_bind. apply wp_ops; [done | done | by left | | |].
  - intros n' d' Hn Hr ->. apply wp_ret, wp_unlock_at, HQ; [done | by apply answered_refused | done].
  - intros n' d' ret v Hn Ha Hne. rewrite (proj2 (Z.eqb_neq _ _) Hne). apply wp_ret, wp_unlock_at, HQ; [done | by eapply answered_failed | done].
  - intros n' d' ret v out' Hn Ha Hres. destruct (word_reply _ _ _ _ _ _ (or_introl eq_refl) Hres) as (z & l & -> & -> & ->). cbn [out_word].
    rewrite Z.eqb_refl. cbn [negb]. apply wp_ret, wp_unlock_at. destruct (Z.leb_spec INPUT_POWER_STATUS_UNKNOWN z) as [Hz|Hz].
    + apply HQ; [done | | done]. eapply answered_not_accepted; [done | | done]. cbn. by rewrite (proj2 (Z.ltb_ge _ _) Hz).
    + apply HQ; [done | | done]. apply (answered_accepted _ _ _ d i _ d' (Word (Some z)) id Ha); [|done]. cbn. by rewrite (proj2 (Z.ltb_lt _ _) Hz).
Qed.
Definition type_plan : plan value := (GET_DEV_TYPE, None, word_below INDEV_TYPE_UNKNOWN (fun z => (Word (Some z), set_devType z))).
Lemma wp_TypeOf z0 n i d (Q : Z * option Z -> W -> Prop) :
  bounded (dom S) n -> devIndex i = index ->
  (forall n' ret o i' d', (n <= n')%nat -> answered (event_name index) type_plan d i ret (Word o) i' d' -> devIndex i' = index -> Q (ret, o) (Dv n' i' d')) ->
  wp (GetDeviceType index (Some z0)) Q (Dv n i d).
Proof.
  intros Hb Hi HQ. unfold GetDeviceType. rewrite (proj2 (Z.leb_gt _ _) Hrange). apply wp_at; [done|]. apply wp_bind. apply wp_ops; [done | done | by right | | |].
  - intros n' d' Hn Hr ->. apply wp_ret, wp_unlock_at, HQ; [done | by apply answered_refused | done].
  - intros n' d' ret v Hn Ha Hne. rewrite (proj2 (Z.eqb_neq _ _) Hne). apply wp_ret, wp_unlock_at, HQ; [done | by eapply answered_failed | done].
  - intros n' d' ret v out' Hn Ha Hres. destruct (word_reply _ _ _ _ _ _ (or_intror eq_refl) Hres) as (z & l & -> & -> & ->). cbn [out_word].
    rewrite Z.eqb_refl. cbn [negb]. destruct (Z.leb_spec INDEV_TYPE_UNKNOWN z) as [Hz|Hz].
    + apply wp_ret, wp_unlock_at, HQ; [done | | done]. eapply answered_not_accepted; [done | | done]. cbn. by rewrite (proj2 (Z.ltb_ge _ _) Hz).
    + apply wp_bind, (wp_keep (set_devType z)), wp_ret, wp_unlock_at, HQ; [done | | done].
      apply (answered_accepted _ _ _ d i _ d' (Word (Some z)) (set_devType z) Ha); [|done]. cbn. by rewrite (proj2 (Z.ltb_lt _ _) Hz).
Qed.

(** ** Strings *)
Lemma string_reply cmd buf ret out v outLen : cmd = GET_CHIP_INFO \/ cmd = GET_VENDOR_NAME \/ cmd = GET_CHIP_NAME \/ cmd = RUN_CAPAC_TEST ->
  result_of ret out v cmd (Some (OutChars buf)) outLen ->
  exists s l, v = IString s :: l /\ let src := before_nul (chars s) in
    if len src <? outLen then ret = 0 /\ out = Some (OutChars (written src buf)) else ret = INPUT_FAILURE /\ out = Some (OutChars (<[0%nat := 0]> buf)).
Proof.
  intros Hcmd (-> & -> & Hsh). assert (exists s l, v = IString s :: l) as (s & l & ->) by (by destruct Hcmd as [->|[->|[->| ->]]]).
  exists s, l. split; [done|]. assert (reply_of cmd (IString s :: l) (OutChars buf) outLen =
    let src := before_nul (chars s) in let '(r, b) := strncpy_s buf outLen src (len src) in (r =? 0, OutChars b)) as -> by (by destruct Hcmd as [->|[->|[->| ->]]]).
  cbv zeta. set (src := before_nul (chars s)). destruct (Z.ltb_spec (len src) outLen) as [Hl|Hl].
  - by rewrite strncpy_fits.
  - by rewrite strncpy_over.
Qed.
Lemma wp_StringOf cmd limit get set info room n i d (Q : Z * option (list Z) -> W -> Prop) :
  bounded (dom S) n -> devIndex i = index -> string_of cmd = Some (get, set) -> limit <= room ->
  cmd = GET_CHIP_INFO \/ cmd = GET_VENDOR_NAME \/ cmd = GET_CHIP_NAME \/ cmd = RUN_CAPAC_TEST ->
  (forall x j, devIndex (set x j) = devIndex j) ->
  (forall n' ret x i' d', (n <= n')%nat ->
    answered (event_name index) (cmd, None, string_below limit (fun src => (Chars (Some (written src info)), fun j => set (written src (get j)) j))) d i ret (Chars x) i' d' ->
    devIndex i' = index -> Q (ret, x) (Dv n' i' d')) ->
  wp (GetDevStringInfo index (Some info) room limit cmd) Q (Dv n i d).
Proof.
  intros Hb Hi Hso Hroom Hcmd Hset HQ. unfold GetDevStringInfo. rewrite (proj2 (Z.leb_gt _ _) Hrange), (proj2 (Z.ltb_ge _ _) Hroom). cbn [orb].
  apply wp_at; [done|]. rewrite Hso. apply wp_bind. apply wp_ops; [done | done | done | | |]; cbn [out_list payload set_payload].
  - intros n' d' Hn Hr ->. apply wp_bind, (wp_keep (set (get i))), wp_ret, wp_unlock_at, HQ; rewrite ?Hset; [done | by apply answered_refused | done].
  - intros n' d' ret v Hn Ha Hne. apply wp_bind, (wp_keep (set (get i))). rewrite (proj2 (Z.eqb_neq _ _) Hne).
    apply wp_ret, wp_unlock_at, HQ; rewrite ?Hset; [done | by eapply answered_failed | done].
  - intros n' d' ret v out' Hn Ha Hres. destruct (string_reply _ _ _ _ _ _ Hcmd Hres) as (s & l & -> & Hs). cbv zeta in Hs.
    destruct (Z.ltb_spec (len (before_nul (chars s))) limit) as [Hl|Hl]; destruct Hs as [-> ->]; cbn [out_list negb].
    + apply wp_bind, (wp_keep (set (written (before_nul (chars s)) (get i)))). cbn [negb Z.eqb]. rewrite before_nul_written, strncpy_fits by lia. cbn [negb Z.eqb].
      apply wp_ret, wp_unlock_at, HQ; rewrite ?Hset; [done | | done].
      apply (answered_accepted _ _ _ d i _ d' (Chars (Some (written (before_nul (chars s)) info))) (fun j => set (written (before_nul (chars s)) (get j)) j) Ha); [|by rewrite Hset].
      cbn. by rewrite (proj2 (Z.ltb_lt _ _) Hl).
    + apply wp_bind, (wp_keep (set (<[0%nat := 0]> (get i)))), wp_ret, wp_unlock_at, HQ; rewrite ?Hset; [done | | done].
      eapply answered_not_accepted; [done | | by rewrite Hset]. cbn. by rewrite (proj2 (Z.ltb_ge _ _) Hl).
Qed.
Lemma wp_TestOf testType result room n i d (Q : Z * option (list Z) -> W -> Prop) :
  bounded (dom S) n -> devIndex i = index -> testType < TEST_TYPE_UNKNOWN -> SELF_TEST_RESULT_LEN <= room ->
  (forall n' ret x i' d', (n <= n')%nat ->
    answered (event_name index) (RUN_CAPAC_TEST, Some (InWord testType), string_below SELF_TEST_RESULT_LEN (fun src => (Chars (Some (written src result)), id))) d i ret (Chars x) i' d' ->
    devIndex i' = index -> Q (ret, x) (Dv n' i' d')) ->
  wp (RunCapacitanceTest index testType (Some result) room) Q (Dv n i d).
Proof.
  intros Hb Hi Ht Hroom HQ. unfold RunCapacitanceTest. rewrite (proj2 (Z.leb_gt _ _) Hrange), (proj2 (Z.leb_gt _ _) Ht), (proj2 (Z.ltb_ge _ _) Hroom). cbn [orb].
  apply wp_at; [done|]. apply wp_bind. apply wp_ops; [done | by right; right | by right; right; right | | |].
  - intros n' d' Hn Hr ->. apply wp_ret, wp_unlock_at, HQ; [done | by apply answered_refused | done].
  - intros n' d' ret v Hn Ha Hne. rewrite (proj2 (Z.eqb_neq _ _) Hne). apply wp_ret, wp_unlock_at, HQ; [done | by eapply answered_failed | done].
  - intros n' d' ret v out' Hn Ha Hres. destruct (string_reply RUN_CAPAC_TEST _ _ _ _ _ ltac:(by right; right; right) Hres) as (s & l & -> & Hs). cbv zeta in Hs.
    destruct (Z.ltb_spec (len (before_nul (chars s))) SELF_TEST_RESULT_LEN) as [Hl|Hl]; destruct Hs as [-> ->]; cbn [out_list negb Z.eqb INPUT_FAILURE].
    + rewrite before_nul_written, strncpy_fits by (unfold SELF_TEST_RESULT_LEN in *; lia). cbn [negb Z.eqb].
      apply wp_ret, wp_unlock_at, HQ; [done | | done].
      apply (answered_accepted _ _ _ d i _ d' (Chars (Some (written (before_nul (chars s)) result))) id Ha); [|done].
      cbn. by rewrite (proj2 (Z.ltb_lt _ _) Hl).
    + apply wp_ret, wp_unlock_at, HQ; [done | | done]. eapply answered_not_accepted; [done | | done]. cbn. by rewrite (proj2 (Z.ltb_ge _ _) Hl).
Qed.

(** ** Attributes and abilities *)
Definition bytes_of {V} (f : list Z -> V * (DeviceInfo -> DeviceInfo)) (v : list item) : option (V * (DeviceInfo -> DeviceInfo)) :=
  match v with IBuffer b :: _ => Some (f b) | _ => None end.
Lemma bytes_reply cmd b0 ret out v outLen : cmd = GET_DEV_ATTR \/ cmd = GET_DEV_ABILITY -> result_of ret out v cmd (Some (OutBytes b0)) outLen ->
  exists b l, v = IBuffer b :: l /\ ret = 0 /\ out = Some (OutBytes b).
Proof. by intros [->| ->] (-> & -> & (b & l & -> & _)); exists b, l. Qed.
Lemma wp_AbilityOf b0 n i d (Q : Z * list Z -> W -> Prop) :
  bounded (dom S) n -> devIndex i = index ->
  kept Q (GET_DEV_ABILITY, None, bytes_of (fun b => (b, set_abilitySet b))) n i d ->
  wp (GetDeviceAbility index b0) Q (Dv n i d).
Proof.
  intros Hb Hi HQ. unfold GetDeviceAbility. rewrite (proj2 (Z.leb_gt _ _) Hrange). apply wp_at; [done|]. apply wp_bind. apply wp_ops; [done | done | by right | | |].
  - intros n' d' Hn Hr ->. apply wp_ret, wp_unlock_at, HQ; [done | by apply answered_refused | done].
  - intros n' d' ret v Hn Ha Hne. rewrite (proj2 (Z.eqb_neq _ _) Hne). apply wp_ret, wp_unlock_at, HQ; [done | by eapply answered_failed | done].
  - intros n' d' ret v out' Hn Ha Hres. destruct (bytes_reply _ _ _ _ _ _ (or_intror eq_refl) Hres) as (b & l & -> & -> & ->). cbn [out_list].
    rewrite Z.eqb_refl. cbn [negb]. apply wp_bind, (wp_keep (set_abilitySet b)), wp_ret, wp_unlock_at, HQ; [done | | done].
    by apply (answered_accepted _ _ _ d i _ d' b (set_abilitySet b) Ha).
Qed.
Lemma wp_AttrOf b0 n i d (Q : Z * list Z -> W -> Prop) :
  bounded (dom S) n -> devIndex i = index ->
  kept Q (GET_DEV_ATTR, None, bytes_of (fun b => (b, set_attrSet b))) n i d ->
  wp (GetDeviceAttr index b0) Q (Dv n i d).
Proof.
  intros Hb Hi HQ. unfold GetDeviceAttr. rewrite (proj2 (Z.leb_gt _ _) Hrange). apply wp_at; [done|]. apply wp_bind. apply wp_ops; [done | done | by left | | |].
  - intros n' d' Hn Hr ->. apply wp_ret, wp_unlock_at, HQ; [done | by apply answered_refused | done].
  - intros n' d' ret v Hn Ha Hne. rewrite (proj2 (Z.eqb_neq _ _) Hne). apply wp_ret, wp_unlock_at, HQ; [done | by eapply answered_failed | done].
  - intros n' d' ret v out' Hn Ha Hres. destruct (bytes_reply _ _ _ _ _ _ (or_introl eq_refl) Hres) as (b & l & -> & -> & ->). cbn [out_list].
    rewrite Z.eqb_refl. cbn [negb]. apply wp_bind, (wp_keep (set_attrSet b)), wp_ret, wp_unlock_at, HQ; [done | | done].
    by apply (answered_accepted _ _ _ d i _ d' b (set_attrSet b) Ha).
Qed.

(** ** A command by its plan *)
Lemma wp_command c n i d (Q : Z * value -> W -> Prop) :
  bounded (dom S) n -> devIndex i = index ->
  match command_plan c with
  | Some pl => kept Q pl n i d
  | None => forall x, Q (INPUT_INVALID_PARAM, x) (Dv n i d)
  end -> wp (run_command index c) Q (Dv n i d).
Proof.
  intros Hb Hi HQ. pose proof (proj2 (Z.leb_gt _ _) Hrange) as Hr.
  assert (forall cmd limit get set info room, string_of cmd = Some (get, set) -> (forall x j, devIndex (set x j) = devIndex j) ->
    cmd = GET_CHIP_INFO \/ cmd = GET_VENDOR_NAME \/ cmd = GET_CHIP_NAME \/ cmd = RUN_CAPAC_TEST ->
    match string_plan cmd limit get set info room with Some pl => kept Q pl n i d | None => forall x, Q (INPUT_INVALID_PARAM, x) (Dv n i d) end ->
    wp ('(ret, o) ← GetDevStringInfo index info room limit cmd; mret (ret, Chars o)) Q (Dv n i d)) as Hstring.
  { intros cmd limit get set info room Hso Hset Hcmd Hpl. apply wp_bind. destruct info as [info|]; cbn in Hpl; [|by apply wp_ret, wp_ret].
    destruct (Z.ltb_spec room limit) as [Hl|Hl].
    - unfold GetDevStringInfo. rewrite (proj2 (Z.ltb_lt _ _) Hl), orb_true_r. by apply wp_ret, wp_ret.
    - eapply wp_StringOf; try done. intros n' ret x i' d' Hn Ha Hi'. by apply wp_ret, Hpl. }
  destruct c as [status|status|t|buf room|buf room|buf room|mode|test result room|info]; cbn [run_command command_plan] in *.
  - apply wp_bind. unfold SetPowerStatus. rewrite Hr. cbn [orb]. destruct (Z.ltb_spec status INPUT_POWER_STATUS_UNKNOWN) as [Hs|Hs].
    + rewrite (proj2 (Z.leb_gt _ _) Hs). apply wp_order; [done | by left | done |]. intros n' ret [o|o] i' d' Hn Ha Hi'; apply wp_ret, HQ; try done;
        destruct Ha as [Ha|(ret0 & v & Ha & Hi2 & Hm)]; [by left | right; exists ret0, v; destruct (ret0 =? 0); cbn in *; naive_solver | by left |
        right; exists ret0, v; destruct (ret0 =? 0); cbn in *; naive_solver].
    + rewrite (proj2 (Z.leb_le _ _) Hs). by apply wp_ret, wp_ret.
  - destruct status as [z|]; apply wp_bind; [|by apply wp_ret, wp_ret]. apply wp_PowerOf; [done | done |]. intros n' ret o i' d' Hn Ha Hi'. by apply wp_ret, HQ.
  - destruct t as [z|]; apply wp_bind; [|by apply wp_ret, wp_ret]. apply wp_TypeOf; [done | done |]. intros n' ret o i' d' Hn Ha Hi'. by apply wp_ret, HQ.
  - apply (Hstring _ _ chipName set_chipName); [done | done | by right; right; left | done].
  - apply (Hstring _ _ chipInfo set_chipInfo); [done | done | by left | done].
  - apply (Hstring _ _ vendorName set_vendorName); [done | done | by right; left | done].
  - apply wp_bind. unfold SetGestureMode. rewrite Hr. apply wp_order; [done | by right; left | done |]. intros n' ret o i' d' Hn Ha Hi'. apply wp_ret, HQ; try done.
    destruct Ha as [Ha|(ret0 & v & Ha & Hi2 & Hm)]; [by left | right; exists ret0, v; destruct (ret0 =? 0); cbn in *; naive_solver].
  - apply wp_bind. destruct result as [result|]; [|by apply wp_ret, wp_ret].
    destruct (Z.ltb_spec test TEST_TYPE_UNKNOWN) as [Ht|Ht], (Z.leb_spec SELF_TEST_RESULT_LEN room) as [Hl|Hl]; cbn [andb] in HQ.
    1: { apply wp_TestOf; [done.. |]. intros n' ret x i' d' Hn Ha Hi'. by apply wp_ret, HQ. }
    all: unfold RunCapacitanceTest; rewrite Hr; cbn [orb].
    + rewrite (proj2 (Z.ltb_lt _ _) Hl), orb_true_r. by apply wp_ret, wp_ret.
    + rewrite (proj2 (Z.leb_le _ _) Ht). by apply wp_ret, wp_ret.
    + rewrite (proj2 (Z.leb_le _ _) Ht). by apply wp_ret, wp_ret.
  - apply wp_bind. destruct info as [[[code|] [v|]]|]; try by apply wp_ret, wp_ret.
    unfold RunExtraCommand. rewrite Hr. apply wp_order; [done | done | done |]. intros n' ret o i' d' Hn Ha Hi'. apply wp_ret, HQ; try done.
    destruct Ha as [Ha|(ret0 & v' & Ha & Hi2 & Hm)]; [by left | right; exists ret0, v'; destruct (ret0 =? 0); cbn in *; naive_solver].
Qed.

(** ** The whole description *)

(** The six queries, one after the other until one fails. *)
Definition query (V : Type) (pl : plan V) d i ret i' d' : Prop := exists x, answered (event_name index) pl d i ret x i' d'.
Inductive updated : list (D -> DeviceInfo -> Z -> DeviceInfo -> D -> Prop) -> D -> DeviceInfo -> Z -> DeviceInfo -> D -> Prop :=
  | updated_all d i : updated [] d i INPUT_SUCCESS i d
  | updated_failed (q : D -> DeviceInfo -> Z -> DeviceInfo -> D -> Prop) l d i ret i' d' : q d i ret i' d' -> ret <> INPUT_SUCCESS -> updated (q :: l) d i ret i' d'
  | updated_next (q : D -> DeviceInfo -> Z -> DeviceInfo -> D -> Prop) l d i i1 d1 ret i' d' :
      q d i INPUT_SUCCESS i1 d1 -> updated l d1 i1 ret i' d' -> updated (q :: l) d i ret i' d'.
Definition text_plan cmd limit (get : DeviceInfo -> list Z) (set : list Z -> DeviceInfo -> DeviceInfo) info : plan value :=
  (cmd, None, string_below limit (fun src => (Chars (Some (written src info)), fun i => set (written src (get i)) i))).
Definition bytes_plan cmd (set : list Z -> DeviceInfo -> DeviceInfo) : plan (list Z) := (cmd, None, bytes_of (fun b => (b, set b))).
Definition full_queries : list (D -> DeviceInfo -> Z -> DeviceInfo -> D -> Prop) :=
  [ query _ type_plan;
    query _ (text_plan GET_CHIP_NAME CHIP_NAME_LEN chipName set_chipName (chipInfo (no_info 0)));
    query _ (text_plan GET_CHIP_INFO CHIP_INFO_LEN chipInfo set_chipInfo (vendorName (no_info 0)));
    query _ (text_plan GET_VENDOR_NAME VENDOR_NAME_LEN vendorName set_vendorName (chipName (no_info 0)));
    query _ (bytes_plan GET_DEV_ABILITY set_abilitySet);
    query _ (bytes_plan GET_DEV_ATTR set_attrSet) ].
Lemma wp_full n i d (Q : Z -> W -> Prop) :
  bounded (dom S) n -> devIndex i = index ->
  (forall n' ret i' d', (n <= n')%nat -> updated full_queries d i ret i' d' -> devIndex i' = index -> Q ret (Dv n' i' d')) ->
  wp (UpdateDevFullInfo index) Q (Dv n i d).
Proof.
  intros Hb Hi HQ. unfold UpdateDevFullInfo, UpdateDevBaseInfo, full_queries in *. do 2 apply wp_bind.
  apply wp_TypeOf; [done | done |]. intros n1 r1 o1 i1 d1 Hn1 Ha1 Hi1. destruct (Z.eqb_spec r1 INPUT_SUCCESS) as [->|He1]; cbn [negb].
  2: { apply wp_ret. rewrite (proj2 (Z.eqb_neq _ _) He1). apply wp_ret, HQ; [done | | done]. apply updated_failed; [by eexists | done]. }
  apply wp_bind. assert (bounded (dom S) n1) as Hb1 by (by eapply bounded_le).
  eapply (wp_StringOf GET_CHIP_NAME _ chipName set_chipName); [done | done | done | done | by right; right; left | done |].
  intros n2 r2 o2 i2 d2 Hn2 Ha2 Hi2. destruct (Z.eqb_spec r2 INPUT_SUCCESS) as [->|He2]; cbn [negb].
  2: { apply wp_ret. rewrite (proj2 (Z.eqb_neq _ _) He2). apply wp_ret, HQ; [lia | | done]. eapply updated_next; [by eexists |]. apply updated_failed; [by eexists | done]. }
  apply wp_bind. assert (bounded (dom S) n2) as Hb2 by (by eapply bounded_le).
  eapply (wp_StringOf GET_CHIP_INFO _ chipInfo set_chipInfo); [done | done | done | done | by left | done |].
  intros n3 r3 o3 i3 d3 Hn3 Ha3 Hi3. destruct (Z.eqb_spec r3 INPUT_SUCCESS) as [->|He3]; cbn [negb].
  2: { apply wp_ret. rewrite (proj2 (Z.eqb_neq _ _) He3). apply wp_ret, HQ; [lia | | done]. do 2 (eapply updated_next; [by eexists |]). apply updated_failed; [by eexists | done]. }
  apply wp_bind. assert (bounded (dom S) n3) as Hb3 by (by eapply bounded_le).
  eapply (wp_StringOf GET_VENDOR_NAME _ vendorName set_vendorName); [done | done | done | done | by right; left | done |].
  intros n4 r4 o4 i4 d4 Hn4 Ha4 Hi4. destruct (Z.eqb_spec r4 INPUT_SUCCESS) as [->|He4]; cbn [negb].
  2: { apply wp_ret. rewrite (proj2 (Z.eqb_neq _ _) He4). apply wp_ret, HQ; [lia | | done]. do 3 (eapply updated_next; [by eexists |]). apply updated_failed; [by eexists | done]. }
  apply wp_ret. cbn [negb Z.eqb INPUT_SUCCESS]. do 2 apply wp_bind. assert (bounded (dom S) n4) as Hb4 by (by eapply bounded_le).
  apply wp_AbilityOf; [done | done |]. intros n5 r5 o5 i5 d5 Hn5 Ha5 Hi5. apply wp_ret. destruct (Z.eqb_spec r5 INPUT_SUCCESS) as [->|He5]; cbn [negb].
  2: { apply wp_ret, HQ; [lia | | done]. do 4 (eapply updated_next; [by eexists |]). apply updated_failed; [by eexists | done]. }
  do 2 apply wp_bind. assert (bounded (dom S) n5) as Hb5 by (by eapply bounded_le).
  apply wp_AttrOf; [done | done |]. intros n6 r6 o6 i6 d6 Hn6 Ha6 Hi6. apply wp_ret. destruct (Z.eqb_spec r6 INPUT_SUCCESS) as [->|He6]; cbn [negb].
  2: { apply wp_ret, HQ; [lia | | done]. do 5 (eapply updated_next; [by eexists |]). apply updated_failed; [by eexists | done]. }
  apply wp_ret, HQ; [lia | | done]. do 6 (eapply updated_next; [by eexists |]). constructor.
Qed.
End commands.
