(* ===== verification/InputSteps.v ===== *)
(** * InputSteps: every request

    Every permitted request on a manager that represents a registry is answered as
    the registry says, and the manager represents the registry that is left. *)
From stdpp Require Import pretty.
From S2P Require Import Prelude Hdf Arrays Input InputOps InputSpec InputFacts InputRules InputCommands.
Open Scope Z_scope.

Lemma event_name_fits index : 0 <= index < MAX_INPUT_DEV_NUM ->
  snprintf_s SERVICE_NAME_LEN (Z.of_nat (String.length "hdf_input_event") + if index <? PLACEHOLDER_LIMIT then 1 else PLACEHOLDER_LENGTH) "hdf_input_event" index = Some (event_name index).
Proof.
  intros Hi. assert (index ∈ seqZ 0 32) as Hin by (apply elem_of_seqZ; unfold MAX_INPUT_DEV_NUM in Hi; lia). clear Hi. revert index Hin.
  apply Forall_forall, (bool_decide_eq_true_1 (Forall _ _)). vm_compute. reflexivity.
Qed.

Section steps.
Context {SB : Type} `{!Platform SB, !PlatformLaws SB} `{!HdfStatus} `{!InputTypes} {D : Type} `{!InputDrivers SB D, !InputDriverLaws SB D}.
Context (L0 : gset nat) (S : gmap nat SB).
Implicit Types (L : gset nat) (n : nat) (m : InputDevManager) (sv : gmap nat string) (d : D) (rp : list report) (g : registry) (rq : request SB).
Abbreviation W := (World SB (Input D)).

(** Between two requests: the manager represents [g], the mutex is free, and the
    messages are those there were before. *)
Inductive ready g d rp : W -> Prop :=
  Ready L n m sv rg : represents L0 g L n m sv rg -> mutex m = false -> bounded (dom S) n -> ready g d rp (St S L n m sv rg d rp).
Definition stepped rq g d rp (a : answer) (w : W) : Prop :=
  exists rep g' d', step_ok rq g d a rep g' d' /\ ready g' d' (rp ++ rep) w.

Lemma stepped_quiet rq g d rp a g' d' L n m sv rg :
  step_ok rq g d a [] g' d' -> represents L0 g' L n m sv rg -> mutex m = false -> bounded (dom S) n -> stepped rq g d rp a (St S L n m sv rg d' rp).
Proof. intros Hs Hr Hm Hb. exists [], g', d'. split; [done|]. rewrite app_nil_r. by constructor. Qed.

(** ** The device of a request *)
Record device_at index g L n m sv rg l1 (p : DeviceInfoNode) l2 : Prop := DeviceAt {
  da_list : devList m = l1 ++ p :: l2;
  da_index : devIndex (payload p) = index;
  da_first : index ∉ map (fun q => devIndex (payload q)) l1;
  da_service : sv !! service p = Some (event_name index);
  da_callback : callback_of index g = Some (eventCb p);
  da_range : 0 <= index < MAX_INPUT_DEV_NUM;
  da_node : node_ok rg p;
  da_found : find_node index (devList m) = Some (length l1, p);
}.
Lemma represents_absent g L n m sv rg index : represents L0 g L n m sv rg -> callback_of index g = None <-> find_node index (devList m) = None.
Proof. intros Hr. rewrite (find_node_view index (devList m)) by apply Hr. by destruct (find_node index (devList m)). Qed.
Lemma represents_device g L n m sv rg index k p : represents L0 g L n m sv rg -> find_node index (devList m) = Some (k, p) ->
  exists l1 l2, device_at index g L n m sv rg l1 p l2 /\ k = length l1.
Proof.
  intros Hr Hf. destruct (find_node_split _ _ _ _ Hf) as (l1 & l2 & E & -> & Hi). exists l1, l2. split; [|done].
  destruct (represents_alone _ _ _ _ _ _ _ _ _ _ Hr E) as [[Hin _] _]. split; try done.
  - rewrite map_app, Hi in Hin. set_solver.
  - destruct (holds_recycle sv n (service p) (event_name index) (services_of (host_service (hostDev m)) (l1 ++ l2))) as [Hs _]; [|done].
    eapply holds_perm; [|apply Hr]. rewrite E, services_split. unfold node_service. by rewrite Hi.
  - rewrite (find_node_view index (devList m)), Hf by apply Hr. done.
  - pose proof (re_range _ _ _ _ _ _ _ Hr) as Hra. rewrite <- (re_view _ _ _ _ _ _ _ Hr), E in Hra. rewrite map_app in Hra.
    apply Forall_app in Hra as [_ [Hra _]%Forall_cons]. cbn in Hra. by rewrite Hi in Hra.
  - pose proof (re_nodes _ _ _ _ _ _ _ Hr) as Hn. rewrite E in Hn. by apply Forall_app in Hn as [_ [Hn _]%Forall_cons].
Qed.
Lemma represents_range g L n m sv rg index : represents L0 g L n m sv rg -> MAX_INPUT_DEV_NUM <= index -> callback_of index g = None.
Proof.
  intros Hr Hi. apply (represents_absent _ _ _ _ _ _ _ Hr). destruct (find_node index (devList m)) as [[k p]|] eqn:E; [|done].
  destruct (represents_device _ _ _ _ _ _ _ _ _ Hr E) as (l1 & l2 & [] & _). lia.
Qed.

(** ** The manager *)
Lemma step_open index g d rp w : ready g d rp w -> 0 <= index -> wp (serve (Open index)) (stepped (Open index) g d rp) w.
Proof.
  intros [L n m sv rg Hr Hm Hb] Hi. cbn [serve]. apply wp_bind. unfold OpenInputDevice, CheckIndex. apply wp_bind.
  assert (forall r, (forall a g', (a, g') = expected (SB := SB) (Open index) d g -> a = Status r /\ g' = g) -> stepped (Open index) g d rp (Status r) (St S L n m sv rg d rp)) as Hsame.
  { intros r He. eapply stepped_quiet; try done. split; [done|]. split; [done|]. left. destruct (expected (Open index) d g) as [a g'] eqn:E.
    by destruct (He a g' eq_refl) as [-> ->]. }
  destruct (Z.leb_spec MAX_INPUT_DEV_NUM index) as [Hmax|Hmax].
  { apply wp_ret, wp_ret, wp_ret, Hsame. cbn. rewrite (proj2 (Z.leb_le _ _) Hmax). by intros a g' [= -> ->]. }
  apply wp_bind, wp_manager, wp_bind, wp_lock; [done|].
  destruct (find_node index (devList m)) as [[k p]|] eqn:Ef; apply wp_bind, wp_unlock, wp_ret; rewrite unlock_locked by done; cbn [negb Z.eqb INPUT_FAILURE INPUT_SUCCESS].
  { apply wp_ret, wp_ret, Hsame. cbn. rewrite (proj2 (Z.leb_gt _ _) Hmax). destruct (callback_of index g) eqn:Ec; [by intros a g' [= -> ->]|].
    apply (represents_absent _ _ _ _ _ _ _ Hr) in Ec. congruence. }
  apply (represents_absent _ _ _ _ _ _ _ Hr) in Ef. rewrite event_name_fits by done. apply wp_bind, wp_service; intros Hbind.
  2: { apply wp_ret, wp_ret, Hsame. cbn. rewrite (proj2 (Z.leb_gt _ _) Hmax), Ef, Hbind. by intros a g' [= -> ->]. }
  apply wp_bind. unfold AddService. apply wp_bind, wp_manager, wp_bind, wp_malloc.
  - apply wp_bind, wp_lock; [done|]. apply wp_bind, wp_upd_manager, wp_bind, wp_unlock, wp_ret. cbn [Z.ltb Z.compare INPUT_SUCCESS]. apply wp_ret, wp_ret.
    eapply (stepped_quiet _ _ _ _ _ (set_opened (opened g ++ [(index, None)]) g)).
    + split; [done|]. split; [done|]. left. cbn. by rewrite (proj2 (Z.leb_gt _ _) Hmax), Ef, Hbind.
    + eapply (represents_mutex _ _ _ _ false), (represents_open _ _ _ _ (set_mutex true m)); [by apply represents_mutex | done | done | done].
    + done.
    + eapply bounded_le; [done | lia].
  - intros Hnr. apply wp_ret. cbn [Z.ltb Z.compare INPUT_NOMEM]. apply wp_bind. eapply wp_recycle_service; [by rewrite lookup_insert_eq|]. apply wp_ret, wp_ret.
    eapply (stepped_quiet _ _ _ _ _ g).
    + split; [done|]. split; [done|]. by right.
    + assert (sv !! n = None) as Hsv.
      { pose proof (ho_new _ _ _ (re_services _ _ _ _ _ _ _ Hr)) as Hnew. rewrite (ho_map _ _ _ (re_services _ _ _ _ _ _ _ Hr)).
        apply not_elem_of_list_to_map_1. intros Hn. rewrite Forall_forall in Hnew. apply Hnew in Hn. lia. }
      assert (filter (fun q => q.1 <> n) rg = rg) as Hrg.
      { pose proof (represents_regs _ _ _ _ _ _ _ Hr) as Hnew. clear -Hnew. induction Hnew as [|q l Hq _ IH]; [done|]. cbn in Hq. rewrite filter_cons_True by lia. by rewrite IH. }
      rewrite delete_insert_id, Hrg by done. eapply represents_le; [|done]. lia.
    + done.
    + eapply bounded_le; [done | lia].
Qed.

Lemma step_close index g d rp w : ready g d rp w -> (forall cb, callback_of index g <> Some (Some cb)) -> wp (serve (Close index)) (stepped (Close index) g d rp) w.
Proof.
  intros [L n m sv rg Hr Hm Hb] Hc. cbn [serve]. apply wp_bind. destruct (find_node index (devList m)) as [[k p]|] eqn:Ef.
  - destruct (represents_device _ _ _ _ _ _ _ _ _ Hr Ef) as (l1 & l2 & [Elist Eindex Efirst Eservice Ecallback Erange Enode Efound] & ->). eapply wp_present_device; [done..|].
    assert (eventCb p = None) as Hcb by (destruct (eventCb p); [by destruct (Hc z) | done]).
    destruct (represents_close _ _ _ _ _ _ _ _ _ _ Hr Elist Hcb) as (_ & Hnode & Hr').
    apply wp_bind. eapply wp_recycle_service; [done|]. apply wp_bind, wp_free_block; [done|]. apply wp_bind, wp_upd_manager, wp_ret, wp_unlock, wp_ret.
    rewrite Eindex in Hr'. eapply stepped_quiet; [| |done|done].
    + split; [done|]. split; [done|]. left. cbn. by rewrite Ecallback.
    + cbn. rewrite Elist, delete_middle. exact (represents_mutex _ _ _ _ false _ _ _ Hr').
  - apply wp_no_device; [done..|]. apply wp_ret. apply (represents_absent _ _ _ _ _ _ _ Hr) in Ef. eapply stepped_quiet; try done. split; [done|]. split; [done|]. left.
    cbn. by rewrite Ef.
Qed.

Lemma read_infos_runs l L n m sv rg d rp (Q : list DeviceInfo -> W -> Prop) :
  NoDup (map node_at (devList m)) -> (forall p, p ∈ l -> p ∈ devList m) -> Q (map payload l) (St S L n m sv rg d rp) ->
  wp (read_infos (map node_at l)) Q (St S L n m sv rg d rp).
Proof.
  intros Hd. revert Q. induction l as [|p l IH]; intros Q Hl HQ; cbn [map read_infos]; [by apply wp_ret|].
  assert (List.find (fun pos => (node_at pos =? node_at p)%nat) (devList m) = Some p) as Hf.
  { assert (p ∈ devList m) as Hp by (apply Hl; by left). clear -Hd Hp. induction (devList m) as [|q k IH]; [by apply not_elem_of_nil in Hp|]. cbn in *.
    apply NoDup_cons in Hd as [Hq Hd]. apply elem_of_cons in Hp as [->|Hp]; [by rewrite Nat.eqb_refl|].
    rewrite (proj2 (Nat.eqb_neq _ _)); [auto|]. intros E. apply Hq. rewrite E. by apply (list_elem_of_fmap_2 node_at). }
  apply wp_bind. unfold read_info. apply wp_bind, wp_manager, wp_bind. eapply wp_deref; [done|]. apply wp_bind. eapply wp_deref; [done|]. apply wp_ret, wp_bind, IH.
  - intros q Hq. apply Hl. by right.
  - by apply wp_ret.
Qed.
Lemma represents_nodes g L n m sv rg : represents L0 g L n m sv rg -> NoDup (map node_at (devList m)).
Proof.
  intros Hr. pose proof (ow_distinct _ _ _ _ (re_blocks _ _ _ _ _ _ _ Hr)) as Hd. unfold blocks_of in Hd. apply NoDup_cons in Hd as [_ Hd].
  apply NoDup_app in Hd as (_ & _ & Hd). induction (devList m) as [|p l IH]; cbn in *; [constructor|]. apply NoDup_cons in Hd as [Hp Hd].
  apply NoDup_app in Hd as (_ & _ & Hd). apply NoDup_cons. split; [|auto]. intros (q & E & Hq)%list_elem_of_fmap. apply Hp, elem_of_app. right.
  rewrite E. apply list_elem_of_In, in_concat. exists (node_blocks q). split; [apply list_elem_of_In; by apply (list_elem_of_fmap_2 node_blocks) | by left].
Qed.
Lemma list_loop_runs l room : list_loop l room = ((length l <=? room)%nat, map node_at (take room l)).
Proof. revert room. induction l as [|p l IH]; intros [|room]; cbn; [done | done | done |]. by rewrite IH. Qed.
Lemma step_listing size g d rp w : ready g d rp w -> 0 <= size -> wp (serve (Listing size)) (stepped (Listing size) g d rp) w.
Proof.
  intros [L n m sv rg Hr Hm Hb] Hsize. cbn [serve]. apply wp_bind. unfold GetInputDeviceList. apply wp_bind, wp_manager, wp_bind, wp_lock; [done|].
  rewrite list_loop_runs. apply wp_bind, wp_unlock, wp_ret. rewrite unlock_locked by done. apply wp_bind, read_infos_runs.
  - by eapply represents_nodes.
  - intros p Hp. by eapply subseteq_take.
  - apply wp_ret. pose proof (re_view _ _ _ _ _ _ _ Hr) as Hv. assert (length (opened g) = length (devList m)) as Hlen by (by rewrite <- Hv, length_map).
    eapply stepped_quiet; try done. split; [done|]. split; [done|]. left. cbn. rewrite Hlen, (re_number _ _ _ _ _ _ _ Hr). do 2 f_equal.
    + destruct (Nat.leb_spec (length (devList m)) (Z.to_nat size)), (Z.leb_spec (Z.of_nat (length (devList m))) size); done || lia.
    + rewrite <- Hv, !map_map. by rewrite <- firstn_map.
Qed.

(** ** The reporter *)
Lemma step_register index cb g d rp w : ready g d rp w -> permitted (Register index cb) g -> wp (serve (Register index cb)) (stepped (Register index cb) g d rp) w.
Proof.
  intros [L n m sv rg Hr Hm Hb] Hp. cbn [serve]. apply wp_bind. unfold RegisterReportCallback.
  assert (forall r, expected (SB := SB) (Register index cb) d g = (Status r, g) -> stepped (Register index cb) g d rp (Status r) (St S L n m sv rg d rp)) as Hsame.
  { intros r He. eapply stepped_quiet; try done. split; [done|]. split; [done|]. by left. }
  destruct cb as [cb|]; [|by apply wp_ret, wp_ret, Hsame]. cbn in Hp, Hsame.
  destruct (Z.leb_spec MAX_INPUT_DEV_NUM index) as [Hmax|Hmax]; [by apply wp_ret, wp_ret, Hsame|].
  destruct (find_node index (devList m)) as [[k p]|] eqn:Ef.
  2: { apply wp_no_device; [done..|]. apply wp_ret, Hsame. apply (represents_absent _ _ _ _ _ _ _ Hr) in Ef. by rewrite Ef. }
  destruct (represents_device _ _ _ _ _ _ _ _ _ Hr Ef) as (l1 & l2 & [Elist Eindex Efirst Eservice Ecallback Erange Enode Efound] & ->). eapply wp_present_device; [done..|]. rewrite Ecallback in Hsame.
  assert (eventCb p = None) as Hcb by (destruct (eventCb p) as [z|]; [by destruct (Hp z) | done]). destruct Enode as [Hregs Hlis].
  assert (listener p = None) as Hl by (by apply Hlis).
  apply wp_bind. apply wp_malloc.
  2: { intros Hnr. apply wp_ret, wp_unlock, wp_ret. rewrite unlock_locked by done. eapply stepped_quiet; [|by eapply represents_le, Hr; lia|done|eapply bounded_le; [done | lia]].
       split; [done|]. split; [done|]. by right. }
  apply wp_bind. eapply wp_listen; [done| |]; intros Hst.
  2: { rewrite (proj2 (Z.eqb_neq _ INPUT_SUCCESS) Hst). cbn [negb]. apply wp_bind, wp_free_block; [set_solver|].
       assert (({[n]} ∪ L) ∖ {[n]} = L) as -> by (apply free_fresh, Hr). apply wp_ret, wp_unlock, wp_ret. rewrite unlock_locked by done.
       eapply stepped_quiet; [|by eapply represents_le, Hr; lia|done|eapply bounded_le; [done | lia]]. split; [done|]. split; [done|]. left. cbn.
       by rewrite (proj2 (Z.leb_gt _ _) Hmax), Ecallback, (proj2 (Z.eqb_neq _ _) Hst). }
  cbn [negb Z.eqb INPUT_SUCCESS]. apply wp_bind, wp_upd_manager, wp_bind, wp_upd_node, wp_ret, wp_unlock, wp_ret.
  set (p' := set_callback (Some n) (Some cb) p).
  assert (callbacks (l1 ++ l2) <= 31)%nat as Hfew.
  { pose proof (represents_few _ _ _ _ _ _ _ Hr) as Hlen. pose proof (callbacks_few (l1 ++ l2)) as Hc. rewrite Elist in Hlen. rewrite !length_app in *. cbn in Hlen. lia. }
  eapply (stepped_quiet _ _ _ _ _ (set_callback_of index (Some cb) g)).
  - split; [done|]. split; [done|]. left. cbn. by rewrite (proj2 (Z.leb_gt _ _) Hmax), Ecallback, Hst.
  - subst index. apply (represents_node L0 g L n m sv rg l1 p l2 p'); try done; cbn -[callbacks].
    + by rewrite Elist, alter_at.
    + split; [|done]. unfold p' at 1. cbn [service set_callback]. rewrite regs_app, Hregs. unfold node_regs, regs_of. rewrite Hl, filter_cons_True by done. done.
    + intros s Hs. rewrite regs_app. unfold regs_of at 2. rewrite filter_cons_False by (cbn; congruence). cbn. apply app_nil_r.
    + apply Forall_app. split; [apply Hr | apply Forall_singleton; cbn]. by rewrite Eservice.
    + lia.
    + unfold node_blocks. cbn. pose proof (owned_alloc _ _ _ _ (re_blocks _ _ _ _ _ _ _ Hr)) as Ho. eapply owned_perm; [|exact Ho].
      rewrite Elist, blocks_split. unfold node_blocks. rewrite Hl. cbn. apply Permutation_swap.
    + rewrite (re_callbacks _ _ _ _ _ _ _ Hr), Elist, !callbacks_split, Hcb. cbn -[callbacks]. rewrite i32_id by lia. lia.
  - done.
  - eapply bounded_le; [done | lia].
Qed.

Lemma step_unregister index g d rp w : ready g d rp w -> wp (serve (Unregister index)) (stepped (Unregister index) g d rp) w.
Proof.
  intros [L n m sv rg Hr Hm Hb]. cbn [serve]. apply wp_bind. unfold UnregisterReportCallback.
  assert (forall r, expected (SB := SB) (Unregister index) d g = (Status r, g) -> stepped (Unregister index) g d rp (Status r) (St S L n m sv rg d rp)) as Hsame.
  { intros r He. eapply stepped_quiet; try done. split; [done|]. split; [done|]. by left. }
  cbn in Hsame. destruct (Z.leb_spec MAX_INPUT_DEV_NUM index) as [Hmax|Hmax]; [by apply wp_ret, wp_ret, Hsame|].
  destruct (find_node index (devList m)) as [[k p]|] eqn:Ef.
  2: { apply wp_no_device; [done..|]. apply wp_ret, Hsame. apply (represents_absent _ _ _ _ _ _ _ Hr) in Ef. by rewrite Ef. }
  destruct (represents_device _ _ _ _ _ _ _ _ _ Hr Ef) as (l1 & l2 & [Elist Eindex Efirst Eservice Ecallback Erange Enode Efound] & ->). eapply wp_present_device; [done..|]. rewrite Ecallback in Hsame.
  destruct (eventCb p) as [cb|] eqn:Hcb.
  2: { apply wp_ret, wp_unlock, wp_ret. rewrite unlock_locked by done. by apply Hsame. }
  destruct Enode as [Hregs Hlis]. rewrite Hcb in Hlis. destruct (listener p) as [l|] eqn:Hl; [|by pose proof (proj1 Hlis eq_refl)]. unfold node_regs in Hregs. rewrite Hl in Hregs. cbn in Hregs.
  apply wp_bind. eapply wp_unlisten; [done| |]; intros Hst.
  2: { rewrite (proj2 (Z.eqb_neq _ 0) Hst) in Hsame. rewrite (proj2 (Z.eqb_neq _ INPUT_SUCCESS) Hst). cbn [negb]. apply wp_ret, wp_unlock, wp_ret. rewrite unlock_locked by done. by apply Hsame. }
  destruct (owned_free L0 L n l (node_at p :: blocks_of (manager_at m) (host_listener (hostDev m)) (l1 ++ l2))) as [Hlive Ho].
  { eapply owned_perm; [|apply Hr]. rewrite Elist, blocks_split. unfold node_blocks. rewrite Hl. cbn. apply Permutation_swap. }
  cbn [negb Z.eqb INPUT_SUCCESS free_opt]. apply wp_bind, wp_free_block; [done|]. apply wp_bind, wp_upd_node, wp_bind, wp_upd_manager, wp_ret, wp_unlock, wp_ret.
  set (p' := set_callback None None p).
  assert (callbacks (l1 ++ l2) <= 31)%nat as Hfew.
  { pose proof (represents_few _ _ _ _ _ _ _ Hr) as Hlen. pose proof (callbacks_few (l1 ++ l2)) as Hc. rewrite Elist in Hlen. rewrite !length_app in *. cbn in Hlen. lia. }
  eapply (stepped_quiet _ _ _ _ _ (set_callback_of index None g)).
  - split; [done|]. split; [done|]. left. cbn. by rewrite (proj2 (Z.leb_gt _ _) Hmax), Ecallback, Hst.
  - subst index. apply (represents_node L0 g L n m sv rg l1 p l2 p'); try done; cbn -[callbacks].
    + by rewrite Elist, alter_at.
    + split; [|done]. by apply (regs_all_removed _ _ _ ReportListener).
    + intros s Hs. by apply regs_removed.
    + apply held_filter, Hr.
    + rewrite (re_callbacks _ _ _ _ _ _ _ Hr), Elist, !callbacks_split, Hcb. cbn -[callbacks]. rewrite i32_id by lia. lia.
  - done.
  - done.
Qed.
End steps.

(** ** Hot plugging, scanning, events and commands

    The rest of the requests, and with them every request. *)
Section serve.
Context {SB : Type} `{!Platform SB, !PlatformLaws SB} `{!HdfStatus} `{!InputTypes} {D : Type} `{!InputDrivers SB D, !InputDriverLaws SB D}.
Context (L0 : gset nat) (S : gmap nat SB).
Implicit Types (L : gset nat) (n : nat) (m : InputDevManager) (sv : gmap nat string) (d : D) (rp : list report) (g : registry) (rq : request SB).
Abbreviation W := (World SB (Input D)).
Abbreviation ready := (ready (SB := SB) (D := D) L0 S).
Abbreviation stepped := (stepped (SB := SB) (D := D) L0 S).

(** ** The service of the host *)
Lemma represents_host g L n m sv rg s : represents L0 g L n m sv rg -> host_service (hostDev m) = Some s -> sv !! s = Some DEV_MANAGER_SERVICE_NAME.
Proof. intros Hr E. eapply holds_recycle. pose proof (re_services _ _ _ _ _ _ _ Hr) as Hs. rewrite E in Hs. exact Hs. Qed.
Lemma represents_bound g L n m sv rg : represents L0 g L n m sv rg -> bound g = true <-> is_Some (host_service (hostDev m)).
Proof. intros Hr. rewrite (re_bound _ _ _ _ _ _ _ Hr). by rewrite bool_decide_eq_true. Qed.

Lemma wp_bind_host g L n m sv rg d rp (Q : unit -> W -> Prop) :
  represents L0 g L n m sv rg ->
  (forall n' m' sv', (n <= n')%nat -> represents L0 (bind_host d g) L n' m' sv' rg -> mutex m' = mutex m -> Q tt (St S L n' m' sv' rg d rp)) ->
  wp (match host_service (hostDev m) with
      | None => s ← HdfIoServiceBind DEV_MANAGER_SERVICE_NAME;
                upd_manager (fun m => set_hostDev (mkHostDev s (host_listener (hostDev m)) (hostCb (hostDev m))) m)
      | Some _ => mret tt
      end) Q (St S L n m sv rg d rp).
Proof.
  intros Hr HQ. pose proof (re_bound _ _ _ _ _ _ _ Hr) as Hb. destruct (host_service (hostDev m)) as [s|] eqn:Es.
  - apply wp_ret, HQ; [lia | | done]. replace (bind_host d g) with g; [done|]. rewrite bool_decide_true in Hb by done. destruct g. cbn in *. by subst.
  - rewrite bool_decide_false in Hb by (by intros []). apply wp_bind, wp_service; intros Hd; apply wp_upd_manager, HQ; try done; try lia.
    + replace (bind_host d g) with (mkRegistry (opened g) (hot g) true) by (unfold bind_host; by rewrite Hb, Hd).
      apply represents_bind; [done|]. destruct (hostDev m). cbn in *. by subst.
    + replace (bind_host d g) with g by (destruct g; unfold bind_host; cbn in *; by rewrite Hb, Hd).
      replace (set_hostDev _ m) with m; [done|]. destruct m as [a l k c b []]. cbn in *. by subst.
Qed.

Lemma step_hot cb g d rp w : ready g d rp w -> permitted (RegisterHot cb) g -> wp (serve (RegisterHot cb)) (stepped (RegisterHot cb) g d rp) w.
Proof.
  intros [L n m sv rg Hr Hm Hb] Hp. cbn [serve]. apply wp_bind. unfold RegisterHotPlugCallback. destruct cb as [cb|]; cbn in Hp.
  2: { apply wp_ret, wp_ret. eapply stepped_quiet; try done. split; [done|]. split; [done|]. by left. }
  apply wp_bind, wp_manager, wp_bind, wp_lock; [done|]. apply wp_bind. apply (wp_bind_host g L n (set_mutex true m)); [by apply represents_mutex|].
  intros n1 m1 sv1 Hn1 Hr1 Hm1. cbn in Hm1. apply wp_bind, wp_manager, wp_bind. eapply wp_deref; [done|].
  pose proof (represents_bound _ _ _ _ _ _ Hr1) as Hbound. destruct (host_service (hostDev m1)) as [s|] eqn:Es.
  2: { apply wp_bind, wp_unlock, wp_ret, wp_ret. eapply stepped_quiet; [|by apply represents_mutex|done|by eapply bounded_le]. split; [done|]. split; [done|]. left.
       cbn [expected]. destruct (bound (bind_host d g)) eqn:Eb; [|done]. by destruct (proj1 Hbound eq_refl). }
  assert (bound (bind_host d g) = true) as Hbd by (by apply Hbound). pose proof (represents_host _ _ _ _ _ _ _ Hr1 Es) as Hsv.
  apply wp_bind, wp_malloc.
  2: { intros Hnr. apply wp_bind, wp_unlock, wp_ret, wp_ret. eapply stepped_quiet; [|eapply represents_le, represents_mutex, Hr1; lia|done|eapply bounded_le; [done | lia]].
       split; [done|]. split; [done|]. by right. }
  apply wp_bind. eapply wp_listen; [done| |]; intros Hst.
  2: { rewrite (proj2 (Z.eqb_neq _ INPUT_SUCCESS) Hst). cbn [negb]. apply wp_bind, wp_unlock, wp_bind, wp_free_block; [set_solver|].
       assert (({[n1]} ∪ L) ∖ {[n1]} = L) as -> by (apply free_fresh, Hr1). apply wp_ret, wp_ret.
       eapply stepped_quiet; [|eapply represents_le, represents_mutex, Hr1; lia|done|eapply bounded_le; [done | lia]]. split; [done|]. split; [done|]. left. cbn [expected].
       by rewrite Hbd, (proj2 (Z.eqb_neq _ _) Hst). }
  cbn [negb Z.eqb INPUT_SUCCESS]. apply wp_bind, wp_upd_manager, wp_bind, wp_unlock, wp_ret, wp_ret.
  pose proof (represents_hot _ _ _ _ _ _ _ s cb Hr1 Es Hp) as Hr2. rewrite Es. eapply stepped_quiet; [|by apply represents_mutex, Hr2|done|eapply bounded_le; [done | lia]].
  split; [done|]. split; [done|]. left. cbn [expected]. by rewrite Hbd, Hst.
Qed.

Lemma step_unhot g d rp w : ready g d rp w -> wp (serve UnregisterHot) (stepped UnregisterHot g d rp) w.
Proof.
  intros [L n m sv rg Hr Hm Hb]. cbn [serve]. apply wp_bind. unfold UnregisterHotPlugCallback. apply wp_bind, wp_manager, wp_bind, wp_lock; [done|].
  destruct (represents_unhot _ _ _ _ _ _ _ Hr) as [Hl Hr']. destruct (host_listener (hostDev m)) as [l|] eqn:El; cbn [free_opt].
  - apply wp_bind, wp_free_block; [done|]. apply wp_bind, wp_upd_manager, wp_bind, wp_unlock, wp_ret, wp_ret.
    eapply stepped_quiet; [|exact (represents_mutex _ _ _ _ false _ _ _ Hr')|done|done]. split; [done|]. split; [done|]. by left.
  - apply wp_bind, wp_ret, wp_bind, wp_upd_manager, wp_bind, wp_unlock, wp_ret, wp_ret.
    eapply stepped_quiet; [|exact (represents_mutex _ _ _ _ false _ _ _ Hr')|done|done]. split; [done|]. split; [done|]. by left.
Qed.

Lemma step_scan staArr arrLen g d rp w : ready g d rp w -> arrLen <= Z.of_nat (length staArr) -> wp (serve (Scan staArr arrLen)) (stepped (Scan staArr arrLen) g d rp) w.
Proof.
  intros [L n m sv rg Hr Hm Hb] Hp. cbn [serve]. apply wp_bind. unfold ScanInputDevice.
  apply wp_bind, wp_manager, wp_bind, wp_lock; [done|]. apply wp_bind. apply (wp_bind_host g L n (set_mutex true m)); [by apply represents_mutex|].
  intros n1 m1 sv1 Hn1 Hr1 _. apply wp_bind, wp_manager, wp_bind. eapply wp_deref; [done|]. apply wp_bind, wp_unlock.
  assert (bounded (dom S) n1) as Hb1 by (by eapply bounded_le).
  assert (forall d' a n', step_ok (Scan staArr arrLen) g d a [] (bind_host d g) d' -> (n1 <= n')%nat -> stepped (Scan staArr arrLen) g d rp a (St S L n' (set_mutex false m1) sv1 rg d' rp)) as Hend.
  { intros d' a n' Hs Hn'. eapply stepped_quiet; [done | by eapply represents_le, represents_mutex | done | by eapply bounded_le]. }
  pose proof (represents_bound _ _ _ _ _ _ Hr1) as Hbound. destruct (host_service (hostDev m1)) as [s|] eqn:Es.
  2: { apply wp_ret, wp_ret, Hend; [|done]. split; [done|]. split; [done|]. left. unfold scan_ok. destruct (io_answer _ _ _ d) as [[r v] d1].
       destruct (bound (bind_host d g)) eqn:Eb; [|done]. by destruct (proj1 Hbound eq_refl). }
  assert (bound (bind_host d g) = true) as Hbd by (by apply Hbound). pose proof (represents_host _ _ _ _ _ _ _ Hr1 Es) as Hsv.
  assert (S !! n1 = None) as Hnew by (apply not_elem_of_dom; intros ?%Hb1; lia).
  apply wp_bind. unfold wp at 1, HdfSbufTypedObtain. cbn [w_next w_sbufs w_live w_svc St]. destruct (sbuf_obtain_ok n1) eqn:Eo.
  2: { apply wp_ret, wp_ret, (Hend _ _ (Datatypes.S n1)); [|lia]. split; [done|]. split; [done|]. right. split; [|done]. intros (Ho & _). by rewrite Ho in Eo. }
  change (mkWorld ?s ?l ?k ?x) with (St s l k (set_mutex false m1) sv1 rg d rp). apply wp_bind. unfold wp at 1, Dispatch. cbn. rewrite Hsv, lookup_insert_eq.
  destruct (io_dispatch_view DEV_MANAGER_SERVICE_NAME 0 None sbuf_new d sbuf_view_new) as (ret & sr & d' & E & Ha). rewrite E. cbn in Ha. rewrite insert_insert_eq.
  change (mkWorld ?s ?l ?k ?x) with (St s l k (set_mutex false m1) sv1 rg d' rp). unfold INPUT_SUCCESS at 1. destruct (Z.eqb_spec ret 0) as [->|Hret]; cbn [negb].
  - apply wp_bind. apply (scan_loop_runs n1 sr (sbuf_view sr)); [done | lia |]. intros sr' r Hlen Hs. apply wp_bind, wp_message; [done|]. apply wp_ret, wp_ret, Hend; [|lia].
    split; [done|]. split; [done|]. left. unfold scan_ok. rewrite Ha, Hbd. split; [done|]. exists r. by rewrite Z.eqb_refl.
  - apply wp_bind, wp_message; [done|]. apply wp_ret, wp_ret, Hend; [|lia].
    split; [done|]. split; [done|]. left. unfold scan_ok. rewrite Ha, Hbd. split; [done|]. exists staArr. by rewrite (proj2 (Z.eqb_neq _ _) Hret).
Qed.

(** ** Events *)
Lemma step_device_event index sb g d rp w : ready g d rp w -> Forall is_buffer (sbuf_view sb) -> wp (serve (DeviceEvent index sb)) (stepped (DeviceEvent index sb) g d rp) w.
Proof.
  intros [L n m sv rg Hr Hm Hb] Hbuf. cbn [serve]. apply wp_bind, wp_manager, wp_bind. eapply wp_deref; [done|]. apply wp_bind.
  destruct (find_node index (devList m)) as [[k p]|] eqn:Ef; cbn [fmap option_fmap option_map event_of snd].
  2: { apply (represents_absent _ _ _ _ _ _ _ _ Hr) in Ef. apply wp_ret, wp_ret. eapply stepped_quiet; try done. split; [cbn; by rewrite Ef|]. split; [done|]. by left. }
  destruct (represents_device _ _ _ _ _ _ _ _ _ _ Hr Ef) as (l1 & l2 & [Elist Eindex Efirst Eservice Ecallback Erange Enode Efound] & ->). destruct Enode as [Hregs Hlis]. unfold node_regs in Hregs.
  destruct (represents_alone _ _ _ _ _ _ _ _ _ _ Hr Elist) as [[_ Hne] _].
  destruct (eventCb p) as [cb|] eqn:Hcb.
  - destruct (listener p) as [l|] eqn:Hl; [|by pose proof (proj1 Hlis eq_refl)]. cbn in Hregs. eapply wp_device_event; try done.
    + rewrite (ow_live _ _ _ _ (re_blocks _ _ _ _ _ _ _ Hr)), Elist, blocks_split. unfold node_blocks. rewrite Hl. cbn. set_solver.
    + apply wp_ret. exists [EventPkgs cb (packages MAX_EVENT_PKG_NUM (sbuf_view sb)) index], g, d. split.
      * split; [cbn; by rewrite Ecallback|]. split; [done|]. by left.
      * rewrite Eindex. constructor; [eapply represents_le, Hr; lia | done | eapply bounded_le; [done | lia]].
  - rewrite (proj2 Hlis eq_refl) in Hregs. apply wp_no_listener; [done|]. apply wp_ret. eapply stepped_quiet; try done.
    split; [cbn; by rewrite Ecallback|]. split; [done|]. by left.
Qed.
Lemma step_hot_event sb g d rp w : ready g d rp w -> Forall is_buffer (sbuf_view sb) -> hot g <> HotPlugLost -> wp (serve (HotEvent sb)) (stepped (HotEvent sb) g d rp) w.
Proof.
  intros [L n m sv rg Hr Hm Hb] Hbuf Hne. cbn [serve]. apply wp_bind, wp_manager, wp_bind. eapply wp_deref; [done|]. apply wp_bind.
  pose proof (re_host _ _ _ _ _ _ _ Hr) as Hh. destruct (hot g) as [|cb|] eqn:Eh; cbn in Hh; [| |done].
  - assert (stepped (HotEvent sb) g d rp Happened (St S L n m sv rg d rp)) as Hdone.
    { eapply stepped_quiet; try done. split; [cbn; by rewrite Eh|]. split; [done|]. by left. }
    destruct Hh as (_ & _ & Hno). destruct (host_service (hostDev m)) as [s|]; cbn [event_of]; [|by apply wp_ret, wp_ret].
    apply wp_no_listener; [by apply Hno | by apply wp_ret].
  - destruct Hh as (s & l & Es & El & Ecb & Hregs). rewrite Es. cbn [event_of]. eapply wp_hot_event; try done.
    + rewrite (ow_live _ _ _ _ (re_blocks _ _ _ _ _ _ _ Hr)), El. cbn. set_solver.
    + apply wp_ret. eexists _, g, d. split; [|constructor; [eapply represents_le, Hr; lia | done | eapply bounded_le; [done | lia]]].
      split; [cbn; by rewrite Eh|]. split; [done|]. by left.
Qed.

(** ** Commands *)
Lemma at_same m l1 p l2 : devList m = l1 ++ p :: l2 -> at_ m l1 p l2 (payload p) = m.
Proof. intros E. unfold at_. destruct m, p. cbn in *. by subst. Qed.
Lemma absent_command index c m L n sv rg d rp (Q : Z * value -> W -> Prop) :
  mutex m = false -> find_node index (devList m) = None ->
  (forall ret v, (MAX_INPUT_DEV_NUM <= index -> ret = INPUT_INVALID_PARAM) -> ret <> INPUT_SUCCESS -> Q (ret, v) (St S L n m sv rg d rp)) ->
  wp (run_command index c) Q (St S L n m sv rg d rp).
Proof.
  intros Hm Hf HQ. assert (forall v, Q (INPUT_INVALID_PARAM, v) (St S L n m sv rg d rp)) as Hinv by (intros v; by apply HQ).
  assert (forall cmd limit info room, wp ('(ret, o) ← GetDevStringInfo index info room limit cmd; mret (ret, Chars o)) Q (St S L n m sv rg d rp)) as Hstring.
  { intros cmd limit info room. apply wp_bind. unfold GetDevStringInfo. destruct info as [info|]; [|by apply wp_ret, wp_ret].
    destruct (Z.leb_spec MAX_INPUT_DEV_NUM index), (room <? limit); try by apply wp_ret, wp_ret. apply wp_no_device; [done..|]. apply wp_ret, HQ; [lia | done]. }
  destruct c as [status|status|t|buf room|buf room|buf room|mode|test result room|info]; cbn [run_command]; try apply Hstring; apply wp_bind.
  - unfold SetPowerStatus. destruct (Z.leb_spec MAX_INPUT_DEV_NUM index), (INPUT_POWER_STATUS_UNKNOWN <=? status); try by apply wp_ret, wp_ret.
    apply wp_no_device; [done..|]. apply wp_ret, HQ; [lia | done].
  - unfold GetPowerStatus. destruct status as [z|]; [|by apply wp_ret, wp_ret]. destruct (Z.leb_spec MAX_INPUT_DEV_NUM index); [by apply wp_ret, wp_ret|].
    apply wp_no_device; [done..|]. apply wp_ret, HQ; [lia | done].
  - unfold GetDeviceType. destruct t as [z|]; [|by apply wp_ret, wp_ret]. destruct (Z.leb_spec MAX_INPUT_DEV_NUM index); [by apply wp_ret, wp_ret|].
    apply wp_no_device; [done..|]. apply wp_ret, HQ; [lia | done].
  - unfold SetGestureMode. destruct (Z.leb_spec MAX_INPUT_DEV_NUM index); [by apply wp_ret, wp_ret|]. apply wp_no_device; [done..|]. apply wp_ret, HQ; [lia | done].
  - unfold RunCapacitanceTest. destruct result as [r|]; [|by apply wp_ret, wp_ret].
    destruct (Z.leb_spec MAX_INPUT_DEV_NUM index), (TEST_TYPE_UNKNOWN <=? test), (room <? SELF_TEST_RESULT_LEN); try by apply wp_ret, wp_ret.
    apply wp_no_device; [done..|]. apply wp_ret, HQ; [lia | done].
  - unfold RunExtraCommand. destruct info as [[[code|] [v|]]|]; try by apply wp_ret, wp_ret. destruct (Z.leb_spec MAX_INPUT_DEV_NUM index); [by apply wp_ret, wp_ret|].
    apply wp_no_device; [done..|]. apply wp_ret, HQ; [lia | done].
Qed.
(** The manager with another description of the device represents the same registry. *)
Lemma represents_at index g L n n' m sv rg l1 p l2 i : represents L0 g L n m sv rg -> device_at index g L n m sv rg l1 p l2 -> devIndex i = index -> (n <= n')%nat ->
  represents L0 g L n' (at_ m l1 p l2 i) sv rg.
Proof.
  intros Hr [] Hi Hn. eapply represents_le; [done|]. apply represents_payload; [done.. |]. congruence.
Qed.
Lemma step_command index c g d rp w : ready g d rp w -> wp (serve (Command index c)) (stepped (Command index c) g d rp) w.
Proof.
  intros [L n m sv rg Hr Hm Hb]. cbn [serve]. apply wp_bind. destruct (find_node index (devList m)) as [[k p]|] eqn:Ef.
  - destruct (represents_device _ _ _ _ _ _ _ _ _ _ Hr Ef) as (l1 & l2 & Hd & ->). pose proof Hd as [Elist Eindex Efirst Eservice Ecallback Erange Enode Efound].
    rewrite <- (at_same m l1 p l2 Elist). assert (forall n' i' d' a, (n <= n')%nat -> devIndex i' = index -> stepped (Command index c) g d rp (Valued a.1 a.2) (St S L n' (at_ m l1 p l2 i') sv rg d' rp)) as Hend.
    { intros n' i' d' [ret v] Hn Hi. eapply stepped_quiet; [|by eapply represents_at|done|by eapply bounded_le]. split; [done|]. split; [done|]. exists ret, v.
      split; [done|]. split; [lia | by rewrite Ecallback]. }
    apply wp_command with (index := index); try done; [by destruct Erange|]. destruct (command_plan c) as [pl|].
    + intros n' ret x i' d' Hn _ Hi. by apply wp_ret, (Hend n' i' d' (ret, x)).
    + intros x. by apply wp_ret, (Hend n _ d (INPUT_INVALID_PARAM, x)).
  - apply absent_command; [done..|]. intros ret v Hinv Hne. apply wp_ret. eapply stepped_quiet; try done. split; [done|]. split; [done|]. by exists ret, v.
Qed.

Lemma absent_full index m L n sv rg d rp (Q : Z -> W -> Prop) :
  mutex m = false -> find_node index (devList m) = None -> index < MAX_INPUT_DEV_NUM -> Q INPUT_FAILURE (St S L n m sv rg d rp) ->
  wp (UpdateDevFullInfo index) Q (St S L n m sv rg d rp).
Proof.
  intros Hm Hf Hi HQ. unfold UpdateDevFullInfo, UpdateDevBaseInfo, GetDeviceType. rewrite (proj2 (Z.leb_gt _ _) Hi). do 2 apply wp_bind.
  apply wp_no_device; [done..|]. cbn. by do 2 apply wp_ret.
Qed.
(** What [GetInputDevice] does with an open device. *)
Lemma wp_GetInputDevice index g L n m sv rg l1 p l2 d rp (Q : answer -> W -> Prop) :
  represents L0 g L n m sv rg -> mutex m = false -> bounded (dom S) n -> device_at index g L n m sv rg l1 p l2 ->
  (forall n' ret i' d', (n <= n')%nat -> updated (full_queries index) d (payload p) ret i' d' -> devIndex i' = index ->
    Q (Got ret (if ret =? INPUT_SUCCESS then Some i' else None)) (St S L n' (at_ m l1 p l2 i') sv rg d' rp)) ->
  wp (serve (Get index)) Q (St S L n m sv rg d rp).
Proof.
  intros Hr Hm Hb Hd HQ. pose proof Hd as [Elist Eindex Efirst Eservice Ecallback Erange Enode Efound]. cbn [serve]. apply wp_bind. unfold GetInputDevice.
  rewrite (proj2 (Z.leb_gt _ _)) by apply Erange. apply wp_bind. rewrite <- (at_same m l1 p l2 Elist) at 1.
  apply wp_full with (index := index); try done; [apply Erange|]. intros n' ret i' d' Hn Hu Hi. specialize (HQ n' ret i' d' Hn Hu Hi).
  destruct (Z.eqb_spec ret INPUT_SUCCESS) as [->|Hret]; cbn [negb]; [|by apply wp_ret, wp_ret].
  apply wp_at; [done..|]. apply wp_ret, wp_unlock_at; [done|]. apply wp_bind.
  assert (represents L0 g L n' (at_ m l1 p l2 i') sv rg) as Hr' by (by eapply represents_at). pose proof (represents_nodes _ _ _ _ _ _ _ Hr') as Hnodes.
  pose proof (read_infos_runs (D := D) S [set_payload i' p] L n' (at_ m l1 p l2 i') sv rg d' rp) as Hread. unfold wp in Hread. cbn [map read_infos] in Hread.
  eapply wp_mono; [|intros a w' HP; apply wp_ret; exact HP].
  assert (List.find (fun pos => (node_at pos =? node_at p)%nat) (l1 ++ set_payload i' p :: l2) = Some (set_payload i' p)) as Hfind.
  { clear -Hnodes. unfold at_ in Hnodes. cbn in Hnodes. induction l1 as [|q k IH]; cbn in *; [by rewrite Nat.eqb_refl|]. apply NoDup_cons in Hnodes as [Hq Hd].
    rewrite (proj2 (Nat.eqb_neq _ _)); [auto|]. intros E. apply Hq. rewrite map_app, E. set_solver. }
  unfold read_info. apply wp_bind, wp_manager, wp_bind. eapply wp_deref; [done|]. apply wp_bind. eapply wp_deref; [exact Hfind|]. by apply wp_ret.
Qed.
Lemma step_get index g d rp w : ready g d rp w -> wp (serve (Get index)) (stepped (Get index) g d rp) w.
Proof.
  intros [L n m sv rg Hr Hm Hb]. destruct (find_node index (devList m)) as [[k p]|] eqn:Ef.
  - destruct (represents_device _ _ _ _ _ _ _ _ _ _ Hr Ef) as (l1 & l2 & Hd & ->). eapply wp_GetInputDevice; [done..|]. intros n' ret i' d' Hn _ Hi.
    eapply stepped_quiet; [|by eapply represents_at|done|by eapply bounded_le]. split; [done|]. split; [done|]. eexists ret, _. split; [done|].
    pose proof (da_range _ _ _ _ _ _ _ _ _ _ Hd) as Hrange. pose proof (da_callback _ _ _ _ _ _ _ _ _ _ Hd) as Hcb.
    split; [split; [lia | by rewrite Hcb]|]. destruct (Z.eqb_spec ret INPUT_SUCCESS) as [->|Hret]; split; try done. by intros i [= <-].
  - cbn [serve]. apply wp_bind. unfold GetInputDevice.
    assert (forall ret, (MAX_INPUT_DEV_NUM <= index -> ret = INPUT_INVALID_PARAM) -> ret <> INPUT_SUCCESS -> stepped (Get index) g d rp (Got ret None) (St S L n m sv rg d rp)) as Hend.
    { intros ret Hi Hne. eapply stepped_quiet; try done. split; [done|]. split; [done|]. exists ret, None. split; [done|]. split; [by split|]. by split. }
    destruct (Z.leb_spec MAX_INPUT_DEV_NUM index) as [Hmax|Hmax]; [by apply wp_ret, wp_ret, Hend|]. apply wp_bind, absent_full; [done..|]. cbn [negb Z.eqb INPUT_FAILURE INPUT_SUCCESS].
    apply wp_ret, wp_ret, Hend; [lia | done].
Qed.

(** ** Every request *)
Lemma step rq g d rp w : ready g d rp w -> permitted rq g -> wp (serve rq) (stepped rq g d rp) w.
Proof.
  intros Hw Hp. destruct rq as [i|i|i|size|arr num|i c|i cb|i|cb| |i sb|sb]; cbn in Hp.
  - by apply step_open.
  - by apply step_close.
  - by apply step_get.
  - by apply step_listing.
  - by apply step_scan.
  - by apply step_command.
  - by apply step_register.
  - by apply step_unregister.
  - by apply step_hot.
  - by apply step_unhot.
  - by apply step_device_event.
  - destruct Hp. by apply step_hot_event.
Qed.
Lemma steps l g d rp w : ready g d rp w -> keeps_rules (D := D) g l ->
  wp (serve_all l) (fun la w' => exists lrep g' d', steps_ok g d l la lrep g' d' /\ ready g' d' (rp ++ lrep) w') w.
Proof.
  revert g d rp w. induction l as [|rq l IH]; intros g d rp w Hw Hk; cbn [serve_all].
  - apply wp_ret. exists [], g, d. split; [constructor | by rewrite app_nil_r].
  - destruct Hk as [Hp Hk]. apply wp_bind. eapply wp_mono; [by apply step|]. intros a w1 (rep & g1 & d1 & Hs & Hw1).
    apply wp_bind. eapply wp_mono; [by eapply IH, Hk|]. intros la w2 (lrep & g2 & d2 & Hss & Hw2). apply wp_ret.
    exists (rep ++ lrep), g2, d2. split; [by econstructor | by rewrite app_assoc].
Qed.
End serve.
