(* ===== verification/InputRun.v ===== *)
(** * InputRun: the life of the interface, and what holds of the input HAL

    [GetInputInterface] and [ReleaseInputInterface]: what a start gives, and that a
    release closes everything that is still open.  Then the theorems. *)
From stdpp Require Import pretty.
From S2P Require Import Prelude Hdf Arrays Input InputOps InputSpec InputFacts InputRules InputCommands InputSteps.
Open Scope Z_scope.

Section life.
Context {SB : Type} `{!Platform SB, !PlatformLaws SB} `{!HdfStatus} `{!InputTypes} {D : Type} `{!InputDrivers SB D, !InputDriverLaws SB D}.
Implicit Types (S : gmap nat SB) (L : gset nat) (n : nat) (m : InputDevManager) (sv : gmap nat string) (d : D) (rp : list report) (w : World SB (Input D)).
Abbreviation W := (World SB (Input D)).

(** No manager, no service, no listener. *)
Definition idle S L n d rp : W := mkWorld S L n (mkInput None ∅ [] d rp).
Definition interface_blocks (h : IInputInterface) : list nat :=
  interface_at h :: option_list (iInputManager h) ++ option_list (iInputController h) ++ option_list (iInputReporter h).

Lemma wp_idle_malloc type S L n d rp (Q : option nat -> W -> Prop) :
  Q (Some n) (idle S ({[n]} ∪ L) (Datatypes.S n) d rp) -> (~ reliable SB -> Q None (idle S L (Datatypes.S n) d rp)) ->
  wp (malloc type) Q (idle S L n d rp).
Proof.
  intros Hs Hn. unfold malloc, wp, OsalMemAlloc. cbn. destruct (alloc_ok n (sizeof type)) eqn:E; [done|].
  apply Hn. intros (_ & Hal & _). rewrite Hal in E; [done | apply sizeof_types].
Qed.
Lemma wp_idle_free k L0 bs S L n d rp (Q : unit -> W -> Prop) :
  owned L0 L n (k :: bs) -> (owned L0 (L ∖ {[k]}) n bs -> Q tt (idle S (L ∖ {[k]}) n d rp)) -> wp (free k) Q (idle S L n d rp).
Proof. intros Ho HQ. destruct (owned_free _ _ _ _ _ Ho) as [Hk Ho']. unfold free, wp, OsalMemFree. cbn. rewrite decide_True by done. by apply HQ. Qed.
Lemma wp_idle_free_opt o L0 bs S L n d rp (Q : unit -> W -> Prop) :
  owned L0 L n (option_list o ++ bs) -> (forall L', owned L0 L' n bs -> Q tt (idle S L' n d rp)) -> wp (free_opt o) Q (idle S L n d rp).
Proof.
  intros Ho HQ. destruct o as [k|]; cbn in *; [|by apply wp_ret, HQ]. eapply wp_idle_free; [done|]. intros Ho'. by apply HQ.
Qed.
Lemma wp_free_hdi h L0 S L n d rp (Q : unit -> W -> Prop) :
  owned L0 L n (interface_blocks h) -> Q tt (idle S L0 n d rp) -> wp (FreeInputHdi h) Q (idle S L n d rp).
Proof.
  intros Ho HQ. unfold FreeInputHdi. apply (owned_perm _ _ _ _ (option_list (iInputManager h) ++ option_list (iInputController h) ++ option_list (iInputReporter h) ++ [interface_at h])) in Ho.
  2: { unfold interface_blocks. rewrite !app_assoc. apply Permutation_cons_append. }
  apply wp_bind. eapply wp_idle_free_opt; [done|]. intros L1 Ho1. apply wp_bind. eapply wp_idle_free_opt; [done|]. intros L2 Ho2.
  apply wp_bind. eapply wp_idle_free_opt; [done|]. intros L3 Ho3. eapply wp_idle_free; [done|]. intros Ho4.
  replace (L3 ∖ {[interface_at h]}) with L0; [done|]. rewrite (ow_live _ _ _ _ Ho4). cbn. set_solver.
Qed.

(** A start: an empty registry, or nothing for lack of memory. *)
Lemma wp_start S L n d rp (Q : Z * option IInputInterface -> W -> Prop) :
  bounded L n -> bounded (dom S) n ->
  (forall h w, ready (L ∪ list_to_set (interface_blocks h)) S empty_registry d rp w -> NoDup (interface_blocks h) -> Forall (fun k => k ∉ L) (interface_blocks h) ->
    Q (INPUT_SUCCESS, Some h) w) ->
  (forall ret n', ~ reliable SB -> ret <> INPUT_SUCCESS -> (n <= n')%nat -> Q (ret, None) (idle S L n' d rp)) ->
  wp GetInputInterface Q (idle S L n d rp).
Proof.
  intros HL HS Hok Hno. pose proof (owned_nil L n HL) as Ho.
  assert (forall n' h bs L', ~ reliable SB -> (n <= n')%nat -> owned L L' n' bs -> bs ≡ₚ interface_blocks h ->
    wp (FreeInputHdi h;; mret None) (fun a w => wp (match a with None => mret (INPUT_NULL_PTR, None) | Some hdi => ret ← InitDevManager;
      if negb (ret =? INPUT_SUCCESS) then FreeInputHdi hdi;; mret (INPUT_FAILURE, None) else mret (INPUT_SUCCESS, Some hdi) end) Q w) (idle S L' n' d rp)) as Hfail.
  { intros n' h bs L' Hr Hn' Ho' Hp. apply wp_bind. eapply wp_free_hdi; [by eapply owned_perm|]. apply wp_ret, wp_ret. by apply Hno. }
  unfold GetInputInterface, InstanceInputHdi, InstanceManagerHdi, InstanceControllerHdi, InstanceReporterHdi. apply wp_bind, wp_bind, wp_idle_malloc.
  2: { intros Hr. apply wp_ret, wp_ret, Hno; [done | done | lia]. }
  apply owned_alloc in Ho. apply wp_bind, wp_bind, wp_idle_malloc; [|intros Hr]; apply wp_ret; cbn [negb Z.eqb INPUT_SUCCESS INPUT_NOMEM].
  2: { eapply Hfail; [done | lia | by eapply owned_le, Ho; lia | done]. }
  apply owned_alloc in Ho. apply wp_bind, wp_bind, wp_idle_malloc; [|intros Hr]; apply wp_ret; cbn [negb Z.eqb INPUT_SUCCESS INPUT_NOMEM].
  2: { eapply Hfail; [done | lia | by eapply owned_le, Ho; lia |]. apply Permutation_swap. }
  apply owned_alloc in Ho. apply wp_bind, wp_bind, wp_idle_malloc; [|intros Hr]; apply wp_ret; cbn [negb Z.eqb INPUT_SUCCESS INPUT_NOMEM].
  2: { eapply Hfail; [done | lia | by eapply owned_le, Ho; lia |]. unfold interface_blocks. cbn. apply (Permutation_rev [_; _; _]). }
  apply owned_alloc in Ho. apply wp_ret, wp_bind. set (h := mkInterface _ _ _ _).
  assert ([Datatypes.S (Datatypes.S (Datatypes.S n)); Datatypes.S (Datatypes.S n); Datatypes.S n; n] ≡ₚ interface_blocks h) as Hp.
  { unfold interface_blocks, h. cbn. etransitivity; [apply (Permutation_rev [_; _; _; _])|]. cbn. done. }
  apply (owned_perm _ _ _ _ _ Hp) in Ho. unfold InitDevManager. apply wp_bind, wp_idle_malloc.
  2: { intros Hr. apply wp_ret. cbn [negb Z.eqb INPUT_SUCCESS INPUT_NOMEM]. apply wp_bind. eapply wp_free_hdi; [by eapply owned_le, Ho; lia|]. apply wp_ret, Hno; [done | done | lia]. }
  apply wp_bind. change (wp (upd_input ?f) ?Q0 (idle ?s ?l ?k d rp)) with (Q0 tt (St s l k (mkManager (Datatypes.S (Datatypes.S (Datatypes.S (Datatypes.S n)))) [] 0 0 false (mkHostDev None None None)) ∅ [] d rp)).
  cbv beta. apply wp_ret. cbn [negb Z.eqb INPUT_SUCCESS]. apply wp_ret. apply Hok; [|apply Ho|apply Ho].
  pose proof (owned_alloc _ _ _ _ (owned_nil _ _ (ow_bounded _ _ _ _ Ho))) as Hman. rewrite (ow_live _ _ _ _ Ho) in Hman at 1.
  constructor; [|done|eapply bounded_le; [done | lia]]. split; [done | done | done | constructor | exact Hman | | constructor | constructor | constructor | done | done].
  by split; [constructor | | constructor].
Qed.

(** ** The release *)
Lemma wp_unlisten_any s l name S L n m sv rg d rp (Q : Z -> W -> Prop) :
  sv !! s = Some name -> Forall (fun q => is_Some (sv !! q.1)) rg -> (forall ret rg', Forall (fun q => is_Some (sv !! q.1)) rg' -> Q ret (St S L n m sv rg' d rp)) ->
  wp (HdfDeviceUnregisterEventListener (Some s) l) Q (St S L n m sv rg d rp).
Proof.
  intros Hs Hrg HQ. destruct l as [l|]; [|by apply wp_ret, HQ]. eapply wp_unlisten; [done| |]; intros _; [|by apply HQ]. by apply HQ, held_filter.
Qed.
Lemma wp_release_loop L0 l hs hl S L n m sv rg d rp (Q : unit -> W -> Prop) :
  owned L0 L n (blocks_of (manager_at m) hl l) -> holds sv n (services_of hs l) -> Forall (fun q => is_Some (sv !! q.1)) rg ->
  (forall L' sv' rg', owned L0 L' n (blocks_of (manager_at m) hl []) -> holds sv' n (services_of hs []) -> Forall (fun q => is_Some (sv' !! q.1)) rg' ->
    Q tt (St S L' n (set_devList [] m) sv' rg' d rp)) ->
  devList m = l -> wp (release_loop l) Q (St S L n m sv rg d rp).
Proof.
  revert L m sv rg. induction l as [|p l IH]; intros L m sv rg Ho Hh Hrg HQ Hl; cbn [release_loop].
  { apply wp_ret. replace m with (set_devList [] m) by (destruct m; cbn in *; by subst). by apply HQ. }
  apply (owned_perm _ _ _ _ (option_list (listener p) ++ node_at p :: blocks_of (manager_at m) hl l)) in Ho.
  2: { rewrite (blocks_split _ _ [] p l). unfold node_blocks. cbn. by rewrite Permutation_middle. }
  apply (holds_perm _ _ _ (node_service p :: services_of hs l)) in Hh; [|by rewrite (services_split _ [] p l)].
  destruct (holds_recycle _ _ _ _ _ Hh) as [Hs Hh'].
  apply wp_bind. eapply wp_unlisten_any; [done | done |]. intros _ rg1 Hrg1. apply wp_bind.
  assert (forall L1, owned L0 L1 n (node_at p :: blocks_of (manager_at m) hl l) ->
    wp (HdfIoServiceRecycle (Some (service p));; upd_manager (fun m => set_devList l m);; free (node_at p);; release_loop l) Q (St S L1 n m sv rg1 d rp)) as Hrest.
  { intros L1 Ho1. destruct (owned_free _ _ _ _ _ Ho1) as [Hk Ho2]. apply wp_bind. eapply wp_recycle_service; [done|].
    apply wp_bind, wp_upd_manager, wp_bind, wp_free_block; [done|]. apply (IH _ (set_devList l m)); try done. by apply held_recycle. }
  destruct (listener p) as [k|]; cbn [free_opt option_list app] in *; [|by apply wp_ret, Hrest].
  destruct (owned_free _ _ _ _ _ Ho) as [Hk Ho1]. apply wp_free_block; [done|]. by apply Hrest.
Qed.
Lemma wp_free_manager L0 S L n m sv rg d rp (Q : unit -> W -> Prop) :
  owned L0 L n (blocks_of (manager_at m) (host_listener (hostDev m)) []) -> holds sv n (services_of (host_service (hostDev m)) []) ->
  Forall (fun q => is_Some (sv !! q.1)) rg -> (host_listener (hostDev m) = None \/ host_service (hostDev m) <> None) -> Q tt (idle S L0 n d rp) ->
  wp FreeDevManager Q (St S L n m sv rg d rp).
Proof.
  intros Ho Hh Hrg Hl HQ. unfold FreeDevManager. apply wp_bind, wp_manager, wp_bind. eapply wp_deref; [done|].
  assert (forall L1 sv1 rg1, owned L0 L1 n [manager_at m] -> holds sv1 n [] -> Forall (fun q => is_Some (sv1 !! q.1)) rg1 ->
    wp (pthread_mutex_unlock;; free (manager_at m);; upd_input (set_manager None)) Q (St S L1 n m sv1 rg1 d rp)) as Hend.
  { intros L1 sv1 rg1 Ho1 Hh1 Hrg1. apply wp_bind, wp_unlock, wp_bind. destruct (owned_free _ _ _ _ _ Ho1) as [Hk Ho2]. apply wp_free_block; [done|].
    rewrite (ow_live _ _ _ _ Ho2). cbn [list_to_set]. rewrite (ho_map _ _ _ Hh1) in *. cbn in *.
    assert (rg1 = []) as -> by (destruct Hrg1 as [|q r [? Hq] _]; [done|]; by rewrite lookup_empty in Hq). rewrite (right_id_L ∅ (∪)). done. }
  destruct (host_service (hostDev m)) as [s|] eqn:Es.
  - destruct (holds_recycle _ _ _ _ _ Hh) as [Hs Hh1]. apply wp_bind. eapply wp_unlisten_any; [done | done |]. intros _ rg1 Hrg1. apply wp_bind.
    destruct (host_listener (hostDev m)) as [l|]; cbn [free_opt].
    + destruct (owned_free L0 L n l [manager_at m]) as [Hk Ho1]; [eapply owned_perm; [|done]; apply Permutation_swap|]. apply wp_free_block; [done|].
      apply wp_bind. eapply wp_recycle_service; [done|]. apply Hend; [done | done | by apply held_recycle].
    + apply wp_ret, wp_bind. eapply wp_recycle_service; [done|]. apply Hend; [done | done | by apply held_recycle].
  - destruct Hl as [Hl|?]; [|done]. rewrite Hl in *. cbn [free_opt HdfIoServiceRecycle]. apply wp_bind.
    change (wp (HdfDeviceUnregisterEventListener None None) ?Q0 ?w0) with (Q0 HDF_ERR_INVALID_PARAM w0). cbv beta.
    apply wp_bind, wp_ret, wp_bind, wp_ret. by apply Hend.
Qed.
Lemma release_runs h g d rp S L w :
  ready (L ∪ list_to_set (interface_blocks h)) S g d rp w -> NoDup (interface_blocks h) -> Forall (fun k => k ∉ L) (interface_blocks h) ->
  exists n, ReleaseInputInterface (Some h) w = Some (tt, idle S L n d rp) /\ bounded L n.
Proof.
  intros [L1 n m sv rg Hr Hm Hb] Hd Hnew.
  assert (wp (ReleaseInputInterface (Some h)) (fun _ w' => w' = idle S L n d rp /\ bounded L n) (St S L1 n m sv rg d rp)) as Hwp.
  2: { apply wp_inv in Hwp as ([] & w' & E & -> & Hbn). by exists n. }
  pose proof (re_blocks _ _ _ _ _ _ _ Hr) as [B1 B2 B3 B4].
  set (bs := blocks_of (manager_at m) (host_listener (hostDev m)) (devList m)) in *.
  assert (owned L L1 n (interface_blocks h ++ bs)) as Ho.
  { split.
    - apply NoDup_app. split_and!; [done | | done]. intros k Hk Hk'. rewrite Forall_forall in B2. apply (B2 k); [done|]. set_solver.
    - apply Forall_app. split; [done|]. eapply Forall_impl; [done|]. cbn. set_solver.
    - rewrite B3, list_to_set_app_L. set_solver.
    - done. }
  assert (bounded L n) as HbL by (eapply bounded_mono; [done | rewrite (ow_live _ _ _ _ Ho); set_solver]).
  unfold ReleaseInputInterface, FreeInputHdi. apply wp_bind.
  apply (owned_perm _ _ _ _ (option_list (iInputManager h) ++ option_list (iInputController h) ++ option_list (iInputReporter h) ++ interface_at h :: bs)) in Ho.
  2: { unfold interface_blocks. cbn. rewrite !app_assoc. apply Permutation_middle. }
  assert (forall o bs' L2 (Q : unit -> W -> Prop), owned L L2 n (option_list o ++ bs') -> (forall L3, owned L L3 n bs' -> Q tt (St S L3 n m sv rg d rp)) ->
    wp (free_opt o) Q (St S L2 n m sv rg d rp)) as Hfree.
  { intros o bs' L2 Q Ho2 HQ. destruct o as [k|]; cbn in *; [|by apply wp_ret, HQ]. destruct (owned_free _ _ _ _ _ Ho2) as [Hk Ho3]. apply wp_free_block; [done|]. by apply HQ. }
  apply wp_bind. eapply Hfree; [done|]. intros L2 Ho2. apply wp_bind. eapply Hfree; [done|]. intros L3 Ho3. apply wp_bind. eapply Hfree; [done|]. intros L4 Ho4.
  destruct (owned_free _ _ _ _ _ Ho4) as [Hk Ho5]. apply wp_free_block; [done|].
  apply wp_bind, wp_manager, wp_bind, wp_lock; [done|]. apply wp_bind.
  eapply (wp_release_loop L (devList m) (host_service (hostDev m)) (host_listener (hostDev m)) _ _ _ (set_mutex true m)); [done | apply Hr | apply Hr | | done].
  intros L6 sv' rg' Ho6 Hh6 Hrg6. eapply wp_free_manager; [done | done | done | | done].
  cbn. pose proof (re_host _ _ _ _ _ _ _ Hr) as Hhost. destruct (hot g); cbn in Hhost; [by left; apply Hhost | right; by destruct Hhost as (s & l & -> & _) | by left; apply Hhost].
Qed.
End life.

(** ** What holds of the input HAL

    A session of an application ([session_refines_registry]), its end
    ([release_gives_back_everything]), the commands ([command_answered]) and the
    description of a device ([device_described]). *)
Section run.
Context {SB : Type} `{!Platform SB, !PlatformLaws SB} `{!HdfStatus} `{!InputTypes} {D : Type} `{!InputDrivers SB D, !InputDriverLaws SB D}.
Implicit Types (S : gmap nat SB) (L : gset nat) (n : nat) (d : D) (rp : list report) (g : registry) (w : World SB (Input D)).

(** What the manager holds about a device. *)
Definition info_of (index : Z) w : option DeviceInfo :=
  g_devManager (w_svc w) ≫= fun m => payload ∘ snd <$> find_node index (devList m).

Lemma session_runs S L n d rp (l : list (request SB)) :
  bounded L n -> bounded (dom S) n -> keeps_rules (D := D) empty_registry l ->
  wp GetInputInterface (fun r w1 =>
    match r.2 with
    | None => r.1 <> INPUT_SUCCESS /\ ~ reliable SB /\ exists n', w1 = idle S L n' d rp
    | Some h => r.1 = INPUT_SUCCESS /\ exists la w2 lrep g' d', serve_all l w1 = Some (la, w2) /\ steps_ok empty_registry d l la lrep g' d' /\
        ready (L ∪ list_to_set (interface_blocks h)) S g' d' (rp ++ lrep) w2 /\ NoDup (interface_blocks h) /\ Forall (fun k => k ∉ L) (interface_blocks h)
    end) (idle S L n d rp).
Proof.
  intros HL HS Hk. apply wp_start; [done | done | |].
  - intros h w Hw Hd Hnew. split; [done|]. pose proof (steps _ _ l _ _ _ _ Hw Hk) as Hs. apply wp_inv in Hs as (la & w2 & E & lrep & g' & d' & Hs & Hw2).
    by exists la, w2, lrep, g', d'.
  - intros ret n' Hr Hne _. split; [done|]. split; [done|]. by exists n'.
Qed.

(** C7: an application that gets the interface and then makes requests that keep the
    rules, in any number and order and with the drivers sending events in between,
    always gets a defined answer.  The answers, and the calls of its callbacks, are
    those of the registry: devices are opened once and listed in the order of
    opening, a callback is called for exactly the events of its device while it is
    registered, commands go to open devices only.  A request can fail otherwise only
    when memory is refused, and then nothing has changed. *)
Theorem session_refines_registry S L n d rp (l : list (request SB)) :
  bounded L n -> bounded (dom S) n -> keeps_rules (D := D) empty_registry l ->
  exists ret hdi w1, GetInputInterface (idle S L n d rp) = Some ((ret, hdi), w1) /\
    match hdi with
    | None => ret <> INPUT_SUCCESS /\ ~ reliable SB /\ exists n', w1 = idle S L n' d rp
    | Some _ => ret = INPUT_SUCCESS /\ exists la w2 lrep g' d', serve_all l w1 = Some (la, w2) /\ steps_ok empty_registry d l la lrep g' d' /\
        reports (w_svc w2) = rp ++ lrep /\ drivers (w_svc w2) = d'
    end.
Proof.
  intros HL HS Hk. pose proof (session_runs S L n d rp l HL HS Hk) as Hs. apply wp_inv in Hs as ([ret hdi] & w1 & E & Hs). exists ret, hdi, w1. split; [done|].
  destruct hdi as [h|]; [|done]. destruct Hs as (Hret & la & w2 & lrep & g' & d' & E2 & Hs & Hw & _). split; [done|]. exists la, w2, lrep, g', d'. by destruct Hw.
Qed.

(** C8: releasing the interface after such a session gives back everything, also
    what the application left open: every block of memory, every service, every
    listener, every message buffer; there is no manager any more. *)
Theorem release_gives_back_everything S L n d rp (l : list (request SB)) ret h w1 la w2 :
  bounded L n -> bounded (dom S) n -> keeps_rules (D := D) empty_registry l ->
  GetInputInterface (idle S L n d rp) = Some ((ret, Some h), w1) -> serve_all l w1 = Some (la, w2) ->
  exists n', ReleaseInputInterface (Some h) w2 = Some (tt, idle S L n' (drivers (w_svc w2)) (reports (w_svc w2))) /\ bounded L n'.
Proof.
  intros HL HS Hk E1 E2. pose proof (session_runs S L n d rp l HL HS Hk) as Hs. unfold wp in Hs. rewrite E1 in Hs. cbn in Hs.
  destruct Hs as (_ & la' & w2' & lrep & g' & d' & E2' & _ & Hw & Hd & Hnew). rewrite E2 in E2'. injection E2' as <- <-.
  destruct (release_runs h _ _ _ S L _ Hw Hd Hnew) as (n' & E & Hb). exists n'. by destruct Hw.
Qed.

(** C9: a command on an open device is sent with its argument when its arguments are
    valid, and only then.  It succeeds when the driver does and its answer is
    acceptable: a power status or a type in range, a string that fits; then the
    caller gets the driver's value and the description of the device is updated as
    the command says.  Everything else the manager holds stays. *)
Theorem command_answered L0 S g d rp w index cb c :
  ready L0 S g d rp w -> callback_of index g = Some cb ->
  exists ret x w' d' i i', run_command index c w = Some ((ret, x), w') /\ ready L0 S g d' rp w' /\ info_of index w = Some i /\ info_of index w' = Some i' /\
    match command_plan c with
    | Some pl => answered (event_name index) pl d i ret x i' d'
    | None => ret = INPUT_INVALID_PARAM /\ d' = d /\ i' = i
    end.
Proof.
  intros [L n m sv rg Hr Hm Hb] Hcb. destruct (find_node index (devList m)) as [[k p]|] eqn:Ef.
  2: { apply (represents_absent _ _ _ _ _ _ _ _ Hr) in Ef. congruence. }
  destruct (represents_device _ _ _ _ _ _ _ _ _ _ Hr Ef) as (l1 & l2 & Hd & ->). pose proof Hd as [Elist Eindex Efirst Eservice Ecallback Erange Enode Efound].
  assert (forall n' i' d', devIndex i' = index -> info_of index (St S L n' (at_ m l1 p l2 i') sv rg d' rp) = Some i') as Hinfo.
  { intros n' i' d' Hi. unfold info_of. cbn. by rewrite find_node_mid. }
  assert (wp (run_command index c) (fun r w' => exists d' i', ready L0 S g d' rp w' /\ info_of index w' = Some i' /\
    match command_plan c with
    | Some pl => answered (event_name index) pl d (payload p) r.1 r.2 i' d'
    | None => r.1 = INPUT_INVALID_PARAM /\ d' = d /\ i' = payload p
    end) (St S L n (at_ m l1 p l2 (payload p)) sv rg d rp)) as Hwp.
  { apply wp_command with (index := index); try done; [by destruct Erange|]. destruct (command_plan c) as [pl|].
    - intros n' ret x i' d' Hn Ha Hi. exists d', i'. split; [|by split; [apply Hinfo|]]. constructor; [by eapply represents_at | done | by eapply bounded_le].
    - intros x. exists d, (payload p). split; [|by split; [apply Hinfo|]]. constructor; [by eapply represents_at | done | done]. }
  rewrite (at_same m l1 p l2 Elist) in Hwp. apply wp_inv in Hwp as ([ret x] & w' & E & d' & i' & Hw & Hi' & Hres).
  exists ret, x, w', d', (payload p), i'. split; [done|]. split; [done|]. split; [|done]. unfold info_of. cbn. by rewrite Ef.
Qed.

(** What the six queries make of a driver that tells about its device. *)
Lemma query_told V index cmd input accept d i ret i' d' v (x : V) f :
  query index V (cmd, input, accept) d i ret i' d' -> io_answer (event_name index) cmd (request_items input) d = (0, v, d) -> accept v = Some (x, f) ->
  d' = d /\ (ret = INPUT_SUCCESS /\ i' = f i \/ ~ reliable SB /\ ret <> INPUT_SUCCESS).
Proof.
  intros [x' [(Hr & -> & -> & _)|(ret0 & v' & E & _ & Hm)]] Ea Hacc; [split; [done | by right]|]. rewrite Ea in E. injection E as <- <- <-.
  cbn in Hm. rewrite Hacc in Hm. split; [done|]. left. tauto.
Qed.
Lemma told_string {V} limit (f : list Z -> V * (DeviceInfo -> DeviceInfo)) s : len (text s) < limit -> string_below limit f [IString s] = Some (f (text s)).
Proof. intros Hl. cbn. fold (text s). by rewrite (proj2 (Z.ltb_lt _ _) Hl). Qed.
Lemma before_nul_text s dest : before_nul (written (text s) dest) = text s.
Proof. apply before_nul_written. Qed.
(** One query more: the next step of a description in progress. *)
Lemma updated_told V index cmd input accept l d i ret i' d' v (x : V) f :
  updated (query index V (cmd, input, accept) :: l) d i ret i' d' -> io_answer (event_name index) cmd (request_items input) d = (0, v, d) -> accept v = Some (x, f) ->
  updated l d (f i) ret i' d' \/ d' = d /\ ~ reliable SB /\ ret <> INPUT_SUCCESS.
Proof.
  intros Hu Ea Hacc. inversion Hu as [|q l' ? ? ? ? ? Hq Hne|q l' ? ? i1 d1 ? ? ? Hq Hrest]; subst;
    destruct (query_told _ _ _ _ _ _ _ _ _ _ _ _ _ Hq Ea Hacc) as [-> [[Hs ->]|[Hr Hf]]]; try done; [by right | by left].
Qed.
Lemma description_told index d f i ret i' d' :
  updated (full_queries index) d i ret i' d' -> tells (event_name index) d f -> devIndex i' = index ->
  d' = d /\ (ret = INPUT_SUCCESS /\ says index f i' \/ ~ reliable SB /\ ret <> INPUT_SUCCESS).
Proof.
  intros Hu [[T1 T1'] [T2 T2'] [T3 T3'] [T4 T4'] T5 T6] Hi. unfold full_queries in Hu.
  eapply updated_told in Hu as [Hu|(-> & ? & ?)]; [|by split; [|right]|exact T1|cbn; by rewrite (proj2 (Z.ltb_lt _ _) T1')].
  eapply updated_told in Hu as [Hu|(-> & ? & ?)]; [|by split; [|right]|exact T2|exact (told_string _ _ _ T2')].
  eapply updated_told in Hu as [Hu|(-> & ? & ?)]; [|by split; [|right]|exact T3|exact (told_string _ _ _ T3')].
  eapply updated_told in Hu as [Hu|(-> & ? & ?)]; [|by split; [|right]|exact T4|exact (told_string _ _ _ T4')].
  eapply updated_told in Hu as [Hu|(-> & ? & ?)]; [|by split; [|right]|exact T5|done].
  eapply updated_told in Hu as [Hu|(-> & ? & ?)]; [|by split; [|right]|exact T6|done].
  inversion Hu; subst. split; [done|]. left. split; [done|]. split; try done; cbn; apply before_nul_text.
Qed.

(** C10: when the driver of an open device tells about it, in strings that fit, then
    asking for the device succeeds and the information behind the pointer says what
    the driver tells: type, names, abilities and attributes.  Without memory it
    fails.  Either way the registry is as before and no callback is called. *)
Theorem device_described L0 S g d rp w index cb f :
  ready L0 S g d rp w -> callback_of index g = Some cb -> tells (event_name index) d f ->
  exists ret info w', serve (Get index) w = Some (Got ret info, w') /\ ready L0 S g d rp w' /\
    (ret = INPUT_SUCCESS /\ (exists i, info = Some i /\ says index f i) \/ ~ reliable SB /\ ret <> INPUT_SUCCESS /\ info = None).
Proof.
  intros [L n m sv rg Hr Hm Hb] Hcb Ht. destruct (find_node index (devList m)) as [[k p]|] eqn:Ef.
  2: { apply (represents_absent _ _ _ _ _ _ _ _ Hr) in Ef. congruence. }
  destruct (represents_device _ _ _ _ _ _ _ _ _ _ Hr Ef) as (l1 & l2 & Hd & ->).
  assert (wp (serve (Get index)) (fun a w' => exists ret info, a = Got ret info /\ ready L0 S g d rp w' /\
    (ret = INPUT_SUCCESS /\ (exists i, info = Some i /\ says index f i) \/ ~ reliable SB /\ ret <> INPUT_SUCCESS /\ info = None)) (St S L n m sv rg d rp)) as Hwp.
  { eapply wp_GetInputDevice; [done..|]. intros n' ret i' d' Hn Hu Hi. eexists ret, _. split; [done|].
    destruct (description_told _ _ _ _ _ _ _ Hu Ht Hi) as [-> Hres]. split.
    - constructor; [by eapply represents_at | done | by eapply bounded_le].
    - destruct Hres as [[-> Hs]|[Hrel Hne]]; [left; by eauto | right]. by rewrite (proj2 (Z.eqb_neq _ _) Hne). }
  apply wp_inv in Hwp as (a & w' & E & ret & info & -> & Hw & Hres). by exists ret, info, w'.
Qed.
End run.
