(* ===== verification/InputErrors.v ===== *)
(** * InputErrors: outside the rules

    What the rules of [InputSpec.permitted] keep an application from: an event after
    the hot plug callback was removed, closing a device whose callback is registered,
    registering a callback twice. *)
From stdpp Require Import pretty.
From S2P Require Import Prelude Hdf Arrays Input InputOps InputSpec InputFacts InputRules InputCommands InputSteps.
Open Scope Z_scope.

Section errors.
Context {SB : Type} `{!Platform SB, !PlatformLaws SB} `{!HdfStatus} `{!InputTypes} {D : Type} `{!InputDrivers SB D, !InputDriverLaws SB D}.
Implicit Types (S : gmap nat SB) (L : gset nat) (n : nat) (d : D) (rp : list report) (g : registry) (w : World SB (Input D)).

Lemma crash_bind {A B} (m : M (World SB (Input D)) A) (k : A -> M (World SB (Input D)) B) w : wp m (fun a w' => k a w' = None) w -> (m ≫= k) w = None.
Proof. unfold wp, mbind, M_bind. by destruct (m w) as [[a w']|]. Qed.
Lemma crash_first {A B} (m : M (World SB (Input D)) A) (k : A -> M (World SB (Input D)) B) w : m w = None -> (m ≫= k) w = None.
Proof. unfold mbind, M_bind. by intros ->. Qed.
(** A listener that was freed, and one that finds no callback. *)
Lemma freed_listener s sb l k n L S m sv rg d rp : regs_of rg s = [(l, k)] -> l ∉ L -> event s sb (St S L n m sv rg d rp) = None.
Proof.
  intros Hr Hl. unfold event. apply crash_bind. change (run_listeners s sb (regs_of rg s) (St S L n m sv rg d rp) = None). rewrite Hr. cbn [run_listeners].
  apply crash_first. unfold run_listener. apply crash_bind. unfold wp, get_state. cbn [w_live St fst]. by rewrite bool_decide_false.
Qed.

(** C33: removing the callback for hot plugging frees the listener but leaves it
    registered with the service: the removal succeeds, and the next event of the
    host makes the framework use the freed listener. *)
Theorem hotplug_event_after_removal L0 S g d rp w cb :
  ready L0 S g d rp w -> hot g = HotPlugTo cb ->
  exists w', serve UnregisterHot w = Some (Status INPUT_SUCCESS, w') /\ ready L0 S (set_hot HotPlugLost g) d rp w' /\
    forall sb, serve (HotEvent sb) w' = None.
Proof.
  intros [L n m sv rg Hr Hm Hb] Hhot. pose proof (re_host _ _ _ _ _ _ _ Hr) as Hh. rewrite Hhot in Hh. destruct Hh as (s & l & Es & El & Ecb & Hregs).
  destruct (represents_unhot _ _ _ _ _ _ _ Hr) as [Hl Hr']. rewrite El in Hl, Hr'. rewrite Es, Hhot in Hr'.
  assert (wp (serve UnregisterHot) (fun a w' => a = Status INPUT_SUCCESS /\ ready L0 S (set_hot HotPlugLost g) d rp w' /\ forall sb, serve (HotEvent sb) w' = None) (St S L n m sv rg d rp)) as Hwp.
  2: { apply wp_inv in Hwp as (a & w' & E & -> & Hw & Hno). by exists w'. }
  cbn [serve]. apply wp_bind. unfold UnregisterHotPlugCallback. apply wp_bind, wp_manager, wp_bind, wp_lock; [done|]. rewrite El. cbn [free_opt].
  apply wp_bind, wp_free_block; [done|]. apply wp_bind, wp_upd_manager, wp_bind, wp_unlock, wp_ret, wp_ret. split; [done|]. cbn [hostDev set_mutex]. rewrite Es. split.
  - constructor; [exact (represents_mutex _ _ _ _ false _ _ _ Hr') | done | done].
  - intros sb. cbn [serve]. apply crash_bind, wp_manager, crash_bind. eapply wp_deref; [done|]. apply crash_first. eapply freed_listener; [done | set_solver].
Qed.

(** Closing a device while its callback is registered succeeds, yet the block of
    its listener stays live and nothing knows it any more, and the manager goes on
    counting its callback. *)
Lemma close_loses_listener L0 S g d rp w index cb :
  ready L0 S g d rp w -> callback_of index g = Some (Some cb) ->
  exists w' l m', serve (Close index) w = Some (Status INPUT_SUCCESS, w') /\ g_devManager (w_svc w') = Some m' /\
    l ∈ w_live w' /\ l ∉ L0 /\ l ∉ blocks_of (manager_at m') (host_listener (hostDev m')) (devList m') /\
    evtCallbackNum m' = Z.of_nat (callbacks (devList m')) + 1.
Proof.
  intros [L n m sv rg Hr Hm Hb] Hcb. destruct (find_node index (devList m)) as [[k p]|] eqn:Ef.
  2: { apply (represents_absent _ _ _ _ _ _ _ _ Hr) in Ef. congruence. }
  destruct (represents_device _ _ _ _ _ _ _ _ _ _ Hr Ef) as (l1 & l2 & [Elist Eindex Efirst Eservice Ecallback Erange [Eregs Enode] Efound] & ->).
  assert (eventCb p = Some cb) as Ecb by congruence. destruct (listener p) as [l|] eqn:El; [|by rewrite (proj1 Enode eq_refl) in Ecb].
  pose proof (re_blocks _ _ _ _ _ _ _ Hr) as Ho. apply (owned_perm _ _ _ _ (node_at p :: l :: blocks_of (manager_at m) (host_listener (hostDev m)) (l1 ++ l2))) in Ho.
  2: { rewrite Elist, blocks_split. unfold node_blocks. by rewrite El. }
  destruct (owned_free _ _ _ _ _ Ho) as [Hnode Ho'].
  assert (wp (serve (Close index)) (fun a w' => a = Status INPUT_SUCCESS /\ exists m', g_devManager (w_svc w') = Some m' /\
    l ∈ w_live w' /\ l ∉ L0 /\ l ∉ blocks_of (manager_at m') (host_listener (hostDev m')) (devList m') /\
    evtCallbackNum m' = Z.of_nat (callbacks (devList m')) + 1) (St S L n m sv rg d rp)) as Hwp.
  2: { apply wp_inv in Hwp as (a & w' & E & -> & m' & Hres). by exists w', l, m'. }
  cbn [serve]. apply wp_bind. eapply wp_present_device; [done..|]. apply wp_bind. eapply wp_recycle_service; [done|].
  apply wp_bind, wp_free_block; [done|]. apply wp_bind, wp_upd_manager, wp_ret, wp_unlock, wp_ret. split; [done|]. eexists. split; [done|].
  destruct Ho' as [Hd Hnew Hlive _]. cbn -[blocks_of callbacks]. rewrite Elist, delete_middle. split_and!.
  - rewrite Hlive. set_solver.
  - by apply Forall_cons in Hnew as [? _].
  - by apply NoDup_cons in Hd as [? _].
  - rewrite (re_callbacks _ _ _ _ _ _ _ Hr), Elist, callbacks_split, Ecb. cbn -[callbacks]. lia.
Qed.

Lemma regs_filtered (rg : list (nat * (nat * listener_kind))) s n :
  regs_of (filter (fun q => ~ (q.1 = s /\ q.2.1 = n)) rg) s = filter (fun r => r.1 <> n) (regs_of rg s).
Proof.
  unfold regs_of. induction rg as [|q rg IH]; [done|]. rewrite (filter_cons (fun q => ~ _)), (filter_cons (fun q => q.1 = s)).
  destruct (decide (q.1 = s)) as [E|E].
  - cbn [fmap list_fmap]. destruct (decide (q.2.1 = n)) as [En|En].
    + rewrite decide_False by (by intros Hn; apply Hn). rewrite filter_cons_False by (by intros Hn; apply Hn). done.
    + rewrite decide_True by (by intros []). rewrite filter_cons_True by done. rewrite (filter_cons_True (fun r => r.1 <> n)) by done. cbn. by rewrite <- IH.
  - rewrite decide_True by (by intros []). by rewrite filter_cons_False.
Qed.
(** An event that finds a listener but no callback. *)
Lemma callback_missing l1 p l2 pkgs S L n m sv rg d rp : (forall q, q ∈ l1 -> service q <> service p) -> eventCb p = None ->
  call_back (l1 ++ p :: l2) (service p) pkgs (St S L n m sv rg d rp) = None.
Proof.
  induction l1 as [|q l1 IH]; intros Hl Hcb; cbn [call_back app].
  - rewrite Nat.eqb_refl, Hcb. by apply crash_first, crash_first.
  - rewrite (proj2 (Nat.eqb_neq _ _)) by (apply Hl; by left). apply crash_bind, wp_ret, IH; [|done]. intros q' Hq. apply Hl. by right.
Qed.
Lemma event_without_callback sb l1 p l2 l S L n m sv rg d rp : bounded (dom S) n -> devList m = l1 ++ p :: l2 -> (forall q, q ∈ l1 -> service q <> service p) -> eventCb p = None ->
  regs_of rg (service p) = [(l, ReportListener)] -> l ∈ L -> Forall is_buffer (sbuf_view sb) -> event (service p) sb (St S L n m sv rg d rp) = None.
Proof.
  intros Hb Hm Hne Hcb Hr Hl Hbuf. unfold event. apply crash_bind.
  change (run_listeners (service p) sb (regs_of rg (service p)) (St S L n m sv rg d rp) = None). rewrite Hr. cbn [run_listeners].
  apply crash_first. unfold run_listener. apply crash_bind. unfold wp at 1, get_state. cbn [w_live St fst snd]. rewrite bool_decide_true by done. cbn [negb].
  apply crash_bind. unfold wp at 1, fresh. cbn. apply crash_bind, wp_modify, crash_first. cbn.
  change (EventListenerCallback (Some (service p)) (Some n) (St (<[n := sb]> S) L (Datatypes.S n) m sv rg d rp) = None).
  unfold EventListenerCallback. apply crash_bind, wp_manager, crash_bind. apply (wp_packages n sb (sbuf_view sb)); [done | done |]. intros sb'.
  apply crash_first. rewrite Hm. by apply callback_missing.
Qed.

(** Registering a second callback for a device succeeds and leaves two listeners,
    of which one is forgotten.  After the callback is removed, which succeeds too,
    the next event of the device calls through a null pointer. *)
Lemma second_registration L0 S g d rp w index cb cb2 :
  ready L0 S g d rp w -> callback_of index g = Some (Some cb) -> reliable SB ->
  listen_status (event_name index) d = 0 -> unlisten_status (event_name index) d = 0 ->
  exists w1 w2, serve (Register index (Some cb2)) w = Some (Status INPUT_SUCCESS, w1) /\ serve (Unregister index) w1 = Some (Status INPUT_SUCCESS, w2) /\
    forall sb, Forall is_buffer (sbuf_view sb) -> serve (DeviceEvent index sb) w2 = None.
Proof.
  intros [L n m sv rg Hr Hm Hb] Hcb Hrel Hls Hus. destruct (find_node index (devList m)) as [[k p]|] eqn:Ef.
  2: { apply (represents_absent _ _ _ _ _ _ _ _ Hr) in Ef. congruence. }
  destruct (represents_device _ _ _ _ _ _ _ _ _ _ Hr Ef) as (l1 & l2 & [Elist Eindex Efirst Eservice Ecallback Erange [Eregs Enode] Efound] & ->).
  destruct (represents_alone _ _ _ _ _ _ _ _ _ _ Hr Elist) as [[_ Hne] _].
  assert (eventCb p = Some cb) as Ecb by congruence. destruct (listener p) as [l|] eqn:El; [|by rewrite (proj1 Enode eq_refl) in Ecb].
  assert (l ∈ L) as Hl.
  { rewrite (ow_live _ _ _ _ (re_blocks _ _ _ _ _ _ _ Hr)), Elist, blocks_split. unfold node_blocks. rewrite El. cbn. set_solver. }
  assert (l < n)%nat as Hln by (apply (ow_bounded _ _ _ _ (re_blocks _ _ _ _ _ _ _ Hr)); done).
  set (p1 := set_callback (Some n) (Some cb2) p). set (p2 := set_callback None None p).
  set (m1 := set_devList (l1 ++ p1 :: l2) (set_evtCallbackNum (i32 (evtCallbackNum m + 1)) m)).
  set (w1 := St S ({[n]} ∪ L) (Datatypes.S n) m1 sv (rg ++ [(service p, (n, ReportListener))]) d rp).
  assert (wp (serve (Register index (Some cb2))) (fun a w' => a = Status INPUT_SUCCESS /\ w' = w1) (St S L n m sv rg d rp)) as Hwp1.
  { cbn [serve]. apply wp_bind. unfold RegisterReportCallback. rewrite (proj2 (Z.leb_gt _ _)) by apply Erange. eapply wp_present_device; [done..|].
    apply wp_bind, wp_malloc; [|done]. apply wp_bind. eapply wp_listen; [done| |]; intros Hst; [|done]. cbn [negb Z.eqb INPUT_SUCCESS].
    apply wp_bind, wp_upd_manager, wp_bind, wp_upd_node, wp_ret, wp_unlock, wp_ret. split; [done|]. unfold w1, m1. cbn. rewrite Elist, alter_at. by destruct m; cbn in *; subst. }
  set (m2 := set_evtCallbackNum (i32 (evtCallbackNum m1 - 1)) (set_devList (l1 ++ p2 :: l2) m1)).
  set (rg2 := filter (fun q => ~ (q.1 = service p /\ q.2.1 = n)) (rg ++ [(service p, (n, ReportListener))])).
  assert (wp (serve (Unregister index)) (fun a w' => a = Status INPUT_SUCCESS /\ w' = St S (({[n]} ∪ L) ∖ {[n]}) (Datatypes.S n) m2 sv rg2 d rp) w1) as Hwp2.
  { unfold w1. cbn [serve]. apply wp_bind. unfold UnregisterReportCallback. rewrite (proj2 (Z.leb_gt _ _)) by apply Erange.
    eapply wp_present_device; [by destruct m; cbn in * | by apply find_node_mid |]. apply wp_bind. eapply wp_unlisten; [exact Eservice| |]; intros Hst; [|done].
    cbn [negb Z.eqb INPUT_SUCCESS free_opt listener p1 set_callback]. apply wp_bind, wp_free_block; [set_solver|].
    apply wp_bind, wp_upd_node, wp_bind, wp_upd_manager, wp_ret, wp_unlock, wp_ret. split; [done|]. unfold m2, m1. cbn. rewrite alter_at. by destruct m; cbn in *; subst. }
  apply wp_inv in Hwp1 as (a1 & w1' & E1 & -> & ->). apply wp_inv in Hwp2 as (a2 & w2 & E2 & -> & ->). eexists _, _. split; [exact E1|]. split; [exact E2|].
  intros sb Hbuf. cbn [serve]. apply crash_bind, wp_manager, crash_bind. eapply wp_deref; [done|]. apply crash_first.
  change (devList m2) with (l1 ++ p2 :: l2). rewrite (find_node_mid index l1 p2 l2) by done. cbn [fmap option_fmap option_map event_of snd].
  eapply (event_without_callback sb l1 p2 l2 l); [eapply bounded_le; [done | lia] | done | set_solver | done | | set_solver by lia | done].
  unfold rg2. cbn [service p2 set_callback]. rewrite regs_filtered, regs_app, Eregs. unfold node_regs. rewrite El. unfold regs_of.
  rewrite (filter_cons_True (fun q => q.1 = service p)) by done. change (filter (fun r : nat * listener_kind => r.1 <> n) [(l, ReportListener); (n, ReportListener)] = [(l, ReportListener)]). rewrite filter_cons_True by (cbn; lia).
  by rewrite filter_cons_False by (cbn; lia).
Qed.
End errors.
