(* ===== verification/InputInstance.v ===== *)
(** * InputInstance: a session with a touch screen

    Drivers that satisfy the laws of [InputSpec], a session that keeps the rules with
    the answers it gets, and the witnesses of the theorems. *)
From stdpp Require Import pretty.
From S2P Require Import Prelude Hdf HdfQueue Arrays Input InputOps InputSpec InputFacts InputRules InputCommands InputSteps InputRun InputErrors.
Open Scope Z_scope.

(** ** The drivers: one device, number 1, and the host; the state is the power status *)
#[global] Instance touch_types : InputTypes := { sizeof _ := 4 }.
Definition touch_answer (name : string) (cmd : Z) (rq : list item) (d : Z) : Z * list item * Z :=
  if String.eqb name DEV_MANAGER_SERVICE_NAME then (0, [IBuffer [1; 0; 0; 0; 1; 0; 0; 0]], d)
  else if cmd =? GET_DEV_TYPE then (0, [IUint32 1], d)
  else if cmd =? SET_PWR_STATUS then match rq with [IUint32 v] => (0, [], v) | _ => (-1, [], d) end
  else if cmd =? GET_PWR_STATUS then (0, [IUint32 d], d)
  else if cmd =? GET_CHIP_INFO then (0, [IString "v1.0"], d)
  else if cmd =? GET_VENDOR_NAME then (0, [IString "goodix"], d)
  else if cmd =? GET_CHIP_NAME then (0, [IString "GT911"], d)
  else if cmd =? RUN_CAPAC_TEST then (0, [IString "pass"], d)
  else if cmd =? GET_DEV_ATTR then (0, [IBuffer [1; 2; 3; 4]], d)
  else if cmd =? GET_DEV_ABILITY then (0, [IBuffer [5; 6; 7; 8]], d)
  else (-1, [], d).
#[global] Instance touch_drivers : InputDrivers (list item) Z := {
  bind_ok name _ := String.eqb name DEV_MANAGER_SERVICE_NAME || String.eqb name "hdf_input_event1";
  listen_status _ _ := 0;
  unlisten_status _ _ := 0;
  io_dispatch name cmd data sr d := let '(ret, v, d) := touch_answer name cmd (default [] data) d in (ret, sr ++ v, d);
}.
#[global] Instance touch_laws : InputDriverLaws (list item) Z.
Proof.
  refine {| io_answer := touch_answer |}.
  - intros name cmd data sr d Hv. cbn in Hv. subst sr. cbn. destruct data as [rq|]; cbn; destruct (touch_answer _ _ _ _) as [[ret v] d'] eqn:E; by exists ret, v, d'.
  - intros name cmd rq d v d' Hname. unfold touch_answer. rewrite (proj2 (String.eqb_neq _ _) Hname). unfold well_shaped.
    destruct (Z.eqb_spec cmd GET_DEV_TYPE) as [->|]; [intros [= <- <-]; cbn; by eexists _, _|].
    destruct (Z.eqb_spec cmd SET_PWR_STATUS) as [->|]; [by destruct rq as [|[] []]|].
    destruct (Z.eqb_spec cmd GET_PWR_STATUS) as [->|]; [intros [= <- <-]; cbn; by eexists _, _|].
    destruct (Z.eqb_spec cmd GET_CHIP_INFO) as [->|]; [intros [= <- <-]; cbn; by eexists _, _|].
    destruct (Z.eqb_spec cmd GET_VENDOR_NAME) as [->|]; [intros [= <- <-]; cbn; by eexists _, _|].
    destruct (Z.eqb_spec cmd GET_CHIP_NAME) as [->|]; [intros [= <- <-]; cbn; by eexists _, _|].
    destruct (Z.eqb_spec cmd RUN_CAPAC_TEST) as [->|]; [intros [= <- <-]; cbn; by eexists _, _|].
    destruct (Z.eqb_spec cmd GET_DEV_ATTR) as [->|]; [intros [= <- <-]; cbn; by eexists _, _|].
    destruct (Z.eqb_spec cmd GET_DEV_ABILITY) as [->|]; [intros [= <- <-]; cbn; by eexists _, _|]. done.
  - intros k s Hs. cbn in Hs. subst s. cbn. by eexists.
  - done.
Defined.

(** ** A session *)
Definition start : World (list item) (Input Z) := idle ∅ ∅ 0 0 [].
Definition session : list (request (list item)) :=
  [Open 1; Open 2; Open 1; Register 1 (Some 7); DeviceEvent 1 [IBuffer [10; 11]; IBuffer [12]]; Listing 4; Command 1 (PowerTo 1); Command 1 (PowerOf (Some 0));
   Command 1 (ChipNameOf (Some (replicate 10 9)) 10); RegisterHot (Some 8); HotEvent [IBuffer [1; 1]]; Scan [[]; []] 2; Unregister 1; DeviceEvent 1 [IBuffer [13]]].
Definition run_session (l : list (request (list item))) : option (list answer * World (list item) (Input Z)) :=
  match GetInputInterface start with Some ((_, Some _), w1) => serve_all l w1 | _ => None end.
(** Its answers and the calls of the callbacks. *)
Lemma session_answers : (fun r => (r.1, reports (w_svc r.2))) <$> run_session session =
  Some ([Status 0; Status INPUT_NULL_PTR; Status INPUT_FAILURE; Status 0; Happened; Listed 0 1 [1]; Valued 0 (Word None); Valued 0 (Word (Some 1));
         Valued 0 (Chars (Some [71; 84; 57; 49; 49; 0; 9; 9; 9; 9])); Status 0; Happened; Scanned 0 [[1; 0; 0; 0; 1; 0; 0; 0]; []]; Status 0; Happened],
        [EventPkgs 7 [[10; 11]; [12]] 1; HotPlugged 8 [1; 1]]).
Proof. vm_compute. reflexivity. Qed.

(** The outcome of a request is known, because no memory is refused. *)
Ltac known Hs := destruct Hs as (-> & -> & [Hs|[Hno _]]); [vm_compute in Hs; injection Hs as -> -> | by destruct (Hno queue_reliable)].
Lemma command_outcome (d : Z) g i c a rep g' d' : step_ok (SB := list item) (Command i c) g d a rep g' d' -> g' = g.
Proof. by intros (_ & -> & _). Qed.
Lemma scan_outcome (d : Z) g s k a rep g' d' : step_ok (SB := list item) (Scan s k) g d a rep g' d' -> g' = mkRegistry (opened g) (hot g) (bound g || true).
Proof. by intros (_ & -> & _). Qed.
Lemma session_rules : keeps_rules (D := Z) empty_registry session.
Proof.
  split; [done|]. intros d1 a1 r1 g1 e1 Hs. known Hs.
  split; [done|]. intros d2 a2 r2 g2 e2 Hs. known Hs.
  split; [done|]. intros d3 a3 r3 g3 e3 Hs. known Hs.
  split; [done|]. intros d4 a4 r4 g4 e4 Hs. known Hs.
  split; [by repeat constructor|]. intros d5 a5 r5 g5 e5 Hs. known Hs.
  split; [done|]. intros d6 a6 r6 g6 e6 Hs. known Hs.
  split; [done|]. intros d7 a7 r7 g7 e7 ->%command_outcome.
  split; [done|]. intros d8 a8 r8 g8 e8 ->%command_outcome.
  split; [done|]. intros d9 a9 r9 g9 e9 ->%command_outcome.
  split; [done|]. intros d10 a10 r10 g10 e10 Hs. known Hs.
  split; [split; [by repeat constructor | done]|]. intros d11 a11 r11 g11 e11 Hs. known Hs.
  split; [done|]. intros d12 a12 r12 g12 e12 ->%scan_outcome. cbn [opened hot bound orb].
  split; [done|]. intros d13 a13 r13 g13 e13 Hs. known Hs.
  split; [by repeat constructor|]. done.
Qed.

Lemma empty_bounded : bounded ∅ 0.
Proof. by intros k Hk%not_elem_of_empty. Qed.
Lemma empty_messages : bounded (dom (∅ : gmap nat (list item))) 0.
Proof. intros k Hk. by rewrite dom_empty_L in Hk. Qed.

Lemma session_refines_registry_witness : exists ret hdi w1, GetInputInterface start = Some ((ret, hdi), w1) /\
  match hdi with
  | None => ret <> INPUT_SUCCESS /\ ~ reliable (list item) /\ exists n', w1 = idle ∅ ∅ n' 0 []
  | Some _ => ret = INPUT_SUCCESS /\ exists la w2 lrep g' d', serve_all session w1 = Some (la, w2) /\ steps_ok empty_registry 0 session la lrep g' d' /\
      reports (w_svc w2) = [] ++ lrep /\ drivers (w_svc w2) = d'
  end.
Proof. apply (session_refines_registry ∅ ∅ 0 0 [] session); [apply empty_bounded | apply empty_messages | apply session_rules]. Defined.

Lemma release_gives_back_everything_witness : exists ret h w1 la w2 n', GetInputInterface start = Some ((ret, Some h), w1) /\ serve_all session w1 = Some (la, w2) /\
  ReleaseInputInterface (Some h) w2 = Some (tt, idle ∅ ∅ n' (drivers (w_svc w2)) (reports (w_svc w2))).
Proof.
  pose proof (session_runs ∅ ∅ 0 0 [] session empty_bounded empty_messages session_rules) as Hrun.
  apply wp_inv in Hrun as ([ret [h|]] & w1 & E1 & Hrun); cbn in Hrun; [|by destruct Hrun as (_ & Hno & _); destruct (Hno queue_reliable)].
  destruct Hrun as (_ & la & w2 & _ & _ & _ & E2 & _).
  pose proof (release_gives_back_everything ∅ ∅ 0 0 [] session ret h w1 la w2) as Hrel.
  specialize (Hrel empty_bounded empty_messages session_rules). specialize (Hrel E1 E2).
  destruct Hrel as (n' & Hrel). destruct Hrel as (E & _). exists ret, h, w1, la, w2, n'. split; [exact E1|]. split; [exact E2 | exact E].
Defined.

(** ** A state with the device open, and one with its callbacks *)
Definition after (l : list (request (list item))) : World (list item) (Input Z) := match run_session l with Some (_, w) => w | None => start end.
Lemma after_ready l : keeps_rules (D := Z) empty_registry l ->
  exists la lrep g d, steps_ok empty_registry 0 l la lrep g d /\ ready {[0; 1; 2; 3]}%nat ∅ g d lrep (after l).
Proof.
  intros Hk. unfold after, run_session. pose proof (session_runs ∅ ∅ 0 0 [] l empty_bounded empty_messages Hk) as Hrun.
  apply wp_inv in Hrun as ([ret [h|]] & w1 & E1 & Hrun); cbn in Hrun; [|by destruct Hrun as (_ & Hno & _); destruct (Hno queue_reliable)].
  destruct Hrun as (_ & la & w2 & lrep & g & d & E2 & Hs & Hw & _). fold start in E1. rewrite E1, E2. exists la, lrep, g, d. split; [done|].
  replace ({[0; 1; 2; 3]}%nat) with (∅ ∪ list_to_set (interface_blocks h) : gset nat); [done|].
  assert (h = mkInterface 0 (Some 1%nat) (Some 2%nat) (Some 3%nat)) as ->; [|vm_compute; reflexivity].
  assert ((fun r => r.1.2) <$> GetInputInterface start = Some (Some (mkInterface 0 (Some 1%nat) (Some 2%nat) (Some 3%nat)))) as Eh by (vm_compute; reflexivity).
  rewrite E1 in Eh. by injection Eh.
Qed.

(** Device 1 open, then also with its callback and the one for hot plugging. *)
Definition opening : list (request (list item)) := [Open 1].
Definition listening : list (request (list item)) := [Open 1; Register 1 (Some 7); RegisterHot (Some 8)].
Lemma opening_rules : keeps_rules (D := Z) empty_registry opening.
Proof. split; [done|]. done. Qed.
Lemma listening_rules : keeps_rules (D := Z) empty_registry listening.
Proof.
  split; [done|]. intros d1 a1 r1 g1 e1 Hs. known Hs. split; [done|]. intros d2 a2 r2 g2 e2 Hs. known Hs. split; [done|]. done.
Qed.
Definition one_open : registry := mkRegistry [(1, None)] NoHotPlug false.
Definition one_listening : registry := mkRegistry [(1, Some 7)] (HotPlugTo 8) true.
Lemma opening_ready : ready {[0; 1; 2; 3]}%nat ∅ one_open 0 [] (after opening).
Proof.
  destruct (after_ready opening opening_rules) as (la & lrep & g & d & Hs & Hw). inversion Hs as [|? ? ? ? a1 r1 g1 d1 ? ? ? ? S1 Rest1]; subst. known S1.
  inversion Rest1; subst. exact Hw.
Qed.
Lemma listening_ready : ready {[0; 1; 2; 3]}%nat ∅ one_listening 0 [] (after listening).
Proof.
  destruct (after_ready listening listening_rules) as (la & lrep & g & d & Hs & Hw). inversion Hs as [|? ? ? ? a1 r1 g1 d1 ? ? ? ? S1 Rest1]; subst. known S1.
  inversion Rest1 as [|? ? ? ? a2 r2 g2 d2 ? ? ? ? S2 Rest2]; subst. known S2. inversion Rest2 as [|? ? ? ? a3 r3 g3 d3 ? ? ? ? S3 Rest3]; subst. known S3.
  inversion Rest3; subst. exact Hw.
Qed.

Lemma command_answered_witness : exists ret x w' d' i i',
  run_command 1 (PowerTo 2) (after opening) = Some ((ret, x), w') /\ ready {[0; 1; 2; 3]}%nat ∅ one_open d' [] w' /\
  info_of 1 (after opening) = Some i /\ info_of 1 w' = Some i' /\
  match command_plan (PowerTo 2) with
  | Some pl => answered (event_name 1) pl 0 i ret x i' d'
  | None => ret = INPUT_INVALID_PARAM /\ d' = 0 /\ i' = i
  end.
Proof. exact (command_answered _ _ _ _ _ _ 1 None (PowerTo 2) opening_ready eq_refl). Defined.

(** The panel tells about itself. *)
Definition panel : device_facts := mkFacts 1 "GT911" "v1.0" "goodix" [5; 6; 7; 8] [1; 2; 3; 4].
Lemma panel_tells : tells (event_name 1) (0 : Z) panel.
Proof. split; by vm_compute. Qed.
Lemma device_described_witness : exists ret info w',
  serve (Get 1) (after opening) = Some (Got ret info, w') /\ ready {[0; 1; 2; 3]}%nat ∅ one_open 0 [] w' /\
  (ret = INPUT_SUCCESS /\ (exists i, info = Some i /\ says 1 panel i) \/ ~ reliable (list item) /\ ret <> INPUT_SUCCESS /\ info = None).
Proof. exact (device_described _ _ _ _ _ _ 1 None panel opening_ready eq_refl panel_tells). Defined.

Lemma hotplug_event_after_removal_witness : exists w',
  serve UnregisterHot (after listening) = Some (Status INPUT_SUCCESS, w') /\ ready {[0; 1; 2; 3]}%nat ∅ (set_hot HotPlugLost one_listening) 0 [] w' /\
  forall sb, serve (HotEvent sb) w' = None.
Proof. exact (hotplug_event_after_removal _ _ _ _ _ _ 8 listening_ready eq_refl). Defined.

(** Closing with a callback, and registering twice, at the same state. *)
Lemma close_loses_listener_witness : exists w' l m',
  serve (Close 1) (after listening) = Some (Status INPUT_SUCCESS, w') /\ g_devManager (w_svc w') = Some m' /\
  l ∈ w_live w' /\ l ∉ ({[0; 1; 2; 3]}%nat : gset nat) /\ l ∉ blocks_of (manager_at m') (host_listener (hostDev m')) (devList m') /\
  evtCallbackNum m' = Z.of_nat (callbacks (devList m')) + 1.
Proof. exact (close_loses_listener _ _ _ _ _ _ 1 7 listening_ready eq_refl). Defined.
Lemma second_registration_witness : exists w1 w2,
  serve (Register 1 (Some 9)) (after listening) = Some (Status INPUT_SUCCESS, w1) /\ serve (Unregister 1) w1 = Some (Status INPUT_SUCCESS, w2) /\
  forall sb, Forall is_buffer (sbuf_view sb) -> serve (DeviceEvent 1 sb) w2 = None.
Proof. exact (second_registration _ _ _ _ _ _ 1 7 9 listening_ready eq_refl queue_reliable eq_refl eq_refl). Defined.
